(* ===== verification/_CoqProject ===== *)
-Q . S2P
Prelude.v
PyDecimal.v
Sql.v
PyTime.v
AuditLog.v
Outbox.v
Idempotency.v
WalletDb.v
RateCard.v
Lots.v
Ledger.v
Wallet.v
Envelope.v
Payments.v
AutoRecharge.v
RechargeRun.v
Refunds.v
Disputes.v
FleetWalk.v
Account.v
Caps.v
Workspaces.v
Trials.v
FirstPayment.v
TrialSweep.v
TrialAccess.v
PlatformFee.v
PaymentEvents.v
Phone.v
Dnc.v
Clearance.v
Gate.v
Callbacks.v
