(* ===== verification/Prelude.v ===== *)
(** * Calevate: verification of the platform's money, delivery and calling rules

    Calevate is a multi-tenant service of AI voice agents: a FastAPI application
    (src/apps/api), its background workers (src/apps/workers) and a shared package
    (src/packages/shared).  Tenants pay ahead for talk time; provider webhooks and
    queued jobs drive the rest.  This library models the parts on which money,
    exactly-once behaviour and the rules of calling rest, translated from the Python
    source and the SQL it issues, and proves what makes them correct.

    ** Conventions

    - [Prelude]: [result] (a value or the exception raised), the transaction monad
      [tx] over a database state (an exception discards the state, as the session's
      rollback does), shared tactics.
    - [PyDecimal]: Python's [decimal] by value, in [Q]: the 28-digit context,
      [quantize] and its rounding modes, with exactness and monotonicity lemmas.
    - [Sql]: a table is a list of rows; [select], [update], [order_by], [limit] and
      [claim] (the WITH ... UPDATE shape); [json] documents as association lists.
      Row-level security appears as the tenant the session runs as.
    - [PyTime]: Python's calendar: ordinals, dates, the IST offset, month addition,
      with both round trips.
    - The clock and the id generator are streams kept in the state; what is relied on
      of them (the clock does not step back, UUIDv7 ids increase) is [order_ok].
    - PostgreSQL serialises statements on a row; a [tx] computation runs alone, as the
      per-tenant advisory lock of the billing code makes it.  Interleaving is modelled
      where the code does without that lock: the draw over lots ([Lots.race]), the
      outbox and the idempotency records (sequences of steps of any number of actors).

    ** Parts

    - [Outbox] (apps/api/reliability/service.py, apps/workers/dispatcher.py,
      apps/workers/outbox_consumer.py): messages are written with the work they
      announce, claimed under a lease, handed to the queue, marked and swept.
      Theorems: every reachable table is well formed; claims are disjoint, bounded and
      first-in first-out; a tick accounts for every message whatever the queue
      answers; a message that ran to success is not run again while its record is kept.
    - [Idempotency] (same service): requests with an idempotency key and webhook
      events.  Theorems: replay of completed work and exclusion of work in doubt (both
      until the record's expiry), fencing of lapsed holders, one handling per event.
    - [WalletDb] (apps/api/billing/models.py): the ledger and lot tables, their
      constraints and NUMERIC(12,4).
    - [RateCard] (list_rates.py, credit_packs.py, RateCard of billing/service.py): the
      dated rates a purchase is credited at.  Theorems: the rate read is the newest in
      force; the past does not change; two spellings of one cell (a finding).
    - [Lots] (billing/lots.py): the first-in first-out store credit is spent from.
      Theorems: conservation against concurrent writers, termination of the retries,
      refinement of a reference draw, exact restatement.
    - [Ledger] (billing/service.py): the append-only ledger.  Theorems: what a
      movement records and announces; the exact split into paise.
    - [Wallet] (billing/service.py, credit_expiry.py): the operations that move both.
      The invariant [wallet_ok]: every tenant's lots hold its balance while that is
      not negative, nothing when it is.  Between the two writes of an operation
      [owing] says what is owed.  Theorems: usage, credit, removal, re-price and
      expiry keep or restore it, and do exactly what they report; a removal
      ([taken_off]) says what it does to the lot of the entry it corrects.
    - [AuditLog] (compliance/audit.py): the hash chain of the audit log with its ring of
      keys.  Theorems: a verified log is fixed by its head, the addresses of what
      [write_audit] writes with it; what is written across key rotations verifies; the
      batched walk is one pass.
    - [Envelope] (billing/payments.py, payment_objects.py, disputes.py): reading a
      provider's event, and paise to rupees and back.
    - [Payments], [Refunds], [Disputes] (billing/payments.py, disputes.py,
      dispute_hold.py): what the provider's events do to the wallet, over the database
      [pay] that joins the wallet's tables with theirs.  Theorems: a payment is credited
      once; a refund is recorded once and takes back its amount and exactly its share of
      the bonus ([refund_applied]), within the ceiling of what was paid, and asking for one
      always has an answer; what a dispute's event comes to is determined
      ([event_answer]) and moves credit by its rounds only.  A finding: a late event of an
      earlier phase holds the money again.
      A payment reports to its account through the class [Payments.FirstPayment], which
      states that nothing of the wallet moves.
    - [AutoRecharge] (billing/auto_recharge.py, payment_models.py, payment_objects.py):
      the settings, mandates and charges of automatic recharge, each of its transactions.
      Theorem [recharge_life]: over every order of them, whatever the rest of the platform
      does in between, a switch that is on is covered by what the client approved, one
      charge is in flight at most, and a charge's end is final.
      [RechargeRun] (the same file, razorpay_api.py, the sweep of
      apps/workers/razorpay_jobs.py): those transactions with the provider's requests
      between them.  Theorem [recharge_run]: a payment is asked for once, for a charge
      claimed under the limits, and one in doubt stays in flight.
    - [FleetWalk] (apps/workers/fleet_walk.py): a nightly job visits the tenants under a
      deadline and resumes where it stopped.  Theorem: every tenant is reached.
    - [Account]: the tables of an account's standing, over which [pay] is instantiated,
      with two ways of saying what a computation leaves alone ([keeps], [frames]).
    - [Caps] (billing/caps.py, terms.py, plans.py, the counters of
      apps/workers/pipeline.py, [spend_capped] of compliance/service.py): ceilings,
      counters and the stop flag the gate reads.  Theorem: every writer leaves the flag
      as the ceilings in force say.  A finding: a zero ceiling lapses with the month.
    - [Workspaces] (tenancy/engine_workspace.py, agents/live_apply.py, go_live/moves.py):
      the workspace an account is owed and the settings runs queued for its agents.
    - [Trials] (billing/trials.py, apps/workers/trials.py, compliance/tenant_erasure.py):
      the life of a free trial up to the erasure of an unpaid client's data;
      [TrialSweep] the nightly pass over the fleet, each tenant in transactions of its
      own.  Theorem: each tenant served is left exactly as its newest trial is owed
      ([served]), and a failure costs only its tenant.
    - [TrialAccess] (compliance/trial_access.py): what an account on a trial is refused and
      how long its test calls may be.  Theorem: placed one at a time they stay within a
      minute of the free minutes.  A finding: an allowance kept while another call ends
      is spent twice.
    - [FirstPayment] (billing/first_payment.py, trial_routes.py): the doors to a paid
      account; it is the instance of [Payments.FirstPayment].  Theorems: the invariant of
      trials and payments over every order of operations ([trial_life]); the first
      payment is taken once and settles the trial; a captured payment reaches its
      account.  A finding: a replaced trial uncovers the calls placed on it.

    - [PlatformFee] (billing/platform_fee.py, platform_fee_routes.py,
      apps/workers/billing.py): the monthly fee, paid apart from the wallet, its waiver,
      its hourly job and the pause of calls while one is overdue.  Theorem [fee_life]: over
      every order of its transactions.  A finding: a fee with a fraction of a paisa cannot
      be paid at the order's amount.
    - [PaymentEvents] (billing/payment_events.py, payment_objects.py, the attempts of
      billing/wallet.py): what each verified event does, composing the inbox, [Payments],
      [Refunds], [Disputes], [AutoRecharge] and [PlatformFee] over one state.  Theorem
      [captured_once]: a captured payment is booked once, where our own record of its
      order says.
    - [Phone] (ingest/service.py, agents/models.py, compliance/autodialer.py): numbers as
      they are stored.  Theorem: [normalize_phone] gives one form, whatever the spelling.
    - [Dnc] (compliance/dnc.py, optout.py, dnc_recall.py, engine_dnc.py, [add_to_dnc] of
      compliance/service.py, the cancellations of callbacks/service.py and
      follow_ups/runner.py): the do-not-call list and every way on and off it.  Theorems:
      an opt-out said on a call binds until that row is restored on an attested ground
      ([optout_stands]); every row that goes was lifted for a reason that held
      ([suppression_lifts]).  A finding: an opt-out on a call we have no row of, following
      another such, is not seen as newer evidence.
    - [Clearance] (compliance/kyc.py, outbound_pledge.py, autodialer.py, legal/catalogue.py,
      legal/service.py): the paperwork, each table with its operations.  Theorems: a
      business passes on evidence, and a DigiLocker requirement holds until a run
      ([identity_gate]); accepted agreements stay accepted until a material revision
      ([agreements_stand]); calling numbers pass that a standing confirmation lists
      ([declared_numbers]).
    - [Gate] (compliance/service.py, tenancy/call_lines.py, the verdicts of
      agents/reconciliation.py): [check_dispatch], composed of [Caps], [Disputes],
      [PlatformFee], [TrialAccess], [FirstPayment], [Clearance] and [Dnc] over one state.
      [Gate.reads]: a computation that answers and moves nothing but the clock; every
      question of the gate is one.  Theorems: what a call let through rests on
      ([dispatch_cleared]); an opt-out ends every later call to that person
      ([optout_ends_calls]).
    - [Callbacks] (callbacks/service.py, apps/workers/callbacks.py): a call-back is a
      promise a person was made, a row that is booked, claimed by the dispatcher's pass,
      dialled through [Gate] and settled by its call; [Hours] are a campaign's calling
      hours.  The class [Surroundings] is what the pass asks of the follow-ups, the
      retries of new leads and the dial, [Lawful] what it relies on of them.  Theorems:
      over every order of the transactions a promise stays in the table, agrees with
      itself and once over stays over ([promise_kept]); a claim takes the promises
      that are due, the earliest first, each once ([claimed_once]); every claim is answered
      for, and the phone system is asked only if the gate clears that call ([claim_answered]); what a pass settles
      before it dials ([pass_settles]).  A finding: hours shorter than the grace can move
      a promise from day to day without end.

    ** Parameters and what is relied on of them

    - HMAC-SHA256, SHA-256 and [json.dumps] of the audit log and of refunds: functions;
      [collision_free] and [proper_digest] where a theorem needs them, [keys_apart] for
      the ring's keys.
    - The queue ([arq]), Redis, the payment provider and the monotonic clock: what each
      answers is an argument.
    - The deployment's engine, the platform's own workspaces, the self-serve trial's
      terms and the acceptance of legal terms: settings, arguments of the definitions.
    - Unicode's spaces and decimal digits ([unicode_ok] where a theorem needs them), the
      transcript redactor, the sealing of a number for the voice platform: functions.
    - The follow-ups, the retries of new leads and the dial itself, where [Callbacks] asks
      them: the class [Surroundings].
    - Whether the composed opening words say an agent's notices, and the platform's halt and
      maintenance status: arguments of the gate.

    ** Fuel and bounds

    The loops of the draw take [draw_fuel] turns at most ([draw_terminates]); the walk
    along re-prices takes one turn per lot at most ([purchase_lot_terminates]); the
    verification of the audit chain takes at most one turn more than the log has rows; the fleet
    is covered within as many passes as it has tenants.

    ** Not modelled

    The web front ends, the voice runtime and the providers' engines, the routes'
    parsing, permissions and rendering, logging, alerts and metrics, the SQL reports; of
    the pipeline all but the month's counters; retention, the agents' prompts, the
    copilot and the knowledge base; number rent and tax invoices, which use the wallet
    operations modelled here; of the calls themselves, what a campaign dials when and the
    recall of calls the provider holds; of call-backs the note read to the agent and the
    lists of the screens; the recognition of an opt-out in a transcript. *)

From Stdlib Require Import ZArith Lia List.
From stdpp Require Import base list option gmap strings.

(** ** Results: a value, or the exception the Python code raises *)

(** [ProblemError]'s [kind] (apps/api/core/errors.py); only the kinds the
    modelled code raises. *)
Inductive problem_kind :=
| BusinessRule
| Conflict
| NotFound
| Validation
| Transient
| Auth
| Permission
| Dependency.

(** What a Python [raise] carries: an API problem with its stable code, a
    [ValueError], a failed [assert], or an error of the database itself. *)
Inductive error :=
| Problem (kind : problem_kind) (code : string)
| ValueError
| AssertionError
| NoResultFound
| KeyError
| NumericOverflow
| CheckViolation (constraint : string)
| UniqueViolation (index : string)
| OutOfFuel.

#[export] Instance problem_kind_eq_dec : EqDecision problem_kind.
Proof. solve_decision. Defined.
#[export] Instance error_eq_dec : EqDecision error.
Proof. solve_decision. Defined.

Inductive result (A : Type) : Type :=
| Ok (a : A)
| Err (e : error).
Arguments Ok {A} a.
Arguments Err {A} e.

Definition is_ok {A} (r : result A) : bool :=
  match r with Ok _ => true | Err _ => false end.

(** ** The transaction monad

    A computation over a database state: the value it returns with the state it
    leaves, or the exception it raises.  An exception discards the state, as the
    session's rollback does. *)
Definition tx (S A : Type) : Type := S -> result (A * S).

Definition ret {S A} (a : A) : tx S A := fun s => Ok (a, s).
Definition raise {S A} (e : error) : tx S A := fun _ => Err e.
Definition bind {S A B} (m : tx S A) (k : A -> tx S B) : tx S B :=
  fun s => match m s with
           | Ok (a, s') => k a s'
           | Err e => Err e
           end.
Definition gets {S A} (f : S -> A) : tx S A := fun s => Ok (f s, s).
Definition modify {S} (f : S -> S) : tx S unit := fun s => Ok (tt, f s).
Definition lift {S A} (r : result A) : tx S A :=
  fun s => match r with Ok a => Ok (a, s) | Err e => Err e end.

Declare Scope tx_scope.
Delimit Scope tx_scope with tx.
Notation "x ← m ; k" := (bind m (fun x => k))
  (at level 20, m at level 100, k at level 200, only parsing) : tx_scope.
Notation "' p ← m ; k" := (bind m (fun x => match x with p => k end))
  (at level 20, p pattern, m at level 100, k at level 200, only parsing) : tx_scope.
Notation "m ;; k" := (bind m (fun _ => k))
  (at level 100, k at level 200, only parsing, right associativity) : tx_scope.

Section Monad.
Context {S : Type}.
Implicit Types s : S.

Lemma bind_ok {A B} (m : tx S A) (k : A -> tx S B) s b s' :
  bind m k s = Ok (b, s') <->
  exists a s1, m s = Ok (a, s1) /\ k a s1 = Ok (b, s').
Proof.
  unfold bind. split.
  - destruct (m s) as [[a s1]|e]; [eauto|done].
  - intros (a & s1 & -> & H). done.
Qed.

Lemma bind_run {A B} (m : tx S A) (k : A -> tx S B) s a s1 :
  m s = Ok (a, s1) -> bind m k s = k a s1.
Proof. intros H. unfold bind. by rewrite H. Qed.

Lemma lift_run {A} (r : result A) a s : r = Ok a -> lift (S := S) r s = Ok (a, s).
Proof. by intros ->. Qed.

Lemma bind_ret {A B} (a : A) (k : A -> tx S B) s : bind (ret a) k s = k a s.
Proof. done. Qed.

Lemma gets_ok {A} (f : S -> A) s a s' :
  gets f s = Ok (a, s') <-> a = f s /\ s' = s.
Proof. unfold gets. split; [intros [= <- <-]|intros [-> ->]]; done. Qed.

Lemma modify_ok (f : S -> S) s u s' :
  modify f s = Ok (u, s') <-> s' = f s.
Proof. unfold modify. destruct u. split; [intros [= <-]|intros ->]; done. Qed.

Lemma ret_ok {A} (a b : A) s s' : ret a s = Ok (b, s') <-> b = a /\ s' = s.
Proof. unfold ret. split; [intros [= <- <-]|intros [-> ->]]; done. Qed.

Lemma raise_ok {A} e s (r : A * S) : raise e s = Ok r <-> False.
Proof. unfold raise. split; done. Qed.

Lemma lift_ok {A} (r : result A) s a s' :
  lift r s = Ok (a, s') <-> r = Ok a /\ s' = s.
Proof.
  unfold lift. destruct r; split.
  - intros [= <- <-]; done.
  - intros [[= ->] ->]; done.
  - done.
  - intros [? _]; done.
Qed.
End Monad.

Create Rewrite HintDb tx.
#[export] Hint Rewrite @bind_ok @gets_ok @modify_ok @ret_ok @raise_ok @lift_ok : tx.

(** Take apart a run of the monad that is known to return. *)
Ltac tx_step :=
  match goal with
  | H : bind _ _ _ = Ok _ |- _ =>
      apply bind_ok in H; destruct H as (? & ? & ? & ?)
  | H : gets _ _ = Ok _ |- _ => apply gets_ok in H; destruct H as [? ?]
  | H : modify _ _ = Ok _ |- _ => apply modify_ok in H
  | H : ret _ _ = Ok _ |- _ => apply ret_ok in H; destruct H as [? ?]
  | H : raise _ _ = Ok _ |- _ => apply raise_ok in H; destruct H
  | H : lift _ _ = Ok _ |- _ => apply lift_ok in H; destruct H as [? ?]
  | H : Ok _ = Ok _ |- _ => injection H as H; try subst
  | H : Err _ = Ok _ |- _ => discriminate H
  end.
Ltac tx_inv := repeat (tx_step; simplify_eq).

(** ** Transactions that stay within a relation *)
Section Respects.
Context {S : Type} (R : S -> S -> Prop) {HR : PreOrder R}.
Definition respects {B} (m : tx S B) : Prop := forall s b s', m s = Ok (b, s') -> R s s'.

Lemma respects_bind {B C} (m : tx S B) (k : B -> tx S C) :
  respects m -> (forall b, respects (k b)) -> respects (bind m k).
Proof. intros Hm Hk s c s' H. apply bind_ok in H as (b & s1 & H1 & H2). etrans; [by eapply Hm|by eapply Hk]. Qed.
Lemma respects_ret {B} (b : B) : respects (ret b).
Proof. intros s c s' H. by apply ret_ok in H as [_ ->]. Qed.
Lemma respects_raise {B} e : respects (raise (A := B) e).
Proof. intros s c s' H. by apply raise_ok in H. Qed.
Lemma respects_gets {B} (f : S -> B) : respects (gets f).
Proof. intros s c s' H. by apply gets_ok in H as [_ ->]. Qed.
Lemma respects_lift {B} (r : result B) : respects (lift r).
Proof. intros s c s' H. by apply lift_ok in H as [_ ->]. Qed.
Lemma respects_modify f : (forall s, R s (f s)) -> respects (modify f).
Proof. intros Hf s c s' H. apply modify_ok in H as ->. apply Hf. Qed.
End Respects.

Create HintDb respects.
Ltac respects := repeat first
  [ apply respects_ret; typeclasses eauto
  | apply respects_raise
  | apply respects_gets; typeclasses eauto
  | apply respects_lift; typeclasses eauto
  | solve [eauto 3 with respects]
  | match goal with
    | |- respects _ (bind _ _) => apply respects_bind; [typeclasses eauto| |intros ?]
    | |- respects _ (match ?x with _ => _ end) => destruct x
    end ].

(** A run of a transaction that stays within the relation. *)
Ltac respected H :=
  match type of H with ?m ?s = _ =>
    match goal with |- ?R _ _ => let Hm := fresh in assert (Hm : respects R m); [respects|exact (Hm _ _ _ H)] end
  end.

(** Split a [match] or [if] in a hypothesis, keeping the equation. *)
Ltac case_in H :=
  match type of H with
  | context [match ?x with _ => _ end] =>
      lazymatch x with
      | context [match _ with _ => _ end] => fail
      | _ => let E := fresh "E" in destruct x eqn:E
      end
  end.

(** A decidable fact about a concrete value. *)
Ltac decided := apply (bool_decide_unpack _); vm_compute; exact I.

(** ** Text compares by its characters

    [String.leb] orders text as Python and the database order the fixed-shape keys the
    program compares.  A statement about finitely many strings is one about numbers: an
    order-preserving rank turns it into linear arithmetic. *)

Lemma leb_trans a b c : String.leb a b = true -> String.leb b c = true -> String.leb a c = true.
Proof.
  intros H1 H2. apply Is_true_true. apply (transitivity (R := String.le) (y := b)); by apply Is_true_true.
Qed.

Lemma leb_refl a : String.leb a a = true.
Proof. destruct (String.leb_total a a); done. Qed.

Lemma NoDup_map_filter {A B} (g : A -> B) (p : A -> bool) (l : list A) :
  NoDup (map g l) -> NoDup (map g (List.filter p l)).
Proof.
  induction l as [|a l IH]; simpl; [done|]. intros H. apply NoDup_cons in H as [Hn H].
  destruct (p a); simpl; [|by apply IH]. apply NoDup_cons. split; [|by apply IH].
  intros Hin. apply Hn. apply list_elem_of_In in Hin. apply list_elem_of_In.
  apply in_map_iff in Hin as (x & <- & Hx). apply filter_In in Hx as [Hx _]. by apply in_map.
Qed.

Lemma filter_length_mono {A} (p q : A -> bool) l :
  (forall x, In x l -> p x = true -> q x = true) ->
  (length (List.filter p l) <= length (List.filter q l))%nat.
Proof.
  induction l as [|x l IH]; intros H; simpl; [done|].
  pose proof (IH (fun y Hy => H y (or_intror Hy))) as L. pose proof (H x (or_introl eq_refl)) as Hx.
  destruct (p x), (q x); simpl; lia.
Qed.

Lemma filter_length_strict {A} (p q : A -> bool) l x :
  (forall x, In x l -> p x = true -> q x = true) -> In x l -> p x = false -> q x = true ->
  (length (List.filter p l) < length (List.filter q l))%nat.
Proof.
  induction l as [|y l IH]; intros H Hx Hp Hq; [done|].
  pose proof (fun z Hz => H z (or_intror Hz)) as Ht. simpl. destruct Hx as [->|Hx].
  - rewrite Hp, Hq. simpl. apply Nat.lt_succ_r, filter_length_mono, Ht.
  - pose proof (IH Ht Hx Hp Hq). pose proof (H y (or_introl eq_refl)) as Hy.
    destruct (p y), (q y); simpl; lia.
Qed.

Lemma text_rank (l : list string) :
  exists rank : string -> nat, forall a b, In a l -> In b l ->
    String.leb a b = (rank a <=? rank b)%nat /\ (a = b <-> rank a = rank b).
Proof.
  exists (fun s => length (List.filter (fun y => String.leb y s) l)). intros a b Ha Hb.
  assert (H : forall x y, In x l -> In y l -> String.leb x y = true <->
    (length (List.filter (fun z => String.leb z x) l) <= length (List.filter (fun z => String.leb z y) l))%nat).
  { intros x y Hx Hy. split; intros H.
    - apply filter_length_mono. intros z _ Hz. by eapply leb_trans.
    - destruct (String.leb x y) eqn:E; [done|]. exfalso.
      assert (Hyx : String.leb y x = true) by (destruct (String.leb_total x y); congruence).
      enough (length (List.filter (fun z => String.leb z y) l) < length (List.filter (fun z => String.leb z x) l))%nat by lia.
      apply (filter_length_strict _ _ _ x); [intros z _ Hz; by eapply leb_trans|done|done|apply leb_refl]. }
  split.
  - pose proof (H a b Ha Hb) as [H1 H2]. destruct (String.leb a b), (Nat.leb_spec (length (List.filter (fun y => String.leb y a) l))
      (length (List.filter (fun y => String.leb y b) l))); auto; try (by specialize (H2 ltac:(done))).
    specialize (H1 eq_refl). lia.
  - split; [by intros ->|]. intros E. apply String.leb_antisym; apply H; try done; lia.
Qed.

Lemma ltb_leb a b : String.ltb a b = negb (String.leb b a).
Proof.
  unfold String.ltb, String.leb. rewrite String.compare_antisym. by destruct (String.compare b a).
Qed.
