(* ===== verification/PyDecimal.v ===== *)
(** * Python's [decimal] module, by value

    A [Decimal] is modelled by its numeric value in [Q], kept in lowest terms so
    that equal values are equal terms.  Every arithmetic operation rounds its
    exact result to the default context's 28 significant digits, half to even;
    [quantize] rounds to a number of decimal places with the mode given at the
    call.  Not modelled: NaN, infinities, the sign of zero, trailing zeros, and
    the [InvalidOperation] that [quantize] raises above 28 digits (every amount
    the program stores is a NUMERIC(12,4)). *)

From Stdlib Require Import ZArith QArith Qround Qabs Qpower Lqa Lia.
From stdpp Require Import base list.
From S2P Require Import Prelude.

Local Open Scope Z_scope.

Inductive rounding := ROUND_HALF_UP | ROUND_HALF_EVEN | ROUND_DOWN | ROUND_FLOOR | ROUND_CEILING.

(** ** Rounding a rational to an integer *)
Definition round_int (m : rounding) (q : Q) : Z :=
  let n := Qnum q in
  let d := Zpos (Qden q) in
  let fl := n / d in
  let r := n mod d in
  match m with
  | ROUND_FLOOR => fl
  | ROUND_CEILING => if r =? 0 then fl else fl + 1
  | ROUND_DOWN => if (0 <=? n) || (r =? 0) then fl else fl + 1
  | ROUND_HALF_UP =>
      if 0 <=? n then (if d <=? 2 * r then fl + 1 else fl)
      else (if d <? 2 * r then fl + 1 else fl)
  | ROUND_HALF_EVEN =>
      if 2 * r <? d then fl
      else if d <? 2 * r then fl + 1
      else if Z.even fl then fl else fl + 1
  end.

(** [Decimal.quantize] at [scale] units to the whole ([scale] = 10000 for four
    decimal places). *)
Definition quantize (scale : positive) (m : rounding) (q : Q) : Q :=
  Qred (round_int m (q * (Zpos scale # 1)) # scale).

(** ** The context: 28 significant digits *)
Definition prec : Z := 28.

Definition pow10 (k : Z) : Q := Qpower (10 # 1) k.

(** Number of decimal digits of [n > 0]. *)
Fixpoint digits_fuel (fuel : nat) (n : Z) : Z :=
  match fuel with
  | O => 0
  | S f => if n <=? 0 then 0 else 1 + digits_fuel f (n / 10)
  end.
Definition digits (n : Z) : Z := digits_fuel (S (Z.to_nat (Z.log2 n))) n.

(** [adjusted q]: the exponent of the leading digit of [q <> 0]. *)
Definition adjusted (q : Q) : Z :=
  let n := Z.abs (Qnum q) in
  let d := Zpos (Qden q) in
  let g := digits n - digits d in
  if Qle_bool (pow10 g) (Qabs q) then g else g - 1.

Definition round28 (q : Q) : Q :=
  if Qnum q =? 0 then 0%Q
  else
    let k := prec - 1 - adjusted q in
    Qred (inject_Z (round_int ROUND_HALF_EVEN (q * pow10 k)) * pow10 (- k)).

Definition dadd (a b : Q) : Q := round28 (a + b).
Definition dsub (a b : Q) : Q := round28 (a - b).
Definition dmul (a b : Q) : Q := round28 (a * b).
Definition ddiv (a b : Q) : Q := round28 (a / b).
Definition dneg (a : Q) : Q := round28 (- a).
Definition dabs (a : Q) : Q := round28 (if Qle_bool 0 a then a else - a).

(** Python's [min] and [max] return the first of equal arguments. *)
Definition dmin (a b : Q) : Q := if Qle_bool a b then a else b.
Definition dmax (a b : Q) : Q := if Qle_bool b a then a else b.

Definition dlt (a b : Q) : bool := negb (Qle_bool b a).
Definition dle (a b : Q) : bool := Qle_bool a b.
Definition deq (a b : Q) : bool := Qeq_bool a b.

(** [sum(xs, Decimal("0"))]. *)
Definition dsum (xs : list Q) : Q := foldl dadd 0%Q xs.

(** The exact sum, which the specifications speak of. *)
Definition qsum (xs : list Q) : Q := foldr Qplus 0%Q xs.

(** ** The library's instances of it *)
(** [MONEY_Q = Decimal(1).scaleb(-MONEY.scale)] and [PAISE = Decimal("0.01")]. *)
Definition MONEY_SCALE : positive := 10000.
Definition PAISE_SCALE : positive := 100.

(** ** Rounding to an integer: laws *)

Section RoundInt.
Implicit Types (q : Q) (z : Z) (m : rounding).

(** The quotient and remainder every mode starts from. *)
Lemma q_floor_rem q :
  Qnum q = Zpos (Qden q) * (Qnum q / Zpos (Qden q)) + Qnum q mod Zpos (Qden q)
  /\ 0 <= Qnum q mod Zpos (Qden q) < Zpos (Qden q).
Proof.
  split; [apply Z.div_mod; lia|apply Z.mod_pos_bound; lia].
Qed.

(** Every mode is within one unit of its argument. *)
Lemma round_int_near m q :
  (inject_Z (round_int m q) - 1 < q)%Q /\ (q < inject_Z (round_int m q) + 1)%Q.
Proof.
  destruct (q_floor_rem q) as [E B]. unfold round_int, Qlt, Qminus, Qplus, Qopp, inject_Z.
  destruct q as [n d]; simpl in *. revert E B.
  generalize (n / Zpos d) (n mod Zpos d). intros fl r E B.
  destruct m; repeat (case_match; try lia); nia.
Qed.

Lemma round_int_half_up_near q :
  (- (1 # 2) <= inject_Z (round_int ROUND_HALF_UP q) - q)%Q
  /\ (inject_Z (round_int ROUND_HALF_UP q) - q <= 1 # 2)%Q.
Proof.
  destruct (q_floor_rem q) as [E B]. unfold round_int, Qle, Qminus, Qplus, Qopp, inject_Z.
  destruct q as [n d]; simpl in *. revert E B.
  generalize (n / Zpos d) (n mod Zpos d). intros fl r E B.
  repeat (case_match; try lia); nia.
Qed.

Lemma round_int_half_even_near q :
  (- (1 # 2) <= inject_Z (round_int ROUND_HALF_EVEN q) - q)%Q
  /\ (inject_Z (round_int ROUND_HALF_EVEN q) - q <= 1 # 2)%Q.
Proof.
  destruct (q_floor_rem q) as [E B]. unfold round_int, Qle, Qminus, Qplus, Qopp, inject_Z.
  destruct q as [n d]; simpl in *. revert E B.
  generalize (n / Zpos d) (n mod Zpos d). intros fl r E B.
  repeat (case_match; try lia); nia.
Qed.

Lemma round_int_floor_le q : (inject_Z (round_int ROUND_FLOOR q) <= q)%Q.
Proof.
  destruct (q_floor_rem q) as [E B]. unfold round_int, Qle, inject_Z.
  destruct q as [n d]; simpl in *. nia.
Qed.

Lemma round_int_down_le q :
  (0 <= q)%Q -> (0 <= inject_Z (round_int ROUND_DOWN q))%Q
                /\ (inject_Z (round_int ROUND_DOWN q) <= q)%Q.
Proof.
  destruct (q_floor_rem q) as [E B]. unfold round_int, Qle, inject_Z.
  destruct q as [n d]; simpl in *. intros H.
  assert (0 <= n / Zpos d) by (apply Z.div_pos; lia).
  destruct (0 <=? n) eqn:Hn; [|lia]. simpl. split; nia.
Qed.

(** A whole number is its own rounding. *)
Lemma round_int_whole m q z : (q == inject_Z z)%Q -> round_int m q = z.
Proof.
  destruct (q_floor_rem q) as [E B]. unfold round_int, Qeq, inject_Z.
  destruct q as [n d]; simpl in *. intros H.
  assert (n = z * Zpos d) as -> by lia.
  rewrite Z.mod_mul, Z.div_mul by lia.
  destruct m; repeat case_match; lia.
Qed.

Lemma round_int_proper_aux m (n1 n2 : Z) (d1 d2 : positive) :
  (n1 # d1 == n2 # d2)%Q -> round_int m (n1 # d1) = round_int m (n2 # d2).
Proof.
  intros H. unfold Qeq in H; simpl in H.
  assert (Hf : n1 / Zpos d1 = n2 / Zpos d2).
  { rewrite <- (Z.div_mul_cancel_r n1 (Zpos d1) (Zpos d2)) by lia. rewrite H.
    replace (Zpos d1 * Zpos d2) with (Zpos d2 * Zpos d1) by lia.
    apply Z.div_mul_cancel_r; lia. }
  pose proof (q_floor_rem (n1 # d1)) as [E1 B1].
  pose proof (q_floor_rem (n2 # d2)) as [E2 B2].
  unfold round_int; simpl in *. rewrite Hf in *.
  set (fl := n2 / Zpos d2) in *.
  set (r1 := n1 mod Zpos d1) in *. set (r2 := n2 mod Zpos d2) in *.
  assert (Hr : r1 * Zpos d2 = r2 * Zpos d1) by nia.
  destruct m; repeat case_match; try lia; exfalso; nia.
Qed.
End RoundInt.

#[export] Instance round_int_proper m : Proper (Qeq ==> eq) (round_int m).
Proof. intros [n1 d1] [n2 d2] H. by apply round_int_proper_aux. Qed.

(** ** [quantize]: laws *)

Lemma Qmake_inject (z : Z) (p : positive) : (z # p == inject_Z z / inject_Z (Zpos p))%Q.
Proof. rewrite Qmake_Qdiv. reflexivity. Qed.

Lemma Qmake_scaled (z : Z) (p : positive) : ((z # p) * (Zpos p # 1) == inject_Z z)%Q.
Proof. unfold Qeq; simpl. lia. Qed.

Section Quantize.
Implicit Types (q : Q) (m : rounding) (s : positive).

(** A quantized value is a whole number of [1/scale]. *)
Lemma quantize_units s m q : (quantize s m q == round_int m (q * (Zpos s # 1)) # s)%Q.
Proof. unfold quantize. apply Qred_correct. Qed.

Lemma quantize_id s m q z : (q == z # s)%Q -> (quantize s m q == q)%Q.
Proof.
  intros H. rewrite quantize_units.
  rewrite (round_int_whole m _ z); [by symmetry|]. rewrite H. apply Qmake_scaled.
Qed.

Lemma scaled_le s (a b : Q) : (a * (Zpos s # 1) <= b * (Zpos s # 1))%Q <-> (a <= b)%Q.
Proof. apply Qmult_le_r. reflexivity. Qed.

Lemma scaled_nonneg s q : (0 <= q)%Q -> (0 <= q * (Zpos s # 1))%Q.
Proof. intros. by apply Qmult_le_0_compat. Qed.

Lemma quantize_scaled s m q :
  (quantize s m q * (Zpos s # 1) == inject_Z (round_int m (q * (Zpos s # 1))))%Q.
Proof. rewrite quantize_units. apply Qmake_scaled. Qed.

Lemma quantize_half_up_near s q :
  (q - (1 # (2 * s)) <= quantize s ROUND_HALF_UP q)%Q
  /\ (quantize s ROUND_HALF_UP q <= q + (1 # (2 * s)))%Q.
Proof.
  destruct (round_int_half_up_near (q * (Zpos s # 1))) as [H1 H2].
  rewrite <- quantize_scaled in H1, H2.
  assert (Hs : ((1 # (2 * s)) * (Zpos s # 1) == 1 # 2)%Q) by (unfold Qeq; simpl; lia).
  split; apply (scaled_le s); lra.
Qed.

Lemma quantize_floor_le s q :
  (quantize s ROUND_FLOOR q <= q)%Q /\ (q < quantize s ROUND_FLOOR q + (1 # s))%Q.
Proof.
  pose proof (round_int_floor_le (q * (Zpos s # 1))) as H1.
  destruct (round_int_near ROUND_FLOOR (q * (Zpos s # 1))) as [_ H2].
  rewrite <- quantize_scaled in H1, H2.
  assert (Hs : ((1 # s) * (Zpos s # 1) == 1)%Q) by (unfold Qeq; simpl; lia).
  split; [apply (scaled_le s); lra|].
  apply Qnot_le_lt. intros H. apply (scaled_le s) in H. lra.
Qed.

Lemma quantize_down_le s q :
  (0 <= q)%Q -> (0 <= quantize s ROUND_DOWN q)%Q /\ (quantize s ROUND_DOWN q <= q)%Q.
Proof.
  intros H0. destruct (round_int_down_le (q * (Zpos s # 1))) as [H1 H2];
    [by apply scaled_nonneg|].
  rewrite <- quantize_scaled in H1, H2.
  split; apply (scaled_le s); lra.
Qed.

Lemma quantize_nonneg s m q : (0 <= q)%Q -> (0 <= quantize s m q)%Q.
Proof.
  intros H0. apply (scaled_le s). rewrite quantize_scaled.
  destruct (round_int_near m (q * (Zpos s # 1))) as [_ H].
  pose proof (scaled_nonneg s q H0).
  assert (-1 < inject_Z (round_int m (q * (Zpos s # 1))))%Q as Hlt by lra.
  unfold Qlt, Qle, inject_Z in *; simpl in *. lia.
Qed.
End Quantize.

#[export] Instance quantize_proper s m : Proper (Qeq ==> eq) (quantize s m).
Proof. intros a b H. unfold quantize. by rewrite H. Qed.

(** ** Powers of ten and decimal digits *)

Lemma pow10_pos k : (0 < pow10 k)%Q.
Proof. apply Qpower_0_lt. reflexivity. Qed.

Lemma pow10_add a b : (pow10 (a + b) == pow10 a * pow10 b)%Q.
Proof. apply Qpower_plus. done. Qed.

Lemma pow10_neg_cancel k : (pow10 k * pow10 (- k) == 1)%Q.
Proof. rewrite <- pow10_add. by replace (k + - k) with 0 by lia. Qed.

Lemma pow10_Z k : 0 <= k -> (pow10 k == inject_Z (10 ^ k))%Q.
Proof. intros H. unfold pow10. rewrite (Zpower_Qpower 10 k H). reflexivity. Qed.

Lemma pow10_lt_inv a b : (pow10 a < pow10 b)%Q -> a < b.
Proof.
  intros H. destruct (Z_lt_le_dec a b) as [|Hle]; [done|].
  assert (pow10 b <= pow10 a)%Q; [|by apply Qlt_not_le in H].
  apply Qpower_le_compat_l; [done|]. unfold Qle; simpl; lia.
Qed.

Lemma pow10_ge_1 k : 0 <= k -> (1 <= pow10 k)%Q.
Proof.
  intros H. rewrite pow10_Z by done. unfold Qle, inject_Z; simpl.
  pose proof (Z.pow_pos_nonneg 10 k ltac:(lia) H). lia.
Qed.

Lemma digits_fuel_spec fuel n :
  0 < n < 10 ^ Z.of_nat fuel ->
  0 < digits_fuel fuel n /\ 10 ^ (digits_fuel fuel n - 1) <= n < 10 ^ digits_fuel fuel n.
Proof.
  revert n. induction fuel as [|f IH]; intros n [Hp Hn]; [change (10 ^ Z.of_nat 0) with 1 in Hn; lia|].
  simpl digits_fuel. destruct (n <=? 0) eqn:E; [lia|].
  rewrite Nat2Z.inj_succ, Z.pow_succ_r in Hn by lia.
  destruct (Z_lt_le_dec n 10) as [Hs|Hb].
  - rewrite (Z.div_small n 10) by lia. destruct f; simpl; lia.
  - assert (Hd : 0 < n / 10 < 10 ^ Z.of_nat f).
    { split; [apply Z.div_str_pos; lia|apply Z.div_lt_upper_bound; lia]. }
    destruct (IH _ Hd) as (H0 & H1 & H2). set (k := digits_fuel f (n / 10)) in *.
    replace (1 + k - 1) with (Z.succ (k - 1)) by lia.
    replace (1 + k) with (Z.succ k) by lia. rewrite !Z.pow_succ_r by lia.
    pose proof (Z.div_mod n 10 ltac:(lia)). pose proof (Z.mod_pos_bound n 10 ltac:(lia)).
    repeat split; nia.
Qed.

Lemma digits_spec n :
  0 < n -> 0 < digits n /\ 10 ^ (digits n - 1) <= n < 10 ^ digits n.
Proof.
  intros H. apply digits_fuel_spec. split; [done|].
  rewrite Nat2Z.inj_succ, Z2Nat.id by apply Z.log2_nonneg.
  pose proof (proj2 (Z.log2_spec n H)) as Hl. eapply Z.lt_le_trans; [exact Hl|].
  apply Z.pow_le_mono_l. lia.
Qed.

(** [adjusted] finds the exponent of the leading digit. *)
Lemma adjusted_spec q :
  Qnum q <> 0 -> (pow10 (adjusted q) <= Qabs q)%Q /\ (Qabs q < pow10 (adjusted q + 1))%Q.
Proof.
  intros Hq. unfold adjusted. destruct q as [n d]. simpl Qnum in *. simpl Qden.
  destruct (digits_spec (Z.abs n) ltac:(lia)) as (Hn0 & Hn1 & Hn2).
  destruct (digits_spec (Zpos d) ltac:(lia)) as (Hd0 & Hd1 & Hd2).
  set (dn := digits (Z.abs n)) in *. set (dd := digits (Zpos d)) in *.
  assert (Hv : (Qabs (n # d) * inject_Z (Zpos d) == inject_Z (Z.abs n))%Q)
    by (unfold Qeq; simpl; lia).
  assert (Hdpos : (0 < inject_Z (Zpos d))%Q) by (unfold Qlt; simpl; lia).
  rewrite Zle_Qle, <- pow10_Z in Hn1, Hd1 by lia.
  rewrite Zlt_Qlt, <- pow10_Z in Hn2, Hd2 by lia.
  pose proof (pow10_pos (dn - dd)). pose proof (pow10_pos (dn - dd - 1)).
  assert (Hup : (Qabs (n # d) < pow10 (dn - dd + 1))%Q).
  { apply Qnot_le_lt. intros Hc.
    assert (pow10 (dn - dd + 1) * pow10 (dd - 1) <= Qabs (n # d) * inject_Z (Zpos d))%Q as Hm.
    { apply Qmult_le_compat_nonneg; split; try done; apply Qlt_le_weak, pow10_pos. }
    rewrite <- pow10_add, Hv in Hm. replace (dn - dd + 1 + (dd - 1)) with dn in Hm by lia. lra. }
  assert (Hlo : (pow10 (dn - dd - 1) <= Qabs (n # d))%Q).
  { apply Qnot_lt_le. intros Hc.
    assert (Qabs (n # d) * inject_Z (Zpos d) < pow10 (dn - dd - 1) * pow10 dd)%Q as Hm.
    { eapply Qlt_le_trans; [apply Qmult_lt_compat_r; [done|exact Hc]|].
      apply Qmult_le_compat_nonneg; split; try lra; apply Qle_refl. }
    rewrite <- pow10_add, Hv in Hm. replace (dn - dd - 1 + dd) with (dn - 1) in Hm by lia. lra. }
  destruct (Qle_bool (pow10 (dn - dd)) (Qabs (n # d))) eqn:E.
  - apply Qle_bool_iff in E. split; [done|]. by replace (dn - dd + 1) with (dn - dd + 1) by lia.
  - split; [done|]. replace (dn - dd - 1 + 1) with (dn - dd) by lia.
    apply Qnot_le_lt. intros Hc. apply Qle_bool_iff in Hc. congruence.
Qed.

(** ** [round28]: laws *)

Lemma Qnum_zero q : Qnum q = 0 -> (q == 0)%Q.
Proof. destruct q as [n d]; simpl; intros ->. reflexivity. Qed.

(** A value of at most 28 significant digits is not changed by the context. *)
Lemma round28_exact q j z :
  (q * pow10 j == inject_Z z)%Q -> Z.abs z < 10 ^ 28 -> (round28 q == q)%Q.
Proof.
  intros Hz Hb. unfold round28.
  destruct (Qnum q =? 0) eqn:E0; [by rewrite (Qnum_zero q) by lia|].
  destruct (adjusted_spec q ltac:(lia)) as [Hlo _].
  set (a := adjusted q) in *. set (k := prec - 1 - a).
  assert (Hk : j <= k).
  { assert (pow10 (a + j) < pow10 28)%Q as Hlt.
    { rewrite pow10_add. eapply Qle_lt_trans.
      - apply Qmult_le_compat_r; [exact Hlo|]. apply Qlt_le_weak, pow10_pos.
      - assert (Qabs q * pow10 j == Qabs (q * pow10 j))%Q as ->.
        { rewrite Qabs_Qmult, (Qabs_pos (pow10 j)); [reflexivity|].
          apply Qlt_le_weak, pow10_pos. }
        rewrite Hz, pow10_Z by lia. unfold Qabs, inject_Z, Qlt; simpl. lia. }
    apply pow10_lt_inv in Hlt. unfold k, prec. lia. }
  rewrite Qred_correct.
  assert (Hw : (q * pow10 k == inject_Z (z * 10 ^ (k - j)))%Q).
  { replace k with (j + (k - j)) at 1 by lia. rewrite pow10_add, Qmult_assoc, Hz.
    rewrite pow10_Z by lia. by rewrite inject_Z_mult. }
  rewrite (round_int_whole _ _ _ Hw), <- Hw, <- Qmult_assoc, pow10_neg_cancel. ring.
Qed.

(** The context's error is at most half a unit of the 28th digit. *)
Lemma round28_near q : (Qabs (round28 q - q) <= Qabs q * (1 # 2) * pow10 (-27))%Q.
Proof.
  unfold round28. destruct (Qnum q =? 0) eqn:E0.
  { rewrite (Qnum_zero q) by lia. unfold Qle; simpl. lia. }
  destruct (adjusted_spec q ltac:(lia)) as [Hlo _].
  set (a := adjusted q) in *. set (k := prec - 1 - a).
  destruct (round_int_half_even_near (q * pow10 k)) as [H1 H2].
  set (r := inject_Z (round_int ROUND_HALF_EVEN (q * pow10 k))) in *.
  rewrite Qred_correct. pose proof (pow10_pos (- k)) as Hp.
  assert (r * pow10 (- k) - q == (r - q * pow10 k) * pow10 (- k))%Q as ->.
  { transitivity (r * pow10 (- k) - q * (pow10 k * pow10 (- k)))%Q;
      [rewrite pow10_neg_cancel|]; ring. }
  rewrite Qabs_Qmult, (Qabs_pos (pow10 (- k))) by lra.
  assert (Hr : (Qabs (r - q * pow10 k) <= 1 # 2)%Q) by (apply Qabs_Qle_condition; lra).
  assert (Hpk : (pow10 (- k) == pow10 a * pow10 (-27))%Q).
  { rewrite <- pow10_add. by replace (a + -27) with (- k) by (unfold k, prec; lia). }
  eapply Qle_trans; [apply Qmult_le_compat_r; [exact Hr|lra]|].
  rewrite Hpk. pose proof (pow10_pos (-27)).
  assert (pow10 a * pow10 (-27) <= Qabs q * pow10 (-27))%Q
    by (apply Qmult_le_compat_r; lra).
  lra.
Qed.

Lemma round28_pos q : (0 < q)%Q -> (0 < round28 q)%Q.
Proof.
  intros H. pose proof (round28_near q) as Hn. rewrite (Qabs_pos q) in Hn by lra.
  apply Qabs_Qle_condition in Hn.
  assert (pow10 (-27) < 1)%Q by reflexivity.
  assert (q * pow10 (-27) <= q * 1)%Q by (rewrite !(Qmult_comm q); apply Qmult_le_compat_r; lra).
  lra.
Qed.

Lemma round28_nonneg q : (0 <= q)%Q -> (0 <= round28 q)%Q.
Proof.
  intros H. destruct (Qle_lt_or_eq _ _ H) as [Hl|He]; [apply Qlt_le_weak, round28_pos, Hl|].
  unfold round28. destruct q as [n d]. unfold Qeq in He; simpl in He.
  destruct (Qnum (n # d) =? 0) eqn:E; [done|simpl in E; lia].
Qed.

(** ** Comparisons *)

Lemma dle_spec a b : reflect (a <= b)%Q (dle a b).
Proof. unfold dle. destruct (Qle_bool a b) eqn:E; constructor; by rewrite <- Qle_bool_iff, E. Qed.

Lemma dlt_spec a b : reflect (a < b)%Q (dlt a b).
Proof.
  unfold dlt. fold (dle b a). destruct (dle_spec b a); constructor; lra.
Qed.

Lemma deq_spec a b : reflect (a == b)%Q (deq a b).
Proof. unfold deq. destruct (Qeq_bool a b) eqn:E; constructor; by rewrite <- Qeq_bool_iff, E. Qed.

Lemma dmin_spec a b : (a <= b /\ dmin a b = a)%Q \/ (b < a /\ dmin a b = b)%Q.
Proof.
  unfold dmin. fold (dle a b). destruct (dle_spec a b); [left|right]; split; lra || done.
Qed.

Lemma dmax_spec a b : (b <= a /\ dmax a b = a)%Q \/ (a < b /\ dmax a b = b)%Q.
Proof.
  unfold dmax. fold (dle b a). destruct (dle_spec b a); [left|right]; split; lra || done.
Qed.

(** Turn the boolean comparisons of the code into the orders they decide. *)
Ltac dcase :=
  repeat match goal with
  | H : dle ?a ?b = true |- _ => apply (reflect_iff _ _ (dle_spec a b)) in H
  | H : dlt ?a ?b = true |- _ => apply (reflect_iff _ _ (dlt_spec a b)) in H
  | H : deq ?a ?b = true |- _ => apply (reflect_iff _ _ (deq_spec a b)) in H
  | H : dle ?a ?b = false |- _ =>
      let G := fresh in destruct (dle_spec a b) as [G|G]; [discriminate H|]; clear H
  | H : dlt ?a ?b = false |- _ =>
      let G := fresh in destruct (dlt_spec a b) as [G|G]; [discriminate H|]; clear H
  | H : deq ?a ?b = false |- _ =>
      let G := fresh in destruct (deq_spec a b) as [G|G]; [discriminate H|]; clear H
  | H : ~ (_ < _)%Q |- _ => apply Qnot_lt_le in H
  | H : ~ (_ <= _)%Q |- _ => apply Qnot_le_lt in H
  end.

(** ** Money: whole ten-thousandths of a rupee *)

Definition is_money (q : Q) : Prop := exists z, (q == z # MONEY_SCALE)%Q.

#[export] Instance is_money_proper : Proper (Qeq ==> iff) is_money.
Proof. intros a b H. unfold is_money. by setoid_rewrite H. Qed.

Lemma is_money_quantize m q : is_money (quantize MONEY_SCALE m q).
Proof. eexists. apply quantize_units. Qed.

Lemma is_money_paise m q : is_money (quantize PAISE_SCALE m q).
Proof.
  exists (100 * round_int m (q * (Zpos PAISE_SCALE # 1))).
  rewrite quantize_units. unfold Qeq, PAISE_SCALE, MONEY_SCALE; simpl. lia.
Qed.

Lemma is_money_0 : is_money 0.
Proof. exists 0. reflexivity. Qed.

Lemma is_money_add a b : is_money a -> is_money b -> is_money (a + b).
Proof. intros [x Hx] [y Hy]. exists (x + y). rewrite Hx, Hy. unfold Qeq; simpl. lia. Qed.

Lemma is_money_opp a : is_money a -> is_money (- a).
Proof. intros [x Hx]. exists (- x). rewrite Hx. reflexivity. Qed.

Lemma is_money_sub a b : is_money a -> is_money b -> is_money (a - b).
Proof. intros. apply is_money_add, is_money_opp; done. Qed.

Lemma is_money_min a b : is_money a -> is_money b -> is_money (dmin a b).
Proof. destruct (dmin_spec a b) as [[_ ->]|[_ ->]]; done. Qed.

Lemma is_money_max a b : is_money a -> is_money b -> is_money (dmax a b).
Proof. destruct (dmax_spec a b) as [[_ ->]|[_ ->]]; done. Qed.

Create HintDb money.
#[export] Hint Resolve is_money_quantize is_money_paise is_money_0 is_money_add is_money_opp
  is_money_sub is_money_min is_money_max : money.

(** The largest amount for which the context keeps money exact: 10^24 rupees. *)
Definition exact_bound : Q := inject_Z (10 ^ 24).

Lemma round28_money q : is_money q -> (Qabs q < exact_bound)%Q -> (round28 q == q)%Q.
Proof.
  intros [z Hz] Hb. apply (round28_exact q 4 z).
  - rewrite Hz, pow10_Z by lia. change (10 ^ 4) with 10000. apply Qmake_scaled.
  - rewrite Hz in Hb. unfold Qabs, Qlt, exact_bound, MONEY_SCALE in Hb; simpl in Hb. lia.
Qed.

Lemma quantize_money m q : is_money q -> (quantize MONEY_SCALE m q == q)%Q.
Proof. intros [z Hz]. by eapply quantize_id. Qed.

Lemma exact_bound_pos : (0 < exact_bound)%Q.
Proof. reflexivity. Qed.

Ltac qabs := apply Qabs_Qlt_condition; lra.

Lemma dadd_money a b :
  is_money a -> is_money b -> (- exact_bound < a + b)%Q -> (a + b < exact_bound)%Q ->
  (dadd a b == a + b)%Q.
Proof. intros. apply round28_money; [auto with money|qabs]. Qed.

Lemma dsub_money a b :
  is_money a -> is_money b -> (- exact_bound < a - b)%Q -> (a - b < exact_bound)%Q ->
  (dsub a b == a - b)%Q.
Proof. intros. apply round28_money; [auto with money|qabs]. Qed.

Lemma round28_0 q : (q == 0)%Q -> round28 q = 0%Q.
Proof.
  intros H. unfold round28. destruct q as [n d]. unfold Qeq in H; simpl in H.
  destruct (Qnum (n # d) =? 0) eqn:E; [done|simpl in E; lia].
Qed.

Lemma dsub_self a : dsub a a = 0%Q.
Proof. apply round28_0. ring. Qed.

Lemma qsum_app xs ys : (qsum (xs ++ ys) == qsum xs + qsum ys)%Q.
Proof. induction xs as [|x xs IH]; simpl; [ring|]. rewrite IH. ring. Qed.

Lemma qsum_nonneg xs : Forall (fun x => 0 <= x)%Q xs -> (0 <= qsum xs)%Q.
Proof. induction 1; simpl; lra. Qed.

Lemma is_money_qsum xs : Forall is_money xs -> is_money (qsum xs).
Proof. induction 1; simpl; auto with money. Qed.

(** Python's [sum] of non-negative money is exact below the bound. *)
Lemma dsum_money_acc xs acc :
  Forall is_money xs -> Forall (fun x => 0 <= x)%Q xs -> is_money acc -> (0 <= acc)%Q ->
  (acc + qsum xs < exact_bound)%Q -> (foldl dadd acc xs == acc + qsum xs)%Q.
Proof.
  revert acc. induction xs as [|x xs IH]; intros acc Hm Hp Ha H0 Hb; simpl in *; [ring|].
  inversion_clear Hm; inversion_clear Hp. pose proof (qsum_nonneg xs ltac:(done)).
  assert (E : (dadd acc x == acc + x)%Q) by (apply dadd_money; try done; pose proof exact_bound_pos; lra).
  rewrite IH; rewrite ?E; try done; auto with money; lra.
Qed.

Lemma dsum_money xs :
  Forall is_money xs -> Forall (fun x => 0 <= x)%Q xs -> (qsum xs < exact_bound)%Q ->
  (dsum xs == qsum xs)%Q.
Proof.
  intros. unfold dsum. rewrite dsum_money_acc; auto with money; try lra.
Qed.

(** ** Monotonicity of the context *)

Lemma round_int_half_even_mono a b :
  (a <= b)%Q -> round_int ROUND_HALF_EVEN a <= round_int ROUND_HALF_EVEN b.
Proof.
  intros H. destruct (Qle_lt_or_eq _ _ H) as [Hl|He]; [|by rewrite He].
  destruct (round_int_half_even_near a) as [_ H1]. destruct (round_int_half_even_near b) as [H2 _].
  assert (inject_Z (round_int ROUND_HALF_EVEN a) < inject_Z (round_int ROUND_HALF_EVEN b) + 1)%Q as Hx by lra.
  rewrite <- (inject_Z_plus _ 1), <- Zlt_Qlt in Hx. lia.
Qed.

Lemma round_int_inject m z : round_int m (inject_Z z) = z.
Proof. by apply round_int_whole. Qed.

(** The leading digit of [q > 0] after rounding. *)
Lemma round28_bounds q :
  (0 < q)%Q -> (pow10 (adjusted q) <= round28 q)%Q /\ (round28 q <= pow10 (adjusted q + 1))%Q.
Proof.
  intros H. assert (Hq : Qnum q <> 0) by (unfold Qlt in H; simpl in H; lia).
  destruct (adjusted_spec q Hq) as [Hlo Hhi]. rewrite Qabs_pos in Hlo, Hhi by lra.
  unfold round28. destruct (Qnum q =? 0) eqn:E0; [lia|]. set (k := prec - 1 - adjusted q).
  rewrite Qred_correct. pose proof (pow10_pos (- k)) as Hk. pose proof (pow10_pos k) as Hk'.
  assert (Hc : forall j, (pow10 (adjusted q + j) * pow10 k == pow10 (prec - 1 + j))%Q).
  { intros j. rewrite <- pow10_add. unfold k. replace (adjusted q + j + (prec - 1 - adjusted q)) with (prec - 1 + j) by ring.
    done. }
  assert (Hback : forall j, (pow10 (prec - 1 + j) * pow10 (- k) == pow10 (adjusted q + j))%Q).
  { intros j. rewrite <- pow10_add. unfold k.
    replace (prec - 1 + j + - (prec - 1 - adjusted q)) with (adjusted q + j) by ring. done. }
  split.
  - rewrite <- (Z.add_0_r (adjusted q)), <- Hback. apply Qmult_le_compat_r; [|lra].
    rewrite (pow10_Z (prec - 1 + 0)) by done. rewrite <- Zle_Qle.
    rewrite <- (round_int_inject ROUND_HALF_EVEN (10 ^ (prec - 1 + 0))). apply round_int_half_even_mono.
    rewrite <- pow10_Z by done. rewrite <- Hc, Z.add_0_r. apply Qmult_le_compat_r; lra.
  - rewrite <- (Hback 1). apply Qmult_le_compat_r; [|lra].
    rewrite (pow10_Z (prec - 1 + 1)) by done. rewrite <- Zle_Qle.
    rewrite <- (round_int_inject ROUND_HALF_EVEN (10 ^ (prec - 1 + 1))). apply round_int_half_even_mono.
    rewrite <- pow10_Z by done. rewrite <- (Hc 1). apply Qmult_le_compat_r; lra.
Qed.

Lemma adjusted_mono a b : (0 < a)%Q -> (a <= b)%Q -> adjusted a <= adjusted b.
Proof.
  intros Ha Hb.
  destruct (adjusted_spec a ltac:(unfold Qlt in Ha; simpl in Ha; lia)) as [H1 _].
  assert (0 < b)%Q as Hb' by lra.
  destruct (adjusted_spec b ltac:(unfold Qlt in Hb'; simpl in Hb'; lia)) as [_ H2].
  rewrite Qabs_pos in H1, H2 by lra.
  assert (pow10 (adjusted a) < pow10 (adjusted b + 1))%Q as Hx by lra.
  apply pow10_lt_inv in Hx. lia.
Qed.

Lemma round28_mono a b : (0 <= a)%Q -> (a <= b)%Q -> (round28 a <= round28 b)%Q.
Proof.
  intros Ha Hb. destruct (Qle_lt_or_eq _ _ Ha) as [Hp|He].
  2:{ rewrite (round28_0 a) by (by symmetry). apply round28_nonneg. lra. }
  pose proof (adjusted_mono a b Hp Hb) as Hk. assert (0 < b)%Q as Hpb by lra.
  destruct (Z_lt_le_dec (adjusted a) (adjusted b)) as [Hlt|Hge].
  - destruct (round28_bounds a Hp) as [_ H1]. destruct (round28_bounds b Hpb) as [H2 _].
    assert (pow10 (adjusted a + 1) <= pow10 (adjusted b))%Q; [|lra].
    apply Qpower_le_compat_l; [lia|done].
  - assert (E : adjusted a = adjusted b) by lia. unfold round28. rewrite E.
    destruct (Qnum a =? 0) eqn:Ea; [unfold Qlt in Hp; simpl in Hp; lia|].
    destruct (Qnum b =? 0) eqn:Eb; [unfold Qlt in Hpb; simpl in Hpb; lia|].
    rewrite !Qred_correct. apply Qmult_le_compat_r.
    + rewrite <- Zle_Qle. apply round_int_half_even_mono. apply Qmult_le_compat_r; [done|].
      apply Qlt_le_weak, pow10_pos.
    + apply Qlt_le_weak, pow10_pos.
Qed.

Lemma round28_exact_bound : (round28 exact_bound == exact_bound)%Q.
Proof. apply (round28_exact exact_bound 0 (10 ^ 24)); [change (pow10 0) with 1%Q; unfold exact_bound; ring|done]. Qed.

(** Once Python's [sum] of non-negative amounts passes the bound it stays past it, so
    a sum below the bound was exact. *)
Lemma dsum_past xs acc :
  Forall (fun x => 0 <= x)%Q xs -> (exact_bound <= acc)%Q -> (exact_bound <= foldl dadd acc xs)%Q.
Proof.
  intros H. revert acc. induction H as [|x xs Hx _ IH]; intros acc Ha; simpl; [done|].
  apply IH. rewrite <- round28_exact_bound. apply round28_mono; [apply Qlt_le_weak, exact_bound_pos|lra].
Qed.

Lemma dsum_bounded xs acc :
  Forall is_money xs -> Forall (fun x => 0 <= x)%Q xs -> is_money acc -> (0 <= acc)%Q ->
  (foldl dadd acc xs < exact_bound)%Q -> (acc + qsum xs < exact_bound)%Q.
Proof.
  revert acc. induction xs as [|x xs IH]; intros acc Hm Hp Ha H0 Hb; simpl in *; [lra|].
  apply Forall_cons in Hm as [Hmx Hm]. apply Forall_cons in Hp as [Hpx Hp].
  destruct (Qlt_le_dec (acc + x) exact_bound) as [Hl|Hge].
  - assert (E : (dadd acc x == acc + x)%Q) by (apply dadd_money; auto; pose proof exact_bound_pos; lra).
    assert (dadd acc x + qsum xs < exact_bound)%Q; [|lra].
    apply IH; auto; rewrite E; [auto with money|lra].
  - exfalso. assert (exact_bound <= foldl dadd (dadd acc x) xs)%Q; [|lra].
    apply dsum_past; [done|]. rewrite <- round28_exact_bound at 1.
    apply round28_mono; [apply Qlt_le_weak, exact_bound_pos|done].
Qed.

Lemma dsum_money_bounded xs :
  Forall is_money xs -> Forall (fun x => 0 <= x)%Q xs -> (dsum xs < exact_bound)%Q ->
  (dsum xs == qsum xs)%Q.
Proof.
  intros Hm Hp Hb. apply dsum_money; [done|done|].
  pose proof (dsum_bounded xs 0 Hm Hp is_money_0 ltac:(lra) Hb). lra.
Qed.

(** ** The context is symmetric in the sign *)

Lemma round_int_half_even_opp q : round_int ROUND_HALF_EVEN (- q) = - round_int ROUND_HALF_EVEN q.
Proof.
  destruct (q_floor_rem q) as [E B], (q_floor_rem (- q)) as [E' B']. destruct q as [n d]. simpl in *.
  unfold round_int. simpl. revert E B E' B'.
  generalize (n / Zpos d) (n mod Zpos d) (- n / Zpos d) (- n mod Zpos d). intros fl r fl' r' E B E' B'.
  assert (H : (fl' = - fl /\ r = 0 /\ r' = 0) \/ (fl' = - fl - 1 /\ r' = Zpos d - r /\ 0 < r)).
  { assert (Zpos d * (fl + fl') = - (r + r')) as H by lia.
    assert (fl + fl' = 0 \/ fl + fl' = -1) as [H0|H0] by nia; rewrite H0 in H; [left|right]; lia. }
  destruct H as [(-> & -> & ->)|(-> & -> & Hr)].
  - repeat case_match; lia.
  - assert (Hev : Z.even (- fl - 1) = negb (Z.even fl)).
    { replace (- fl - 1) with (- (fl + 1)) by ring. rewrite Z.even_opp, Z.even_add. by destruct (Z.even fl). }
    rewrite Hev. destruct (Z.even fl); simpl; repeat case_match; lia.
Qed.

Lemma adjusted_opp q : adjusted (- q) = adjusted q.
Proof. destruct q as [n d]. unfold adjusted, Qabs. simpl. by rewrite !Z.abs_opp. Qed.

Lemma round28_opp q : (round28 (- q) == - round28 q)%Q.
Proof.
  unfold round28. rewrite adjusted_opp. simpl Qnum.
  destruct (Qnum q =? 0) eqn:E0; [replace (- Qnum q =? 0) with true by lia; ring|].
  replace (- Qnum q =? 0) with false by lia.
  rewrite !Qred_correct.
  assert (E : (- q * pow10 (prec - 1 - adjusted q) == - (q * pow10 (prec - 1 - adjusted q)))%Q) by ring.
  rewrite E, round_int_half_even_opp, inject_Z_opp. ring.
Qed.

(** A negated amount under a limit was under it. *)
Lemma dneg_bounded q lim :
  is_money lim -> (0 <= lim)%Q -> (lim < exact_bound)%Q -> (- lim < dneg q)%Q -> (q < lim)%Q.
Proof.
  intros Hm H0 Hb H. unfold dneg in H. rewrite round28_opp in H.
  destruct (Qlt_le_dec q lim) as [|Hge]; [done|]. exfalso.
  pose proof (round28_mono lim q H0 Hge) as Hx.
  rewrite (round28_money lim) in Hx by (done || qabs). lra.
Qed.
