(* ===== verification/Sql.v ===== *)
(** * SQL statements over one table

    A table is the list of its rows in insertion order.  [select], [update],
    [order_by] and [limit] give the statements the program issues; a row's
    primary key is the [id] the section is given, and [pk_ok] (no two rows share
    an id) is the invariant PostgreSQL keeps.  [claim] is the shape
    [WITH picked AS (SELECT id ... ORDER BY ... LIMIT n) UPDATE ... FROM picked]. *)

From Stdlib Require Import ZArith Lia List QArith Lqa Sorted Permutation.
From stdpp Require Import base list strings.
From S2P Require Import Prelude PyDecimal.

Local Open Scope Z_scope.

(** A UUID compares as the 128-bit number it spells. *)
Abbreviation uuid := Z (only parsing).
(** Microseconds since the epoch, UTC. *)
Abbreviation instant := Z (only parsing).

Definition opt_Z_eqb (a b : option Z) : bool := bool_decide (a = b).

Section Table.
Context {R : Type} (rid : R -> uuid).
Implicit Types (p : R -> bool) (f : R -> R) (t : list R).

Definition select p t : list R := List.filter p t.
Definition update p f t : list R := map (fun r => if p r then f r else r) t.
Definition rowcount p t : nat := length (select p t).
Definition delete_where p t : list R := List.filter (fun r => negb (p r)) t.

(** [ORDER BY]: a stable insertion sort by the comparison [le]. *)
Fixpoint insert_by (le : R -> R -> bool) (x : R) t : list R :=
  match t with
  | [] => [x]
  | y :: t' => if le x y then x :: y :: t' else y :: insert_by le x t'
  end.
Fixpoint order_by (le : R -> R -> bool) t : list R :=
  match t with
  | [] => []
  | x :: t' => insert_by le x (order_by le t')
  end.

Definition limit (n : nat) t : list R := take n t.

Definition id_in (ids : list uuid) (r : R) : bool := existsb (Z.eqb (rid r)) ids.

(** [WITH picked AS (SELECT id WHERE p ORDER BY le LIMIT n) UPDATE ... SET f FROM
    picked]: the updated rows, and the table. *)
Definition claim p (le : R -> R -> bool) (n : nat) f t : list R * list R :=
  let picked := map rid (limit n (order_by le (select p t))) in
  (map f (select (id_in picked) t), update (id_in picked) f t).

Definition pk_ok t : Prop := NoDup (map rid t).

Definition by_id (i : uuid) (r : R) : bool := rid r =? i.

(** ** Laws *)

Lemma select_In p t r : In r (select p t) <-> In r t /\ p r = true.
Proof. apply filter_In. Qed.

Lemma update_In p f t r' :
  In r' (update p f t) <-> exists r, In r t /\ r' = (if p r then f r else r).
Proof. unfold update. rewrite in_map_iff. firstorder congruence. Qed.

Lemma update_length p f t : length (update p f t) = length t.
Proof. apply length_map. Qed.

Lemma update_none p f t : (forall r, In r t -> p r = false) -> update p f t = t.
Proof.
  intros H. unfold update. rewrite <- (map_id t) at 2. apply map_ext_in.
  intros r Hr. by rewrite H.
Qed.

Lemma rowcount_0 p t : rowcount p t = 0%nat <-> (forall r, In r t -> p r = false).
Proof.
  unfold rowcount, select. split.
  - intros H r Hr. destruct (p r) eqn:E; [|done].
    apply length_zero_iff_nil in H. pose proof (proj2 (filter_In p r t) (conj Hr E)) as G.
    rewrite H in G. destruct G.
  - intros H. induction t as [|r t IH]; [done|]. simpl. rewrite (H r) by (by left).
    apply IH. intros. apply H. by right.
Qed.

Lemma rowcount_0_update p f t : rowcount p t = 0%nat -> update p f t = t.
Proof. intros H. apply update_none. by apply rowcount_0. Qed.

Lemma update_ids p f t : (forall r, rid (f r) = rid r) -> map rid (update p f t) = map rid t.
Proof.
  intros H. unfold update. rewrite map_map. apply map_ext. intros r.
  destruct (p r); [apply H|done].
Qed.

Lemma update_pk_ok p f t : (forall r, rid (f r) = rid r) -> pk_ok t -> pk_ok (update p f t).
Proof. intros H. unfold pk_ok. by rewrite update_ids. Qed.

Lemma insert_pk_ok r t : ~ In (rid r) (map rid t) -> pk_ok t -> pk_ok (t ++ [r]).
Proof.
  unfold pk_ok. intros Hn Ht. rewrite map_app. apply NoDup_app. split; [done|].
  split; [|apply NoDup_singleton].
  intros i Hi Hr. apply list_elem_of_singleton in Hr as ->. apply Hn.
  by apply list_elem_of_In.
Qed.

Lemma pk_unique t r1 r2 : pk_ok t -> In r1 t -> In r2 t -> rid r1 = rid r2 -> r1 = r2.
Proof.
  unfold pk_ok. induction t as [|r t IH]; simpl; [done|].
  intros Hnd. apply NoDup_cons in Hnd as [Hn Hnd].
  assert (Hx : forall x, In x t -> rid r <> rid x).
  { intros x Hx E. apply Hn, list_elem_of_In. rewrite E. by apply in_map. }
  intros [->|H1] [->|H2] E; try done; [exfalso; by eapply Hx|exfalso|by apply IH].
  symmetry in E. by eapply Hx.
Qed.

(** The rows a keyed predicate selects: at most one. *)
Lemma select_by_id t i p :
  pk_ok t -> (forall r, p r = true -> rid r = i) ->
  select p t = [] \/ exists r, select p t = [r] /\ In r t /\ p r = true.
Proof.
  unfold pk_ok. induction t as [|r t IH]; simpl; [by left|].
  intros Hnd Hp. apply NoDup_cons in Hnd as [Hn Hnd].
  destruct (p r) eqn:E.
  - right. exists r. split; [|by auto]. f_equal.
    destruct (IH Hnd Hp) as [->|(r' & _ & H1 & H2)]; [done|].
    exfalso. apply Hn, list_elem_of_In. rewrite (Hp r), <- (Hp r') by done. by apply in_map.
  - destruct (IH Hnd Hp) as [->|(r' & -> & H1 & H2)]; [by left|right; eauto].
Qed.

Lemma rowcount_by_id t i p :
  pk_ok t -> (forall r, p r = true -> rid r = i) -> (rowcount p t <= 1)%nat.
Proof.
  intros H Hp. unfold rowcount.
  destruct (select_by_id t i p H Hp) as [->|(r & -> & _)]; simpl; lia.
Qed.

Lemma rowcount_pos p t r : In r t -> p r = true -> (0 < rowcount p t)%nat.
Proof.
  intros Hr Hp. destruct (rowcount p t) eqn:E; [|lia].
  rewrite rowcount_0 in E. by rewrite E in Hp.
Qed.

(** A sum over the rows of a table, and how updates move it. *)
Definition sum_over (v : R -> Q) t : Q := qsum (map v t).

Lemma sum_over_app v t1 t2 : (sum_over v (t1 ++ t2) == sum_over v t1 + sum_over v t2)%Q.
Proof. unfold sum_over. by rewrite map_app, qsum_app. Qed.

Lemma sum_over_ext v w t :
  (forall r, In r t -> (v r == w r)%Q) -> (sum_over v t == sum_over w t)%Q.
Proof.
  unfold sum_over. induction t as [|r t IH]; intros H; simpl; [reflexivity|].
  rewrite (H r), IH; [reflexivity| |by left]. intros. apply H. by right.
Qed.

(** An update of the one row with id [i] moves the sum by that row's change. *)
Lemma sum_over_update_id v p f t r :
  pk_ok t -> In r t -> p r = true -> (forall r', p r' = true -> rid r' = rid r) ->
  (sum_over v (update p f t) == sum_over v t - v r + v (f r))%Q.
Proof.
  unfold pk_ok, sum_over, update. induction t as [|x t IH]; simpl; [done|].
  intros Hnd Hr Hp Hu. apply NoDup_cons in Hnd as [Hn Hnd].
  destruct Hr as [->|Hr].
  - rewrite Hp. rewrite (map_ext_in _ id t).
    + rewrite map_id. unfold id. ring.
    + intros x Hx. destruct (p x) eqn:E; [|done]. exfalso.
      apply Hn, list_elem_of_In. rewrite <- (Hu x) by done. by apply in_map.
  - destruct (p x) eqn:E.
    + exfalso. apply Hn, list_elem_of_In. rewrite (Hu x) by done. by apply in_map.
    + rewrite (IH Hnd Hr Hp Hu). ring.
Qed.

(** ** [ORDER BY] *)

Lemma insert_by_perm le x t : Permutation (insert_by le x t) (x :: t).
Proof.
  induction t as [|y t IH]; simpl; [done|]. destruct (le x y); [done|].
  rewrite IH. apply Permutation_swap.
Qed.

Lemma order_by_perm le t : Permutation (order_by le t) t.
Proof. induction t as [|x t IH]; simpl; [done|]. by rewrite insert_by_perm, IH. Qed.

Lemma order_by_In le t r : In r (order_by le t) <-> In r t.
Proof. split; apply Permutation_in; [|symmetry]; apply order_by_perm. Qed.

Section Ordered.
Context (le : R -> R -> bool).
Context (le_total : forall x y, le x y = true \/ le y x = true).
Context (le_trans : forall x y z, le x y = true -> le y z = true -> le x z = true).

Lemma insert_by_sorted x t :
  StronglySorted (fun a b => le a b = true) t ->
  StronglySorted (fun a b => le a b = true) (insert_by le x t).
Proof.
  induction 1 as [|y t Hs IH Hy]; simpl; [repeat constructor|].
  destruct (le x y) eqn:E.
  - constructor; [by constructor|]. constructor; [done|].
    eapply Forall_impl; [exact Hy|]. simpl. intros z Hz. by eapply le_trans.
  - constructor; [done|]. rewrite insert_by_perm. constructor; [|done].
    by destruct (le_total x y) as [H|H]; [congruence|].
Qed.

Lemma order_by_sorted t : StronglySorted (fun a b => le a b = true) (order_by le t).
Proof. induction t; simpl; [constructor|by apply insert_by_sorted]. Qed.

(** Whatever [LIMIT] leaves out comes no earlier than what it keeps. *)
Lemma limit_first n t x y :
  In x (limit n (order_by le t)) -> In y (order_by le t) ->
  ~ In y (limit n (order_by le t)) -> le x y = true.
Proof.
  unfold limit. intros Hx Hy Hn. pose proof (order_by_sorted t) as Hs.
  rewrite <- (take_drop n (order_by le t)) in Hs, Hy.
  apply in_app_or in Hy as [Hy|Hy]; [done|].
  revert Hs Hx Hy. generalize (take n (order_by le t)) (drop n (order_by le t)).
  intros l1 l2. induction l1 as [|a l1 IH]; simpl; [done|].
  intros Hs [->|Hx] Hy; inversion_clear Hs as [|? ? Hs' Ha].
  - rewrite Forall_forall in Ha. apply Ha, list_elem_of_In, in_or_app. by right.
  - by apply IH.
Qed.
End Ordered.

(** ** [claim] *)

Lemma id_in_spec ids r : id_in ids r = true <-> In (rid r) ids.
Proof.
  unfold id_in. rewrite existsb_exists. split.
  - intros (x & Hx & E). apply Z.eqb_eq in E. by subst.
  - intros H. exists (rid r). split; [done|apply Z.eqb_refl].
Qed.

Lemma claim_picked p le n t r :
  pk_ok t -> In r t ->
  (id_in (map rid (limit n (order_by le (select p t)))) r = true <->
   In r (limit n (order_by le (select p t)))).
Proof.
  intros Hpk Hr. rewrite id_in_spec, in_map_iff. split; [|eauto].
  intros (r' & E & Hr'). replace r with r'; [done|].
  eapply pk_unique; try done. unfold limit in Hr'.
  apply list_elem_of_In, elem_of_take in Hr' as (i & Hi & _).
  apply list_elem_of_lookup_2, list_elem_of_In, order_by_In, select_In in Hi. tauto.
Qed.

Lemma limit_order_select_In p le n t r :
  In r (limit n (order_by le (select p t))) -> In r t /\ p r = true.
Proof.
  unfold limit. intros H. apply list_elem_of_In, elem_of_take in H as (i & Hi & _).
  by apply list_elem_of_lookup_2, list_elem_of_In, order_by_In, select_In in Hi.
Qed.

Lemma id_in_picked_p p le n t r :
  pk_ok t -> In r t -> id_in (map rid (limit n (order_by le (select p t)))) r = true ->
  p r = true.
Proof.
  intros Hpk Hr H. apply (claim_picked p le n t r Hpk Hr) in H.
  apply limit_order_select_In in H. tauto.
Qed.

(** An UPDATE keeps a row property that its assignment keeps on the rows it hits. *)
Lemma update_Forall (P : R -> Prop) p f t :
  Forall P t -> (forall r, In r t -> P r -> p r = true -> P (f r)) -> Forall P (update p f t).
Proof.
  intros Ht Hf. apply List.Forall_forall. intros r' Hr'.
  apply update_In in Hr' as (r & Hr & ->).
  assert (P r) by (rewrite List.Forall_forall in Ht; auto).
  destruct (p r) eqn:E; auto.
Qed.

Lemma claim_Forall (P : R -> Prop) p le n f t :
  pk_ok t -> Forall P t -> (forall r, In r t -> P r -> p r = true -> P (f r)) ->
  Forall P (snd (claim p le n f t)).
Proof.
  intros Hpk Ht Hf. simpl. apply update_Forall; [done|].
  intros r Hr HP Hin. apply Hf; try done. by eapply id_in_picked_p.
Qed.

Lemma claim_ids p le n f t :
  (forall r, rid (f r) = rid r) -> map rid (snd (claim p le n f t)) = map rid t.
Proof. apply update_ids. Qed.

(** The rows [RETURNING] gives: each is [f] of a picked row of the table. *)
Lemma claim_rows_In p le n f t r' :
  pk_ok t -> In r' (fst (claim p le n f t)) ->
  exists r, In r t /\ p r = true /\ r' = f r
            /\ In r (limit n (order_by le (select p t))).
Proof.
  simpl. intros Hpk H. apply in_map_iff in H as (r & <- & Hr).
  apply select_In in Hr as [Hr Hin].
  pose proof Hin as Hin'. apply (claim_picked p le n t r Hpk Hr) in Hin'.
  exists r. repeat split; try done. by eapply id_in_picked_p.
Qed.

Lemma NoDup_order_select p le n t :
  pk_ok t -> NoDup (map rid (limit n (order_by le (select p t)))).
Proof.
  unfold pk_ok, limit. intros H. rewrite <- firstn_map.
  assert (NoDup (map rid (order_by le (select p t)))) as Hn.
  2:{ rewrite <- (take_drop n (map rid _)) in Hn. by apply NoDup_app in Hn as (? & _ & _). }
  rewrite order_by_perm.
  induction t as [|r t IH]; simpl in *; [constructor|].
  apply NoDup_cons in H as [Hn H]. destruct (p r); simpl; [|by apply IH].
  apply NoDup_cons. split; [|by apply IH]. intros Hin. apply Hn.
  apply list_elem_of_In in Hin. apply list_elem_of_In.
  apply in_map_iff in Hin as (x & <- & Hx). apply select_In in Hx as [Hx _]. by apply in_map.
Qed.

Lemma limit_order_length p le n t : (length (limit n (order_by le (select p t))) <= n)%nat.
Proof. unfold limit. rewrite length_take. lia. Qed.
(** At most [LIMIT] rows are claimed. *)
Lemma claim_length p le n f t : pk_ok t -> (length (fst (claim p le n f t)) <= n)%nat.
Proof.
  intros Hpk. simpl. rewrite length_map.
  etrans; [|apply (limit_order_length p le n t)].
  set (picked := limit n (order_by le (select p t))).
  assert (Hs : submseteq (map rid (select (id_in (map rid picked)) t)) (map rid picked)).
  { apply NoDup_submseteq.
    - pose proof (NoDup_order_select (id_in (map rid picked)) (fun _ _ => true)
                    (length (order_by (fun _ _ => true) (select (id_in (map rid picked)) t))) t Hpk) as H.
      unfold limit in H. rewrite firstn_all, order_by_perm in H. done.
    - intros i Hi. apply list_elem_of_In in Hi. apply in_map_iff in Hi as (r & <- & Hr).
      apply select_In in Hr as [_ Hr]. apply id_in_spec in Hr. by apply list_elem_of_In. }
  apply submseteq_length in Hs. by rewrite !length_map in Hs.
Qed.
End Table.

(** Comparison by an instant, then by id: [ORDER BY at, id]. *)
Definition le_at_id {R} (at_ : R -> Z) (rid : R -> uuid) (x y : R) : bool :=
  (at_ x <? at_ y) || ((at_ x =? at_ y) && (rid x <=? rid y)).

Lemma le_at_id_total {R} (at_ rid : R -> Z) x y :
  le_at_id at_ rid x y = true \/ le_at_id at_ rid y x = true.
Proof. unfold le_at_id. lia. Qed.

Lemma le_at_id_trans {R} (at_ rid : R -> Z) x y z :
  le_at_id at_ rid x y = true -> le_at_id at_ rid y z = true -> le_at_id at_ rid x z = true.
Proof. unfold le_at_id. lia. Qed.

#[export] Hint Resolve le_at_id_total le_at_id_trans update_pk_ok insert_pk_ok : core.

(** ** JSONB values

    The text the program writes into a JSON document stands for the value it
    spells: ids, decimals and instants keep their identity. *)
Inductive jval :=
| JText (s : string)
| JId (i : uuid)
| JDec (q : Q)
| JTime (t : instant)
| JBool (b : bool)
| JNull
| JArr (rows : list (list (string * jval))).

Abbreviation json := (list (string * jval)) (only parsing).

Fixpoint json_get (k : string) (o : list (string * jval)) : option jval :=
  match o with
  | [] => None
  | (k', v) :: o' => if bool_decide (k = k') then Some v else json_get k o'
  end.

(** [meta->>'k' = text] for a text constant, and for the text of an id. *)
Definition json_text_is (k : string) (s : string) (o : list (string * jval)) : bool :=
  match json_get k o with Some (JText s') => bool_decide (s = s') | _ => false end.
Definition json_id_is (k : string) (i : uuid) (o : list (string * jval)) : bool :=
  match json_get k o with Some (JId i') => i =? i' | _ => false end.
