(* ===== verification/PyTime.v ===== *)
(** * Python's calendar

    Instants are microseconds since the epoch, in UTC; [IST] is the fixed offset
    UTC+5:30 the program keeps its wall clock in ([ZoneInfo("Asia/Kolkata")], which
    has had no other offset since 1945).  Dates are Python's proleptic Gregorian
    ones, by the standard library's own algorithm ([datetime._ymd2ord] and
    [_ord2ymd]). *)

From Stdlib Require Import ZArith Lia List Bool Zdiv.
From stdpp Require Import base list.
From S2P Require Import Prelude Sql.

Local Open Scope Z_scope.

Definition US_PER_DAY : Z := 86400000000.
Definition IST_OFFSET : Z := 19800000000.

Record date := Date { year : Z; month : Z; day : Z }.
Record datetime := DateTime { dt_date : date; dt_time : Z }.   (* microseconds of the day *)

#[export] Instance date_eq_dec : EqDecision date.
Proof. solve_decision. Defined.

Definition is_leap (y : Z) : bool :=
  (y mod 4 =? 0) && (negb (y mod 100 =? 0) || (y mod 400 =? 0)).

Definition days_in_month (y m : Z) : Z :=
  if m =? 2 then if is_leap y then 29 else 28
  else if (m =? 4) || (m =? 6) || (m =? 9) || (m =? 11) then 30 else 31.

Definition days_before_year (y : Z) : Z :=
  let y := y - 1 in y * 365 + y / 4 - y / 100 + y / 400.

(** [_DAYS_BEFORE_MONTH], of a year that is not leap. *)
Definition days_before_month_table (m : Z) : Z :=
  nth (Z.to_nat m) [0; 0; 31; 59; 90; 120; 151; 181; 212; 243; 273; 304; 334] 0.
Definition days_before_month (y m : Z) : Z :=
  days_before_month_table m + (if (2 <? m) && is_leap y then 1 else 0).

Definition ymd2ord (d : date) : Z :=
  days_before_year (year d) + days_before_month (year d) (month d) + day d.

Definition valid_date (d : date) : bool :=
  (1 <=? year d) && (1 <=? month d) && (month d <=? 12) && (1 <=? day d)
  && (day d <=? days_in_month (year d) (month d)).

(** The month and day of the [n]-th day (from 0) of a year. *)
Definition month_day (leap : bool) (n : Z) : Z * Z :=
  let m := (n + 50) / 32 in
  let pre := days_before_month_table m + (if (2 <? m) && leap then 1 else 0) in
  if n <? pre
  then
    let m := m - 1 in
    let pre := pre - ((if m =? 2 then 28
                       else if (m =? 4) || (m =? 6) || (m =? 9) || (m =? 11) then 30 else 31)
                      + (if (m =? 2) && leap then 1 else 0)) in
    (m, n - pre + 1)
  else (m, n - pre + 1).

Definition ord2ymd (n : Z) : date :=
  let n := n - 1 in
  let '(n400, n) := (n / 146097, n mod 146097) in
  let '(n100, n) := (n / 36524, n mod 36524) in
  let '(n4, n) := (n / 1461, n mod 1461) in
  let '(n1, n) := (n / 365, n mod 365) in
  let y := n400 * 400 + 1 + n100 * 100 + n4 * 4 + n1 in
  if (n1 =? 4) || (n100 =? 4) then Date (y - 1) 12 31
  else
    let leap := (n1 =? 3) && (negb (n4 =? 24) || (n100 =? 3)) in
    let '(m, d) := month_day leap n in Date y m d.

(** ** The two conversions are inverse *)

Lemma month_day_spec_b :
  forallb (fun leap => forallb (fun i =>
    let n := Z.of_nat i in
    let '(m, d) := month_day leap n in
    (1 <=? m) && (m <=? 12) && (1 <=? d)
    && (d <=? (if m =? 2 then if leap then 29 else 28
               else if (m =? 4) || (m =? 6) || (m =? 9) || (m =? 11) then 30 else 31))
    && (days_before_month_table m + (if (2 <? m) && leap then 1 else 0) + d =? n + 1))
    (seq 0 (if leap then 366 else 365)%nat)) [true; false] = true.
Proof. vm_compute. reflexivity. Qed.

Lemma month_day_spec (leap : bool) n m d :
  0 <= n < (if leap then 366 else 365) -> month_day leap n = (m, d) ->
  1 <= m <= 12 /\ 1 <= d
  /\ d <= (if m =? 2 then if leap then 29 else 28
           else if (m =? 4) || (m =? 6) || (m =? 9) || (m =? 11) then 30 else 31)
  /\ days_before_month_table m + (if (2 <? m) && leap then 1 else 0) + d = n + 1.
Proof.
  intros Hn E. pose proof month_day_spec_b as H. rewrite forallb_forall in H.
  assert (Hl : List.In leap [true; false]) by (destruct leap; simpl; auto).
  specialize (H leap Hl). rewrite forallb_forall in H.
  specialize (H (Z.to_nat n)). cbv beta zeta in H. rewrite Z2Nat.id in H by lia. rewrite E in H.
  assert (Hin : List.In (Z.to_nat n) (seq 0 (if leap then 366 else 365)%nat))
    by (apply in_seq; destruct leap; lia).
  specialize (H Hin). repeat (apply andb_prop in H; destruct H as [H ?]). lia.
Qed.

Lemma days_before_year_cycles a b c d :
  0 <= b <= 3 -> 0 <= c <= 24 -> 0 <= d <= 3 ->
  days_before_year (a * 400 + 1 + b * 100 + c * 4 + d) = a * 146097 + b * 36524 + c * 1461 + d * 365.
Proof.
  intros Hb Hc Hd. unfold days_before_year.
  replace (a * 400 + 1 + b * 100 + c * 4 + d - 1) with (400 * a + 100 * b + 4 * c + d) by ring.
  assert ((400 * a + 100 * b + 4 * c + d) / 4 = 100 * a + 25 * b + c) as -> by (symmetry; apply (Zdiv_unique _ _ _ d); lia).
  assert ((400 * a + 100 * b + 4 * c + d) / 100 = 4 * a + b) as -> by (symmetry; apply (Zdiv_unique _ _ _ (4 * c + d)); lia).
  assert ((400 * a + 100 * b + 4 * c + d) / 400 = a) as -> by (symmetry; apply (Zdiv_unique _ _ _ (100 * b + 4 * c + d)); lia).
  lia.
Qed.

Lemma is_leap_cycles a b c d :
  0 <= b <= 3 -> 0 <= c <= 24 -> 0 <= d <= 3 ->
  is_leap (a * 400 + 1 + b * 100 + c * 4 + d) = (d =? 3) && (negb (c =? 24) || (b =? 3)).
Proof.
  intros Hb Hc Hd. unfold is_leap.
  set (y := a * 400 + 1 + b * 100 + c * 4 + d).
  assert (H4 : y mod 4 = (d + 1) mod 4).
  { unfold y. replace (a * 400 + 1 + b * 100 + c * 4 + d) with (d + 1 + (100 * a + 25 * b + c) * 4) by ring.
    by rewrite Z_mod_plus_full. }
  assert (H100 : y mod 100 = (4 * c + d + 1) mod 100).
  { unfold y. replace (a * 400 + 1 + b * 100 + c * 4 + d) with (4 * c + d + 1 + (4 * a + b) * 100) by ring.
    by rewrite Z_mod_plus_full. }
  assert (H400 : y mod 400 = (100 * b + 4 * c + d + 1) mod 400).
  { unfold y. replace (a * 400 + 1 + b * 100 + c * 4 + d) with (100 * b + 4 * c + d + 1 + a * 400) by ring.
    by rewrite Z_mod_plus_full. }
  rewrite H4, H100, H400. Z.to_euclidean_division_equations. lia.
Qed.

Lemma ord2ymd_spec n :
  1 <= n -> ymd2ord (ord2ymd n) = n /\ valid_date (ord2ymd n) = true.
Proof.
  intros Hn. unfold ord2ymd.
  pose proof (Z.div_mod (n - 1) 146097 ltac:(lia)) as E0.
  pose proof (Z.mod_pos_bound (n - 1) 146097 ltac:(lia)) as B0.
  assert (A0 : 0 <= (n - 1) / 146097) by (apply Z.div_pos; lia).
  set (a := (n - 1) / 146097) in *. set (r0 := (n - 1) mod 146097) in *.
  pose proof (Z.div_mod r0 36524 ltac:(lia)) as E1. pose proof (Z.mod_pos_bound r0 36524 ltac:(lia)) as B1.
  set (b := r0 / 36524) in *. set (r1 := r0 mod 36524) in *.
  pose proof (Z.div_mod r1 1461 ltac:(lia)) as E2. pose proof (Z.mod_pos_bound r1 1461 ltac:(lia)) as B2.
  set (c := r1 / 1461) in *. set (r2 := r1 mod 1461) in *.
  pose proof (Z.div_mod r2 365 ltac:(lia)) as E3. pose proof (Z.mod_pos_bound r2 365 ltac:(lia)) as B3.
  set (d := r2 / 365) in *. set (r3 := r2 mod 365) in *.
  clearbody a r0 b r1 c r2 d r3.
  assert (Hc : 0 <= c <= 24) by lia. assert (Hb : 0 <= b <= 4) by lia. assert (Hd : 0 <= d <= 4) by lia.
  destruct ((d =? 4) || (b =? 4)) eqn:Eb.
  - set (y := a * 400 + 1 + b * 100 + c * 4 + d - 1).
    assert (exists c' b', y = a * 400 + 1 + b' * 100 + c' * 4 + 3 /\ 0 <= b' <= 3 /\ 0 <= c' <= 24
              /\ (c' <> 24 \/ b' = 3)
              /\ n = a * 146097 + b' * 36524 + c' * 1461 + 3 * 365 + 366) as (c' & b' & Ey & Hb' & Hc' & Hx & En).
    { unfold y. destruct (b =? 4) eqn:E4.
      - exists 24, 3. lia.
      - exists c, b. lia. }
    rewrite Ey. unfold ymd2ord, valid_date, days_before_month, days_in_month. simpl.
    rewrite days_before_year_cycles, is_leap_cycles by lia.
    assert ((3 =? 3) && (negb (c' =? 24) || (b' =? 3)) = true) as -> by lia.
    unfold days_before_month_table. simpl. lia.
  - assert (Hb3 : 0 <= b <= 3) by lia. assert (Hd3 : 0 <= d <= 3) by lia.
    destruct (month_day _ r3) as [m dd] eqn:Em.
    apply month_day_spec in Em as (Hm & Hdd & Hdi & Hs); [|destruct (_ && _); lia].
    unfold ymd2ord, valid_date, days_before_month, days_in_month. simpl.
    rewrite days_before_year_cycles, is_leap_cycles by lia. lia.
Qed.

Lemma div_succ z k : 0 < k -> (z + 1) / k = z / k + (if (z + 1) mod k =? 0 then 1 else 0).
Proof.
  intros Hk. pose proof (Z.div_mod z k ltac:(lia)). pose proof (Z.mod_pos_bound z k Hk).
  pose proof (Z.div_mod (z + 1) k ltac:(lia)). pose proof (Z.mod_pos_bound (z + 1) k Hk).
  destruct (Z.eqb_spec ((z + 1) mod k) 0); nia.
Qed.

Lemma days_before_year_succ y :
  days_before_year (y + 1) = days_before_year y + 365 + (if is_leap y then 1 else 0).
Proof.
  unfold days_before_year, is_leap. replace (y + 1 - 1) with (y - 1 + 1) by ring.
  replace (y mod 4) with ((y - 1 + 1) mod 4) by (f_equal; ring).
  replace (y mod 100) with ((y - 1 + 1) mod 100) by (f_equal; ring).
  replace (y mod 400) with ((y - 1 + 1) mod 400) by (f_equal; ring).
  generalize (y - 1) as z. intros z.
  rewrite (div_succ z 4), (div_succ z 100), (div_succ z 400) by lia.
  assert ((z + 1) mod 100 = 0 -> (z + 1) mod 4 = 0) by (intros; Z.to_euclidean_division_equations; lia).
  assert ((z + 1) mod 400 = 0 -> (z + 1) mod 100 = 0) by (intros; Z.to_euclidean_division_equations; lia).
  destruct (Z.eqb_spec ((z + 1) mod 4) 0), (Z.eqb_spec ((z + 1) mod 100) 0),
    (Z.eqb_spec ((z + 1) mod 400) 0); simpl; lia.
Qed.

Lemma days_before_year_mono y1 y2 : y1 <= y2 -> days_before_year y1 <= days_before_year y2.
Proof.
  intros H. replace y2 with (y1 + Z.of_nat (Z.to_nat (y2 - y1))) by lia.
  induction (Z.to_nat (y2 - y1)) as [|k IH]; [by rewrite Z.add_0_r|].
  rewrite Nat2Z.inj_succ. replace (y1 + Z.succ (Z.of_nat k)) with (y1 + Z.of_nat k + 1) by lia.
  rewrite days_before_year_succ. destruct (is_leap _); lia.
Qed.

(** The months of a year are laid end to end. *)
Lemma days_before_month_step y m :
  1 <= m <= 11 -> days_before_month y (m + 1) = days_before_month y m + days_in_month y m.
Proof.
  intros H. unfold days_before_month, days_in_month, days_before_month_table.
  assert (m = 1 \/ m = 2 \/ m = 3 \/ m = 4 \/ m = 5 \/ m = 6 \/ m = 7 \/ m = 8 \/ m = 9 \/ m = 10 \/ m = 11)
    as Hm by lia.
  by repeat (destruct Hm as [->|Hm]; [destruct (is_leap y); reflexivity|]); subst; destruct (is_leap y).
Qed.

Lemma days_before_month_mono y m1 m2 :
  1 <= m1 -> m1 < m2 -> m2 <= 12 -> days_before_month y m1 + days_in_month y m1 <= days_before_month y m2.
Proof.
  intros H1 H2 H3. replace m2 with (m1 + 1 + Z.of_nat (Z.to_nat (m2 - m1 - 1))) in * by lia.
  induction (Z.to_nat (m2 - m1 - 1)) as [|k IH].
  - rewrite Z.add_0_r. rewrite days_before_month_step; lia.
  - rewrite Nat2Z.inj_succ. replace (m1 + 1 + Z.succ (Z.of_nat k)) with (m1 + 1 + Z.of_nat k + 1) by lia.
    rewrite days_before_month_step by lia. assert (0 <= days_in_month y (m1 + 1 + Z.of_nat k)).
    { unfold days_in_month. repeat case_match; lia. }
    specialize (IH ltac:(lia) ltac:(lia)). lia.
Qed.

Lemma valid_date_spec d :
  valid_date d = true <->
  1 <= year d /\ 1 <= month d <= 12 /\ 1 <= day d <= days_in_month (year d) (month d).
Proof. unfold valid_date. rewrite !andb_true_iff, !Z.leb_le. tauto. Qed.

Lemma day_of_year_bound d :
  valid_date d = true ->
  1 <= days_before_month (year d) (month d) + day d <= 365 + (if is_leap (year d) then 1 else 0).
Proof.
  intros H. apply valid_date_spec in H as (_ & Hm & Hd).
  assert (0 <= days_before_month (year d) (month d)
          /\ days_before_month (year d) (month d) + days_in_month (year d) (month d)
             <= 365 + (if is_leap (year d) then 1 else 0)); [|lia].
  destruct (decide (month d = 12)) as [->|Hne].
  - unfold days_before_month, days_in_month, days_before_month_table. simpl.
    by destruct (is_leap (year d)).
  - pose proof (days_before_month_mono (year d) (month d) 12 ltac:(lia) ltac:(lia) ltac:(lia)) as Hx.
    split.
    + unfold days_before_month, days_before_month_table.
      assert (0 <= nth (Z.to_nat (month d)) [0; 0; 31; 59; 90; 120; 151; 181; 212; 243; 273; 304; 334] 0).
      { destruct (nth_in_or_default (Z.to_nat (month d)) [0; 0; 31; 59; 90; 120; 151; 181; 212; 243; 273; 304; 334] 0)
          as [Hin|E]; [|rewrite E; lia].
        revert Hin. generalize (nth (Z.to_nat (month d)) [0; 0; 31; 59; 90; 120; 151; 181; 212; 243; 273; 304; 334] 0).
        simpl. intros z Hin. lia. }
      destruct ((2 <? month d) && is_leap (year d)); lia.
    + unfold days_before_month in Hx at 2. unfold days_before_month_table in Hx.
      simpl in Hx. destruct (is_leap (year d)); simpl in Hx; lia.
Qed.

(** Later dates have greater ordinals. *)
Definition date_lt (a b : date) : Prop :=
  year a < year b \/ year a = year b /\ (month a < month b \/ month a = month b /\ day a < day b).

Lemma ymd2ord_mono a b :
  valid_date a = true -> valid_date b = true -> date_lt a b -> ymd2ord a < ymd2ord b.
Proof.
  intros Ha Hb [Hy|[Hy [Hm|[Hm Hd]]]]; unfold ymd2ord.
  - pose proof (day_of_year_bound a Ha). pose proof (day_of_year_bound b Hb).
    pose proof (days_before_year_mono (year a + 1) (year b) ltac:(lia)) as Hx.
    rewrite days_before_year_succ in Hx. lia.
  - apply valid_date_spec in Ha as (_ & ? & ?), Hb as (_ & ? & ?). rewrite Hy in *.
    pose proof (days_before_month_mono (year b) (month a) (month b) ltac:(lia) ltac:(lia) ltac:(lia)). lia.
  - rewrite Hy, Hm. lia.
Qed.

Lemma ymd2ord_pos d : valid_date d = true -> 1 <= ymd2ord d.
Proof.
  intros H. pose proof (day_of_year_bound d H). apply valid_date_spec in H as (Hy & _).
  pose proof (days_before_year_mono 1 (year d) Hy) as Hx. unfold ymd2ord.
  change (days_before_year 1) with 0 in Hx. lia.
Qed.

Lemma ord2ymd_ymd2ord d : valid_date d = true -> ord2ymd (ymd2ord d) = d.
Proof.
  intros H. destruct (ord2ymd_spec (ymd2ord d) (ymd2ord_pos d H)) as [E V].
  set (d' := ord2ymd (ymd2ord d)) in *.
  assert (~ date_lt d d' /\ ~ date_lt d' d) as [H1 H2].
  { split; intros Hl; apply ymd2ord_mono in Hl; try done; lia. }
  destruct d as [y m dd], d' as [y' m' dd']. unfold date_lt in *. simpl in *. f_equal; lia.
Qed.

(** ** The wall clock in IST *)

(** Ordinal of 1970-01-01. *)
Definition EPOCH_ORD : Z := 719163.

(** [instant.astimezone(IST)] and back. *)
Definition to_ist (t : instant) : datetime :=
  let l := t + IST_OFFSET in DateTime (ord2ymd (l / US_PER_DAY + EPOCH_ORD)) (l mod US_PER_DAY).
Definition of_ist (d : datetime) : instant :=
  (ymd2ord (dt_date d) - EPOCH_ORD) * US_PER_DAY + dt_time d - IST_OFFSET.

(** The instants Python's [datetime] can hold start with the year 1. *)
Definition in_range (t : instant) : Prop := 1 <= (t + IST_OFFSET) / US_PER_DAY + EPOCH_ORD.

Lemma of_ist_to_ist t : in_range t -> of_ist (to_ist t) = t.
Proof.
  intros H. unfold of_ist, to_ist. simpl. destruct (ord2ymd_spec _ H) as [-> _].
  pose proof (Z.div_mod (t + IST_OFFSET) US_PER_DAY ltac:(done)). lia.
Qed.

Lemma to_ist_of_ist d :
  valid_date (dt_date d) = true -> 0 <= dt_time d < US_PER_DAY -> to_ist (of_ist d) = d.
Proof.
  intros Hv Ht. unfold to_ist, of_ist.
  replace ((ymd2ord (dt_date d) - EPOCH_ORD) * US_PER_DAY + dt_time d - IST_OFFSET + IST_OFFSET)
    with (dt_time d + (ymd2ord (dt_date d) - EPOCH_ORD) * US_PER_DAY) by ring.
  rewrite Z.div_add, Z.mod_add by done. rewrite Z.div_small, Z.mod_small by done.
  replace (0 + (ymd2ord (dt_date d) - EPOCH_ORD) + EPOCH_ORD) with (ymd2ord (dt_date d)) by ring.
  rewrite ord2ymd_ymd2ord by done. by destruct d.
Qed.

Lemma to_ist_valid t :
  in_range t -> valid_date (dt_date (to_ist t)) = true /\ 0 <= dt_time (to_ist t) < US_PER_DAY.
Proof.
  intros H. split; [by apply ord2ymd_spec|]. by apply Z.mod_pos_bound.
Qed.

(** A time of day. *)
Definition hms (h m s : Z) : Z := ((h * 60 + m) * 60 + s) * 1000000.

(** [date + timedelta(days=n)], and [date.isoweekday()] (Monday is 1). *)
Definition add_days (d : date) (n : Z) : date := ord2ymd (ymd2ord d + n).
Definition isoweekday (d : date) : Z := (ymd2ord d + 6) mod 7 + 1.

(** [n] months later, the day clipped to the month's length. *)
Definition add_months_clipped (d : date) (n : Z) : date :=
  let index := month d - 1 + n in
  let y := year d + index / 12 in
  let m := index mod 12 + 1 in
  Date y m (Z.min (day d) (days_in_month y m)).

Lemma add_months_clipped_valid d n :
  valid_date d = true -> 0 <= n -> valid_date (add_months_clipped d n) = true.
Proof.
  intros H Hn. apply valid_date_spec in H as (Hy & Hm & Hd). apply valid_date_spec.
  unfold add_months_clipped. simpl.
  assert (0 <= (month d - 1 + n) / 12) by (apply Z.div_pos; lia).
  pose proof (Z.mod_pos_bound (month d - 1 + n) 12 ltac:(lia)).
  assert (1 <= days_in_month (year d + (month d - 1 + n) / 12) ((month d - 1 + n) mod 12 + 1))
    by (unfold days_in_month; repeat case_match; lia).
  lia.
Qed.
