(* ===== verification/AuditLog.v ===== *)
(** * The audit log's hash chain

    apps/api/compliance/audit.py.  Every entry is written with the hash of the entry
    before it and a keyed hash of itself; [verify_chain] walks the log in batches and
    reports the entries that do not check.  HMAC-SHA256 and [json.dumps] are
    parameters; the instance of the chain's key comes from the settings. *)

From Stdlib Require Import Ascii ZArith Lia List Sorted Permutation.
From stdpp Require Import base list strings countable sorting.
From S2P Require Import Prelude PyDecimal Sql.

Local Open Scope string_scope.
Local Open Scope list_scope.
Local Open Scope Z_scope.

Module Audit.

Definition GENESIS : string := "0000000000000000000000000000000000000000000000000000000000000000".
Definition VERIFY_BATCH : nat := 1000.
Definition MAX_REPORTED_BREAKS : nat := 20.

Record chain_key := ChainKey { generation : Z; material : string }.

(** [_key_ring]: the legacy key, the retired one when there is one, the active one. *)
Definition key_ring (legacy active : string) (retired : option string) : list chain_key :=
  if String.eqb active legacy then [ChainKey 0 legacy]
  else
    let ring := ChainKey 0 legacy
      :: match retired with
         | Some r => if String.eqb r "" then [] else [ChainKey 1 r]
         | None => []
         end in
    ring ++ [ChainKey (Z.of_nat (length ring)) active].

(** Who acts: [Principal], as far as the log reads it. *)
Record principal := Principal {
  is_admin : bool; user_id : option uuid; impersonation_grant_id : option uuid }.

(** The hashed document.  [p_ip = None]: the document has no such key. *)
Record payload := Payload {
  p_id : uuid; p_actor_type : string; p_actor_id : option uuid; p_tenant : option uuid;
  p_action : string; p_object_type : option string; p_object_id : option string;
  p_ip : option (option string); p_via : option uuid }.

Record row := Row {
  a_id : uuid; actor_type : string; actor_id : option uuid; a_tenant : option uuid;
  action : string; object_type : option string; object_id : option string;
  ip : option string; via_grant_id : option uuid; a_at : instant;
  prev_hash : option string; entry_hash : option string }.

Definition payload_of (r : row) : payload :=
  Payload (a_id r) (actor_type r) (actor_id r) (a_tenant r) (action r) (object_type r) (object_id r)
    (Some (ip r)) (via_grant_id r).

Definition without_ip (p : payload) : payload :=
  Payload (p_id p) (p_actor_type p) (p_actor_id p) (p_tenant p) (p_action p) (p_object_type p)
    (p_object_id p) None (p_via p).

Abbreviation log := (list row) (only parsing).

Definition by_at : row -> row -> bool := le_at_id a_at a_id.

(** [ORDER BY at DESC, id DESC LIMIT 1]; an empty hash counts as none. *)
Definition current_head (t : log) : string :=
  match order_by (fun x y => by_at y x) t with
  | r :: _ => match entry_hash r with
              | Some h => if String.eqb h "" then GENESIS else h
              | None => GENESIS
              end
  | [] => GENESIS
  end.

Inductive break_kind := link | content.
Record chain_break := ChainBreak { b_entry : uuid; b_at : instant; b_kind : break_kind }.

Record chain_verification := Verification {
  ok : bool; first_bad_entry_id : option uuid; breaks : list chain_break; breaks_found : nat;
  entries_checked : nat; complete : bool; oldest_checked_at : option instant;
  newest_checked_at : option instant; entries_under_retired_key : nat }.

(** The variables of [verify_chain]'s loop. *)
Record walk := Walk {
  expected_prev : string; checked : nat; w_breaks : list chain_break; w_found : nat;
  oldest : option instant; newest_at : option instant; cursor : option (instant * uuid);
  floor : Z; under_retired : nat; exhausted : bool }.

Definition start : walk := Walk GENESIS 0 [] 0 None None None 0 0 false.

Section Chain.
(** [hmac.new(key, message, sha256).hexdigest()] and
    [json.dumps(entry, sort_keys=True, separators=(",", ":"), default=str)]. *)
Context (hmac_hex : string -> string -> string) (dumps : payload -> string).

Definition entry_hash_of (prev : string) (e : payload) (key : string) : string :=
  hmac_hex key (prev +:+ dumps e).

(** The loop of [_matching_generation], over the ring reversed. *)
Fixpoint match_in (keys : list chain_key) (prev : string) (e : payload) (recorded : string)
    (floor_ : Z) : option Z :=
  match keys with
  | [] => None
  | k :: ks =>
      if generation k <? floor_ then None
      else if existsb (fun shape => String.eqb (entry_hash_of prev shape (material k)) recorded)
                [e; without_ip e]
      then Some (generation k)
      else match_in ks prev e recorded floor_
  end.
Definition matching_generation (ring : list chain_key) := match_in (rev ring).

(** [write_audit], under the chain's lock; [key] is the active one, [at_] the
    [clock_timestamp()] of the insert, [entry_id] the [uuid7()]. *)
Definition write_audit (key : string) (entry_id : uuid) (at_ : instant) (action_ : string)
    (actor : option principal) (actor_type_ : option string) (tenant : option uuid)
    (object_type_ object_id_ ip_ : option string) (t : log) : log :=
  let kind := match actor_type_ with
              | Some k => if String.eqb k "" then None else Some k
              | None => None
              end in
  let resolved := match kind, actor with
                  | Some k, _ => k
                  | None, Some a => if is_admin a then "admin" else "user"
                  | None, None => "system"
                  end in
  let who := match actor with Some a => user_id a | None => None end in
  let via := match actor with Some a => impersonation_grant_id a | None => None end in
  let e := Payload entry_id resolved who tenant action_ object_type_ object_id_ (Some ip_) via in
  let prev := current_head t in
  t ++ [Row entry_id resolved who tenant action_ object_type_ object_id_ ip_ via at_
          (Some prev) (Some (entry_hash_of prev e key))].

Definition or_empty (o : option string) : string := match o with Some h => h | None => "" end.

(** One turn of the inner loop.  [str(row[8])] of a NULL hash is "None". *)
Definition verify_row (ring : list chain_key) (w : walk) (r : row) : walk :=
  let active := match last ring with Some k => generation k | None => 0 end in
  let row_prev := or_empty (prev_hash r) in
  let g := matching_generation ring row_prev (payload_of r) (or_empty (entry_hash r)) (floor w) in
  let kind := match g with
              | None => Some content
              | Some _ => if String.eqb row_prev (expected_prev w) then None else Some link
              end in
  Walk (match entry_hash r with Some h => h | None => "None" end)
    (S (checked w))
    (match kind with
     | Some k => if Nat.ltb (length (w_breaks w)) MAX_REPORTED_BREAKS
                 then w_breaks w ++ [ChainBreak (a_id r) (a_at r) k] else w_breaks w
     | None => w_breaks w
     end)
    (match kind with Some _ => S (w_found w) | None => w_found w end)
    (match oldest w with Some o => Some o | None => Some (a_at r) end)
    (Some (a_at r)) (Some (a_at r, a_id r))
    (match g with Some g => Z.max (floor w) g | None => floor w end)
    (match g with Some g => if g <? active then S (under_retired w) else under_retired w | None => under_retired w end)
    (exhausted w).

(** [WHERE (at, id) > (:after_at, :after_id)]. *)
Definition after (c : option (instant * uuid)) (r : row) : bool :=
  match c with
  | None => true
  | Some (a, i) => (a <? a_at r) || ((a =? a_at r) && (i <? a_id r))
  end.

Definition set_exhausted (w : walk) : walk :=
  Walk (expected_prev w) (checked w) (w_breaks w) (w_found w) (oldest w) (newest_at w) (cursor w)
    (floor w) (under_retired w) true.

Fixpoint verify_loop (fuel : nat) (ring : list chain_key) (limit_ : option nat) (t : log) (w : walk) :
    result walk :=
  match fuel with
  | O => Err OutOfFuel
  | S fuel =>
      let more := match limit_ with None => true | Some n => Nat.ltb (checked w) n end in
      if negb more then Ok w
      else
        let size := match limit_ with
                    | None => VERIFY_BATCH
                    | Some n => Nat.min VERIFY_BATCH (n - checked w)
                    end in
        let rows := limit size (order_by by_at (select (after (cursor w)) t)) in
        let w' := foldl (verify_row ring) w rows in
        if Nat.ltb (length rows) size then Ok (set_exhausted w')
        else verify_loop fuel ring limit_ t w'
  end.

Definition report (w : walk) : chain_verification :=
  Verification (Nat.eqb (w_found w) 0) (option_map b_entry (head (w_breaks w))) (w_breaks w) (w_found w)
    (checked w) (exhausted w) (oldest w) (newest_at w) (under_retired w).

Definition verify_chain (ring : list chain_key) (limit_ : option nat) (t : log) :
    result chain_verification :=
  match verify_loop (S (length t)) ring limit_ t start with
  | Ok w => Ok (report w)
  | Err e => Err e
  end.
End Chain.

(** ** One pass

    What the batches come to: the rows in order, verified one after the other. *)

Section Laws.
Context (hmac_hex : string -> string -> string) (dumps : payload -> string).
Abbreviation verify_row := (verify_row hmac_hex dumps).
Abbreviation verify_loop := (verify_loop hmac_hex dumps).
Abbreviation verify_chain := (verify_chain hmac_hex dumps).

Definition in_order (t : log) : log := order_by by_at t.

(** How many rows a limit allows, and whether the walk then knows it saw the end. *)
Definition allowed (limit_ : option nat) (n : nat) : nat :=
  match limit_ with None => n | Some m => Nat.min m n end.
Definition sees_end (limit_ : option nat) (n : nat) : bool :=
  match limit_ with None => true | Some m => Nat.ltb n m end.

Definition one_pass (ring : list chain_key) (limit_ : option nat) (t : log) : chain_verification :=
  let w := foldl (verify_row ring) start (firstn (allowed limit_ (length t)) (in_order t)) in
  report (if sees_end limit_ (length t) then set_exhausted w else w).

Lemma by_at_total x y : by_at x y = true \/ by_at y x = true.
Proof. apply le_at_id_total. Qed.
Lemma by_at_trans x y z : by_at x y = true -> by_at y z = true -> by_at x z = true.
Proof. apply le_at_id_trans. Qed.

Lemma in_order_sorted t : StronglySorted (fun a b => by_at a b = true) (in_order t).
Proof. apply order_by_sorted; [apply by_at_total|apply by_at_trans]. Qed.

Lemma in_order_length t : length (in_order t) = length t.
Proof. apply Permutation_length, order_by_perm. Qed.

Lemma select_perm {R} (p : R -> bool) l1 l2 : Permutation l1 l2 -> Permutation (select p l1) (select p l2).
Proof.
  unfold select. induction 1; simpl; try done.
  - destruct (p x); [by constructor|done].
  - destruct (p x), (p y); try done. apply Permutation_swap.
  - by etransitivity.
Qed.

Lemma select_all {R} (p : R -> bool) l : (forall x, In x l -> p x = true) -> select p l = l.
Proof.
  unfold select. induction l as [|x l IH]; intros H; [done|]. simpl. rewrite (H x) by by left.
  f_equal. apply IH. intros y Hy. apply H. by right.
Qed.

Lemma select_none {R} (p : R -> bool) l : (forall x, In x l -> p x = false) -> select p l = [].
Proof.
  unfold select. induction l as [|x l IH]; intros H; [done|]. simpl. rewrite (H x) by by left.
  apply IH. intros y Hy. apply H. by right.
Qed.

Definition position (r : row) : instant * uuid := (a_at r, a_id r).

Lemma sorted_app (l1 l2 : log) :
  StronglySorted (fun a b => by_at a b = true) (l1 ++ l2) ->
  StronglySorted (fun a b => by_at a b = true) l2
  /\ forall x y, In x l1 -> In y l2 -> by_at x y = true.
Proof.
  induction l1 as [|a l1 IH]; simpl; intros H; [split; [done|]; intros ? ? []|].
  apply StronglySorted_inv in H as [H Ha]. destruct (IH H) as [Hs Hlt]. split; [done|].
  intros x y [<-|Hx] Hy; [|by apply Hlt]. rewrite List.Forall_forall in Ha. apply Ha, in_or_app. by right.
Qed.

(** The rows after the cursor are those not read yet. *)
Lemma after_rest t l1 l2 :
  pk_ok a_id t -> in_order t = l1 ++ l2 ->
  order_by by_at (select (after (option_map position (last l1))) t) = l2.
Proof.
  intros Hpk E. set (p := after (option_map position (last l1))).
  pose proof (in_order_sorted t) as Hs. rewrite E in Hs.
  assert (Hpk' : NoDup (map a_id (l1 ++ l2))).
  { rewrite <- E. unfold pk_ok in Hpk. rewrite (order_by_perm by_at t). done. }
  assert (Hl : forall c, last l1 = Some c ->
            (forall x, In x l1 -> p x = false) /\ (forall y, In y l2 -> p y = true)).
  { intros c Hc. apply last_Some in Hc as [l' Hc]. unfold p. rewrite Hc, last_snoc. cbn [option_map].
    rewrite Hc, <- app_assoc in Hs, Hpk'. split.
    - intros x Hx. assert (by_at x c = true \/ x = c) as Hx'.
      { apply in_app_or in Hx as [Hx|[<-|[]]]; [left|by right].
        apply sorted_app in Hs as [_ Hs]. apply Hs; [done|by left]. }
      unfold after, position, by_at, le_at_id in *. destruct Hx' as [Hx'| ->]; lia.
    - intros y Hy. apply sorted_app in Hs as [Hs _]. apply (sorted_app [c] l2) in Hs as [_ Hs].
      assert (Hcy : by_at c y = true) by (apply Hs; [by left|done]).
      assert (a_id c <> a_id y).
      { rewrite map_app in Hpk'. apply NoDup_app in Hpk' as (_ & _ & Hpk'). simpl in Hpk'.
        apply NoDup_cons in Hpk' as [Hn _]. intros Eid. apply Hn, list_elem_of_In. rewrite Eid. by apply in_map. }
      unfold after, position, by_at, le_at_id in *. lia. }
  assert (Hsel : Permutation (select p t) l2).
  { rewrite (select_perm p t (in_order t)) by (symmetry; apply order_by_perm). rewrite E.
    unfold select. rewrite List.filter_app. fold (select p l1) (select p l2).
    destruct (last l1) as [c|] eqn:Ec.
    - destruct (Hl c eq_refl) as [H1 H2]. by rewrite (select_none p l1), (select_all p l2).
    - apply last_None in Ec. subst l1. simpl. by rewrite select_all. }
  apply (StronglySorted_unique_strong (fun a b => by_at a b = true)).
  - intros x y Hx Hy Hxy Hyx. apply list_elem_of_In in Hx, Hy. apply order_by_In in Hx.
    apply (pk_unique a_id t); try done.
    + by apply select_In in Hx as [? _].
    + apply (order_by_In by_at). fold (in_order t). rewrite E. apply in_or_app. by right.
    + unfold by_at, le_at_id in *. lia.
  - apply order_by_sorted; [apply by_at_total|apply by_at_trans].
  - by apply sorted_app in Hs as [? _].
  - by rewrite order_by_perm.
Qed.

Lemma verify_row_checked ring w r : checked (verify_row ring w r) = S (checked w).
Proof. done. Qed.

Lemma fold_checked ring rows w : checked (foldl (verify_row ring) w rows) = (checked w + length rows)%nat.
Proof.
  revert w. induction rows as [|r rows IH]; intros w; simpl; [lia|]. rewrite IH, verify_row_checked. lia.
Qed.

Lemma fold_cursor ring rows w :
  cursor (foldl (verify_row ring) w rows)
  = match last rows with Some r => Some (position r) | None => cursor w end.
Proof.
  revert w. induction rows as [|r rows IH]; intros w; [done|]. cbn [foldl]. rewrite IH, last_cons. by destruct (last rows).
Qed.

Lemma loop_one_pass ring limit_ t fuel k :
  pk_ok a_id t -> (k <= allowed limit_ (length t))%nat -> (length t - k < fuel)%nat ->
  let w := foldl (verify_row ring) start (firstn (allowed limit_ (length t)) (in_order t)) in
  verify_loop fuel ring limit_ t (foldl (verify_row ring) start (firstn k (in_order t)))
  = Ok (if sees_end limit_ (length t) then set_exhausted w else w).
Proof.
  intros Hpk. revert k. induction fuel as [|fuel IH]; intros k Hk Hf w; [lia|].
  assert (Hal : (allowed limit_ (length t) <= length t)%nat) by (destruct limit_; simpl; lia).
  assert (Hlen : length (firstn k (in_order t)) = k) by (rewrite length_firstn, in_order_length; lia).
  cbn [Audit.verify_loop]. rewrite fold_checked, Hlen. cbn [start checked Nat.add].
  set (m := match limit_ with None => true | Some n => Nat.ltb k n end).
  destruct m eqn:Em; cbn [negb].
  2:{ destruct limit_ as [n|]; [|discriminate Em]. unfold m in Em. apply Nat.ltb_ge in Em. simpl in Hk, Hal.
      assert (allowed (Some n) (length t) = k) as Ek by (simpl; lia). unfold w. rewrite Ek. simpl.
      by replace (Nat.ltb (length t) n) with false by (symmetry; apply Nat.ltb_ge; lia). }
  set (size := match limit_ with None => VERIFY_BATCH | Some n => Nat.min VERIFY_BATCH (n - k) end).
  assert (Hbatch : (1 <= VERIFY_BATCH)%nat) by (unfold VERIFY_BATCH; lia).
  assert (Hsize : (1 <= size)%nat).
  { unfold size, m in *. destruct limit_; [apply Nat.ltb_lt in Em; lia|done]. }
  assert (Hkr : (k + Nat.min size (length t - k) <= allowed limit_ (length t))%nat).
  { unfold size. destruct limit_; cbn [allowed] in *; lia. }
  assert (Hrest : order_by by_at (select (after (cursor (foldl (verify_row ring) start (firstn k (in_order t))))) t)
                  = skipn k (in_order t)).
  { rewrite fold_cursor. rewrite <- (after_rest t (firstn k (in_order t)) (skipn k (in_order t)) Hpk)
      by (by rewrite firstn_skipn). by destruct (last (firstn k (in_order t))). }
  rewrite Hrest. unfold limit.
  assert (Hfold : foldl (verify_row ring) (foldl (verify_row ring) start (firstn k (in_order t)))
                    (firstn size (skipn k (in_order t)))
                  = foldl (verify_row ring) start (firstn (k + size) (in_order t))).
  { rewrite <- foldl_app. f_equal. rewrite <- (firstn_skipn k (in_order t)) at 3. rewrite firstn_app, Hlen.
    rewrite firstn_firstn. replace (Nat.min (k + size) k) with k by lia.
    by replace (k + size - k)%nat with size by lia. }
  rewrite Hfold, length_firstn, length_skipn, in_order_length.
  destruct (Nat.ltb_spec (Nat.min size (length t - k)) size) as [Hshort|Hfull].
  - assert (Hall : firstn (k + size) (in_order t) = firstn (allowed limit_ (length t)) (in_order t)).
    { rewrite !firstn_all2; [done|rewrite in_order_length; lia|rewrite in_order_length; lia]. }
    rewrite Hall. fold w.
    assert (sees_end limit_ (length t) = true) as ->; [|done].
    unfold size in Hshort. destruct limit_ as [n|]; [|done]. simpl. apply Nat.ltb_lt. lia.
  - apply IH; lia.
Qed.

(** The walk in batches is one pass: with whatever limit, [verify_chain] returns,
    and what it reports is the verdict of the oldest entries of the log, each read once
    and in order, up to the limit; it says it saw the whole log exactly when it did. *)
Theorem verify_chain_one_pass ring limit_ t :
  pk_ok a_id t -> verify_chain ring limit_ t = Ok (one_pass ring limit_ t).
Proof.
  intros Hpk. unfold Audit.verify_chain. change start with (foldl (verify_row ring) start (firstn 0 (in_order t))).
  rewrite loop_one_pass; [done|done|lia|lia].
Qed.

(** ** What a sound chain is *)

(** Each entry names the one before it and was hashed under a key no older than any
    before it. *)
Inductive linked (ring : list chain_key) : string -> Z -> log -> Prop :=
| linked_nil prev fl : linked ring prev fl []
| linked_cons prev fl r g t :
    or_empty (prev_hash r) = prev ->
    matching_generation hmac_hex dumps ring prev (payload_of r) (or_empty (entry_hash r)) fl = Some g ->
    linked ring (match entry_hash r with Some h => h | None => "None" end) (Z.max fl g) t ->
    linked ring prev fl (r :: t).

Lemma found_mono ring rows w : (w_found w <= w_found (foldl (verify_row ring) w rows))%nat.
Proof.
  revert w. induction rows as [|r rows IH]; intros w; simpl; [lia|]. etransitivity; [|apply IH].
  simpl. destruct (matching_generation _ _ _ _ _ _ _); [destruct (String.eqb _ _)|]; lia.
Qed.

Lemma fold_linked ring rows w :
  w_found (foldl (verify_row ring) w rows) = w_found w <-> linked ring (expected_prev w) (floor w) rows.
Proof.
  revert w. induction rows as [|r rows IH]; intros w; simpl; [split; [constructor|done]|].
  pose proof (found_mono ring rows (verify_row ring w r)) as Hm. specialize (IH (verify_row ring w r)).
  remember (verify_row ring w r) as w' eqn:Ew'. unfold Audit.verify_row in Ew'.
  destruct (matching_generation hmac_hex dumps ring (or_empty (prev_hash r)) (payload_of r)
              (or_empty (entry_hash r)) (floor w)) as [g|] eqn:Eg.
  - destruct (String.eqb_spec (or_empty (prev_hash r)) (expected_prev w)) as [E|E].
    + subst w'. cbn [w_found expected_prev floor] in *. rewrite IH. split; intros H.
      * apply (linked_cons ring (expected_prev w) (floor w) r g); [done|by rewrite <- E|done].
      * inversion H as [|? ? ? g' ? H1 H2 H3]; subst. rewrite <- H1 in H2. congruence.
    + subst w'. cbn [w_found] in *. split; [lia|]. intros H. by inversion H.
  - subst w'. cbn [w_found] in *. split; [lia|]. intros H. inversion H as [|? ? ? g' ? H1 H2 H3]; subst.
    rewrite <- H1 in H2. congruence.
Qed.

Lemma verified_linked ring t v :
  pk_ok a_id t -> verify_chain ring None t = Ok v -> (ok v = true <-> linked ring GENESIS 0 (in_order t)).
Proof.
  intros Hpk H. unfold Audit.verify_chain in H.
  change start with (foldl (verify_row ring) start (firstn 0 (in_order t))) in H.
  rewrite loop_one_pass in H; [|done|lia|lia]. injection H as <-. cbn [sees_end allowed].
  rewrite firstn_all2 by (rewrite in_order_length; lia). simpl. rewrite Nat.eqb_eq.
  apply (fold_linked ring (in_order t) start).
Qed.

(** ** Collision freedom *)

(** The keyed hash has no collision, and its output is neither empty nor [GENESIS]. *)
Definition collision_free : Prop :=
  forall p p' e e' k k',
    entry_hash_of hmac_hex dumps p e k = entry_hash_of hmac_hex dumps p' e' k' -> p = p' /\ e = e' /\ k = k'.
Definition proper_digest : Prop :=
  forall p e k, entry_hash_of hmac_hex dumps p e k <> "" /\ entry_hash_of hmac_hex dumps p e k <> GENESIS.

Context (Hcf : collision_free) (Hpd : proper_digest).

Lemma match_in_some keys prev e recorded fl g :
  match_in hmac_hex dumps keys prev e recorded fl = Some g ->
  fl <= g /\ exists k shape, In k keys /\ generation k = g /\ (shape = e \/ shape = without_ip e)
    /\ recorded = entry_hash_of hmac_hex dumps prev shape (material k).
Proof.
  induction keys as [|k keys IH]; simpl; [done|]. destruct (generation k <? fl) eqn:Ef; [done|].
  destruct (String.eqb_spec (entry_hash_of hmac_hex dumps prev e (material k)) recorded) as [E|_].
  { simpl. intros [= <-]. split; [lia|]. exists k, e. split; [by left|]. split; [done|]. split; [by left|done]. }
  destruct (String.eqb_spec (entry_hash_of hmac_hex dumps prev (without_ip e) (material k)) recorded) as [E|_].
  { simpl. intros [= <-]. split; [lia|]. exists k, (without_ip e). split; [by left|]. split; [done|]. split; [by right|done]. }
  simpl. intros H. destruct (IH H) as (H0 & k' & sh & Hk & Hr). split; [done|]. exists k', sh. split; [by right|done].
Qed.

Lemma without_ip_idem p : without_ip (without_ip p) = without_ip p.
Proof. done. Qed.

(** An entry's hash is not null when it checks, and fixes its content and the hash
    before it. *)
Lemma matched_recorded ring prev r fl g :
  matching_generation hmac_hex dumps ring prev (payload_of r) (or_empty (entry_hash r)) fl = Some g ->
  exists k shape, entry_hash r = Some (entry_hash_of hmac_hex dumps prev shape k)
    /\ (shape = payload_of r \/ shape = without_ip (payload_of r)).
Proof.
  intros H. apply match_in_some in H as (_ & k & sh & _ & _ & Hsh & E). exists (material k), sh. split.
  - destruct (entry_hash r) as [h|]; simpl in E; [by rewrite E|]. destruct (Hpd prev sh (material k)) as [Hne _].
    by rewrite <- E in Hne.
  - done.
Qed.

(** An entry hashed with its address, as all are but those written before it joined the hash. *)
Definition sealed (r : row) : Prop :=
  exists k, entry_hash r = Some (entry_hash_of hmac_hex dumps (or_empty (prev_hash r)) (payload_of r) k).

(** Two entries alike but for the time, and, where neither is sealed, the address. *)
Record same_entry (a b : row) : Prop := SameEntry {
  same_id : a_id a = a_id b;
  same_actor : actor_type a = actor_type b /\ actor_id a = actor_id b /\ via_grant_id a = via_grant_id b;
  same_tenant : a_tenant a = a_tenant b;
  same_action : action a = action b /\ object_type a = object_type b /\ object_id a = object_id b;
  same_links : or_empty (prev_hash a) = or_empty (prev_hash b) /\ entry_hash a = entry_hash b;
  same_ip : sealed a \/ sealed b -> ip a = ip b }.

Lemma same_payload a b :
  without_ip (payload_of a) = without_ip (payload_of b) ->
  or_empty (prev_hash a) = or_empty (prev_hash b) -> entry_hash a = entry_hash b ->
  (sealed a \/ sealed b -> payload_of a = payload_of b) -> same_entry a b.
Proof.
  intros E Ep Eh Es. injection E. constructor; [done|done|done|done|done|].
  intros Hs. specialize (Es Hs). by injection Es.
Qed.

(** One hash fixes an entry, and the address with it when either was sealed. *)
Lemma same_hash a b ka kb sha shb :
  entry_hash a = Some (entry_hash_of hmac_hex dumps (or_empty (prev_hash a)) sha ka) ->
  sha = payload_of a \/ sha = without_ip (payload_of a) ->
  entry_hash b = Some (entry_hash_of hmac_hex dumps (or_empty (prev_hash b)) shb kb) ->
  shb = payload_of b \/ shb = without_ip (payload_of b) ->
  entry_hash a = entry_hash b -> same_entry a b.
Proof.
  intros Ha Sa Hb Sb E. assert (Eab : or_empty (prev_hash a) = or_empty (prev_hash b) /\ sha = shb).
  { rewrite Ha, Hb in E. injection E as E. by apply Hcf in E as (? & ? & _). }
  destruct Eab as [Ep ->]. apply same_payload; [|done|done|].
  - assert (without_ip shb = without_ip (payload_of a)) as <- by by destruct Sa as [-> | ->].
    by destruct Sb as [-> | ->].
  - intros Hs. assert (shb = payload_of a \/ shb = payload_of b) as Hsh.
    { destruct Hs as [[k Hk]|[k Hk]]; [left; rewrite Ha in Hk|right; rewrite Hb in Hk]; injection Hk as Hk;
        by apply Hcf in Hk as (_ & ? & _). }
    assert (Hip : forall q, payload_of q <> without_ip (payload_of a) /\ payload_of q <> without_ip (payload_of b)) by done.
    destruct Sa as [Sa|Sa], Sb as [Sb|Sb]; destruct Hsh as [Hsh|Hsh]; try congruence; exfalso.
    all: first [apply (proj1 (Hip a)); congruence | apply (proj2 (Hip b)); congruence
               | apply (proj2 (Hip a)); congruence | apply (proj1 (Hip b)); congruence].
Qed.

Definition end_hash (prev : string) (t : log) : string :=
  match last t with Some r => match entry_hash r with Some h => h | None => "None" end | None => prev end.

Lemma linked_snoc ring prev fl t r :
  linked ring prev fl (t ++ [r]) ->
  linked ring prev fl t /\ or_empty (prev_hash r) = end_hash prev t
  /\ exists fl' g, matching_generation hmac_hex dumps ring (end_hash prev t) (payload_of r)
                     (or_empty (entry_hash r)) fl' = Some g.
Proof.
  revert prev fl. induction t as [|x t IH]; intros prev fl H; simpl in H; inversion H as [|? ? ? g ? H1 H2 H3]; subst.
  - split; [constructor|]. split; [done|]. by exists fl, g.
  - destruct (IH _ _ H3) as (Hl & Hp & Hm).
    assert (E : end_hash (or_empty (prev_hash x)) (x :: t)
                = end_hash (match entry_hash x with Some h => h | None => "None" end) t).
    { unfold end_hash. rewrite last_cons. by destruct (last t). }
    rewrite E. split; [|done]. by econstructor.
Qed.

Lemma end_hash_snoc prev t r k sh :
  entry_hash r = Some (entry_hash_of hmac_hex dumps (or_empty (prev_hash r)) sh k) ->
  end_hash prev (t ++ [r]) = entry_hash_of hmac_hex dumps (or_empty (prev_hash r)) sh k.
Proof. intros E. unfold end_hash. by rewrite last_snoc, E. Qed.

(** The last hash of a chain fixes the whole chain. *)
Lemma linked_determined ring1 ring2 t1 t2 :
  linked ring1 GENESIS 0 t1 -> linked ring2 GENESIS 0 t2 -> end_hash GENESIS t1 = end_hash GENESIS t2 ->
  Forall2 same_entry t1 t2.
Proof.
  revert t2. induction t1 as [|r1 t1 IH] using rev_ind; intros t2 H1 H2 E.
  - destruct t2 as [|r2 t2 _] using rev_ind; [constructor|]. exfalso.
    apply linked_snoc in H2 as (_ & Hp & fl & g & Hm). rewrite <- Hp in Hm.
    apply matched_recorded in Hm as (k & sh & Hh & _). rewrite (end_hash_snoc _ _ _ _ _ Hh) in E.
    by apply (proj2 (Hpd (or_empty (prev_hash r2)) sh k)).
  - apply linked_snoc in H1 as (Hl1 & Hp1 & fl1 & g1 & Hm1). rewrite <- Hp1 in Hm1.
    apply matched_recorded in Hm1 as (k1 & sh1 & Hh1 & Hs1). rewrite (end_hash_snoc _ _ _ _ _ Hh1) in E.
    destruct t2 as [|r2 t2 _] using rev_ind.
    { exfalso. by apply (proj2 (Hpd (or_empty (prev_hash r1)) sh1 k1)). }
    apply linked_snoc in H2 as (Hl2 & Hp2 & fl2 & g2 & Hm2). rewrite <- Hp2 in Hm2.
    apply matched_recorded in Hm2 as (k2 & sh2 & Hh2 & Hs2). rewrite (end_hash_snoc _ _ _ _ _ Hh2) in E.
    destruct (Hcf _ _ _ _ _ _ E) as (Ep & _ & _). apply Forall2_app.
    + apply IH; [done|done|congruence].
    + constructor; [|constructor]. apply (same_hash r1 r2 k1 k2 sh1 sh2); try done. by rewrite Hh1, Hh2, E.
Qed.

(** ** The head *)

Lemma newest_last t :
  pk_ok a_id t ->
  match order_by (fun x y => by_at y x) t with
  | r :: _ => last (in_order t) = Some r
  | [] => t = []
  end.
Proof.
  intros Hpk. pose proof (order_by_sorted (fun x y => by_at y x) (fun x y => by_at_total y x)
    (fun x y z H1 H2 => by_at_trans z y x H2 H1) t) as Hs.
  pose proof (order_by_In (fun x y => by_at y x) t) as Hin.
  destruct (order_by (fun x y => by_at y x) t) as [|r rest] eqn:E.
  { apply (f_equal length) in E. rewrite (Permutation_length (order_by_perm _ t)) in E. by destruct t. }
  destruct (last (in_order t)) as [c|] eqn:Ec.
  2:{ apply last_None in Ec. apply (f_equal length) in Ec. rewrite in_order_length in Ec. destruct t; [discriminate E|done]. }
  f_equal. apply last_Some in Ec as [l' Ec]. pose proof (in_order_sorted t) as Hs'. rewrite Ec in Hs'.
  assert (Hc : In c t) by (apply (order_by_In by_at); fold (in_order t); rewrite Ec; apply in_or_app; right; by left).
  assert (Hr : In r t) by (apply Hin; by left).
  apply (pk_unique a_id t); [done|done|done|].
  assert (by_at c r = true \/ c = r) as [Hcr| ->]; [| |done].
  { apply StronglySorted_inv in Hs as [_ Hs]. apply Hin in Hc as [->|Hc]; [by right|left].
    rewrite List.Forall_forall in Hs. by apply Hs. }
  assert (by_at r c = true \/ r = c) as [Hrc| ->]; [| |done].
  { apply (order_by_In by_at) in Hr. fold (in_order t) in Hr. rewrite Ec in Hr.
    apply in_app_or in Hr as [Hr|[<-|[]]]; [left|by right]. apply sorted_app in Hs' as [_ Hs']. apply Hs'; [done|by left]. }
  unfold by_at, le_at_id in *. lia.
Qed.

Lemma head_of_linked ring t :
  pk_ok a_id t -> linked ring GENESIS 0 (in_order t) -> current_head t = end_hash GENESIS (in_order t).
Proof.
  intros Hpk Hl. pose proof (newest_last t Hpk) as Hn. unfold current_head.
  destruct (order_by (fun x y => by_at y x) t) as [|r rest].
  { subst t. done. }
  unfold end_hash. rewrite Hn. apply last_Some in Hn as [l' Hn]. rewrite Hn in Hl.
  apply linked_snoc in Hl as (_ & _ & fl & g & Hm). apply matched_recorded in Hm as (k & sh & Hh & _).
  rewrite Hh. destruct (Hpd (end_hash GENESIS l') sh k) as [Hne _].
  destruct (String.eqb_spec (entry_hash_of hmac_hex dumps (end_hash GENESIS l') sh k) ""); done.
Qed.

(** C37. The head commits to the whole log: two logs that both verify from end to end
    and end in the same hash hold the same entries in the same order, with the same
    hashes, alike in everything hashed: all of an entry but the instant it was written
    (only its place in the order is fixed), and but the address for an entry written
    before it joined the hash.  Every entry [write_audit] writes is hashed with its
    address.  So no entry can be altered, removed, inserted or moved without the head
    changing or the verification failing. *)
Theorem head_commits_to_log ring1 ring2 t1 t2 v1 v2 :
  pk_ok a_id t1 -> pk_ok a_id t2 ->
  verify_chain ring1 None t1 = Ok v1 -> ok v1 = true ->
  verify_chain ring2 None t2 = Ok v2 -> ok v2 = true ->
  current_head t1 = current_head t2 ->
  Forall2 same_entry (in_order t1) (in_order t2)
  /\ forall key i at_ act who kind ten ot oi ip_ t, exists r,
       write_audit hmac_hex dumps key i at_ act who kind ten ot oi ip_ t = t ++ [r]
       /\ sealed r /\ a_id r = i /\ a_at r = at_ /\ ip r = ip_ /\ action r = act
       /\ prev_hash r = Some (current_head t).
Proof.
  intros Hp1 Hp2 H1 O1 H2 O2 E.
  apply (verified_linked ring1 t1 v1 Hp1 H1) in O1. apply (verified_linked ring2 t2 v2 Hp2 H2) in O2.
  split.
  - apply (linked_determined ring1 ring2); [done|done|].
    by rewrite <- (head_of_linked ring1), <- (head_of_linked ring2).
  - intros key i at_ act who kind ten ot oi ip_ t. eexists. split; [reflexivity|]. split; [by exists key|done].
Qed.

(** ** What [write_audit] writes verifies *)

(** The generations rise along the ring and its keys differ. *)
Definition ring_ok (ring : list chain_key) : Prop :=
  StronglySorted (fun a b => generation a < generation b) ring /\ NoDup (map material ring)
  /\ Forall (fun k => 0 <= generation k) ring.

Lemma key_ring_ok legacy active retired :
  (forall r, retired = Some r -> r <> legacy /\ r <> active) -> ring_ok (key_ring legacy active retired).
Proof.
  intros Hr. unfold key_ring, ring_ok. destruct (String.eqb_spec active legacy) as [->|Hne].
  { split; [repeat constructor|]. split; [apply NoDup_singleton|repeat constructor; simpl; lia]. }
  destruct retired as [r|]; [destruct (String.eqb r "") eqn:E0|]; simpl.
  2:{ destruct (Hr r eq_refl) as [H1 H2]. split; [repeat constructor; simpl; lia|].
      split; [|repeat constructor; simpl; lia].
      repeat (apply NoDup_cons; split; [rewrite ?elem_of_cons, ?elem_of_nil; intuition congruence|]). constructor. }
  all: split; [repeat constructor; simpl; lia|]; split; [|repeat constructor; simpl; lia];
      repeat (apply NoDup_cons; split; [rewrite ?elem_of_cons, ?elem_of_nil; intuition congruence|]); constructor.
Qed.

(** The logs the program writes under the keys of a ring, each no older than the last. *)
Inductive written (ring : list chain_key) : Z -> log -> Prop :=
| written_nil : written ring 0 []
| written_entry g k t entry_id at_ action_ actor actor_type_ tenant ot oi ip_ :
    written ring g t -> In k ring -> g <= generation k ->
    Forall (fun r => a_at r <= at_ /\ a_id r < entry_id) t ->
    written ring (generation k)
      (write_audit hmac_hex dumps (material k) entry_id at_ action_ actor actor_type_ tenant ot oi ip_ t).

Lemma match_in_own keys k prev e fl :
  StronglySorted (fun a b => generation b < generation a) keys -> NoDup (map material keys) ->
  In k keys -> fl <= generation k ->
  match_in hmac_hex dumps keys prev e (entry_hash_of hmac_hex dumps prev e (material k)) fl = Some (generation k).
Proof.
  intros Hs Hn Hk Hf. induction keys as [|x keys IH]; [destruct Hk|]. simpl.
  apply StronglySorted_inv in Hs as [Hs Hx]. simpl in Hn. apply NoDup_cons in Hn as [Hxn Hn].
  destruct Hk as [->|Hk].
  - replace (generation k <? fl) with false by lia. by rewrite String.eqb_refl.
  - rewrite List.Forall_forall in Hx. pose proof (Hx k Hk) as Hlt. replace (generation x <? fl) with false by lia.
    assert (Hne : material x <> material k).
    { intros Em. apply Hxn, list_elem_of_In. rewrite Em. by apply in_map. }
    destruct (String.eqb_spec (entry_hash_of hmac_hex dumps prev e (material x))
                (entry_hash_of hmac_hex dumps prev e (material k))) as [E|_].
    { exfalso. apply Hne. by apply Hcf in E as (_ & _ & ?). }
    destruct (String.eqb_spec (entry_hash_of hmac_hex dumps prev (without_ip e) (material x))
                (entry_hash_of hmac_hex dumps prev e (material k))) as [E|_].
    { exfalso. apply Hne. by apply Hcf in E as (_ & _ & ?). }
    simpl. by apply IH.
Qed.

Lemma rev_ring_sorted ring :
  StronglySorted (fun a b => generation a < generation b) ring ->
  StronglySorted (fun a b => generation b < generation a) (rev ring).
Proof.
  induction 1 as [|k ring Hs IH Hk]; simpl; [constructor|]. revert IH.
  assert (Hr : Forall (fun x => generation k < generation x) (rev ring)) by by rewrite <- Permutation_rev.
  revert Hr. generalize (rev ring). intros l Hl. induction l as [|x l IHl]; simpl; intros H; [repeat constructor|].
  apply Forall_cons in Hl as [Hx Hl]. apply StronglySorted_inv in H as [H Hxl]. constructor; [by apply IHl|].
  apply Forall_app_2; [done|by constructor].
Qed.

Lemma in_order_increasing t r :
  pk_ok a_id (t ++ [r]) -> in_order t = t -> Forall (fun x => a_at x <= a_at r /\ a_id x < a_id r) t ->
  in_order (t ++ [r]) = t ++ [r].
Proof.
  intros Hpk Ht Hr. apply (StronglySorted_unique_strong (fun a b => by_at a b = true)).
  - intros x y Hx Hy Hxy Hyx. apply list_elem_of_In in Hx, Hy. apply order_by_In in Hx.
    apply (pk_unique a_id (t ++ [r])); try done. unfold by_at, le_at_id in *. lia.
  - apply in_order_sorted.
  - rewrite <- Ht. pose proof (in_order_sorted t) as Hs. rewrite Ht in *.
    induction Hs as [|x l Hs IH Hx]; simpl; [repeat constructor|].
    apply Forall_cons in Hr as [Hxr Hr].
    assert (Hl : in_order l = l -> True) by done. constructor.
    + clear IH. clear Hl Hpk Ht. induction Hs as [|y l Hs IH Hy]; simpl; [repeat constructor|].
      apply Forall_cons in Hr as [Hyr Hr]. apply Forall_cons in Hx as [_ Hx]. constructor; [by apply IH|].
      apply Forall_app_2; [done|]. constructor; [|constructor]. unfold by_at, le_at_id. lia.
    + apply Forall_app_2; [done|]. constructor; [|constructor]. unfold by_at, le_at_id. lia.
  - apply order_by_perm.
Qed.

(** The walk over a written log finds nothing and ends at its head. *)
Lemma written_fold ring g t :
  ring_ok ring -> written ring g t ->
  let w := foldl (verify_row ring) start t in
  w_found w = 0%nat /\ expected_prev w = current_head t /\ 0 <= floor w <= g /\ in_order t = t /\ pk_ok a_id t.
Proof.
  intros (Hs & Hn & Hg). induction 1 as [|g k t eid at_ act actor aty ten ot oi ip_ H IH Hk Hle Hf].
  { split; [done|]. split; [done|]. split; [simpl; lia|]. split; [done|apply NoDup_nil_2]. }
  destruct IH as (Hw & He & Hfl & Ho & Hpk).
  unfold write_audit. set (e := Payload _ _ _ _ _ _ _ _ _). set (r := Row _ _ _ _ _ _ _ _ _ _ _ _).
  assert (Hpk' : pk_ok a_id (t ++ [r])).
  { apply insert_pk_ok; [|done]. intros Hin. apply in_map_iff in Hin as (x & Ex & Hx).
    rewrite List.Forall_forall in Hf. specialize (Hf x Hx). simpl in Ex. lia. }
  assert (Ho' : in_order (t ++ [r]) = t ++ [r]) by by apply in_order_increasing.
  cbv zeta. rewrite foldl_app. cbn [foldl]. set (w0 := foldl (verify_row ring) start t) in *.
  assert (Hmatch : matching_generation hmac_hex dumps ring (or_empty (prev_hash r)) (payload_of r)
                     (or_empty (entry_hash r)) (floor w0) = Some (generation k)).
  { simpl. apply match_in_own; [by apply rev_ring_sorted|by rewrite map_rev, <- Permutation_rev| |lia].
    by apply in_rev in Hk. }
  unfold Audit.verify_row. rewrite Hmatch. cbn [w_found expected_prev floor].
  replace (String.eqb (or_empty (prev_hash r)) (expected_prev w0)) with true
    by (symmetry; apply String.eqb_eq; simpl; congruence).
  split; [done|]. split; [|split; [lia|done]].
  pose proof (newest_last (t ++ [r]) Hpk') as Hnew. unfold current_head.
  destruct (order_by (fun x y => by_at y x) (t ++ [r])) as [|x rest]; [by destruct t|].
  rewrite Ho', last_snoc in Hnew. injection Hnew as <-. cbn [entry_hash r].
  destruct (Hpd (current_head t) e (material k)) as [Hne _].
  destruct (String.eqb_spec (entry_hash_of hmac_hex dumps (current_head t) e (material k)) ""); done.
Qed.

(** What the program writes verifies: a log written entry by entry with
    [write_audit], across any rotations of the key from legacy to retired to active,
    is reported sound, read to its end, every entry checked. *)
Theorem written_log_verifies legacy active retired g t :
  (forall r, retired = Some r -> r <> legacy /\ r <> active) ->
  written (key_ring legacy active retired) g t ->
  exists v, verify_chain (key_ring legacy active retired) None t = Ok v
    /\ ok v = true /\ complete v = true /\ entries_checked v = length t /\ breaks v = [].
Proof.
  intros Hr Hw. destruct (written_fold _ g t (key_ring_ok legacy active retired Hr) Hw) as (Hf & _ & _ & Ho & Hpk).
  set (ring := key_ring legacy active retired) in *.
  unfold Audit.verify_chain. change start with (foldl (verify_row ring) start (firstn 0 (in_order t))).
  rewrite loop_one_pass; [|done|lia|lia]. eexists. split; [reflexivity|]. cbn [sees_end allowed].
  rewrite Ho, firstn_all. simpl. rewrite Hf. split; [done|]. split; [done|].
  split; [by rewrite fold_checked|].
  assert (Hb : forall rows w, (length (w_breaks (foldl (verify_row ring) w rows)) <= length (w_breaks w)
            + (w_found (foldl (verify_row ring) w rows) - w_found w))%nat).
  { induction rows as [|x rows IH]; intros w; simpl; [lia|]. specialize (IH (verify_row ring w x)).
    pose proof (found_mono ring rows (verify_row ring w x)) as Hm.
    assert (length (w_breaks (verify_row ring w x)) + w_found w <= length (w_breaks w) + w_found (verify_row ring w x)
            /\ w_found w <= w_found (verify_row ring w x))%nat as [Hb1 Hb2]; [|lia].
    simpl. destruct (matching_generation _ _ _ _ _ _ _); [destruct (String.eqb _ _)|];
      try destruct (Nat.ltb _ _); rewrite ?length_app; simpl; lia. }
  specialize (Hb t start). rewrite Hf in Hb. simpl in Hb.
  destruct (w_breaks (foldl (verify_row ring) start t)); [done|simpl in Hb; lia].
Qed.
End Laws.
(** ** Concrete instances

    A keyed text and a rendering in which nothing is lost, standing for HMAC and for
    [json.dumps], to run the chain on. *)
Module Example.

Fixpoint pos_text (p : positive) : string :=
  match p with
  | xH => "."
  | xO p => String "0"%char (pos_text p)
  | xI p => String "1"%char (pos_text p)
  end.

Definition fields (e : payload) : list positive :=
  [encode (p_id e); encode (p_actor_type e); encode (p_actor_id e); encode (p_tenant e); encode (p_action e);
   encode (p_object_type e); encode (p_object_id e); encode (p_ip e); encode (p_via e)].

Lemma fields_inj e e' : fields e = fields e' -> e = e'.
Proof.
  destruct e, e'. unfold fields. simpl. intros E. injection E as H1 H2 H3 H4 H5 H6 H7 H8 H9.
  apply (inj encode) in H1, H2, H3, H4, H5, H6, H7, H8, H9. congruence.
Qed.

Definition dumps (e : payload) : string := String ":"%char (pos_text (encode (fields e))).

Fixpoint keyed (key message : string) : string :=
  match key with
  | "" => String "/"%char message
  | String c key => String "|"%char (String c (keyed key message))
  end.

Fixpoint no_colon (s : string) : bool :=
  match s with "" => true | String c s => negb (Ascii.eqb c ":"%char) && no_colon s end.

Lemma pos_text_inj p q : pos_text p = pos_text q -> p = q.
Proof.
  revert q. induction p as [p IH|p IH|]; intros [q|q|] E; simpl in E; try discriminate E; try done;
    injection E as E; by rewrite (IH q).
Qed.

Lemma pos_text_no_colon p : no_colon (pos_text p) = true.
Proof. by induction p. Qed.

Lemma keyed_inj k k' m m' : keyed k m = keyed k' m' -> k = k' /\ m = m'.
Proof.
  revert k'. induction k as [|c k IH]; intros [|c' k'] E; simpl in E; try discriminate E.
  - by injection E as ->.
  - injection E as -> E. by destruct (IH k' E) as [-> ->].
Qed.

Lemma colon_in p d : no_colon (p +:+ String ":"%char d) = false.
Proof. induction p as [|c p IH]; simpl; [done|]. rewrite IH. by destruct (negb _). Qed.

Lemma last_colon p p' d d' :
  no_colon d = true -> no_colon d' = true -> p +:+ String ":"%char d = p' +:+ String ":"%char d' -> p = p' /\ d = d'.
Proof.
  intros Hd Hd'. revert p'. induction p as [|c p IH]; intros [|c' p'] E; simpl in E; injection E as E.
  - done.
  - subst. exfalso. by rewrite colon_in in Hd.
  - subst. exfalso. by rewrite colon_in in Hd'.
  - subst. by destruct (IH p' H) as [-> ->].
Qed.

Lemma example_collision_free : collision_free keyed dumps.
Proof.
  intros p p' e e' k k' E. apply keyed_inj in E as [-> E].
  apply last_colon in E as [-> E]; [|apply pos_text_no_colon|apply pos_text_no_colon].
  apply pos_text_inj, (inj encode), fields_inj in E. done.
Qed.

Lemma example_proper_digest : proper_digest keyed dumps.
Proof. intros p e k. unfold entry_hash_of. destruct k; simpl; split; discriminate. Qed.

Definition ring : list chain_key := key_ring "old" "new" (Some "middle").

Definition admin : principal := Principal true (Some 5) None.

Definition first_log : log :=
  write_audit keyed dumps "old" 1 100 "tenant.create" (Some admin) None (Some 9) (Some "tenant") (Some "9")
    (Some "10.0.0.1") [].
Definition second_log : log :=
  write_audit keyed dumps "new" 2 200 "number.purchase" None (Some "engine") (Some 9) None None None first_log.

Lemma example_written : written keyed dumps ring 2 second_log.
Proof.
  apply (written_entry keyed dumps ring 0 (ChainKey 2 "new") first_log); [|by right; right; left|simpl; lia|].
  - apply (written_entry keyed dumps ring 0 (ChainKey 0 "old") []); [constructor|by left|simpl; lia|constructor].
  - repeat constructor; simpl; lia.
Qed.

Lemma example_pk : pk_ok a_id second_log.
Proof. decided. Qed.

Lemma verify_chain_one_pass_witness :
  verify_chain keyed dumps ring (Some 1%nat) second_log = Ok (one_pass keyed dumps ring (Some 1%nat) second_log).
Proof. exact (verify_chain_one_pass keyed dumps ring (Some 1%nat) second_log example_pk). Defined.

Lemma written_log_verifies_witness :
  exists v, verify_chain keyed dumps ring None second_log = Ok v
    /\ ok v = true /\ complete v = true /\ entries_checked v = length second_log /\ breaks v = [].
Proof.
  refine (written_log_verifies keyed dumps example_collision_free example_proper_digest
            "old" "new" (Some "middle") 2 second_log _ example_written).
  intros r [= <-]. split; discriminate.
Defined.

(** The same entries, each written a moment later: the hash does not cover the time. *)
Definition retimed : log := map (fun r =>
  Row (a_id r) (actor_type r) (actor_id r) (a_tenant r) (action r) (object_type r) (object_id r)
    (ip r) (via_grant_id r) (a_at r + 1) (prev_hash r) (entry_hash r)) second_log.

Lemma head_commits_to_log_witness : Forall2 (same_entry keyed dumps) (in_order second_log) (in_order retimed).
Proof.
  assert (exists v, verify_chain keyed dumps ring None second_log = Ok v /\ ok v = true) as (v & Hv & Ov)
    by (eexists; vm_compute; split; reflexivity).
  assert (exists v, verify_chain keyed dumps ring None retimed = Ok v /\ ok v = true) as (v' & Hv' & Ov')
    by (eexists; vm_compute; split; reflexivity).
  refine (proj1 (head_commits_to_log keyed dumps example_collision_free example_proper_digest
            ring ring second_log retimed v v' example_pk _ Hv Ov Hv' Ov' _)).
  - decided.
  - vm_compute. reflexivity.
Defined.

(** An altered entry is found where it is. *)
Definition altered : log := map (fun r =>
  if a_id r =? 1 then
    Row (a_id r) (actor_type r) (actor_id r) (a_tenant r) "tenant.delete" (object_type r) (object_id r)
      (ip r) (via_grant_id r) (a_at r) (prev_hash r) (entry_hash r)
  else r) second_log.

Example altered_is_reported :
  verify_chain keyed dumps ring None altered
  = Ok (Verification false (Some 1) [ChainBreak 1 100 content] 1 2 true (Some 100) (Some 200) 0).
Proof. vm_compute. reflexivity. Qed.
End Example.
End Audit.
