(* ===== verification/Outbox.v ===== *)
(** * The transactional outbox

    apps/api/reliability/service.py (the [outbox_messages] half),
    apps/workers/dispatcher.py [dispatch_outbox] and
    apps/workers/outbox_consumer.py.  A message is a row written in the
    transaction of the work it announces; the dispatcher claims a batch under a
    lease, hands each message to the queue, and marks it; the consumer records
    the run that succeeded.  The queue (arq on Redis), the redaction of stored
    errors and PostgreSQL's [to_char] are parameters. *)

From Stdlib Require Import ZArith Lia List QArith Lqa Sorted.
From stdpp Require Import base list strings.
From S2P Require Import Prelude PyDecimal Sql.

Local Open Scope string_scope.
Local Open Scope list_scope.
Local Open Scope Z_scope.

Definition seconds (n : Z) : Z := n * 1000000.
Definition minutes (n : Z) : Z := seconds (60 * n).
Definition hours (n : Z) : Z := minutes (60 * n).

Module Outbox.

(** ** Constants *)
Definition OUTBOX_MAX_ATTEMPTS : Z := 5.
Definition OUTBOX_BATCH : nat := 50.
Definition OUTBOX_CLAIM_LEASE : Z := minutes 2.
Definition OUTBOX_UNKNOWN_JOB_GRACE : Z := minutes 30.
Definition SCRUB_AT_PUBLISH_JOBS : list string :=
  ["deliver_auth_email"; "send_team_contact_code"].
Definition OUTBOX_CONSUME_DEADLINE : Z := hours 2.
Definition OUTBOX_REVISION_HOLD_ALARM : Z := minutes 30.
Definition OUTBOX_RETRY_BACKOFF_S : Z := 30.
Definition OUTBOX_RETRY_BACKOFF_CAP_S : Z := 300.

(** ** The table *)
Inductive status := pending | published | failed.
#[export] Instance status_eq_dec : EqDecision status.
Proof. solve_decision. Defined.

Definition status_is (s t : status) : bool := bool_decide (s = t).

Record row := Row {
  id : uuid;
  job : string;
  payload : list (string * jval);
  dedupe_key : option string;
  row_status : status;
  attempt_count : Z;
  locked_until : option instant;
  job_id : option string;
  published_at : option instant;
  consumed_at : option instant;
  consume_by : option instant;
  min_revision : option string;
  last_error : option string;
  created_at : instant;
  updated_at : instant
}.

(** What one UPDATE assigns; the columns it does not name keep their value. *)
Definition set_status s (r : row) : row :=
  Row (id r) (job r) (payload r) (dedupe_key r) s (attempt_count r) (locked_until r) (job_id r)
      (published_at r) (consumed_at r) (consume_by r) (min_revision r) (last_error r)
      (created_at r) (updated_at r).
Definition set_payload p (r : row) : row :=
  Row (id r) (job r) p (dedupe_key r) (row_status r) (attempt_count r) (locked_until r) (job_id r)
      (published_at r) (consumed_at r) (consume_by r) (min_revision r) (last_error r)
      (created_at r) (updated_at r).
Definition set_attempts n (r : row) : row :=
  Row (id r) (job r) (payload r) (dedupe_key r) (row_status r) n (locked_until r) (job_id r)
      (published_at r) (consumed_at r) (consume_by r) (min_revision r) (last_error r)
      (created_at r) (updated_at r).
Definition set_locked l (r : row) : row :=
  Row (id r) (job r) (payload r) (dedupe_key r) (row_status r) (attempt_count r) l (job_id r)
      (published_at r) (consumed_at r) (consume_by r) (min_revision r) (last_error r)
      (created_at r) (updated_at r).
Definition set_published j at_ (r : row) : row :=
  Row (id r) (job r) (payload r) (dedupe_key r) (row_status r) (attempt_count r) (locked_until r)
      (Some j) (Some at_) (consumed_at r) (consume_by r) (min_revision r) (last_error r)
      (created_at r) (updated_at r).
Definition set_consumed c (r : row) : row :=
  Row (id r) (job r) (payload r) (dedupe_key r) (row_status r) (attempt_count r) (locked_until r)
      (job_id r) (published_at r) (Some c) (consume_by r) (min_revision r) (last_error r)
      (created_at r) (updated_at r).
Definition set_consume_by c (r : row) : row :=
  Row (id r) (job r) (payload r) (dedupe_key r) (row_status r) (attempt_count r) (locked_until r)
      (job_id r) (published_at r) (consumed_at r) c (min_revision r) (last_error r)
      (created_at r) (updated_at r).
Definition set_error e (r : row) : row :=
  Row (id r) (job r) (payload r) (dedupe_key r) (row_status r) (attempt_count r) (locked_until r)
      (job_id r) (published_at r) (consumed_at r) (consume_by r) (min_revision r) e
      (created_at r) (updated_at r).
Definition touch now (r : row) : row :=
  Row (id r) (job r) (payload r) (dedupe_key r) (row_status r) (attempt_count r) (locked_until r)
      (job_id r) (published_at r) (consumed_at r) (consume_by r) (min_revision r) (last_error r)
      (created_at r) now.

Abbreviation table := (list row) (only parsing).

Definition job_in (js : list string) (r : row) : bool := bool_decide (job r ∈ js).
Definition lease_free (now : instant) (r : row) : bool :=
  match locked_until r with None => true | Some l => l <=? now end.
Definition is_pending (r : row) : bool := status_is (row_status r) pending.
Definition by_age : row -> row -> bool := le_at_id created_at id.

(** ** Enqueue *)

Definition new_row (mid : uuid) (job_ : string) (payload_ : list (string * jval))
    (key : option string) (now : instant) : row :=
  Row mid job_ payload_ key pending 0 None None None None None None None now now.

Definition enqueue_outbox (now : instant) (mid : uuid) (job_ : string)
    (payload_ : list (string * jval)) (t : table) : table :=
  t ++ [new_row mid job_ payload_ None now].

(** [ON CONFLICT (dedupe_key) DO NOTHING RETURNING id]. *)
Definition enqueue_outbox_once (now : instant) (mid : uuid) (job_ : string)
    (payload_ : list (string * jval)) (key : string) (t : table) : option uuid * table :=
  if existsb (fun r => bool_decide (dedupe_key r = Some key)) t then (None, t)
  else (Some mid, t ++ [new_row mid job_ payload_ (Some key) now]).

Section Ops.
(** The redaction of a stored error, PostgreSQL's rendering of an instant, and
    the text of a UUID with Python's parser for it. *)
Context (stored_error : string -> string) (ist_stamp : option instant -> string).
Context (uuid_text : uuid -> string) (parse_uuid : string -> option uuid).

(** ** Claiming a batch *)

Definition dead_letter_unknown_jobs (now : instant) (known : list string) (t : table) :
    table * list string :=
  let p r := is_pending r && negb (job_in known r)
             && (created_at r <? now - OUTBOX_UNKNOWN_JOB_GRACE) in
  (update p (fun r => touch now (set_error (Some ("no worker runs job " +:+ job r))
                                   (set_locked None (set_status failed r)))) t,
   if (0 <? Z.of_nat (rowcount p t)) then ["outbox_dead_letter"] else []).

Definition alarm_revision_holds (now : instant) (revisions : list string) (t : table) :
    list string :=
  let p r := is_pending r
             && match min_revision r with
                | Some v => negb (bool_decide (v ∈ revisions))
                | None => false
                end
             && (created_at r <? now - OUTBOX_REVISION_HOLD_ALARM) in
  if (0 <? Z.of_nat (rowcount p t)) then ["outbox_held_for_release"] else [].

Definition dead_letter_exhausted_claims (now : instant) (t : table) : table * list string :=
  let p r := is_pending r && (OUTBOX_MAX_ATTEMPTS <=? attempt_count r) && lease_free now r in
  (update p (fun r =>
     touch now (set_error (match last_error r with
                           | Some e => Some e
                           | None => Some "claim abandoned; budget spent with no outcome"
                           end) (set_locked None (set_status failed r)))) t,
   if (0 <? Z.of_nat (rowcount p t)) then ["outbox_dead_letter"] else []).

(** The WHERE clause of the claim. *)
Definition claimable (now : instant) (jobs : option (list string)) (held : list string)
    (revisions : option (list string)) (r : row) : bool :=
  is_pending r && lease_free now r
  && match jobs with None => true | Some js => job_in js r end
  && negb (job_in held r)
  && match min_revision r, revisions with
     | None, _ => true
     | _, None => true
     | Some v, Some vs => bool_decide (v ∈ vs)
     end.

Definition take_claim (now : instant) (r : row) : row :=
  touch now (set_locked (Some (now + OUTBOX_CLAIM_LEASE)) (set_attempts (attempt_count r + 1) r)).

(** [OutboxMessageRow]s are the claimed rows themselves. *)
Definition claim_outbox_batch (now : instant) (limit_ : nat) (jobs : option (list string))
    (held : list string) (revisions : option (list string)) (t : table) :
    list row * table * list string :=
  let '(t1, a1) := dead_letter_exhausted_claims now t in
  let '(t2, a2) := match jobs with
                   | None => (t1, [])
                   | Some known => dead_letter_unknown_jobs now known t1
                   end in
  let a3 := match revisions with None => [] | Some vs => alarm_revision_holds now vs t2 end in
  let '(rows, t3) := claim id (claimable now jobs held revisions) by_age limit_
                           (take_claim now) t2 in
  (rows, t3, a1 ++ a2 ++ a3).

(** ** Outcomes *)

(** The SET list of [mark_outbox_published]. *)
Definition published_as (now : instant) (job_id_ : string) (r : row) : row :=
  let scrub := job_in SCRUB_AT_PUBLISH_JOBS r in
  touch now (set_locked None (set_published job_id_ now
    (set_consume_by (if scrub then None else Some (now + OUTBOX_CONSUME_DEADLINE))
       (set_payload (if scrub then [] else payload r) (set_status published r))))).

Definition mark_outbox_published (now : instant) (message_id : uuid) (job_id_ : string)
    (t : table) : table :=
  update (fun r => by_id id message_id r && is_pending r) (published_as now job_id_) t.

(** [LEAST(30 * GREATEST(attempt_count, 1), 300)] seconds. *)
Definition backoff_interval (r : row) : Z :=
  seconds (Z.min (OUTBOX_RETRY_BACKOFF_S * Z.max (attempt_count r) 1) OUTBOX_RETRY_BACKOFF_CAP_S).

(** The SET list of [mark_outbox_failed]. *)
Definition failed_as (now : instant) (error_ : string) (attempt_count_ : Z) (r : row) : row :=
  let terminal := OUTBOX_MAX_ATTEMPTS <=? attempt_count_ in
  touch now (set_locked (if terminal then None else Some (now + backoff_interval r))
    (set_error (Some (stored_error error_))
       (set_status (if terminal then failed else pending) r))).

Definition mark_outbox_failed (now : instant) (message_id : uuid) (error_ : string)
    (attempt_count_ : Z) (t : table) : table * list string :=
  let terminal := OUTBOX_MAX_ATTEMPTS <=? attempt_count_ in
  let p r := by_id id message_id r && is_pending r in
  (update p (failed_as now error_ attempt_count_) t,
   if terminal && (0 <? Z.of_nat (rowcount p t)) then ["outbox_dead_letter"] else []).

Definition defer_outbox_claim (now : instant) (message_ids : list uuid) (error_ : string)
    (t : table) : nat * table :=
  match message_ids with
  | [] => (0%nat, t)
  | _ =>
      let p r := id_in id message_ids r && is_pending r in
      (rowcount p t,
       update p (fun r => touch now (set_error (Some (stored_error error_))
                                       (set_locked (Some (now + backoff_interval r)) r))) t)
  end.

(** ** Consumption *)

Definition job_id_for (job_ : string) (key : string) : string :=
  if String.eqb key "" then job_ else job_ +:+ ":" +:+ key.

Definition outbox_message_id (job_ : string) (job_id_ : option string) : option uuid :=
  let prefix := job_ +:+ ":" in
  match job_id_ with
  | None => None
  | Some j =>
      if String.eqb j "" || negb (String.prefix prefix j) then None
      else parse_uuid (String.substring (String.length prefix)
                         (String.length j - String.length prefix) j)
  end.

Definition outbox_message_consumed (message_id : uuid) (job_ : string) (t : table) : bool :=
  match select (fun r => by_id id message_id r && String.eqb (job r) job_) t with
  | r :: _ => match consumed_at r with Some _ => true | None => false end
  | [] => false
  end.

Definition mark_outbox_consumed (now : instant) (message_id : uuid) (job_ : string)
    (t : table) : table :=
  update (fun r => by_id id message_id r && String.eqb (job r) job_
                   && match consumed_at r with None => true | Some _ => false end)
    (fun r => set_payload [] (set_consumed now r)) t.

Record unconsumed_sweep := UnconsumedSweep { republished : nat; dead_lettered : nat }.

Definition sweep_unconsumed_outbox (now : instant) (t : table) :
    unconsumed_sweep * table * list string :=
  let overdue r := status_is (row_status r) published
                   && match consumed_at r with None => true | Some _ => false end
                   && match consume_by r with Some c => c <? now | None => false end in
  let le x y := match consume_by x, consume_by y with
                | Some a, Some b => a <=? b
                | None, Some _ => false
                | _, None => true
                end in
  let '(rows, t') := claim id overdue le OUTBOX_BATCH
    (fun r => touch now (set_locked None (set_consume_by None
       (set_error (Some ("published " +:+ ist_stamp (published_at r)
                         +:+ " IST; no run succeeded"))
          (set_status (if OUTBOX_MAX_ATTEMPTS <=? attempt_count r then failed else pending)
             r))))) t in
  let dead := length (select (fun r => status_is (row_status r) failed) rows) in
  (UnconsumedSweep (length rows - dead) dead, t',
   ((if (0 <? Z.of_nat (length rows)) then ["outbox_unconsumed"] else [])
    ++ (if (0 <? Z.of_nat dead) then ["outbox_dead_letter"] else []))).

(** ** The dead-letter queue *)

Definition replay_dead_letters (now : instant) (job_ : option string) (limit_ : nat)
    (t : table) : nat * table :=
  let p r := status_is (row_status r) failed
             && match job_ with None => true | Some j => String.eqb (job r) j end in
  let '(rows, t') := claim id p by_age limit_
    (fun r => touch now (set_locked None (set_attempts 0 (set_status pending r)))) t in
  (length rows, t').

Definition dlq_depth (t : table) : nat := rowcount (fun r => status_is (row_status r) failed) t.
Definition dlq_deferred (now : instant) (t : table) : nat :=
  rowcount (fun r => is_pending r && negb (lease_free now r)) t.

(** ** The dispatcher

    The queue's state [QS], its answer to an enqueue, and whether it still
    holds the failed result of an earlier run ([None]: it cannot be reached). *)
Inductive enqueue_answer :=
| Enqueued (jid : string)
| Deduped
| QueueDown (reason : string)
| Poison (reason : string).

Section Dispatch.
Context {QS : Type}.
Context (enqueue : QS -> string -> list (string * jval) -> string -> enqueue_answer * QS).
Context (earlier_run_failed : QS -> string -> string -> option bool).

Definition BULK_HOLD_ALARM : Z := minutes 10.

(** [served]: the bulk jobs a live bulk worker runs, [None] when Redis cannot say. *)
Definition bulk_jobs_held (now : instant) (BULK_JOBS : list string)
    (registered served : option (list string)) (t : table) : list string * list string :=
  let candidates := match registered with
                    | None => BULK_JOBS
                    | Some js => List.filter (fun j => bool_decide (j ∈ js)) BULK_JOBS
                    end in
  match served with
  | None => (candidates, [])
  | Some sv =>
      let held := List.filter (fun j => negb (bool_decide (j ∈ sv))) candidates in
      let p r := is_pending r && job_in held r && (created_at r <? now - BULK_HOLD_ALARM) in
      (held,
       if match held with [] => false | _ => true end && (0 <? Z.of_nat (rowcount p t))
       then ["outbox_bulk_consumer_missing"] else [])
  end.

Definition DEDUPED_FAILED : string :=
  "an earlier run of this message failed and arq still holds its result; replay it after an hour".

Definition queue_down (now : instant) (batch : list row) (reason : string) (t : table) :
    table * list string :=
  (snd (defer_outbox_claim now (map id batch) reason t), ["outbox_queue_unreachable"]).

(** The loop of [dispatch_outbox] over the claimed batch: the messages published,
    the queue, the table, the alarms raised. *)
Fixpoint dispatch_batch (now : instant) (q : QS) (batch : list row) (t : table) :
    Z * QS * table * list string :=
  match batch with
  | [] => (0, q, t, [])
  | m :: rest =>
      let jid := job_id_for (job m) (uuid_text (id m)) in
      match enqueue q (job m) (payload m) jid with
      | (Enqueued j, q') =>
          let t' := mark_outbox_published now (id m) (if String.eqb j "" then "deduped" else j) t in
          let '(n, q'', t'', al) := dispatch_batch now q' rest t' in (n + 1, q'', t'', al)
      | (Deduped, q') =>
          match earlier_run_failed q' (job m) jid with
          | None =>
              let '(t', al) := queue_down now batch "queue unreachable" t in (0, q', t', al)
          | Some true =>
              let '(t', al) := mark_outbox_failed now (id m) DEDUPED_FAILED
                                 OUTBOX_MAX_ATTEMPTS t in
              let '(n, q'', t'', al') := dispatch_batch now q' rest t' in (n, q'', t'', al ++ al')
          | Some false =>
              let t' := mark_outbox_published now (id m) "deduped" t in
              let '(n, q'', t'', al) := dispatch_batch now q' rest t' in (n + 1, q'', t'', al)
          end
      | (QueueDown reason, q') =>
          let '(t', al) := queue_down now batch reason t in (0, q', t', al)
      | (Poison reason, q') =>
          let '(t', al) := mark_outbox_failed now (id m) reason (attempt_count m) t in
          let '(n, q'', t'', al') := dispatch_batch now q' rest t' in (n, q'', t'', al ++ al')
      end
  end.

(** [dispatch_outbox]: the sweep and the outcomes run in one session (whose
    transaction began at [now]); the claim commits on its own, at [now_claim]. *)
Definition dispatch_outbox (now now_claim : instant) (BULK_JOBS : list string)
    (registered served revisions : option (list string)) (q : QS) (t : table) :
    Z * QS * table * list string :=
  let '(_, t1, a1) := sweep_unconsumed_outbox now t in
  let '(held, a2) := bulk_jobs_held now BULK_JOBS registered served t1 in
  let '(batch, t2, a3) := claim_outbox_batch now_claim OUTBOX_BATCH registered held revisions t1 in
  let '(n, q', t3, a4) := dispatch_batch now q batch t2 in
  (n, q', t3, a1 ++ a2 ++ a3 ++ a4).
End Dispatch.

(** ** The consumer ([consume_outbox_once])

    [run] is the wrapped job on the world [W]: [None] when it raised.  [readable]
    and [writable] say whether the two sessions of the wrapper succeed. *)
Inductive run_outcome (A : Type) :=
| AlreadyConsumed
| Ran (a : A)
| Raised.
Arguments AlreadyConsumed {A}.
Arguments Ran {A} a.
Arguments Raised {A}.

Definition consume_outbox_once {W A : Type} (now : instant) (name : string)
    (job_id_ : option string) (readable writable : bool) (run : W -> option A * W)
    (w : W) (t : table) : run_outcome A * W * table :=
  match outbox_message_id name job_id_ with
  | None => match run w with
            | (Some a, w') => (Ran a, w', t)
            | (None, w') => (Raised, w', t)
            end
  | Some mid =>
      let consumed := if readable then outbox_message_consumed mid name t else false in
      if consumed then (AlreadyConsumed, w, t)
      else match run w with
           | (Some a, w') =>
               (Ran a, w', if writable then mark_outbox_consumed now mid name t else t)
           | (None, w') => (Raised, w', t)
           end
  end.
End Ops.

Arguments AlreadyConsumed {A}.
Arguments Ran {A} a.
Arguments Raised {A}.

(** ** The table's invariant *)

(** What every row satisfies between two statements. *)
Record row_wf (r : row) : Prop := RowWf {
  wf_attempts : 0 <= attempt_count r <= OUTBOX_MAX_ATTEMPTS;
  wf_failed : row_status r = failed -> locked_until r = None;
  wf_published : row_status r = published ->
                 locked_until r = None /\ job_id r <> None /\ published_at r <> None;
  wf_consume_by : consume_by r <> None -> row_status r = published;
  wf_consumed : consumed_at r <> None -> payload r = []
}.

Definition table_wf (t : table) : Prop := pk_ok id t /\ Forall row_wf t.

Create HintDb outbox.

Section Theorems.
Context (stored_error : string -> string) (ist_stamp : option instant -> string).
Context (uuid_text : uuid -> string) (parse_uuid : string -> option uuid).

(** One statement group of the program, at some instant. *)
Inductive step : table -> table -> Prop :=
| step_enqueue now mid j p t :
    ~ In mid (map id t) -> step t (enqueue_outbox now mid j p t)
| step_enqueue_once now mid j p k t :
    ~ In mid (map id t) -> step t (snd (enqueue_outbox_once now mid j p k t))
| step_claim now n jobs held revs t :
    step t (snd (fst (claim_outbox_batch now n jobs held revs t)))
| step_published now mid jid t : step t (mark_outbox_published now mid jid t)
| step_failed now mid e n t : step t (fst (mark_outbox_failed stored_error now mid e n t))
| step_defer now mids e t : step t (snd (defer_outbox_claim stored_error now mids e t))
| step_consumed now mid j t : step t (mark_outbox_consumed now mid j t)
| step_sweep now t : step t (snd (fst (sweep_unconsumed_outbox ist_stamp now t)))
| step_replay now j n t : step t (snd (replay_dead_letters now j n t)).

Inductive reachable : table -> Prop :=
| reach_empty : reachable []
| reach_step t t' : reachable t -> step t t' -> reachable t'.

(** Take the booleans of a WHERE clause apart. *)
Ltac where_in H :=
  repeat (apply andb_prop in H; let H' := fresh H in destruct H as [H H']);
  unfold is_pending, status_is, job_in in *;
  repeat match goal with
  | K : bool_decide _ = true |- _ => apply bool_decide_eq_true in K
  | K : negb _ = true |- _ => apply negb_true_iff in K
  | K : bool_decide _ = false |- _ => apply bool_decide_eq_false in K
  end.

(** A row the assignment of an UPDATE rewrote is well formed again. *)
Ltac row_solve := constructor; simpl in *; intuition (congruence || lia || auto).

Lemma new_row_wf mid j p k now : row_wf (new_row mid j p k now).
Proof. row_solve. unfold OUTBOX_MAX_ATTEMPTS. lia. Qed.

Lemma dead_letter_unknown_wf now known t :
  table_wf t -> table_wf (fst (dead_letter_unknown_jobs now known t)).
Proof.
  intros [Hpk Hf]. split; simpl; [by apply update_pk_ok|].
  apply update_Forall; [done|]. intros r _ [] Hp. where_in Hp. row_solve.
Qed.

Lemma dead_letter_exhausted_wf now t :
  table_wf t -> table_wf (fst (dead_letter_exhausted_claims now t)).
Proof.
  intros [Hpk Hf]. split; simpl; [by apply update_pk_ok|].
  apply update_Forall; [done|]. intros r _ [] Hp. where_in Hp. row_solve.
Qed.

(** After the dead-letter pass no claimable row has spent its attempts. *)
Definition not_exhausted (now : instant) (r : row) : Prop :=
  row_status r = pending -> lease_free now r = true -> attempt_count r < OUTBOX_MAX_ATTEMPTS.

Lemma dead_letter_exhausted_left now t :
  Forall (not_exhausted now) (fst (dead_letter_exhausted_claims now t)).
Proof.
  simpl. apply List.Forall_forall. intros r' Hr'. apply update_In in Hr' as (r & _ & ->).
  destruct (is_pending r && _ && _) eqn:E; unfold not_exhausted; simpl; [done|].
  intros Hs Hl. rewrite Hl, andb_true_r in E. unfold is_pending, status_is in E.
  rewrite bool_decide_true in E by done. simpl in E. lia.
Qed.

Lemma dead_letter_unknown_left now known t :
  Forall (not_exhausted now) t ->
  Forall (not_exhausted now) (fst (dead_letter_unknown_jobs now known t)).
Proof. intros H. apply update_Forall; [done|]. intros r _ _ _. by intros ?. Qed.

(** The table the claim's own statement runs on. *)
Definition swept (now : instant) (jobs : option (list string)) (t : table) : table :=
  let t1 := fst (dead_letter_exhausted_claims now t) in
  match jobs with None => t1 | Some known => fst (dead_letter_unknown_jobs now known t1) end.

Lemma claim_outbox_batch_unfold now n jobs held revs t :
  let c := claim id (claimable now jobs held revs) by_age n (take_claim now) (swept now jobs t) in
  fst (fst (claim_outbox_batch now n jobs held revs t)) = fst c
  /\ snd (fst (claim_outbox_batch now n jobs held revs t)) = snd c.
Proof. unfold claim_outbox_batch, swept. destruct jobs; done. Qed.

Lemma swept_wf now jobs t :
  table_wf t -> table_wf (swept now jobs t) /\ Forall (not_exhausted now) (swept now jobs t).
Proof.
  intros H. pose proof (dead_letter_exhausted_wf now t H) as H1.
  pose proof (dead_letter_exhausted_left now t) as H2.
  unfold swept. destruct jobs as [known|]; [|done].
  split; [by apply dead_letter_unknown_wf|by apply dead_letter_unknown_left].
Qed.

Lemma claimable_pending now jobs held revs r :
  claimable now jobs held revs r = true -> row_status r = pending /\ lease_free now r = true.
Proof. unfold claimable. intros H. where_in H. done. Qed.

Lemma claim_wf now n jobs held revs t :
  table_wf t -> table_wf (snd (fst (claim_outbox_batch now n jobs held revs t))).
Proof.
  intros Ht. destruct (claim_outbox_batch_unfold now n jobs held revs t) as [_ ->].
  destruct (swept_wf now jobs t Ht) as [[Hpk Hf] Hx].
  split; [by apply update_pk_ok|].
  apply claim_Forall; [done|done|]. intros r Hr [] Hp.
  apply claimable_pending in Hp as [Hs Hl].
  rewrite List.Forall_forall in Hx. specialize (Hx r Hr Hs Hl). row_solve.
Qed.

Lemma mark_published_wf now mid jid t : table_wf t -> table_wf (mark_outbox_published now mid jid t).
Proof.
  intros [Hpk Hf]. split; [by apply update_pk_ok|].
  apply update_Forall; [done|]. intros r _ [] Hp. where_in Hp.
  unfold published_as. destruct (job_in SCRUB_AT_PUBLISH_JOBS r); row_solve.
Qed.

Lemma mark_failed_wf now mid e n t :
  table_wf t -> table_wf (fst (mark_outbox_failed stored_error now mid e n t)).
Proof.
  intros [Hpk Hf]. split; simpl; [by apply update_pk_ok|].
  apply update_Forall; [done|]. intros r _ [] Hp. where_in Hp.
  unfold failed_as. destruct (OUTBOX_MAX_ATTEMPTS <=? n); row_solve.
Qed.

Lemma defer_wf now mids e t :
  table_wf t -> table_wf (snd (defer_outbox_claim stored_error now mids e t)).
Proof.
  intros [Hpk Hf]. unfold defer_outbox_claim. destruct mids as [|m mids]; [done|].
  split; simpl; [by apply update_pk_ok|].
  apply update_Forall; [done|]. intros r _ [] Hp. where_in Hp. row_solve.
Qed.

Lemma mark_consumed_wf now mid j t : table_wf t -> table_wf (mark_outbox_consumed now mid j t).
Proof.
  intros [Hpk Hf]. split; [by apply update_pk_ok|].
  apply update_Forall; [done|]. intros r _ [] Hp. row_solve.
Qed.

Lemma sweep_wf now t : table_wf t -> table_wf (snd (fst (sweep_unconsumed_outbox ist_stamp now t))).
Proof.
  intros [Hpk Hf]. split; [by apply update_pk_ok|].
  apply claim_Forall; [done|done|]. intros r _ [] Hp. where_in Hp.
  destruct (OUTBOX_MAX_ATTEMPTS <=? attempt_count r) eqn:E; row_solve.
Qed.

Lemma replay_wf now j n t : table_wf t -> table_wf (snd (replay_dead_letters now j n t)).
Proof.
  intros [Hpk Hf]. split; [by apply update_pk_ok|].
  apply claim_Forall; [done|done|]. intros r _ [] Hp. where_in Hp. row_solve.
Qed.

Lemma enqueue_wf r t : ~ In (id r) (map id t) -> row_wf r -> table_wf t -> table_wf (t ++ [r]).
Proof.
  intros Hn Hr [Hpk Hf]. split; [by apply insert_pk_ok|]. apply Forall_app_2; [done|]. constructor; [done|constructor].
Qed.

#[local] Hint Resolve claim_wf mark_published_wf mark_failed_wf defer_wf mark_consumed_wf sweep_wf
  replay_wf enqueue_wf new_row_wf : outbox.

Lemma outbox_step_wf t t' : step t t' -> table_wf t -> table_wf t'.
Proof.
  intros [] Ht; auto with outbox.
  all: unfold enqueue_outbox, enqueue_outbox_once; try case_match; simpl; auto with outbox.
Qed.

(** In every reachable outbox the ids are distinct, no message has been
    claimed more than [OUTBOX_MAX_ATTEMPTS] times since it was queued or
    replayed, a failed or published message holds no lease, only a published
    one has a consume deadline, and a consumed one keeps no payload. *)
Theorem reachable_wf t : reachable t -> table_wf t.
Proof.
  induction 1 as [|t t' _ IH Hs]; [split; constructor|]. by eapply outbox_step_wf.
Qed.

(** ** The claim *)

Lemma claimed_row now n jobs held revs t r' :
  table_wf t -> In r' (fst (fst (claim_outbox_batch now n jobs held revs t))) ->
  exists r, In r (swept now jobs t) /\ claimable now jobs held revs r = true
            /\ r' = take_claim now r.
Proof.
  intros Ht H. destruct (claim_outbox_batch_unfold now n jobs held revs t) as [E _].
  rewrite E in H. destruct (swept_wf now jobs t Ht) as [[Hpk _] _].
  apply claim_rows_In in H as (r & H1 & H2 & H3 & _); [eauto|done].
Qed.

(** A row the claim returned stands in the table it left. *)
Lemma claimed_row_left now n jobs held revs t r' :
  In r' (fst (fst (claim_outbox_batch now n jobs held revs t))) ->
  In r' (snd (fst (claim_outbox_batch now n jobs held revs t))).
Proof.
  destruct (claim_outbox_batch_unfold now n jobs held revs t) as [-> ->].
  simpl. intros H. apply in_map_iff in H as (r & <- & Hr). apply select_In in Hr as [Hr Hp].
  apply update_In. exists r. by rewrite Hp.
Qed.

Lemma update_In_other p f (t : table) r :
  In r t -> p r = false -> In r (update p f t).
Proof. intros Hr Hp. apply update_In. exists r. by rewrite Hp. Qed.

Lemma leased_swept now jobs t r :
  In r t -> row_status r = pending -> lease_free now r = false ->
  match jobs with None => True | Some js => job r ∈ js end ->
  In r (swept now jobs t).
Proof.
  intros Hr Hs Hl Hj. unfold swept. destruct jobs as [known|].
  - apply update_In_other.
    + apply update_In_other; [done|]. by rewrite Hl, andb_false_r.
    + unfold job_in. rewrite bool_decide_true by done. by rewrite andb_false_r.
  - apply update_In_other; [done|]. by rewrite Hl, andb_false_r.
Qed.

Lemma swept_ids now jobs t : map id (swept now jobs t) = map id t.
Proof.
  unfold swept. destruct jobs; simpl; rewrite ?update_ids; done.
Qed.

(** C32. Two dispatchers never hold the same message: of two claims the second of
    which runs before the first one's lease lapses, over the same registered
    jobs, no message is in both batches. *)
Theorem claims_disjoint now1 now2 n1 n2 jobs held1 held2 revs1 revs2 t i :
  table_wf t -> now2 < now1 + OUTBOX_CLAIM_LEASE ->
  let c1 := claim_outbox_batch now1 n1 jobs held1 revs1 t in
  let c2 := claim_outbox_batch now2 n2 jobs held2 revs2 (snd (fst c1)) in
  In i (map id (fst (fst c1))) -> ~ In i (map id (fst (fst c2))).
Proof.
  intros Ht Hnow c1 c2 H1 H2.
  apply in_map_iff in H1 as (r1 & <- & H1). apply in_map_iff in H2 as (r2 & E & H2).
  pose proof (claim_wf now1 n1 jobs held1 revs1 t Ht) as Hwf1. fold c1 in Hwf1.
  pose proof (claimed_row_left now1 n1 jobs held1 revs1 t r1 H1) as Hin.
  apply claimed_row in H1 as (r & Hr & Hc & ->); [|done].
  apply claimed_row in H2 as (r' & Hr' & Hc' & ->); [|done].
  destruct (swept_wf now2 jobs _ Hwf1) as [[Hpk _] _].
  assert (Hl : lease_free now2 (take_claim now1 r) = false)
    by (unfold lease_free, take_claim; simpl; lia).
  apply claimable_pending in Hc' as Hp'. destruct Hp' as [Hs' Hl'].
  replace r' with (take_claim now1 r) in Hl'; [congruence|].
  apply (pk_unique id (swept now2 jobs (snd (fst c1)))); try done.
  apply leased_swept; [done| |done|].
  - simpl. by apply claimable_pending in Hc as [? _].
  - unfold claimable in Hc. where_in Hc. destruct jobs; [|done].
    unfold job_in in *. simpl. destruct (decide (job r ∈ l)); [done|].
    rewrite bool_decide_false in * by done. done.
Qed.

(** The claim is bounded and first-in first-out: at most [limit] messages,
    each pending, free of any lease and of a registered job that is not held, and
    none queued after a claimable message it leaves behind. *)
Theorem claim_fifo now n jobs held revs t r x :
  table_wf t ->
  let batch := fst (fst (claim_outbox_batch now n jobs held revs t)) in
  In r batch -> In x (swept now jobs t) -> claimable now jobs held revs x = true ->
  ~ In (id x) (map id batch) ->
  (length batch <= n)%nat /\ row_status r = pending /\ attempt_count r <= OUTBOX_MAX_ATTEMPTS
  /\ locked_until r = Some (now + OUTBOX_CLAIM_LEASE)
  /\ (created_at r < created_at x \/ created_at r = created_at x /\ id r <= id x).
Proof.
  intros Ht batch Hr Hx Hcx Hnx. unfold batch in *.
  destruct (swept_wf now jobs t Ht) as [[Hpk Hf] Hex].
  destruct (claim_outbox_batch_unfold now n jobs held revs t) as [E _]. rewrite E in *.
  split; [by apply claim_length|].
  apply claim_rows_In in Hr as (y & Hy & Hcy & -> & Hpick); [|done].
  apply claimable_pending in Hcy as [Hs Hl]. simpl. split; [done|].
  rewrite List.Forall_forall in Hex. specialize (Hex y Hy Hs Hl).
  split; [lia|]. split; [done|].
  assert (Hle : by_age y x = true).
  { apply (limit_first by_age (le_at_id_total _ _) (le_at_id_trans _ _) n
             (select (claimable now jobs held revs) (swept now jobs t))); [done| |].
    - apply order_by_In, select_In. done.
    - intros Hpx. apply Hnx. simpl. rewrite map_map. simpl. apply in_map_iff.
      exists x. split; [done|]. apply select_In. split; [done|].
      by apply claim_picked. }
  unfold by_age, le_at_id in Hle. lia.
Qed.

(** ** The dispatcher *)

Section Dispatching.
Context {QS : Type}.
Context (enqueue : QS -> string -> list (string * jval) -> string -> enqueue_answer * QS).
Context (earlier_run_failed : QS -> string -> string -> option bool).
Let dispatch := dispatch_batch stored_error uuid_text enqueue earlier_run_failed.

(** The queue took the message, now or in an earlier attempt. *)
Definition accepted (m : row) : Prop :=
  exists q q' j, enqueue q (job m) (payload m) (job_id_for (job m) (uuid_text (id m))) = (j, q')
                 /\ (j = Deduped \/ exists jid, j = Enqueued jid).

(** What one message of the batch ends as. *)
Definition outcome (now : instant) (m r : row) : Prop :=
  id r = id m /\
  (row_status r = published /\ locked_until r = None /\ accepted m
   \/ row_status r = failed /\ locked_until r = None
      /\ (OUTBOX_MAX_ATTEMPTS <= attempt_count m \/ accepted m)
   \/ row_status r = pending /\ attempt_count r = attempt_count m
      /\ locked_until r = Some (now + backoff_interval m)).

Lemma update_one_other p f (t : table) i r :
  (forall x, p x = true -> id x = i) -> In r t -> id r <> i -> In r (update p f t).
Proof.
  intros Hp Hr Hi. apply update_In_other; [done|].
  destruct (p r) eqn:E; [|done]. by apply Hp in E.
Qed.

Lemma update_hit p f (t : table) r : In r t -> p r = true -> In (f r) (update p f t).
Proof. intros Hr Hp. apply update_In. exists r. by rewrite Hp. Qed.

Lemma by_id_only i p (r : row) : by_id id i r && p r = true -> id r = i.
Proof. unfold by_id. intros H. apply andb_prop in H. lia. Qed.

Lemma queue_down_unfold now m rest reason t :
  fst (queue_down stored_error now (m :: rest) reason t)
  = update (fun r => id_in id (map id (m :: rest)) r && is_pending r)
      (fun r => touch now (set_error (Some (stored_error reason))
                             (set_locked (Some (now + backoff_interval r)) r))) t.
Proof. reflexivity. Qed.

Lemma snd_fst_let4 {A B C} (x : Z * A * B * C) :
  snd (fst (let '(n, q, t, al) := x in (n + 1, q, t, al))) = snd (fst x).
Proof. by destruct x as [[[? ?] ?] ?]. Qed.
Lemma snd_fst_let4' {A B} (x : Z * A * B * list string) (al0 : list string) :
  snd (fst (let '(n, q, t, al) := x in (n, q, t, al0 ++ al))) = snd (fst x).
Proof. by destruct x as [[[? ?] ?] ?]. Qed.

Lemma pending_true (r : row) : row_status r = pending -> is_pending r = true.
Proof. unfold is_pending, status_is. intros ->. done. Qed.

(** The rest of the batch, untouched, after one message's outcome is written. *)
Lemma batch_rest p f (t : table) m rest :
  (forall x, p x = true -> id x = id m) ->
  NoDup (map id (m :: rest)) -> Forall (fun x => In x t /\ row_status x = pending) (m :: rest) ->
  Forall (fun x => In x (update p f t) /\ row_status x = pending) rest.
Proof.
  intros Hp Hnd Hb. apply NoDup_cons in Hnd as [Hn _]. inversion_clear Hb as [|? ? _ Hr].
  rewrite List.Forall_forall in Hr |- *. intros x Hx. destruct (Hr x Hx) as [H1 H2].
  split; [|done]. apply (update_one_other _ _ _ (id m)); try done.
  intros E. apply Hn. rewrite <- E. by apply list_elem_of_In, in_map.
Qed.

Lemma queue_down_outcome now batch reason t :
  Forall (fun x => In x t /\ row_status x = pending) batch ->
  Forall (fun m => exists r, In r (fst (queue_down stored_error now batch reason t))
                             /\ outcome now m r) batch
  /\ (forall r, In r t -> ~ In (id r) (map id batch) ->
        In r (fst (queue_down stored_error now batch reason t))).
Proof.
  intros Hb. destruct batch as [|m rest]; [split; [constructor|done]|].
  rewrite queue_down_unfold. split.
  - rewrite List.Forall_forall in Hb |- *. intros x Hx. destruct (Hb x Hx) as [H1 H2].
    eexists. split.
    + apply update_hit; [exact H1|]. rewrite pending_true, andb_true_r by done.
      apply id_in_spec. by apply in_map.
    + split; [done|]. right; right. simpl. done.
  - intros r Hr Hn. apply update_In_other; [done|].
    destruct (id_in id _ r) eqn:E; [|done]. by apply id_in_spec in E.
Qed.

(** However the queue answers, dispatching a claimed batch accounts for
    every message of it: each ends published and accepted by the queue, or
    dead-lettered with its attempts spent (or its earlier run failed), or still
    pending with its attempts as they were and a back-off lease; a message
    outside the batch is not touched. *)
Lemma dispatch_batch_outcome now q batch t :
  pk_ok id t -> NoDup (map id batch) ->
  Forall (fun x => In x t /\ row_status x = pending) batch ->
  let t' := snd (fst (dispatch now q batch t)) in
  Forall (fun m => exists r, In r t' /\ outcome now m r) batch
  /\ (forall r, In r t -> ~ In (id r) (map id batch) -> In r t').
Proof.
  unfold dispatch. revert q t. induction batch as [|m rest IH]; intros q t Hpk Hnd Hb; [by split|].
  pose proof (queue_down_outcome now (m :: rest)) as Hdown.
  inversion Hb as [|? ? [Hm Hs] _ ]; subst.
  (* one written outcome, then the rest of the batch *)
  assert (Hgo : forall p f q1, (forall x, p x = true -> id x = id m) -> p m = true ->
            (forall x, id (f x) = id x) -> outcome now m (f m) ->
            let t2 := snd (fst (dispatch_batch stored_error uuid_text enqueue
                         earlier_run_failed now q1 rest (update p f t))) in
            Forall (fun m0 => exists r, In r t2 /\ outcome now m0 r) (m :: rest)
            /\ (forall r, In r t -> ~ In (id r) (map id (m :: rest)) -> In r t2)).
  { intros p f q1 Hp Hpm Hf Ho t2.
    destruct (IH q1 (update p f t)) as [H1 H2].
    - by apply update_pk_ok.
    - by apply NoDup_cons in Hnd as [_ ?].
    - by eapply batch_rest.
    - fold t2 in H1, H2. split.
      + constructor; [|done]. exists (f m). split; [|done]. apply H2; [by apply update_hit|].
        rewrite Hf. apply NoDup_cons in Hnd as [Hn _]. intros E. by apply Hn, list_elem_of_In.
      + intros r Hr Hn. simpl in Hn. apply H2; [|tauto].
        apply (update_one_other _ _ _ (id m)); try done. intros E. apply Hn. left. done. }
  assert (Hacc : forall j, (j = Deduped \/ exists jid, j = Enqueued jid) ->
            fst (enqueue q (job m) (payload m) (job_id_for (job m) (uuid_text (id m)))) = j ->
            accepted m).
  { intros j Hj Hq. exists q, (snd (enqueue q (job m) (payload m)
      (job_id_for (job m) (uuid_text (id m))))), j. split; [|done]. rewrite <- Hq.
    by destruct (enqueue _ _ _ _). }
  simpl. destruct (enqueue q (job m) (payload m) _) as [ans q1] eqn:Eq. simpl in Hacc.
  pose proof (pending_true m Hs) as Hpend.
  assert (Hhit : by_id id (id m) m && is_pending m = true)
    by (unfold by_id; rewrite Z.eqb_refl; done).
  assert (Hpub : forall j, accepted m -> outcome now m (published_as now j m))
    by (intros j Ha; split; [done|left; done]).
  assert (Hfail : forall e n, (OUTBOX_MAX_ATTEMPTS <= n -> OUTBOX_MAX_ATTEMPTS <= attempt_count m
                               \/ accepted m) ->
            outcome now m (failed_as stored_error now e n m)).
  { intros e n Hn. split; [done|]. unfold failed_as.
    destruct (OUTBOX_MAX_ATTEMPTS <=? n) eqn:En; simpl.
    - right; left. repeat split. apply Hn. lia.
    - right; right. done. }
  destruct ans as [j| |reason|reason].
  - rewrite snd_fst_let4.
    eapply (Hgo _ (published_as now _)); [apply by_id_only|done|done|apply Hpub; eauto].
  - destruct (earlier_run_failed q1 (job m) _) as [[]|].
    + rewrite snd_fst_let4'.
      eapply (Hgo _ (failed_as stored_error now _ _)); [apply by_id_only|done|done|apply Hfail; eauto].
    + rewrite snd_fst_let4.
      eapply (Hgo _ (published_as now _)); [apply by_id_only|done|done|apply Hpub; eauto].
    + by apply Hdown.
  - by apply Hdown.
  - rewrite snd_fst_let4'.
    eapply (Hgo _ (failed_as stored_error now _ _)); [apply by_id_only|done|done|apply Hfail; eauto].
Qed.

Lemma claimed_batch_pending now n jobs held revs t :
  table_wf t ->
  let c := claim_outbox_batch now n jobs held revs t in
  NoDup (map id (fst (fst c)))
  /\ Forall (fun x => In x (snd (fst c)) /\ row_status x = pending) (fst (fst c)).
Proof.
  intros Ht c. split.
  - destruct (claim_outbox_batch_unfold now n jobs held revs t) as [E _].
    unfold c. rewrite E. simpl. rewrite map_map. simpl.
    destruct (swept_wf now jobs t Ht) as [[Hpk _] _].
    pose proof (NoDup_order_select id (id_in id (map id (limit n (order_by by_age
      (select (claimable now jobs held revs) (swept now jobs t)))))) (fun _ _ => true)
      (length (order_by (fun _ _ => true) (select (id_in id (map id (limit n (order_by by_age
      (select (claimable now jobs held revs) (swept now jobs t))))))
         (swept now jobs t)))) _ Hpk) as H.
    unfold limit in H at 1. by rewrite firstn_all, order_by_perm in H.
  - apply List.Forall_forall. intros r Hr. split; [by apply claimed_row_left|].
    apply claimed_row in Hr as (r0 & _ & Hc & ->); [|done].
    apply claimable_pending in Hc. simpl. tauto.
Qed.

(** However the queue answers, one tick of the dispatcher accounts for every
    message it claimed: each ends published and accepted by the queue, or
    dead-lettered with its attempts spent (or its earlier run failed), or still
    pending with its attempts as the claim left them and a back-off lease; and
    no message appears or disappears. *)
Theorem dispatch_outbox_outcome now now_claim BULK_JOBS registered served revs q t :
  table_wf t ->
  let t1 := snd (fst (sweep_unconsumed_outbox ist_stamp now t)) in
  let held := fst (bulk_jobs_held now BULK_JOBS registered served t1) in
  let batch := fst (fst (claim_outbox_batch now_claim OUTBOX_BATCH registered held revs t1)) in
  let t' := snd (fst (dispatch_outbox stored_error ist_stamp uuid_text enqueue earlier_run_failed
                        now now_claim BULK_JOBS registered served revs q t)) in
  Forall (fun m => exists r, In r t' /\ outcome now m r) batch
  /\ (forall i, In i (map id t) -> In i (map id t')).
Proof.
  intros Ht t1 held batch t'.
  assert (Ht1 : table_wf t1) by (by apply sweep_wf).
  destruct (claimed_batch_pending now_claim OUTBOX_BATCH registered held revs t1 Ht1) as [Hnd Hb].
  pose proof (claim_wf now_claim OUTBOX_BATCH registered held revs t1 Ht1) as [Hpk _].
  assert (E : t' = snd (fst (dispatch_batch stored_error uuid_text enqueue earlier_run_failed now q
                batch (snd (fst (claim_outbox_batch now_claim OUTBOX_BATCH registered held revs t1)))))).
  { unfold t', dispatch_outbox, batch, held, t1.
    destruct (sweep_unconsumed_outbox ist_stamp now t) as [[sw tt1] a1]. simpl.
    destruct (bulk_jobs_held now BULK_JOBS registered served tt1) as [hl a2]. simpl.
    destruct (claim_outbox_batch now_claim OUTBOX_BATCH registered hl revs tt1) as [[bb tt2] a3].
    simpl. by destruct (dispatch_batch _ _ _ _ _ _ _ _) as [[[? ?] ?] ?]. }
  destruct (dispatch_batch_outcome now q batch _ Hpk Hnd Hb) as [H1 H2].
  rewrite E. split; [done|]. intros i Hi.
  assert (Hi2 : In i (map id (snd (fst (claim_outbox_batch now_claim OUTBOX_BATCH registered held
                                          revs t1))))).
  { destruct (claim_outbox_batch_unfold now_claim OUTBOX_BATCH registered held revs t1) as [_ ->].
    rewrite claim_ids by done. rewrite swept_ids. unfold t1, sweep_unconsumed_outbox. simpl.
    by rewrite update_ids. }
  destruct (decide (i ∈ map id batch)) as [Hin|Hout].
  - apply list_elem_of_In, in_map_iff in Hin as (m & <- & Hm).
    rewrite List.Forall_forall in H1. destruct (H1 m Hm) as (r & Hr & Hid & _).
    apply in_map_iff. eauto.
  - apply in_map_iff in Hi2 as (r & <- & Hr). apply in_map_iff. exists r.
    split; [done|]. apply H2; [done|]. intros Hc. by apply Hout, list_elem_of_In.
Qed.
End Dispatching.

(** ** The consumer *)

Lemma substring_all (b : string) : String.substring 0 (String.length b) b = b.
Proof. induction b as [|c b IH]; simpl; [done|by rewrite IH]. Qed.

Lemma substring_suffix (a b : string) :
  String.substring (String.length a) (String.length (a +:+ b) - String.length a) (a +:+ b) = b.
Proof.
  induction a as [|c a IH]; [|done].
  change (String.length ("" +:+ b)) with (String.length b). change ("" +:+ b) with b.
  cbn [String.length]. rewrite Nat.sub_0_r. apply substring_all.
Qed.

Lemma prefix_app (a b : string) : String.prefix a (a +:+ b) = true.
Proof.
  induction a as [|c a IH]; simpl; [by destruct b|].
  destruct (Ascii.ascii_dec c c); done.
Qed.

Lemma string_app_assoc (a b c : string) : (a +:+ b) +:+ c = a +:+ (b +:+ c).
Proof. induction a as [|x a IH]; [done|].
  change (String.String x ((a +:+ b) +:+ c) = String.String x (a +:+ (b +:+ c))). by rewrite IH.
Qed.

(** The job id the dispatcher builds names its message again in the consumer. *)
Lemma outbox_message_id_roundtrip j mid :
  parse_uuid (uuid_text mid) = Some mid -> uuid_text mid <> "" ->
  outbox_message_id parse_uuid j (Some (job_id_for j (uuid_text mid))) = Some mid.
Proof.
  intros Hp Hne. unfold outbox_message_id, job_id_for.
  destruct (String.eqb (uuid_text mid) "") eqn:E0; [apply String.eqb_eq in E0; contradiction|].
  rewrite <- string_app_assoc, prefix_app, substring_suffix.
  destruct (String.eqb ((j +:+ ":") +:+ uuid_text mid) "") eqn:E; [|exact Hp].
  exfalso. apply String.eqb_eq in E. destruct j; discriminate E.
Qed.

(** ** What becomes of a consumed message *)

(** Any later life of the table: the program's statements, the retention worker's prune
    of published messages created before a cutoff not after [e], and the erasure of the
    messages whose payload names a person or a tenant. *)
Inductive later (e : instant) : table -> table -> Prop :=
| later_refl t : later e t t
| later_step t1 t2 t3 : step t1 t2 -> later e t2 t3 -> later e t1 t3
| later_prune cutoff p t1 t3 :
    cutoff <= e -> (forall r, p r = true -> row_status r = published /\ created_at r < cutoff) ->
    later e (delete_where p t1) t3 -> later e t1 t3
| later_erase p t1 t3 :
    (forall r, p r = true -> payload r <> []) -> later e (delete_where p t1) t3 -> later e t1 t3.

(** The record of a message's success, and when the message was made. *)
Definition on_record (mid : uuid) (j : string) (c : instant) (t : table) : Prop :=
  exists r, In r t /\ id r = mid /\ job r = j /\ created_at r = c /\ consumed_at r <> None.

Lemma on_record_update mid j c p f (t : table) :
  (forall r, id (f r) = id r /\ job (f r) = job r /\ created_at (f r) = created_at r
             /\ (consumed_at r <> None -> consumed_at (f r) <> None)) ->
  on_record mid j c t -> on_record mid j c (update p f t).
Proof.
  intros Hf (r & Hr & Hi & Hj & Hc & Hs). destruct (Hf r) as (F1 & F2 & F3 & F4).
  exists (if p r then f r else r). split; [apply update_In; by exists r|].
  destruct (p r); repeat split; try congruence; auto.
Qed.

Lemma on_record_app mid j c (t : table) x : on_record mid j c t -> on_record mid j c (t ++ [x]).
Proof. intros (r & Hr & ?). exists r. split; [|done]. apply in_or_app. by left. Qed.

Lemma on_record_step mid j c t t' : step t t' -> on_record mid j c t -> on_record mid j c t'.
Proof.
  intros Hst Hon. destruct Hst; try by (apply on_record_update; [done|]).
  - by apply on_record_app.
  - unfold enqueue_outbox_once. destruct (existsb _ _); [done|]. by apply on_record_app.
  - unfold claim_outbox_batch. simpl. destruct jobs; simpl; repeat (apply on_record_update; [done|]); done.
  - unfold defer_outbox_claim. destruct mids; [done|]. by apply on_record_update.
Qed.

Lemma on_record_delete mid j c p (t : table) :
  (forall r, In r t -> created_at r = c -> consumed_at r <> None -> p r = false) ->
  on_record mid j c t -> on_record mid j c (delete_where p t).
Proof.
  intros Hp (r & Hr & Hi & Hj & Hc & Hs). exists r. split; [|done]. apply filter_In. by rewrite (Hp r).
Qed.

Lemma delete_wf p (t : table) : table_wf t -> table_wf (delete_where p t).
Proof.
  intros [Hpk Hf]. split; [by apply NoDup_map_filter|]. apply List.Forall_forall. intros r Hr.
  apply filter_In in Hr as [Hr _]. rewrite List.Forall_forall in Hf. auto.
Qed.

Lemma on_record_later mid j c e t t' :
  later e t t' -> e <= c -> table_wf t -> on_record mid j c t -> table_wf t' /\ on_record mid j c t'.
Proof.
  induction 1 as [|t1 t2 t3 Hs _ IH|cutoff p t1 t3 Hc Hp _ IH|p t1 t3 Hp _ IH]; intros He Hwf Hon; [done| | |].
  - apply IH; [done|by eapply outbox_step_wf|by eapply on_record_step].
  - apply IH; [done|by apply delete_wf|]. apply on_record_delete; [|done]. intros r _ Hr _.
    destruct (p r) eqn:E; [|done]. apply Hp in E as [_ E]. lia.
  - apply IH; [done|by apply delete_wf|]. apply on_record_delete; [|done]. intros r Hr _ Hs.
    destruct (p r) eqn:E; [|done]. apply Hp in E. destruct Hwf as [_ Hf]. rewrite List.Forall_forall in Hf.
    by rewrite (wf_consumed r (Hf r Hr) Hs) in E.
Qed.

Lemma on_record_consumed mid j c (t : table) : pk_ok id t -> on_record mid j c t -> outbox_message_consumed mid j t = true.
Proof.
  intros Hpk (r & Hr & Hi & Hj & _ & Hs). unfold outbox_message_consumed.
  destruct (select_by_id id t mid (fun x => by_id id mid x && String.eqb (job x) j)) as [E|(x & E & Hx & Hp)]; [done| | |].
  - intros x. unfold by_id. intros H. apply andb_prop in H. lia.
  - exfalso. assert (H : In r (select (fun x => by_id id mid x && String.eqb (job x) j) t)).
    { apply select_In. split; [done|]. unfold by_id. by rewrite Hi, Hj, Z.eqb_refl, String.eqb_refl. }
    by rewrite E in H.
  - rewrite E. assert (x = r) as ->; [|by destruct (consumed_at r)]. apply (pk_unique id t); [done..|].
    unfold by_id in Hp. lia.
Qed.

Lemma marked_on_record now mid j (t : table) r :
  In r t -> id r = mid -> job r = j -> on_record mid j (created_at r) (mark_outbox_consumed now mid j t).
Proof.
  intros Hr Hi Hj. unfold mark_outbox_consumed. match goal with |- context [update ?p0 ?f0 t] => set (p := p0); set (f := f0) end.
  exists (if p r then f r else r). split; [apply update_In; by exists r|]. destruct (p r) eqn:Ep; [done|].
  repeat split; try done. unfold p in Ep. unfold by_id in Ep. rewrite Hi, Hj, Z.eqb_refl, String.eqb_refl in Ep. simpl in Ep.
  by destruct (consumed_at r).
Qed.

(** A message runs to success once while the record of it is kept: when a run of the
    job an outbox message names succeeded and the record of it was written, then after
    any later life of the table (further dispatches, failures, sweeps, replays,
    erasures, and prunes up to the message's age) every delivery of the message that can
    read the record answers "already consumed" and leaves the world and the table as
    they were; a run that fails records nothing. *)
Theorem consumed_once {W A : Type} now now' e j mid (run run' : W -> option A * W) a w w1 w2
    writable (t t1 t2 : table) r :
  table_wf t -> In r t -> id r = mid -> job r = j ->
  parse_uuid (uuid_text mid) = Some mid -> uuid_text mid <> "" ->
  let jid := Some (job_id_for j (uuid_text mid)) in
  consume_outbox_once parse_uuid now j jid true true run w t = (Ran a, w1, t1) ->
  e <= created_at r -> later e t1 t2 ->
  consume_outbox_once parse_uuid now' j jid true writable run' w2 t2 = (AlreadyConsumed, w2, t2)
  /\ forall w3, fst (run' w3) = None -> forall rd wr, snd (consume_outbox_once parse_uuid now' j jid rd wr run' w3 t) = t.
Proof.
  intros Hwf Hr Hi Hj Hp Hne jid H He Hl. unfold consume_outbox_once in *.
  unfold jid in *. rewrite (outbox_message_id_roundtrip j mid Hp Hne) in H |- *. split.
  - destruct (outbox_message_consumed mid j t); [discriminate H|].
    destruct (run w) as [[a'|] w']; [|discriminate H]. injection H as <- <- <-.
    destruct (on_record_later mid j (created_at r) e _ t2 Hl He (mark_consumed_wf _ _ _ _ Hwf) (marked_on_record now mid j t r Hr Hi Hj))
      as [[Hpk _] Hon].
    by rewrite (on_record_consumed mid j (created_at r) t2 Hpk Hon).
  - intros w3 Hf rd wr. destruct (if rd then _ else false); [done|]. destruct (run' w3) as [o w4]. simpl in Hf. by subst o.
Qed.
End Theorems.

(** ** Concrete runs *)
Module Example.
Definition no_redaction (s : string) : string := s.
Definition no_stamp (_ : option instant) : string := "".
Definition text_of (i : uuid) : string := if i =? 1 then "u1" else if i =? 2 then "u2" else "u3".
Definition text_parse (s : string) : option uuid :=
  if String.eqb s "u1" then Some 1 else if String.eqb s "u2" then Some 2 else None.
Definition accept_all (q : nat) (_ : string) (_ : list (string * jval)) (jid : string) : enqueue_answer * nat :=
  (Enqueued jid, S q).
Definition never_failed (_ : nat) (_ _ : string) : option bool := Some false.

Definition queued : table := [new_row 1 "send" [] None 10; new_row 2 "send" [] None 20].

Lemma queued_wf : table_wf queued.
Proof.
  split; [unfold pk_ok; decided|].
  apply Forall_cons_2; [|apply Forall_cons_2; [|apply Forall_nil_2]];
    constructor; simpl; unfold OUTBOX_MAX_ATTEMPTS; try lia; congruence.
Qed.
End Example.
Import Example.

Lemma reachable_wf_witness : table_wf (enqueue_outbox 10 1 "send" [] []).
Proof.
  apply (reachable_wf no_redaction no_stamp text_of text_parse).
  apply (reach_step _ _ []); [constructor|]. constructor. simpl. tauto.
Defined.

Lemma claims_disjoint_witness :
  let c1 := claim_outbox_batch 100 1 None [] None queued in
  let c2 := claim_outbox_batch 200 5 None [] None (snd (fst c1)) in
  map id (fst (fst c1)) = [1] /\ map id (fst (fst c2)) = [2] /\ ~ In 1 (map id (fst (fst c2))).
Proof.
  split; [reflexivity|]. split; [reflexivity|].
  apply (claims_disjoint no_redaction no_stamp text_of text_parse 100 200 1 5 None [] [] None None queued 1 queued_wf).
  - reflexivity.
  - left. reflexivity.
Defined.

Lemma claim_fifo_witness :
  let batch := fst (fst (claim_outbox_batch 100 1 None [] None queued)) in
  let r := take_claim 100 (new_row 1 "send" [] None 10) in
  let x := new_row 2 "send" [] None 20 in
  (length batch <= 1)%nat /\ row_status r = pending /\ attempt_count r <= OUTBOX_MAX_ATTEMPTS
  /\ locked_until r = Some (100 + OUTBOX_CLAIM_LEASE)
  /\ (created_at r < created_at x \/ created_at r = created_at x /\ id r <= id x).
Proof.
  apply (claim_fifo no_redaction no_stamp text_of text_parse 100 1 None [] None queued
           (take_claim 100 (new_row 1 "send" [] None 10)) (new_row 2 "send" [] None 20) queued_wf).
  - left. reflexivity.
  - right. left. reflexivity.
  - reflexivity.
  - simpl. intros [H|[]]. discriminate H.
Defined.

Lemma dispatch_outbox_outcome_witness :
  let t' := snd (fst (dispatch_outbox no_redaction no_stamp text_of accept_all never_failed
                        100 100 [] None None None 0%nat queued)) in
  Forall (fun m => exists r, In r t' /\ outcome text_of accept_all 100 m r)
    (fst (fst (claim_outbox_batch 100 OUTBOX_BATCH None [] None queued)))
  /\ (forall i, In i (map id queued) -> In i (map id t')).
Proof.
  exact (dispatch_outbox_outcome no_redaction no_stamp text_of text_parse accept_all never_failed
           100 100 [] None None None 0%nat queued queued_wf).
Defined.

Lemma consumed_once_witness :
  let run (w : nat) := (Some "done", S w) in
  let jid := Some (job_id_for "send" (text_of 1)) in
  let t1 := mark_outbox_consumed 100 1 "send" queued in
  let t2 := mark_outbox_published 110 1 "send:u1" t1 in
  consume_outbox_once text_parse 200 "send" jid true true run 7%nat t2 = (AlreadyConsumed, 7%nat, t2).
Proof.
  apply (proj1 (consumed_once no_redaction no_stamp text_of text_parse 100 200 10 "send" 1 (fun w => (Some "done", S w))
           (fun w => (Some "done", S w)) "done" 0%nat 1%nat 7%nat true
           queued (mark_outbox_consumed 100 1 "send" queued) _ (new_row 1 "send" [] None 10) queued_wf
           ltac:(left; reflexivity) eq_refl eq_refl eq_refl ltac:(discriminate) ltac:(vm_compute; reflexivity)
           ltac:(vm_compute; discriminate)
           (later_step _ _ _ _ _ _ (step_published _ _ 110 1 "send:u1" _) (later_refl _ _ _ _)))).
Defined.

End Outbox.
