(* ===== verification/Idempotency.v ===== *)
(** * Idempotent requests and the webhook inbox

    apps/api/reliability/service.py: [idempotency_records] (a request with an
    [Idempotency-Key] runs once and is replayed afterwards) and
    [webhook_inbox_events] (a provider's event is handled once).  Both tables
    have a state that means "someone is working on this", taken over by
    compare-and-swap once the holder's lease has lapsed. *)

From Stdlib Require Import ZArith Lia List QArith Lqa Sorted.
From stdpp Require Import base list strings.
From S2P Require Import Prelude PyDecimal Sql Outbox.

Local Open Scope string_scope.
Local Open Scope list_scope.
Local Open Scope Z_scope.

(** How long a processing claim may go untouched before it is abandoned. *)
Definition CLAIM_LEASE : Z := minutes 10.
Definition IDEMPOTENCY_TTL : Z := hours 24.

Module Idempotency.

Inductive status := processing | in_doubt | completed | failed.
#[export] Instance status_eq_dec : EqDecision status.
Proof. solve_decision. Defined.

Record record := Rec {
  id : uuid;
  scope_key : string;
  route : string;
  method : string;
  idempotency_key : string;
  request_hash : string;
  rec_status : status;
  claim_nonce : option uuid;
  response_status : option Z;
  response_payload : option (list (string * jval));
  expires_at : instant;
  created_at : instant;
  updated_at : instant
}.

Definition key_of (r : record) : string * string * string * string :=
  (scope_key r, route r, method r, idempotency_key r).

Abbreviation table := (list record) (only parsing).

Definition set_claim s n now (r : record) : record :=
  Rec (id r) (scope_key r) (route r) (method r) (idempotency_key r) (request_hash r) s n
      (response_status r) (response_payload r) (expires_at r) (created_at r) now.
Definition set_response st pl now (r : record) : record :=
  Rec (id r) (scope_key r) (route r) (method r) (idempotency_key r) (request_hash r) completed
      (claim_nonce r) (Some st) (Some pl) (expires_at r) (created_at r) now.

Inductive claim_state := fresh | replay.

Record IdempotencyClaim := Claim {
  state : claim_state;
  record_id : uuid;
  c_status : option Z;
  c_payload : option (list (string * jval));
  nonce : option uuid
}.

Definition in_flight : error := Problem Conflict "idempotent_request_in_flight".

Definition lapsed (now : instant) (r : record) : bool := updated_at r <? now - CLAIM_LEASE.

(** [claim_idempotency]; [rid] and [n] are the [uuid7()] and [uuid4()] it draws. *)
Definition claim_idempotency (now : instant) (rid n : uuid) (scope route_ method_ key hash : string)
    (t : table) : result (IdempotencyClaim * table) :=
  let same r := bool_decide (key_of r = (scope, route_, method_, key)) in
  if negb (existsb same t) then
    Ok (Claim fresh rid None None (Some n),
        t ++ [Rec rid scope route_ method_ key hash processing (Some n) None None
                (now + IDEMPOTENCY_TTL) now now])
  else
    match select same t with
    | [] => Ok (Claim fresh rid None None (Some n), t)
    | found :: _ =>
        if negb (String.eqb (request_hash found) hash)
        then Err (Problem Conflict "idempotency_key_reused")
        else match rec_status found with
             | in_doubt =>
                 if lapsed now found then Err (Problem Conflict "idempotent_request_in_doubt")
                 else Err in_flight
             | processing | failed =>
                 let p r := by_id id (id found) r
                            && (bool_decide (rec_status r = failed)
                                || bool_decide (rec_status r = processing) && lapsed now r) in
                 if Nat.eqb (rowcount p t) 0 then Err in_flight
                 else Ok (Claim fresh (id found) None None (Some n),
                          update p (set_claim processing (Some n) now) t)
             | completed =>
                 Ok (Claim replay (id found) (response_status found) (response_payload found) None, t)
             end
    end.

(** [status = 'processing' AND claim_nonce = :nonce]; NULL matches nothing. *)
Definition nonce_is (n : option uuid) (r : record) : bool :=
  match n, claim_nonce r with Some a, Some b => a =? b | _, _ => false end.

Definition mark_idempotency_in_doubt (now : instant) (c : IdempotencyClaim) (t : table) :
    result table :=
  let p r := by_id id (record_id c) r && bool_decide (rec_status r = processing)
             && nonce_is (nonce c) r in
  if Nat.eqb (rowcount p t) 0 then Err in_flight
  else Ok (update p (fun r => set_claim in_doubt (claim_nonce r) now r) t).

(** [_IDEMPOTENCY_HELD_BY_CLAIM]. *)
Definition held_by_claim (c : IdempotencyClaim) (r : record) : bool :=
  by_id id (record_id c) r
  && (bool_decide (rec_status r = processing) || bool_decide (rec_status r = in_doubt))
  && nonce_is (nonce c) r.

Definition complete_idempotency (now : instant) (c : IdempotencyClaim) (st : Z)
    (pl : list (string * jval)) (t : table) : table :=
  update (held_by_claim c) (set_response st pl now) t.

Definition fail_idempotency (now : instant) (c : IdempotencyClaim) (t : table) : table :=
  update (held_by_claim c) (fun r => set_claim failed (claim_nonce r) now r) t.

Definition sweep_idempotency (now : instant) (t : table) : nat * table :=
  let p r := expires_at r <? now in (rowcount p t, delete_where p t).

(** ** Invariant: one record per key, and one id per record *)
Definition table_wf (t : table) : Prop := pk_ok id t /\ NoDup (map key_of t).

(** The requests' own statements; the sweep is apart because it forgets. *)
Inductive op_step : table -> table -> Prop :=
| step_claim now rid n sc ro me ke ha t c t' :
    ~ In rid (map id t) ->
    claim_idempotency now rid n sc ro me ke ha t = Ok (c, t') -> op_step t t'
| step_in_doubt now c t t' : mark_idempotency_in_doubt now c t = Ok t' -> op_step t t'
| step_complete now c st pl t : op_step t (complete_idempotency now c st pl t)
| step_fail now c t : op_step t (fail_idempotency now c t).

(** Any number of steps in which every sweep runs at or before [e]. *)
Inductive steps_before (e : instant) : table -> table -> Prop :=
| sb_refl t : steps_before e t t
| sb_op t1 t2 t3 : op_step t1 t2 -> steps_before e t2 t3 -> steps_before e t1 t3
| sb_sweep now t1 t3 :
    now <= e -> steps_before e (snd (sweep_idempotency now t1)) t3 -> steps_before e t1 t3.

(** Any number of steps other than the outcome of the claim [c], in which every sweep
    runs at or before [e]. *)
Inductive steps_of_others (e : instant) (c : IdempotencyClaim) : table -> table -> Prop :=
| so_refl t : steps_of_others e c t t
| so_claim now rid n sc ro me ke ha t1 c' t2 t3 :
    ~ In rid (map id t1) ->
    claim_idempotency now rid n sc ro me ke ha t1 = Ok (c', t2) ->
    steps_of_others e c t2 t3 -> steps_of_others e c t1 t3
| so_in_doubt now c' t1 t2 t3 :
    mark_idempotency_in_doubt now c' t1 = Ok t2 ->
    steps_of_others e c t2 t3 -> steps_of_others e c t1 t3
| so_complete now c' st pl t1 t3 :
    (record_id c', nonce c') <> (record_id c, nonce c) ->
    steps_of_others e c (complete_idempotency now c' st pl t1) t3 -> steps_of_others e c t1 t3
| so_fail now c' t1 t3 :
    (record_id c', nonce c') <> (record_id c, nonce c) ->
    steps_of_others e c (fail_idempotency now c' t1) t3 -> steps_of_others e c t1 t3
| so_sweep now t1 t3 :
    now <= e -> steps_of_others e c (snd (sweep_idempotency now t1)) t3 -> steps_of_others e c t1 t3.

Section Theorems.

Lemma update_keys p f (t : table) :
  (forall r, key_of (f r) = key_of r) -> map key_of (update p f t) = map key_of t.
Proof.
  intros H. unfold update. rewrite map_map. apply map_ext. intros r. destruct (p r); auto.
Qed.

Lemma update_wf p f (t : table) :
  (forall r, id (f r) = id r) -> (forall r, key_of (f r) = key_of r) ->
  table_wf t -> table_wf (update p f t).
Proof.
  intros H1 H2 [Hpk Hk]. split; [by apply update_pk_ok|]. by rewrite update_keys.
Qed.

Lemma same_key (k : string * string * string * string) r :
  bool_decide (key_of r = k) = true <-> key_of r = k.
Proof. apply bool_decide_eq_true. Qed.

Lemma claim_keeps_wf now rid n sc ro me ke ha t c t' :
  ~ In rid (map id t) -> claim_idempotency now rid n sc ro me ke ha t = Ok (c, t') ->
  table_wf t -> table_wf t'.
Proof.
  intros Hf H Hwf. unfold claim_idempotency in H.
  destruct (existsb _ t) eqn:E; simpl in H.
  - destruct (select _ t) as [|found l]; [by injection H as <- <-|].
    destruct (negb _); [discriminate|].
    destruct (rec_status found); try (destruct (lapsed now found); discriminate);
      try (by injection H as <- <-).
    all: destruct (Nat.eqb _ 0); [discriminate|]; injection H as <- <-; by apply update_wf.
  - injection H as <- <-. destruct Hwf as [Hpk Hk]. split; [by apply insert_pk_ok|].
    rewrite map_app. apply NoDup_app. split; [done|]. split; [|apply NoDup_singleton].
    intros k Hin Hk'. apply list_elem_of_singleton in Hk' as ->.
    apply list_elem_of_In, in_map_iff in Hin as (r & Hr & Hin).
    rewrite <- not_true_iff_false in E. apply E. apply existsb_exists. exists r.
    split; [done|]. by apply bool_decide_eq_true.
Qed.

Lemma op_step_wf t t' : op_step t t' -> table_wf t -> table_wf t'.
Proof.
  intros [] Hwf; try by apply update_wf.
  - by eapply claim_keeps_wf.
  - unfold mark_idempotency_in_doubt in H. destruct (Nat.eqb _ 0); [discriminate|].
    injection H as <-. by apply update_wf.
Qed.

Lemma sweep_idempotency_wf now t : table_wf t -> table_wf (snd (sweep_idempotency now t)).
Proof. intros []. split; by apply NoDup_map_filter. Qed.

(** The one record of a key. *)
Lemma select_key k t r :
  table_wf t -> In r t -> key_of r = k -> select (fun x => bool_decide (key_of x = k)) t = [r].
Proof.
  intros [_ Hk] Hr Hkr. induction t as [|x t IH]; [done|]. simpl in *.
  apply NoDup_cons in Hk as [Hn Hk].
  assert (Hno : key_of x = k -> forall y, In y t -> key_of y <> k).
  { intros Ex y Hy Ey. apply Hn, list_elem_of_In. rewrite Ex, <- Ey. by apply in_map. }
  destruct (bool_decide (key_of x = k)) eqn:E.
  - apply bool_decide_eq_true in E. destruct Hr as [->|Hr]; [|by exfalso; eapply Hno].
    f_equal. specialize (Hno E). clear -Hno. induction t as [|y t IH]; [done|]. simpl.
    rewrite bool_decide_false by (apply Hno; by left). apply IH. intros z Hz. apply Hno. by right.
  - apply bool_decide_eq_false in E. destruct Hr as [->|Hr]; [done|]. by apply IH.
Qed.

Lemma existsb_key k (t : table) r :
  In r t -> key_of r = k -> existsb (fun x => bool_decide (key_of x = k)) t = true.
Proof. intros Hr Hk. apply existsb_exists. exists r. split; [done|]. by apply bool_decide_eq_true. Qed.

(** What a claim of a key that has a record [r] answers. *)
Lemma claim_existing now rid n ha t r :
  table_wf t -> In r t ->
  claim_idempotency now rid n (scope_key r) (route r) (method r) (idempotency_key r) ha t
  = if negb (String.eqb (request_hash r) ha) then Err (Problem Conflict "idempotency_key_reused")
    else match rec_status r with
         | in_doubt => if lapsed now r then Err (Problem Conflict "idempotent_request_in_doubt")
                       else Err in_flight
         | completed => Ok (Claim replay (id r) (response_status r) (response_payload r) None, t)
         | _ =>
             let p x := by_id id (id r) x
                        && (bool_decide (rec_status x = failed)
                            || bool_decide (rec_status x = processing) && lapsed now x) in
             if Nat.eqb (rowcount p t) 0 then Err in_flight
             else Ok (Claim fresh (id r) None None (Some n),
                      update p (set_claim processing (Some n) now) t)
         end.
Proof.
  intros Hwf Hr. unfold claim_idempotency.
  change (scope_key r, route r, method r, idempotency_key r) with (key_of r).
  rewrite (existsb_key (key_of r) t r), (select_key (key_of r) t r) by done. simpl.
  by destruct (negb _), (rec_status r).
Qed.

(** A row an UPDATE's WHERE clause does not match stays. *)
Lemma update_keeps p f (t : table) r : In r t -> p r = false -> In r (update p f t).
Proof. intros Hr Hp. apply update_In. exists r. by rewrite Hp. Qed.

(** A claim leaves a record alone unless it is failed, or processing and lapsed. *)
Lemma claim_keeps now rid n sc ro me ke ha t c t' r :
  claim_idempotency now rid n sc ro me ke ha t = Ok (c, t') -> In r t ->
  rec_status r = completed \/ rec_status r = in_doubt -> In r t'.
Proof.
  intros H Hr Hst. unfold claim_idempotency in H. destruct (existsb _ t); simpl in H.
  - destruct (select _ t) as [|found l]; [by injection H as <- <-|].
    destruct (negb _); [discriminate|].
    destruct (rec_status found); try (destruct (lapsed now found); discriminate);
      try (by injection H as <- <-).
    all: destruct (Nat.eqb _ 0); [discriminate|]; injection H as <- <-; apply update_keeps;
      [done|destruct Hst as [-> | ->]; simpl; by rewrite andb_false_r].
  - injection H as <- <-. apply in_or_app. by left.
Qed.

Lemma op_step_keeps_completed t t' r :
  op_step t t' -> In r t -> rec_status r = completed -> In r t'.
Proof.
  intros [] Hr Hst.
  - eapply claim_keeps; eauto.
  - unfold mark_idempotency_in_doubt in H. destruct (Nat.eqb _ 0); [discriminate|].
    injection H as <-. apply update_keeps; [done|]. rewrite Hst. simpl. by rewrite andb_false_r.
  - apply update_keeps; [done|]. unfold held_by_claim. rewrite Hst. simpl. by rewrite andb_false_r.
  - apply update_keeps; [done|]. unfold held_by_claim. rewrite Hst. simpl. by rewrite andb_false_r.
Qed.

Lemma steps_before_keep e t t' r :
  steps_before e t t' -> table_wf t -> In r t -> rec_status r = completed -> e <= expires_at r ->
  In r t' /\ table_wf t'.
Proof.
  induction 1 as [|t1 t2 t3 Hs _ IH|now t1 t3 Hn _ IH]; intros Hwf Hr Hst He; [done| |].
  - apply IH; try done; [by eapply op_step_wf|by eapply op_step_keeps_completed].
  - apply IH; try done; [by apply sweep_idempotency_wf|]. simpl. apply filter_In. split; [done|]. lia.
Qed.

(** A completed request is replayed: until its record expires, whatever other
    requests, claims, failures and sweeps happen in between, the same key with the
    same body is answered with the stored status and payload and changes nothing,
    and the same key with another body is refused. *)
Theorem completed_replays e t t' r now rid n ha :
  table_wf t -> In r t -> rec_status r = completed -> e <= expires_at r ->
  steps_before e t t' ->
  claim_idempotency now rid n (scope_key r) (route r) (method r) (idempotency_key r) ha t'
  = if String.eqb (request_hash r) ha
    then Ok (Claim replay (id r) (response_status r) (response_payload r) None, t')
    else Err (Problem Conflict "idempotency_key_reused").
Proof.
  intros Hwf Hr Hst He Hs. destruct (steps_before_keep e t t' r Hs Hwf Hr Hst He) as [Hr' Hwf'].
  rewrite (claim_existing now rid n ha t' r) by done. rewrite Hst. by destruct (String.eqb _ _).
Qed.

(** The record a claim holds, marked before its side effect. *)
Definition doubted_by (c : IdempotencyClaim) (r : record) : Prop :=
  id r = record_id c /\ rec_status r = in_doubt /\ nonce_is (nonce c) r = true.

Lemma mark_in_doubt_record now c t t' :
  table_wf t -> mark_idempotency_in_doubt now c t = Ok t' ->
  exists r, In r t' /\ doubted_by c r.
Proof.
  intros _ H. unfold mark_idempotency_in_doubt in H.
  destruct (Nat.eqb (rowcount _ t) 0) eqn:E; [discriminate|]. injection H as <-.
  apply Nat.eqb_neq in E. unfold rowcount in E.
  destruct (select _ t) as [|r l] eqn:Es; [done|].
  assert (Hr : In r (select (fun r => by_id id (record_id c) r && bool_decide (rec_status r = processing)
             && nonce_is (nonce c) r) t)) by (rewrite Es; by left).
  apply select_In in Hr as [Hr Hp].
  exists (set_claim in_doubt (claim_nonce r) now r). split.
  - apply update_In. exists r. by rewrite Hp.
  - apply andb_prop in Hp as [Hp Hn]. apply andb_prop in Hp as [Hi _]. unfold by_id in Hi.
    repeat split; [simpl; lia|done].
Qed.

Lemma nonce_is_inj a b r : nonce_is a r = true -> nonce_is b r = true -> a = b.
Proof. unfold nonce_is. destruct a, b, (claim_nonce r); try done. intros. f_equal. lia. Qed.

Lemma steps_of_others_keep e c t t' r :
  steps_of_others e c t t' -> table_wf t -> In r t -> doubted_by c r -> e <= expires_at r ->
  In r t' /\ table_wf t'.
Proof.
  intros Hs Hwf Hr Hd He. pose proof Hd as (Hi & Hst & Hn).
  assert (Hheld : forall c', (record_id c', nonce c') <> (record_id c, nonce c) ->
             held_by_claim c' r = false).
  { intros c' Hne. apply not_true_is_false. unfold held_by_claim, by_id. intros E.
    apply andb_prop in E as [E1 E2]. apply andb_prop in E1 as [E1 _]. apply Hne.
    rewrite (nonce_is_inj (nonce c') (nonce c) r E2 Hn). f_equal. lia. }
  induction Hs as [t|now rid n sc ro me ke ha t1 c' t2 t3 Hf Hc _ IH|now c' t1 t2 t3 Hc _ IH
                  |now c' st pl t1 t3 Hne _ IH|now c' t1 t3 Hne _ IH|now t1 t3 Hn' _ IH]; [done| | | | |].
  - apply IH; [by eapply claim_keeps_wf|]. eapply claim_keeps; eauto.
  - unfold mark_idempotency_in_doubt in Hc. destruct (Nat.eqb _ 0); [discriminate|].
    injection Hc as <-. apply IH; [by apply update_wf|]. apply update_keeps; [done|].
    rewrite Hst. simpl. by rewrite andb_false_r.
  - apply IH; [by apply update_wf|]. apply update_keeps; auto.
  - apply IH; [by apply update_wf|]. apply update_keeps; auto.
  - apply IH; [by apply sweep_idempotency_wf|]. simpl. apply filter_In. split; [done|]. lia.
Qed.

(** C33. A side effect is started at most once per claim while its record is kept: once a
    holder has marked its record in doubt, then until that holder itself reports an
    outcome, whatever other requests, claims, outcomes and sweeps happen up to the
    record's expiry, no claim of the same request is admitted (it is told "in flight",
    or "in doubt" after the lease) and no other holder of the record can mark it, so
    nobody else may start the effect.  A sweep after the expiry does drop the record. *)
Theorem in_doubt_exclusive now c t t1 e t2 :
  table_wf t -> mark_idempotency_in_doubt now c t = Ok t1 ->
  (forall r, In r t1 -> id r = record_id c -> e <= expires_at r) ->
  steps_of_others e c t1 t2 ->
  exists r, In r t2 /\ id r = record_id c /\
    (forall now' rid n ha,
       exists e, claim_idempotency now' rid n (scope_key r) (route r) (method r)
                   (idempotency_key r) ha t2 = Err (Problem Conflict e))
    /\ (forall now' c', record_id c' = record_id c ->
         mark_idempotency_in_doubt now' c' t2 = Err in_flight).
Proof.
  intros Hwf Hm He Hs. destruct (mark_in_doubt_record now c t t1 Hwf Hm) as (r & Hr & Hd).
  assert (Hwf1 : table_wf t1).
  { apply (op_step_wf t); [by eapply step_in_doubt|done]. }
  destruct (steps_of_others_keep e c t1 t2 r Hs Hwf1 Hr Hd (He r Hr (proj1 Hd))) as [Hr2 Hwf2].
  destruct Hd as (Hi & Hst & Hn). exists r. repeat split; try done.
  - intros now' rid n ha. rewrite (claim_existing now' rid n ha t2 r) by done. rewrite Hst.
    destruct (negb _); [by eexists|]. destruct (lapsed now' r); by eexists.
  - intros now' c' Hc. unfold mark_idempotency_in_doubt.
    assert (rowcount (fun r0 => by_id id (record_id c') r0
              && bool_decide (rec_status r0 = processing) && nonce_is (nonce c') r0) t2 = 0%nat) as ->.
    { apply rowcount_0. intros x Hx. destruct (by_id id (record_id c') x) eqn:E; [|done].
      unfold by_id in E. destruct Hwf2 as [Hpk _].
      rewrite (pk_unique id t2 x r) by (try done; lia). by rewrite Hst. }
    done.
Qed.

(** A lapsed claim is fenced off: when another request takes its record over,
    the old holder can no longer mark it in doubt, complete it or fail it. *)
Theorem takeover_fences now rid n sc ro me ke ha t c old t' now' st pl :
  table_wf t -> claim_idempotency now rid n sc ro me ke ha t = Ok (c, t') ->
  ~ In rid (map id t) -> In (record_id old) (map id t) ->
  record_id old = record_id c -> nonce old <> Some n ->
  state c = fresh ->
  mark_idempotency_in_doubt now' old t' = Err in_flight
  /\ complete_idempotency now' old st pl t' = t' /\ fail_idempotency now' old t' = t'.
Proof.
  intros Hwf H Hf Hold Hc Hn Hfr.
  pose proof (claim_keeps_wf now rid n sc ro me ke ha t c t' Hf H Hwf) as [Hpk _].
  assert (exists r, In r t' /\ id r = record_id c /\ claim_nonce r = Some n) as (r & Hr & Hi & Hno).
  { unfold claim_idempotency in H. destruct (existsb _ t); simpl in H.
    - destruct (select _ t) as [|found l].
      { injection H as <- <-. simpl in Hc. rewrite Hc in Hold. done. }
      destruct (negb _); [discriminate|].
      destruct (rec_status found); try (destruct (lapsed now found); discriminate);
        try (injection H as <- <-; discriminate Hfr).
      all: destruct (Nat.eqb (rowcount _ t) 0) eqn:E; [discriminate|]; injection H as <- <-;
        apply Nat.eqb_neq in E; unfold rowcount in E;
        match goal with |- context [update ?p _ ?t0] => destruct (select p t0) as [|x xs] eqn:Es; [done|];
          assert (Hx : In x (select p t0)) by (rewrite Es; by left) end;
        apply select_In in Hx as [Hx Hp]; eexists; (split; [apply update_In; exists x; by rewrite Hp|]);
        unfold by_id in Hp; simpl; split; [lia|done].
    - injection H as <- <-. eexists. split; [apply in_or_app; right; by left|]. done. }
  assert (Hno' : forall x, In x t' -> by_id id (record_id old) x = true -> nonce_is (nonce old) x = false).
  { intros x Hx E. unfold by_id in E. rewrite (pk_unique id t' x r) by (try done; lia).
    unfold nonce_is. rewrite Hno. destruct (nonce old) as [o|]; [|done].
    apply Z.eqb_neq. congruence. }
  assert (Hheld : forall x, In x t' -> held_by_claim old x = false).
  { intros x Hx. unfold held_by_claim. destruct (by_id id (record_id old) x) eqn:E; [|done].
    rewrite (Hno' x Hx E). by rewrite andb_false_r. }
  split; [|split; by apply update_none]. unfold mark_idempotency_in_doubt.
  assert (rowcount (fun r0 => by_id id (record_id old) r0
            && bool_decide (rec_status r0 = processing) && nonce_is (nonce old) r0) t' = 0%nat) as ->;
    [|done].
  apply rowcount_0. intros x Hx. destruct (by_id id (record_id old) x) eqn:E; [|done].
  rewrite (Hno' x Hx E). by rewrite andb_false_r.
Qed.

End Theorems.
(** ** Concrete runs *)
Module Example.
Definition first_claim : IdempotencyClaim := Claim fresh 1 None None (Some 77).
Definition in_progress : table :=
  [Rec 1 "s" "/pay" "POST" "k" "h" processing (Some 77) None None (0 + IDEMPOTENCY_TTL) 0 0].
Definition done_at_5 : table := complete_idempotency 5 first_claim 201 [("ok", JBool true)] in_progress.

Lemma in_progress_wf : table_wf in_progress.
Proof. split; [unfold pk_ok; decided|decided]. Qed.
Lemma done_wf : table_wf done_at_5.
Proof. split; [unfold pk_ok; decided|decided]. Qed.
End Example.
Import Example.

Lemma completed_replays_witness :
  let r := set_response 201 [("ok", JBool true)] 5
             (Rec 1 "s" "/pay" "POST" "k" "h" processing (Some 77) None None (0 + IDEMPOTENCY_TTL) 0 0) in
  let t' := fail_idempotency 9 first_claim done_at_5 in
  claim_idempotency 100 2 78 "s" "/pay" "POST" "k" "h" t'
  = Ok (Claim replay 1 (Some 201) (Some [("ok", JBool true)]) None, t').
Proof.
  exact (completed_replays 1000 done_at_5 (fail_idempotency 9 first_claim done_at_5)
    (set_response 201 [("ok", JBool true)] 5
       (Rec 1 "s" "/pay" "POST" "k" "h" processing (Some 77) None None (0 + IDEMPOTENCY_TTL) 0 0))
    100 2 78 "h" done_wf (or_introl eq_refl) eq_refl ltac:(vm_compute; discriminate)
    (sb_op 1000 _ _ _ (step_fail 9 first_claim done_at_5)
       (sb_refl 1000 (fail_idempotency 9 first_claim done_at_5)))).
Defined.

Lemma in_doubt_exclusive_witness :
  let t1 := update (fun r => by_id id 1 r && bool_decide (rec_status r = processing) && nonce_is (Some 77) r)
              (fun r => set_claim in_doubt (claim_nonce r) 3 r) in_progress in
  let t2 := snd (sweep_idempotency (hours 20) t1) in
  exists r, In r t2 /\ id r = 1 /\
    (forall now' rid n ha,
       exists e, claim_idempotency now' rid n (scope_key r) (route r) (method r)
                   (idempotency_key r) ha t2 = Err (Problem Conflict e))
    /\ (forall now' c', record_id c' = 1 -> mark_idempotency_in_doubt now' c' t2 = Err in_flight).
Proof.
  intros t1 t2. apply (in_doubt_exclusive 3 first_claim in_progress t1 (hours 20) t2 in_progress_wf).
  - vm_compute. reflexivity.
  - intros r [<-|[]] _. vm_compute. discriminate.
  - apply (so_sweep _ _ (hours 20)); [reflexivity|]. apply so_refl.
Defined.

(** The day after, the record is gone and the same request is admitted again. *)
Example swept_after_expiry :
  let t1 := update (by_id id 1) (fun r => set_claim in_doubt (claim_nonce r) 3 r) in_progress in
  sweep_idempotency (hours 25) t1 = (1%nat, []).
Proof. vm_compute. reflexivity. Qed.

Lemma takeover_fences_witness :
  let now := CLAIM_LEASE + 100 in
  let t' := update (fun r => by_id id 1 r && (bool_decide (rec_status r = failed)
                     || bool_decide (rec_status r = processing) && lapsed now r))
              (set_claim processing (Some 78) now) in_progress in
  mark_idempotency_in_doubt (now + 1) first_claim t' = Err in_flight
  /\ complete_idempotency (now + 1) first_claim 200 [] t' = t' /\ fail_idempotency (now + 1) first_claim t' = t'.
Proof.
  intros now t'. apply (takeover_fences (CLAIM_LEASE + 100) 2 78 "s" "/pay" "POST" "k" "h" in_progress
           (Claim fresh 1 None None (Some 78)) first_claim t' (CLAIM_LEASE + 100 + 1) 200 [] in_progress_wf).
  - vm_compute. reflexivity.
  - simpl. lia.
  - left. reflexivity.
  - reflexivity.
  - discriminate.
  - reflexivity.
Defined.

End Idempotency.

(** * The webhook inbox *)
Module Inbox.

Inductive status := processing | enqueued | processed | failed.
#[export] Instance status_eq_dec : EqDecision status.
Proof. solve_decision. Defined.

Record event := Ev {
  id : uuid;
  provider : string;
  event_key : string;
  payload_hash : string;
  event_name : option string;
  ev_status : status;
  duplicate_count : Z;
  enqueued_at : option instant;
  processed_at : option instant;
  last_error : option string;
  created_at : instant;
  updated_at : instant
}.

Abbreviation table := (list event) (only parsing).
Definition key_of (r : event) : string * string := (provider r, event_key r).

Definition set_status s now (r : event) : event :=
  Ev (id r) (provider r) (event_key r) (payload_hash r) (event_name r) s (duplicate_count r)
     (enqueued_at r) (processed_at r) (last_error r) (created_at r) now.
Definition set_enqueued now (r : event) : event :=
  Ev (id r) (provider r) (event_key r) (payload_hash r) (event_name r) enqueued (duplicate_count r)
     (Some now) (processed_at r) (last_error r) (created_at r) now.
Definition set_processed now (r : event) : event :=
  Ev (id r) (provider r) (event_key r) (payload_hash r) (event_name r) processed (duplicate_count r)
     (enqueued_at r) (Some now) (last_error r) (created_at r) now.
Definition set_failed e now (r : event) : event :=
  Ev (id r) (provider r) (event_key r) (payload_hash r) (event_name r) failed (duplicate_count r)
     (enqueued_at r) (processed_at r) (Some e) (created_at r) now.
(** [updated_at] moves only when the row is not being worked on, so a burst of
    duplicates cannot keep a dead holder's lease alive. *)
Definition count_duplicate now (r : event) : event :=
  Ev (id r) (provider r) (event_key r) (payload_hash r) (event_name r) (ev_status r)
     (duplicate_count r + 1) (enqueued_at r) (processed_at r) (last_error r) (created_at r)
     (if bool_decide (ev_status r = processing) then updated_at r else now).

Inductive claim_state := claimed | duplicate.
Record InboxClaim := Claim { state : claim_state; row_id : uuid }.

Definition lapsed (now : instant) (r : event) : bool := updated_at r <? now - CLAIM_LEASE.

Definition retryable (i : uuid) (now : instant) (r : event) : bool :=
  by_id id i r && (bool_decide (ev_status r = failed)
                   || bool_decide (ev_status r = processing) && lapsed now r).

Definition claim_inbox_event (now : instant) (rid : uuid) (provider_ key hash : string)
    (name : option string) (t : table) : result (InboxClaim * table) :=
  let same r := bool_decide (key_of r = (provider_, key)) in
  if negb (existsb same t) then
    Ok (Claim claimed rid,
        t ++ [Ev rid provider_ key hash name processing 0 None None None now now])
  else
    match select same t with
    | [] => Ok (Claim claimed rid, t)
    | found :: _ =>
        if negb (String.eqb (payload_hash found) hash)
        then Err (Problem Conflict "webhook_payload_mismatch")
        else
          let p := retryable (id found) now in
          if (bool_decide (ev_status found = failed) || bool_decide (ev_status found = processing))
             && negb (Nat.eqb (rowcount p t) 0)
          then Ok (Claim claimed (id found), update p (set_status processing now) t)
          else Ok (Claim duplicate (id found),
                   update (by_id id (id found)) (count_duplicate now) t)
    end.

Definition mark_inbox_enqueued (now : instant) (i : uuid) (t : table) : table :=
  update (fun r => by_id id i r && bool_decide (ev_status r = processing)) (set_enqueued now) t.

(** [status IN ('processing', 'enqueued')]. *)
Definition inbox_open (r : event) : bool :=
  bool_decide (ev_status r = processing) || bool_decide (ev_status r = enqueued).

Definition mark_inbox_processed (now : instant) (i : uuid) (t : table) : table :=
  update (fun r => by_id id i r && inbox_open r) (set_processed now) t.

Section Stored.
(** What may be stored of an error: [_stored_error], the logging module's redaction. *)
Context (stored_error : string -> string).

Definition mark_inbox_failed (now : instant) (i : uuid) (error_ : string) (t : table) : table :=
  update (fun r => by_id id i r && inbox_open r) (set_failed (stored_error error_) now) t.

Definition table_wf (t : table) : Prop := pk_ok id t /\ NoDup (map key_of t).

Inductive step : table -> table -> Prop :=
| step_claim now rid pr ke ha na t c t' :
    ~ In rid (map id t) -> claim_inbox_event now rid pr ke ha na t = Ok (c, t') -> step t t'
| step_enqueued now i t : step t (mark_inbox_enqueued now i t)
| step_processed now i t : step t (mark_inbox_processed now i t)
| step_failed now i e t : step t (mark_inbox_failed now i e t).

Inductive steps : table -> table -> Prop :=
| steps_refl t : steps t t
| steps_step t1 t2 t3 : step t1 t2 -> steps t2 t3 -> steps t1 t3.

Section Theorems.

Lemma inbox_update_wf p f (t : table) :
  (forall r, id (f r) = id r) -> (forall r, key_of (f r) = key_of r) ->
  table_wf t -> table_wf (update p f t).
Proof.
  intros H1 H2 [Hpk Hk]. split; [by apply update_pk_ok|].
  unfold update. rewrite map_map.
  rewrite (map_ext _ key_of); [done|]. intros r. destruct (p r); auto.
Qed.

Lemma inbox_insert_wf (t : table) r :
  ~ In (id r) (map id t) -> existsb (fun x => bool_decide (key_of x = key_of r)) t = false ->
  table_wf t -> table_wf (t ++ [r]).
Proof.
  intros Hf E [Hpk Hk]. split; [by apply insert_pk_ok|].
  rewrite map_app. apply NoDup_app. split; [done|]. split; [|apply NoDup_singleton].
  intros k Hin Hk'. apply list_elem_of_singleton in Hk' as ->.
  apply list_elem_of_In, in_map_iff in Hin as (x & Hx & Hin).
  rewrite <- not_true_iff_false in E. apply E. apply existsb_exists. exists x.
  split; [done|]. by apply bool_decide_eq_true.
Qed.

Lemma inbox_step_wf t t' : step t t' -> table_wf t -> table_wf t'.
Proof.
  intros [] Hwf; try by apply inbox_update_wf.
  unfold claim_inbox_event in H0. destruct (existsb _ _) eqn:E; simpl in H0.
  - destruct (select _ _) as [|found l]; [by injection H0 as <- <-|].
    destruct (negb _); [discriminate|].
    destruct (_ && _); injection H0 as <- <-; by apply inbox_update_wf.
  - injection H0 as <- <-. by apply inbox_insert_wf.
Qed.

Lemma inbox_select_key k t r :
  table_wf t -> In r t -> key_of r = k -> select (fun x => bool_decide (key_of x = k)) t = [r].
Proof.
  intros [_ Hk] Hr Hkr. induction t as [|x t IH]; [done|]. simpl in *.
  apply NoDup_cons in Hk as [Hn Hk].
  assert (Hno : key_of x = k -> forall y, In y t -> key_of y <> k).
  { intros Ex y Hy Ey. apply Hn, list_elem_of_In. rewrite Ex, <- Ey. by apply in_map. }
  destruct (bool_decide (key_of x = k)) eqn:E.
  - apply bool_decide_eq_true in E. destruct Hr as [->|Hr]; [|by exfalso; eapply Hno].
    f_equal. specialize (Hno E). clear -Hno. induction t as [|y t IH]; [done|]. simpl.
    rewrite bool_decide_false by (apply Hno; by left). apply IH. intros z Hz. apply Hno. by right.
  - apply bool_decide_eq_false in E. destruct Hr as [->|Hr]; [done|]. by apply IH.
Qed.

(** What a claim of a known event answers. *)
Lemma inbox_claim_existing now rid na ha t r :
  table_wf t -> In r t ->
  claim_inbox_event now rid (provider r) (event_key r) ha na t
  = if negb (String.eqb (payload_hash r) ha) then Err (Problem Conflict "webhook_payload_mismatch")
    else if (bool_decide (ev_status r = failed) || bool_decide (ev_status r = processing))
            && negb (Nat.eqb (rowcount (retryable (id r) now) t) 0)
         then Ok (Claim claimed (id r), update (retryable (id r) now) (set_status processing now) t)
         else Ok (Claim duplicate (id r), update (by_id id (id r)) (count_duplicate now) t).
Proof.
  intros Hwf Hr. unfold claim_inbox_event. change (provider r, event_key r) with (key_of r).
  rewrite (inbox_select_key (key_of r) t r) by done.
  destruct (existsb _ t) eqn:E; [done|]. exfalso. rewrite <- not_true_iff_false in E. apply E.
  apply existsb_exists. exists r. split; [done|]. by apply bool_decide_eq_true.
Qed.

(** An event that was handled, or handed to a worker. *)
Definition closed_for (i : uuid) (k : string * string) (h : string) (t : table) : Prop :=
  exists r, In r t /\ id r = i /\ key_of r = k /\ payload_hash r = h /\ ev_status r = processed.

Lemma closed_update p f i k h (t : table) :
  closed_for i k h t ->
  (forall r, ev_status r = processed -> p r = true ->
     id (f r) = id r /\ key_of (f r) = key_of r /\ payload_hash (f r) = payload_hash r
     /\ ev_status (f r) = processed) ->
  closed_for i k h (update p f t).
Proof.
  intros (r & Hr & Hi & Hk & Hh & Hs) Hf. destruct (p r) eqn:E.
  - destruct (Hf r Hs E) as (H1 & H2 & H3 & H4). exists (f r).
    repeat split; try congruence. apply update_In. exists r. by rewrite E.
  - exists r. repeat split; try done. apply update_In. exists r. by rewrite E.
Qed.

Lemma closed_step i k h t t' : step t t' -> closed_for i k h t -> closed_for i k h t'.
Proof.
  assert (Hopen : forall x, ev_status x = processed -> inbox_open x = false)
    by (intros x Hx; unfold inbox_open; by rewrite Hx).
  intros [] Hc.
  - unfold claim_inbox_event in H0. destruct (existsb _ _); simpl in H0.
    + destruct (select _ _) as [|found l]; [by injection H0 as <- <-|].
      destruct (negb _); [discriminate|].
      destruct (_ && _); injection H0 as <- <-; apply closed_update; try done.
      intros x Hx E. unfold retryable in E. rewrite Hx in E. simpl in E. by rewrite andb_false_r in E.
    + injection H0 as <- <-. destruct Hc as (r & Hr & ?). exists r. split; [|done].
      apply in_or_app. by left.
  - apply closed_update; [done|]. intros x Hx E. rewrite Hx in E. by rewrite andb_false_r in E.
  - apply closed_update; [done|]. intros x Hx E. rewrite Hopen in E by done.
    by rewrite andb_false_r in E.
  - apply closed_update; [done|]. intros x Hx E. rewrite Hopen in E by done.
    by rewrite andb_false_r in E.
Qed.

Lemma closed_steps i k h t t' :
  steps t t' -> table_wf t -> closed_for i k h t -> closed_for i k h t' /\ table_wf t'.
Proof.
  induction 1 as [|t1 t2 t3 Hs _ IH]; [done|]. intros Hwf Hc.
  apply IH; [by eapply inbox_step_wf|by eapply closed_step].
Qed.


(** Two deliveries of one event are never both claimed while the first holder's
    lease runs: a second claim before the lease lapses, with no outcome in
    between, is answered "duplicate" and does not extend the lease. *)
Theorem claim_exclusive now now' rid rid' na na' pr ke ha t c t1 :
  table_wf t -> ~ In rid (map id t) -> now' <= now + CLAIM_LEASE ->
  claim_inbox_event now rid pr ke ha na t = Ok (c, t1) -> state c = claimed ->
  exists t2, claim_inbox_event now' rid' pr ke ha na' t1 = Ok (Claim duplicate (row_id c), t2)
    /\ exists r, In r t2 /\ id r = row_id c /\ ev_status r = processing /\ updated_at r = now.
Proof.
  intros Hwf Hf Hn H Hc.
  assert (Hwf1 : table_wf t1) by (eapply inbox_step_wf; [by eapply step_claim|done]).
  assert (exists r, In r t1 /\ id r = row_id c /\ key_of r = (pr, ke) /\ payload_hash r = ha
                    /\ ev_status r = processing /\ updated_at r = now)
    as (r & Hr & Hi & Hk & Hh & Hst & Hu).
  { unfold claim_inbox_event in H. destruct (existsb _ t) eqn:Eex; simpl in H.
    - destruct (select _ t) as [|found l] eqn:Esel.
      { exfalso. apply existsb_exists in Eex as (x & Hx & Hp).
        assert (Hin : In x (select (fun r => bool_decide (key_of r = (pr, ke))) t)) by (by apply select_In).
        by rewrite Esel in Hin. }
      destruct (negb (String.eqb _ _)) eqn:Eh; [discriminate|].
      destruct (_ && _) eqn:Eg; injection H as <- <-; [|discriminate Hc].
      apply andb_prop in Eg as [_ Eg]. apply negb_true_iff, Nat.eqb_neq in Eg.
      unfold rowcount in Eg.
      destruct (select (retryable (id found) now) t) as [|x xs] eqn:Es; [done|].
      assert (Hx : In x (select (retryable (id found) now) t)) by (rewrite Es; by left).
      apply select_In in Hx as [Hx Hp].
      assert (Hin : In found (select (fun r => bool_decide (key_of r = (pr, ke))) t))
        by (rewrite Esel; by left).
      apply select_In in Hin as [Hfi Hfk]. apply bool_decide_eq_true in Hfk.
      assert (x = found) as ->.
      { unfold retryable, by_id in Hp. apply andb_prop in Hp as [Hp _].
        destruct Hwf as [Hpk _]. apply (pk_unique id t); try done. lia. }
      exists (set_status processing now found). split; [apply update_In; exists found; by rewrite Hp|].
      apply negb_false_iff, String.eqb_eq in Eh. done.
    - injection H as <- <-. eexists. split; [apply in_or_app; right; by left|]. done. }
  unfold key_of in Hk. injection Hk as <- <-. subst ha.
  rewrite (inbox_claim_existing now' rid' na' _ t1 r) by done. rewrite String.eqb_refl. simpl negb. cbv iota.
  assert (rowcount (retryable (id r) now') t1 = 0%nat) as ->.
  { apply rowcount_0. intros x Hx. unfold retryable. destruct (by_id id (id r) x) eqn:E; [|done].
    unfold by_id in E. destruct Hwf1 as [Hpk _].
    rewrite (pk_unique id t1 x r) by (try done; lia). rewrite Hst. simpl.
    unfold lapsed. lia. }
  rewrite andb_false_r. rewrite <- Hi. eexists. split; [done|].
  exists (count_duplicate now' r). split.
  - apply update_In. exists r. unfold by_id. by rewrite Z.eqb_refl.
  - simpl. rewrite Hst. done.
Qed.

End Theorems.
End Stored.
(** ** Concrete runs *)
Module Example.
Definition delivery : event := Ev 1 "razorpay" "evt" "h" None processing 0 None None None 0 0.
Definition handled : event := set_processed 5 delivery.
Definition redact (e : string) : string := String.substring 0 500 e.

Lemma empty_wf : table_wf [].
Proof. split; [unfold pk_ok; decided|decided]. Qed.
Lemma handled_wf : table_wf [handled].
Proof. split; [unfold pk_ok; decided|decided]. Qed.
End Example.
Import Example.


Lemma claim_exclusive_witness :
  exists t2, claim_inbox_event 10 2 "razorpay" "evt" "h" None [delivery] = Ok (Claim duplicate 1, t2)
    /\ exists r, In r t2 /\ id r = 1 /\ ev_status r = processing /\ updated_at r = 0.
Proof.
  apply (claim_exclusive redact 0 10 1 2 None None "razorpay" "evt" "h" [] (Claim claimed 1) [delivery] empty_wf).
  - simpl. tauto.
  - vm_compute. discriminate.
  - reflexivity.
  - reflexivity.
Defined.

End Inbox.
