(* ===== verification/WalletDb.v ===== *)
(** * The tables a prepaid wallet lives in

    apps/api/billing/models.py ([credit_ledger], [credit_lots]), the
    organization's low-balance line, and the outbox the billing code enqueues
    into.  A computation is a [tx] over [db]; an exception is the session's
    rollback.  [rls] is the tenant the session runs as (row-level security).  The
    clock and the generator of [uuid7()] (the uuid_utils package) are streams, of
    which nothing is assumed here; [order_ok] states what their users rely on. *)

From Stdlib Require Import ZArith Lia List QArith Lqa Sorted.
From stdpp Require Import base list strings.
From S2P Require Import Prelude PyDecimal Sql Outbox.

Local Open Scope string_scope.
Local Open Scope list_scope.
Local Open Scope Z_scope.

(** ** References

    A [ref] is built with f-strings from words, ids and paise amounts joined by
    colons; it is kept as the list of its parts. *)
Inductive part := PWord (s : string) | PId (i : uuid) | PDec (q : Q).
Abbreviation ref := (list part) (only parsing).

#[export] Instance Q_eq_dec : EqDecision Q.
Proof. solve_decision. Defined.
#[export] Instance part_eq_dec : EqDecision part.
Proof. solve_decision. Defined.

(** ** Rows *)
Record entry := Entry {
  e_id : uuid;
  e_tenant : uuid;
  e_delta : Q;
  e_reason : string;
  e_ref : option ref;
  e_balance_after : Q;
  e_occurred_at : instant;
  e_meta : list (string * jval)   (* empty: SQL NULL *)
}.

Record lot := Lot {
  l_id : uuid;
  l_tenant : uuid;
  source : string;
  pack_id : option string;
  override_of_pack_id : option string;
  credits_total : Q;
  credits_remaining : Q;
  clear_inr_per_min : Q;
  studio_inr_per_min : Q;
  ledger_entry_id : uuid;
  opened_at : instant;
  closed_at : option instant;
  expires_at : option instant
}.

Record db := Db {
  rls : uuid;
  now : instant;                    (* now(): the transaction's start *)
  ticks : nat -> instant;           (* what the coming reads of clock_timestamp() give *)
  ids : nat -> uuid;                (* what the coming calls of uuid7() give *)
  credit_ledger : list entry;
  credit_lots : list lot;
  low_balance_lines : list (uuid * option Q);   (* organizations: id, low_balance_alert_inr *)
  outbox_messages : list Outbox.row
}.

Definition with_ledger l (s : db) : db :=
  Db (rls s) (now s) (ticks s) (ids s) l (credit_lots s) (low_balance_lines s) (outbox_messages s).
Definition with_lots l (s : db) : db :=
  Db (rls s) (now s) (ticks s) (ids s) (credit_ledger s) l (low_balance_lines s) (outbox_messages s).
Definition with_lines l (s : db) : db :=
  Db (rls s) (now s) (ticks s) (ids s) (credit_ledger s) (credit_lots s) l (outbox_messages s).
Definition with_outbox o (s : db) : db :=
  Db (rls s) (now s) (ticks s) (ids s) (credit_ledger s) (credit_lots s) (low_balance_lines s) o.
Definition tick (s : db) : db :=
  Db (rls s) (now s) (fun n => ticks s (S n)) (ids s) (credit_ledger s) (credit_lots s)
     (low_balance_lines s) (outbox_messages s).
Definition drop_id (s : db) : db :=
  Db (rls s) (now s) (ticks s) (fun n => ids s (S n)) (credit_ledger s) (credit_lots s)
     (low_balance_lines s) (outbox_messages s).

Open Scope tx_scope.

Definition uuid7 : tx db uuid := i ← gets (fun s => ids s 0%nat) ; modify drop_id ;; ret i.

(** One read of the clock: [clock_timestamp()], or Python's [datetime.now(UTC)]. *)
Definition clock_timestamp : tx db instant :=
  t ← gets (fun s => ticks s 0%nat) ; modify tick ;; ret t.

(** ** NUMERIC(12,4)

    PostgreSQL rounds half away from zero to four places and refuses eight
    integer digits or more. *)
Definition numeric_limit : Q := inject_Z (10 ^ 8).
Definition numeric_12_4 (q : Q) : result Q :=
  let r := quantize MONEY_SCALE ROUND_HALF_UP q in
  if dlt r numeric_limit && dlt (- numeric_limit) r then Ok r else Err NumericOverflow.

(** [_money] of billing/lots.py: [quantize(MONEY_Q, rounding=ROUND_HALF_UP)]. *)
Definition money (q : Q) : Q := quantize MONEY_SCALE ROUND_HALF_UP q.
(** [_minutes] of billing/lots.py: rounded down. *)
Definition minutes_q (q : Q) : Q := quantize MONEY_SCALE ROUND_DOWN q.
(** [to_paise] of billing/service.py. *)
Definition to_paise (q : Q) : Q := quantize PAISE_SCALE ROUND_HALF_UP q.

(** ** The ledger's unique keys *)
(** 2026-08-11 08:07:00 UTC. *)
Definition LEDGER_KEY_SINCE : instant := 1786435620 * 1000000.

(** The rows under a partial unique index on [(tenant_id, reason, ref)]: topup,
    usage and adjustment from the cutoff on; bonus, refund and grant always. *)
Definition indexed (e : entry) : bool :=
  match e_ref e with
  | None => false
  | Some _ =>
      bool_decide (e_reason e ∈ ["bonus"; "refund"; "grant"])
      || bool_decide (e_reason e ∈ ["topup"; "usage"; "adjustment"])
         && (LEDGER_KEY_SINCE <=? e_occurred_at e)
  end.

Definition same_ledger_key (a b : entry) : bool :=
  (e_tenant a =? e_tenant b) && bool_decide (e_reason a = e_reason b)
  && bool_decide (e_ref a = e_ref b).

Definition CREDIT_REASONS : list string :=
  ["topup"; "usage"; "adjustment"; "refund"; "bonus"; "grant"].
Definition LOT_SOURCES : list string :=
  ["topup"; "grant"; "bonus_legacy"; "migration"; "override"].

(** The row-level security policy's check on an inserted row. *)
Definition own_tenant (tenant : uuid) : tx db unit :=
  r ← gets rls ;
  if tenant =? r then ret tt else raise (CheckViolation "row_level_security").

Definition insert_entry (e : entry) : tx db unit :=
  own_tenant (e_tenant e) ;;
  t ← gets credit_ledger ;
  if negb (bool_decide (e_reason e ∈ CREDIT_REASONS)) then raise (CheckViolation "reason_enum")
  else if indexed e && existsb (fun x => indexed x && same_ledger_key e x) t
  then raise (UniqueViolation "ux_credit_ledger_tenant_reason_ref")
  else modify (with_ledger (t ++ [e])).

(** ** The lots' constraints *)
Definition lot_ok (l : lot) : bool :=
  dlt 0 (credits_total l) && dle 0 (credits_remaining l)
  && dle (credits_remaining l) (credits_total l)
  && dlt 0 (clear_inr_per_min l) && dle (clear_inr_per_min l) (studio_inr_per_min l).

(** The amounts fit NUMERIC(12,4). *)
Definition fits (q : Q) : bool := dlt q numeric_limit && dlt (- numeric_limit) q.
Definition lot_fits (l : lot) : bool := fits (credits_total l) && fits (credits_remaining l).

Definition insert_lot (l : lot) : tx db unit :=
  own_tenant (l_tenant l) ;;
  t ← gets credit_lots ;
  entries ← gets credit_ledger ;
  if negb (bool_decide (source l ∈ LOT_SOURCES)) then raise (CheckViolation "source_enum")
  else if negb (existsb (fun e => e_id e =? ledger_entry_id l) entries)
  then raise (CheckViolation "credit_lots_ledger_entry_id_fkey")
  else if negb (lot_ok l) then raise (CheckViolation "credit_lots")
  else if existsb (fun x => ledger_entry_id x =? ledger_entry_id l) t
  then raise (UniqueViolation "credit_lots_ledger_entry_id_key")
  else modify (with_lots (t ++ [l])).

(** An UPDATE of [credit_lots] under row-level security: the row count, or the
    column type or constraint one of the rewritten rows breaks. *)
Definition update_lots (p : lot -> bool) (f : lot -> lot) : tx db nat :=
  tenant ← gets rls ;
  t ← gets credit_lots ;
  let q r := (l_tenant r =? tenant) && p r in
  if existsb (fun r => negb (lot_fits (f r))) (select q t) then raise NumericOverflow
  else if existsb (fun r => negb (lot_ok (f r))) (select q t) then raise (CheckViolation "credit_lots")
  else modify (with_lots (update q f t)) ;; ret (rowcount q t).

(** ** Balances and positions, as the specifications speak of them *)

(** What the ledger's rows of a tenant come to. *)
Definition ledger_sum (tenant : uuid) (t : list entry) : Q :=
  sum_over (fun e => if e_tenant e =? tenant then e_delta e else 0%Q) t.

(** What a tenant's lots still hold. *)
Definition lots_sum (tenant : uuid) (t : list lot) : Q :=
  sum_over (fun l => if l_tenant l =? tenant then credits_remaining l else 0%Q) t.

(** The lots are sound rows: the CHECKs, the column's scale, closed when empty. *)
Record lot_wf (l : lot) : Prop := LotWf {
  lw_ok : lot_ok l = true;
  lw_fits : (credits_total l < numeric_limit)%Q;
  lw_total : is_money (credits_total l);
  lw_remaining : is_money (credits_remaining l);
  lw_clear : is_money (clear_inr_per_min l);
  lw_studio : is_money (studio_inr_per_min l);
  lw_closed : closed_at l <> None <-> (credits_remaining l == 0)%Q
}.

Definition lots_wf (t : list lot) : Prop := pk_ok l_id t /\ Forall lot_wf t.

Lemma numeric_12_4_money q : is_money q -> (- numeric_limit < q)%Q -> (q < numeric_limit)%Q ->
  exists r, numeric_12_4 q = Ok r /\ (r == q)%Q.
Proof.
  intros Hm H1 H2. unfold numeric_12_4. pose proof (quantize_money ROUND_HALF_UP q Hm) as E.
  destruct (dlt_spec (quantize MONEY_SCALE ROUND_HALF_UP q) numeric_limit) as [A|A];
    [|rewrite E in A; contradiction].
  destruct (dlt_spec (- numeric_limit) (quantize MONEY_SCALE ROUND_HALF_UP q)) as [B|B];
    [|rewrite E in B; contradiction].
  eexists. split; [reflexivity|done].
Qed.

Lemma numeric_12_4_ok q r :
  numeric_12_4 q = Ok r ->
  is_money r /\ (- numeric_limit < r)%Q /\ (r < numeric_limit)%Q
  /\ (is_money q -> (r == q)%Q).
Proof.
  unfold numeric_12_4. intros H. destruct (_ && _) eqn:E; [|discriminate].
  injection H as <-. apply andb_prop in E as [E1 E2]. dcase.
  repeat split; try done; [apply is_money_quantize|apply quantize_money].
Qed.

(** A tenant's database before anything was written. *)
Definition blank_db (tenant : uuid) : db :=
  Db tenant 0 Z.of_nat Z.of_nat [] [] [] [].
