(* ===== verification/RateCard.v ===== *)
(** * The rate card: what a minute costs, per pack and per voice

    apps/api/billing/credit_packs.py (the catalogue of packs),
    apps/api/billing/list_rates.py ([platform_list_rates], the append-only table
    of dated rates with its cancellations) and the [LotRates]/[RateCard] classes of
    apps/api/billing/service.py. *)

From Stdlib Require Import ZArith Lia List QArith Lqa Sorted Ascii String.
From stdpp Require Import base list strings gmap.
From S2P Require Import Prelude PyDecimal Sql WalletDb.

Local Open Scope string_scope.
Local Open Scope list_scope.
Local Open Scope Z_scope.

(** ** Voice tiers ([billing/rates.py]) *)
Definition VALUE_VOICE_TIER : string := "clear".
Definition PREMIUM_VOICE_TIER : string := "studio".
Definition VOICE_TIERS : list string := [VALUE_VOICE_TIER; PREMIUM_VOICE_TIER].

(** The tier a stored token names: today's spellings and the two of before the
    rename. *)
Definition stored_voice_tier (name : string) : option string :=
  if String.eqb name VALUE_VOICE_TIER then Some VALUE_VOICE_TIER
  else if String.eqb name PREMIUM_VOICE_TIER then Some PREMIUM_VOICE_TIER
  else if String.eqb name "sarvam" then Some VALUE_VOICE_TIER
  else if String.eqb name "cartesia" then Some PREMIUM_VOICE_TIER
  else None.

(** [service.LotRates] and its [rate_for]. *)
Record LotRates := MkRates { r_clear : Q; r_studio : Q }.
Definition rates_for (r : LotRates) (tier : string) : result Q :=
  if String.eqb tier VALUE_VOICE_TIER then Ok (r_clear r)
  else if String.eqb tier PREMIUM_VOICE_TIER then Ok (r_studio r)
  else Err ValueError.

Module RateCard.

(** ** The catalogue *)

Record CreditPack := Pack {
  pack_id : string;
  amount_inr : Q;
  pk_clear : Q;
  pk_studio : Q;
  bonus_pct : Q
}.

Definition inr_per_min (p : CreditPack) (voice : string) : result Q :=
  if String.eqb voice VALUE_VOICE_TIER then Ok (pk_clear p)
  else if String.eqb voice PREMIUM_VOICE_TIER then Ok (pk_studio p)
  else Err ValueError.

Definition CREDIT_INR : Q := 1.
Definition paid_credits (p : CreditPack) : Q :=
  quantize MONEY_SCALE ROUND_HALF_UP (dmul (amount_inr p) CREDIT_INR).
Definition bonus_credits (p : CreditPack) : Q :=
  quantize MONEY_SCALE ROUND_HALF_UP (ddiv (dmul (paid_credits p) (bonus_pct p)) (inject_Z 100)).
Definition total_credits (p : CreditPack) : Q := dadd (paid_credits p) (bonus_credits p).

Definition PACK_CATALOGUE : list CreditPack :=
  [Pack "starter" (inject_Z 2000) (9 # 2) (inject_Z 6) 0;
   Pack "growth" (inject_Z 5000) (9 # 2) (inject_Z 6) 0;
   Pack "scale" (inject_Z 10000) (9 # 2) (inject_Z 6) 0;
   Pack "plus" (inject_Z 15000) (9 # 2) (inject_Z 6) 0;
   Pack "pro" (inject_Z 25000) (9 # 2) (inject_Z 6) 0;
   Pack "max" (inject_Z 50000) (9 # 2) (inject_Z 6) 0].

(** [dict(...).get]: the last pack of an id, were there two. *)
Definition pack_by_id (i : string) : option CreditPack :=
  last (List.filter (fun p => String.eqb (pack_id p) i) PACK_CATALOGUE).

Definition pack_paid_for (i : option string) (amount : Q) : option CreditPack :=
  match i with
  | None => None
  | Some i => match pack_by_id i with
              | Some p => if deq (amount_inr p) amount then Some p else None
              | None => None
              end
  end.

Definition pack_talk_time_minutes (p : CreditPack) (voice : string) : result Q :=
  match inr_per_min p voice with Ok r => Ok (ddiv (total_credits p) r) | Err e => Err e end.

(** The first pack of the smallest, and of the largest, amount: Python's [min] and
    [max] with a key keep the first of equals. *)
Fixpoint min_pack (p : CreditPack) (ps : list CreditPack) : CreditPack :=
  match ps with
  | [] => p
  | q :: ps => min_pack (if dlt (amount_inr q) (amount_inr p) then q else p) ps
  end.
Fixpoint max_pack (p : CreditPack) (ps : list CreditPack) : CreditPack :=
  match ps with
  | [] => p
  | q :: ps => max_pack (if dlt (amount_inr p) (amount_inr q) then q else p) ps
  end.

(** ** [RateCard]: the cells of the card at an instant *)

Abbreviation cells := (string -> LotRates) (only parsing).

Definition of_pack (card : cells) (p : CreditPack) : LotRates := card (pack_id p).
Definition smallest_pack : CreditPack :=
  match PACK_CATALOGUE with p :: ps => min_pack p ps | [] => Pack "" 0 0 0 0 end.
Definition list_rates (card : cells) : LotRates := of_pack card smallest_pack.

Definition for_amount (card : cells) (amount : Q) : LotRates :=
  match List.filter (fun p => dle (amount_inr p) amount) PACK_CATALOGUE with
  | [] => list_rates card
  | p :: ps => of_pack card (max_pack p ps)
  end.

Definition for_purchase (card : cells) (i : option string) (amount : Q) : LotRates :=
  match pack_paid_for i amount with
  | None => for_amount card amount
  | Some p => of_pack card p
  end.

(** ** The table of dated rates *)

Record rate_row := RateRow { rate_key : string; effective_from : instant; inr_amount : Q }.
Record rates_db := RatesDb { list_rate_rows : list rate_row; cancelled : list instant }.

Definition SELF_SERVE_PER_MIN : string := "self_serve_inr_per_min".
Definition PACK_RATE_KEY_PREFIX : string := "pack".

Definition pack_rate_key (i voice : string) : string :=
  PACK_RATE_KEY_PREFIX +:+ ":" +:+ i +:+ ":" +:+ voice.

(** [str.partition(":")] and [str.rpartition(":")]: the text before and after the
    first, or the last, colon; for the latter nothing before when there is none. *)
Fixpoint partition_colon (s : string) : string * string :=
  match s with
  | EmptyString => (EmptyString, EmptyString)
  | String c s' =>
      if Ascii.eqb c ":"%char then (EmptyString, s')
      else let '(a, b) := partition_colon s' in (String c a, b)
  end.
Fixpoint has_colon (s : string) : bool :=
  match s with
  | EmptyString => false
  | String c s' => Ascii.eqb c ":"%char || has_colon s'
  end.
Fixpoint rpartition_colon (s : string) : string * string :=
  match s with
  | EmptyString => (EmptyString, EmptyString)
  | String c s' =>
      if has_colon s' then let '(a, b) := rpartition_colon s' in (String c a, b)
      else if Ascii.eqb c ":"%char then (EmptyString, s')
      else (EmptyString, String c s')
  end.

Definition parse_pack_rate_key (key : string) : option (string * string) :=
  let '(prefix, rest) := partition_colon key in
  let '(i, name) := rpartition_colon rest in
  match stored_voice_tier name with
  | Some voice => if negb (String.eqb prefix PACK_RATE_KEY_PREFIX) || String.eqb i "" then None
                  else Some (i, voice)
  | None => None
  end.

Definition is_cancelled (t : rates_db) (at_ : instant) : bool := bool_decide (at_ ∈ cancelled t).

(** The rows a reader at [at_] sees. *)
Definition in_force (t : rates_db) (at_ : instant) (r : rate_row) : bool :=
  (effective_from r <=? at_) && negb (is_cancelled t (effective_from r)).

(** [rate_key LIKE 'pack:%']. *)
Definition pack_key (r : rate_row) : bool := String.prefix "pack:" (rate_key r).

(** [ORDER BY rate_key, effective_from DESC]. *)
Definition by_key_recent (x y : rate_row) : bool :=
  if String.eqb (rate_key x) (rate_key y) then effective_from y <=? effective_from x
  else String.leb (rate_key x) (rate_key y).

(** [DISTINCT ON (rate_key)] over rows in that order: the first row of each key. *)
Fixpoint distinct_on (seen : option string) (rows : list rate_row) : list rate_row :=
  match rows with
  | [] => []
  | r :: rows =>
      if bool_decide (seen = Some (rate_key r)) then distinct_on seen rows
      else r :: distinct_on (Some (rate_key r)) rows
  end.

(** The loop of [card_at] over the rows: the last row of a cell wins. *)
Definition record_cell (m : gmap (string * string) Q) (r : rate_row) : gmap (string * string) Q :=
  match parse_pack_rate_key (rate_key r) with
  | None => m
  | Some cell => <[cell := inr_amount r]> m
  end.

Definition card_rows (t : rates_db) (at_ : instant) : list rate_row :=
  distinct_on None (order_by by_key_recent
    (select (fun r => pack_key r && in_force t at_ r) (list_rate_rows t))).

Definition recorded_cells (t : rates_db) (at_ : instant) : gmap (string * string) Q :=
  foldl record_cell ∅ (card_rows t at_).

(** [card_at]: one rate, and the card of a pack of the catalogue. *)
Definition cell_at (t : rates_db) (at_ : instant) (p : CreditPack) (voice : string) : result Q :=
  match recorded_cells t at_ !! (pack_id p, voice) with
  | Some q => Ok q
  | None => inr_per_min p voice
  end.
Definition card_at (t : rates_db) (at_ : instant) : result (list (string * LotRates)) :=
  foldr (fun p acc =>
    match cell_at t at_ p VALUE_VOICE_TIER, cell_at t at_ p PREMIUM_VOICE_TIER, acc with
    | Ok c, Ok s, Ok rest => Ok ((pack_id p, MkRates c s) :: rest)
    | Err e, _, _ | _, Err e, _ | _, _, Err e => Err e
    end) (Ok []) PACK_CATALOGUE.

(** [self_serve_rate_at]; [setting] is [Settings.self_serve_inr_per_min]. *)
Definition self_serve_rate_at (setting : Q) (t : rates_db) (at_ : instant) : Q :=
  match order_by (fun x y => effective_from y <=? effective_from x)
          (select (fun r => String.eqb (rate_key r) SELF_SERVE_PER_MIN && in_force t at_ r)
             (list_rate_rows t)) with
  | r :: _ => inr_amount r
  | [] => setting
  end.

(** An INSERT: the primary key is [(rate_key, effective_from)]. *)
Definition insert_rate (r : rate_row) (t : rates_db) : result rates_db :=
  if existsb (fun x => String.eqb (rate_key x) (rate_key r) && (effective_from x =? effective_from r))
       (list_rate_rows t)
  then Err (UniqueViolation "platform_list_rates_pkey")
  else match numeric_12_4 (inr_amount r) with
       | Ok q => Ok (RatesDb (list_rate_rows t ++ [RateRow (rate_key r) (effective_from r) q]) (cancelled t))
       | Err e => Err e
       end.
Fixpoint insert_rates (rs : list rate_row) (t : rates_db) : result rates_db :=
  match rs with
  | [] => Ok t
  | r :: rs => match insert_rate r t with Ok t' => insert_rates rs t' | Err e => Err e end
  end.

Definition record_list_rate (key : string) (amount : Q) (clock : instant) (t : rates_db) :
    result rates_db :=
  insert_rate (RateRow key clock amount) t.

(** The rows [record_card] inserts, all at one instant. *)
Definition card_to_rows (card : list CreditPack) (at_ : instant) (self_serve : Q) : list rate_row :=
  flat_map (fun p => [RateRow (pack_rate_key (pack_id p) VALUE_VOICE_TIER) at_ (pk_clear p);
                      RateRow (pack_rate_key (pack_id p) PREMIUM_VOICE_TIER) at_ (pk_studio p)]) card
  ++ [RateRow SELF_SERVE_PER_MIN at_ self_serve].

Definition record_card (card : list CreditPack) (effective : option instant) (clock : instant)
    (self_serve : Q) (t : rates_db) : result (instant * rates_db) :=
  let at_ := match effective with Some a => a | None => clock end in
  match insert_rates (card_to_rows card at_ self_serve) t with
  | Ok t' => Ok (at_, t')
  | Err e => Err e
  end.

(** [notice_refusal]: whether a card dated then is refused. *)
Definition CARD_NOTICE_DAYS : Z := 30.
Definition days (n : Z) : Z := n * 86400000000.
Definition notice_refusal (effective at_now : instant) : bool :=
  effective <? at_now + days CARD_NOTICE_DAYS.

Definition card_with_rates (cell : string -> string -> option Q) : list CreditPack :=
  map (fun p => Pack (pack_id p) (amount_inr p)
                  (match cell (pack_id p) VALUE_VOICE_TIER with Some q => q | None => pk_clear p end)
                  (match cell (pack_id p) PREMIUM_VOICE_TIER with Some q => q | None => pk_studio p end)
                  (bonus_pct p)) PACK_CATALOGUE.

Definition card_list_rate (card : list CreditPack) : result Q :=
  match card with [] => Err ValueError | p :: ps => Ok (pk_clear (min_pack p ps)) end.

(** [SELECT DISTINCT effective_from ... ORDER BY effective_from LIMIT n]. *)
Fixpoint dedup (xs : list instant) : list instant :=
  match xs with
  | x :: (y :: _ as rest) => if x =? y then dedup rest else x :: dedup rest
  | _ => xs
  end.
Definition PENDING_CARD_LIMIT : nat := 24.
Definition pending_instants (t : rates_db) (at_ : instant) : list instant :=
  firstn PENDING_CARD_LIMIT (dedup (order_by Z.leb (map effective_from
    (select (fun r => pack_key r && (at_ <? effective_from r) && negb (is_cancelled t (effective_from r)))
       (list_rate_rows t))))).
Definition pending_cards (t : rates_db) (at_ : instant) : list (instant * result (list (string * LotRates))) :=
  map (fun i => (i, card_at t i)) (pending_instants t at_).

(** [cancel_card]: only while the database's clock is before the card's instant, and
    once; whether this call wrote. *)
Definition cancel_card (db_now effective : instant) (t : rates_db) : bool * rates_db :=
  if (db_now <? effective) && negb (is_cancelled t effective)
  then (true, RatesDb (list_rate_rows t) (effective :: cancelled t))
  else (false, t).

Definition card_is_scheduled (t : rates_db) (effective : instant) : bool :=
  existsb (fun r => pack_key r && (effective_from r =? effective)) (list_rate_rows t).

(** ** The cell a reader gets *)

Lemma partition_prefix (a b : string) :
  has_colon a = false -> partition_colon (a +:+ ":" +:+ b) = (a, b).
Proof.
  induction a as [|c a IH]; simpl; [done|]. destruct (Ascii.eqb c ":"%char); [done|].
  simpl. intros H. by rewrite IH.
Qed.

Lemma has_colon_app (a b : string) : has_colon (a +:+ b) = has_colon a || has_colon b.
Proof. induction a as [|c a IH]; simpl; [done|]. by rewrite IH, orb_assoc. Qed.

Lemma rpartition_suffix (a b : string) :
  has_colon b = false -> rpartition_colon (a +:+ ":" +:+ b) = (a, b).
Proof.
  intros Hb. induction a as [|c a IH]; simpl.
  - change ("" +:+ b) with b. by rewrite Hb.
  - rewrite has_colon_app. simpl. rewrite orb_true_r. by rewrite IH.
Qed.

(** Reading back the key a cell is written under. *)
Lemma parse_pack_rate_key_roundtrip i voice :
  i <> "" -> In voice VOICE_TIERS -> parse_pack_rate_key (pack_rate_key i voice) = Some (i, voice).
Proof.
  intros Hi Hv. unfold parse_pack_rate_key, pack_rate_key.
  rewrite (partition_prefix PACK_RATE_KEY_PREFIX) by done.
  assert (has_colon voice = false /\ stored_voice_tier voice = Some voice) as [Hc Hs]
    by (by destruct Hv as [<-|[<-|[]]]).
  rewrite rpartition_suffix by done. rewrite Hs. simpl.
  destruct (String.eqb_spec i ""); done.
Qed.

Lemma foldl_record_cell rows m k :
  foldl record_cell m rows !! k
  = match last (List.filter (fun r => bool_decide (parse_pack_rate_key (rate_key r) = Some k)) rows) with
    | Some r => Some (inr_amount r)
    | None => m !! k
    end.
Proof.
  induction rows as [|r rows IH] using rev_ind; [done|].
  rewrite foldl_app, List.filter_app. simpl.
  unfold record_cell at 1. destruct (parse_pack_rate_key (rate_key r)) as [cell|] eqn:E; simpl.
  - destruct (decide (cell = k)) as [->|Hne].
    + rewrite bool_decide_true by done. by rewrite lookup_insert_eq, last_snoc.
    + rewrite bool_decide_false by congruence. by rewrite lookup_insert_ne, app_nil_r.
  - by rewrite app_nil_r.
Qed.

Lemma by_key_total x y : by_key_recent x y = true \/ by_key_recent y x = true.
Proof.
  unfold by_key_recent. rewrite (String.eqb_sym (rate_key y)). destruct (String.eqb _ _); [lia|].
  destruct (String.leb_total (rate_key x) (rate_key y)); auto.
Qed.

Lemma by_key_trans x y z :
  by_key_recent x y = true -> by_key_recent y z = true -> by_key_recent x z = true.
Proof.
  unfold by_key_recent.
  destruct (String.eqb_spec (rate_key x) (rate_key y)) as [E1|E1];
  destruct (String.eqb_spec (rate_key y) (rate_key z)) as [E2|E2];
  destruct (String.eqb_spec (rate_key x) (rate_key z)) as [E3|E3]; try congruence; try lia.
  - rewrite E3. intros H1 H2. exfalso. apply E1. rewrite E3. by apply String.leb_antisym.
  - by apply leb_trans.
Qed.

(** [DISTINCT ON] keeps, of each key, the first row. *)
Lemma distinct_on_key k seen rows :
  StronglySorted (fun a b => by_key_recent a b = true) rows ->
  (forall s, seen = Some s -> Forall (fun r => String.leb s (rate_key r) = true) rows) ->
  List.filter (fun r => String.eqb (rate_key r) k) (distinct_on seen rows)
  = if bool_decide (seen = Some k) then []
    else firstn 1 (List.filter (fun r => String.eqb (rate_key r) k) rows).
Proof.
  revert seen. induction rows as [|r rows IH]; intros seen Hs Hseen; simpl; [by destruct (bool_decide _)|].
  apply StronglySorted_inv in Hs as [Hs Hr].
  assert (Hle : Forall (fun x => String.leb (rate_key r) (rate_key x) = true) rows).
  { eapply Forall_impl; [exact Hr|]. intros x Hx. unfold by_key_recent in Hx.
    destruct (String.eqb_spec (rate_key r) (rate_key x)) as [->|]; [|done].
    destruct (String.leb_total (rate_key x) (rate_key x)); done. }
  destruct (bool_decide (seen = Some (rate_key r))) eqn:Es.
  - apply bool_decide_eq_true in Es. rewrite IH; [|done|].
    + destruct (bool_decide (seen = Some k)) eqn:Ek; [done|]. apply bool_decide_eq_false in Ek.
      destruct (String.eqb_spec (rate_key r) k); [congruence|done].
    + intros s Hs'. specialize (Hseen s Hs'). by apply Forall_inv_tail in Hseen.
  - apply bool_decide_eq_false in Es. simpl. rewrite IH; [|done|by intros s [= <-]].
    destruct (String.eqb_spec (rate_key r) k) as [E|E].
    + rewrite (bool_decide_true (Some (rate_key r) = Some k)) by congruence.
      rewrite bool_decide_false by congruence. done.
    + rewrite (bool_decide_false (Some (rate_key r) = Some k)) by congruence.
      destruct (bool_decide (seen = Some k)) eqn:Ek; [|done]. apply bool_decide_eq_true in Ek.
      (* the key was passed already: no later row has it *)
      assert (List.filter (fun r => String.eqb (rate_key r) k) rows = []) as ->; [|done].
      specialize (Hseen k Ek). apply Forall_inv in Hseen as Hk.
      assert (Forall (fun x => String.eqb (rate_key x) k = false) rows) as Hno.
      { eapply Forall_impl; [exact Hle|]. intros x Hx. simpl in Hx.
        destruct (String.eqb_spec (rate_key x) k) as [Ex|]; [|done]. exfalso. apply E.
        apply String.leb_antisym; [|done]. by rewrite <- Ex. }
      clear -Hno. induction Hno as [|x xs Hx _ IH]; simpl; [done|]. by rewrite Hx.
Qed.

(** The rows of a cell spelt one way only: no older spelling names the same cell. *)
Definition no_alias (t : rates_db) : Prop :=
  forall r i v, In r (list_rate_rows t) -> parse_pack_rate_key (rate_key r) = Some (i, v) ->
    rate_key r = pack_rate_key i v.

Lemma card_rows_In t at_ r :
  In r (card_rows t at_) -> In r (list_rate_rows t) /\ pack_key r = true /\ in_force t at_ r = true.
Proof.
  unfold card_rows. intros H.
  assert (Hsub : forall seen rows, In r (distinct_on seen rows) -> In r rows).
  { intros seen rows. revert seen. induction rows as [|x rows IH]; intros seen; simpl; [done|].
    destruct (bool_decide _); [|intros [->|?]]; eauto. }
  apply Hsub, order_by_In, select_In in H as [H1 H2]. by apply andb_prop in H2.
Qed.

Lemma filter_ext_In {A} (p q : A -> bool) l :
  (forall x, In x l -> p x = q x) -> List.filter p l = List.filter q l.
Proof.
  induction l as [|x l IH]; intros H; simpl; [done|]. rewrite (H x) by (by left).
  rewrite IH; [done|]. intros y Hy. apply H. by right.
Qed.

Lemma pack_key_prefix i v : String.prefix "pack:" (pack_rate_key i v) = true.
Proof. unfold pack_rate_key, PACK_RATE_KEY_PREFIX. simpl. by destruct (i +:+ ":" +:+ v). Qed.

(** The row a cell is read from. *)
Lemma recorded_cell_row t at_ i v :
  no_alias t -> i <> "" -> In v VOICE_TIERS ->
  match recorded_cells t at_ !! (i, v) with
  | Some q => exists r, In r (list_rate_rows t) /\ rate_key r = pack_rate_key i v
      /\ in_force t at_ r = true /\ inr_amount r = q
      /\ forall x, In x (list_rate_rows t) -> rate_key x = pack_rate_key i v ->
                   in_force t at_ x = true -> effective_from x <= effective_from r
  | None => forall x, In x (list_rate_rows t) -> rate_key x = pack_rate_key i v ->
                      in_force t at_ x = false
  end.
Proof.
  intros Hna Hi Hv. unfold recorded_cells. rewrite foldl_record_cell, lookup_empty.
  set (k := pack_rate_key i v).
  rewrite (filter_ext_In _ (fun r => String.eqb (rate_key r) k)).
  2:{ intros r Hr. apply card_rows_In in Hr as (Hr & _ & _).
      destruct (String.eqb_spec (rate_key r) k) as [E|E].
      - apply bool_decide_eq_true. rewrite E. by apply parse_pack_rate_key_roundtrip.
      - apply bool_decide_eq_false. intros Hp. by apply E, Hna. }
  unfold card_rows. set (rows := order_by _ _).
  assert (Hs : StronglySorted (fun a b => by_key_recent a b = true) rows)
    by (apply order_by_sorted; [apply by_key_total|apply by_key_trans]).
  rewrite distinct_on_key by done. rewrite bool_decide_false by done.
  assert (Hrows : forall x, In x rows <-> In x (list_rate_rows t) /\ pack_key x = true /\ in_force t at_ x = true).
  { intros x. unfold rows. rewrite order_by_In, select_In, andb_true_iff. done. }
  assert (Hsub : forall x, In x (List.filter (fun r => String.eqb (rate_key r) k) rows)
            <-> In x (list_rate_rows t) /\ rate_key x = k /\ in_force t at_ x = true).
  { intros x. rewrite filter_In, Hrows, String.eqb_eq. split; [naive_solver|].
    intros (? & E & ?). split_and!; try done. unfold pack_key. rewrite E. apply pack_key_prefix. }
  destruct (List.filter (fun r => String.eqb (rate_key r) k) rows) as [|r rest] eqn:Ef; simpl.
  - intros x Hx Ek. apply not_true_is_false. intros Hf. by apply (Hsub x).
  - exists r. destruct (proj1 (Hsub r)) as (? & ? & ?); [by left|]. split_and!; try done.
    intros x Hx Ek Hf.
    assert (Hin : In x (r :: rest)) by by apply Hsub. destruct Hin as [->|Hin]; [lia|].
    assert (Hsf : StronglySorted (fun a b => by_key_recent a b = true) (r :: rest)).
    { rewrite <- Ef. clear -Hs. induction Hs as [|y ys Hs IH Hy]; simpl; [constructor|].
      destruct (String.eqb (rate_key y) k); [|done]. constructor; [done|].
      rewrite List.Forall_forall in Hy |- *. intros z Hz. apply filter_In in Hz as [Hz _]. auto. }
    apply StronglySorted_inv in Hsf as [_ Hsf]. rewrite List.Forall_forall in Hsf.
    specialize (Hsf x Hin). unfold by_key_recent in Hsf.
    rewrite (proj2 (String.eqb_eq _ _)) in Hsf by congruence. lia.
Qed.

Lemma catalogue_ids p : In p PACK_CATALOGUE -> pack_id p <> "".
Proof. simpl. intros H. repeat (destruct H as [<-|H]; [done|]). done. Qed.

(** The rate of a cell is the newest one in force: as long as no cell is also
    recorded under an older spelling of its tier, the rate a reader gets at an
    instant is that of the uncancelled row of that cell with the greatest effective
    date not after it, and the catalogue's own rate when there is none. *)
Theorem cell_newest_in_force t at_ p v q :
  no_alias t -> In p PACK_CATALOGUE -> In v VOICE_TIERS -> cell_at t at_ p v = Ok q ->
  (exists r, In r (list_rate_rows t) /\ rate_key r = pack_rate_key (pack_id p) v
     /\ in_force t at_ r = true /\ inr_amount r = q
     /\ forall x, In x (list_rate_rows t) -> rate_key x = pack_rate_key (pack_id p) v ->
                  in_force t at_ x = true -> effective_from x <= effective_from r)
  \/ (inr_per_min p v = Ok q
      /\ forall x, In x (list_rate_rows t) -> rate_key x = pack_rate_key (pack_id p) v ->
                   in_force t at_ x = false).
Proof.
  intros Hna Hp Hv H. pose proof (recorded_cell_row t at_ (pack_id p) v Hna (catalogue_ids p Hp) Hv) as Hr.
  unfold cell_at in H. destruct (recorded_cells t at_ !! (pack_id p, v)) as [q'|].
  - injection H as <-. left. done.
  - right. done.
Qed.

(** With a cell recorded under both spellings of its tier, the reader gets the
    older row: a Clear rate recorded as [pack:starter:sarvam] before the rename
    outlives the one recorded later as [pack:starter:clear], although both are in
    force and the later one has the greater effective date. *)
Theorem legacy_spelling_outlives_newer_rate :
  exists t at_ p old new,
    list_rate_rows t = [old; new] /\ In p PACK_CATALOGUE
    /\ in_force t at_ old = true /\ in_force t at_ new = true
    /\ effective_from old < effective_from new
    /\ rate_key new = pack_rate_key (pack_id p) VALUE_VOICE_TIER
    /\ parse_pack_rate_key (rate_key old) = Some (pack_id p, VALUE_VOICE_TIER)
    /\ cell_at t at_ p VALUE_VOICE_TIER = Ok (inr_amount old)
    /\ (inr_amount new < inr_amount old)%Q.
Proof.
  exists (RatesDb [RateRow "pack:starter:sarvam" 1 (inject_Z 5); RateRow "pack:starter:clear" 2 (inject_Z 4)] []),
    3, (Pack "starter" (inject_Z 2000) (9 # 2) (inject_Z 6) 0),
    (RateRow "pack:starter:sarvam" 1 (inject_Z 5)), (RateRow "pack:starter:clear" 2 (inject_Z 4)).
  split_and!; try reflexivity. simpl. by left.
Qed.

(** Rows not in force then are not seen. *)
Lemma select_app_none {A} (p : A -> bool) l1 l2 :
  Forall (fun x => p x = false) l2 -> select p (l1 ++ l2) = select p l1.
Proof.
  intros H. unfold select. rewrite List.filter_app.
  assert (List.filter p l2 = []) as ->; [|apply app_nil_r].
  induction H as [|x l Hx _ IH]; simpl; [done|]. by rewrite Hx.
Qed.

Lemma select_in_force t t' at_ p rows :
  (forall r, in_force t at_ r = in_force t' at_ r) ->
  select (fun r => p r && in_force t at_ r) rows = select (fun r => p r && in_force t' at_ r) rows.
Proof. intros H. apply filter_ext. intros r. by rewrite H. Qed.

Lemma insert_rates_rows rs t t' :
  insert_rates rs t = Ok t' ->
  cancelled t' = cancelled t /\ exists qs, list_rate_rows t' = list_rate_rows t ++ qs
    /\ Forall2 (fun r q => rate_key q = rate_key r /\ effective_from q = effective_from r
                           /\ numeric_12_4 (inr_amount r) = Ok (inr_amount q)) rs qs.
Proof.
  revert t. induction rs as [|r rs IH]; intros t H; simpl in H.
  - injection H as <-. split; [done|]. exists []. rewrite app_nil_r. done.
  - unfold insert_rate in H at 1. destruct (existsb _ _); [done|].
    destruct (numeric_12_4 (inr_amount r)) as [q|] eqn:Eq; [|done].
    apply IH in H as (Hc & qs & Hr & Hf). simpl in *. split; [done|].
    eexists. rewrite Hr, <- app_assoc. split; [reflexivity|]. constructor; [done|done].
Qed.

(** What a reader of the past sees. *)
Definition history (setting : Q) (t : rates_db) (at_ : instant) :
    result (list (string * LotRates)) * Q :=
  (card_at t at_, self_serve_rate_at setting t at_).

(** No price is changed after the fact: recording a card dated after an instant,
    and withdrawing a card (which only a card still in the future can be), leave the
    whole card and the self-serve rate of every instant up to then as they were. *)
Theorem history_is_fixed setting t at_ :
  (forall card effective clock self_serve at' t',
     record_card card effective clock self_serve t = Ok (at', t') -> at_ < at' ->
     history setting t' at_ = history setting t at_)
  /\ (forall db_now effective,
     at_ <= db_now -> history setting (snd (cancel_card db_now effective t)) at_ = history setting t at_).
Proof.
  split.
  - intros card effective clock self_serve at' t' H Hlt. unfold record_card in H.
    destruct (insert_rates _ t) as [t1|] eqn:Ei; [|done]. injection H as <- <-.
    apply insert_rates_rows in Ei as (Hc & qs & Hr & Hf).
    assert (Hq : Forall (fun q => in_force t1 at_ q = false) qs).
    { set (at1 := match effective with Some a => a | None => clock end) in *.
      assert (Hrows : Forall (fun r => effective_from r = at1) (card_to_rows card at1 self_serve)).
      { unfold card_to_rows. apply List.Forall_forall. intros r Hr'. apply in_app_or in Hr' as [Hr'|[<-|[]]]; [|done].
        apply in_flat_map in Hr' as (p & _ & [<-|[<-|[]]]); done. }
      clear -Hf Hrows Hlt. induction Hf as [|r q rs qs (_ & He & _) _ IH]; [constructor|].
      apply Forall_cons in Hrows as [Hr Hrows]. constructor; [|by apply IH].
      unfold in_force. rewrite He, Hr. destruct (at1 <=? at_) eqn:E; [lia|done]. }
    assert (Hin : forall r, in_force t1 at_ r = in_force t at_ r)
      by (intros r; unfold in_force, is_cancelled; by rewrite Hc).
    unfold history, card_at, cell_at, recorded_cells, card_rows, self_serve_rate_at.
    rewrite Hr, !select_app_none; try (eapply Forall_impl; [exact Hq|]; intros q ->; apply andb_false_r).
    by rewrite (select_in_force t1 t at_ pack_key _ Hin),
      (select_in_force t1 t at_ (fun r => String.eqb (rate_key r) SELF_SERVE_PER_MIN) _ Hin).
  - intros db_now effective Hle. unfold cancel_card. destruct (_ && _) eqn:E; [|done]. simpl.
    apply andb_prop in E as [E _].
    assert (Hin : forall r, in_force (RatesDb (list_rate_rows t) (effective :: cancelled t)) at_ r
                            = in_force t at_ r).
    { intros r. unfold in_force, is_cancelled. simpl. destruct (effective_from r <=? at_) eqn:El; [|done].
      simpl. f_equal. apply bool_decide_ext. rewrite elem_of_cons. split; [|by right].
      intros [E2|?]; [lia|done]. }
    unfold history, card_at, cell_at, recorded_cells, card_rows, self_serve_rate_at.
    cbn [list_rate_rows]. by rewrite (select_in_force _ t at_ pack_key _ Hin),
      (select_in_force _ t at_ (fun r => String.eqb (rate_key r) SELF_SERVE_PER_MIN) _ Hin).
Qed.

(** ** A concrete run *)
Definition one_rate : rates_db := RatesDb [RateRow "pack:starter:clear" 2 (inject_Z 4)] [].
Definition starter : CreditPack := Pack "starter" (inject_Z 2000) (9 # 2) (inject_Z 6) 0.

Lemma cell_newest_in_force_witness :
  cell_at one_rate 3 starter VALUE_VOICE_TIER = Ok (inject_Z 4)
  /\ ((exists r, In r (list_rate_rows one_rate) /\ rate_key r = pack_rate_key (pack_id starter) VALUE_VOICE_TIER
         /\ in_force one_rate 3 r = true /\ inr_amount r = inject_Z 4
         /\ forall x, In x (list_rate_rows one_rate) -> rate_key x = pack_rate_key (pack_id starter) VALUE_VOICE_TIER ->
                      in_force one_rate 3 x = true -> effective_from x <= effective_from r)
      \/ (inr_per_min starter VALUE_VOICE_TIER = Ok (inject_Z 4)
          /\ forall x, In x (list_rate_rows one_rate) -> rate_key x = pack_rate_key (pack_id starter) VALUE_VOICE_TIER ->
                       in_force one_rate 3 x = false)).
Proof.
  split; [vm_compute; reflexivity|].
  apply (cell_newest_in_force one_rate 3 starter VALUE_VOICE_TIER (inject_Z 4)).
  - intros r i v [<-|[]] H. vm_compute in H. injection H as <- <-. reflexivity.
  - left. reflexivity.
  - left. reflexivity.
  - vm_compute. reflexivity.
Defined.
End RateCard.
