(* ===== verification/Lots.v ===== *)
(** * Credit lots: the first-in first-out store a wallet is spent from

    apps/api/billing/lots.py.  [Module Lots] follows the file: the demands and
    splits, the SQL statements over [credit_lots], the draw ([consume] and its
    two loops), the restatement of a lot, and the two client-facing reads.  The
    loops see the table only through the interface [LotStore] (take by
    compare-and-swap, re-read), so what they promise holds for the database and
    for a database other writers change between two statements. *)

From Stdlib Require Import ZArith Lia List QArith Qabs Lqa Sorted.
From stdpp Require Import base list strings.
From S2P Require Import Prelude PyDecimal Sql WalletDb RateCard.

Local Open Scope string_scope.
Local Open Scope list_scope.
Local Open Scope Z_scope.
Local Open Scope tx_scope.

Module Lots.

Definition MAX_CAS_ATTEMPTS : Z := 8.

(** [OpenLot.rate_for]: total over the two tiers, an error on any other token. *)
Definition rate_for (l : lot) (tier : string) : result Q :=
  if String.eqb tier VALUE_VOICE_TIER then Ok (clear_inr_per_min l)
  else if String.eqb tier PREMIUM_VOICE_TIER then Ok (studio_inr_per_min l)
  else Err ValueError.

Record CallDemand := MkCall { d_minutes : Q; voice_tier : string; fallback_rates : LotRates }.
Definition fallback_inr_per_min (d : CallDemand) : result Q :=
  rates_for (fallback_rates d) (voice_tier d).

Inductive LotDemand :=
| DemandCall (d : CallDemand)
| DemandAi (credits : Q).

Inductive LotSplit :=
| CallSplit (lot_id : option uuid) (credits minutes inr_per_min : Q) (tier : string)
| AiAssistSplit (lot_id : option uuid) (credits : Q).

Definition split_credits (s : LotSplit) : Q :=
  match s with CallSplit _ c _ _ _ => c | AiAssistSplit _ c => c end.
Definition split_lot (s : LotSplit) : option uuid :=
  match s with CallSplit l _ _ _ _ => l | AiAssistSplit l _ => l end.

Record LotRestatement := Restated {
  rs_lot_id : uuid;
  rs_total : Q;
  rs_remaining : Q;
  rs_closed : bool;
  rs_shortfall : Q
}.

(** The [meta.lots] serialisation: a key that does not apply is absent. *)
Definition split_meta (splits : list LotSplit) : list (list (string * jval)) :=
  map (fun s =>
    match s with
    | CallSplit l c m r t =>
        [("kind", JText "call"); ("credits", JDec c)]
        ++ match l with Some i => [("lot_id", JId i)] | None => [] end
        ++ [("minutes", JDec m); ("inr_per_min", JDec r); ("voice_tier", JText t)]
    | AiAssistSplit l c =>
        [("kind", JText "ai_assist"); ("credits", JDec c)]
        ++ match l with Some i => [("lot_id", JId i)] | None => [] end
    end) splits.

Definition credits_of (splits : list LotSplit) : Q := money (dsum (map split_credits splits)).

(** ** Statements *)

Definition by_opening : lot -> lot -> bool := le_at_id opened_at l_id.

(** [closed_at IS NULL]. *)
Definition is_open (l : lot) : bool := match closed_at l with None => true | Some _ => false end.

Definition read_open_lots (tenant_id : uuid) : tx db (list lot) :=
  gets (fun s => order_by by_opening
    (select (fun l => (l_tenant l =? rls s) && (l_tenant l =? tenant_id) && is_open l)
       (credit_lots s))).

Definition one_row (t : list lot) : option lot := match t with r :: _ => Some r | [] => None end.

Definition read_open_lot (lot_id : uuid) : tx db (option lot) :=
  gets (fun s => one_row (select (fun l => (l_tenant l =? rls s) && (l_id l =? lot_id) && is_open l)
                            (credit_lots s))).

Definition read_lot (lot_id : uuid) : tx db (option lot) :=
  gets (fun s => one_row (select (fun l => (l_tenant l =? rls s) && (l_id l =? lot_id))
                            (credit_lots s))).

Definition set_position (total remaining : Q) (closed : option instant) (l : lot) : lot :=
  Lot (l_id l) (l_tenant l) (source l) (pack_id l) (override_of_pack_id l) total remaining
      (clear_inr_per_min l) (studio_inr_per_min l) (ledger_entry_id l) (opened_at l) closed
      (expires_at l).

(** [open_lot]; a NUMERIC(12,4) column stores each amount. *)
Definition open_lot (tenant_id : uuid) (credits_inr clear studio : Q) (source_ : string)
    (pack : option string) (entry_id : uuid) (override_of : option string)
    (opened expires : option instant) : tx db uuid :=
  if negb (dlt 0 credits_inr) then raise ValueError
  else if negb (dlt 0 clear) then raise ValueError
  else if dlt studio clear then raise ValueError
  else
    lot_id ← uuid7 ;
    now ← clock_timestamp ;
    c ← lift (numeric_12_4 (money credits_inr)) ;
    cl ← lift (numeric_12_4 (money clear)) ;
    st ← lift (numeric_12_4 (money studio)) ;
    insert_lot (Lot lot_id tenant_id source_ pack override_of c c cl st entry_id
                  (match opened with Some o => o | None => now end) None expires) ;;
    ret lot_id.

(** [close_lot]: the compare-and-swap that empties a lot without spending it. *)
Definition close_lot (lot_id : uuid) (seen_remaining : Q) : tx db bool :=
  now ← clock_timestamp ;
  n ← update_lots (fun l => (l_id l =? lot_id) && deq (credits_remaining l) (money seen_remaining)
                            && is_open l)
                  (fun l => set_position (credits_total l) 0 (Some now) l) ;
  ret (Nat.eqb n 1).

(** [_take]: [credits_remaining = :seen AND closed_at IS NULL] guards the write. *)
Definition taken_from (now : instant) (take_ : Q) (l : lot) : lot :=
  let r := Qred (credits_remaining l - take_) in
  set_position (credits_total l) (quantize MONEY_SCALE ROUND_HALF_UP r)
    (if deq r 0 then Some now else closed_at l) l.
Definition take (lot_id : uuid) (seen take_ : Q) : tx db bool :=
  now ← clock_timestamp ;
  n ← update_lots (fun l => (l_id l =? lot_id) && deq (credits_remaining l) seen && is_open l)
                  (taken_from now take_) ;
  ret (Nat.eqb n 1).

(** ** The draw *)

(** What the loops need of the table. *)
Class LotStore (S : Type) := {
  ls_take : uuid -> Q -> Q -> tx S bool;
  ls_read_open : uuid -> tx S (option lot)
}.

#[export] Instance db_store : LotStore db := {| ls_take := take; ls_read_open := read_open_lot |}.

(** [_portion_for_call]: credits, minutes reported, minutes used. *)
Definition portion_for_call (l : lot) (rate minutes_left : Q) : Q * Q * Q :=
  let covered := ddiv (credits_remaining l) rate in
  if dle minutes_left covered
  then (dmin (money (dmul minutes_left rate)) (credits_remaining l), minutes_left, minutes_left)
  else (credits_remaining l, minutes_q covered, covered).

Section Draw.
Context {S : Type} `{LotStore S}.

(** [_after_lost_race]; [lots] is the list from [index] on. *)
Definition after_lost_race (lots : list lot) (attempts : Z) : tx S (list lot * Z) :=
  let attempts := attempts + 1 in
  if MAX_CAS_ATTEMPTS <? attempts then raise (Problem Conflict "credit_lots_contended")
  else match lots with
       | [] => ret ([], attempts)
       | l :: rest =>
           fresh ← ls_read_open (l_id l) ;
           match fresh with
           | None => ret (rest, attempts)
           | Some l' => ret (l' :: rest, attempts)
           end
       end.

(** The loop of [_consume_call]; [lots] is the list from [index] on. *)
Fixpoint consume_call_loop (fuel : nat) (tier : string) (lots : list lot) (attempts : Z)
    (minutes_left priced_at : Q) : tx S (list LotSplit) :=
  match fuel with
  | O => raise OutOfFuel
  | Datatypes.S fuel =>
      match lots with
      | l :: rest =>
          if dlt 0 minutes_left then
            rate ← lift (rate_for l tier) ;
            let '(taken, reported, used) := portion_for_call l rate minutes_left in
            ok ← ls_take (l_id l) (credits_remaining l) taken ;
            if ok : bool then
              splits ← consume_call_loop fuel tier
                         (if deq taken (credits_remaining l) then rest else lots) attempts
                         (dsub minutes_left used) rate ;
              ret (CallSplit (Some (l_id l)) taken reported rate tier :: splits)
            else
              '(lots', attempts') ← after_lost_race lots attempts ;
              consume_call_loop fuel tier lots' attempts' minutes_left priced_at
          else ret []
      | [] =>
          if dlt 0 minutes_left
          then ret [CallSplit None (money (dmul minutes_left priced_at))
                      (minutes_q minutes_left) priced_at tier]
          else ret []
      end
  end.

(** The loop of [_consume_ai_assist]. *)
Fixpoint consume_ai_loop (fuel : nat) (lots : list lot) (attempts : Z) (credits_left : Q) :
    tx S (list LotSplit) :=
  match fuel with
  | O => raise OutOfFuel
  | Datatypes.S fuel =>
      match lots with
      | l :: rest =>
          if dlt 0 credits_left then
            let take_ := dmin credits_left (credits_remaining l) in
            ok ← ls_take (l_id l) (credits_remaining l) take_ ;
            if ok : bool then
              splits ← consume_ai_loop fuel
                         (if deq take_ (credits_remaining l) then rest else lots) attempts
                         (dsub credits_left take_) ;
              ret (AiAssistSplit (Some (l_id l)) take_ :: splits)
            else
              '(lots', attempts') ← after_lost_race lots attempts ;
              consume_ai_loop fuel lots' attempts' credits_left
          else ret []
      | [] => if dlt 0 credits_left then ret [AiAssistSplit None credits_left] else ret []
      end
  end.

(** Enough fuel: each turn drops a lot, uses one of the attempts left, or is the
    last with something to draw ([draw_fuel_enough]). *)
Definition draw_fuel (lots : list lot) (attempts : Z) : nat :=
  length lots + Z.to_nat (MAX_CAS_ATTEMPTS - attempts) + 2.

Definition consume_call (lots : list lot) (d : CallDemand) : tx S (list LotSplit) :=
  priced_at ← lift (fallback_inr_per_min d) ;
  consume_call_loop (draw_fuel lots 0) (voice_tier d) lots 0 (d_minutes d) priced_at.

Definition consume_ai_assist (lots : list lot) (credits : Q) : tx S (list LotSplit) :=
  consume_ai_loop (draw_fuel lots 0) lots 0 (money credits).

(** What [consume] does with the lots it has read. *)
Definition draw (lots : list lot) (demand : LotDemand) : tx S (list LotSplit) :=
  match demand with
  | DemandCall d => consume_call lots d
  | DemandAi credits => consume_ai_assist lots credits
  end.
End Draw.

(** [consume]. *)
Definition consume (tenant_id : uuid) (demand : LotDemand) : tx db (list LotSplit) :=
  lots ← read_open_lots tenant_id ; draw lots demand.

(** ** Restating a lot *)

Definition restated_as (now : instant) (delta : Q) (l : lot) : lot :=
  let left_ := dmax (Qred (credits_remaining l + delta)) 0 in
  set_position (Qred (credits_total l + delta)) left_
    (if deq left_ 0 then Some (match closed_at l with Some c => c | None => now end) else None) l.

Definition adjust_lot_for_restatement (lot_id : uuid) (delta : Q) : tx db LotRestatement :=
  if deq delta 0 then raise ValueError
  else
    found ← read_lot lot_id ;
    match found with
    | None => raise (Problem NotFound "not_found")
    | Some l =>
        if dle (dadd (credits_total l) delta) 0
        then raise (Problem BusinessRule "restatement_empties_lot")
        else
          now ← clock_timestamp ;
          n ← update_lots (fun x => (l_id x =? lot_id) && deq (credits_total x) (credits_total l)
                                    && deq (credits_remaining x) (credits_remaining l))
                          (restated_as now (money delta)) ;
          if negb (Nat.eqb n 1) then raise (Problem Conflict "credit_lots_contended")
          else
            let remaining := dmax (dadd (credits_remaining l) delta) 0 in
            ret (Restated lot_id (money (dadd (credits_total l) delta)) (money remaining)
                   (deq remaining 0)
                   (money (dmax (dsub (dneg delta) (credits_remaining l)) 0)))
    end.

(** ** Reads *)

Record TierRate := MkTierRate { t_tier : string; t_inr_per_min : option Q; further_open_lots : Z }.

Definition voice_tier_rates (tenant_id : uuid) : tx db (list TierRate) :=
  lots ← read_open_lots tenant_id ;
  let behind := Z.max (Z.of_nat (length lots) - 1) 0 in
  match lots with
  | [] => ret (map (fun tier => MkTierRate tier None behind) VOICE_TIERS)
  | l :: _ =>
      c ← lift (rate_for l VALUE_VOICE_TIER) ;
      s ← lift (rate_for l PREMIUM_VOICE_TIER) ;
      ret [MkTierRate VALUE_VOICE_TIER (Some c) behind; MkTierRate PREMIUM_VOICE_TIER (Some s) behind]
  end.

(** [runway]: minutes left per voice, lot by lot at each lot's own rate. *)
Definition runway (tenant_id : uuid) : tx db (Q * Q) :=
  lots ← read_open_lots tenant_id ;
  ret (minutes_q (dsum (map (fun l => ddiv (credits_remaining l) (clear_inr_per_min l)) lots)),
       minutes_q (dsum (map (fun l => ddiv (credits_remaining l) (studio_inr_per_min l)) lots))).

(** ** What the database gives the draw *)

Lemma lot_ok_spec l :
  lot_ok l = true <->
  (0 < credits_total l /\ 0 <= credits_remaining l /\ credits_remaining l <= credits_total l
   /\ 0 < clear_inr_per_min l /\ clear_inr_per_min l <= studio_inr_per_min l)%Q.
Proof.
  unfold lot_ok. split.
  - intros H. repeat (apply andb_prop in H; destruct H as [H ?]). dcase. repeat split; done.
  - intros (H1 & H2 & H3 & H4 & H5).
    repeat match goal with
    | |- context [dlt ?a ?b] => destruct (dlt_spec a b); [|contradiction]
    | |- context [dle ?a ?b] => destruct (dle_spec a b); [|contradiction]
    end. done.
Qed.

Lemma fits_spec q : fits q = true <-> (q < numeric_limit /\ - numeric_limit < q)%Q.
Proof.
  unfold fits. destruct (dlt_spec q numeric_limit), (dlt_spec (- numeric_limit) q); simpl;
    split; try done; intros [? ?]; contradiction.
Qed.

Lemma lot_fits_ok l : lot_ok l = true -> (credits_total l < numeric_limit)%Q -> lot_fits l = true.
Proof.
  intros Hok Hl. apply lot_ok_spec in Hok. assert (0 < numeric_limit)%Q by reflexivity.
  unfold lot_fits. rewrite !(proj2 (fits_spec _)); [done|split; lra|split; lra].
Qed.

(** An UPDATE keyed by a lot's id: no row, or that one lot rewritten. *)
Lemma update_lots_by_id p f i s n s' :
  pk_ok l_id (credit_lots s) -> (forall r, p r = true -> l_id r = i) ->
  update_lots p f s = Ok (n, s') ->
  (n = 0%nat /\ s' = s)
  \/ (n = 1%nat /\ exists l, In l (credit_lots s) /\ l_tenant l = rls s /\ p l = true
        /\ lot_ok (f l) = true /\ lot_fits (f l) = true
        /\ s' = with_lots (update (fun r => (l_tenant r =? rls s) && p r) f (credit_lots s)) s).
Proof.
  intros Hpk Hp H. unfold update_lots, bind, gets in H.
  set (q := fun r => (l_tenant r =? rls s) && p r) in *.
  assert (Hq : forall r, q r = true -> l_id r = i)
    by (intros r Hr; apply Hp; by apply andb_prop in Hr as [_ ?]).
  destruct (select_by_id l_id (credit_lots s) i q Hpk Hq) as [E|(l & E & Hl & Hql)].
  - left. rewrite E in H. simpl in H. injection H as <- <-. unfold rowcount. rewrite E. split; [done|].
    assert (update q f (credit_lots s) = credit_lots s) as ->; [|by destruct s].
    apply rowcount_0_update. unfold rowcount. by rewrite E.
  - right. rewrite E in H. simpl in H. destruct (negb (lot_fits (f l))) eqn:Efit; [discriminate|].
    simpl in H. destruct (negb (lot_ok (f l))) eqn:Eok; [discriminate|].
    simpl in H. injection H as <- <-. unfold rowcount. rewrite E. split; [done|].
    apply negb_false_iff in Eok, Efit. pose proof Hql as Hql'. apply andb_prop in Hql' as [Ht Hpl].
    exists l. repeat split; try done. lia.
Qed.

Lemma lots_sum_update tenant p f t l :
  pk_ok l_id t -> In l t -> p l = true -> (forall r, p r = true -> l_id r = l_id l) ->
  l_tenant (f l) = l_tenant l -> l_tenant l = tenant ->
  (lots_sum tenant (update p f t)
   == lots_sum tenant t - credits_remaining l + credits_remaining (f l))%Q.
Proof.
  intros Hpk Hl Hp Hu Hf Ht. unfold lots_sum.
  rewrite (sum_over_update_id l_id _ p f t l) by done.
  rewrite Hf, Ht, Z.eqb_refl. reflexivity.
Qed.

Lemma update_lots_wf p f t :
  lots_wf t -> (forall r, l_id (f r) = l_id r) ->
  (forall r, In r t -> p r = true -> lot_wf r -> lot_wf (f r)) -> lots_wf (update p f t).
Proof.
  intros [Hpk Hf] Hid Hw. split; [by apply update_pk_ok|].
  apply update_Forall; [done|]. intros r Hr Hwf Hp. by apply Hw.
Qed.

(** The position a take leaves is the position less what was taken, exactly. *)
Lemma taken_from_remaining now t l :
  is_money (credits_remaining l) -> is_money t ->
  (credits_remaining (taken_from now t l) == credits_remaining l - t)%Q.
Proof.
  intros Hl Ht. unfold taken_from. simpl. rewrite quantize_money; rewrite Qred_correct; auto with money.
  reflexivity.
Qed.

Lemma taken_from_wf now t l :
  lot_wf l -> is_money t -> is_open l = true -> lot_ok (taken_from now t l) = true ->
  lot_wf (taken_from now t l).
Proof.
  intros [? Hfits] Ht Ho Hok.
  pose proof (taken_from_remaining now t l ltac:(done) Ht) as Hr.
  constructor; try done.
  - unfold taken_from. simpl. apply is_money_quantize.
  - rewrite Hr. unfold taken_from. simpl. unfold is_open in Ho.
    destruct (deq_spec (Qred (credits_remaining l - t)) 0) as [E|E]; rewrite Qred_correct in E.
    + done.
    + split; [|intros E'; lra]. by destruct (closed_at l).
Qed.

Lemma take_spec i seen t s b s' :
  lots_wf (credit_lots s) -> is_money t -> take i seen t s = Ok (b, s') ->
  if b : bool then
    exists l, In l (credit_lots s) /\ l_id l = i /\ l_tenant l = rls s /\ is_open l = true
      /\ (credits_remaining l == seen)%Q /\ (t <= credits_remaining l)%Q
      /\ s' = with_lots (update (fun r => (l_tenant r =? rls s)
                                 && ((l_id r =? i) && deq (credits_remaining r) seen && is_open r))
                           (taken_from (ticks s 0%nat) t) (credit_lots s)) (tick s)
      /\ lots_wf (credit_lots s')
      /\ (lots_sum (rls s) (credit_lots s') == lots_sum (rls s) (credit_lots s) - t)%Q
  else s' = tick s.
Proof.
  intros [Hpk Hf] Ht H. unfold take, clock_timestamp in H. tx_inv.
  match goal with Hu : update_lots _ _ _ = Ok _ |- _ =>
    apply (update_lots_by_id _ _ i) in Hu; [|done|];
      [destruct Hu as [[-> ->]|(-> & l & Hl & Hten & Hp & Hok & _ & ->)]|] end.
  { done. }
  2: { intros r Hr. apply andb_prop in Hr as [Hr _]. apply andb_prop in Hr as [Hr _]. lia. }
  cbn [tick rls credit_lots with_lots] in Hl, Hten |- *.
  simpl. apply andb_prop in Hp as [Hp Ho]. apply andb_prop in Hp as [Hi Hd]. dcase.
  assert (Hlwf : lot_wf l) by (rewrite List.Forall_forall in Hf; auto).
  pose proof (taken_from_wf (ticks s 0%nat) t l Hlwf Ht Ho Hok) as Hw.
  assert (Hr := taken_from_remaining (ticks s 0%nat) t l (lw_remaining l Hlwf) Ht).
  apply lot_ok_spec in Hok.
  exists l. assert (l_id l = i) as Hid by lia. repeat split; try done.
  - rewrite Hr in Hok. lra.
  - apply update_pk_ok; done.
  - apply update_Forall; [done|]. intros r Hrin Hrwf Hp. replace r with l; [done|].
    apply (pk_unique l_id (credit_lots s)); try done.
    apply andb_prop in Hp as [_ Hp]. apply andb_prop in Hp as [Hp _]. apply andb_prop in Hp as [Hp _]. lia.
  - rewrite (lots_sum_update (rls s) _ _ _ l); try done; [rewrite Hr; ring| |].
    + rewrite Ho. destruct (deq_spec (credits_remaining l) seen); [|contradiction]. lia.
    + intros r Hp. apply andb_prop in Hp as [_ Hp]. apply andb_prop in Hp as [Hp _].
      apply andb_prop in Hp as [Hp _]. lia.
Qed.

(** ** The interface's laws

    [held]: what the draws can still take plus what other writers moved;
    [store_inv]: the store's rows are sound. *)
Class LotStoreLaws (S : Type) `{LotStore S} := {
  held : S -> Q;
  store_inv : S -> Prop;
  take_law i seen t s b s' :
    store_inv s -> is_money t -> (0 <= t)%Q -> ls_take i seen t s = Ok (b, s') ->
    store_inv s' /\ (held s' == if b : bool then held s - t else held s)%Q;
  read_law i s o s' :
    store_inv s -> ls_read_open i s = Ok (o, s') ->
    store_inv s' /\ (held s' == held s)%Q /\ (forall l, o = Some l -> lot_wf l)
}.

Lemma one_row_In t (l : lot) : one_row t = Some l -> In l t.
Proof. destruct t; simpl; [done|]. intros [= ->]. by left. Qed.

#[export] Program Instance db_store_laws : LotStoreLaws db := {|
  held s := lots_sum (rls s) (credit_lots s);
  store_inv s := lots_wf (credit_lots s)
|}.
Next Obligation.
  intros i seen t s b s' Hinv Ht _ H. pose proof (take_spec i seen t s b s' Hinv Ht H) as Hs.
  destruct b; [|by subst]. destruct Hs as (l & _ & _ & _ & _ & _ & _ & -> & Hw & Hsum). done.
Qed.
Next Obligation.
  intros i s o s' Hinv H. unfold ls_read_open in H. simpl in H. unfold read_open_lot in H. tx_inv.
  split; [done|]. split; [reflexivity|]. intros l Hl. apply one_row_In, select_In in Hl as [Hl _].
  destruct Hinv as [_ Hf]. rewrite List.Forall_forall in Hf. auto.
Qed.

(** What the draw took out of lots: the splits that name one. *)
Definition drawn (splits : list LotSplit) : Q :=
  qsum (map (fun x => match split_lot x with Some _ => split_credits x | None => 0%Q end) splits).

Definition overdraft (splits : list LotSplit) : Q :=
  qsum (map (fun x => match split_lot x with Some _ => 0%Q | None => split_credits x end) splits).

Lemma drawn_overdraft splits : (qsum (map split_credits splits) == drawn splits + overdraft splits)%Q.
Proof.
  induction splits as [|x l IH]; unfold drawn, overdraft in *; simpl; [ring|].
  rewrite IH. destruct (split_lot x); ring.
Qed.

Lemma drawn_cons x l :
  (drawn (x :: l) == (match split_lot x with Some _ => split_credits x | None => 0%Q end) + drawn l)%Q.
Proof. reflexivity. Qed.

Lemma overdraft_cons x l :
  (overdraft (x :: l) == (match split_lot x with Some _ => 0%Q | None => split_credits x end) + overdraft l)%Q.
Proof. reflexivity. Qed.

(** A split is sound: money, not negative. *)
Definition split_sound (x : LotSplit) : Prop :=
  is_money (split_credits x) /\ (0 <= split_credits x)%Q.

Lemma rate_for_pos l tier r : lot_wf l -> rate_for l tier = Ok r -> (0 < r)%Q.
Proof.
  intros [Hok]. apply lot_ok_spec in Hok. unfold rate_for.
  repeat case_match; intros [= <-]; lra.
Qed.

Lemma Qdiv_pos a b : (0 <= a)%Q -> (0 < b)%Q -> (0 <= a / b)%Q.
Proof. intros. apply Qmult_le_0_compat; [done|]. by apply Qlt_le_weak, Qinv_lt_0_compat. Qed.

Lemma ddiv_nonneg a b : (0 <= a)%Q -> (0 < b)%Q -> (0 <= ddiv a b)%Q.
Proof. intros. by apply round28_nonneg, Qdiv_pos. Qed.

Lemma dmul_nonneg a b : (0 <= a)%Q -> (0 <= b)%Q -> (0 <= dmul a b)%Q.
Proof. intros. by apply round28_nonneg, Qmult_le_0_compat. Qed.

Lemma money_nonneg q : (0 <= q)%Q -> (0 <= money q)%Q.
Proof. intros. by apply quantize_nonneg. Qed.

Lemma is_money_money q : is_money (money q).
Proof. apply is_money_quantize. Qed.

(** One turn of the call loop: a portion fits the lot, and leaves either the lot
    empty or nothing to serve. *)
Lemma portion_spec l rate left_ t m u :
  lot_wf l -> (0 < rate)%Q -> (0 < left_)%Q -> portion_for_call l rate left_ = (t, m, u) ->
  is_money t /\ (0 <= t)%Q /\ (t <= credits_remaining l)%Q /\ (0 <= u)%Q /\ (u <= left_)%Q
  /\ (0 <= m)%Q /\ (m <= u)%Q
  /\ ((t = credits_remaining l /\ (0 < dsub left_ u)%Q) \/ dsub left_ u = 0%Q).
Proof.
  intros [Hok _ _ Hm _ _ _] Hr Hleft. apply lot_ok_spec in Hok. unfold portion_for_call.
  assert (0 <= ddiv (credits_remaining l) rate)%Q by (apply ddiv_nonneg; lra).
  destruct (dle_spec left_ (ddiv (credits_remaining l) rate)) as [C|C]; intros [= <- <- <-].
  - assert (0 <= money (dmul left_ rate))%Q by (apply money_nonneg, dmul_nonneg; lra).
    destruct (dmin_spec (money (dmul left_ rate)) (credits_remaining l)) as [[? ->]|[? ->]];
      repeat split; try lra; try apply is_money_money; try done; right; apply dsub_self.
  - destruct (quantize_down_le MONEY_SCALE (ddiv (credits_remaining l) rate)) as [? ?]; [lra|].
    repeat split; try done; try lra. left. split; [done|]. apply round28_pos. lra.
Qed.

(** ** The draw against any store that keeps the laws *)

Section DrawLaws.
Context {S : Type} `{HL : LotStoreLaws S}.

Lemma after_lost_race_spec lots att s lots' att' s' :
  Forall lot_wf lots -> store_inv s ->
  after_lost_race lots att s = Ok ((lots', att'), s') ->
  Forall lot_wf lots' /\ store_inv s' /\ (held s' == held s)%Q.
Proof.
  intros Hf Hi H0. unfold after_lost_race in H0.
  destruct (MAX_CAS_ATTEMPTS <? att + 1); [by tx_inv|].
  destruct lots as [|l rest]; [tx_inv; by split_and!|].
  apply Forall_cons in Hf as [_ Hf]. tx_step.
  match goal with Hr : ls_read_open _ _ = Ok (?o, _) |- _ =>
    apply read_law in Hr as (? & ? & Hl); [|done]; destruct o end; tx_inv; split_and!; try done.
  constructor; [by apply Hl|done].
Qed.

(** What every draw keeps. *)
Definition draw_post (s : S) (splits : list LotSplit) (s' : S) : Prop :=
  store_inv s' /\ (held s' == held s - drawn splits)%Q /\ Forall split_sound splits.

Lemma draw_post_take s s1 s2 t x splits :
  (held s1 == held s - t)%Q -> split_credits x = t -> split_lot x <> None -> is_money t ->
  (0 <= t)%Q -> draw_post s1 splits s2 -> draw_post s (x :: splits) s2.
Proof.
  intros Hh Hc Hl Hm Hp (Hi & Hd & Hs). split; [done|]. split.
  - rewrite drawn_cons. destruct (split_lot x); [|done]. rewrite Hd, Hh, Hc. ring.
  - constructor; [|done]. unfold split_sound. by rewrite Hc.
Qed.

Lemma draw_post_refl s s1 splits s2 :
  (held s1 == held s)%Q -> draw_post s1 splits s2 -> draw_post s splits s2.
Proof. intros Hh (Hi & Hd & Hs). split_and!; try done. by rewrite Hd, Hh. Qed.

Lemma consume_call_loop_post fuel tier lots att left_ priced s splits s' :
  Forall lot_wf lots -> store_inv s -> (0 <= priced)%Q ->
  consume_call_loop fuel tier lots att left_ priced s = Ok (splits, s') ->
  draw_post s splits s'.
Proof.
  revert lots att left_ priced s splits s'. induction fuel as [|fuel IH]; [done|].
  intros lots att left_ priced s splits s' Hf Hi Hpr E. simpl in E.
  destruct lots as [|l rest]; destruct (dlt_spec 0 left_) as [Hp|Hp];
    try (tx_inv; split; [done|]; split; [unfold drawn; simpl; ring|];
         repeat constructor; simpl; auto using is_money_money, money_nonneg, dmul_nonneg, Qlt_le_weak).
  pose proof (Forall_inv Hf) as Hl. tx_step. tx_step. simplify_eq.
  destruct (portion_for_call l x left_) as [[t m] u] eqn:Ep.
  assert (Hx : (0 < x)%Q) by (eapply rate_for_pos; eauto).
  destruct (portion_spec _ _ _ _ _ _ Hl Hx Hp Ep) as (Hm & H0t & _).
  tx_step. match goal with Ht : ls_take _ _ _ _ = Ok (?b, _) |- _ =>
    apply take_law in Ht as [Hi1 Hh1]; try done; destruct b end.
  - tx_inv. eapply draw_post_take; try done. eapply IH; [| | |eassumption]; try done; [|lra].
    destruct (deq t _); [by apply Forall_inv_tail in Hf|done].
  - tx_step. destruct_and?. case_match. simplify_eq.
    edestruct after_lost_race_spec as (? & ? & ?); [exact Hf|exact Hi1|eassumption|].
    eapply draw_post_refl; [etrans; eassumption|]. eapply (IH _ _ _ priced); eassumption.
Qed.

Lemma consume_ai_loop_post fuel lots att left_ s splits s' :
  Forall lot_wf lots -> store_inv s -> is_money left_ -> (0 <= left_ < exact_bound)%Q ->
  consume_ai_loop fuel lots att left_ s = Ok (splits, s') ->
  draw_post s splits s' /\ (qsum (map split_credits splits) == left_)%Q.
Proof.
  revert lots att left_ s splits s'. induction fuel as [|fuel IH]; [done|].
  intros lots att left_ s splits s' Hf Hi Hml Hb E. simpl in E.
  destruct lots as [|l rest]; destruct (dlt_spec 0 left_) as [Hp|Hp];
    try (tx_inv; split; [split; [done|]; split; [unfold drawn; simpl; ring|];
         repeat constructor; simpl; (done || lra)|simpl; lra]).
  pose proof (Forall_inv Hf) as Hl. pose proof Hl as [Hok _ _ Hmr _ _ _]. apply lot_ok_spec in Hok.
  set (t := dmin left_ (credits_remaining l)) in *.
  assert (is_money t) by (apply is_money_min; done).
  assert (Ht : (0 <= t /\ t <= left_)%Q)
    by (subst t; destruct (dmin_spec left_ (credits_remaining l)) as [[? ->]|[? ->]]; lra).
  assert (Hd : (dsub left_ t == left_ - t)%Q)
    by (apply dsub_money; try done; pose proof exact_bound_pos; lra).
  tx_step. match goal with Hk : ls_take _ _ _ _ = Ok (?b, _) |- _ =>
    apply take_law in Hk as [Hi1 Hh1]; try done; [|lra]; destruct b end.
  - tx_inv. match goal with Hk : consume_ai_loop _ _ _ _ _ = Ok _ |- _ => apply IH in Hk as [Hk Hs] end.
    + split; [eapply draw_post_take; try done; lra|]. simpl. rewrite Hs, Hd. ring.
    + destruct (deq t _); [by apply Forall_inv_tail in Hf|done].
    + done.
    + rewrite Hd. auto with money.
    + rewrite Hd. lra.
  - tx_step. case_match. simplify_eq.
    edestruct after_lost_race_spec as (? & ? & ?); [exact Hf|exact Hi1|eassumption|].
    match goal with Hk : consume_ai_loop _ _ _ _ _ = Ok _ |- _ => apply IH in Hk as [Hk Hs] end; try done.
    split; [|done]. eapply draw_post_refl; [etrans; eassumption|done].
Qed.
End DrawLaws.

(** ** Termination *)

Section DrawFuel.
Context {S : Type} `{LotStore S}.
Context (take_fuel : forall i a b s, ls_take (S := S) i a b s <> Err OutOfFuel).
Context (read_fuel : forall i s, ls_read_open (S := S) i s <> Err OutOfFuel).

Lemma bind_fuel {A B} (m : tx S A) (k : A -> tx S B) s :
  m s <> Err OutOfFuel -> (forall a s1, m s = Ok (a, s1) -> k a s1 <> Err OutOfFuel) ->
  bind m k s <> Err OutOfFuel.
Proof. unfold bind. intros Hm Hk. destruct (m s) as [[a s1]|e] eqn:E; [by apply Hk|congruence]. Qed.

Lemma after_lost_race_fuel lots att s : after_lost_race lots att s <> Err OutOfFuel.
Proof.
  unfold after_lost_race. destruct (_ <? _); [done|]. destruct lots; [done|].
  apply bind_fuel; [apply read_fuel|]. intros [] ?; done.
Qed.

(** A lost race uses up an attempt, and never lengthens the list. *)
Lemma after_lost_race_measure lots att s lots' att' s' :
  after_lost_race lots att s = Ok ((lots', att'), s') ->
  att' = att + 1 /\ att' <= MAX_CAS_ATTEMPTS /\ (length lots' <= length lots)%nat.
Proof.
  unfold after_lost_race. destruct (MAX_CAS_ATTEMPTS <? att + 1) eqn:E; [intros; by tx_inv|].
  destruct lots as [|l rest]; intros Hr; tx_inv; [split_and!; simpl; lia|].
  case_match; tx_inv; split_and!; simpl; lia.
Qed.

Lemma lift_fuel {A} (r : result A) (s : S) : r <> Err OutOfFuel -> lift r s <> Err OutOfFuel.
Proof. unfold lift. destruct r; congruence. Qed.

Lemma rate_for_fuel l tier : rate_for l tier <> Err OutOfFuel.
Proof. unfold rate_for. by repeat case_match. Qed.

Lemma call_loop_fuel fuel tier lots att left_ priced s :
  (draw_fuel lots att <= fuel \/ dlt 0 left_ = false /\ 1 <= fuel)%nat ->
  consume_call_loop fuel tier lots att left_ priced s <> Err OutOfFuel.
Proof.
  revert lots att left_ priced s. induction fuel as [|fuel IH]; intros lots att left_ priced s Hf;
    [unfold draw_fuel in Hf; lia|]. simpl.
  destruct lots as [|l rest]; destruct (dlt 0 left_) eqn:Hp; try done.
  destruct Hf as [Hf|[? _]]; [|done]. unfold draw_fuel in *. simpl in Hf.
  apply bind_fuel; [apply lift_fuel, rate_for_fuel|]. intros rate s1 _.
  destruct (portion_for_call l rate left_) as [[t m] u] eqn:Ep.
  apply bind_fuel; [apply take_fuel|]. intros [] s2 _.
  - apply bind_fuel; [|intros; done]. apply IH. unfold portion_for_call in Ep.
    destruct (dle left_ _); simplify_eq.
    + right. rewrite dsub_self. split; [done|lia].
    + left. assert (deq (credits_remaining l) (credits_remaining l) = true) as ->; [|lia].
      by apply Qeq_bool_iff.
  - apply bind_fuel; [apply after_lost_race_fuel|]. intros [lots' att'] s3 E.
    apply after_lost_race_measure in E as (-> & ? & ?). apply IH. left. simpl in *. lia.
Qed.

Lemma ai_loop_fuel fuel lots att left_ s :
  (draw_fuel lots att <= fuel \/ dlt 0 left_ = false /\ 1 <= fuel)%nat ->
  consume_ai_loop fuel lots att left_ s <> Err OutOfFuel.
Proof.
  revert lots att left_ s. induction fuel as [|fuel IH]; intros lots att left_ s Hf;
    [unfold draw_fuel in Hf; lia|]. simpl.
  destruct lots as [|l rest]; destruct (dlt 0 left_) eqn:Hp; try done.
  destruct Hf as [Hf|[? _]]; [|done]. unfold draw_fuel in *. simpl in Hf.
  apply bind_fuel; [apply take_fuel|]. intros [] s2 _.
  - apply bind_fuel; [|intros; done]. apply IH.
    destruct (dmin_spec left_ (credits_remaining l)) as [[? ->]|[? ->]].
    + right. rewrite dsub_self. split; [done|lia].
    + left. assert (deq (credits_remaining l) (credits_remaining l) = true) as ->; [|lia].
      by apply Qeq_bool_iff.
  - apply bind_fuel; [apply after_lost_race_fuel|]. intros [lots' att'] s3 E.
    apply after_lost_race_measure in E as (-> & ? & ?). apply IH. left. simpl in *. lia.
Qed.
End DrawFuel.

(** ** The draw on a database nobody else is writing *)

Definition tier_rate (l : lot) (tier : string) : Q :=
  if String.eqb tier VALUE_VOICE_TIER then clear_inr_per_min l else studio_inr_per_min l.

(** The reference: one pass over the lots in opening order, with no
    compare-and-swap and no retry. *)
Fixpoint spend_call (tier : string) (lots : list lot) (minutes_left priced_at : Q) : list LotSplit :=
  if dlt 0 minutes_left then
    match lots with
    | [] => [CallSplit None (money (dmul minutes_left priced_at)) (minutes_q minutes_left) priced_at tier]
    | l :: rest =>
        let rate := tier_rate l tier in
        let '(taken, reported, used) := portion_for_call l rate minutes_left in
        CallSplit (Some (l_id l)) taken reported rate tier
          :: spend_call tier rest (dsub minutes_left used) rate
    end
  else [].

Fixpoint spend_ai (lots : list lot) (credits_left : Q) : list LotSplit :=
  if dlt 0 credits_left then
    match lots with
    | [] => [AiAssistSplit None credits_left]
    | l :: rest =>
        let take_ := dmin credits_left (credits_remaining l) in
        AiAssistSplit (Some (l_id l)) take_ :: spend_ai rest (dsub credits_left take_)
    end
  else [].

(** The rows the loop holds are the rows the table holds. *)
Definition current (lots : list lot) (s : db) : Prop :=
  lots_wf (credit_lots s) /\ NoDup (map l_id lots)
  /\ Forall (fun l => In l (credit_lots s) /\ l_tenant l = rls s /\ is_open l = true) lots.

Definition emptied (s : db) (i : uuid) : Prop :=
  exists r, In r (credit_lots s) /\ l_id r = i /\ (credits_remaining r == 0)%Q
            /\ closed_at r <> None.

(** First in, first out: a lot is drawn from only when every earlier one is left
    empty, and the wallet is overdrawn only when all of them are. *)
Definition fifo (lots : list lot) (splits : list LotSplit) (s' : db) : Prop :=
  (forall pre l post, lots = pre ++ l :: post ->
     In (Some (l_id l)) (map split_lot splits) -> Forall (fun x => emptied s' (l_id x)) pre)
  /\ (In None (map split_lot splits) -> Forall (fun x => emptied s' (l_id x)) lots).

(** Rows of other lots are not touched. *)
Definition frame (lots : list lot) (s s' : db) : Prop :=
  rls s' = rls s /\ credit_ledger s' = credit_ledger s
  /\ forall r, In r (credit_lots s) -> ~ In (l_id r) (map l_id lots) -> In r (credit_lots s').

Definition settled (lots : list lot) (splits : list LotSplit) (s s' : db) : Prop :=
  fifo lots splits s' /\ frame lots s s'
  /\ Forall (fun i => i = None \/ exists l, In l lots /\ i = Some (l_id l)) (map split_lot splits).

Lemma take_current l rest s t :
  current (l :: rest) s -> is_money t -> (0 <= t)%Q -> (t <= credits_remaining l)%Q ->
  exists s1, take (l_id l) (credits_remaining l) t s = Ok (true, s1)
    /\ current rest s1 /\ frame [l] s s1
    /\ (t = credits_remaining l -> emptied s1 (l_id l)).
Proof.
  intros ([Hpk Hf] & Hnd & Hc) Ht H0 Hle. apply NoDup_cons in Hnd as [Hni Hnd].
  apply Forall_cons in Hc as [(Hl & Hten & Ho) Hc].
  assert (Hlwf : lot_wf l) by (rewrite List.Forall_forall in Hf; auto).
  pose proof (taken_from_remaining (ticks s 0%nat) t l (lw_remaining l Hlwf) Ht) as Hr.
  assert (Hok : lot_ok (taken_from (ticks s 0%nat) t l) = true).
  { pose proof (proj1 (lot_ok_spec l) (lw_ok l Hlwf)). apply lot_ok_spec. rewrite !Hr.
    unfold taken_from; simpl. lra. }
  set (q := fun r => (l_tenant r =? rls s)
                     && ((l_id r =? l_id l) && deq (credits_remaining r) (credits_remaining l) && is_open r)).
  assert (Hq : q l = true).
  { unfold q. rewrite Hten, Z.eqb_refl, Z.eqb_refl, Ho. simpl. rewrite andb_true_r. by apply Qeq_bool_iff. }
  assert (Hqi : forall r, q r = true -> l_id r = l_id l).
  { unfold q. intros r Hq'. repeat (apply andb_prop in Hq' as [Hq' ?]). lia. }
  assert (Hsel : select q (credit_lots s) = [l]).
  { destruct (select_by_id l_id (credit_lots s) (l_id l) q Hpk Hqi) as [E|(r & E & Hr' & Hqr)].
    - assert (In l (select q (credit_lots s))) as Hin by (by apply select_In). by rewrite E in Hin.
    - rewrite E. f_equal. by apply (pk_unique l_id (credit_lots s)); auto. }
  exists (with_lots (update q (taken_from (ticks s 0%nat) t) (credit_lots s)) (tick s)).
  assert (Hkeep : forall r, In r (credit_lots s) -> l_id r <> l_id l ->
            In r (update q (taken_from (ticks s 0%nat) t) (credit_lots s))).
  { intros r Hr' Hne. apply update_In. exists r. split; [done|].
    destruct (q r) eqn:Eq; [by apply Hqi in Eq|done]. }
  split_and!.
  - unfold take, clock_timestamp, modify, update_lots, bind, gets, ret.
    cbn [tick rls credit_lots ticks]. fold q. rewrite Hsel. simpl.
    rewrite Hok, lot_fits_ok; [simpl|done|apply Hlwf].
    unfold rowcount. by rewrite Hsel.
  - split; [|split; [done|]].
    + apply update_lots_wf; [by split|done|]. intros r Hin Hqr _.
      replace r with l; [by apply taken_from_wf|]. by apply (pk_unique l_id (credit_lots s)); auto; symmetry; apply Hqi.
    + apply List.Forall_forall. intros r Hin. rewrite List.Forall_forall in Hc.
      destruct (Hc r Hin) as (? & ? & ?). split_and!; try done. apply Hkeep; [done|].
      intros E. apply Hni, list_elem_of_In. rewrite <- E. by apply in_map.
  - split; [done|]. split; [done|]. intros r Hin Hn. apply Hkeep; [done|]. intros E. apply Hn. by left.
  - intros ->. exists (taken_from (ticks s 0%nat) (credits_remaining l) l). split_and!; try done.
    + apply update_In. exists l. by rewrite Hq.
    + rewrite Hr. ring.
    + unfold taken_from. simpl. destruct (deq_spec (Qred (credits_remaining l - credits_remaining l)) 0) as [|E];
        [done|]. rewrite Qred_correct in E. exfalso. apply E. ring.
Qed.

Lemma emptied_frame lots s s' i : frame lots s s' -> ~ In i (map l_id lots) -> emptied s i -> emptied s' i.
Proof. intros (_ & _ & Hfr) Hn (r & Hr & <- & ?). exists r. split; [by apply Hfr|done]. Qed.

Lemma settled_refl lots s : settled lots [] s s.
Proof. split; [split; simpl; done|split; [done|constructor]]. Qed.

Lemma settled_over x s : split_lot x = None -> settled [] [x] s s.
Proof.
  intros Hx. split; [split; [by intros []|constructor]|split; [done|]].
  simpl. constructor; [by left|constructor].
Qed.

Lemma settled_last l rest x s s1 :
  NoDup (map l_id (l :: rest)) -> split_lot x = Some (l_id l) -> frame [l] s s1 ->
  settled (l :: rest) [x] s s1.
Proof.
  intros Hnd Hx (? & ? & Hfr). split; [split|split; [split; [done|split; [done|]]|]]; simpl; rewrite ?Hx.
  - intros [|y pre] z post E Hin; [done|]. injection E as -> ->. exfalso.
    destruct Hin as [[= Hin]|[]]. simpl in Hnd. apply NoDup_cons in Hnd as [Hn _].
    apply Hn, list_elem_of_In. rewrite Hin, map_app. apply in_or_app. right. by left.
  - by intros [|[]].
  - intros r Hr Hn. apply Hfr; [done|]. simpl. naive_solver.
  - constructor; [right; exists l; split; [by left|done]|constructor].
Qed.

Lemma settled_drained l rest x splits s s1 s2 :
  NoDup (map l_id (l :: rest)) -> split_lot x = Some (l_id l) -> frame [l] s s1 ->
  emptied s1 (l_id l) -> settled rest splits s1 s2 -> settled (l :: rest) (x :: splits) s s2.
Proof.
  intros Hnd Hx (? & ? & Hfr) He ([Hfi Hov] & Hfr2 & Hin). simpl in Hnd.
  apply NoDup_cons in Hnd as [Hn Hnd].
  assert (Hne : ~ In (l_id l) (map l_id rest)) by (intros Hk; by apply Hn, list_elem_of_In).
  assert (He2 : emptied s2 (l_id l)) by (by eapply emptied_frame).
  pose proof Hfr2 as (? & ? & Hfr2').
  split; [split|split; [split; [congruence|split; [congruence|]]|]]; simpl; rewrite ?Hx.
  - intros [|y pre] z post E Hk; [done|]. injection E as -> ->. constructor; [done|].
    destruct Hk as [[= Hk]|Hk]; [|by eapply Hfi].
    exfalso. apply Hne. rewrite Hk, map_app. apply in_or_app. right. by left.
  - intros [|Hk]; [done|]. constructor; [done|by apply Hov].
  - intros r Hr Hk. apply Hfr2'; [apply Hfr; [done|]|]; simpl; naive_solver.
  - constructor; [right; exists l; split; [by left|done]|].
    eapply Forall_impl; [exact Hin|]. intros i [->|(y & ? & ->)]; [by left|right; exists y; split; [by right|done]].
Qed.

Lemma spend_call_stop tier lots m p : dlt 0 m = false -> spend_call tier lots m p = [].
Proof. destruct lots; simpl; by intros ->. Qed.

Lemma spend_ai_stop lots c : dlt 0 c = false -> spend_ai lots c = [].
Proof. destruct lots; simpl; by intros ->. Qed.

Lemma rate_for_tier l tier : In tier VOICE_TIERS -> rate_for l tier = Ok (tier_rate l tier).
Proof. by intros [<-|[<-|[]]]. Qed.

Lemma tier_rate_pos l tier : lot_wf l -> (0 < tier_rate l tier)%Q.
Proof. intros [Hok]. apply lot_ok_spec in Hok. unfold tier_rate. destruct (String.eqb _ _); lra. Qed.

Lemma current_head l rest s : current (l :: rest) s -> lot_wf l /\ NoDup (map l_id (l :: rest)).
Proof.
  intros ([_ Hf] & Hnd & Hc). apply Forall_cons in Hc as [[Hl _] _].
  rewrite List.Forall_forall in Hf. auto.
Qed.

Lemma call_loop_uncontended fuel tier lots att left_ priced s :
  (draw_fuel lots att <= fuel \/ dlt 0 left_ = false /\ 1 <= fuel)%nat ->
  current lots s -> In tier VOICE_TIERS ->
  exists s', consume_call_loop fuel tier lots att left_ priced s
             = Ok (spend_call tier lots left_ priced, s')
             /\ settled lots (spend_call tier lots left_ priced) s s'.
Proof.
  intros Hfuel Hc Ht. revert lots left_ priced s Hfuel Hc.
  induction fuel as [|fuel IH]; intros lots left_ priced s Hfuel Hc; [unfold draw_fuel in Hfuel; lia|].
  destruct (dlt 0 left_) eqn:Hp.
  2:{ rewrite spend_call_stop by done. exists s. split; [|apply settled_refl].
      simpl. rewrite Hp. by destruct lots. }
  destruct Hfuel as [Hfuel|[? _]]; [|done]. unfold draw_fuel in *.
  destruct lots as [|l rest]; simpl; rewrite Hp.
  - exists s. split; [done|by apply settled_over].
  - destruct (current_head _ _ _ Hc) as [Hl Hnd]. pose proof (tier_rate_pos l tier Hl) as Hr.
    dcase. destruct (portion_for_call l (tier_rate l tier) left_) as [[t m] u] eqn:Ep.
    destruct (portion_spec _ _ _ _ _ _ Hl Hr Hp Ep) as (Hm & H0t & Hle & _ & _ & _ & _ & Hdone).
    destruct (take_current l rest s t Hc Hm H0t Hle) as (s1 & Hk & Hc1 & Hfr & He).
    unfold bind at 1. rewrite rate_for_tier by done. simpl. rewrite Ep.
    unfold bind at 1. rewrite Hk. cbn iota beta.
    destruct Hdone as [[-> Hlt]|Hz].
    + assert (deq (credits_remaining l) (credits_remaining l) = true) as -> by by apply Qeq_bool_iff.
      destruct (IH rest (dsub left_ u) (tier_rate l tier) s1) as (s2 & Hrun & Hset);
        [left; simpl in *; lia|done|].
      exists s2. unfold bind. rewrite Hrun. split; [done|].
      eapply settled_drained; try done. by apply He.
    + rewrite Hz, spend_call_stop by done. exists s1. split; [|by apply settled_last].
      destruct fuel as [|fuel']; [simpl in *; lia|]. unfold bind. by destruct (if deq _ _ then _ else _).
Qed.

Lemma ai_loop_uncontended fuel lots att left_ s :
  (draw_fuel lots att <= fuel \/ dlt 0 left_ = false /\ 1 <= fuel)%nat ->
  current lots s -> is_money left_ -> (left_ < exact_bound)%Q ->
  exists s', consume_ai_loop fuel lots att left_ s = Ok (spend_ai lots left_, s')
             /\ settled lots (spend_ai lots left_) s s'.
Proof.
  intros Hfuel Hc. revert lots left_ s Hfuel Hc.
  induction fuel as [|fuel IH]; intros lots left_ s Hfuel Hc Hml Hb; [unfold draw_fuel in Hfuel; lia|].
  destruct (dlt 0 left_) eqn:Hp.
  2:{ rewrite spend_ai_stop by done. exists s. split; [|apply settled_refl].
      simpl. rewrite Hp. by destruct lots. }
  destruct Hfuel as [Hfuel|[? _]]; [|done]. unfold draw_fuel in *.
  destruct lots as [|l rest]; simpl; rewrite Hp.
  - exists s. split; [done|by apply settled_over].
  - destruct (current_head _ _ _ Hc) as [Hl Hnd]. pose proof Hl as [Hok _ _ Hmr _ _ _].
    apply lot_ok_spec in Hok. dcase.
    set (t := dmin left_ (credits_remaining l)) in *.
    assert (Hmt : is_money t) by (apply is_money_min; done).
    assert (Ht : (0 <= t /\ t <= credits_remaining l)%Q)
      by (subst t; destruct (dmin_spec left_ (credits_remaining l)) as [[? ->]|[? ->]]; lra).
    destruct (take_current l rest s t Hc Hmt (proj1 Ht) (proj2 Ht)) as (s1 & Hk & Hc1 & Hfr & He).
    unfold bind at 1. rewrite Hk. cbn iota beta.
    destruct (dmin_spec left_ (credits_remaining l)) as [[Hlt Ed]|[Hlt Ed]]; fold t in Ed.
    + rewrite Ed, dsub_self, spend_ai_stop by done. exists s1. split; [|by apply settled_last].
      destruct fuel as [|fuel']; [simpl in *; lia|]. unfold bind. by destruct (if deq _ _ then _ else _).
    + rewrite Ed. assert (deq (credits_remaining l) (credits_remaining l) = true) as ->
        by by apply Qeq_bool_iff.
      assert (Hd : (dsub left_ (credits_remaining l) == left_ - credits_remaining l)%Q)
        by (apply dsub_money; try done; pose proof exact_bound_pos; lra).
      destruct (IH rest (dsub left_ (credits_remaining l)) s1) as (s2 & Hrun & Hset);
        [left; simpl in *; lia|done|rewrite Hd; auto with money|rewrite Hd; lra|].
      exists s2. unfold bind. rewrite Hrun. split; [done|].
      eapply settled_drained; try done. by apply He.
Qed.

(** ** Other writers

    A database another session's committed statement may change before each of
    ours: the next entry of [rivals].  [rival_moved] is what they took, less what
    they put in. *)
Record race := Race { rdb : db; rivals : list (db -> db); rival_moved : Q }.

Definition rival_turn (r : race) : race :=
  match rivals r with
  | [] => r
  | f :: fs =>
      let s := f (rdb r) in
      Race s fs (rival_moved r + (lots_sum (rls (rdb r)) (credit_lots (rdb r))
                                  - lots_sum (rls s) (credit_lots s)))
  end.

Definition in_race {A} (m : tx db A) : tx race A := fun r =>
  let r := rival_turn r in
  match m (rdb r) with
  | Ok (a, s) => Ok (a, Race s (rivals r) (rival_moved r))
  | Err e => Err e
  end.

#[export] Instance race_store : LotStore race :=
  {| ls_take i a b := in_race (take i a b); ls_read_open i := in_race (read_open_lot i) |}.

(** Whatever a rival does, the table's rows stay sound, and the session keeps its
    tenant. *)
Definition rival_ok (f : db -> db) : Prop :=
  forall s, rls (f s) = rls s /\ (lots_wf (credit_lots s) -> lots_wf (credit_lots (f s))).

Definition race_ok (r : race) : Prop := lots_wf (credit_lots (rdb r)) /\ Forall rival_ok (rivals r).
Definition race_held (r : race) : Q := lots_sum (rls (rdb r)) (credit_lots (rdb r)) + rival_moved r.

Lemma rival_turn_ok r : race_ok r -> race_ok (rival_turn r) /\ (race_held (rival_turn r) == race_held r)%Q.
Proof.
  intros [Hw Hr]. unfold rival_turn, race_held, race_ok. destruct (rivals r) as [|f fs] eqn:E;
    [by rewrite E|]. apply Forall_cons in Hr as [Hf Hr]. simpl. split; [split; [by apply Hf|done]|ring].
Qed.

#[export] Program Instance race_store_laws : LotStoreLaws race :=
  {| held := race_held; store_inv := race_ok |}.
Next Obligation.
  intros i seen t r b r' Hinv Ht H0 H. apply rival_turn_ok in Hinv as [[Hw Hr] Hh].
  unfold ls_take in H. simpl in H. unfold in_race in H.
  destruct (take i seen t (rdb (rival_turn r))) as [[b' s']|] eqn:E; [|done]. injection H as <- <-.
  pose proof (take_law i seen t (rdb (rival_turn r)) b' s' Hw Ht H0 E) as [Hi He].
  split; [done|]. unfold race_held in *. simpl in *. destruct b'; lra.
Qed.
Next Obligation.
  intros i r o r' Hinv H. apply rival_turn_ok in Hinv as [[Hw Hr] Hh].
  unfold ls_read_open in H. simpl in H. unfold in_race in H.
  destruct (read_open_lot i (rdb (rival_turn r))) as [[o' s']|] eqn:E; [|done]. injection H as <- <-.
  pose proof (read_law i (rdb (rival_turn r)) o' s' Hw E) as (Hi & He & Hl).
  split; [done|]. split; [|done]. unfold race_held in *. simpl in *. lra.
Qed.

(** A demand the callers make: an AI debit within the wallet's range, a call at
    rates that are not negative. *)
Definition demand_ok (d : LotDemand) : Prop :=
  match d with
  | DemandCall c => (0 <= r_clear (fallback_rates c))%Q /\ (0 <= r_studio (fallback_rates c))%Q
  | DemandAi q => (0 <= q)%Q /\ (money q < exact_bound)%Q
  end.

Lemma fallback_nonneg c p : demand_ok (DemandCall c) -> fallback_inr_per_min c = Ok p -> (0 <= p)%Q.
Proof. intros [? ?]. unfold fallback_inr_per_min, rates_for. repeat case_match; by intros [= <-]. Qed.

Lemma draw_spec {S} `{HL : LotStoreLaws S} lots demand (s : S) splits s' :
  Forall lot_wf lots -> store_inv s -> demand_ok demand -> draw lots demand s = Ok (splits, s') ->
  draw_post s splits s'
  /\ match demand with
     | DemandAi q => (qsum (map split_credits splits) == money q)%Q
     | DemandCall _ => True
     end.
Proof.
  intros Hf Hi Hd H0. destruct demand as [c|q]; simpl in H0.
  - unfold consume_call in H0. tx_inv. split; [|done].
    eapply consume_call_loop_post; [| | |eassumption]; try done. by eapply fallback_nonneg.
  - destruct Hd as [Hq Hb]. eapply consume_ai_loop_post; [| | | |eassumption]; try done.
    + apply is_money_money.
    + split; [by apply money_nonneg|done].
Qed.

Lemma read_open_lots_current t s lots s' :
  lots_wf (credit_lots s) -> read_open_lots t s = Ok (lots, s') ->
  s' = s /\ current lots s /\ StronglySorted (fun a b => by_opening a b = true) lots
  /\ (forall l, In l lots <-> In l (credit_lots s) /\ l_tenant l = rls s /\ l_tenant l = t
                              /\ is_open l = true).
Proof.
  intros Hw H. unfold read_open_lots in H. tx_inv.
  assert (Hin : forall l, In l (order_by by_opening
     (select (fun l => (l_tenant l =? rls s) && (l_tenant l =? t) && is_open l) (credit_lots s)))
     <-> In l (credit_lots s) /\ l_tenant l = rls s /\ l_tenant l = t /\ is_open l = true).
  { intros l. rewrite order_by_In, select_In. split.
    - intros [? Hp]. apply andb_prop in Hp as [Hp ?]. apply andb_prop in Hp as [? ?]. split_and!; try done; lia.
    - intros (? & -> & <- & ->). by rewrite Z.eqb_refl. }
  split; [done|]. split; [split; [done|split]|split; [|done]].
  - rewrite order_by_perm. apply (sublist_NoDup _ (map l_id (credit_lots s))); [apply Hw|].
    clear. induction (credit_lots s) as [|x t' IH]; simpl; [constructor|].
    destruct (_ && _); simpl; by constructor.
  - apply List.Forall_forall. intros l Hl. apply Hin in Hl as (? & ? & ? & ?). done.
  - apply order_by_sorted; intros; [apply le_at_id_total|by eapply le_at_id_trans].
Qed.

(** ** What the draw promises *)

(** C17. The draw spends no credit twice: whatever other sessions commit between
    its statements, what the lots hold falls by exactly the credits of the splits
    that name a lot and by what the others moved; every split is a non-negative
    amount of money; an AI debit is served for exactly the amount asked. *)
Theorem draw_conserves (r : race) lots demand splits r' :
  race_ok r -> Forall lot_wf lots -> demand_ok demand -> draw lots demand r = Ok (splits, r') ->
  race_ok r'
  /\ (lots_sum (rls (rdb r')) (credit_lots (rdb r')) + (rival_moved r' - rival_moved r)
      == lots_sum (rls (rdb r)) (credit_lots (rdb r)) - drawn splits)%Q
  /\ Forall split_sound splits
  /\ match demand with
     | DemandAi q => (drawn splits + overdraft splits == money q)%Q
     | DemandCall _ => True
     end.
Proof.
  intros Hr Hf Hd H0. apply draw_spec in H0 as ((Hi & Hh & Hs) & Ha); try done.
  split_and!; try done.
  - simpl in Hh. unfold race_held in Hh. lra.
  - destruct demand; [done|]. by rewrite <- drawn_overdraft.
Qed.

(** C35. The draw always comes to an end: against a database other sessions write
    to at will it returns the splits or raises within its fuel, the retries being
    bounded by [MAX_CAS_ATTEMPTS]. *)
Theorem draw_terminates lots demand (r : race) : draw lots demand r <> Err OutOfFuel.
Proof.
  assert (Ht : forall i a b (s : race), ls_take i a b s <> Err OutOfFuel).
  { intros i a b s. simpl. unfold in_race.
    destruct (take i a b (rdb (rival_turn s))) as [[]|e] eqn:E; [done|].
    intros [= ->]. revert E. unfold take. apply bind_fuel; [done|]. intros now s1 _.
    apply bind_fuel; [|done]. unfold update_lots, bind, gets. by repeat destruct (existsb _ _). }
  assert (Hr : forall i (s : race), ls_read_open i s <> Err OutOfFuel) by done.
  destruct demand as [d|q]; simpl.
  - apply bind_fuel.
    + apply lift_fuel. unfold fallback_inr_per_min, rates_for. by repeat case_match.
    + intros a s1 _. apply call_loop_fuel; auto with arith.
  - apply ai_loop_fuel; auto with arith.
Qed.

(** The reference draw of a whole demand. *)
Definition spend (lots : list lot) (demand : LotDemand) : list LotSplit :=
  match demand with
  | DemandCall d =>
      match fallback_inr_per_min d with
      | Ok p => spend_call (voice_tier d) lots (d_minutes d) p
      | Err _ => []
      end
  | DemandAi q => spend_ai lots (money q)
  end.

Definition known_tier (d : LotDemand) : Prop :=
  match d with DemandCall c => In (voice_tier c) VOICE_TIERS | DemandAi _ => True end.

Lemma consume_uncontended s tenant_id demand :
  lots_wf (credit_lots s) -> demand_ok demand -> known_tier demand ->
  exists lots s',
    read_open_lots tenant_id s = Ok (lots, s)
    /\ consume tenant_id demand s = Ok (spend lots demand, s')
    /\ fifo lots (spend lots demand) s' /\ frame lots s s'
    /\ StronglySorted (fun a b => by_opening a b = true) lots
    /\ lots_wf (credit_lots s')
    /\ (lots_sum (rls s) (credit_lots s')
        == lots_sum (rls s) (credit_lots s) - drawn (spend lots demand))%Q.
Proof.
  intros Hw Hd Ht. destruct (read_open_lots tenant_id s) as [[lots s0]|] eqn:E; [|done].
  destruct (read_open_lots_current _ _ _ _ Hw E) as (-> & Hc & Hs & Hin).
  assert (exists s', draw lots demand s = Ok (spend lots demand, s')
                     /\ settled lots (spend lots demand) s s') as (s' & Hrun & Hset).
  { destruct demand as [c|q]; simpl.
    - assert (exists p, fallback_inr_per_min c = Ok p) as [p Hp].
      { unfold fallback_inr_per_min. destruct Ht as [<-|[<-|[]]]; simpl; eauto. }
      unfold consume_call, bind, lift. rewrite Hp. apply call_loop_uncontended; auto.
    - apply ai_loop_uncontended; auto; [apply is_money_money|apply Hd]. }
  destruct Hset as (Hfi & Hfr & _).
  assert (Hf : Forall lot_wf lots).
  { apply List.Forall_forall. intros l Hl. apply Hin in Hl as [Hl _].
    destruct Hw as [_ Hw]. rewrite List.Forall_forall in Hw. auto. }
  pose proof (draw_spec lots demand s _ s' Hf Hw Hd Hrun) as [(Hi & Hh & _) _]. simpl in Hi, Hh.
  exists lots, s'. split_and!; try done.
  - unfold consume, bind. by rewrite E.
  - pose proof Hfr as (Hrls & _). by rewrite Hrls in Hh.
Qed.

(** C18. On a database nobody else writes to, [consume] always returns, with the
    splits of the reference draw over the tenant's open lots in opening order;
    lots are emptied first in, first out, the overdraft comes only when all are
    empty, no other row is touched, and what the lots hold falls by exactly what
    the splits drew. *)
Theorem consume_refines s tenant_id demand :
  lots_wf (credit_lots s) -> demand_ok demand -> known_tier demand ->
  exists lots s',
    read_open_lots tenant_id s = Ok (lots, s)
    /\ consume tenant_id demand s = Ok (spend lots demand, s')
    /\ fifo lots (spend lots demand) s' /\ frame lots s s'
    /\ StronglySorted (fun a b => by_opening a b = true) lots
    /\ lots_wf (credit_lots s')
    /\ (lots_sum (rls s) (credit_lots s')
        == lots_sum (rls s) (credit_lots s) - drawn (spend lots demand))%Q.
Proof. apply consume_uncontended. Qed.

(** ** Restating a lot *)

Lemma numeric_limit_bound : (numeric_limit + numeric_limit < exact_bound)%Q.
Proof. reflexivity. Qed.

Lemma restated_as_wf now delta l :
  lot_wf l -> is_money delta -> lot_ok (restated_as now delta l) = true ->
  lot_fits (restated_as now delta l) = true -> lot_wf (restated_as now delta l).
Proof.
  intros [] Hm Hok Hfit. apply andb_prop in Hfit as [Hfit _]. apply fits_spec in Hfit as [Hfit _].
  constructor; try done; unfold restated_as; simpl.
  - rewrite Qred_correct. auto with money.
  - apply is_money_max; [rewrite Qred_correct; auto with money|auto with money].
  - destruct (deq_spec (dmax (Qred (credits_remaining l + delta)) 0) 0) as [E|E].
    + by split; [|intros _].
    + split; [done|]. intros E'. contradiction.
Qed.

Lemma read_lot_spec i s o s' :
  read_lot i s = Ok (o, s') ->
  s' = s /\ match o with
            | Some l => In l (credit_lots s) /\ l_tenant l = rls s /\ l_id l = i
            | None => forall l, In l (credit_lots s) -> l_tenant l = rls s -> l_id l <> i
            end.
Proof.
  intros H. unfold read_lot in H. tx_inv. split; [done|].
  destruct (one_row _) as [l|] eqn:E.
  - apply one_row_In, select_In in E as [? Hp]. apply andb_prop in Hp as [? ?]. split_and!; try done; lia.
  - intros l Hl Ht Hi. assert (Hin : In l (select (fun l => (l_tenant l =? rls s) && (l_id l =? i)) (credit_lots s)))
      by (apply select_In; split; [done|]; lia).
    unfold one_row in E. by destruct (select _ _).
Qed.

Lemma restate_spec s lot_id delta rs s' :
  lots_wf (credit_lots s) -> is_money delta ->
  adjust_lot_for_restatement lot_id delta s = Ok (rs, s') ->
  exists l r, In l (credit_lots s) /\ l_id l = lot_id /\ l_tenant l = rls s
    /\ In r (credit_lots s') /\ l_id r = lot_id
    /\ (credits_total r == credits_total l + delta)%Q /\ (rs_total rs == credits_total r)%Q
    /\ (credits_remaining r == rs_remaining rs)%Q
    /\ (rs_remaining rs == credits_remaining l + delta + rs_shortfall rs)%Q
    /\ (0 <= rs_shortfall rs)%Q /\ (0 < rs_shortfall rs -> rs_remaining rs == 0)%Q
    /\ (rs_closed rs = true <-> closed_at r <> None)
    /\ lots_wf (credit_lots s')
    /\ (lots_sum (rls s) (credit_lots s')
        == lots_sum (rls s) (credit_lots s) + delta + rs_shortfall rs)%Q.
Proof.
  intros [Hpk Hf] Hm H. unfold adjust_lot_for_restatement, clock_timestamp in H.
  destruct (deq delta 0); [by tx_inv|]. tx_step.
  match goal with Hr : read_lot _ _ = Ok (?o, _) |- _ =>
    apply read_lot_spec in Hr as [-> Hr]; destruct o as [l|] end; [|by tx_inv].
  match goal with Hr : _ /\ _ |- _ => destruct Hr as (Hl & Hten & Hid) end.
  destruct (dle_spec (dadd (credits_total l) delta) 0) as [|Hpos]; [by tx_inv|]. tx_inv.
  match goal with Hu : update_lots _ _ _ = Ok (?n, _) |- _ =>
    destruct (negb (Nat.eqb n 1)) eqn:En; [by tx_inv|];
    apply (update_lots_by_id _ _ (l_id l)) in Hu; [|done|] end; tx_inv.
  2:{ intros r Hr. repeat (apply andb_prop in Hr as [Hr ?]). lia. }
  match goal with Hu : _ \/ _ |- _ =>
    destruct Hu as [[-> _]|(-> & l' & Hl' & _ & Hp & Hok & Hfit & ->)]; [done|] end.
  assert (l' = l) as ->.
  { apply (pk_unique l_id (credit_lots s)); try done. repeat (apply andb_prop in Hp as [Hp ?]). lia. }
  assert (Hlwf : lot_wf l) by (rewrite List.Forall_forall in Hf; auto).
  assert (Hmm : (money delta == delta)%Q) by (by apply quantize_money).
  assert (Hmm' : is_money (money delta)) by apply is_money_money.
  pose proof Hlwf as [Hlok Hlf Hmt Hmr _ _ _]. apply lot_ok_spec in Hlok.
  set (r := restated_as (ticks s 0%nat) (money delta) l) in *.
  assert (Ht : (credits_total r == credits_total l + delta)%Q)
    by (unfold r, restated_as; simpl; by rewrite Qred_correct, Hmm).
  pose proof Hok as Hrok. apply lot_ok_spec in Hrok. pose proof Hfit as Hrf.
  apply andb_prop in Hrf as [Hrf _]. apply fits_spec in Hrf as [Hrf _].
  pose proof numeric_limit_bound. assert (0 < numeric_limit)%Q by reflexivity.
  assert (Hrem : (credits_remaining r == dmax (Qred (credits_remaining l + money delta)) 0)%Q) by reflexivity.
  assert (Hd1 : (dadd (credits_total l) delta == credits_total l + delta)%Q) by (apply dadd_money; auto; lra).
  assert (Hd2 : (dadd (credits_remaining l) delta == credits_remaining l + delta)%Q) by (apply dadd_money; auto; lra).
  assert (Hd3 : (dneg delta == - delta)%Q) by (apply round28_money; auto with money; qabs).
  assert (Hmx : (dmax (dadd (credits_remaining l) delta) 0 == credits_remaining r)%Q).
  { rewrite Hrem. destruct (dmax_spec (dadd (credits_remaining l) delta) 0) as [[? ->]|[? ->]],
      (dmax_spec (Qred (credits_remaining l + money delta)) 0) as [[? ->]|[? ->]];
      rewrite Qred_correct, Hmm in *; lra. }
  assert (Hd4 : (dsub (dneg delta) (credits_remaining l) == - delta - credits_remaining l)%Q).
  { rewrite dsub_money; [lra|rewrite Hd3; auto with money|done|lra|lra]. }
  assert (Hsh : (quantize MONEY_SCALE ROUND_HALF_UP (dmax (dsub (dneg delta) (credits_remaining l)) 0)
                 == dmax (dsub (dneg delta) (credits_remaining l)) 0)%Q).
  { apply quantize_money, is_money_max; [|auto with money]. rewrite Hd4. auto with money. }
  assert (Hrs : (money (dmax (dadd (credits_remaining l) delta) 0) == credits_remaining r)%Q).
  { unfold money. rewrite quantize_money by (rewrite Hmx; apply (restated_as_wf (ticks s 0%nat)); done). done. }
  assert (Hval : (credits_remaining r == credits_remaining l + delta + dmax (dsub (dneg delta) (credits_remaining l)) 0
                  /\ (0 < dmax (dsub (dneg delta) (credits_remaining l)) 0 -> credits_remaining r == 0))%Q).
  { rewrite <- Hmx. destruct (dmax_spec (dadd (credits_remaining l) delta) 0) as [[? ->]|[? ->]],
      (dmax_spec (dsub (dneg delta) (credits_remaining l)) 0) as [[? ->]|[? ->]]; split; lra. }
  destruct Hval as [Hval Hval0].
  assert (Hrwf : lot_wf r) by (by apply restated_as_wf).
  cbn [tick rls credit_lots with_lots].
  set (p := fun x => (l_tenant x =? rls s) && ((l_id x =? l_id l) && _ && _)) in *.
  assert (Hpl : p l = true) by (unfold p; rewrite Hten, Z.eqb_refl; done).
  assert (Hpi : forall x, p x = true -> l_id x = l_id l).
  { unfold p. intros x Hx. apply andb_prop in Hx as [_ Hx]. repeat (apply andb_prop in Hx as [Hx ?]). lia. }
  exists l, r. cbn [rs_total rs_remaining rs_shortfall rs_closed credit_lots with_lots].
  split; [done|]. split; [done|]. split; [done|]. split; [apply update_In; exists l; by rewrite Hpl|].
  split; [done|]. split; [done|]. split.
  { unfold money. rewrite quantize_money; [by rewrite Hd1, Ht|rewrite Hd1; auto with money]. }
  split; [by symmetry|]. unfold money in Hrs |- *. rewrite Hsh, Hrs. fold (money delta).
  split; [done|]. split.
  { destruct (dmax_spec (dsub (dneg delta) (credits_remaining l)) 0) as [[? ->]|[? ->]]; lra. }
  split; [done|]. split; [rewrite (lw_closed r Hrwf), <- Hmx; apply Qeq_bool_iff|]. split.
  - apply update_lots_wf; [by split|done|]. intros x Hx Hpx _. replace x with l; [done|].
    apply (pk_unique l_id (credit_lots s)); auto. symmetry; auto.
  - rewrite (lots_sum_update (rls s) p _ _ l); try done. fold r. rewrite Hval. ring.
Qed.

(** Restating a purchase adjusts its lot exactly: the total moves by the
    delta; what remains moves by it down to zero; what could not be clawed back is
    reported as the shortfall; the values returned are the row's, the lot is
    closed when empty and reopened when not, and no other lot moves. *)
Theorem restatement_exact s lot_id delta rs s' :
  lots_wf (credit_lots s) -> is_money delta ->
  adjust_lot_for_restatement lot_id delta s = Ok (rs, s') ->
  exists l r, In l (credit_lots s) /\ l_id l = lot_id /\ l_tenant l = rls s
    /\ In r (credit_lots s') /\ l_id r = lot_id
    /\ (credits_total r == credits_total l + delta)%Q /\ (rs_total rs == credits_total r)%Q
    /\ (credits_remaining r == rs_remaining rs)%Q
    /\ (rs_remaining rs == credits_remaining l + delta + rs_shortfall rs)%Q
    /\ (0 <= rs_shortfall rs)%Q /\ (0 < rs_shortfall rs -> rs_remaining rs == 0)%Q
    /\ (rs_closed rs = true <-> closed_at r <> None)
    /\ lots_wf (credit_lots s')
    /\ (lots_sum (rls s) (credit_lots s')
        == lots_sum (rls s) (credit_lots s) + delta + rs_shortfall rs)%Q.
Proof. apply restate_spec. Qed.

(** ** What a draw leaves alone *)

(** All of a lot but its position. *)
Definition terms_of (l : lot) : lot := set_position 0 0 None l.
Definition same_terms (t t' : list lot) : Prop := map terms_of t' = map terms_of t.

(** The lots of the tenants other than [tenant]. *)
Definition others (tenant : uuid) (t : list lot) : list lot :=
  select (fun l => negb (l_tenant l =? tenant)) t.

(** Only the positions of the session's own lots and the clock moved. *)
Record still (s s' : db) : Prop := Still {
  st_rls : rls s' = rls s;
  st_ids : ids s' = ids s;
  st_ledger : credit_ledger s' = credit_ledger s;
  st_lines : low_balance_lines s' = low_balance_lines s;
  st_outbox : outbox_messages s' = outbox_messages s;
  st_terms : same_terms (credit_lots s) (credit_lots s');
  st_others : others (rls s) (credit_lots s') = others (rls s) (credit_lots s);
  st_ticks : exists k, forall n, ticks s' n = ticks s (n + k)%nat
}.

Lemma still_refl s : still s s.
Proof. constructor; try done. exists 0%nat. intros n. by rewrite Nat.add_0_r. Qed.

Lemma still_trans s1 s2 s3 : still s1 s2 -> still s2 s3 -> still s1 s3.
Proof.
  intros [R1 ? ? ? ? T1 O1 [k1 Hk1]] [? ? ? ? ? T2 O2 [k2 Hk2]]. rewrite R1 in *.
  constructor; unfold same_terms in *; try congruence.
  exists (k2 + k1)%nat. intros n. rewrite Hk2, Hk1. f_equal. lia.
Qed.

Lemma still_tick s : still s (tick s).
Proof. constructor; try done. exists 1%nat. intros n. simpl. f_equal. lia. Qed.

(** A projection an update's function keeps is kept by the update. *)
Lemma update_map {B} (g : lot -> B) p f t :
  (forall l, g (f l) = g l) -> map g (update p f t) = map g t.
Proof.
  intros H. unfold update. rewrite map_map. apply map_ext. intros l. destruct (p l); [apply H|done].
Qed.

Lemma update_others tenant p f t :
  (forall l, l_tenant (f l) = l_tenant l) ->
  others tenant (update (fun l => (l_tenant l =? tenant) && p l) f t) = others tenant t.
Proof.
  intros Hf. unfold others, select, update. induction t as [|l t IH]; [done|]. simpl. rewrite IH.
  destruct (l_tenant l =? tenant) eqn:E; simpl; [|by rewrite E].
  destruct (p l); rewrite ?Hf, E; done.
Qed.

Lemma still_update p f s :
  (forall l, terms_of (f l) = terms_of l) ->
  still s (with_lots (update (fun l => (l_tenant l =? rls s) && p l) f (credit_lots s)) s).
Proof.
  intros Hf. constructor; try done.
  - simpl. by apply update_map.
  - apply update_others. intros l. exact (f_equal l_tenant (Hf l)).
  - exists 0%nat. intros n. by rewrite Nat.add_0_r.
Qed.

Lemma take_still i seen t s b s' : lots_wf (credit_lots s) -> is_money t -> take i seen t s = Ok (b, s') -> still s s'.
Proof.
  intros Hw Ht H. apply take_spec in H; [|done|done]. destruct b; [|subst; apply still_tick].
  destruct H as (l & _ & _ & _ & _ & _ & _ & -> & _).
  eapply still_trans; [apply still_tick|]. by apply (still_update _ _ (tick s)).
Qed.

Lemma same_terms_In t t' l' : same_terms t t' -> In l' t' -> exists l, In l t /\ terms_of l = terms_of l'.
Proof.
  intros H Hin. assert (Hm : In (terms_of l') (map terms_of t)) by (rewrite <- H; by apply in_map).
  apply in_map_iff in Hm as (l & E & Hl). eauto.
Qed.

Lemma same_terms_ids t t' : same_terms t t' -> map l_id t' = map l_id t.
Proof. intros H. apply (f_equal (map l_id)) in H. by rewrite !map_map in H. Qed.

(** The database as a store, remembering where the draw began. *)
Program Definition laws_from (s0 : db) : LotStoreLaws db := {|
  held s := lots_sum (rls s) (credit_lots s);
  store_inv s := lots_wf (credit_lots s) /\ still s0 s
|}.
Next Obligation.
  intros s0 i seen t s b s' [Hinv Hst] Ht H0 H. pose proof (take_still i seen t s b s' Hinv Ht H) as Hq.
  destruct (@take_law db _ db_store_laws i seen t s b s' Hinv Ht H0 H) as [Hw Hh].
  split; [split; [done|by eapply still_trans]|done].
Qed.
Next Obligation.
  intros s0 i s o s' [Hinv Hst] H. destruct (@read_law db _ db_store_laws i s o s' Hinv H) as (Hw & Hh & Hl).
  unfold ls_read_open in H. simpl in H. unfold read_open_lot in H. tx_inv. done.
Qed.

Lemma lots_sum_zero tenant t :
  (forall l, In l t -> l_tenant l = tenant -> (credits_remaining l == 0)%Q) -> (lots_sum tenant t == 0)%Q.
Proof.
  intros H. unfold lots_sum, sum_over. induction t as [|l t IH]; simpl; [done|].
  rewrite IH by (intros x Hx; apply H; by right). destruct (l_tenant l =? tenant) eqn:E; [|ring].
  rewrite (H l); [ring|by left|lia].
Qed.

Lemma overdraft_pos splits : (0 < overdraft splits)%Q -> In None (map split_lot splits).
Proof.
  induction splits as [|x l IH]; [unfold overdraft; simpl; lra|]. rewrite overdraft_cons. simpl.
  destruct (split_lot x); [|by left]. intros H. right. apply IH. lra.
Qed.

Lemma drawn_sound splits :
  Forall split_sound splits -> (0 <= drawn splits)%Q /\ (0 <= overdraft splits)%Q.
Proof.
  induction 1 as [|x l [_ Hx] _ [IH1 IH2]]; [done|]. rewrite drawn_cons, overdraft_cons.
  destruct (split_lot x); lra.
Qed.

(** A draw by the lots' own tenant: the lots fall by what was asked, down to nothing. *)
Lemma consume_spec s demand splits s' :
  lots_wf (credit_lots s) -> demand_ok demand -> consume (rls s) demand s = Ok (splits, s') ->
  lots_wf (credit_lots s') /\ still s s' /\ Forall split_sound splits
  /\ (lots_sum (rls s) (credit_lots s') == lots_sum (rls s) (credit_lots s) - drawn splits)%Q
  /\ ((0 < overdraft splits)%Q -> (lots_sum (rls s) (credit_lots s') == 0)%Q)
  /\ match demand with
     | DemandAi q => (drawn splits + overdraft splits == money q)%Q
     | DemandCall _ => True
     end.
Proof.
  intros Hw Hd H. pose proof H as H1. unfold consume in H1. tx_step.
  match goal with Hr : read_open_lots _ _ = Ok (?lots, ?s1), Hg : draw ?lots _ _ = Ok _ |- _ =>
    destruct (read_open_lots_current _ _ _ _ Hw Hr) as (-> & Hc & _ & Hin);
    assert (Hf : Forall lot_wf lots);
    [|pose proof (draw_spec (HL := laws_from s) lots demand s splits s' Hf (conj Hw (still_refl s)) Hd Hg)
        as (((Hw' & Hst) & Hh & Hs) & Ha); simpl in Hh; rename lots into ls] end.
  { apply List.Forall_forall. intros l Hl. apply Hin in Hl as [Hl _].
    destruct Hw as [_ Hw]. rewrite List.Forall_forall in Hw. auto. }
  pose proof (st_rls _ _ Hst) as Hrls.
  rewrite Hrls in Hh. split_and!; try done.
  2:{ destruct demand; [done|]. by rewrite <- drawn_overdraft. }
  intros Hov. assert (Hkt : known_tier demand).
  { destruct demand as [c|q]; [|done]. simpl in *. unfold consume_call, fallback_inr_per_min, rates_for in H1.
    unfold VOICE_TIERS. destruct (String.eqb_spec (voice_tier c) VALUE_VOICE_TIER); [left; congruence|].
    destruct (String.eqb_spec (voice_tier c) PREMIUM_VOICE_TIER); [right; left; congruence|]. done. }
  destruct (consume_uncontended s (rls s) demand Hw Hd Hkt) as (ls' & s2 & Hr' & Hc' & [_ Hall] & (_ & _ & Hfr) & _).
  rewrite H in Hc'. injection Hc' as -> <-.
  match goal with Hr : read_open_lots _ _ = Ok (ls, _) |- _ => rewrite Hr in Hr'; injection Hr' as <- end.
  specialize (Hall (overdraft_pos _ Hov)). rewrite List.Forall_forall in Hall.
  apply lots_sum_zero. intros r' Hr' Hten. destruct Hw' as [Hpk' Hf'].
  pose proof (same_terms_ids _ _ (st_terms _ _ Hst)) as Hids.
  assert (In (l_id r') (map l_id (credit_lots s))) as Hi by (rewrite <- Hids; by apply in_map).
  apply in_map_iff in Hi as (r & Hid & Hrin).
  destruct (in_dec Z.eq_dec (l_id r) (map l_id ls)) as [Hl|Hl].
  - apply in_map_iff in Hl as (l & Hlid & Hl). destruct (Hall l Hl) as (x & Hx & Hxi & Hx0 & _).
    rewrite (pk_unique l_id (credit_lots s') r' x); try done. congruence.
  - pose proof (Hfr r Hrin Hl) as Hr2.
    assert (r' = r) as -> by (by apply (pk_unique l_id (credit_lots s')); try done; congruence).
    rewrite List.Forall_forall in Hf'. pose proof (lw_closed r (Hf' r Hr')) as Hcl. apply Hcl.
    intros Hn. apply Hl, in_map. apply Hin. split_and!; try done. unfold is_open. by rewrite Hn.
Qed.

(** ** Concrete runs *)
Module Example.
Definition sixty_left : lot :=
  Lot 500 7 "topup" (Some "starter") None (inject_Z 100) (inject_Z 60) (9 # 2) (inject_Z 6) 400 0 None None.
Definition one_lot : db := with_lots [sixty_left] (blank_db 7).
Definition alone : race := Race one_lot [] 0.
Definition ten_minutes : LotDemand :=
  DemandCall (MkCall (inject_Z 10) VALUE_VOICE_TIER (MkRates (9 # 2) (inject_Z 6))).

Lemma sixty_left_wf : lot_wf sixty_left.
Proof.
  constructor; try reflexivity; try (eexists; reflexivity).
  - exists 1000000. reflexivity.
  - exists 600000. reflexivity.
  - exists 45000. reflexivity.
  - exists 60000. reflexivity.
  - split; [intros H; by destruct H|intros H; discriminate H].
Qed.
Lemma one_lot_wf : lots_wf (credit_lots one_lot).
Proof. split; [unfold pk_ok; decided|]. repeat constructor; apply sixty_left_wf. Qed.
Lemma ten_minutes_ok : demand_ok ten_minutes.
Proof. by split; vm_compute. Qed.
End Example.
Import Example.

Lemma draw_conserves_witness :
  let splits := [CallSplit (Some 500) (inject_Z 45) (inject_Z 10) (9 # 2) VALUE_VOICE_TIER] in
  exists r', draw [sixty_left] ten_minutes alone = Ok (splits, r')
  /\ race_ok r'
  /\ (lots_sum (rls (rdb r')) (credit_lots (rdb r')) + (rival_moved r' - rival_moved alone)
      == lots_sum (rls (rdb alone)) (credit_lots (rdb alone)) - drawn splits)%Q
  /\ Forall split_sound splits /\ True.
Proof.
  intros splits. eexists. split; [vm_compute; reflexivity|].
  refine (draw_conserves alone [sixty_left] ten_minutes splits _ _ _ ten_minutes_ok _).
  - split; [apply one_lot_wf|constructor].
  - apply Forall_cons_2; [apply sixty_left_wf|constructor].
  - vm_compute. reflexivity.
Defined.

Lemma consume_refines_witness :
  exists lots s',
    read_open_lots 7 one_lot = Ok (lots, one_lot)
    /\ consume 7 ten_minutes one_lot = Ok (spend lots ten_minutes, s')
    /\ fifo lots (spend lots ten_minutes) s' /\ frame lots one_lot s'
    /\ StronglySorted (fun a b => by_opening a b = true) lots
    /\ lots_wf (credit_lots s')
    /\ (lots_sum 7 (credit_lots s')
        == lots_sum 7 (credit_lots one_lot) - drawn (spend lots ten_minutes))%Q.
Proof.
  exact (consume_refines one_lot 7 ten_minutes one_lot_wf ten_minutes_ok (or_introl eq_refl)).
Defined.

Lemma restatement_exact_witness :
  exists rs s', adjust_lot_for_restatement 500 (inject_Z (-70)) one_lot = Ok (rs, s')
  /\ (rs_shortfall rs == inject_Z 10)%Q /\ lots_wf (credit_lots s')
  /\ (lots_sum 7 (credit_lots s') == 0)%Q.
Proof.
  destruct (adjust_lot_for_restatement 500 (inject_Z (-70)) one_lot) as [[rs s']|] eqn:E; [|discriminate E].
  exists rs, s'. split; [reflexivity|].
  destruct (restatement_exact one_lot 500 (inject_Z (-70)) rs s' one_lot_wf
              (ex_intro _ (-700000) eq_refl) E)
    as (l & r & _ & _ & _ & _ & _ & _ & _ & _ & _ & _ & _ & _ & Hw & Hs).
  assert (Hrs : rs_shortfall rs = inject_Z 10) by (vm_compute in E; injection E as <- _; reflexivity).
  rewrite Hrs in *. split; [reflexivity|]. split; [exact Hw|]. etransitivity; [exact Hs|reflexivity].
Defined.
End Lots.
