(* ===== verification/Ledger.v ===== *)
(** * The credit ledger

    apps/api/billing/service.py: the append-only [credit_ledger] a wallet's money
    is recorded in, the alerts a movement owes, the lookups its callers dedupe by,
    and [allocate_paise], which splits a total exactly.  [Module Ledger] follows
    the file.  The advisory lock every writer takes first is not represented: a
    [tx] computation already runs alone on the tenant's rows. *)

From Stdlib Require Import ZArith Lia List QArith Qabs Lqa Sorted Permutation.
From stdpp Require Import base list strings.
From S2P Require Import Prelude PyDecimal Sql Outbox WalletDb.

Local Open Scope string_scope.
Local Open Scope list_scope.
Local Open Scope Z_scope.
Local Open Scope tx_scope.

Create HintDb ledger.

Module Ledger.

(** ** Alerts *)

Definition LOW_BALANCE_INR : Q := inject_Z 200.
Definition LOW_BALANCE_JOB : string := "notify_low_balance".
Definition INBOUND_CUTOVER_JOB : string := "apply_inbound_credit_state".
Definition SETTLE_JOB : string := "settle_number_holds".
Definition WALLET_LEVEL_EMPTY : string := "empty".
Definition WALLET_LEVEL_LOW : string := "low".

Definition crossed_zero (before after : Q) : option string :=
  if dlt 0 before && dle after 0 then Some WALLET_LEVEL_EMPTY
  else if dle before 0 && dlt 0 after then Some "funded"
  else None.

Definition crossed_downwards (before after line : Q) : option string :=
  if dlt 0 before && dle after 0 then Some WALLET_LEVEL_EMPTY
  else if dle line before && dlt after line && dle 0 after then Some WALLET_LEVEL_LOW
  else None.

(** The organization's row: [None] when there is none, [Some None] for a NULL line. *)
Fixpoint line_of (tenant : uuid) (t : list (uuid * option Q)) : option (option Q) :=
  match t with
  | [] => None
  | (i, l) :: t' => if i =? tenant then Some l else line_of tenant t'
  end.

Definition chosen_low_balance_line (tenant_id : uuid) : tx db (option Q) :=
  gets (fun s => match line_of tenant_id (low_balance_lines s) with
                 | Some (Some l) => Some l
                 | _ => None
                 end).

Definition low_balance_line (tenant_id : uuid) : tx db Q :=
  chosen ← chosen_low_balance_line tenant_id ;
  ret (match chosen with None => LOW_BALANCE_INR | Some l => l end).

Definition set_low_balance_line (tenant_id : uuid) (threshold_inr : option Q) : tx db (option Q) :=
  row ← gets (fun s => line_of tenant_id (low_balance_lines s)) ;
  match row with
  | None => raise (Problem NotFound "not_found")
  | Some was =>
      let value := option_map (quantize PAISE_SCALE ROUND_HALF_UP) threshold_inr in
      modify (fun s => with_lines (map (fun r => if fst r =? tenant_id then (fst r, value) else r)
                                     (low_balance_lines s)) s) ;;
      ret was
  end.

(** [enqueue_outbox] of reliability/service.py, in the caller's transaction. *)
Definition enqueue (job : string) (payload : list (string * jval)) : tx db unit :=
  mid ← uuid7 ;
  modify (fun s => with_outbox (Outbox.enqueue_outbox (now s) mid job payload (outbox_messages s)) s).

(** ** Splitting a total into paise *)

Definition PAISE : Q := 1 # 100.

(** [sorted(range(n), key=lambda i: (floors[i] - parts[i], i))]. *)
Definition by_remainder (keys : list Q) (i j : nat) : bool :=
  let k n := nth n keys 0%Q in
  dlt (k i) (k j) || (deq (k i) (k j) && Nat.leb i j).

Definition allocate_paise (parts : list Q) (total : Q) : result (list Q) :=
  match parts with
  | [] => Ok []
  | _ =>
      if negb (deq total (quantize PAISE_SCALE ROUND_FLOOR total)) then Err ValueError
      else
        let floors := map (quantize PAISE_SCALE ROUND_FLOOR) parts in
        let owed := round_int ROUND_DOWN (ddiv (dsub total (dsum floors)) PAISE) in
        if negb ((0 <=? owed) && (owed <=? Z.of_nat (length parts))) then Err ValueError
        else
          let keys := zip_with dsub floors parts in
          let order := order_by (by_remainder keys) (seq 0 (length parts)) in
          let lucky := firstn (Z.to_nat owed) order in
          Ok (imap (fun i f => if bool_decide (i ∈ lucky) then dadd f PAISE else f) floors)
  end.

(** ** The balance *)

Record Balance := MkBalance { amount_inr : Q; is_low : bool }.
Definition is_exhausted (b : Balance) : bool := dle (amount_inr b) 0.

(** Rows a session of tenant [r] sees of [tenant]'s ledger. *)
Definition own (r tenant : uuid) (e : entry) : bool := (e_tenant e =? r) && (e_tenant e =? tenant).

(** [ORDER BY occurred_at DESC, id DESC]. *)
Definition by_recent (x y : entry) : bool := le_at_id e_occurred_at e_id y x.

(** The newest row of a query. *)
Definition newest (p : entry -> bool) (t : list entry) : option entry :=
  match order_by by_recent (select p t) with e :: _ => Some e | [] => None end.

Definition newest_balance (tenant_id : uuid) : tx db Q :=
  gets (fun s => match newest (own (rls s) tenant_id) (credit_ledger s) with
                 | Some e => e_balance_after e
                 | None => 0%Q
                 end).

Definition get_balance (tenant_id : uuid) : tx db Balance :=
  balance ← newest_balance tenant_id ;
  line ← low_balance_line tenant_id ;
  ret (MkBalance balance (dlt balance line)).

(** The messages a movement owes, in the order it enqueues them. *)
Definition cutover_job (tenant_id : uuid) (current new_balance : Q) : tx db unit :=
  match crossed_zero current new_balance with
  | Some _ => enqueue INBOUND_CUTOVER_JOB [("tenant_id", JId tenant_id)]
  | None => ret tt
  end.
Definition settle_job (tenant_id : uuid) (current new_balance : Q) : tx db unit :=
  if dlt current 0 && dle 0 new_balance
  then enqueue SETTLE_JOB [("tenant_id", JId tenant_id)] else ret tt.
Definition alert_job (tenant_id : uuid) (current new_balance line : Q) : tx db unit :=
  match crossed_downwards current new_balance line with
  | Some level => enqueue LOW_BALANCE_JOB
                    [("tenant_id", JId tenant_id); ("level", JText level);
                     ("balance_inr", JDec new_balance)]
  | None => ret tt
  end.

Definition record_entry (tenant_id : uuid) (delta : Q) (reason : string) (ref_ : option ref)
    (meta : list (string * jval)) (allow_negative allow_zero : bool) : tx db Balance :=
  if deq delta 0 && negb allow_zero then get_balance tenant_id
  else
    current ← newest_balance tenant_id ;
    let new_balance := dadd current delta in
    if dlt delta 0 && dlt new_balance 0 && negb allow_negative
    then raise (Problem BusinessRule "insufficient_credits")
    else
      i ← uuid7 ;
      t ← clock_timestamp ;
      d ← lift (numeric_12_4 delta) ;
      b ← lift (numeric_12_4 new_balance) ;
      insert_entry (Entry i tenant_id d reason ref_ b t meta) ;;
      cutover_job tenant_id current new_balance ;;
      settle_job tenant_id current new_balance ;;
      line ← low_balance_line tenant_id ;
      alert_job tenant_id current new_balance line ;;
      ret (MkBalance new_balance (dlt new_balance line)).

(** ** Lookups *)

Record LedgerEntryRef := MkEntryRef { entry_id : uuid; entry_amount : Q }.

Definition has_ref (tenant_id r : uuid) (reason : string) (ref_ : ref) (e : entry) : bool :=
  own r tenant_id e && bool_decide (e_reason e = reason) && bool_decide (e_ref e = Some ref_).

Definition read_entry_by_ref (tenant_id : uuid) (reason : string) (ref_ : ref) :
    tx db (option LedgerEntryRef) :=
  gets (fun s => option_map (fun e => MkEntryRef (e_id e) (e_delta e))
                   (newest (has_ref tenant_id (rls s) reason ref_) (credit_ledger s))).

(** [find_entry_by_ref]: the same read, under the lock. *)
Definition find_entry_by_ref := read_entry_by_ref.
Definition find_topup (tenant_id : uuid) (ref_ : ref) := find_entry_by_ref tenant_id "topup" ref_.

Definition adjustment_ref (eid : uuid) (amount : Q) : ref :=
  [PWord "adjust"; PId eid; PDec (to_paise amount)].
Definition grant_ref (reference : string) : ref := [PWord "grant"; PWord reference].
Definition restatement_ref (payment_ref : string) (credited_total_inr : Q) : ref :=
  [PWord "restated"; PWord payment_ref; PDec (to_paise credited_total_inr)].

(** ** Aggregates *)

Definition PAID_CREDIT_REASONS : list string := ["topup"].
Definition GRANTED_CREDIT_REASONS : list string := ["grant"; "bonus"].
Record CreditTotals := MkTotals { paid_inr : Q; granted_inr : Q }.

(** [SUM(delta) FILTER (WHERE delta > 0 AND reason = ANY(reasons))] over a tenant. *)
Definition credited (reasons : list string) (r tenant : uuid) (t : list entry) : Q :=
  sum_over e_delta (select (fun e => own r tenant e && dlt 0 (e_delta e)
                                     && bool_decide (e_reason e ∈ reasons)) t).

Definition credit_totals (tenant_id : uuid) : tx db CreditTotals :=
  gets (fun s => MkTotals (credited PAID_CREDIT_REASONS (rls s) tenant_id (credit_ledger s))
                          (credited GRANTED_CREDIT_REASONS (rls s) tenant_id (credit_ledger s))).

Record CorrectableEntry := MkCorrectable {
  c_entry : uuid; c_delta : Q; c_reason : string; reversed_inr : Q }.
Definition reversible_inr (c : CorrectableEntry) : Q :=
  dmax 0 (dsub (dabs (c_delta c)) (reversed_inr c)).
Definition compensating_delta (c : CorrectableEntry) (amount : Q) : Q :=
  if dlt 0 (c_delta c) then dneg amount else amount.

(** Rows that correct the entry [i]. *)
Definition corrects (r tenant i : uuid) (e : entry) : bool :=
  own r tenant e && bool_decide (e_reason e = "adjustment")
  && json_id_is "corrects_entry_id" i (e_meta e).

Definition reversed_amount (r tenant i : uuid) (t : list entry) : Q :=
  sum_over (fun e => Qabs (e_delta e)) (select (corrects r tenant i) t).

(** [reversed_amounts]: only the ids some correction names are in the answer. *)
Definition reversed_amounts (tenant_id : uuid) (entry_ids : list uuid) : tx db (list (uuid * Q)) :=
  gets (fun s => omap (fun i =>
      match select (corrects (rls s) tenant_id i) (credit_ledger s) with
      | [] => None
      | _ => Some (i, reversed_amount (rls s) tenant_id i (credit_ledger s))
      end) entry_ids).

Fixpoint assoc_get (i : uuid) (t : list (uuid * Q)) : option Q :=
  match t with
  | [] => None
  | (j, q) :: t' => if i =? j then Some q else assoc_get i t'
  end.

Definition read_correctable_entry (tenant_id eid : uuid) : tx db (option CorrectableEntry) :=
  row ← gets (fun s => select (fun e => own (rls s) tenant_id e && (e_id e =? eid))
                         (credit_ledger s)) ;
  match row with
  | [] => ret None
  | e :: _ =>
      already ← reversed_amounts tenant_id [eid] ;
      ret (Some (MkCorrectable (e_id e) (e_delta e) (e_reason e)
                   (match assoc_get eid already with Some q => q | None => 0%Q end)))
  end.
(** [COALESCE(meta->>'payment_ref', ref)] on a top-up, NULL on any other row. *)
Definition payment_ref_of (e : entry) : option ref :=
  if bool_decide (e_reason e = "topup")
  then match json_get "payment_ref" (e_meta e) with
       | Some (JText p) => Some [PWord p]
       | _ => e_ref e
       end
  else None.

Record RecordedPayment := MkPayment {
  p_ref : ref; credited_inr : Q; p_rows : nat; first_at : option instant }.

Definition earliest (t : list entry) : option instant :=
  match order_by (fun x y => e_occurred_at x <=? e_occurred_at y) t with
  | e :: _ => Some (e_occurred_at e)
  | [] => None
  end.

(** [GROUP BY] the payment: a payment with no row is not in the answer. *)
Definition recorded_payments (tenant_id : uuid) (payment_refs : list ref) :
    tx db (list RecordedPayment) :=
  gets (fun s => omap (fun p =>
      match select (fun e => own (rls s) tenant_id e && bool_decide (payment_ref_of e = Some p))
              (credit_ledger s) with
      | [] => None
      | rows => Some (MkPayment p (sum_over e_delta rows) (length rows) (earliest rows))
      end) payment_refs).

(** ** The clock and the ids

    What the ledger's ordering relies on: the clock does not step back, UUIDv7 ids
    are drawn in increasing order, and both are past every row written so far. *)
Record order_ok (s : db) : Prop := OrderOk {
  oo_ticks : forall m n, (m <= n)%nat -> ticks s m <= ticks s n;
  oo_ids : forall m n, (m < n)%nat -> ids s m < ids s n;
  oo_row_ticks : forall e n, In e (credit_ledger s) -> e_occurred_at e <= ticks s n;
  oo_row_ids : forall e n, In e (credit_ledger s) -> e_id e < ids s n;
  oo_lot_ids : forall l n, In l (credit_lots s) -> l_id l < ids s n
}.

Lemma order_ok_tick s : order_ok s -> order_ok (tick s).
Proof. intros []. constructor; simpl; intros; auto with arith. Qed.

Lemma order_ok_drop_id s : order_ok s -> order_ok (drop_id s).
Proof. intros []. constructor; simpl; intros; auto with arith. Qed.

Lemma order_ok_outbox o s : order_ok s -> order_ok (with_outbox o s).
Proof. intros []. constructor; simpl; auto. Qed.

(** A row drawn just now is past the others, and before what is drawn next. *)
Lemma order_ok_insert_entry s e :
  order_ok s -> e_id e = ids s 0%nat -> e_occurred_at e = ticks s 0%nat ->
  order_ok (with_ledger (credit_ledger s ++ [e]) (tick (drop_id s))).
Proof.
  intros [Ht Hi Hrt Hri Hl] Ei Et. constructor; simpl; intros; auto with arith.
  - apply in_app_or in H as [H|[<-|[]]]; [by apply Hrt|]. rewrite Et. apply Ht. lia.
  - apply in_app_or in H as [H|[<-|[]]]; [by apply Hri|]. rewrite Ei. apply Hi. lia.
Qed.

#[export] Hint Resolve order_ok_tick order_ok_drop_id order_ok_outbox order_ok_insert_entry : ledger.

(** ** The newest row *)

Lemma order_by_head {R} (le : R -> R -> bool) t m :
  (forall x y, le x y = true \/ le y x = true) ->
  (forall x y z, le x y = true -> le y z = true -> le x z = true) ->
  In m t -> (forall y, In y t -> le y m = true -> y = m) ->
  exists rest, order_by le t = m :: rest.
Proof.
  intros Htot Htr Hm Hmax. pose proof (order_by_sorted le Htot Htr t) as Hs.
  assert (Hin : In m (order_by le t)) by by apply order_by_In.
  destruct (order_by le t) as [|h rest] eqn:E; [destruct Hin|]. exists rest. f_equal.
  apply StronglySorted_inv in Hs as [_ Hs]. destruct Hin as [->|Hin]; [done|].
  apply Hmax; [apply order_by_In with le; rewrite E; by left|].
  rewrite List.Forall_forall in Hs. by apply Hs.
Qed.

Lemma by_recent_total x y : by_recent x y = true \/ by_recent y x = true.
Proof. unfold by_recent. apply le_at_id_total. Qed.
Lemma by_recent_trans x y z : by_recent x y = true -> by_recent y z = true -> by_recent x z = true.
Proof. unfold by_recent. intros. by eapply le_at_id_trans. Qed.

(** The row appended last is the newest of every query it answers. *)
Lemma newest_append p t e :
  p e = true -> (forall x, In x t -> e_occurred_at x <= e_occurred_at e /\ e_id x < e_id e) ->
  newest p (t ++ [e]) = Some e.
Proof.
  intros Hp Hx. unfold newest.
  destruct (order_by_head by_recent (select p (t ++ [e])) e) as [rest ->]; try done.
  - apply by_recent_total.
  - apply by_recent_trans.
  - apply select_In. split; [apply in_or_app; right; by left|done].
  - intros y Hy Hle. apply select_In in Hy as [Hy _]. apply in_app_or in Hy as [Hy|[<-|[]]]; [|done].
    destruct (Hx y Hy). unfold by_recent, le_at_id in Hle. lia.
Qed.

Lemma newest_skip p t e : p e = false -> newest p (t ++ [e]) = newest p t.
Proof. intros Hp. unfold newest, select. rewrite List.filter_app. simpl. by rewrite Hp, app_nil_r. Qed.

Lemma newest_In p t e : newest p t = Some e -> In e t /\ p e = true.
Proof.
  unfold newest. destruct (order_by by_recent (select p t)) as [|x r] eqn:E; [done|].
  intros [= ->]. apply select_In. apply (order_by_In by_recent). rewrite E. by left.
Qed.

Lemma newest_none p t : newest p t = None <-> forall e, In e t -> p e = false.
Proof.
  unfold newest. rewrite <- rowcount_0. unfold rowcount.
  rewrite <- (Permutation_length (order_by_perm by_recent (select p t))).
  destruct (order_by by_recent (select p t)); simpl; split; done.
Qed.

(** ** What a movement does *)

(** The messages owed by a movement from [current] to [new]. *)
Definition jobs_owed (tenant : uuid) (current new line : Q) : list (string * list (string * jval)) :=
  match crossed_zero current new with
  | Some _ => [(INBOUND_CUTOVER_JOB, [("tenant_id", JId tenant)])]
  | None => []
  end
  ++ (if dlt current 0 && dle 0 new then [(SETTLE_JOB, [("tenant_id", JId tenant)])] else [])
  ++ match crossed_downwards current new line with
     | Some level => [(LOW_BALANCE_JOB, [("tenant_id", JId tenant); ("level", JText level);
                                         ("balance_inr", JDec new)])]
     | None => []
     end.

(** [s'] is [s] with messages [jobs] added to the outbox. *)
Definition only_enqueued (jobs : list (string * list (string * jval))) (s s' : db) : Prop :=
  rls s' = rls s /\ credit_ledger s' = credit_ledger s /\ credit_lots s' = credit_lots s
  /\ low_balance_lines s' = low_balance_lines s /\ ticks s' = ticks s
  /\ (order_ok s -> order_ok s')
  /\ exists rows, outbox_messages s' = outbox_messages s ++ rows
       /\ map (fun r => (Outbox.job r, Outbox.payload r)) rows = jobs
       /\ Forall (fun r => Outbox.row_status r = Outbox.pending) rows.

Lemma only_enqueued_nil s : only_enqueued [] s s.
Proof. split_and!; try done. exists []. by rewrite app_nil_r. Qed.

Lemma only_enqueued_trans j1 j2 s1 s2 s3 :
  only_enqueued j1 s1 s2 -> only_enqueued j2 s2 s3 -> only_enqueued (j1 ++ j2) s1 s3.
Proof.
  intros (R1 & L1 & C1 & B1 & T1 & O1 & r1 & E1 & M1 & F1) (R2 & L2 & C2 & B2 & T2 & O2 & r2 & E2 & M2 & F2).
  split_and!; try congruence; [auto|]. exists (r1 ++ r2). split_and!.
  - by rewrite E2, E1, app_assoc.
  - by rewrite map_app, M1, M2.
  - by apply Forall_app_2.
Qed.

Lemma enqueue_ok j p s u s' : enqueue j p s = Ok (u, s') -> only_enqueued [(j, p)] s s'.
Proof.
  intros H. unfold enqueue, uuid7 in H. tx_inv. split_and!; try done; [by auto with ledger|].
  eexists. split; [reflexivity|]. split; [done|]. by repeat constructor.
Qed.

Lemma cutover_ok tenant current new s u s' :
  cutover_job tenant current new s = Ok (u, s') ->
  only_enqueued match crossed_zero current new with
                | Some _ => [(INBOUND_CUTOVER_JOB, [("tenant_id", JId tenant)])]
                | None => []
                end s s'.
Proof.
  unfold cutover_job. intros H. destruct (crossed_zero current new); [by apply enqueue_ok in H|].
  tx_inv. apply only_enqueued_nil.
Qed.

Lemma settle_ok tenant current new s u s' :
  settle_job tenant current new s = Ok (u, s') ->
  only_enqueued (if dlt current 0 && dle 0 new then [(SETTLE_JOB, [("tenant_id", JId tenant)])] else [])
    s s'.
Proof.
  unfold settle_job. intros H. destruct (_ && _); [by apply enqueue_ok in H|].
  tx_inv. apply only_enqueued_nil.
Qed.

Lemma alert_ok tenant current new line s u s' :
  alert_job tenant current new line s = Ok (u, s') ->
  only_enqueued match crossed_downwards current new line with
     | Some level => [(LOW_BALANCE_JOB, [("tenant_id", JId tenant); ("level", JText level);
                                         ("balance_inr", JDec new)])]
     | None => []
     end s s'.
Proof.
  unfold alert_job. intros H. destruct (crossed_downwards _ _ _); [by apply enqueue_ok in H|].
  tx_inv. apply only_enqueued_nil.
Qed.

(** The balance a session reads, and the line it compares with. *)
Definition balance_now (tenant : uuid) (s : db) : Q :=
  match newest (own (rls s) tenant) (credit_ledger s) with
  | Some e => e_balance_after e
  | None => 0%Q
  end.
Definition line_now (tenant : uuid) (s : db) : Q :=
  match line_of tenant (low_balance_lines s) with Some (Some l) => l | _ => LOW_BALANCE_INR end.

Lemma low_balance_line_eq tenant s : low_balance_line tenant s = Ok (line_now tenant s, s).
Proof.
  unfold low_balance_line, chosen_low_balance_line, bind, gets, ret, line_now.
  by destruct (line_of tenant (low_balance_lines s)) as [[|]|].
Qed.

(** What [record_entry] returns and leaves when it writes. *)
Record recorded (tenant : uuid) (delta : Q) (reason : string) (ref_ : option ref)
    (meta : list (string * jval)) (s : db) (b : Balance) (s' : db) : Prop := Recorded {
  rc_tenant : tenant = rls s;
  rc_reason : reason ∈ CREDIT_REASONS;
  rc_balance : b = MkBalance (dadd (balance_now tenant s) delta)
                     (dlt (dadd (balance_now tenant s) delta) (line_now tenant s));
  rc_row : exists d bal,
    numeric_12_4 delta = Ok d /\ numeric_12_4 (dadd (balance_now tenant s) delta) = Ok bal
    /\ let e := Entry (ids s 0%nat) tenant d reason ref_ bal (ticks s 0%nat) meta in
       credit_ledger s' = credit_ledger s ++ [e]
       /\ (indexed e = true ->
           forall x, In x (credit_ledger s) -> indexed x = true -> same_ledger_key e x = false);
  rc_lots : credit_lots s' = credit_lots s;
  rc_rls : rls s' = rls s;
  rc_order : order_ok s -> order_ok s';
  rc_jobs : exists rows, outbox_messages s' = outbox_messages s ++ rows
    /\ map (fun r => (Outbox.job r, Outbox.payload r)) rows
       = jobs_owed tenant (balance_now tenant s) (dadd (balance_now tenant s) delta) (line_now tenant s)
    /\ Forall (fun r => Outbox.row_status r = Outbox.pending) rows
}.

Lemma insert_entry_ok e s u s' :
  insert_entry e s = Ok (u, s') ->
  e_tenant e = rls s /\ e_reason e ∈ CREDIT_REASONS
  /\ (indexed e = true -> forall x, In x (credit_ledger s) -> indexed x = true -> same_ledger_key e x = false)
  /\ s' = with_ledger (credit_ledger s ++ [e]) s.
Proof.
  intros H. unfold insert_entry, own_tenant in H. tx_inv.
  destruct (e_tenant e =? _) eqn:Et; tx_inv.
  destruct (negb _) eqn:Er; [tx_inv|]. apply negb_false_iff, bool_decide_eq_true in Er.
  destruct (indexed e && _) eqn:Ek; tx_inv. split_and!; try done; [lia|].
  intros Hi x Hx Hxi. rewrite Hi in Ek. simpl in Ek. apply not_true_is_false. intros Hs.
  rewrite <- not_true_iff_false in Ek. apply Ek, existsb_exists. exists x. by rewrite Hxi, Hs.
Qed.

Lemma record_entry_ok tenant delta reason ref_ meta an az s b s' :
  record_entry tenant delta reason ref_ meta an az s = Ok (b, s') ->
  deq delta 0 && negb az = false ->
  recorded tenant delta reason ref_ meta s b s'
  /\ (dlt delta 0 && dlt (dadd (balance_now tenant s) delta) 0 && negb an = false).
Proof.
  intros H Hz. unfold record_entry, newest_balance, uuid7, clock_timestamp in H. rewrite Hz in H.
  apply bind_ok in H as (c & s0 & Hc & H). apply gets_ok in Hc as [-> ->].
  fold (balance_now tenant s) in H. set (new := dadd (balance_now tenant s) delta) in *.
  destruct (dlt delta 0 && dlt new 0 && negb an) eqn:Eg; [tx_inv|]. tx_inv.
  match goal with Hl : low_balance_line _ _ = Ok _ |- _ =>
    rewrite low_balance_line_eq in Hl; injection Hl as <- <- end.
  match goal with Hi : insert_entry _ _ = Ok _ |- _ => apply insert_entry_ok in Hi as (Ht & Hr & Hk & ->) end.
  simpl in Ht, Hr, Hk. split; [|done].
  match goal with H1 : cutover_job _ _ _ _ = Ok _, H2 : settle_job _ _ _ _ = Ok _,
    H3 : alert_job _ _ _ _ _ = Ok _ |- _ =>
    apply cutover_ok in H1; apply settle_ok in H2; apply alert_ok in H3;
    pose proof H1 as (_ & _ & _ & B1 & _); pose proof H2 as (_ & _ & _ & B2 & _);
    pose proof (only_enqueued_trans _ _ _ _ _ H1 (only_enqueued_trans _ _ _ _ _ H2 H3))
      as (R & L & C & _ & _ & O & J)
  end.
  match goal with |- context [line_now tenant ?s3] =>
    assert (line_now tenant s3 = line_now tenant s) as Hline
      by (unfold line_now; by rewrite B2, B1); rewrite Hline in * end.
  constructor; try done.
  - eexists _, _. split_and!; [eassumption|eassumption|]. split; [by rewrite L|done].
  - intros Ho. apply O. apply (order_ok_insert_entry s); done.
Qed.

(** ** The ledger's invariant *)

Definition row_ok (e : entry) : Prop :=
  is_money (e_delta e) /\ is_money (e_balance_after e)
  /\ (- numeric_limit < e_balance_after e)%Q /\ (e_balance_after e < numeric_limit)%Q
  /\ (- numeric_limit < e_delta e)%Q /\ (e_delta e < numeric_limit)%Q.

Definition balance_of (tenant : uuid) (t : list entry) : Q :=
  match newest (fun e => e_tenant e =? tenant) t with Some e => e_balance_after e | None => 0%Q end.

Record ledger_ok (s : db) : Prop := LedgerOk {
  lk_order : order_ok s;
  lk_rows : Forall row_ok (credit_ledger s);
  lk_balance : forall tenant, (balance_of tenant (credit_ledger s) == ledger_sum tenant (credit_ledger s))%Q;
  lk_keys : forall e x, In e (credit_ledger s) -> In x (credit_ledger s) ->
    indexed e = true -> indexed x = true -> same_ledger_key e x = true -> e = x;
  lk_ids : pk_ok e_id (credit_ledger s)
}.

Lemma newest_ext p q t : (forall e, p e = q e) -> newest p t = newest q t.
Proof.
  intros H. unfold newest. assert (select p t = select q t) as ->; [|done].
  unfold select. induction t as [|e t IH]; simpl; [done|]. by rewrite H, IH.
Qed.

Lemma balance_now_eq s : balance_now (rls s) s = balance_of (rls s) (credit_ledger s).
Proof.
  unfold balance_now, balance_of.
  rewrite (newest_ext _ (fun e => e_tenant e =? rls s)); [done|]. intros e. unfold own.
  by destruct (e_tenant e =? rls s).
Qed.

Lemma balance_of_bounds s tenant :
  ledger_ok s -> is_money (balance_of tenant (credit_ledger s))
    /\ (- numeric_limit < balance_of tenant (credit_ledger s) < numeric_limit)%Q.
Proof.
  intros [_ Hr _ _ _]. unfold balance_of. destruct (newest _ _) as [e|] eqn:E.
  - apply newest_In in E as [E _]. rewrite List.Forall_forall in Hr. destruct (Hr e E) as (? & ? & ? & ? & _). done.
  - split; [auto with money|]. split; reflexivity.
Qed.

Lemma ledger_sum_app tenant t1 t2 :
  (ledger_sum tenant (t1 ++ t2) == ledger_sum tenant t1 + ledger_sum tenant t2)%Q.
Proof. apply sum_over_app. Qed.

Lemma ledger_sum_one tenant e :
  (ledger_sum tenant [e] == if e_tenant e =? tenant then e_delta e else 0)%Q.
Proof. unfold ledger_sum, sum_over. simpl. destruct (e_tenant e =? tenant); ring. Qed.

Lemma same_key_sym a b : same_ledger_key a b = same_ledger_key b a.
Proof.
  unfold same_ledger_key. f_equal; [f_equal|]; [apply Z.eqb_sym| |];
    apply bool_decide_ext; split; congruence.
Qed.

(** The amounts of a movement, exactly. *)
Lemma recorded_amounts tenant delta reason ref_ meta s b s' :
  ledger_ok s -> is_money delta -> recorded tenant delta reason ref_ meta s b s' ->
  (amount_inr b == ledger_sum tenant (credit_ledger s) + delta)%Q
  /\ exists e, credit_ledger s' = credit_ledger s ++ [e] /\ e_tenant e = tenant
       /\ (e_delta e == delta)%Q /\ (e_balance_after e == amount_inr b)%Q /\ row_ok e
       /\ e_id e = ids s 0%nat /\ e_occurred_at e = ticks s 0%nat
       /\ e_reason e = reason /\ e_ref e = ref_ /\ e_meta e = meta
       /\ (indexed e = true -> forall x, In x (credit_ledger s) -> indexed x = true -> same_ledger_key e x = false).
Proof.
  intros Hk Hm [Ht _ -> (d & bal & Ed & Eb & Hl & Hkey) _ _ _ _].
  destruct (balance_of_bounds s tenant Hk) as [Hbm Hbb].
  rewrite Ht, balance_now_eq, <- Ht in *. simpl.
  apply numeric_12_4_ok in Ed as (Hdm & Hd1 & Hd2 & Hd). specialize (Hd Hm).
  assert (Hnew : (dadd (balance_of tenant (credit_ledger s)) delta
                  == balance_of tenant (credit_ledger s) + delta)%Q).
  { assert (numeric_limit + numeric_limit < exact_bound)%Q by reflexivity.
    apply dadd_money; try done; lra. }
  assert (Hnm : is_money (dadd (balance_of tenant (credit_ledger s)) delta))
    by (rewrite Hnew; auto with money).
  apply numeric_12_4_ok in Eb as (Hm2 & Hb1 & Hb2 & Hb). specialize (Hb Hnm).
  split; [by rewrite Hnew, (lk_balance s Hk tenant)|].
  eexists. split; [exact Hl|]. simpl. split_and!; try done.
Qed.

Lemma recorded_ledger_ok tenant delta reason ref_ meta s b s' :
  ledger_ok s -> is_money delta -> recorded tenant delta reason ref_ meta s b s' ->
  ledger_ok s'
  /\ (forall t, ledger_sum t (credit_ledger s')
                == ledger_sum t (credit_ledger s) + if t =? tenant then delta else 0)%Q.
Proof.
  intros Hk Hm Hr. pose proof (rc_order _ _ _ _ _ _ _ _ Hr (lk_order s Hk)) as Ho'.
  destruct (recorded_amounts _ _ _ _ _ _ _ _ Hk Hm Hr)
    as (Ha & e & El & Et & Ed & Eb & Hrow & Ei & Eo & _ & _ & _ & Hkey).
  assert (Hsum : forall t, (ledger_sum t (credit_ledger s')
            == ledger_sum t (credit_ledger s) + if t =? tenant then delta else 0)%Q).
  { intros t. rewrite El, ledger_sum_app, ledger_sum_one, Et, Z.eqb_sym.
    destruct (t =? tenant); [by rewrite Ed|done]. }
  split; [|done]. destruct Hk as [Ho Hrows Hbal Hkeys Hids]. constructor; [done| | | |].
  - rewrite El. apply Forall_app_2; [done|]. apply Forall_singleton. done.
  - intros t. rewrite Hsum. unfold balance_of. rewrite El. destruct (t =? tenant) eqn:E.
    + apply Z.eqb_eq in E. subst t. rewrite newest_append.
      * by rewrite Eb, Ha.
      * by rewrite Et, Z.eqb_refl.
      * intros x Hx. rewrite Ei, Eo. split; [by apply Ho|by apply Ho].
    + rewrite newest_skip; [|rewrite Et, Z.eqb_sym; done].
      fold (balance_of t (credit_ledger s)). rewrite Hbal. ring.
  - rewrite El. intros a x Ha' Hx Hia Hix Hs.
    apply in_app_or in Ha' as [Ha'|[<-|[]]]; apply in_app_or in Hx as [Hx|[<-|[]]]; try done.
    + by apply Hkeys.
    + rewrite same_key_sym in Hs. by rewrite Hkey in Hs.
    + by rewrite Hkey in Hs.
  - rewrite El. apply insert_pk_ok; [|done]. rewrite Ei. intros Hin. apply in_map_iff in Hin as (x & Ex & Hx).
    pose proof (oo_row_ids s Ho x 0%nat Hx). lia.
Qed.

(** C28. Recording a movement: the balance returned is what the tenant's ledger rows
    come to, before plus the movement; no other tenant's ledger moves; the rows keep
    their order, their running balances and their unique keys; no lot is touched; a
    debit its caller did not allow to overdraw leaves the balance non-negative; and
    the outbox gains exactly the messages the crossing owes. *)
Theorem record_entry_correct tenant delta reason ref_ meta an az s b s' :
  ledger_ok s -> is_money delta ->
  record_entry tenant delta reason ref_ meta an az s = Ok (b, s') ->
  deq delta 0 && negb az = false ->
  ledger_ok s'
  /\ (amount_inr b == ledger_sum tenant (credit_ledger s'))%Q
  /\ (forall t, ledger_sum t (credit_ledger s')
                == ledger_sum t (credit_ledger s) + if t =? tenant then delta else 0)%Q
  /\ credit_lots s' = credit_lots s
  /\ (an = false -> (delta < 0)%Q -> (0 <= amount_inr b)%Q)
  /\ exists rows, outbox_messages s' = outbox_messages s ++ rows
       /\ map (fun r => (Outbox.job r, Outbox.payload r)) rows
          = jobs_owed tenant (balance_now tenant s) (amount_inr b) (line_now tenant s)
       /\ Forall (fun r => Outbox.row_status r = Outbox.pending) rows.
Proof.
  intros Hk Hm H Hz. apply record_entry_ok in H as [Hr Hg]; [|done].
  destruct (recorded_ledger_ok _ _ _ _ _ _ _ _ Hk Hm Hr) as [Hk' Hs].
  destruct (recorded_amounts _ _ _ _ _ _ _ _ Hk Hm Hr) as [Ha _].
  split_and!; try done.
  - rewrite Ha, Hs, Z.eqb_refl. done.
  - apply Hr.
  - intros -> Hd. rewrite (rc_balance _ _ _ _ _ _ _ _ Hr) in *. simpl.
    rewrite andb_true_r in Hg. destruct (dlt_spec delta 0); [|contradiction]. simpl in Hg.
    destruct (dlt_spec (dadd (balance_now tenant s) delta) 0); [done|lra].
  - rewrite (rc_balance _ _ _ _ _ _ _ _ Hr). simpl. apply Hr.
Qed.

(** ** [allocate_paise] *)

Definition is_paise (q : Q) : Prop := exists z, (q == z # 100)%Q.

#[export] Instance is_paise_proper : Proper (Qeq ==> iff) is_paise.
Proof. intros a b E. unfold is_paise. by setoid_rewrite E. Qed.

Lemma is_paise_quantize m q : is_paise (quantize PAISE_SCALE m q).
Proof. exists (round_int m (q * (Zpos PAISE_SCALE # 1))). apply quantize_units. Qed.

Lemma is_paise_add a b : is_paise a -> is_paise b -> is_paise (a + b).
Proof. intros [x Hx] [y Hy]. exists (x + y). rewrite Hx, Hy. unfold Qeq; simpl. lia. Qed.

Lemma is_paise_opp a : is_paise a -> is_paise (- a).
Proof. intros [x Hx]. exists (- x). rewrite Hx. reflexivity. Qed.

Lemma is_paise_qsum xs : Forall is_paise xs -> is_paise (qsum xs).
Proof. induction 1; simpl; [by exists 0|by apply is_paise_add]. Qed.

Lemma is_paise_money q : is_paise q -> is_money q.
Proof. intros [z Hz]. exists (100 * z). rewrite Hz. unfold Qeq, MONEY_SCALE; simpl. lia. Qed.

(** A whole number of paise divided by a paisa is that number. *)
Lemma paise_count q z :
  (q == z # 100)%Q -> (- exact_bound < q < exact_bound)%Q ->
  round_int ROUND_DOWN (ddiv q PAISE) = z.
Proof.
  intros Hq Hb. assert (Hz : (q / PAISE == inject_Z z)%Q).
  { rewrite Hq. unfold PAISE, Qdiv, Qinv, Qeq; simpl. lia. }
  apply round_int_whole. unfold ddiv. rewrite <- Hz. apply (round28_exact _ 0 z).
  - rewrite Hz. change (pow10 0) with 1%Q. ring.
  - rewrite Hq in Hb. unfold Qlt, exact_bound in Hb. simpl in Hb. lia.
Qed.

(** Give one paisa more to each index of a list. *)
Definition extra (lucky : list nat) (i : nat) : Q := if bool_decide (i ∈ lucky) then PAISE else 0.

Lemma qsum_imap_extra (g : nat -> Q -> Q) lucky k xs :
  (forall i x, In x xs -> (g i x == x + extra lucky i)%Q) ->
  (qsum (imap (fun i => g (k + i)%nat) xs) == qsum xs + qsum (map (extra lucky) (seq k (length xs))))%Q.
Proof.
  revert k. induction xs as [|x xs IH]; intros k Hg; [simpl; ring|].
  rewrite imap_cons. simpl. rewrite Hg by (by left). rewrite Nat.add_0_r.
  rewrite (imap_ext _ (fun i => g (S k + i)%nat)) by (intros; simpl; f_equal; lia).
  rewrite IH; [ring|]. intros i y Hy. apply Hg. by right.
Qed.

Lemma qsum_extra lucky l :
  (qsum (map (extra lucky) l) == Z.of_nat (length (base.filter (fun i => i ∈ lucky) l)) # 100)%Q.
Proof.
  induction l as [|i l IH]; [done|]. simpl. rewrite IH, filter_cons. unfold extra.
  destruct (decide (i ∈ lucky)) as [H|H];
    [rewrite bool_decide_true by done|rewrite bool_decide_false by done]; simpl.
  - unfold PAISE, Qeq, Qplus; simpl. lia.
  - unfold Qeq, Qplus; simpl. lia.
Qed.

Lemma filter_lucky (lucky l : list nat) :
  NoDup lucky -> NoDup l -> (forall i, i ∈ lucky -> i ∈ l) ->
  length (base.filter (fun i => i ∈ lucky) l) = length lucky.
Proof.
  intros Hl Hn Hin. apply Permutation_length, NoDup_Permutation; [by apply NoDup_filter|done|].
  intros i. rewrite list_elem_of_filter. naive_solver.
Qed.

Lemma floor_part p :
  (0 <= p)%Q -> let f := quantize PAISE_SCALE ROUND_FLOOR p in
  is_paise f /\ (0 <= f)%Q /\ (f <= p)%Q /\ (p < f + PAISE)%Q.
Proof.
  intros H f. destruct (quantize_floor_le PAISE_SCALE p) as [H1 H2].
  split_and!; [apply is_paise_quantize|by apply quantize_nonneg|done|done].
Qed.

Lemma qsum_In_le xs x : Forall (fun y => 0 <= y)%Q xs -> In x xs -> (x <= qsum xs)%Q.
Proof.
  induction 1 as [|y ys Hy Hys IH]; simpl; [done|]. pose proof (qsum_nonneg ys Hys).
  intros [->|Hx]; [lra|]. specialize (IH Hx). lra.
Qed.

Lemma floors_bounds ps :
  Forall (fun p => 0 <= p)%Q ps -> let fl := map (quantize PAISE_SCALE ROUND_FLOOR) ps in
  Forall is_paise fl /\ Forall (fun f => 0 <= f)%Q fl /\ (qsum fl <= qsum ps)%Q
  /\ (qsum ps <= qsum fl + (Z.of_nat (length ps) # 100))%Q.
Proof.
  induction 1 as [|p ps Hp Hps IH]; simpl.
  - split_and!; try constructor; unfold Qle; simpl; lia.
  - destruct (floor_part p Hp) as (? & ? & ? & ?). destruct IH as (? & ? & ? & ?).
    split; [by constructor|]. split; [by constructor|]. split; [lra|].
    assert ((Zpos (Pos.of_succ_nat (length ps)) # 100) == PAISE + (Z.of_nat (length ps) # 100))%Q as ->; [|lra].
    unfold PAISE, Qeq, Qplus. simpl Qnum. simpl Qden. lia.
Qed.

Lemma allocate_paise_unfold parts total :
  parts <> [] ->
  let floors := map (quantize PAISE_SCALE ROUND_FLOOR) parts in
  let owed := round_int ROUND_DOWN (ddiv (dsub total (dsum floors)) PAISE) in
  let lucky := firstn (Z.to_nat owed)
                 (order_by (by_remainder (zip_with dsub floors parts)) (seq 0 (length parts))) in
  allocate_paise parts total
  = if negb (deq total (quantize PAISE_SCALE ROUND_FLOOR total)) then Err ValueError
    else if negb ((0 <=? owed) && (owed <=? Z.of_nat (length parts))) then Err ValueError
    else Ok (imap (fun i f => if bool_decide (i ∈ lucky) then dadd f PAISE else f) floors).
Proof. by destruct parts. Qed.

Section Allocate.
Context (parts : list Q) (total : Q).
Context (parts_nonneg : Forall (fun p => 0 <= p)%Q parts).
Context (parts_bound : (qsum parts + 1 < exact_bound)%Q).
Context (total_bound : (0 <= total < exact_bound)%Q).

Let floors := map (quantize PAISE_SCALE ROUND_FLOOR) parts.

Lemma floors_sum :
  is_paise (qsum floors) /\ (0 <= qsum floors)%Q /\ (qsum floors <= qsum parts)%Q
  /\ (qsum parts <= qsum floors + (Z.of_nat (length parts) # 100))%Q
  /\ (dsum floors == qsum floors)%Q.
Proof.
  clear total_bound. pose proof (floors_bounds parts parts_nonneg) as (H1 & H2 & H3 & H4).
  fold floors in H1, H2, H3, H4. split_and!; try done.
  - by apply is_paise_qsum.
  - by apply qsum_nonneg.
  - apply dsum_money; [|done|lra]. eapply Forall_impl; [exact H1|]. apply is_paise_money.
Qed.

(** How many paise the floors leave owed. *)
Lemma owed_count z :
  (total == z # 100)%Q -> exists w, (qsum floors == w # 100)%Q
    /\ round_int ROUND_DOWN (ddiv (dsub total (dsum floors)) PAISE) = z - w.
Proof.
  intros Hz. destruct floors_sum as ([w Hw] & H0 & H1 & _ & Hd). exists w. split; [done|].
  assert (Hx : (dsub total (dsum floors) == total - qsum floors)%Q).
  { rewrite dsub_money; [by rewrite Hd| |rewrite Hd|rewrite Hd; lra|rewrite Hd; lra].
    - apply is_paise_money. by exists z.
    - apply is_paise_money. by exists w. }
  apply paise_count; [|rewrite Hx; lra]. rewrite Hx, Hz, Hw. unfold Qeq, Qminus, Qplus, Qopp; simpl. lia.
Qed.

Lemma deq_floor z : (total == z # 100)%Q -> deq total (quantize PAISE_SCALE ROUND_FLOOR total) = true.
Proof.
  intros Hz. apply Qeq_bool_iff. symmetry. by apply (quantize_id PAISE_SCALE ROUND_FLOOR total z).
Qed.

Lemma floor_exact f : In f floors -> is_paise f /\ (0 <= f)%Q /\ (f + PAISE < exact_bound)%Q.
Proof.
  clear total_bound. intros Hf. apply in_map_iff in Hf as (p & <- & Hp).
  pose proof (qsum_In_le parts p parts_nonneg Hp). rewrite List.Forall_forall in parts_nonneg.
  destruct (floor_part p (parts_nonneg p Hp)) as (? & ? & ? & ?). split_and!; try done.
  unfold PAISE in *. lra.
Qed.

Lemma allocate_spec out :
  parts <> [] -> allocate_paise parts total = Ok out ->
  length out = length parts /\ (qsum out == total)%Q
  /\ Forall2 (fun p o => is_paise o /\ Qabs (o - p) <= PAISE)%Q parts out.
Proof.
  intros Hne H. rewrite allocate_paise_unfold in H by done. cbv zeta in H. fold floors in H.
  destruct (deq total _) eqn:Ep; [|done]. cbn [negb] in H.
  assert (exists z, (total == z # 100)%Q) as [z Hz].
  { apply Qeq_bool_iff in Ep. destruct (is_paise_quantize ROUND_FLOOR total) as [z E]. exists z. by rewrite Ep, E. }
  destruct (owed_count z Hz) as (w & Hw & Eo). rewrite Eo in H.
  destruct (_ && _) eqn:Eb; [|done]. cbn [negb] in H. injection H as <-.
  set (lucky := firstn _ _).
  assert (Hperm : order_by (by_remainder (zip_with dsub floors parts)) (seq 0 (length parts))
                  ≡ₚ seq 0 (length parts)) by apply order_by_perm.
  assert (Hlen : length lucky = Z.to_nat (z - w)).
  { unfold lucky. rewrite length_firstn, Hperm, length_seq. lia. }
  assert (Hnd : NoDup lucky).
  { assert (NoDup (order_by (by_remainder (zip_with dsub floors parts)) (seq 0 (length parts)))) as Hn
      by (rewrite Hperm; apply NoDup_seq).
    rewrite <- (take_drop (Z.to_nat (z - w))) in Hn. by apply NoDup_app in Hn as (? & _). }
  assert (Hin : forall i, i ∈ lucky -> i ∈ seq 0 (length parts)).
  { intros i Hi. rewrite <- Hperm. unfold lucky in Hi.
    apply elem_of_take in Hi as (j & Hj & _). by apply list_elem_of_lookup_2 in Hj. }
  assert (Hg : forall i f, In f floors ->
     ((if bool_decide (i ∈ lucky) then dadd f PAISE else f) == f + extra lucky i)%Q).
  { intros i f Hf. unfold extra. destruct (bool_decide _); [|ring].
    destruct (floor_exact f Hf) as (Hpf & H0 & H1). pose proof exact_bound_pos.
    assert (Hp1 : is_paise PAISE) by by exists 1.
    apply dadd_money; [by apply is_paise_money|by apply is_paise_money|unfold PAISE; lra|done]. }
  assert (Hlf : length floors = length parts) by (unfold floors; by rewrite length_map).
  split; [by rewrite length_imap, Hlf|]. split.
  - etransitivity;
      [exact (qsum_imap_extra (fun i f => if bool_decide (i ∈ lucky) then dadd f PAISE else f) lucky 0 floors Hg)|].
    rewrite Hlf, qsum_extra, filter_lucky, Hlen, Hw, Hz; [|done|apply NoDup_seq|done].
    unfold Qeq, Qplus; simpl. lia.
  - apply Forall2_same_length_lookup_2; [by rewrite length_imap, Hlf|].
    intros i p o Hp Ho. rewrite list_lookup_imap in Ho. unfold floors in Ho.
    rewrite list_lookup_fmap, Hp in Ho. simpl in Ho. injection Ho as <-.
    set (f := quantize PAISE_SCALE ROUND_FLOOR p).
    assert (Hpp : In p parts) by (apply list_elem_of_In; by apply list_elem_of_lookup_2 in Hp).
    assert (Hf : In f floors) by by apply in_map.
    rewrite List.Forall_forall in parts_nonneg. destruct (floor_part p (parts_nonneg p Hpp)) as (? & ? & ? & ?).
    fold f in H, H0, H1, H2. rewrite (Hg i f Hf). unfold extra.
    split; destruct (bool_decide _); try (apply Qabs_Qle_condition; unfold PAISE in *; lra).
    + apply is_paise_add; [done|by exists 1].
    + by rewrite Qplus_0_r.
Qed.
End Allocate.

(** The rounded sum of the parts is always accepted. *)
Lemma allocate_paise_returns parts :
  Forall (fun p => 0 <= p)%Q parts -> (qsum parts + 1 < exact_bound)%Q -> parts <> [] ->
  exists out, allocate_paise parts (to_paise (qsum parts)) = Ok out.
Proof.
  intros Hp Hb Hne. set (total := to_paise (qsum parts)).
  destruct (is_paise_quantize ROUND_HALF_UP (qsum parts)) as [z Hz]. fold (to_paise (qsum parts)) in Hz.
  fold total in Hz. destruct (quantize_half_up_near PAISE_SCALE (qsum parts)) as [Hlo Hhi].
  fold (to_paise (qsum parts)) in Hlo, Hhi. fold total in Hlo, Hhi.
  assert ((1 # (2 * PAISE_SCALE)) == 1 # 200)%Q as Eh by reflexivity. rewrite Eh in Hlo, Hhi.
  pose proof (qsum_nonneg parts Hp).
  assert (Ht : (0 <= total < exact_bound)%Q).
  { split; [by apply quantize_nonneg|lra]. }
  rewrite allocate_paise_unfold by done. cbv zeta.
  rewrite (deq_floor total z Hz). cbn [negb].
  destruct (owed_count parts total Hp Hb Ht z Hz) as (w & Hw & ->).
  destruct (floors_bounds parts Hp) as (_ & _ & H1 & H2). cbv zeta in H1, H2. rewrite Hw in H1, H2.
  assert (E : (0 <=? z - w) && (z - w <=? Z.of_nat (length parts)) = true); [|rewrite E; eauto].
  rewrite Hz in Hlo, Hhi. unfold PAISE_SCALE in *. apply andb_true_intro. split.
  - assert ((w # 100) - (1 # 200) <= z # 100)%Q as Hq by lra.
    unfold Qle, Qminus, Qplus, Qopp in Hq; simpl in Hq. lia.
  - assert ((z # 100) <= (w # 100) + (Z.of_nat (length parts) # 100) + (1 # 200))%Q as Hq by lra.
    unfold Qle, Qplus in Hq; simpl in Hq. lia.
Qed.

(** C36. [allocate_paise] loses and invents nothing: the parts it returns are whole
    paise, sum to the total exactly, and none is more than one paisa from its own
    exact value; and it always returns for the rounded sum of the parts. *)
Theorem allocate_paise_exact parts :
  Forall (fun p => 0 <= p)%Q parts -> (qsum parts + 1 < exact_bound)%Q -> parts <> [] ->
  (forall total out, (0 <= total < exact_bound)%Q -> allocate_paise parts total = Ok out ->
     length out = length parts /\ (qsum out == total)%Q
     /\ Forall2 (fun p o => is_paise o /\ Qabs (o - p) <= PAISE)%Q parts out)
  /\ exists out, allocate_paise parts (to_paise (qsum parts)) = Ok out.
Proof.
  intros Hp Hb Hne. split; [|by apply allocate_paise_returns].
  intros total out Ht H. by apply allocate_spec.
Qed.

(** ** Concrete runs *)
Lemma blank_order_ok t : order_ok (blank_db t).
Proof. constructor; simpl; intros; try lia; done. Qed.

Lemma blank_ledger_ok t : ledger_ok (blank_db t).
Proof. constructor; [apply blank_order_ok|constructor|done|done|apply NoDup_nil_2]. Qed.

Lemma record_entry_correct_witness :
  exists b s', record_entry 7 (inject_Z 500) "topup" (Some [PWord "pay_1"]) [] false false (blank_db 7) = Ok (b, s')
  /\ ledger_ok s' /\ (amount_inr b == ledger_sum 7 (credit_ledger s'))%Q
  /\ length (outbox_messages s') = 1%nat.
Proof.
  assert (exists b s', record_entry 7 (inject_Z 500) "topup" (Some [PWord "pay_1"]) [] false false (blank_db 7) = Ok (b, s'))
    as (b & s' & E) by (eexists _, _; vm_compute; reflexivity).
  exists b, s'. split; [exact E|].
  destruct (record_entry_correct 7 (inject_Z 500) "topup" _ [] false false (blank_db 7) b s'
              (blank_ledger_ok 7) (ex_intro _ 5000000 eq_refl) E eq_refl) as (H1 & H2 & _).
  split; [exact H1|]. split; [exact H2|]. vm_compute in E. injection E as _ <-. reflexivity.
Defined.

Lemma allocate_paise_exact_witness :
  exists out, allocate_paise [1 # 3; 1 # 3; 1 # 3]%Q (to_paise (qsum [1 # 3; 1 # 3; 1 # 3]%Q)) = Ok out
              /\ out = [17 # 50; 33 # 100; 33 # 100]%Q.
Proof.
  destruct (allocate_paise_exact [1 # 3; 1 # 3; 1 # 3]%Q) as [_ [out H]].
  - repeat (apply Forall_cons_2; [discriminate|]). constructor.
  - reflexivity.
  - discriminate.
  - exists out. split; [exact H|]. vm_compute in H. injection H as <-. reflexivity.
Defined.
End Ledger.
