(* ===== verification/Wallet.v ===== *)
(** * The wallet: the ledger and the lots moved together

    apps/api/billing/service.py from [CreditedLot] to [reprice_lot], and
    apps/api/billing/credit_expiry.py.  The ledger holds the money, the lots the
    terms it was sold on; every operation here moves both, and the invariant they
    keep is the one billing/models.py states: the lots of a wallet hold its balance
    while that is not negative, and nothing when it is. *)

From Stdlib Require Import ZArith Lia List QArith Qabs Lqa Sorted Permutation.
From stdpp Require Import base list strings.
From S2P Require Import Prelude PyDecimal Sql PyTime Outbox WalletDb RateCard Lots Ledger.

Local Open Scope string_scope.
Local Open Scope list_scope.
Local Open Scope Z_scope.
Local Open Scope tx_scope.

Module Wallet.
Import Lots Ledger.

(** ** When bought credit lapses ([credit_expiry.py]) *)

Definition CREDIT_EXPIRY_META_KIND : string := "credit_expiry".
Definition CREDIT_EXPIRY_RESTATED_META_KIND : string := "credit_expiry_restated".
Definition TERMS_EXPIRY_MONTHS : Z := 12.
Definition EXPIRY_BATCH : nat := 200.
Definition LAPSE_NOTICE_WINDOW : Z := 30 * US_PER_DAY.

Definition credit_expiry_ref (lot_id : uuid) : ref := [PWord "credit_expiry"; PId lot_id].

(** The settings and documents the term depends on: the configured months, whether
    the published Terms state an expiry, and whether a tenant accepted Terms that
    do. *)
Record expiry_terms := ExpiryTerms {
  credit_pack_expiry_months : option Z;
  terms_state_expiry : bool;
  terms_stating_expiry_accepted : uuid -> bool
}.

Definition credit_expiry_months (x : expiry_terms) : option Z :=
  if terms_state_expiry x then credit_pack_expiry_months x else None.

Definition credit_expiry_months_for (x : expiry_terms) (tenant_id : uuid) : option Z :=
  match credit_expiry_months x with
  | None => None
  | Some m => if terms_stating_expiry_accepted x tenant_id then Some m else None
  end.

(** The refusal of a setting, if any. *)
Definition assert_expiry_may_switch_on (x : expiry_terms) (months : option Z) : result unit :=
  match months with
  | None => Ok tt
  | Some m =>
      if terms_state_expiry x
      then if m <? TERMS_EXPIRY_MONTHS
           then Err (Problem BusinessRule "credit_expiry_shorter_than_terms") else Ok tt
      else Err (Problem BusinessRule "credit_expiry_terms_not_published")
  end.

Definition expires_at_for (opened : instant) (months : Z) : instant :=
  let local := to_ist opened in
  of_ist (DateTime (add_months_clipped (dt_date local) months) (dt_time local)).

(** ** Adding credit *)

Record CreditedLot := Credited {
  cl_lot : option uuid; cl_credits : Q; cl_repaid : Q }.

Section Terms.
Context (terms : expiry_terms).

Definition expiry_for (tenant_id : uuid) (source_ : string) : tx db (option instant) :=
  match (if String.eqb source_ "topup" then credit_expiry_months_for terms tenant_id else None) with
  | None => ret None
  | Some m => t ← clock_timestamp ; ret (Some (expires_at_for t m))
  end.

(** Whether a lot to restate has lapsed. *)
Definition has_lapsed (tenant_id lot_id : uuid) (target : option lot) : tx db bool :=
  match target with
  | None => ret false
  | Some l =>
      match expires_at l with
      | None => ret false
      | Some e =>
          t ← clock_timestamp ;
          if e <=? t then ret true
          else
            found ← read_entry_by_ref tenant_id "adjustment" (credit_expiry_ref lot_id) ;
            ret (match found with Some _ => true | None => false end)
      end
  end.

Definition apply_credit_to_lots (tenant_id : uuid) (credits_inr balance_after : Q)
    (rates : LotRates) (source_ : string) (pack : option string) (ledger_entry : uuid)
    (restate_lot_id : option uuid) (override_of : option string) : tx db CreditedLot :=
  let overdraft := dmax (dneg (dsub balance_after credits_inr)) 0 in
  let repaid := dmin credits_inr overdraft in
  let remainder := quantize MONEY_SCALE ROUND_HALF_UP (dsub credits_inr repaid) in
  if dle remainder 0 then ret (Credited None 0 repaid)
  else
    match restate_lot_id with
    | Some lid =>
        target ← read_lot lid ;
        lapsed ← has_lapsed tenant_id lid target ;
        match target, lapsed with
        | Some l, true =>
            expires ← expiry_for tenant_id source_ ;
            lot_id ← open_lot tenant_id remainder (clear_inr_per_min l) (studio_inr_per_min l)
                       (source l) (pack_id l) ledger_entry (override_of_pack_id l) None expires ;
            ret (Credited (Some lot_id) remainder repaid)
        | _, _ =>
            adjust_lot_for_restatement lid remainder ;;
            ret (Credited (Some lid) remainder repaid)
        end
    | None =>
        expires ← expiry_for tenant_id source_ ;
        lot_id ← open_lot tenant_id remainder (r_clear rates) (r_studio rates) source_ pack
                   ledger_entry override_of None expires ;
        ret (Credited (Some lot_id) remainder repaid)
    end.
End Terms.

(** ** The lot of a purchase *)

Record EntryLot := MkEntryLot { el_lot : uuid; el_total : Q }.

Definition lot_of_entry (eid : uuid) : tx db (option EntryLot) :=
  gets (fun s => option_map (fun l => MkEntryLot (l_id l) (credits_total l))
    (one_row (select (fun l => (l_tenant l =? rls s) && (ledger_entry_id l =? eid)) (credit_lots s)))).

Definition LOT_REPRICE_META_KIND : string := "lot_rate_override".

(** The marker entries of a re-price of [lot_id], and the lots they opened. *)
Definition reprices (r tenant lot_id : uuid) (e : entry) : bool :=
  own r tenant e && bool_decide (e_reason e = "adjustment")
  && json_text_is "kind" LOT_REPRICE_META_KIND (e_meta e) && json_id_is "lot_id" lot_id (e_meta e).

Definition reprice_successor (tenant_id lot_id : uuid) : tx db (option EntryLot) :=
  gets (fun s =>
    option_map (fun l => MkEntryLot (l_id l) (credits_total l))
      (one_row (flat_map (fun e =>
         select (fun l => (l_tenant l =? rls s) && (ledger_entry_id l =? e_id e)) (credit_lots s))
         (select (reprices (rls s) tenant_id lot_id) (credit_ledger s))))).

(** The [while] of [purchase_lot_of_entry]. *)
Fixpoint last_reprice (fuel : nat) (tenant_id : uuid) (l : EntryLot) : tx db EntryLot :=
  match fuel with
  | O => raise OutOfFuel
  | S fuel =>
      successor ← reprice_successor tenant_id (el_lot l) ;
      match successor with
      | None => ret l
      | Some l' => last_reprice fuel tenant_id l'
      end
  end.

Definition purchase_lot_of_entry (tenant_id eid : uuid) : tx db (option EntryLot) :=
  l ← lot_of_entry eid ;
  match l with
  | None => ret None
  | Some l =>
      n ← gets (fun s => length (credit_lots s)) ;
      l' ← last_reprice (S n) tenant_id l ; ret (Some l')
  end.

(** ** Spending *)

Record LotDebit := MkDebit { charged : bool; credits_inr : Q; splits : list LotSplit }.

(** The split serialisation as a [meta] value. *)
Definition lots_meta (ss : list LotSplit) : string * jval := ("lots", JArr (split_meta ss)).

Definition record_usage_from_lots (tenant_id : uuid) (ref_ : ref) (demand : LotDemand)
    (extra_inr : Q) (meta : list (string * jval)) (allow_negative : bool) : tx db LotDebit :=
  already ← gets (fun s => existsb (fun e => own (rls s) tenant_id e && bool_decide (e_ref e = Some ref_)
                                             && bool_decide (e_reason e = "usage")) (credit_ledger s)) ;
  if already : bool then ret (MkDebit false 0 [])
  else
    first ← consume tenant_id demand ;
    more ← (if dlt 0 extra_inr then consume tenant_id (DemandAi extra_inr) else ret []) ;
    let ss := first ++ more in
    let debited := credits_of ss in
    if dle debited 0 then ret (MkDebit false 0 [])
    else
      record_entry tenant_id (dneg debited) "usage" (Some ref_)
        (List.filter (fun kv => negb (String.eqb (fst kv) "lots")) meta ++ [lots_meta ss])
        allow_negative false ;;
      ret (MkDebit true debited ss).

Definition charge_for_call (tenant_id call_id : uuid) (demand : CallDemand) (extra_inr : Q) : tx db Q :=
  if dle (d_minutes demand) 0 && dle extra_inr 0 then ret 0%Q
  else
    debit ← record_usage_from_lots tenant_id [PId call_id] (DemandCall demand) extra_inr [] true ;
    ret (credits_inr debit).

(** ** Taking credit back *)

Record CreditRemoval := MkRemoval {
  rm_splits : list LotSplit; overdraft_inr : Q; expiry_restated_inr : Q }.

Definition lapsed_unrestated (r tenant lot_id : uuid) (t : list entry) : Q :=
  let rows := select (fun e => own r tenant e && bool_decide (e_reason e = "adjustment")
                               && json_id_is "lot_id" lot_id (e_meta e)) t in
  Qred (sum_over (fun e => - e_delta e)%Q
          (select (fun e => json_text_is "kind" CREDIT_EXPIRY_META_KIND (e_meta e)) rows)
        - sum_over e_delta
          (select (fun e => json_text_is "kind" CREDIT_EXPIRY_RESTATED_META_KIND (e_meta e)) rows)).

Definition restate_lapsed_credit (tenant_id lot_id : uuid) (amount : Q) : tx db Q :=
  lapsed ← gets (fun s => lapsed_unrestated (rls s) tenant_id lot_id (credit_ledger s)) ;
  let restated := dmin amount lapsed in
  if dle restated 0 then ret 0%Q
  else
    u ← uuid7 ;
    record_entry tenant_id restated "adjustment"
      (Some [PWord CREDIT_EXPIRY_RESTATED_META_KIND; PId lot_id; PId u])
      [("kind", JText CREDIT_EXPIRY_RESTATED_META_KIND); ("lot_id", JId lot_id);
       ("credits_inr", JDec restated)] true false ;;
    ret restated.

Definition overdraft_of (ss : list LotSplit) : Q :=
  to_paise (dsum (map split_credits (List.filter (fun x => match split_lot x with None => true | Some _ => false end) ss))).

Definition remove_credit_from_lots (tenant_id : uuid) (corrected_entry : option uuid) (amount : Q) :
    tx db CreditRemoval :=
  found ← match corrected_entry with
          | None => ret None
          | Some e => purchase_lot_of_entry tenant_id e
          end ;
  restated_lapse ← match found with
                   | None => ret 0%Q
                   | Some l => restate_lapsed_credit tenant_id (el_lot l) amount
                   end ;
  if dlt 0 restated_lapse then
    let remaining := dsub amount restated_lapse in
    ss ← (if dle remaining 0 then ret [] else consume tenant_id (DemandAi remaining)) ;
    ret (MkRemoval ss (overdraft_of ss) restated_lapse)
  else
    let full :=
      ss ← consume tenant_id (DemandAi amount) ; ret (MkRemoval ss (overdraft_of ss) 0) in
    match found with
    | Some l =>
        if dlt amount (el_total l) then
          restated ← adjust_lot_for_restatement (el_lot l) (dneg amount) ;
          if dle (rs_shortfall restated) 0 then ret (MkRemoval [] 0 0)
          else
            ss ← consume tenant_id (DemandAi (rs_shortfall restated)) ;
            ret (MkRemoval ss (overdraft_of ss) 0)
        else full
    | None => full
    end.

(** ** Re-pricing a lot *)

Definition lot_reprice_ref (lot_id : uuid) (pack : string) : ref :=
  [PWord "lot_rates"; PId lot_id; PWord pack].

Record RepricedLot := MkRepriced {
  closed_lot_id : uuid; replacement_lot_id : uuid; rp_credits : Q; rp_entry : uuid;
  previous_rates : LotRates; new_rates : LotRates }.

Definition opt_text (k : string) (o : option string) : list (string * jval) :=
  match o with Some t => [(k, JText t)] | None => [] end.

(** [rates]: what [rate_card_at] answers for the pack at the instant of the call. *)
Definition reprice_lot (tenant_id lot_id : uuid) (pack : string) (rates : LotRates)
    (reason : string) (operator_id : option uuid) : tx db (option RepricedLot) :=
  let ref_ := lot_reprice_ref lot_id pack in
  done_before ← find_entry_by_ref tenant_id "adjustment" ref_ ;
  match done_before with
  | Some _ => ret None
  | None =>
      found ← read_lot lot_id ;
      match found with
      | None => raise (Problem NotFound "not_found")
      | Some l =>
          match closed_at l with
          | Some _ => raise (Problem BusinessRule "lot_is_spent")
          | None =>
              let previous := MkRates (clear_inr_per_min l) (studio_inr_per_min l) in
              if deq (r_clear rates) (r_clear previous) && deq (r_studio rates) (r_studio previous)
              then raise (Problem BusinessRule "lot_already_at_those_rates")
              else if dlt (r_clear previous) (r_clear rates) || dlt (r_studio previous) (r_studio rates)
              then raise (Problem BusinessRule "lot_reprice_raises_rate")
              else
                record_entry tenant_id 0 "adjustment" (Some ref_)
                  ([("kind", JText LOT_REPRICE_META_KIND); ("lot_id", JId lot_id);
                    ("reason", JText reason)]
                   ++ opt_text "previous_pack_id"
                        (match override_of_pack_id l with Some p => Some p | None => pack_id l end)
                   ++ [("rates_of_pack_id", JText pack);
                       ("previous_clear_inr_per_min", JDec (r_clear previous));
                       ("previous_studio_inr_per_min", JDec (r_studio previous));
                       ("clear_inr_per_min", JDec (r_clear rates));
                       ("studio_inr_per_min", JDec (r_studio rates));
                       ("credits_inr", JDec (credits_remaining l))]
                   ++ match operator_id with Some o => [("repriced_by", JId o)] | None => [] end)
                  true true ;;
                marker ← find_entry_by_ref tenant_id "adjustment" ref_ ;
                match marker with
                | None => raise AssertionError
                | Some m =>
                    closed ← close_lot lot_id (credits_remaining l) ;
                    if negb closed then raise (Problem Conflict "credit_lots_contended")
                    else
                      replacement ← open_lot tenant_id (credits_remaining l) (r_clear rates)
                        (r_studio rates) "override" None (entry_id m) (Some pack)
                        (Some (opened_at l)) (expires_at l) ;
                      ret (Some (MkRepriced lot_id replacement (credits_remaining l) (entry_id m)
                                   previous rates))
                end
          end
      end
  end.

(** ** Expiry *)

Record ExpiredLot := MkExpired { ex_lot : uuid; ex_credits : Q }.

Definition expire_lot (tenant_id lot_id : uuid) (at_ : instant) : tx db (option ExpiredLot) :=
  let ref_ := credit_expiry_ref lot_id in
  done_before ← find_entry_by_ref tenant_id "adjustment" ref_ ;
  match done_before with
  | Some _ => ret None
  | None =>
      found ← read_lot lot_id ;
      match found with
      | None => ret None
      | Some l =>
          match closed_at l, expires_at l with
          | None, Some e =>
              if (at_ <? e) || dle (credits_remaining l) 0 then ret None
              else
                closed ← close_lot lot_id (credits_remaining l) ;
                if negb closed then raise AssertionError
                else
                  record_entry tenant_id (dneg (credits_remaining l)) "adjustment" (Some ref_)
                    [("kind", JText CREDIT_EXPIRY_META_KIND); ("lot_id", JId lot_id);
                     ("expires_at", JTime e); ("credits_inr", JDec (credits_remaining l))]
                    false false ;;
                  ret (Some (MkExpired lot_id (credits_remaining l)))
          | _, _ => ret None
          end
      end
  end.

Definition by_expiry : lot -> lot -> bool :=
  le_at_id (fun l => match expires_at l with Some e => e | None => 0 end) l_id.
Definition expires_in (p : instant -> bool) (l : lot) : bool :=
  match expires_at l with Some e => p e | None => false end.

Definition due_lots (at_ : instant) : tx db (list uuid) :=
  gets (fun s => map l_id (limit EXPIRY_BATCH (order_by by_expiry
    (select (fun l => (l_tenant l =? rls s) && is_open l && expires_in (fun e => e <=? at_) l)
       (credit_lots s))))).

Record LapsingLot := MkLapsing { lp_lot : uuid; lp_expires : option instant; lp_credits : Q }.
Definition lapsing_lots (at_ : instant) : tx db (list LapsingLot) :=
  gets (fun s => map (fun l => MkLapsing (l_id l) (expires_at l) (credits_remaining l))
    (limit EXPIRY_BATCH (order_by by_expiry
      (select (fun l => (l_tenant l =? rls s) && is_open l && dlt 0 (credits_remaining l)
                        && expires_in (fun e => (at_ <? e) && (e <=? at_ + LAPSE_NOTICE_WINDOW)) l)
         (credit_lots s))))).

(** ** The invariant *)

(** The part of a balance that can be spent. *)
Definition pos (q : Q) : Q := dmax q 0.

Lemma pos_spec q : (0 <= q /\ pos q = q)%Q \/ (q < 0 /\ pos q = 0)%Q.
Proof. unfold pos. destruct (dmax_spec q 0) as [[? ->]|[? ->]]; [left|right]; done. Qed.

#[export] Instance pos_proper : Proper (Qeq ==> Qeq) pos.
Proof. intros a b E. destruct (pos_spec a) as [[? ->]|[? ->]], (pos_spec b) as [[? ->]|[? ->]]; lra. Qed.

Ltac pos_case := repeat match goal with
  | |- context [pos ?q] => let E := fresh "E" in destruct (pos_spec q) as [[? E]|[? E]]; rewrite E in *; clear E
  | H : context [pos ?q] |- _ => let E := fresh "E" in destruct (pos_spec q) as [[? E]|[? E]]; rewrite E in *; clear E
  end.

(** A marker entry of a re-price, and the lot it closed. *)
Definition is_marker (i : uuid) (e : entry) : Prop :=
  e_reason e = "adjustment" /\ json_text_is "kind" LOT_REPRICE_META_KIND (e_meta e) = true
  /\ json_id_is "lot_id" i (e_meta e) = true.

(** The lots name entries of the ledger; a marker names a lot older than what is
    written next, and the replacement of a re-price is newer than the lot it
    replaces. *)
Record links_ok (s : db) : Prop := LinksOk {
  ln_entry : forall l, In l (credit_lots s) -> exists e, In e (credit_ledger s) /\ e_id e = ledger_entry_id l;
  ln_marker : forall e i n, In e (credit_ledger s) -> is_marker i e -> i < ids s n;
  ln_chain : forall l e i, In l (credit_lots s) -> In e (credit_ledger s) ->
    e_id e = ledger_entry_id l -> is_marker i e -> i < l_id l
}.

Definition lots_held (s : db) : Q := lots_sum (rls s) (credit_lots s).
Definition balance_held (s : db) : Q := ledger_sum (rls s) (credit_ledger s).

(** Everything but the equation between the two tables. *)
Record tables_ok (s : db) : Prop := TablesOk {
  tb_ledger : ledger_ok s;
  tb_lots : lots_wf (credit_lots s);
  tb_links : links_ok s
}.

(** The other tenants' wallets are in balance. *)
Definition others_ok (s : db) : Prop :=
  forall t, t <> rls s -> (lots_sum t (credit_lots s) == pos (ledger_sum t (credit_ledger s)))%Q.

(** The session's lots hold what its balance, once [owed] is taken off it, can spend. *)
Record owing (owed : Q) (s : db) : Prop := Owing {
  ow_tables : tables_ok s;
  ow_sum : (lots_held s == pos (balance_held s - owed))%Q;
  ow_others : others_ok s
}.

(** The invariant of the wallets: every tenant's lots hold its balance while that is
    not negative, and nothing when it is. *)
Record wallet_ok (s : db) : Prop := WalletOk {
  wk_tables : tables_ok s;
  wk_sum : forall t, (lots_sum t (credit_lots s) == pos (ledger_sum t (credit_ledger s)))%Q
}.

Lemma owing_0 s : owing 0 s <-> wallet_ok s.
Proof.
  split.
  - intros [Ht Hs Ho]. constructor; [done|]. intros t. destruct (Z.eq_dec t (rls s)) as [->|]; [|auto].
    unfold lots_held in Hs. rewrite Hs. apply pos_proper. unfold balance_held. ring.
  - intros [Ht Hs]. constructor; [done| |intros t _; auto]. unfold lots_held. rewrite Hs.
    apply pos_proper. unfold balance_held. ring.
Qed.

Lemma lots_sum_nonneg t lots : Forall lot_wf lots -> (0 <= lots_sum t lots)%Q.
Proof.
  unfold lots_sum, sum_over. induction 1 as [|l ls Hl _ IH]; simpl; [done|].
  apply lw_ok, lot_ok_spec in Hl. destruct (l_tenant l =? t); lra.
Qed.

Lemma lots_held_nonneg s : tables_ok s -> (0 <= lots_held s)%Q.
Proof. intros [_ [_ Hf] _]. by apply lots_sum_nonneg. Qed.

Lemma lots_sum_others r t lots : t <> r -> (lots_sum t lots == lots_sum t (others r lots))%Q.
Proof.
  intros H. unfold lots_sum, sum_over, others, select. induction lots as [|l ls IH]; simpl; [done|].
  rewrite IH. destruct (l_tenant l =? r) eqn:E; simpl; [|done].
  destruct (l_tenant l =? t) eqn:E'; [lia|ring].
Qed.

(** ** Moves

    A step of the session's tenant: its lots move by [dl], its ledger by [dg]. *)
Record moved (dl dg : Q) (s s' : db) : Prop := Moved {
  mv_tables : tables_ok s';
  mv_rls : rls s' = rls s;
  mv_lots : (lots_held s' == lots_held s + dl)%Q;
  mv_ledger : (balance_held s' == balance_held s + dg)%Q;
  mv_others : forall t, t <> rls s ->
    (lots_sum t (credit_lots s') == lots_sum t (credit_lots s))%Q
    /\ (ledger_sum t (credit_ledger s') == ledger_sum t (credit_ledger s))%Q
}.

Lemma moved_refl s : tables_ok s -> moved 0 0 s s.
Proof. intros H. constructor; try done; ring. Qed.

Lemma moved_trans l1 g1 l2 g2 s1 s2 s3 :
  moved l1 g1 s1 s2 -> moved l2 g2 s2 s3 -> moved (l1 + l2) (g1 + g2) s1 s3.
Proof.
  intros [? Hr Hl Hg Ho] [? Hr' Hl' Hg' Ho']. constructor; [done|congruence| | |].
  - rewrite Hl', Hl. ring.
  - rewrite Hg', Hg. ring.
  - intros t Ht. destruct (Ho t Ht) as [<- <-]. apply Ho'. congruence.
Qed.

Lemma moved_eq l g l' g' s s' : (l == l')%Q -> (g == g')%Q -> moved l g s s' -> moved l' g' s s'.
Proof. intros El Eg []. constructor; rewrite <- ?El, <- ?Eg; done. Qed.

Lemma moved_owing a b dl dg s s' :
  owing a s -> moved dl dg s s' ->
  (lots_held s + dl == pos (balance_held s + dg - b))%Q -> owing b s'.
Proof.
  intros [_ _ Ho] [Ht Hr Hl Hg Hm] E. constructor; [done|by rewrite Hl, Hg|].
  intros t Hne. rewrite Hr in Hne. destruct (Hm t Hne) as [-> ->]. auto.
Qed.

Lemma order_ok_still s s' : still s s' -> order_ok s -> order_ok s'.
Proof.
  intros [Hr Hi Hl _ _ Hids _ [k Hk]] [H1 H2 H3 H4 H5].
  constructor; intros; rewrite ?Hi, ?Hk, ?Hl in *; auto with arith.
  match goal with H : In ?x (credit_lots s') |- _ =>
    destruct (same_terms_In _ _ _ Hids H) as (l0 & Hl0 & E); apply (f_equal l_id) in E; simpl in E;
    rewrite <- E; auto end.
Qed.

Lemma ledger_ok_still s s' : still s s' -> ledger_ok s -> ledger_ok s'.
Proof.
  intros Hst [H1 H2 H3 H4 H5]. pose proof (order_ok_still _ _ Hst H1).
  pose proof (st_ledger _ _ Hst) as Hl. constructor; rewrite ?Hl; done.
Qed.

Lemma links_ok_still s s' : still s s' -> links_ok s -> links_ok s'.
Proof.
  intros [_ Hi Hl _ _ Ht _ _] [H1 H2 H3].
  constructor; rewrite ?Hl, ?Hi; [| done |].
  - intros l' Hin. destruct (same_terms_In _ _ _ Ht Hin) as (l & Hin' & E).
    apply (f_equal ledger_entry_id) in E. simpl in E. rewrite <- E. auto.
  - intros l' e i Hin He Hid Hm. destruct (same_terms_In _ _ _ Ht Hin) as (l & Hin' & E).
    pose proof (f_equal ledger_entry_id E) as E1. pose proof (f_equal l_id E) as E2. simpl in E1, E2.
    rewrite <- E2. apply (H3 l e i); congruence.
Qed.

(** What only moves positions is a move of the lots. *)
Lemma still_moved dl s s' :
  tables_ok s -> still s s' -> lots_wf (credit_lots s') -> (lots_held s' == lots_held s + dl)%Q ->
  moved dl 0 s s'.
Proof.
  intros [Hg _ Hn] Hst Hw Hh. constructor; [|by apply st_rls|done| |].
  - constructor; [by eapply ledger_ok_still|done|by eapply links_ok_still].
  - unfold balance_held. rewrite (st_rls _ _ Hst), (st_ledger _ _ Hst). ring.
  - intros t Ht. rewrite (st_ledger _ _ Hst). split; [|done].
    by rewrite (lots_sum_others (rls s) t (credit_lots s')), (lots_sum_others (rls s) t (credit_lots s)),
      (st_others _ _ Hst).
Qed.

(** ** Draws *)

(** A draw takes [c] from the lots, down to nothing. *)
Lemma consume_moved s demand ss s' :
  tables_ok s -> demand_ok demand -> consume (rls s) demand s = Ok (ss, s') ->
  let c := (drawn ss + overdraft ss)%Q in
  (exists dl, moved dl 0 s s' /\ (lots_held s + dl == pos (lots_held s - c))%Q)
  /\ still s s' /\ (0 <= c)%Q /\ Forall split_sound ss
  /\ ((0 < overdraft ss)%Q -> (lots_held s' == 0)%Q)
  /\ match demand with DemandAi q => (c == money q)%Q | DemandCall _ => True end.
Proof.
  intros Ht Hd H c. destruct (consume_spec s demand ss s' (tb_lots s Ht) Hd H) as (Hw & Hst & Hs & Hsum & Hov & Hm).
  destruct (drawn_sound ss Hs) as [H1 H2].
  assert (Hh : (lots_held s' == lots_held s + - drawn ss)%Q)
    by (unfold lots_held; rewrite (st_rls _ _ Hst), Hsum; ring).
  assert (Hmv : moved (- drawn ss) 0 s s') by by apply still_moved.
  pose proof (lots_held_nonneg s' (mv_tables _ _ _ _ Hmv)) as H0.
  assert (Hz : (0 < overdraft ss -> lots_held s' == 0)%Q)
    by (intros Hp; specialize (Hov Hp); unfold lots_held; by rewrite (st_rls _ _ Hst)).
  split; [exists (- drawn ss)%Q; split; [done|]|split; [done|split; [unfold c; lra|done]]].
  unfold c. destruct (Qlt_le_dec 0 (overdraft ss)) as [Hp|Hp]; [specialize (Hz Hp)|]; pos_case; lra.
Qed.

Lemma credits_of_exact ss :
  Forall split_sound ss -> (credits_of ss < numeric_limit + numeric_limit)%Q ->
  (credits_of ss == drawn ss + overdraft ss)%Q.
Proof.
  intros Hs H. rewrite <- drawn_overdraft. unfold credits_of, money in *.
  destruct (quantize_half_up_near MONEY_SCALE (dsum (map split_credits ss))) as [Hn _].
  assert ((1 # (2 * MONEY_SCALE)) < 1)%Q as Hu by reflexivity.
  assert (Hb : (numeric_limit + numeric_limit + 1 < exact_bound)%Q) by reflexivity.
  assert (Hm : Forall is_money (map split_credits ss)).
  { apply Forall_map. eapply Forall_impl; [exact Hs|]. by intros x [? _]. }
  rewrite (dsum_money_bounded (map split_credits ss)); [|done| |lra].
  - apply quantize_money. by apply is_money_qsum.
  - apply Forall_map. eapply Forall_impl; [exact Hs|]. by intros x [_ ?].
Qed.

(** A debit the ledger could store was added up exactly. *)
Lemma credits_of_stored ss d :
  Forall split_sound ss -> numeric_12_4 (dneg (credits_of ss)) = Ok d ->
  (credits_of ss == drawn ss + overdraft ss)%Q /\ (dneg (credits_of ss) == - credits_of ss)%Q.
Proof.
  intros Hs H. assert (Hl : (numeric_limit + numeric_limit < exact_bound)%Q) by reflexivity.
  assert (Hlm : is_money (numeric_limit + numeric_limit)) by (exists (2 * 10 ^ 12); reflexivity).
  assert (H0 : (1 < numeric_limit)%Q) by reflexivity.
  assert (Hmc : is_money (credits_of ss)) by apply is_money_money.
  assert (Hb : (credits_of ss < numeric_limit + numeric_limit)%Q).
  { apply dneg_bounded; [done|lra|done|]. unfold numeric_12_4 in H. destruct (_ && _) eqn:E; [|done].
    apply andb_prop in E as [_ E]. dcase.
    destruct (quantize_half_up_near MONEY_SCALE (dneg (credits_of ss))) as [_ Hn].
    assert ((1 # (2 * MONEY_SCALE)) < 1)%Q as Hu by reflexivity. lra. }
  split; [by apply credits_of_exact|].
  assert (0 <= credits_of ss)%Q.
  { rewrite credits_of_exact by done. destruct (drawn_sound ss Hs). lra. }
  unfold dneg. apply round28_money; [auto with money|qabs].
Qed.

(** ** Movements of the ledger *)

(** The meta of a new entry names no lot as re-priced, or one older than the ids to come. *)
Definition marks_old (s : db) (reason : string) (meta : list (string * jval)) : Prop :=
  reason = "adjustment" -> json_text_is "kind" LOT_REPRICE_META_KIND meta = true ->
  forall i n, json_id_is "lot_id" i meta = true -> i < ids s n.

Lemma order_ok_ids_mono s m n : order_ok s -> (m <= n)%nat -> ids s m <= ids s n.
Proof. intros Ho H. destruct (decide (m = n)) as [->|]; [lia|]. apply Z.lt_le_incl, (oo_ids s Ho). lia. Qed.

Lemma record_entry_moved s delta reason ref_ meta an az b s' :
  tables_ok s -> is_money delta -> marks_old s reason meta ->
  record_entry (rls s) delta reason ref_ meta an az s = Ok (b, s') ->
  deq delta 0 && negb az = false ->
  moved 0 delta s s' /\ (amount_inr b == balance_held s')%Q
  /\ credit_lots s' = credit_lots s
  /\ (exists e, credit_ledger s' = credit_ledger s ++ [e] /\ e_id e = ids s 0%nat
        /\ e_tenant e = rls s /\ (e_delta e == delta)%Q /\ e_reason e = reason
        /\ e_ref e = ref_ /\ e_meta e = meta)
  /\ (an = false -> (delta < 0)%Q -> (0 <= amount_inr b)%Q).
Proof.
  intros [Hk Hw [L1 L2 L3]] Hm Hold H Hz. apply record_entry_ok in H as [Hr Hg]; [|done].
  destruct (recorded_ledger_ok _ _ _ _ _ _ _ _ Hk Hm Hr) as [Hk' Hs].
  destruct (recorded_amounts _ _ _ _ _ _ _ _ Hk Hm Hr)
    as (Ha & e & El & Et & Ed & _ & _ & Ei & _ & Er & Ef & Em & _).
  pose proof (rc_lots _ _ _ _ _ _ _ _ Hr) as Hl. pose proof (rc_rls _ _ _ _ _ _ _ _ Hr) as Hrls.
  assert (Hbal : (balance_held s' == balance_held s + delta)%Q)
    by (unfold balance_held; rewrite Hrls, Hs, Z.eqb_refl; done).
  assert (Hids : forall n, ids s 0%nat < ids s' n).
  { intros n. rewrite <- Ei. apply (oo_row_ids s' (lk_order s' Hk')). rewrite El. apply in_or_app. right. by left. }
  split; [|split; [|split; [done|split; [by exists e|]]]].
  - constructor; [|done| |done|].
    + constructor; [done|by rewrite Hl|]. constructor; rewrite ?Hl, ?El.
      * intros l Hin. destruct (L1 l Hin) as (x & Hx & E). exists x. split; [|done].
        apply in_or_app. by left.
      * intros x i n Hx Hmk. specialize (Hids n). apply in_app_or in Hx as [Hx|[<-|[]]].
        -- specialize (L2 x i 0%nat Hx Hmk). lia.
        -- destruct Hmk as (M1 & M2 & M3). rewrite Er, Em in *. specialize (Hold M1 M2 i 0%nat M3). lia.
      * intros l x i Hin Hx Hid Hmk. apply in_app_or in Hx as [Hx|[<-|[]]]; [by apply (L3 l x i)|].
        exfalso. destruct (L1 l Hin) as (y & Hy & E).
        pose proof (oo_row_ids s (lk_order s Hk) y 0%nat Hy). lia.
    + unfold lots_held. rewrite Hrls, Hl. ring.
    + intros t Ht. rewrite Hl, Hs. replace (t =? rls s) with false by lia. split; [done|ring].
  - rewrite Ha. unfold balance_held in *. rewrite Hbal. done.
  - intros -> Hd. rewrite (rc_balance _ _ _ _ _ _ _ _ Hr) in *. simpl. rewrite andb_true_r in Hg.
    destruct (dlt_spec delta 0); [|contradiction]. simpl in Hg.
    destruct (dlt_spec (dadd (balance_now (rls s) s) delta) 0); [done|lra].
Qed.

(** ** Opening a lot *)

Lemma insert_lot_ok l s u s' :
  insert_lot l s = Ok (u, s') ->
  l_tenant l = rls s /\ source l ∈ LOT_SOURCES
  /\ (exists e, In e (credit_ledger s) /\ e_id e = ledger_entry_id l)
  /\ lot_ok l = true /\ (forall x, In x (credit_lots s) -> ledger_entry_id x <> ledger_entry_id l)
  /\ s' = with_lots (credit_lots s ++ [l]) s.
Proof.
  intros H. unfold insert_lot, own_tenant in H. tx_inv.
  destruct (l_tenant l =? _) eqn:Et; tx_inv.
  destruct (negb (bool_decide _)) eqn:Er; [tx_inv|]. apply negb_false_iff, bool_decide_eq_true in Er.
  destruct (negb (existsb _ (credit_ledger _))) eqn:Ef; [tx_inv|]. apply negb_false_iff, existsb_exists in Ef.
  destruct (negb (lot_ok l)) eqn:Eo; [tx_inv|]. apply negb_false_iff in Eo.
  destruct (existsb _ (credit_lots _)) eqn:Eu; tx_inv. split_and!; try done; [lia| |].
  - destruct Ef as (e & He & E). exists e. split; [done|lia].
  - intros x Hx E. rewrite <- not_true_iff_false in Eu. apply Eu, existsb_exists. exists x. split; [done|lia].
Qed.

Lemma open_lot_moved s t c cl st src pack eid ovr opened expires i s' :
  tables_ok s -> open_lot t c cl st src pack eid ovr opened expires s = Ok (i, s') ->
  t = rls s /\ moved (money c) 0 s s' /\ credit_ledger s' = credit_ledger s
  /\ exists l, credit_lots s' = credit_lots s ++ [l] /\ l_id l = i /\ i = ids s 0%nat /\ l_tenant l = t
       /\ is_open l = true /\ (credits_total l == money c)%Q /\ (credits_remaining l == money c)%Q
       /\ (clear_inr_per_min l == money cl)%Q /\ (studio_inr_per_min l == money st)%Q
       /\ source l = src /\ pack_id l = pack /\ override_of_pack_id l = ovr
       /\ ledger_entry_id l = eid /\ expires_at l = expires.
Proof.
  intros [Hk [Hpk Hf] [L1 L2 L3]] H. unfold open_lot, uuid7, clock_timestamp in H.
  do 3 (destruct (_ : bool); [by tx_inv|]). tx_inv.
  repeat match goal with
  | Hn : numeric_12_4 (money _) = Ok _ |- _ =>
      apply numeric_12_4_ok in Hn as (? & ? & ? & Hn); specialize (Hn (is_money_money _))
  end.
  match goal with Hi : insert_lot ?l0 _ = Ok _ |- _ => apply insert_lot_ok in Hi; set (l := l0) in * end.
  match goal with Hi : _ /\ _ |- _ => destruct Hi as (Ht & _ & He & Hok & Hu & ->) end.
  simpl in Ht, He, Hu. subst t. split; [done|].
  set (s1 := tick (drop_id s)) in *.
  assert (Ho : order_ok s1) by (unfold s1; apply order_ok_tick, order_ok_drop_id, Hk).
  assert (Hnew : forall n, ids s 0%nat < ids s (S n)) by (intros n; apply (oo_ids s (lk_order s Hk)); lia).
  assert (Hfresh : forall x, In x (credit_lots s) -> l_id x < ids s 0%nat)
    by (intros x Hx; by apply (oo_lot_ids s (lk_order s Hk))).
  assert (Hwf : lot_wf l).
  { constructor; try done. pose proof Hok as Ho'. apply lot_ok_spec in Ho' as [Hp _]. simpl in Hp |- *.
    split; [done|]. intros Hz. lra. }
  split; [|split; [done|]].
  - constructor; [|done| | |].
    + constructor.
      * destruct Hk. constructor; try done. destruct Ho as [O1 O2 O3 O4 O5].
        constructor; try done. simpl. intros x n Hx. apply in_app_or in Hx as [Hx|[<-|[]]]; [by apply O5|apply Hnew].
      * split; [|apply Forall_app_2; [done|by apply Forall_singleton]].
        apply insert_pk_ok; [|done]. intros Hin. apply in_map_iff in Hin as (x & E & Hx).
        specialize (Hfresh x Hx). simpl in E. lia.
      * constructor; simpl.
        -- intros x Hx. apply in_app_or in Hx as [Hx|[<-|[]]]; [auto|done].
        -- intros e j n. apply L2.
        -- intros x e j Hx Hin Hid Hmk. apply in_app_or in Hx as [Hx|[<-|[]]]; [by apply (L3 x e j)|].
           simpl. by apply (L2 e).
    + unfold lots_held, lots_sum. simpl. rewrite sum_over_app. unfold sum_over at 2. simpl.
      rewrite Z.eqb_refl. lra.
    + simpl. unfold balance_held. simpl. ring.
    + intros t Ht. simpl. split; [|done]. unfold lots_sum. rewrite sum_over_app. unfold sum_over at 2. simpl.
      replace (rls s =? t) with false by lia. ring.
  - exists l. split_and!; try done.
Qed.

(** ** Closing and restating a lot *)

Lemma close_lot_moved s i seen b s' :
  tables_ok s -> close_lot i seen s = Ok (b, s') ->
  still s s'
  /\ if b : bool then
       exists l, In l (credit_lots s) /\ l_id l = i /\ l_tenant l = rls s /\ is_open l = true
         /\ (credits_remaining l == money seen)%Q /\ moved (- credits_remaining l) 0 s s'
         /\ exists r, In r (credit_lots s') /\ terms_of r = terms_of l
              /\ (credits_remaining r == 0)%Q /\ closed_at r <> None
     else moved 0 0 s s'.
Proof.
  intros Ht H. pose proof (tb_lots s Ht) as [Hpk Hf]. unfold close_lot, clock_timestamp in H. tx_inv.
  set (now := ticks s 0%nat) in *.
  match goal with Hu : update_lots _ _ _ = Ok _ |- _ =>
    apply (update_lots_by_id _ _ i) in Hu; [destruct Hu as [[-> ->]|(-> & l & Hl & Hten & Hp & Hok & _ & ->)]|done|] end.
  - split; [apply still_tick|]. simpl. apply still_moved; [done|apply still_tick|by split|]. unfold lots_held. simpl. ring.
  - cbn [tick rls credit_lots] in Hl, Hten. apply andb_prop in Hp as [Hp Hopen]. apply andb_prop in Hp as [Hi Hd]. dcase.
    assert (Hst : still s (with_lots (update (fun r => (l_tenant r =? rls (tick s)) &&
       ((l_id r =? i) && deq (credits_remaining r) (money seen) && is_open r))
       (fun l => set_position (credits_total l) 0 (Some now) l) (credit_lots (tick s))) (tick s))).
    { eapply still_trans; [apply still_tick|]. by apply (still_update _ _ (tick s)). }
    assert (Hlw : lot_wf l) by (rewrite List.Forall_forall in Hf; auto).
    assert (Hsel : forall r, (l_tenant r =? rls (tick s)) &&
       ((l_id r =? i) && deq (credits_remaining r) (money seen) && is_open r) = true -> l_id r = l_id l).
    { intros r Hr. apply andb_prop in Hr as [_ Hr]. apply andb_prop in Hr as [Hr _].
      apply andb_prop in Hr as [Hr _]. lia. }
    assert (Hlsel : (l_tenant l =? rls (tick s)) &&
       ((l_id l =? i) && deq (credits_remaining l) (money seen) && is_open l) = true).
    { rewrite Hopen, Hi. simpl. destruct (deq_spec (credits_remaining l) (money seen)); [lia|contradiction]. }
    split; [exact Hst|]. simpl. exists l. split_and!; try done; [lia| |].
    + apply still_moved; [done|exact Hst| |].
      * apply update_lots_wf; [by split|done|]. intros r Hr Hpr Hrw.
        assert (r = l) as -> by (apply (pk_unique l_id (credit_lots s)); auto).
        pose proof (proj1 (lot_ok_spec l) (lw_ok l Hlw)). destruct Hlw. constructor; try done;
          first [apply lot_ok_spec; simpl; lra|simpl; auto with money].
      * unfold lots_held. simpl. rewrite (lots_sum_update (rls s) _ _ _ l); try done. simpl. ring.
    + exists (set_position (credits_total l) 0 (Some now) l). split_and!; try done.
      apply update_In. exists l. split; [done|]. cbn [tick rls] in Hlsel. by rewrite Hlsel.
  - intros r Hr. apply andb_prop in Hr as [Hr _]. apply andb_prop in Hr as [Hr _]. lia.
Qed.

Lemma adjust_still s i delta rs s' :
  lots_wf (credit_lots s) -> adjust_lot_for_restatement i delta s = Ok (rs, s') -> still s s'.
Proof.
  intros [Hpk _] H. unfold adjust_lot_for_restatement, clock_timestamp in H.
  destruct (deq delta 0); [by tx_inv|]. tx_step.
  match goal with Hr : read_lot _ _ = Ok (?o, _) |- _ =>
    apply read_lot_spec in Hr as [-> Hr]; destruct o as [l|] end; [|by tx_inv].
  destruct (dle _ 0); [by tx_inv|]. tx_inv.
  match goal with Hu : update_lots _ _ _ = Ok (?n, _) |- _ =>
    destruct (negb (Nat.eqb n 1)); [by tx_inv|];
    apply (update_lots_by_id _ _ i) in Hu; [|done|] end; tx_inv.
  2:{ intros r Hr. repeat (apply andb_prop in Hr as [Hr ?]). lia. }
  match goal with Hu : _ \/ _ |- _ =>
    destruct Hu as [[-> ->]|(-> & l' & _ & _ & _ & _ & _ & ->)]; [apply still_tick|] end.
  eapply still_trans; [apply still_tick|]. by apply (still_update _ _ (tick s)).
Qed.

Lemma adjust_moved s i delta rs s' :
  tables_ok s -> is_money delta -> adjust_lot_for_restatement i delta s = Ok (rs, s') ->
  still s s' /\ moved (delta + rs_shortfall rs) 0 s s' /\ (0 <= rs_shortfall rs)%Q
  /\ is_money (rs_shortfall rs) /\ (rs_shortfall rs <= pos (- delta))%Q.
Proof.
  intros Ht Hm H. pose proof (adjust_still s i delta rs s' (tb_lots s Ht) H) as Hst.
  destruct (restate_spec s i delta rs s' (tb_lots s Ht) Hm H)
    as (l & r & Hl & _ & _ & Hr & _ & _ & _ & Hrem & Hval & H0 & Hz & _ & Hw & Hsum).
  pose proof (tb_lots s Ht) as [_ Hf]. rewrite List.Forall_forall in Hf.
  split; [done|]. split; [|split; [done|split]].
  - apply still_moved; [done|done|done|]. unfold lots_held. rewrite (st_rls _ _ Hst), Hsum. ring.
  - assert (E : (rs_shortfall rs == credits_remaining r - credits_remaining l - delta)%Q)
      by (rewrite Hrem, Hval; ring).
    destruct Hw as [_ Hw]. rewrite List.Forall_forall in Hw.
    pose proof (lw_remaining r (Hw r Hr)). pose proof (lw_remaining l (Hf l Hl)). rewrite E. auto with money.
  - pose proof (proj1 (lot_ok_spec l) (lw_ok l (Hf l Hl))) as (_ & Hl0 & _).
    destruct (Qlt_le_dec 0 (rs_shortfall rs)) as [Hs|Hs]; [specialize (Hz Hs)|]; pos_case; lra.
Qed.

(** ** Spending *)

Lemma draws_owing owed c s s' :
  owing owed s -> (exists dl, moved dl 0 s s' /\ (lots_held s + dl == pos (lots_held s - c))%Q) ->
  (0 <= c)%Q -> owing (owed + c) s'.
Proof.
  intros Hw (dl & Hm & Hd) Hc. apply (moved_owing owed _ dl 0 s); [done|done|].
  destruct Hw as [_ Hs _]. rewrite Hd, Hs. pos_case; lra.
Qed.

Lemma consume_owing owed s demand ss s' :
  owing owed s -> demand_ok demand -> consume (rls s) demand s = Ok (ss, s') ->
  owing (owed + (drawn ss + overdraft ss)) s' /\ still s s' /\ Forall split_sound ss
  /\ match demand with DemandAi q => (drawn ss + overdraft ss == money q)%Q | DemandCall _ => True end.
Proof.
  intros Hw Hd H. destruct (consume_moved s demand ss s' (ow_tables _ _ Hw) Hd H) as (Hm & Hst & Hc & Hs & _ & Ha).
  split; [by eapply draws_owing|]. done.
Qed.

Lemma owing_eq a b s : (a == b)%Q -> owing a s -> owing b s.
Proof. intros E [? H ?]. constructor; [done|by rewrite H, E|done]. Qed.

(** A movement of the ledger settles as much of what is owed. *)
Lemma record_owing owed s delta reason ref_ meta an az b s' :
  owing owed s -> is_money delta -> marks_old s reason meta ->
  record_entry (rls s) delta reason ref_ meta an az s = Ok (b, s') ->
  deq delta 0 && negb az = false -> owing (owed + delta) s'.
Proof.
  intros Hw Hm Ho H Hz. destruct (record_entry_moved s delta reason ref_ meta an az b s' (ow_tables _ _ Hw) Hm Ho H Hz)
    as (Hmv & _). eapply moved_owing; [exact Hw|exact Hmv|]. destruct Hw as [_ Hs _]. rewrite Hs. pos_case; lra.
Qed.

(** Whether a usage debit of [ref_] is on the tenant's ledger. *)
Definition usage_recorded (tenant : uuid) (ref_ : ref) (s : db) : bool :=
  existsb (fun e => own (rls s) tenant e && bool_decide (e_ref e = Some ref_)
                    && bool_decide (e_reason e = "usage")) (credit_ledger s).

Lemma usage_replay s ref_ demand extra meta an :
  usage_recorded (rls s) ref_ s = true ->
  record_usage_from_lots (rls s) ref_ demand extra meta an s = Ok (MkDebit false 0 [], s).
Proof. intros H. unfold record_usage_from_lots, bind, gets. fold (usage_recorded (rls s) ref_ s). by rewrite H. Qed.

Lemma drawn_app a b : (drawn (a ++ b) == drawn a + drawn b)%Q.
Proof. unfold drawn. by rewrite map_app, qsum_app. Qed.
Lemma overdraft_app a b : (overdraft (a ++ b) == overdraft a + overdraft b)%Q.
Proof. unfold overdraft. by rewrite map_app, qsum_app. Qed.

(** The draws of a usage debit, before it is recorded. *)
Lemma usage_draws s demand extra first more s1 s2 :
  wallet_ok s -> demand_ok demand -> (money extra < exact_bound)%Q ->
  consume (rls s) demand s = Ok (first, s1) ->
  (if dlt 0 extra then consume (rls s) (DemandAi extra) else ret []) s1 = Ok (more, s2) ->
  owing (drawn (first ++ more) + overdraft (first ++ more)) s2 /\ still s s2
  /\ Forall split_sound (first ++ more).
Proof.
  intros Hw Hd He H1 H2. apply owing_0 in Hw.
  destruct (consume_owing 0 s demand first s1 Hw Hd H1) as (Hw1 & Hst1 & Hs1 & _).
  destruct (dlt_spec 0 extra) as [Hp|Hp].
  - rewrite <- (st_rls _ _ Hst1) in H2.
    destruct (consume_owing _ s1 (DemandAi extra) more s2 Hw1) as (Hw2 & Hst2 & Hs2 & _); [by split; [lra|]|done|].
    split; [|split; [by eapply still_trans|by apply Forall_app_2]].
    eapply owing_eq; [|exact Hw2]. rewrite drawn_app, overdraft_app. ring.
  - apply ret_ok in H2 as [-> ->]. rewrite app_nil_r. split; [|done]. eapply owing_eq; [|exact Hw1]. ring.
Qed.

Lemma marks_old_reason s reason meta : reason <> "adjustment" -> marks_old s reason meta.
Proof. intros H H'. contradiction. Qed.

(** A usage debit: the wallet stays in balance, the ledger falls by exactly what the
    splits hold, and the debit is on the ledger when it was charged. *)
Lemma usage_spec s ref_ demand extra meta an d s' :
  wallet_ok s -> demand_ok demand -> (money extra < exact_bound)%Q ->
  record_usage_from_lots (rls s) ref_ demand extra meta an s = Ok (d, s') ->
  wallet_ok s' /\ rls s' = rls s
  /\ (credits_inr d == drawn (splits d) + overdraft (splits d))%Q
  /\ (balance_held s' == balance_held s - credits_inr d)%Q
  /\ (charged d = true -> usage_recorded (rls s) ref_ s' = true /\ (0 < credits_inr d)%Q)
  /\ (charged d = false -> (credits_inr d == 0)%Q)
  /\ (an = false -> (0 <= balance_held s)%Q -> (0 <= balance_held s')%Q).
Proof.
  intros Hw Hd He H. unfold record_usage_from_lots in H. tx_step.
  match goal with Hg : gets _ _ = Ok _ |- _ => apply gets_ok in Hg as [-> ->] end.
  fold (usage_recorded (rls s) ref_ s) in H0. destruct (usage_recorded (rls s) ref_ s) eqn:Eu.
  { tx_inv. split_and!; try done. unfold Qminus. simpl. ring. }
  tx_step. tx_step. rename x into first, x1 into more, x0 into s1, x2 into s2.
  match goal with Hf : consume _ demand _ = Ok _, Hm : (if dlt 0 extra then _ else _) _ = Ok _ |- _ =>
    destruct (usage_draws s demand extra first more s1 s2 Hw Hd He Hf Hm) as (Ho & Hst & Hs) end.
  set (ss := first ++ more) in *. set (c := (drawn ss + overdraft ss)%Q) in *.
  destruct (drawn_sound ss Hs) as [Hd0 Ho0]. assert (Hmc : is_money (credits_of ss)) by apply is_money_money.
  assert (Hbs : balance_held s2 = balance_held s) by (unfold balance_held; by rewrite (st_rls _ _ Hst), (st_ledger _ _ Hst)).
  destruct (dle_spec (credits_of ss) 0) as [Hz|Hz].
  - assert (Hc : (credits_of ss == c)%Q)
      by (apply credits_of_exact; [done|assert (0 < numeric_limit)%Q by reflexivity; lra]).
    assert (Hc0 : (c == 0)%Q) by (unfold c in *; lra). tx_inv. simpl.
    split; [apply owing_0; by eapply owing_eq; [exact Hc0|]|]. rewrite Hbs.
    split; [by apply st_rls|]. unfold drawn, overdraft. simpl. split_and!; try done; ring.
  - apply bind_ok in H1 as (bal & s3 & Hr & Hret). apply ret_ok in Hret as [-> <-]. simpl.
    assert (Hex : (credits_of ss == c)%Q /\ (dneg (credits_of ss) == - credits_of ss)%Q).
    { destruct (deq_spec (dneg (credits_of ss)) 0) as [E|E].
      - exfalso. unfold dneg in E. rewrite round28_opp in E. pose proof (round28_pos (credits_of ss)). lra.
      - destruct (record_entry_ok _ _ _ _ _ _ _ _ _ _ Hr) as [Hrec _].
        { destruct (deq_spec (dneg (credits_of ss)) 0); [contradiction|done]. }
        destruct (rc_row _ _ _ _ _ _ _ _ Hrec) as (d0 & bal0 & Ed & _). by apply (credits_of_stored ss d0). }
    destruct Hex as [Hc Hn].
    assert (Hnz : deq (dneg (credits_of ss)) 0 && negb false = false).
    { destruct (deq_spec (dneg (credits_of ss)) 0); [lra|done]. }
    assert (Hnm : is_money (dneg (credits_of ss))) by (rewrite Hn; auto with money).
    rewrite <- (st_rls _ _ Hst) in Hr.
    assert (Hold : forall m, marks_old s2 "usage" m) by (intros m; by apply marks_old_reason).
    destruct (record_entry_moved s2 _ _ _ _ _ _ bal s' (ow_tables _ _ Ho) Hnm (Hold _) Hr Hnz)
      as (Hmv & Ha & _ & (e & El & _ & Et & _ & Er & Ef & _) & Hneg).
    pose proof (record_owing _ s2 _ _ _ _ _ _ bal s' Ho Hnm (Hold _) Hr Hnz) as Ho'.
    assert (Hrls : rls s' = rls s) by (rewrite (mv_rls _ _ _ _ Hmv); by apply st_rls).
    split; [apply owing_0; eapply owing_eq; [|exact Ho']; rewrite Hn, Hc; ring|].
    split; [done|]. split; [done|].
    split; [rewrite (mv_ledger _ _ _ _ Hmv), Hbs, Hn; ring|].
    split.
    { intros _. split; [|lra]. unfold usage_recorded. rewrite El, Hrls. apply existsb_exists. exists e.
      split; [apply in_or_app; right; by left|]. rewrite Er, Ef. unfold own. rewrite Et, (st_rls _ _ Hst), Z.eqb_refl.
      rewrite !bool_decide_true by done. done. }
    split; [done|]. intros -> _. rewrite <- Ha. apply Hneg; [done|]. rewrite Hn. lra.
Qed.

(** C5. A usage debit keeps every wallet in balance: the ledger falls by exactly the
    credits its splits took from the lots and overdrew, the debit is on the ledger
    when and only when it charged, a caller that forbids an overdraft never leaves
    one, and charging the same reference again changes nothing. *)
Theorem usage_correct s ref_ demand extra meta an d s' :
  wallet_ok s -> demand_ok demand -> (money extra < exact_bound)%Q ->
  record_usage_from_lots (rls s) ref_ demand extra meta an s = Ok (d, s') ->
  wallet_ok s' /\ rls s' = rls s
  /\ (credits_inr d == drawn (splits d) + overdraft (splits d))%Q
  /\ (balance_held s' == balance_held s - credits_inr d)%Q
  /\ (an = false -> (0 <= balance_held s)%Q -> (0 <= balance_held s')%Q)
  /\ (charged d = false -> (credits_inr d == 0)%Q)
  /\ (charged d = true -> forall demand' extra' meta' an',
        record_usage_from_lots (rls s') ref_ demand' extra' meta' an' s' = Ok (MkDebit false 0 [], s')).
Proof.
  intros Hw Hd He H. destruct (usage_spec s ref_ demand extra meta an d s' Hw Hd He H)
    as (H1 & H2 & H3 & H4 & H5 & H6 & H7).
  split_and!; try done. intros Hc demand' extra' meta' an'. apply usage_replay. rewrite H2. by apply H5.
Qed.

(** ** Adding credit *)

(** Only the clock moved. *)
Definition calm (s s' : db) : Prop := still s s' /\ credit_lots s' = credit_lots s.

Lemma calm_refl s : calm s s.
Proof. split; [apply still_refl|done]. Qed.

Lemma calm_tick s : calm s (tick s).
Proof. split; [apply still_tick|done]. Qed.

Lemma calm_trans s1 s2 s3 : calm s1 s2 -> calm s2 s3 -> calm s1 s3.
Proof. intros [H1 E1] [H2 E2]. split; [by eapply still_trans|congruence]. Qed.

Lemma calm_moved s s' : tables_ok s -> calm s s' -> moved 0 0 s s'.
Proof.
  intros Ht [Hst E]. apply still_moved; [done|done|rewrite E; apply Ht|].
  unfold lots_held. rewrite (st_rls _ _ Hst), E. ring.
Qed.

Lemma clock_calm s t s' : clock_timestamp s = Ok (t, s') -> calm s s'.
Proof. intros H. unfold clock_timestamp in H. tx_inv. apply calm_tick. Qed.

Lemma read_entry_calm s t r f o s' : read_entry_by_ref t r f s = Ok (o, s') -> s' = s.
Proof. intros H. unfold read_entry_by_ref in H. tx_inv. done. Qed.

Lemma expiry_for_calm terms t src s o s' : expiry_for terms t src s = Ok (o, s') -> calm s s'.
Proof.
  intros H. unfold expiry_for in H. destruct (if String.eqb src "topup" then _ else _); tx_inv; [|apply calm_refl].
  by eapply clock_calm.
Qed.

Lemma has_lapsed_calm t i o s b s' : has_lapsed t i o s = Ok (b, s') -> calm s s'.
Proof.
  intros H. unfold has_lapsed in H. destruct o as [l|]; [|tx_inv; apply calm_refl].
  destruct (expires_at l) as [e|]; [|tx_inv; apply calm_refl]. tx_step.
  match goal with Hc : clock_timestamp _ = Ok _ |- _ => apply clock_calm in Hc end.
  destruct (e <=? _); [by tx_inv|]. tx_step.
  match goal with Hr : read_entry_by_ref _ _ _ _ = Ok _ |- _ => apply read_entry_calm in Hr as -> end. by tx_inv.
Qed.

(** A restatement upwards adds all of it. *)
Lemma adjust_credit s i delta rs s' :
  tables_ok s -> is_money delta -> (0 < delta)%Q -> adjust_lot_for_restatement i delta s = Ok (rs, s') ->
  moved delta 0 s s' /\ still s s' /\ (exists r, In r (credit_lots s') /\ l_id r = i).
Proof.
  intros Ht Hm Hp H. destruct (adjust_moved s i delta rs s' Ht Hm H) as (Hst & Hmv & H0 & _).
  destruct (restate_spec s i delta rs s' (tb_lots s Ht) Hm H)
    as (l & r & Hl & _ & _ & Hr & Hid & _ & _ & _ & Hval & _ & Hz & _).
  split; [|split; [done|by exists r]]. eapply moved_eq; [| |exact Hmv]; [|done].
  destruct (Qlt_le_dec 0 (rs_shortfall rs)) as [Hs|Hs]; [|lra]. specialize (Hz Hs).
  pose proof (tb_lots s Ht) as [_ Hf]. rewrite List.Forall_forall in Hf.
  pose proof (proj1 (lot_ok_spec l) (lw_ok l (Hf l Hl))). lra.
Qed.

Lemma calm_held s s' : calm s s' -> lots_held s' = lots_held s /\ balance_held s' = balance_held s.
Proof.
  intros [Hst E]. unfold lots_held, balance_held. by rewrite (st_rls _ _ Hst), E, (st_ledger _ _ Hst).
Qed.

(** The arithmetic of a credit of [c] that brings the balance to [bal]. *)
Lemma credit_split c bal :
  is_money c -> is_money bal -> (0 < c < numeric_limit)%Q -> (- numeric_limit < bal < numeric_limit)%Q ->
  let overdraft := dmax (dneg (dsub bal c)) 0 in
  let repaid := dmin c overdraft in
  let remainder := quantize MONEY_SCALE ROUND_HALF_UP (dsub c repaid) in
  (remainder + repaid == c)%Q /\ (0 <= repaid)%Q /\ (0 <= remainder)%Q
  /\ (repaid == if dlt c (pos (c - bal)) then c else pos (c - bal))%Q
  /\ (pos (bal - c) + remainder == pos bal)%Q.
Proof.
  intros Hc Hb [Hc0 Hc1] [Hb0 Hb1] od repaid remainder.
  pose proof numeric_limit_bound as Hl.
  assert (E1 : (dsub bal c == bal - c)%Q) by (apply dsub_money; auto; lra).
  assert (E2 : (dneg (dsub bal c) == c - bal)%Q).
  { unfold dneg. rewrite round28_opp, round28_money; [rewrite E1; ring|rewrite E1; auto with money|].
    rewrite E1. qabs. }
  assert (Eo : (od == pos (c - bal))%Q).
  { unfold od. destruct (dmax_spec (dneg (dsub bal c)) 0) as [[? ->]|[? ->]]; rewrite E2 in *; pos_case; lra. }
  assert (Hod : is_money od) by (unfold od; apply is_money_max; [rewrite E2; auto with money|auto with money]).
  assert (Hrm : is_money repaid) by (by apply is_money_min).
  assert (Hod0 : (0 <= od)%Q) by (rewrite Eo; pos_case; lra).
  assert (Er : (repaid == if dlt c (pos (c - bal)) then c else pos (c - bal))%Q).
  { unfold repaid. destruct (dmin_spec c od) as [[? ->]|[? ->]], (dlt_spec c (pos (c - bal))); lra. }
  assert (Hr0 : (0 <= repaid <= c)%Q) by (unfold repaid; destruct (dmin_spec c od) as [[? ->]|[? ->]]; lra).
  assert (Em : (remainder == c - repaid)%Q).
  { unfold remainder. assert (dsub c repaid == c - repaid)%Q as E by (apply dsub_money; auto; lra).
    rewrite quantize_money by (rewrite E; auto with money). done. }
  split; [rewrite Em; ring|]. split; [lra|]. split; [lra|]. split; [done|].
  rewrite Em, Er. destruct (dlt_spec c (pos (c - bal))); pos_case; lra.
Qed.

(** A credit of [rm] that went to a lot. *)
Definition lot_added (rm repaid : Q) (s s' : db) (cl : CreditedLot) : Prop :=
  moved rm 0 s s' /\ credit_ledger s' = credit_ledger s
  /\ exists i l, cl = Credited (Some i) rm repaid /\ In l (credit_lots s') /\ l_id l = i.

Lemma moved_calm_l dl dg s0 s s' : tables_ok s0 -> calm s0 s -> moved dl dg s s' -> moved dl dg s0 s'.
Proof.
  intros Ht Hc H. eapply moved_eq; [| |eapply moved_trans; [by apply calm_moved|exact H]]; ring.
Qed.

Lemma open_adds terms s0 s tenant src rm cl_ st_ src' pack eid ovr repaid cl s' :
  tables_ok s0 -> calm s0 s -> (money rm == rm)%Q ->
  bind (expiry_for terms tenant src) (fun expires =>
    bind (open_lot tenant rm cl_ st_ src' pack eid ovr None expires)
      (fun lot_id => ret (Credited (Some lot_id) rm repaid))) s = Ok (cl, s') ->
  lot_added rm repaid s0 s' cl.
Proof.
  intros Ht Hc Hm H. apply bind_ok in H as (ex & s1 & He & H). apply bind_ok in H as (i & s2 & Ho & H).
  apply ret_ok in H as [-> ->]. pose proof (calm_trans _ _ _ Hc (expiry_for_calm _ _ _ _ _ _ He)) as Hc1.
  destruct (open_lot_moved s1 _ _ _ _ _ _ _ _ _ _ i s2 (mv_tables _ _ _ _ (calm_moved _ _ Ht Hc1)) Ho)
    as (_ & Hmv & Hld & l & El & Ei & _).
  split; [|split].
  - eapply moved_eq; [exact Hm|reflexivity|]. by eapply moved_calm_l.
  - rewrite Hld. apply (st_ledger _ _ (proj1 Hc1)).
  - exists i, l. split; [done|]. split; [rewrite El; apply in_or_app; right; by left|done].
Qed.

Lemma adjust_adds s0 s lid rm repaid cl s' :
  tables_ok s0 -> calm s0 s -> is_money rm -> (0 < rm)%Q ->
  bind (adjust_lot_for_restatement lid rm) (fun _ => ret (Credited (Some lid) rm repaid)) s = Ok (cl, s') ->
  lot_added rm repaid s0 s' cl.
Proof.
  intros Ht Hc Hm Hp H. apply bind_ok in H as (r & s1 & Ha & H). apply ret_ok in H as [-> ->].
  destruct (adjust_credit s lid rm r s1 (mv_tables _ _ _ _ (calm_moved _ _ Ht Hc)) Hm Hp Ha) as (Hmv & Hst & l & Hl).
  split; [by eapply moved_calm_l|]. split; [|by exists lid, l].
  rewrite (st_ledger _ _ Hst). apply (st_ledger _ _ (proj1 Hc)).
Qed.

(** Which lot takes what the overdraft leaves of a credit. *)
Lemma apply_credit_adds terms s c bal rates src pack eid restate ovr cl s' :
  tables_ok s -> 
  apply_credit_to_lots terms (rls s) c bal rates src pack eid restate ovr s = Ok (cl, s') ->
  let repaid := dmin c (dmax (dneg (dsub bal c)) 0) in
  let rm := quantize MONEY_SCALE ROUND_HALF_UP (dsub c repaid) in
  ((rm <= 0)%Q /\ cl = Credited None 0 repaid /\ s' = s) \/ ((0 < rm)%Q /\ lot_added rm repaid s s' cl).
Proof.
  intros Ht H repaid rm. unfold apply_credit_to_lots in H. cbv zeta in H. fold repaid in H. fold rm in H.
  destruct (dle_spec rm 0) as [Hz|Hz]; [left; tx_inv; done|]. right. assert (Hp : (0 < rm)%Q) by lra.
  assert (Hm : is_money rm) by apply is_money_quantize.
  assert (Hmm : (money rm == rm)%Q) by by apply quantize_money.
  split; [done|]. destruct restate as [lid|]; [|by eapply open_adds; [exact Ht|apply calm_refl|exact Hmm|exact H]].
  apply bind_ok in H as (target & s1 & Hr & H). apply read_lot_spec in Hr as [-> _].
  apply bind_ok in H as (lapsed & s1 & Hl & H). apply has_lapsed_calm in Hl.
  destruct target as [l|]; [destruct lapsed|].
  - by eapply open_adds; [exact Ht|exact Hl|exact Hmm|exact H].
  - by eapply adjust_adds; [exact Ht|exact Hl|exact Hm|exact Hp|exact H].
  - by eapply adjust_adds; [exact Ht|exact Hl|exact Hm|exact Hp|exact H].
Qed.

(** The credited wallet: its lots hold the new balance, and the credit went to a lot
    or to the overdraft. *)
Lemma apply_credit_spec terms s c bal rates src pack eid restate ovr cl s' :
  owing c s -> is_money c -> (0 < c < numeric_limit)%Q -> (bal == balance_held s)%Q ->
  apply_credit_to_lots terms (rls s) c bal rates src pack eid restate ovr s = Ok (cl, s') ->
  wallet_ok s' /\ rls s' = rls s /\ credit_ledger s' = credit_ledger s
  /\ (cl_credits cl + cl_repaid cl == c)%Q
  /\ (cl_repaid cl == if dlt c (pos (c - bal)) then c else pos (c - bal))%Q
  /\ (lots_held s' == lots_held s + cl_credits cl)%Q
  /\ match cl_lot cl with
     | Some i => exists l, In l (credit_lots s') /\ l_id l = i
     | None => (cl_credits cl == 0)%Q
     end.
Proof.
  intros Hw Hm Hc Hb H. pose proof (ow_tables _ _ Hw) as Ht.
  destruct (balance_of_bounds s (rls s) (tb_ledger _ Ht)) as [Hbm Hbb].
  assert (Hbe : (balance_of (rls s) (credit_ledger s) == bal)%Q) by (rewrite Hb; apply (lk_balance s (tb_ledger _ Ht))).
  rewrite Hbe in Hbm, Hbb. destruct (credit_split c bal Hm Hbm Hc Hbb) as (Hsum & Hr0 & Hrm0 & Hrep & Hpos).
  apply apply_credit_adds in H; [|done]. cbv zeta in H.
  set (repaid := dmin c _) in *. set (rm := quantize MONEY_SCALE ROUND_HALF_UP (dsub c repaid)) in *.
  assert (Hfin : forall sf, moved rm 0 s sf -> wallet_ok sf).
  { intros sf Hmv. apply owing_0. eapply moved_owing; [exact Hw|exact Hmv|]. destruct Hw as [_ Hs _].
    rewrite Hs, <- Hb, Hpos. apply pos_proper. ring. }
  destruct H as [(Hz & -> & ->)|(Hp & Hmv & Hld & i & l & -> & Hl)]; simpl.
  - assert (E0 : (0 == rm)%Q) by lra.
    split; [apply Hfin; eapply moved_eq; [exact E0|reflexivity|by apply moved_refl]|]. split_and!; try done; lra.
  - split; [by apply Hfin|]. split; [by apply (mv_rls _ _ _ _ Hmv)|]. split_and!; try done;
      [apply (mv_lots _ _ _ _ Hmv)|by exists l].
Qed.

(** C29. Adding a credit that the ledger has just recorded brings the wallet back into
    balance: an overdraft is repaid first, by the credit or by all of it; the rest goes
    to one lot (the purchase's own, a restated one, or a new one on the terms of a
    lapsed one); and nothing of the credit is lost or made up. *)
Theorem apply_credit_correct terms s c bal rates src pack eid restate ovr cl s' :
  owing c s -> is_money c -> (0 < c < numeric_limit)%Q -> (bal == balance_held s)%Q ->
  apply_credit_to_lots terms (rls s) c bal rates src pack eid restate ovr s = Ok (cl, s') ->
  wallet_ok s' /\ rls s' = rls s /\ credit_ledger s' = credit_ledger s
  /\ (cl_credits cl + cl_repaid cl == c)%Q
  /\ (cl_repaid cl == if dlt c (pos (c - bal)) then c else pos (c - bal))%Q
  /\ (lots_held s' == lots_held s + cl_credits cl)%Q
  /\ match cl_lot cl with
     | Some i => exists l, In l (credit_lots s') /\ l_id l = i
     | None => (cl_credits cl == 0)%Q
     end.
Proof. apply apply_credit_spec. Qed.

(** ** The lot of a purchase *)

Lemma lot_of_entry_ok e s o s' :
  lot_of_entry e s = Ok (o, s') ->
  s' = s /\ forall x, o = Some x -> exists l, In l (credit_lots s) /\ l_id l = el_lot x
                        /\ l_tenant l = rls s /\ el_total x = credits_total l.
Proof.
  intros H. unfold lot_of_entry in H. tx_inv. split; [done|]. intros x Hx.
  destruct (one_row _) as [l|] eqn:E; [|done]. injection Hx as <-. apply one_row_In, select_In in E as [? Hp].
  exists l. split_and!; try done. lia.
Qed.

Lemma reprice_successor_ok t i s o s' :
  tables_ok s -> reprice_successor t i s = Ok (o, s') ->
  s' = s /\ forall x, o = Some x -> exists l, In l (credit_lots s) /\ l_id l = el_lot x
                        /\ l_tenant l = rls s /\ el_total x = credits_total l /\ i < l_id l.
Proof.
  intros [_ _ [_ _ L3]] H. unfold reprice_successor in H. tx_inv. split; [done|]. intros x Hx.
  destruct (one_row _) as [l|] eqn:E; [|done]. injection Hx as <-. apply one_row_In, in_flat_map in E as (e & He & Hl).
  apply select_In in He as [He Hr]. apply select_In in Hl as [Hl Hp]. apply andb_prop in Hp as [Hp Hp2].
  unfold reprices in Hr. apply andb_prop in Hr as [Hr H3]. apply andb_prop in Hr as [Hr H2].
  apply andb_prop in Hr as [_ H1]. apply bool_decide_eq_true in H1.
  exists l. split_and!; try done; [lia|]. apply (L3 l e i); [done|done|lia|done].
Qed.

(** How many lots are newer than the one at hand. *)
Definition newer (i : uuid) (t : list lot) : nat := length (select (fun l => i <? l_id l) t).

Lemma newer_lt t i l : In l t -> i < l_id l -> (newer (l_id l) t < newer i t)%nat.
Proof.
  unfold newer, select. intros Hin Hlt. induction t as [|x t IH]; [destruct Hin|]. simpl.
  assert (Hle : forall t' : list lot, (length (List.filter (fun r => (l_id l <? l_id r)%Z) t')
            <= length (List.filter (fun r => (i <? l_id r)%Z) t'))%nat).
  { induction t' as [|y t' IH']; simpl; [lia|].
    destruct (l_id l <? l_id y) eqn:E1, (i <? l_id y) eqn:E2; simpl; lia. }
  destruct Hin as [->|Hin].
  - rewrite (proj2 (Z.ltb_ge (l_id l) (l_id l))) by lia. rewrite (proj2 (Z.ltb_lt _ _) Hlt). simpl.
    specialize (Hle t). lia.
  - specialize (IH Hin). destruct (l_id l <? l_id x) eqn:E1, (i <? l_id x) eqn:E2; simpl; lia.
Qed.

Lemma last_reprice_returns s t fuel x :
  tables_ok s -> (newer (el_lot x) (credit_lots s) < fuel)%nat ->
  (exists l, In l (credit_lots s) /\ l_id l = el_lot x /\ l_tenant l = rls s /\ el_total x = credits_total l) ->
  exists y, last_reprice fuel t x s = Ok (y, s)
    /\ (exists l, In l (credit_lots s) /\ l_id l = el_lot y /\ l_tenant l = rls s /\ el_total y = credits_total l)
    /\ reprice_successor t (el_lot y) s = Ok (None, s).
Proof.
  intros Ht. revert x. induction fuel as [|fuel IH]; intros x Hf Hx; [lia|]. simpl. unfold bind at 1.
  destruct (reprice_successor t (el_lot x) s) as [[o s1]|er] eqn:E; [|discriminate E].
  destruct (reprice_successor_ok t _ s o s1 Ht E) as [-> Hs]. destruct o as [y|].
  - destruct (Hs y eq_refl) as (l & Hl & Hid & Hten & Htot & Hlt). apply IH; [|by exists l].
    pose proof (newer_lt (credit_lots s) (el_lot x) l Hl Hlt). rewrite <- Hid. lia.
  - exists x. split; [done|]. split; [done|]. done.
Qed.

Lemma purchase_lot_returns s t e :
  tables_ok s -> exists o, purchase_lot_of_entry t e s = Ok (o, s)
    /\ forall x, o = Some x ->
        (exists l, In l (credit_lots s) /\ l_id l = el_lot x /\ l_tenant l = rls s /\ el_total x = credits_total l)
        /\ reprice_successor t (el_lot x) s = Ok (None, s).
Proof.
  intros Ht. unfold purchase_lot_of_entry, bind at 1.
  destruct (lot_of_entry e s) as [[o s1]|er] eqn:E; [|discriminate E].
  destruct (lot_of_entry_ok _ _ _ _ E) as [-> Ho]. destruct o as [x|]; [|by exists None].
  specialize (Ho x eq_refl). unfold bind at 1, gets. unfold bind.
  destruct (last_reprice_returns s t (S (length (credit_lots s))) x Ht) as (y & -> & Hy); [|done|].
  { apply Nat.lt_succ_r. unfold newer, select. apply filter_length_le. }
  exists (Some y). split; [done|]. intros z [= <-]. done.
Qed.

(** Walking from a purchase to the lot that holds its credit ends: every re-price
    opens a newer lot, so the loop finds the last one, a lot of the tenant that no
    re-price has replaced, and changes nothing. *)
Theorem purchase_lot_terminates s t e :
  wallet_ok s -> exists o, purchase_lot_of_entry t e s = Ok (o, s)
    /\ forall x, o = Some x ->
        (exists l, In l (credit_lots s) /\ l_id l = el_lot x /\ l_tenant l = rls s /\ el_total x = credits_total l)
        /\ reprice_successor t (el_lot x) s = Ok (None, s).
Proof. intros [Ht _]. by apply purchase_lot_returns. Qed.

(** ** Taking credit back *)

Lemma drop_id_moved s : tables_ok s -> moved 0 0 s (drop_id s).
Proof.
  intros [Hk Hw [L1 L2 L3]]. constructor; try done; [|unfold lots_held; simpl; ring|unfold balance_held; simpl; ring].
  constructor; [|done|constructor; try done; intros e i n; apply L2].
  destruct Hk. constructor; try done. by apply order_ok_drop_id.
Qed.

Lemma marks_old_kind s reason k rest :
  k <> LOT_REPRICE_META_KIND -> marks_old s reason (("kind", JText k) :: rest).
Proof.
  intros Hk _ H. exfalso. apply Hk. cbv [json_text_is json_get] in H.
  destruct (bool_decide ("kind" = "kind")) eqn:E; [|by rewrite bool_decide_eq_false in E].
  apply bool_decide_eq_true in H. congruence.
Qed.

Lemma is_money_sum_over {R} (v : R -> Q) t : (forall r, In r t -> is_money (v r)) -> is_money (sum_over v t).
Proof.
  intros H. unfold sum_over. apply is_money_qsum, List.Forall_forall. intros q Hq.
  apply in_map_iff in Hq as (r & <- & Hr). auto.
Qed.

Lemma lapsed_money s t i : ledger_ok s -> is_money (lapsed_unrestated (rls s) t i (credit_ledger s)).
Proof.
  intros [_ Hr _ _ _]. rewrite List.Forall_forall in Hr. unfold lapsed_unrestated. cbv zeta. rewrite Qred_correct.
  apply is_money_sub; apply is_money_sum_over; intros e He; apply select_In in He as [He _];
    apply select_In in He as [He _]; destruct (Hr e He) as [Hm _]; auto with money.
Qed.

(** An entry that puts lapsed credit back, and a ledger that grew by such entries only. *)
Definition restating (e : entry) : Prop :=
  e_reason e = "adjustment" /\ exists i u, e_ref e = Some [PWord CREDIT_EXPIRY_RESTATED_META_KIND; PId i; PId u].
Definition adjustments_added (s s' : db) : Prop :=
  exists es, credit_ledger s' = credit_ledger s ++ es /\ Forall restating es.

Lemma adjustments_none s s' : credit_ledger s' = credit_ledger s -> adjustments_added s s'.
Proof. intros E. exists []. by rewrite app_nil_r. Qed.

Lemma restate_lapsed_spec s i amount q s' :
  tables_ok s -> is_money amount -> (0 <= amount)%Q ->
  restate_lapsed_credit (rls s) i amount s = Ok (q, s') ->
  moved 0 q s s' /\ credit_lots s' = credit_lots s /\ (0 <= q <= amount)%Q /\ is_money q
  /\ adjustments_added s s'.
Proof.
  intros Ht Hm H0 H. unfold restate_lapsed_credit in H. apply bind_ok in H as (la & s0 & Hg & H).
  apply gets_ok in Hg as [Ela ->]. pose proof (lapsed_money s (rls s) i (tb_ledger s Ht)) as Hla. rewrite <- Ela in Hla.
  set (x := dmin amount la) in *. assert (Hx : is_money x) by by apply is_money_min.
  assert (Hxa : (x <= amount)%Q) by (unfold x; destruct (dmin_spec amount la) as [[? ->]|[? ->]]; lra).
  destruct (dle_spec x 0) as [Hz|Hz].
  - apply ret_ok in H as [-> ->]. split; [by apply moved_refl|]. split; [done|]. split; [lra|].
    split; [auto with money|by apply adjustments_none].
  - apply bind_ok in H as (u & s1 & Hu & H). unfold uuid7 in Hu. apply bind_ok in Hu as (u' & s2 & Hg & Hu).
    apply gets_ok in Hg as [-> ->]. apply bind_ok in Hu as (tt' & s3 & Hd & Hu). apply modify_ok in Hd as ->.
    apply ret_ok in Hu as [-> ->]. apply bind_ok in H as (b & s4 & Hr & H). apply ret_ok in H as [-> ->].
    assert (Hk : CREDIT_EXPIRY_RESTATED_META_KIND <> LOT_REPRICE_META_KIND) by done.
    pose proof (drop_id_moved s Ht) as Hmv. change (rls s) with (rls (drop_id s)) in Hr.
    destruct (record_entry_moved (drop_id s) x _ _ _ _ _ b s4 (mv_tables _ _ _ _ Hmv) Hx
                (marks_old_kind _ _ _ _ Hk) Hr) as (Hmv2 & _ & Hl & (e & He & _ & _ & _ & Her & Hef & _) & _).
    { destruct (deq_spec x 0); [lra|done]. }
    split; [|split; [done|split; [lra|split; [done|exists [e]; split; [done|constructor; [split; [done|by eexists _, _]|constructor]]]]]].
    eapply moved_eq; [| |exact (moved_trans _ _ _ _ _ _ _ Hmv Hmv2)]; ring.
Qed.

(** A purchase's lot restated down by [a], and the shortfall drawn from the others. *)
Lemma take_back_restated s i a rs s1 ss s2 :
  wallet_ok s -> is_money a -> (0 < a < numeric_limit)%Q ->
  adjust_lot_for_restatement i (dneg a) s = Ok (rs, s1) ->
  (if dle (rs_shortfall rs) 0 then ret [] else consume (rls s) (DemandAi (rs_shortfall rs))) s1 = Ok (ss, s2) ->
  owing a s2 /\ rls s2 = rls s /\ credit_ledger s2 = credit_ledger s.
Proof.
  intros Hw Hm [Ha0 Ha1] Ha Hc. apply owing_0 in Hw. pose proof (ow_tables _ _ Hw) as Ht.
  pose proof numeric_limit_bound as Hlb. assert (Hlp : (0 < numeric_limit)%Q) by reflexivity.
  assert (Hn : (dneg a == - a)%Q) by (apply round28_money; auto with money; qabs).
  destruct (adjust_moved s i (dneg a) rs s1 Ht ltac:(rewrite Hn; auto with money) Ha) as (Hst & Hmv & H0 & Hsm & Hb).
  rewrite Hn in Hb. assert (Hb' : (rs_shortfall rs <= a)%Q) by (pos_case; lra).
  destruct Hw as [_ Hs Ho]. pose proof (lots_held_nonneg s1 (mv_tables _ _ _ _ Hmv)) as Hnn.
  pose proof (mv_lots _ _ _ _ Hmv) as Hl1.
  destruct (dle_spec (rs_shortfall rs) 0) as [Hz|Hz].
  - apply ret_ok in Hc as [-> ->]. split; [|split; [by apply st_rls|by apply st_ledger]].
    eapply moved_owing; [by constructor|exact Hmv|]. rewrite Hl1, Hn in Hnn. rewrite Hn. pos_case; lra.
  - rewrite <- (st_rls _ _ Hst) in Hc.
    assert (Hms : (money (rs_shortfall rs) == rs_shortfall rs)%Q) by by apply quantize_money.
    destruct (consume_moved s1 (DemandAi (rs_shortfall rs)) ss s2 (mv_tables _ _ _ _ Hmv)) as ((dl & Hm2 & Hd) & Hst2 & _ & _ & _ & Hc2);
      [split; [lra|rewrite Hms; lra]|done|]. rewrite Hms in Hc2.
    split; [|split; [rewrite (st_rls _ _ Hst2); by apply st_rls|rewrite (st_ledger _ _ Hst2); by apply st_ledger]].
    eapply moved_owing; [by constructor|exact (moved_trans _ _ _ _ _ _ _ Hmv Hm2)|].
    rewrite Hc2, Hl1, Hn in Hd. rewrite Hn. pos_case; lra.
Qed.

Lemma remove_credit_spec s ce a rm s' :
  wallet_ok s -> is_money a -> (0 < a < numeric_limit)%Q ->
  remove_credit_from_lots (rls s) ce a s = Ok (rm, s') ->
  owing a s' /\ rls s' = rls s
  /\ (balance_held s' == balance_held s + expiry_restated_inr rm)%Q
  /\ (0 <= expiry_restated_inr rm <= a)%Q
  /\ adjustments_added s s'.
Proof.
  intros Hw Hm [Ha0 Ha1] H. pose proof Hw as Ho. apply owing_0 in Ho. pose proof (ow_tables _ _ Ho) as Ht.
  pose proof numeric_limit_bound as Hlb. assert (Hlp : (0 < numeric_limit)%Q) by reflexivity.
  assert (Hma : (money a == a)%Q) by by apply quantize_money.
  assert (Hfull : forall ss s1, consume (rls s) (DemandAi a) s = Ok (ss, s1) ->
            owing a s1 /\ rls s1 = rls s /\ balance_held s1 = balance_held s /\ credit_ledger s1 = credit_ledger s).
  { intros ss s1 Hc. destruct (consume_owing 0 s (DemandAi a) ss s1 Ho) as (Ho1 & Hst & _ & Hd); [split; [lra|rewrite Hma; lra]|done|].
    split; [eapply owing_eq; [|exact Ho1]; rewrite Hd, Hma; ring|]. split; [by apply st_rls|].
    split; [|by apply st_ledger]. unfold balance_held. by rewrite (st_rls _ _ Hst), (st_ledger _ _ Hst). }
  unfold remove_credit_from_lots in H. apply bind_ok in H as (found & s0 & Hf & H).
  assert (s0 = s) as ->.
  { destruct ce as [e|]; [|by apply ret_ok in Hf as [_ ->]].
    destruct (purchase_lot_returns s (rls s) e Ht) as (o & Hp & _). rewrite Hp in Hf. by injection Hf. }
  apply bind_ok in H as (q & s1 & Hq & H).
  assert (Hmv : moved 0 q s s1 /\ (0 <= q <= a)%Q /\ is_money q /\ adjustments_added s s1 /\ (~ (0 < q)%Q -> s1 = s)).
  { destruct found as [l|].
    - destruct (restate_lapsed_spec s (el_lot l) a q s1 Ht Hm ltac:(lra) Hq) as (? & _ & ? & ? & ?).
      split; [done|split; [done|split; [done|split; [done|]]]]. intros Hn. unfold restate_lapsed_credit in Hq. apply bind_ok in Hq as (la & s2 & Hg & Hq). apply gets_ok in Hg as [_ ->]. cbv beta zeta in Hq.
      destruct (dle_spec (dmin a la) 0) as [|Hz]; [by apply ret_ok in Hq as [_ ->]|].
      exfalso. apply bind_ok in Hq as (? & ? & _ & Hq). apply bind_ok in Hq as (? & ? & _ & Hq). apply ret_ok in Hq as [-> _]. lra.
    - apply ret_ok in Hq as [-> ->]. split_and!; [by apply moved_refl|lra|lra|auto with money|by apply adjustments_none|done]. }
  destruct Hmv as (Hmv & [Hq0 Hqa] & Hqm & (es & Hes & Hadj) & Hq1).
  destruct (dlt_spec 0 q) as [Hp|Hp].
  - assert (Hoq : owing q s1).
    { eapply moved_owing; [exact Ho|exact Hmv|]. destruct Ho as [_ Hs _]. rewrite Hs. pos_case; lra. }
    assert (Hr : (dsub a q == a - q)%Q) by (apply dsub_money; auto; lra).
    assert (Hmr : (money (dsub a q) == a - q)%Q) by (unfold money; rewrite quantize_money; rewrite Hr; auto with money; done).
    apply bind_ok in H as (ss & s2 & Hc & H). apply ret_ok in H as [-> ->]. cbn [expiry_restated_inr].
    pose proof (mv_rls _ _ _ _ Hmv) as Hr1.
    destruct (dle_spec (dsub a q) 0) as [Hz|Hz].
    + apply ret_ok in Hc as [-> ->]. split; [eapply owing_eq; [|exact Hoq]; lra|]. split; [done|].
      split; [apply (mv_ledger _ _ _ _ Hmv)|]. split; [done|by exists es].
    + rewrite <- Hr1 in Hc. assert (Hdm : demand_ok (DemandAi (dsub a q))) by (split; [lra|rewrite Hmr; lra]).
      destruct (consume_owing q s1 _ ss s2 Hoq Hdm Hc) as (Ho2 & Hst & _ & Hd).
      split; [eapply owing_eq; [|exact Ho2]; rewrite Hd, Hmr; ring|]. split; [by rewrite (st_rls _ _ Hst)|].
      split; [|split; [done|exists es; by rewrite (st_ledger _ _ Hst)]].
      rewrite <- (mv_ledger _ _ _ _ Hmv). unfold balance_held. by rewrite (st_rls _ _ Hst), (st_ledger _ _ Hst).
  - specialize (Hq1 Hp). subst s1.
    assert (Hfin : owing a s' /\ rls s' = rls s /\ balance_held s' = balance_held s
              /\ expiry_restated_inr rm = 0%Q /\ credit_ledger s' = credit_ledger s).
    { destruct found as [l|].
      2:{ apply bind_ok in H as (ss & s2 & Hc & H). apply ret_ok in H as [-> ->].
          destruct (Hfull ss s2 Hc) as (? & ? & ? & ?). done. }
      destruct (dlt a (el_total l)).
      2:{ apply bind_ok in H as (ss & s2 & Hc & H). apply ret_ok in H as [-> ->].
          destruct (Hfull ss s2 Hc) as (? & ? & ? & ?). done. }
      apply bind_ok in H as (rs & s1 & Had & H).
      assert (exists ss, (if dle (rs_shortfall rs) 0 then ret [] else consume (rls s) (DemandAi (rs_shortfall rs))) s1 = Ok (ss, s')
                /\ expiry_restated_inr rm = 0%Q) as (ss & Hc & Hx).
      { destruct (dle (rs_shortfall rs) 0); [apply ret_ok in H as [-> ->]; by exists []|].
        apply bind_ok in H as (ss & s2 & Hc & H). apply ret_ok in H as [-> ->]. by exists ss. }
      destruct (take_back_restated s (el_lot l) a rs s1 ss s' Hw Hm ltac:(done) Had Hc) as (H1 & H2 & H3).
      split_and!; try done. unfold balance_held. by rewrite H2, H3. }
    destruct Hfin as (H1 & H2 & H3 & -> & H4). rewrite H3. split; [done|]. split; [done|]. split; [ring|].
    split; [lra|by apply adjustments_none].
Qed.

(** The reference of a removal.  The lot the corrected entry stands for now: *)
Definition corrected_lot (s : db) (ce : option uuid) : option EntryLot :=
  match ce with
  | None => None
  | Some e => match purchase_lot_of_entry (rls s) e s with Ok (o, _) => o | Err _ => None end
  end.

(** what of that lot's lapse the removal puts back, *)
Definition lapse_due (s : db) (ce : option uuid) (a : Q) : Q :=
  match corrected_lot s ce with
  | None => 0
  | Some l =>
      let lapsed := dmin a (lapsed_unrestated (rls s) (rls s) (el_lot l) (credit_ledger s)) in
      if dlt 0 lapsed then lapsed else 0
  end.

(** the entry that puts it back, *)
Definition lapse_entry (s : db) (i : uuid) (q : Q) (e : entry) : Prop :=
  e_tenant e = rls s /\ restating e /\ (e_delta e == q)%Q
  /\ json_text_is "kind" CREDIT_EXPIRY_RESTATED_META_KIND (e_meta e) = true
  /\ json_id_is "lot_id" i (e_meta e) = true.

(** a draw on all of the open lots, in opening order, *)
Definition drawn_in_order (q : Q) (s : db) (ss : list LotSplit) (s' : db) : Prop :=
  exists lots, read_open_lots (rls s) s = Ok (lots, s) /\ ss = spend lots (DemandAi q)
    /\ fifo lots ss s' /\ forall r, In r (credit_lots s) -> ~ In (l_id r) (map l_id lots) -> In r (credit_lots s').

(** and what a removal of [a] for the entry [ce] did. *)
Definition taken_off (s : db) (ce : option uuid) (a : Q) (rm : CreditRemoval) (s' : db) : Prop :=
  expiry_restated_inr rm = lapse_due s ce a
  /\ overdraft_inr rm = overdraft_of (rm_splits rm)
  /\ if dlt 0 (lapse_due s ce a) then
       (exists l e, corrected_lot s ce = Some l /\ credit_ledger s' = credit_ledger s ++ [e]
          /\ lapse_entry s (el_lot l) (lapse_due s ce a) e)
       /\ if dle (dsub a (lapse_due s ce a)) 0 then rm_splits rm = [] /\ credit_lots s' = credit_lots s
          else drawn_in_order (dsub a (lapse_due s ce a)) s (rm_splits rm) s'
     else
       credit_ledger s' = credit_ledger s
       /\ match corrected_lot s ce with
          | None => drawn_in_order a s (rm_splits rm) s'
          | Some l =>
              if dlt a (el_total l) then
                exists x y, In x (credit_lots s) /\ l_id x = el_lot l /\ l_tenant x = rls s
                  /\ In y (credit_lots s') /\ l_id y = el_lot l
                  /\ (credits_total y == credits_total x - a)%Q
                  /\ (credits_remaining y == pos (credits_remaining x - a))%Q
                  /\ (drawn (rm_splits rm) + overdraft (rm_splits rm) == pos (a - credits_remaining x))%Q
              else drawn_in_order a s (rm_splits rm) s'
          end.

Lemma lapse_due_none s ce a : ~ (0 < lapse_due s ce a)%Q -> lapse_due s ce a = 0%Q.
Proof.
  unfold lapse_due. destruct (corrected_lot s ce); [|done]. cbv zeta.
  match goal with |- context [dlt 0 ?x] => destruct (dlt_spec 0 x); [done|done] end.
Qed.

Lemma consume_in_order s q ss s' :
  tables_ok s -> demand_ok (DemandAi q) -> consume (rls s) (DemandAi q) s = Ok (ss, s') ->
  drawn_in_order q s ss s' /\ credit_ledger s' = credit_ledger s.
Proof.
  intros Ht Hd H.
  destruct (consume_uncontended s (rls s) (DemandAi q) (tb_lots s Ht) Hd I)
    as (lots & s2 & Hr & Hc & Hf & (_ & Hl & Hfr) & _).
  rewrite H in Hc. injection Hc as -> ->. split; [|done]. by exists lots.
Qed.

Lemma lapse_restated s i a q s1 :
  tables_ok s -> is_money a -> (0 < a)%Q -> restate_lapsed_credit (rls s) i a s = Ok (q, s1) ->
  q = (let lapsed := dmin a (lapsed_unrestated (rls s) (rls s) i (credit_ledger s)) in if dlt 0 lapsed then lapsed else 0%Q)
  /\ credit_lots s1 = credit_lots s /\ rls s1 = rls s
  /\ if dlt 0 q then exists e, credit_ledger s1 = credit_ledger s ++ [e] /\ lapse_entry s i q e else s1 = s.
Proof.
  intros Ht Hm H0 H. pose proof (lapsed_money s (rls s) i (tb_ledger s Ht)) as Hla.
  unfold restate_lapsed_credit in H. apply bind_ok in H as (la & s0 & Hg & H).
  apply gets_ok in Hg as [-> ->]. set (x := dmin a _) in *.
  assert (Hx : is_money x) by by apply is_money_min.
  destruct (dle_spec x 0) as [Hz|Hz].
  - apply ret_ok in H as [-> ->]. cbv zeta. destruct (dlt_spec 0 x); [lra|done].
  - apply bind_ok in H as (u & s2 & Hu & H). unfold uuid7 in Hu. apply bind_ok in Hu as (u' & s3 & Hg & Hu).
    apply gets_ok in Hg as [-> ->]. apply bind_ok in Hu as (tt' & s4 & Hd & Hu). apply modify_ok in Hd as ->.
    apply ret_ok in Hu as [-> ->]. apply bind_ok in H as (b & s5 & Hr & H). apply ret_ok in H as [-> ->].
    assert (Hk : CREDIT_EXPIRY_RESTATED_META_KIND <> LOT_REPRICE_META_KIND) by done.
    pose proof (drop_id_moved s Ht) as Hmv. change (rls s) with (rls (drop_id s)) in Hr.
    destruct (record_entry_moved (drop_id s) x _ _ _ _ _ b s5 (mv_tables _ _ _ _ Hmv) Hx
                (marks_old_kind _ _ _ _ Hk) Hr) as (Hmv2 & _ & Hl & (e & He & _ & Het & Hed & Her & Hef & Hem) & _).
    { destruct (deq_spec x 0); [lra|done]. }
    split; [cbv zeta; destruct (dlt_spec 0 x); [done|lra]|].
    split; [done|]. split; [apply (mv_rls _ _ _ _ Hmv2)|].
    destruct (dlt_spec 0 x); [|lra]. exists e. split; [done|]. split; [done|]. split; [split; [done|by eexists _, _]|].
    split; [done|]. rewrite Hem. split; cbv [json_text_is json_id_is json_get]; rewrite ?bool_decide_true by done; [done|].
    rewrite (bool_decide_false ("lot_id" = "kind")) by done. apply Z.eqb_refl.
Qed.

(** The lot shrinks by [a]; what it could not give is drawn from the others. *)
Lemma restated_rows s i a rs s1 ss s' :
  tables_ok s -> is_money a -> (0 < a < numeric_limit)%Q ->
  adjust_lot_for_restatement i (dneg a) s = Ok (rs, s1) ->
  (if dle (rs_shortfall rs) 0 then ret [] else consume (rls s) (DemandAi (rs_shortfall rs))) s1 = Ok (ss, s') ->
  exists x y, In x (credit_lots s) /\ l_id x = i /\ l_tenant x = rls s
    /\ In y (credit_lots s') /\ l_id y = i
    /\ (credits_total y == credits_total x - a)%Q
    /\ (credits_remaining y == pos (credits_remaining x - a))%Q
    /\ (drawn ss + overdraft ss == pos (a - credits_remaining x))%Q.
Proof.
  intros Ht Hm [Ha0 Ha1] Ha Hc.
  pose proof numeric_limit_bound as Hlb. assert (Hlp : (0 < numeric_limit)%Q) by reflexivity.
  assert (Hn : (dneg a == - a)%Q) by (apply round28_money; auto with money; qabs).
  assert (Hnm : is_money (dneg a)) by (rewrite Hn; auto with money).
  destruct (adjust_moved s i (dneg a) rs s1 Ht Hnm Ha) as (Hst & Hmv & _ & Hsm & Hb). rewrite Hn in Hb.
  destruct (restate_spec s i (dneg a) rs s1 (tb_lots s Ht) Hnm Ha)
    as (x & y & Hx & Hxi & Hxt & Hy & Hyi & Htot & _ & Hrem & Hval & H0 & Hz & Hcl & Hw & _).
  rewrite Hn in Htot, Hval. pose proof (tb_lots s Ht) as [_ Hf]. rewrite List.Forall_forall in Hf.
  pose proof Hw as [_ Hf']. rewrite List.Forall_forall in Hf'.
  pose proof (proj1 (lot_ok_spec x) (lw_ok x (Hf x Hx))) as (_ & Hx0 & _).
  pose proof (proj1 (lot_ok_spec y) (lw_ok y (Hf' y Hy))) as (_ & Hy0 & _).
  assert (Hsh : (rs_shortfall rs == pos (a - credits_remaining x))%Q /\ (credits_remaining y == pos (credits_remaining x - a))%Q).
  { destruct (Qlt_le_dec 0 (rs_shortfall rs)) as [Hp|Hp]; [specialize (Hz Hp)|]; split; pos_case; lra. }
  destruct Hsh as [Hsh Hyr]. exists x, y. split; [done|]. split; [done|]. split; [done|].
  destruct (dle_spec (rs_shortfall rs) 0) as [Hle|Hgt].
  - apply ret_ok in Hc as [-> ->]. do 2 (split; [done|]). split; [rewrite Htot; ring|]. split; [done|].
    rewrite <- Hsh. unfold drawn, overdraft. cbn. lra.
  - rewrite <- (st_rls _ _ Hst) in Hc.
    assert (Hms : (money (rs_shortfall rs) == rs_shortfall rs)%Q) by by apply quantize_money.
    assert (Hb' : (rs_shortfall rs <= a)%Q) by (pos_case; lra).
    assert (Hd : demand_ok (DemandAi (rs_shortfall rs))) by (split; [lra|rewrite Hms; lra]).
    destruct (consume_moved s1 _ ss s' (mv_tables _ _ _ _ Hmv) Hd Hc) as (_ & _ & _ & _ & _ & Hq). rewrite Hms in Hq.
    destruct (consume_in_order s1 _ ss s' (mv_tables _ _ _ _ Hmv) Hd Hc) as [(lots & Hr & _ & _ & Hfr) _].
    split; [|split; [done|split; [rewrite Htot; ring|split; [done|by rewrite Hq]]]].
    apply Hfr; [done|]. intros Hin. apply in_map_iff in Hin as (z & Hzi & Hzin).
    destruct (read_open_lots_current _ _ _ _ Hw Hr) as (_ & _ & _ & Hopen). apply Hopen in Hzin as (Hz1 & _ & _ & Hz2).
    assert (z = y) as ->.
    { apply (pk_unique l_id (credit_lots s1)); [apply Hw|exact Hz1|exact Hy|by rewrite Hzi, Hyi]. }
    unfold is_open in Hz2. pose proof (lw_closed y (Hf' y Hy)) as Hcy.
    destruct (closed_at y) eqn:Ec; [done|]. exfalso. apply Hcy; [rewrite Hrem, Hz; lra|done].
Qed.

Lemma remove_credit_taken s ce a rm s' :
  wallet_ok s -> is_money a -> (0 < a < numeric_limit)%Q ->
  remove_credit_from_lots (rls s) ce a s = Ok (rm, s') -> taken_off s ce a rm s'.
Proof.
  intros Hw Hm [Ha0 Ha1] H. pose proof Hw as Ho. apply owing_0 in Ho. pose proof (ow_tables _ _ Ho) as Ht.
  pose proof numeric_limit_bound as Hlb. assert (Hlp : (0 < numeric_limit)%Q) by reflexivity.
  assert (Hma : (money a == a)%Q) by by apply quantize_money.
  assert (Hda : demand_ok (DemandAi a)) by (split; [lra|rewrite Hma; lra]).
  unfold remove_credit_from_lots in H. apply bind_ok in H as (found & s0 & Hf & H).
  assert (s0 = s /\ found = corrected_lot s ce) as [-> Efd].
  { unfold corrected_lot. destruct ce as [e|]; [|apply ret_ok in Hf as [-> ->]; split; reflexivity].
    destruct (purchase_lot_returns s (rls s) e Ht) as (o & Hp & _). rewrite Hp in Hf |- *. injection Hf as -> ->. split; reflexivity. }
  apply bind_ok in H as (q & s1 & Hq & H).
  assert (Hlap : q = lapse_due s ce a /\ credit_lots s1 = credit_lots s /\ rls s1 = rls s /\ tables_ok s1
    /\ (q <= a)%Q /\ is_money q
    /\ if dlt 0 q then exists l e, found = Some l /\ credit_ledger s1 = credit_ledger s ++ [e] /\ lapse_entry s (el_lot l) q e
       else s1 = s).
  { unfold lapse_due. rewrite <- Efd. destruct found as [l|]; [|apply ret_ok in Hq as [-> ->]; do 4 (split; [done|]); split; [lra|split; [auto with money|done]]].
    destruct (lapse_restated s (el_lot l) a q s1 Ht Hm Ha0 Hq) as (E & El & Er & Hx).
    destruct (restate_lapsed_spec s (el_lot l) a q s1 Ht Hm ltac:(lra) Hq) as (Hmv & _ & [_ Hqa] & Hqm & _).
    do 3 (split; [assumption|]). split; [apply (mv_tables _ _ _ _ Hmv)|]. do 2 (split; [assumption|]).
    destruct (dlt 0 q); [|exact Hx]. destruct Hx as (e & Hx1 & Hx2). exists l, e. split; [reflexivity|]. by split. }
  destruct Hlap as (Eq & El1 & Er1 & Ht1 & Hqa & Hqm & Hx).
  unfold taken_off. rewrite <- Eq. destruct (dlt_spec 0 q) as [Hp|Hp].
  - destruct Hx as (l & e & Efl & Hle & Hent). apply bind_ok in H as (ss & s2 & Hc & H). apply ret_ok in H as [-> ->].
    split; [reflexivity|]. split; [reflexivity|]. cbn [rm_splits].
    destruct (dle_spec (dsub a q) 0) as [Hz|Hz].
    + apply ret_ok in Hc as [-> ->]. split; [|split; [reflexivity|exact El1]]. exists l, e. rewrite <- Efd. split; [exact Efl|by split].
    + assert (Hr : (dsub a q == a - q)%Q) by (apply dsub_money; auto; lra).
      assert (Hmr : (money (dsub a q) == a - q)%Q) by (unfold money; rewrite quantize_money; rewrite Hr; auto with money; done).
      rewrite <- Er1 in Hc.
      destruct (consume_in_order s1 (dsub a q) ss s2 Ht1 ltac:(split; [lra|rewrite Hmr; lra]) Hc) as [(lots & Hro & Hsp & Hfi & Hfr) Hl2].
      split; [exists l, e; rewrite <- Efd, Hl2; split; [exact Efl|by split]|]. exists lots.
      split; [|split; [exact Hsp|split; [exact Hfi|rewrite <- El1; exact Hfr]]].
      unfold read_open_lots, gets in Hro |- *. rewrite El1, Er1 in Hro. injection Hro as ->. reflexivity.
  - subst s1. rewrite <- Efd. assert (E0 : q = 0%Q).
    { rewrite Eq in Hp |- *. exact (lapse_due_none _ _ _ Hp). }
    assert (Hall : forall ss, consume (rls s) (DemandAi a) s = Ok (ss, s') -> rm = MkRemoval ss (overdraft_of ss) 0 ->
        expiry_restated_inr rm = q /\ overdraft_inr rm = overdraft_of (rm_splits rm)
        /\ credit_ledger s' = credit_ledger s /\ drawn_in_order a s (rm_splits rm) s').
    { intros ss Hc ->. destruct (consume_in_order s a ss s' Ht Hda Hc) as [Hd Hl].
      split; [symmetry; exact E0|]. split; [reflexivity|]. split; [exact Hl|exact Hd]. }
    clear Efd. destruct found as [l|].
    2:{ apply bind_ok in H as (ss & s2 & Hc & H). apply ret_ok in H as [-> ->]. exact (Hall ss Hc eq_refl). }
    destruct (dlt a (el_total l)).
    2:{ apply bind_ok in H as (ss & s2 & Hc & H). apply ret_ok in H as [-> ->]. exact (Hall ss Hc eq_refl). }
    apply bind_ok in H as (rs & s1 & Had & H). clear Hall.
    assert (exists ss, (if dle (rs_shortfall rs) 0 then ret [] else consume (rls s) (DemandAi (rs_shortfall rs))) s1 = Ok (ss, s')
              /\ rm = MkRemoval ss (overdraft_of ss) 0) as (ss & Hc & ->).
    { destruct (dle (rs_shortfall rs) 0); [apply ret_ok in H as [-> ->]; exists []; split; reflexivity|].
      apply bind_ok in H as (ss & s2 & Hc & H). apply ret_ok in H as [-> ->]. exists ss. split; [exact Hc|reflexivity]. }
    destruct (take_back_restated s (el_lot l) a rs s1 ss s' Hw Hm (conj Ha0 Ha1) Had Hc) as (_ & _ & H3).
    split; [symmetry; exact E0|]. split; [reflexivity|]. split; [exact H3|].
    exact (restated_rows s (el_lot l) a rs s1 ss s' Ht Hm (conj Ha0 Ha1) Had Hc).
Qed.


(** ** Re-pricing a lot *)

Lemma reprice_marks s l rest i :
  tables_ok s -> In l (credit_lots s) -> l_id l = i ->
  marks_old s "adjustment" (("kind", JText LOT_REPRICE_META_KIND) :: ("lot_id", JId i) :: rest).
Proof.
  intros Ht Hl Hi _ _ j n Hj. cbv [json_id_is json_get] in Hj.
  destruct (bool_decide ("lot_id" = "kind")) eqn:E1; [done|].
  destruct (bool_decide ("lot_id" = "lot_id")) eqn:E2; [|by rewrite bool_decide_eq_false in E2].
  assert (j = i) as -> by lia. rewrite <- Hi. by apply (oo_lot_ids s (lk_order s (tb_ledger s Ht))).
Qed.

Lemma owing_moved_0 owed s s' : owing owed s -> moved 0 0 s s' -> owing owed s'.
Proof. intros H Hm. eapply moved_owing; [exact H|exact Hm|]. destruct H as [_ Hs _]. rewrite Hs. pos_case; lra. Qed.

Lemma money_zero_add a : is_money a -> (- a + money a == 0)%Q.
Proof. intros H. unfold money. rewrite quantize_money by done. ring. Qed.

(** The rows of a re-price: marker, closed lot, replacement. *)
Lemma reprice_spec s i pack rates reason op rp s' :
  wallet_ok s -> reprice_lot (rls s) i pack rates reason op s = Ok (rp, s') ->
  match rp with
  | None => s' = s
  | Some r =>
      wallet_ok s' /\ rls s' = rls s /\ (lots_held s' == lots_held s)%Q /\ (balance_held s' == balance_held s)%Q
      /\ exists l new, In l (credit_lots s) /\ l_id l = i /\ is_open l = true
        /\ In new (credit_lots s') /\ l_id new = replacement_lot_id r /\ ledger_entry_id new = rp_entry r
        /\ (credits_total new == credits_remaining l)%Q /\ (credits_remaining new == credits_remaining l)%Q
        /\ (r_clear rates <= clear_inr_per_min l)%Q /\ (r_studio rates <= studio_inr_per_min l)%Q
        /\ (clear_inr_per_min new == money (r_clear rates))%Q
        /\ (studio_inr_per_min new == money (r_studio rates))%Q
        /\ expires_at new = expires_at l /\ i < l_id new
  end.
Proof.
  intros Hw H. pose proof Hw as Ho. apply owing_0 in Ho. pose proof (ow_tables _ _ Ho) as Ht.
  unfold reprice_lot, find_entry_by_ref in H. apply bind_ok in H as (dn & s0 & Hd & H). apply read_entry_calm in Hd as ->.
  destruct dn as [|]; [by apply ret_ok in H as [-> ->]|].
  apply bind_ok in H as (o & s0 & Hr & H). apply read_lot_spec in Hr as [-> Hr].
  destruct o as [l|]; [|by apply raise_ok in H]. destruct Hr as (Hl & Hten & Hid).
  destruct (closed_at l) eqn:Ecl; [by apply raise_ok in H|].
  destruct (_ && _); [by apply raise_ok in H|]. cbn [r_clear r_studio] in H.
  destruct (dlt_spec (clear_inr_per_min l) (r_clear rates)) as [|Hc]; [by apply raise_ok in H|].
  destruct (dlt_spec (studio_inr_per_min l) (r_studio rates)) as [|Hs]; [by apply raise_ok in H|]. cbn [orb] in H.
  apply bind_ok in H as (b & s1 & Hre & H). cbn [app] in Hre.
  destruct (record_entry_moved s 0 _ _ _ _ _ b s1 Ht is_money_0 (reprice_marks s l _ i Ht Hl Hid) Hre eq_refl)
    as (Hm1 & _ & El1 & _).
  apply bind_ok in H as (mk & s2 & Hf & H). apply read_entry_calm in Hf as ->.
  destruct mk as [m|]; [|by apply raise_ok in H].
  apply bind_ok in H as (cd & s2 & Hcl & H). destruct cd; cbn [negb] in H; [|by apply raise_ok in H].
  destruct (close_lot_moved s1 i _ true s2 (mv_tables _ _ _ _ Hm1) Hcl)
    as (Hst & l' & Hl' & Hid' & _ & _ & _ & Hm2 & _).
  apply bind_ok in H as (nid & s3 & Hop & H). apply ret_ok in H as [-> <-].
  destruct (open_lot_moved s2 _ _ _ _ _ _ _ _ _ _ nid s' (mv_tables _ _ _ _ Hm2) Hop)
    as (_ & Hm3 & _ & new & En & Ei & Ei0 & _ & _ & Et & Er & Ec & Es & _ & _ & _ & Ee & Ex).
  assert (l' = l) as ->.
  { rewrite El1 in Hl'. apply (pk_unique l_id (credit_lots s)); try done; [|congruence].
    by destruct (tb_lots s Ht). }
  assert (Hlm : is_money (credits_remaining l)).
  { destruct (tb_lots s Ht) as [_ Hf]. rewrite List.Forall_forall in Hf. apply (lw_remaining l), Hf, Hl. }
  pose proof (moved_trans _ _ _ _ _ _ _ (moved_trans _ _ _ _ _ _ _ Hm1 Hm2) Hm3) as Hm.
  apply (moved_eq _ _ 0 0) in Hm; [|pose proof (money_zero_add _ Hlm); lra|ring].
  assert (Hmm : (money (credits_remaining l) == credits_remaining l)%Q) by by apply quantize_money.
  split; [apply owing_0; by eapply owing_moved_0|]. split; [by apply (mv_rls _ _ _ _ Hm)|].
  split; [rewrite (mv_lots _ _ _ _ Hm); ring|]. split; [rewrite (mv_ledger _ _ _ _ Hm); ring|].
  exists l, new. cbn [replacement_lot_id rp_entry].
  split; [done|]. split; [done|]. split; [unfold is_open; by rewrite Ecl|].
  split; [rewrite En; apply in_or_app; right; by left|]. split; [done|]. split; [done|].
  split; [by rewrite Et|]. split; [by rewrite Er|]. split; [lra|]. split; [lra|]. split; [done|]. split; [done|].
  split; [done|]. rewrite Ei, Ei0, <- Hid', (st_ids _ _ Hst).
  by apply (oo_lot_ids s1 (lk_order s1 (tb_ledger _ (mv_tables _ _ _ _ Hm1)))).
Qed.

(** C31. Re-pricing a lot moves no money: the lot is closed and its whole remainder
    reopens at the new rates, neither dearer than the old, with the same expiry, under
    a newer id, on a marker entry of nothing; the wallet stays in balance. *)
Theorem reprice_conserves s i pack rates reason op rp s' :
  wallet_ok s -> reprice_lot (rls s) i pack rates reason op s = Ok (rp, s') ->
  match rp with
  | None => s' = s
  | Some r =>
      wallet_ok s' /\ rls s' = rls s /\ (lots_held s' == lots_held s)%Q /\ (balance_held s' == balance_held s)%Q
      /\ exists l new, In l (credit_lots s) /\ l_id l = i /\ is_open l = true
        /\ In new (credit_lots s') /\ l_id new = replacement_lot_id r /\ ledger_entry_id new = rp_entry r
        /\ (credits_total new == credits_remaining l)%Q /\ (credits_remaining new == credits_remaining l)%Q
        /\ (r_clear rates <= clear_inr_per_min l)%Q /\ (r_studio rates <= studio_inr_per_min l)%Q
        /\ (clear_inr_per_min new == money (r_clear rates))%Q
        /\ (studio_inr_per_min new == money (r_studio rates))%Q
        /\ expires_at new = expires_at l /\ i < l_id new
  end.
Proof. apply reprice_spec. Qed.

(** ** Expiry *)

Lemma enqueue_returns j p s : exists u s', enqueue j p s = Ok (u, s').
Proof. by eexists _, _. Qed.

(** The jobs of a movement never refuse. *)
Lemma jobs_return tenant cur new (s : db) :
  exists s', (bind (cutover_job tenant cur new) (fun _ =>
     bind (settle_job tenant cur new) (fun _ =>
     bind (low_balance_line tenant) (fun line =>
     bind (alert_job tenant cur new line) (fun _ =>
     ret (MkBalance new (dlt new line))))))) s = Ok (MkBalance new (dlt new (line_now tenant s)), s').
Proof.
  unfold bind at 1. assert (exists u s1, cutover_job tenant cur new s = Ok (u, s1)) as (u & s1 & E1)
    by (unfold cutover_job; destruct (crossed_zero _ _); [apply enqueue_returns|by eexists _, _]).
  rewrite E1. unfold bind at 1.
  assert (exists u s2, settle_job tenant cur new s1 = Ok (u, s2)) as (u2 & s2 & E2)
    by (unfold settle_job; destruct (_ && _); [apply enqueue_returns|by eexists _, _]).
  rewrite E2. unfold bind at 1. rewrite low_balance_line_eq. unfold bind.
  assert (exists u s3, alert_job tenant cur new (line_now tenant s2) s2 = Ok (u, s3)) as (u3 & s3 & E3)
    by (unfold alert_job; destruct (crossed_downwards _ _ _); [apply enqueue_returns|by eexists _, _]).
  rewrite E3. exists s3. apply cutover_ok in E1 as (_ & _ & _ & B1 & _). apply settle_ok in E2 as (_ & _ & _ & B2 & _).
  unfold line_now. by rewrite B2, B1.
Qed.

Lemma insert_entry_returns s e r :
  e_tenant e = rls s -> e_reason e ∈ CREDIT_REASONS -> e_ref e = Some r ->
  (forall x, In x (credit_ledger s) -> has_ref (rls s) (rls s) (e_reason e) r x = false) ->
  insert_entry e s = Ok (tt, with_ledger (credit_ledger s ++ [e]) s).
Proof.
  intros Ht Hr Hf Hfresh. unfold insert_entry, own_tenant, bind, gets. rewrite Ht, Z.eqb_refl. unfold ret.
  rewrite bool_decide_true by done. simpl.
  destruct (indexed e && existsb _ _) eqn:E; [|done]. exfalso. apply andb_prop in E as [_ E].
  apply existsb_exists in E as (x & Hx & E). apply andb_prop in E as [_ E]. specialize (Hfresh x Hx).
  unfold same_ledger_key in E. apply andb_prop in E as [E E3]. apply andb_prop in E as [E1 E2].
  apply bool_decide_eq_true in E2, E3. unfold has_ref, own in Hfresh.
  rewrite <- E2, <- E3, Hf, !bool_decide_true in Hfresh by done. lia.
Qed.

(** A movement that fits, is allowed and repeats no key is recorded. *)
Lemma record_entry_returns s delta reason ref_ meta an az :
  ledger_ok s -> is_money delta -> (- numeric_limit < delta < numeric_limit)%Q ->
  (- numeric_limit < balance_held s + delta < numeric_limit)%Q ->
  reason ∈ CREDIT_REASONS -> (an = true \/ 0 <= balance_held s + delta)%Q ->
  (forall e, In e (credit_ledger s) -> has_ref (rls s) (rls s) reason ref_ e = false) ->
  deq delta 0 && negb az = false ->
  exists b s', record_entry (rls s) delta reason (Some ref_) meta an az s = Ok (b, s').
Proof.
  intros Hk Hm [Hd1 Hd2] [Hb1 Hb2] Hre Hg Hfresh Hz.
  unfold record_entry. rewrite Hz. unfold newest_balance, bind at 1, gets. fold (balance_now (rls s) s).
  destruct (balance_of_bounds s (rls s) Hk) as [Hbm Hbb].
  pose proof (lk_balance s Hk (rls s)) as Hbal. fold (balance_held s) in Hbal. rewrite <- balance_now_eq in Hbal, Hbm, Hbb.
  pose proof numeric_limit_bound as Hl.
  assert (Hnew : (dadd (balance_now (rls s) s) delta == balance_held s + delta)%Q)
    by (rewrite <- Hbal; apply dadd_money; auto; lra).
  assert (Hgd : dlt delta 0 && dlt (dadd (balance_now (rls s) s) delta) 0 && negb an = false).
  { destruct Hg as [->|Hg]; [by rewrite andb_false_r|].
    destruct (dlt_spec (dadd (balance_now (rls s) s) delta) 0); [lra|by rewrite andb_false_r]. }
  rewrite Hgd.
  destruct (numeric_12_4_money delta Hm Hd1 Hd2) as (d & Ed & _).
  destruct (numeric_12_4_money (dadd (balance_now (rls s) s) delta)) as (nb & En & _);
    [rewrite Hnew; apply is_money_add; [rewrite <- Hbal; done|done]|rewrite Hnew; done|rewrite Hnew; done|].
  rewrite (bind_run uuid7 _ s (ids s 0%nat) (drop_id s)) by done.
  rewrite (bind_run clock_timestamp _ _ (ticks s 0%nat) (tick (drop_id s))) by done.
  rewrite (bind_run _ _ _ d (tick (drop_id s))) by (by apply lift_run).
  rewrite (bind_run _ _ _ nb (tick (drop_id s))) by (by apply lift_run).
  set (s1 := tick (drop_id s)). set (e := Entry _ _ _ _ _ _ _ _).
  rewrite (bind_run _ _ s1 tt (with_ledger (credit_ledger s1 ++ [e]) s1)) by by eapply insert_entry_returns.
  destruct (jobs_return (rls s) (balance_now (rls s) s) (dadd (balance_now (rls s) s) delta)
    (with_ledger (credit_ledger s1 ++ [e]) s1)) as (s2 & E). eexists _, s2. exact E.
Qed.

Lemma close_lot_returns s l :
  tables_ok s -> In l (credit_lots s) -> l_tenant l = rls s -> is_open l = true ->
  exists s', close_lot (l_id l) (credits_remaining l) s = Ok (true, s').
Proof.
  intros Ht Hl Hten Ho. pose proof (tb_lots s Ht) as [Hpk Hf].
  assert (Hw : lot_wf l) by (rewrite List.Forall_forall in Hf; auto).
  pose proof (proj1 (lot_ok_spec l) (lw_ok l Hw)) as Hok.
  unfold close_lot, clock_timestamp. unfold bind at 1 2 3, gets, modify, ret at 1. unfold update_lots, bind, gets.
  cbn [tick rls credit_lots].
  set (p := fun r => (l_tenant r =? rls s) && _).
  destruct (select_by_id l_id (credit_lots s) (l_id l) p Hpk) as [E|(r & E & Hr & Hp)].
  - intros r Hr. unfold p in Hr. apply andb_prop in Hr as [_ Hr]. apply andb_prop in Hr as [Hr _].
    apply andb_prop in Hr as [Hr _]. lia.
  - exfalso. assert (Hin : In l (select p (credit_lots s))); [|by rewrite E in Hin].
    apply select_In. split; [done|]. unfold p. rewrite Hten, !Z.eqb_refl, Ho. simpl.
    unfold money. destruct (deq_spec (credits_remaining l) (quantize MONEY_SCALE ROUND_HALF_UP (credits_remaining l))) as [|Hn]; [done|].
    exfalso. apply Hn. symmetry. apply quantize_money, Hw.
  - assert (r = l) as ->.
    { apply (pk_unique l_id (credit_lots s)); try done. unfold p in Hp. apply andb_prop in Hp as [_ Hp].
      apply andb_prop in Hp as [Hp _]. apply andb_prop in Hp as [Hp _]. lia. }
    unfold rowcount. rewrite E. cbn [existsb].
    set (l' := set_position (credits_total l) 0 (Some (ticks s 0%nat)) l).
    assert (lot_ok l' = true) as Hok' by (apply lot_ok_spec; simpl; lra).
    rewrite Hok', (lot_fits_ok l' Hok' (lw_fits l Hw)). simpl. eexists. reflexivity.
Qed.

(** Whether the session's tenant has an expiry on its ledger for the lot. *)
Definition expired_before (i : uuid) (s : db) : bool :=
  existsb (has_ref (rls s) (rls s) "adjustment" (credit_expiry_ref i)) (credit_ledger s).

Lemma read_entry_absent t reason r s :
  read_entry_by_ref t reason r s = Ok (None, s) <->
  forall e, In e (credit_ledger s) -> has_ref t (rls s) reason r e = false.
Proof.
  rewrite <- newest_none. unfold read_entry_by_ref, gets. destruct (newest _ _); simpl; split; done.
Qed.

Lemma read_entry_total t reason r s : exists o, read_entry_by_ref t reason r s = Ok (o, s).
Proof. by eexists. Qed.

(** What a lot holds is never more than its tenant's wallet. *)
Lemma lot_le_sum l t lots :
  Forall lot_wf lots -> In l lots -> l_tenant l = t -> (credits_remaining l <= lots_sum t lots)%Q.
Proof.
  intros Hf Hl Ht. unfold lots_sum, sum_over. induction Hf as [|x xs Hx Hxs IH]; [destruct Hl|]. simpl.
  pose proof (lots_sum_nonneg t xs Hxs) as H0. unfold lots_sum, sum_over in H0.
  pose proof (proj1 (lot_ok_spec x) (lw_ok x Hx)) as (_ & Hx0 & _).
  destruct Hl as [->|Hl]; [rewrite Ht, Z.eqb_refl; lra|]. specialize (IH Hl).
  destruct (l_tenant x =? t); lra.
Qed.

(** A lot that is due: its tenant's, open, past its expiry and holding something. *)
Definition due (i : uuid) (at_ : instant) (l : lot) (s : db) : Prop :=
  In l (credit_lots s) /\ l_id l = i /\ l_tenant l = rls s /\ is_open l = true
  /\ (exists e, expires_at l = Some e /\ e <= at_) /\ (0 < credits_remaining l)%Q.

(** The two statements of an expiry. *)
Lemma expire_writes s l meta :
  wallet_ok s -> In l (credit_lots s) -> l_tenant l = rls s -> is_open l = true -> (0 < credits_remaining l)%Q ->
  expired_before (l_id l) s = false ->
  (forall s1, marks_old s1 "adjustment" meta) ->
  exists s1 b s2, close_lot (l_id l) (credits_remaining l) s = Ok (true, s1)
    /\ record_entry (rls s) (dneg (credits_remaining l)) "adjustment" (Some (credit_expiry_ref (l_id l)))
         meta false false s1 = Ok (b, s2)
    /\ moved (- credits_remaining l) (- credits_remaining l) s s2
    /\ expired_before (l_id l) s2 = true.
Proof.
  intros Hw Hl Hten Ho Hp Hnew Hold. pose proof (wk_tables _ Hw) as Ht.
  destruct (close_lot_returns s l Ht Hl Hten Ho) as (s1 & Hc). exists s1.
  destruct (close_lot_moved s _ _ true s1 Ht Hc) as (Hst & l' & Hl' & Hid & _ & _ & _ & Hm1 & _).
  pose proof (tb_lots s Ht) as [Hpk Hf].
  assert (l' = l) as -> by by apply (pk_unique l_id (credit_lots s)).
  assert (Hlw : lot_wf l) by (rewrite List.Forall_forall in Hf; auto).
  pose proof (lot_le_sum l (rls s) (credit_lots s) Hf Hl Hten) as Hle.
  pose proof (wk_sum _ Hw (rls s)) as Hsum. fold (balance_held s) in Hsum.
  assert (Hbal : (credits_remaining l <= balance_held s)%Q) by (rewrite Hsum in Hle; pos_case; lra).
  destruct (balance_of_bounds s (rls s) (tb_ledger _ Ht)) as [_ Hbb].
  rewrite (lk_balance s (tb_ledger _ Ht) (rls s)) in Hbb. fold (balance_held s) in Hbb.
  pose proof numeric_limit_bound as Hlb. assert (Hlp : (0 < numeric_limit)%Q) by reflexivity.
  pose proof (lw_remaining l Hlw) as Hrm. pose proof (proj1 (lot_ok_spec l) (lw_ok l Hlw)) as (_ & _ & Hrt & _).
  pose proof (lw_fits l Hlw) as Hfit.
  assert (Hn : (dneg (credits_remaining l) == - credits_remaining l)%Q) by (apply round28_money; [auto with money|qabs]).
  assert (Hnm : is_money (dneg (credits_remaining l))) by (rewrite Hn; auto with money).
  assert (Hz : deq (dneg (credits_remaining l)) 0 && negb false = false)
    by (destruct (deq_spec (dneg (credits_remaining l)) 0); [lra|done]).
  pose proof (mv_ledger _ _ _ _ Hm1) as Hb1.
  assert (Hfresh : forall e, In e (credit_ledger s1) ->
            has_ref (rls s1) (rls s1) "adjustment" (credit_expiry_ref (l_id l)) e = false).
  { intros e He. rewrite (st_ledger _ _ Hst) in He. rewrite (st_rls _ _ Hst).
    apply not_true_is_false. intros E. unfold expired_before in Hnew. rewrite <- not_true_iff_false in Hnew.
    apply Hnew, existsb_exists. by exists e. }
  assert (Hb2 : (- numeric_limit < dneg (credits_remaining l) < numeric_limit)%Q) by (rewrite Hn; split; lra).
  assert (Hb3 : (- numeric_limit < balance_held s1 + dneg (credits_remaining l) < numeric_limit)%Q)
    by (rewrite Hn, Hb1; split; lra).
  assert (Hb4 : (0 <= balance_held s1 + dneg (credits_remaining l))%Q) by (rewrite Hn, Hb1; lra).
  assert (Hin : "adjustment" ∈ CREDIT_REASONS) by by apply (bool_decide_eq_true ("adjustment" ∈ CREDIT_REASONS)).
  destruct (record_entry_returns s1 (dneg (credits_remaining l)) "adjustment" (credit_expiry_ref (l_id l)) meta false false
              (tb_ledger _ (mv_tables _ _ _ _ Hm1)) Hnm Hb2 Hb3 Hin (or_intror Hb4) Hfresh Hz) as (b & s2 & Hr).
  destruct (record_entry_moved s1 _ _ _ _ _ _ b s2 (mv_tables _ _ _ _ Hm1) Hnm (Hold s1) Hr Hz)
      as (Hm2 & _ & _ & (e & El & _ & Et & _ & Er & Ef & _) & _).
  exists b, s2. rewrite (st_rls _ _ Hst) in Hr. split; [done|]. split; [done|]. split.
  - eapply moved_eq; [| |exact (moved_trans _ _ _ _ _ _ _ Hm1 Hm2)]; [ring|rewrite Hn; ring].
  - unfold expired_before. apply existsb_exists. exists e. split; [rewrite El; apply in_or_app; right; by left|].
      unfold has_ref, own. rewrite Et, Er, Ef, (mv_rls _ _ _ _ Hm2), Z.eqb_refl.
      rewrite !bool_decide_true by done. done.
Qed.

(** What an expiry answers and leaves. *)
Definition expiry_outcome (i : uuid) (at_ : instant) (s : db) (r : option ExpiredLot) (s' : db) : Prop :=
  match r with
  | None => s' = s /\ (expired_before i s = true \/ forall l, ~ due i at_ l s)
  | Some x =>
      ex_lot x = i /\ wallet_ok s' /\ rls s' = rls s /\ expired_before i s = false /\ expired_before i s' = true
      /\ (exists l, due i at_ l s /\ (ex_credits x == credits_remaining l)%Q)
      /\ (lots_held s' == lots_held s - ex_credits x)%Q /\ (balance_held s' == balance_held s - ex_credits x)%Q
  end.

Lemma expired_before_read i s o :
  read_entry_by_ref (rls s) "adjustment" (credit_expiry_ref i) s = Ok (o, s) ->
  expired_before i s = match o with Some _ => true | None => false end.
Proof.
  intros H. destruct o as [e|].
  - apply not_false_is_true. intros E.
    assert (read_entry_by_ref (rls s) "adjustment" (credit_expiry_ref i) s = Ok (None, s)) as Hq; [|congruence].
    apply read_entry_absent. intros x Hx. apply not_true_is_false. intros Hh.
    unfold expired_before in E. rewrite <- not_true_iff_false in E. apply E, existsb_exists. by exists x.
  - pose proof (proj1 (read_entry_absent _ _ _ _) H) as Hf. apply not_true_is_false. intros E.
    apply existsb_exists in E as (x & Hx & E). by rewrite Hf in E.
Qed.

(** The lot an expiry reads is the only one that can be due. *)
Lemma due_read i at_ s o :
  wallet_ok s -> read_lot i s = Ok (o, s) -> (forall l, o = Some l -> ~ due i at_ l s) -> forall l, ~ due i at_ l s.
Proof.
  intros Hw Hr Hd l Hl. apply read_lot_spec in Hr as [_ Hr]. pose proof Hl as (Hin & Hid & Hten & _).
  destruct o as [l'|]; [|by apply (Hr l)]. destruct Hr as (Hin' & _ & Hid'). apply (Hd l' eq_refl).
  assert (l' = l) as ->; [|done]. apply (pk_unique l_id (credit_lots s)); try done; [|congruence].
  by destruct (tb_lots s (wk_tables _ Hw)).
Qed.

(** An expiry that finds nothing due. *)
Lemma expire_idle i at_ s o (m : tx db (option ExpiredLot)) :
  wallet_ok s -> read_lot i s = Ok (o, s) -> (forall l, o = Some l -> ~ due i at_ l s) -> m = ret None ->
  exists r s', m s = Ok (r, s') /\ expiry_outcome i at_ s r s'.
Proof.
  intros Hw Hr Hd ->. exists None, s. split; [done|]. split; [done|]. right. by eapply due_read.
Qed.

Lemma expire_spec s i at_ :
  wallet_ok s -> exists r s', expire_lot (rls s) i at_ s = Ok (r, s') /\ expiry_outcome i at_ s r s'.
Proof.
  intros Hw. pose proof (wk_tables _ Hw) as Ht. unfold expire_lot, find_entry_by_ref.
  destruct (read_entry_total (rls s) "adjustment" (credit_expiry_ref i) s) as [o Ho].
  rewrite (bind_run _ _ _ _ _ Ho). apply expired_before_read in Ho as Hnew.
  destruct o as [en|]; [exists None, s; split; [done|]; split; [done|by left]|].
  assert (exists o, read_lot i s = Ok (o, s)) as [o Hr] by by eexists.
  rewrite (bind_run _ _ _ _ _ Hr). pose proof (fun m => expire_idle i at_ s o m Hw Hr) as Hidle.
  apply read_lot_spec in Hr as [_ Hr]. destruct o as [l|]; [|by apply Hidle]. destruct Hr as (Hl & Hten & Hid).
  destruct (closed_at l) eqn:Ecl.
  { apply Hidle; [|done]. intros ? [= <-] (_ & _ & _ & Hop & _). unfold is_open in Hop. by rewrite Ecl in Hop. }
  destruct (expires_at l) as [e|] eqn:Eex.
  2:{ apply Hidle; [|done]. intros ? [= <-] (_ & _ & _ & _ & (e & He & _) & _). congruence. }
  destruct ((at_ <? e) || dle (credits_remaining l) 0) eqn:Eg.
  { apply Hidle; [|done]. intros ? [= <-] (_ & _ & _ & _ & (e' & He & Hle) & Hp).
    assert (e' = e) by congruence. destruct (dle_spec (credits_remaining l) 0); [lra|]. simpl in Eg. lia. }
  clear Hidle. apply orb_false_iff in Eg as [Eg1 Eg2]. destruct (dle_spec (credits_remaining l) 0) as [|Hp]; [done|].
  assert (Hk : CREDIT_EXPIRY_META_KIND <> LOT_REPRICE_META_KIND) by done. subst i.
  assert (Hopen : is_open l = true) by (unfold is_open; by rewrite Ecl).
  assert (Hp' : (0 < credits_remaining l)%Q) by lra.
  set (meta := [("kind", JText CREDIT_EXPIRY_META_KIND); ("lot_id", JId (l_id l)); ("expires_at", JTime e);
                ("credits_inr", JDec (credits_remaining l))]).
  assert (Hold : forall s1, marks_old s1 "adjustment" meta)
    by (intros s1; by apply (marks_old_kind s1 "adjustment" _ _ Hk)).
  destruct (expire_writes s l meta Hw Hl Hten Hopen Hp' Hnew Hold) as (s1 & b & s2 & Hc & Hre & Hm & Hex).
  rewrite (bind_run _ _ _ _ _ Hc). cbn [negb]. rewrite (bind_run _ _ _ _ _ Hre).
  eexists _, s2. split; [reflexivity|]. unfold expiry_outcome. cbn [ex_lot ex_credits].
  split; [done|]. split.
  { apply owing_0. eapply moved_owing; [by apply owing_0|exact Hm|].
    pose proof (lots_held_nonneg s2 (mv_tables _ _ _ _ Hm)) as H0. rewrite (mv_lots _ _ _ _ Hm) in H0.
    pose proof (wk_sum _ Hw (rls s)) as Hs. fold (balance_held s) (lots_held s) in Hs. pos_case; lra. }
  split; [by apply (mv_rls _ _ _ _ Hm)|]. split; [done|]. split; [done|]. split.
  { exists l. split; [|done]. split; [done|]. split; [done|]. split; [done|]. split; [done|]. split; [exists e; split; [done|lia]|done]. }
  split; [rewrite (mv_lots _ _ _ _ Hm); ring|rewrite (mv_ledger _ _ _ _ Hm); ring].
Qed.

(** Expiring a lot always answers: it writes exactly when the lot is due and was
    not expired before, never finds the wallet short, and then the lot's remainder
    leaves the lots and the ledger together; a second run finds the entry and does
    nothing. *)
Theorem expire_lot_exact s i at_ :
  wallet_ok s -> exists r s', expire_lot (rls s) i at_ s = Ok (r, s') /\ expiry_outcome i at_ s r s'.
Proof. apply expire_spec. Qed.

(** ** Concrete runs *)

Lemma blank_wallet_ok t : wallet_ok (blank_db t).
Proof.
  constructor; [constructor; [apply blank_ledger_ok| |]|].
  - split; [apply NoDup_nil_2|constructor].
  - constructor; simpl; done.
  - intros t'. reflexivity.
Qed.

Module Example.
Definition accepted_terms : expiry_terms := ExpiryTerms (Some 12) true (fun _ => true).
Definition list_price : LotRates := MkRates (9 # 2) (inject_Z 6).

(** A purchase of 500 rupees as its two statements. *)
Definition purchase : tx db CreditedLot :=
  bind (record_entry 7 (inject_Z 500) "topup" (Some [PWord "pay_1"]) [] false false) (fun b =>
  apply_credit_to_lots accepted_terms 7 (inject_Z 500) (amount_inr b) list_price "topup" (Some "starter") 0 None None).
Definition topped_up : db :=
  match record_entry 7 (inject_Z 500) "topup" (Some [PWord "pay_1"]) [] false false (blank_db 7) with
  | Ok (_, s) => s | Err _ => blank_db 7 end.
Definition funded : db := match purchase (blank_db 7) with Ok (_, s) => s | Err _ => blank_db 7 end.

Lemma run_state {A} (m : tx db A) (s d : db) :
  is_ok (m s) = true -> exists a, m s = Ok (a, match m s with Ok (_, s') => s' | Err _ => d end).
Proof. destruct (m s) as [[a s']|e]; [eauto|done]. Qed.

Lemma topped_up_ok :
  owing (inject_Z 500) topped_up /\ rls topped_up = 7 /\ (inject_Z 500 == balance_held topped_up)%Q.
Proof.
  destruct (run_state (record_entry 7 (inject_Z 500) "topup" (Some [PWord "pay_1"]) [] false false)
              (blank_db 7) (blank_db 7) ltac:(vm_compute; reflexivity)) as (b & E). fold topped_up in E.
  assert (Hm : is_money (inject_Z 500)) by (by exists 5000000).
  split; [|split; vm_compute; reflexivity].
  eapply owing_eq; [|eapply (record_owing 0 (blank_db 7) (inject_Z 500)); [apply owing_0, blank_wallet_ok|done| |exact E|done]].
  - ring.
  - by apply marks_old_reason.
Qed.

Lemma funded_ok : wallet_ok funded /\ rls funded = 7.
Proof.
  destruct (run_state purchase (blank_db 7) (blank_db 7) ltac:(vm_compute; reflexivity)) as (cl & E). fold funded in E.
  split; [|vm_compute; reflexivity]. destruct topped_up_ok as (Ho & Hr & Hb).
  unfold purchase in E. apply bind_ok in E as (b & s1 & E1 & E2).
  assert (s1 = topped_up) as -> by (unfold topped_up; by rewrite E1).
  assert (Hbal : amount_inr b = inject_Z 500).
  { assert (match record_entry 7 (inject_Z 500) "topup" (Some [PWord "pay_1"]) [] false false (blank_db 7) with
            | Ok (b, _) => amount_inr b | Err _ => 0%Q end = inject_Z 500) as Hq by (vm_compute; reflexivity).
    by rewrite E1 in Hq. }
  rewrite Hbal in E2. rewrite <- Hr in E2.
  by eapply apply_credit_spec in E2; [apply E2|done|exists 5000000|split|].
Qed.
End Example.
Import Example.

Lemma usage_correct_witness :
  exists d s', record_usage_from_lots (rls funded) [PId 9] (DemandCall (MkCall (inject_Z 10) VALUE_VOICE_TIER list_price))
                 0 [] true funded = Ok (d, s')
    /\ wallet_ok s' /\ (balance_held s' == inject_Z 455)%Q.
Proof.
  assert (exists d s', record_usage_from_lots (rls funded) [PId 9] (DemandCall (MkCall (inject_Z 10) VALUE_VOICE_TIER list_price))
                 0 [] true funded = Ok (d, s')) as (d & s' & E) by (eexists _, _; vm_compute; reflexivity).
  exists d, s'. split; [exact E|].
  destruct (usage_correct funded [PId 9] (DemandCall (MkCall (inject_Z 10) VALUE_VOICE_TIER list_price)) 0 [] true d s'
              (proj1 funded_ok) ltac:(split; vm_compute; discriminate) ltac:(vm_compute; reflexivity) E) as (H1 & _ & _ & H4 & _).
  split; [exact H1|]. rewrite H4. vm_compute in E. injection E as <- _. reflexivity.
Defined.

Lemma apply_credit_correct_witness :
  exists cl s', apply_credit_to_lots accepted_terms (rls topped_up) (inject_Z 500) (inject_Z 500) list_price "topup"
                  (Some "starter") 0 None None topped_up = Ok (cl, s')
    /\ wallet_ok s' /\ (lots_held s' == lots_held topped_up + cl_credits cl)%Q.
Proof.
  assert (exists cl s', apply_credit_to_lots accepted_terms (rls topped_up) (inject_Z 500) (inject_Z 500) list_price "topup"
                  (Some "starter") 0 None None topped_up = Ok (cl, s')) as (cl & s' & E) by (eexists _, _; vm_compute; reflexivity).
  exists cl, s'. split; [exact E|]. destruct topped_up_ok as (Ho & Hr & Hb).
  destruct (apply_credit_correct accepted_terms topped_up (inject_Z 500) (inject_Z 500) list_price "topup"
              (Some "starter") 0 None None cl s' Ho (ex_intro _ 5000000 eq_refl)
              (conj eq_refl eq_refl) Hb E) as (H1 & _ & _ & _ & _ & H6 & _).
  split; [exact H1|exact H6].
Defined.

Lemma purchase_lot_terminates_witness :
  exists o, purchase_lot_of_entry 7 0 funded = Ok (o, funded)
    /\ forall x, o = Some x ->
        (exists l, In l (credit_lots funded) /\ l_id l = el_lot x /\ l_tenant l = rls funded /\ el_total x = credits_total l)
        /\ reprice_successor 7 (el_lot x) funded = Ok (None, funded).
Proof. exact (purchase_lot_terminates funded 7 0 (proj1 funded_ok)). Defined.


Lemma reprice_conserves_witness :
  exists r s', reprice_lot (rls funded) 2 "growth" (MkRates (inject_Z 4) (inject_Z 5)) "goodwill" None funded = Ok (Some r, s')
    /\ wallet_ok s' /\ (lots_held s' == lots_held funded)%Q.
Proof.
  assert (exists r s', reprice_lot (rls funded) 2 "growth" (MkRates (inject_Z 4) (inject_Z 5)) "goodwill" None funded = Ok (Some r, s'))
    as (r & s' & E) by (eexists _, _; vm_compute; reflexivity).
  exists r, s'. split; [exact E|].
  destruct (reprice_conserves funded 2 "growth" (MkRates (inject_Z 4) (inject_Z 5)) "goodwill" None (Some r) s'
              (proj1 funded_ok) E) as (H1 & _ & H3 & _).
  split; [exact H1|exact H3].
Defined.

Lemma expire_lot_exact_witness :
  exists r s', expire_lot (rls funded) 2 (400 * US_PER_DAY) funded = Ok (r, s')
    /\ expiry_outcome 2 (400 * US_PER_DAY) funded r s'.
Proof. exact (expire_lot_exact funded 2 (400 * US_PER_DAY) (proj1 funded_ok)). Defined.

(** That expiry does write. *)
Example expire_lot_writes :
  match expire_lot 7 2 (400 * US_PER_DAY) funded with Ok (Some x, s') => Qeq_bool (ex_credits x) (inject_Z 500) | _ => false end = true.
Proof. vm_compute. reflexivity. Qed.
End Wallet.
