(* ===== verification/Envelope.v ===== *)
(** * Reading a payment provider's events

    apps/api/billing/payments.py and disputes.py: the amounts, which cross the
    provider's boundary as integer paise, and the functions that read a captured
    payment, a refund or a dispute out of a webhook's JSON, or refuse it.  Text is
    ASCII here: [str.strip], [str.upper] and [UUID(...)] are the standard library's on
    ASCII text. *)

From Stdlib Require Import Ascii ZArith Lia List QArith Lqa.
From stdpp Require Import base list strings pretty.
From S2P Require Import Prelude PyDecimal Sql WalletDb Ledger.

Local Open Scope string_scope.
Local Open Scope list_scope.
Local Open Scope Z_scope.

Module Envelope.

(** ** JSON as Python holds it *)

Inductive json :=
| Null
| Bool (b : bool)
| Int (z : Z)
| Float
| Str (s : string)
| Arr (items : list json)
| Obj (fields : list (string * json)).

(** [d.get(k)]: [Null] stands for [None], the value of an absent key as of a null. *)
Fixpoint field (k : string) (fields : list (string * json)) : json :=
  match fields with
  | [] => Null
  | (k', v) :: rest => if String.eqb k k' then v else field k rest
  end.

(** [x.get(k) if isinstance(x, dict) else None]. *)
Definition get (k : string) (x : json) : json :=
  match x with Obj fields => field k fields | _ => Null end.

Definition truthy (x : json) : bool :=
  match x with
  | Null => false
  | Bool b => b
  | Int z => negb (z =? 0)
  | Float => true
  | Str s => negb (String.eqb s "")
  | Arr l => negb (Nat.eqb (length l) 0)
  | Obj l => negb (Nat.eqb (length l) 0)
  end.

(** ** Text *)

Definition is_space (c : ascii) : bool :=
  let n := nat_of_ascii c in
  (Nat.leb 9 n && Nat.leb n 13) || (Nat.leb 28 n && Nat.leb n 32).

Fixpoint lstrip (p : ascii -> bool) (s : string) : string :=
  match s with
  | String c r => if p c then lstrip p r else s
  | "" => ""
  end.
Fixpoint rstrip (p : ascii -> bool) (s : string) : string :=
  match s with
  | String c r =>
      match rstrip p r with
      | "" => if p c then "" else String c ""
      | r' => String c r'
      end
  | "" => ""
  end.
Definition strip_by (p : ascii -> bool) (s : string) : string := rstrip p (lstrip p s).
Definition strip : string -> string := strip_by is_space.

Definition upper_char (c : ascii) : ascii :=
  let n := nat_of_ascii c in
  if Nat.leb 97 n && Nat.leb n 122 then ascii_of_nat (n - 32) else c.
Fixpoint upper (s : string) : string :=
  match s with "" => "" | String c r => String (upper_char c) (upper r) end.

(** [s.replace(sub, "")], for a [sub] that is not empty. *)
Fixpoint remove_from (sub : string) (skip : nat) (s : string) : string :=
  match s with
  | "" => ""
  | String c r =>
      match skip with
      | S k => remove_from sub k r
      | O => if String.prefix sub s then remove_from sub (String.length sub - 1) r
             else String c (remove_from sub 0 r)
      end
  end.
Definition remove_all (sub : string) : string -> string := remove_from sub 0.

Definition hex_value (c : ascii) : option Z :=
  let n := nat_of_ascii c in
  if Nat.leb 48 n && Nat.leb n 57 then Some (Z.of_nat n - 48)
  else if Nat.leb 97 n && Nat.leb n 102 then Some (Z.of_nat n - 87)
  else if Nat.leb 65 n && Nat.leb n 70 then Some (Z.of_nat n - 55)
  else None.

(** The digits of [int(text, 16)]: underscores only between digits. *)
Fixpoint hex_digits (acc : Z) (after_digit : bool) (s : string) : option Z :=
  match s with
  | "" => if after_digit then Some acc else None
  | String c r =>
      if Ascii.eqb c "_"%char then if after_digit then hex_digits acc false r else None
      else match hex_value c with
           | Some d => hex_digits (16 * acc + d) true r
           | None => None
           end
  end.
Definition int_16 (s : string) : option Z :=
  let s := strip s in
  let s := match s with String c r => if Ascii.eqb c "+"%char then r else s | "" => "" end in
  match s with
  | String "0"%char (String x r) =>
      if Ascii.eqb x "x"%char || Ascii.eqb x "X"%char
      then hex_digits 0 false (match r with String "_"%char r' => r' | _ => r end)
      else hex_digits 0 false s
  | _ => hex_digits 0 false s
  end.

(** [UUID(hex=text)]. *)
Definition uuid_of_text (s : string) : option uuid :=
  let hex := remove_all "-" (strip_by (fun c => Ascii.eqb c "{"%char || Ascii.eqb c "}"%char)
                                (remove_all "uuid:" (remove_all "urn:" s))) in
  if Nat.eqb (String.length hex) 32 then int_16 hex else None.

(** [str(uuid)]. *)
Definition hex_char (d : Z) : ascii := ascii_of_nat (Z.to_nat (if d <? 10 then 48 + d else 87 + d)).
Fixpoint hex_text (n : nat) (z : Z) : string :=
  match n with O => "" | S n => hex_text n (z / 16) +:+ String (hex_char (z mod 16)) "" end.
Definition uuid_text (u : uuid) : string :=
  hex_text 8 (u / 2 ^ 96) +:+ "-" +:+ hex_text 4 (u / 2 ^ 80) +:+ "-" +:+ hex_text 4 (u / 2 ^ 64) +:+ "-"
  +:+ hex_text 4 (u / 2 ^ 48) +:+ "-" +:+ hex_text 12 u.

(** [UUID(str(x))]: of the other values the text is never a UUID's. *)
Definition uuid_of_json (x : json) : option uuid :=
  match x with
  | Str s => uuid_of_text s
  | Int z => uuid_of_text (pretty z)
  | _ => None
  end.

(** ** Amounts *)

Definition PAISE_PER_RUPEE : Q := inject_Z 100.

Definition refuse {A} (code : string) : result A := Err (Problem BusinessRule code).

Definition paise_to_inr (amount : json) : result Q :=
  match amount with
  | Int z => if z <=? 0 then refuse "payment_amount_unrecognized"
             else Ok (ddiv (inject_Z z) PAISE_PER_RUPEE)
  | _ => refuse "payment_amount_unrecognized"
  end.

(** What is handed to [inr_to_paise]. *)
Inductive amount_arg := Dec (q : Q) | NotFinite | NotDecimal.

Definition inr_to_paise (amount_inr : amount_arg) : result Z :=
  match amount_inr with
  | Dec q =>
      if dle q 0 then refuse "topup_amount_unrepresentable"
      else
        let scaled := dmul q PAISE_PER_RUPEE in
        if negb (deq scaled (inject_Z (round_int ROUND_HALF_EVEN scaled)))
        then refuse "topup_amount_unrepresentable"
        else Ok (round_int ROUND_DOWN scaled)
  | NotFinite | NotDecimal => refuse "topup_amount_unrepresentable"
  end.

(** ** The events *)

Definition NOTES_TENANT_KEY : string := "calevate_tenant_id".
Definition NOTES_PACK_KEY : string := "calevate_pack_id".
Definition SUPPORTED_CURRENCY : string := "INR".

Record CapturedPayment := Captured {
  payment_id : string; cp_tenant : uuid; cp_amount_inr : Q; cp_currency : string;
  cp_pack_id : option string; order_id : option string; international : bool;
  token_id : option string }.

Record RefundEvent := Refund {
  refund_id : string; rf_payment_id : string; rf_tenant : uuid; rf_amount_inr : Q;
  rf_currency : string }.

Record DisputeFacts := Dispute {
  dispute_id : string; dp_payment_id : string; dp_amount_inr : Q; dp_status : string;
  dp_phase : option string; dp_reason_code : option string; dp_respond_by : option instant }.

(** [envelope["payload"][name]["entity"]], [None] where the shape breaks. *)
Definition entity (name : string) (envelope : json) : json :=
  get "entity" (get name (get "payload" envelope)).

Definition is_dict (x : json) : bool := match x with Obj _ => true | _ => false end.

(** [x.strip() if isinstance(x, str) and x.strip() else None]. *)
Definition stripped (x : json) : option string :=
  match x with Str s => if String.eqb (strip s) "" then None else Some (strip s) | _ => None end.

Definition is_inr (x : json) : bool :=
  match x with Str s => String.eqb (upper s) SUPPORTED_CURRENCY | _ => false end.

(** [_order_entity_notes]. *)
Definition order_entity_notes (envelope : json) : option json :=
  let notes := get "notes" (entity "order" envelope) in
  if is_dict notes then Some notes else None.

(** The tenant a note names; a caller's hint stands in for an absent note. *)
Definition payment_tenant (raw : json) (tenant_hint : option uuid) : option uuid :=
  match raw, tenant_hint with
  | Null, Some hint => Some hint
  | _, _ => uuid_of_json raw
  end.

Definition extract_captured_payment (envelope : json) (tenant_hint : option uuid) :
    result CapturedPayment :=
  let e := entity "payment" envelope in
  if negb (is_dict e) then refuse "payment_payload_unrecognized"
  else
    match stripped (get "id" e) with
    | None => refuse "payment_payload_unrecognized"
    | Some pid =>
        if negb (is_inr (get "currency" e)) then refuse "payment_currency_unsupported"
        else
          match paise_to_inr (get "amount" e) with
          | Err x => Err x
          | Ok amount =>
              let own_notes := get "notes" e in
              let notes :=
                if truthy (get NOTES_TENANT_KEY own_notes) then own_notes
                else match order_entity_notes envelope with
                     | Some n => n
                     | None => own_notes
                     end in
              match payment_tenant (get NOTES_TENANT_KEY notes) tenant_hint with
              | None => refuse "payment_tenant_unresolved"
              | Some t =>
                  Ok (Captured pid t amount SUPPORTED_CURRENCY (stripped (get NOTES_PACK_KEY notes))
                        (stripped (get "order_id" e))
                        (match get "international" e with Bool b => b | _ => false end)
                        (stripped (get "token_id" e)))
              end
          end
    end.

Definition payment_order_id (envelope : json) : option string :=
  stripped (get "order_id" (entity "payment" envelope)).

Definition extract_refund (envelope : json) : result RefundEvent :=
  let e := entity "refund" envelope in
  if negb (is_dict e) then refuse "refund_payload_unrecognized"
  else
    match stripped (get "id" e), stripped (get "payment_id" e) with
    | Some rid, Some pid =>
        if negb (is_inr (get "currency" e)) then refuse "payment_currency_unsupported"
        else
          match paise_to_inr (get "amount" e) with
          | Err x => Err x
          | Ok amount =>
              match uuid_of_json (get NOTES_TENANT_KEY (get "notes" e)) with
              | None => refuse "payment_tenant_unresolved"
              | Some t => Ok (Refund rid pid t amount SUPPORTED_CURRENCY)
              end
          end
    | _, _ => refuse "refund_payload_unrecognized"
    end.

(** The instants a [datetime] holds, years 1 to 9999; beyond them [fromtimestamp]
    raises (a [ValueError], or an [OverflowError] further out). *)
Definition from_timestamp (z : Z) : result instant :=
  if (-62135596800 <=? z) && (z <=? 253402300799) then Ok (z * 1000000) else Err ValueError.

(** [_s]: a string that is not empty. *)
Definition nonempty (x : json) : option string :=
  match x with Str s => if String.eqb s "" then None else Some s | _ => None end.

Definition extract_dispute (envelope : json) : result DisputeFacts :=
  let e := entity "dispute" envelope in
  match get "id" e, get "payment_id" e, get "status" e with
  | Str did, Str pid, Str status =>
      if negb (is_inr (get "currency" e)) then refuse "payment_currency_unsupported"
      else
        match paise_to_inr (get "amount" e) with
        | Err x => Err x
        | Ok amount =>
            match get "respond_by" e with
            | Int z =>
                match from_timestamp z with
                | Err x => Err x
                | Ok at_ => Ok (Dispute did pid amount status (nonempty (get "phase" e))
                                  (nonempty (get "reason_code" e)) (Some at_))
                end
            | _ => Ok (Dispute did pid amount status (nonempty (get "phase" e))
                         (nonempty (get "reason_code" e)) None)
            end
        end
  | _, _, _ => refuse "dispute_payload_unrecognized"
  end.

(** ** Amounts cross the boundary exactly *)

Lemma hundredth z : (inject_Z z / PAISE_PER_RUPEE == z # 100)%Q.
Proof. unfold PAISE_PER_RUPEE. rewrite Qmake_inject. done. Qed.

Lemma paise_bound z : 0 < z < 10 ^ 24 -> (Qabs.Qabs (z # 100) < exact_bound)%Q /\ (Qabs.Qabs (inject_Z z) < exact_bound)%Q.
Proof.
  intros [H1 H2]. unfold exact_bound, inject_Z, Qlt, Qabs.Qabs. cbn [Qnum Qden].
  rewrite Z.abs_eq by lia. split; lia.
Qed.

Lemma paise_to_inr_exact z :
  0 < z < 10 ^ 24 -> exists q, paise_to_inr (Int z) = Ok q /\ (q == z # 100)%Q.
Proof.
  intros H. simpl. replace (z <=? 0) with false by lia. eexists. split; [done|].
  unfold ddiv. assert (is_money (inject_Z z / PAISE_PER_RUPEE)) by (exists (z * 100); rewrite hundredth; unfold Qeq, MONEY_SCALE; simpl; lia).
  rewrite round28_money, hundredth; [done|done|]. rewrite hundredth. by apply paise_bound.
Qed.

Lemma inr_to_paise_exact q z : (q == z # 100)%Q -> 0 < z < 10 ^ 24 -> inr_to_paise (Dec q) = Ok z.
Proof.
  intros E H. unfold inr_to_paise. destruct (dle_spec q 0) as [Hq|_].
  { exfalso. rewrite E in Hq. unfold Qle in Hq. simpl in Hq. lia. }
  assert (Es : (q * PAISE_PER_RUPEE == inject_Z z)%Q).
  { rewrite E. unfold PAISE_PER_RUPEE. rewrite <- (Qmake_scaled z 100). done. }
  assert (Ed : (dmul q PAISE_PER_RUPEE == inject_Z z)%Q).
  { unfold dmul. assert (is_money (q * PAISE_PER_RUPEE)) by (exists (z * 10000); rewrite Es; unfold Qeq, MONEY_SCALE; simpl; lia).
    rewrite round28_money; [done|done|]. rewrite Es. by apply paise_bound. }
  cbv zeta. rewrite !(round_int_whole _ _ z) by done.
  destruct (deq_spec (dmul q PAISE_PER_RUPEE) (inject_Z z)); [done|contradiction].
Qed.

Lemma inr_to_paise_inv q z :
  is_money q -> (q * PAISE_PER_RUPEE < exact_bound)%Q -> inr_to_paise (Dec q) = Ok z -> 0 < z < 10 ^ 24 /\ (q == z # 100)%Q.
Proof.
  intros Hm Hb H. unfold inr_to_paise in H. destruct (dle_spec q 0) as [|Hq]; [done|].
  assert (Hp : (0 < q)%Q) by lra. assert (Hp100 : (0 < q * PAISE_PER_RUPEE)%Q) by (unfold PAISE_PER_RUPEE, inject_Z; lra).
  assert (Hd : (dmul q PAISE_PER_RUPEE == q * PAISE_PER_RUPEE)%Q).
  { unfold dmul. apply round28_money.
    - destruct Hm as [k Hk]. exists (k * 100). rewrite Hk. unfold PAISE_PER_RUPEE, inject_Z, Qmult, Qeq, MONEY_SCALE. simpl. lia.
    - rewrite Qabs.Qabs_pos; lra. }
  set (s := dmul q PAISE_PER_RUPEE) in *. destruct (deq_spec s (inject_Z (round_int ROUND_HALF_EVEN s))) as [Es|]; [|done].
  cbn [negb] in H. assert (round_int ROUND_DOWN s = z) as <- by congruence. rewrite (round_int_whole ROUND_DOWN s _ Es). set (k := round_int ROUND_HALF_EVEN s) in *.
  assert (Ek : (q * PAISE_PER_RUPEE == inject_Z k)%Q) by by rewrite <- Hd.
  split.
  - rewrite Ek in Hb, Hp100. unfold Qlt, exact_bound, inject_Z in Hb, Hp100. simpl in Hb, Hp100. lia.
  - rewrite <- hundredth, <- Ek. unfold PAISE_PER_RUPEE, inject_Z. field.
Qed.

(** C39. Amounts cross the provider's boundary exactly, both ways: an integer of paise
    becomes the rupees it is and goes back to itself; an amount of the ledger's scale is
    accepted only when it is a positive whole number of paise, and comes back as itself;
    anything that is not a positive integer (a float, a bool, a string) is refused. *)
Theorem paise_roundtrip :
  (forall z, 0 < z < 10 ^ 24 ->
     exists q, paise_to_inr (Int z) = Ok q /\ (q == z # 100)%Q /\ inr_to_paise (Dec q) = Ok z)
  /\ (forall q z, is_money q -> (q * PAISE_PER_RUPEE < exact_bound)%Q -> inr_to_paise (Dec q) = Ok z ->
        exists q', paise_to_inr (Int z) = Ok q' /\ (q' == q)%Q)
  /\ (forall q, is_money q -> (q * PAISE_PER_RUPEE < exact_bound)%Q -> (0 < q)%Q -> Ledger.is_paise q ->
        exists z, inr_to_paise (Dec q) = Ok z)
  /\ (forall x, is_ok (paise_to_inr x) = true <-> exists z, x = Int z /\ 0 < z).
Proof.
  split; [|split; [|split]].
  - intros z H. destruct (paise_to_inr_exact z H) as (q & E & Eq). exists q. split; [done|].
    split; [done|]. by apply inr_to_paise_exact.
  - intros q z Hm Hb H. destruct (inr_to_paise_inv q z Hm Hb H) as [Hz Eq].
    destruct (paise_to_inr_exact z Hz) as (q' & E & Eq'). exists q'. split; [done|]. by rewrite Eq', Eq.
  - intros q Hm Hb Hp [z Hz]. exists z. apply inr_to_paise_exact; [done|].
    assert (E : (q * PAISE_PER_RUPEE == inject_Z z)%Q) by (rewrite Hz; unfold PAISE_PER_RUPEE; rewrite <- (Qmake_scaled z 100); done).
    assert (Hp' : (0 < q * PAISE_PER_RUPEE)%Q) by (unfold PAISE_PER_RUPEE, inject_Z; lra).
    rewrite E in Hb, Hp'. unfold Qlt, exact_bound, inject_Z in Hb, Hp'. simpl in Hb, Hp'. lia.
  - intros x. destruct x; simpl; try (split; [done|intros (? & ? & ?); done]).
    destruct (z <=? 0) eqn:E; simpl; split; try done.
    + intros (z' & [= ->] & ?). lia.
    + intros _. exists z. split; [done|lia].
Qed.

(** ** What is read is well formed *)

Lemma lstrip_idem p s : lstrip p (lstrip p s) = lstrip p s.
Proof. induction s as [|c s IH]; simpl; [done|]. destruct (p c) eqn:E; [done|]. simpl. by rewrite E. Qed.

Lemma rstrip_idem p s : rstrip p (rstrip p s) = rstrip p s.
Proof.
  induction s as [|c s IH]; simpl; [done|]. destruct (rstrip p s) as [|d r] eqn:E.
  - destruct (p c) eqn:Ec; simpl; [done|]. by rewrite Ec.
  - cbn [rstrip] in *. by rewrite IH.
Qed.

Lemma lstrip_rstrip p s : lstrip p s = s -> lstrip p (rstrip p s) = rstrip p s.
Proof.
  destruct s as [|c s]; simpl; [done|]. destruct (p c) eqn:Ec.
  - intros H. exfalso. assert (Hl : forall t, (String.length (lstrip p t) <= String.length t)%nat).
    { induction t as [|d t IH]; simpl; [lia|]. destruct (p d); simpl; lia. }
    specialize (Hl s). apply (f_equal String.length) in H. simpl in H. lia.
  - intros _. destruct (rstrip p s) as [|d r]; simpl; by rewrite Ec.
Qed.

Lemma strip_idem s : strip (strip s) = strip s.
Proof.
  unfold strip, strip_by. rewrite (lstrip_rstrip is_space (lstrip is_space s)) by apply lstrip_idem.
  apply rstrip_idem.
Qed.

Definition identifier (s : string) : Prop := s <> "" /\ strip s = s.

Lemma stripped_identifier x s : stripped x = Some s -> identifier s.
Proof.
  destruct x; simpl; try done. destruct (String.eqb_spec (strip s0) ""); [done|]. intros [= <-].
  split; [done|apply strip_idem].
Qed.

Lemma hex_value_range c d : hex_value c = Some d -> 0 <= d < 16.
Proof.
  unfold hex_value. intros H. repeat case_match; simplify_eq;
    repeat match goal with E : (_ && _) = true |- _ => apply andb_prop in E as [?%Nat.leb_le ?%Nat.leb_le] end; lia.
Qed.

Lemma hex_digits_range acc b s z :
  0 <= acc -> hex_digits acc b s = Some z -> 0 <= z < (acc + 1) * 16 ^ Z.of_nat (String.length s).
Proof.
  revert acc b. induction s as [|c s IH]; intros acc b Ha H; cbn [hex_digits] in H.
  { destruct b; simplify_eq. simpl. lia. }
  cbn [String.length]. rewrite Nat2Z.inj_succ, Z.pow_succ_r by lia. destruct (Ascii.eqb c "_"%char).
  { destruct b; [|done]. destruct (IH acc false Ha H). pose proof (Z.pow_nonneg 16 (Z.of_nat (String.length s))). nia. }
  destruct (hex_value c) as [d|] eqn:Ed; [|done]. apply hex_value_range in Ed.
  destruct (IH (16 * acc + d) true ltac:(lia) H). pose proof (Z.pow_nonneg 16 (Z.of_nat (String.length s))). nia.
Qed.

Lemma strip_length s : (String.length (strip s) <= String.length s)%nat.
Proof.
  unfold strip, strip_by.
  assert (Hl : forall t, (String.length (lstrip is_space t) <= String.length t)%nat).
  { induction t as [|d t IH]; simpl; [lia|]. destruct (is_space d); simpl; lia. }
  assert (Hr : forall t, (String.length (rstrip is_space t) <= String.length t)%nat).
  { induction t as [|d t IH]; simpl; [lia|]. destruct (rstrip is_space t); [destruct (is_space d); simpl; lia|]. simpl in *. lia. }
  etransitivity; [apply Hr|apply Hl].
Qed.

Lemma int_16_range s z : (String.length s <= 32)%nat -> int_16 s = Some z -> 0 <= z < 2 ^ 128.
Proof.
  intros Hl H.
  assert (Hgo : forall t b, (String.length t <= 32)%nat -> hex_digits 0 b t = Some z -> 0 <= z < 2 ^ 128).
  { intros t b Ht Hz. apply hex_digits_range in Hz; [|lia].
    assert (16 ^ Z.of_nat (String.length t) <= 16 ^ 32) by (apply Z.pow_le_mono_r; lia).
    change (16 ^ 32) with (2 ^ 128) in *. lia. }
  unfold int_16 in H. pose proof (strip_length s) as Hs. set (u := strip s) in *.
  set (v := match u with String c r => if Ascii.eqb c "+"%char then r else u | "" => "" end) in *.
  assert (Hv : (String.length v <= 32)%nat).
  { unfold v. destruct u as [|c r]; [simpl; lia|]. destruct (Ascii.eqb c "+"%char); simpl in *; lia. }
  clearbody v. clear u Hs Hl.
  assert (Hcase : forall r, (String.length r <= 30)%nat -> (String.length (match r with String "_"%char r' => r' | _ => r end) <= 32)%nat).
  { intros r Hr. destruct r as [|c r]; [simpl; lia|]. simpl in Hr. repeat case_match; simpl in *; lia. }
  repeat (case_match; simpl in Hv; try (eapply Hgo; [|exact H]; simpl; lia)).
  all: eapply Hgo; [|exact H]; simpl; lia.
Qed.

Lemma uuid_of_json_range x t : uuid_of_json x = Some t -> 0 <= t < 2 ^ 128.
Proof.
  assert (Hu : forall s, uuid_of_text s = Some t -> 0 <= t < 2 ^ 128).
  { intros s. unfold uuid_of_text. destruct (Nat.eqb_spec (String.length (remove_all "-" (strip_by
      (fun c => Ascii.eqb c "{"%char || Ascii.eqb c "}"%char) (remove_all "uuid:" (remove_all "urn:" s))))) 32) as [E|]; [|done].
    apply int_16_range. lia. }
  destruct x; simpl; try done; apply Hu.
Qed.

(** The amount read is the entity's own, a positive integer of paise. *)
Definition amount_of (e : json) (q : Q) : Prop :=
  exists z, get "amount" e = Int z /\ 0 < z /\ (z < 10 ^ 24 -> (q == z # 100)%Q).

Lemma paise_to_inr_amount e q : paise_to_inr (get "amount" e) = Ok q -> amount_of e q.
Proof.
  intros H. destruct (get "amount" e) as [| |z| | | |] eqn:E; try done. exists z. split; [done|].
  assert (0 < z) by (simpl in H; destruct (z <=? 0) eqn:Ez; [done|lia]). split; [done|].
  intros Hz. destruct (paise_to_inr_exact z ltac:(lia)) as (q' & E' & Eq). congruence.
Qed.

Lemma paise_to_inr_refusal x err : paise_to_inr x = Err err -> err = Problem BusinessRule "payment_amount_unrecognized".
Proof. destruct x; simpl; try (by intros [= <-]). destruct (z <=? 0); [by intros [= <-]|done]. Qed.

Definition optional_identifier (o : option string) : Prop := forall s, o = Some s -> identifier s.

Lemma stripped_optional x : optional_identifier (stripped x).
Proof. intros s. apply stripped_identifier. Qed.

Lemma payment_tenant_ok raw hint t :
  payment_tenant raw hint = Some t -> hint = Some t \/ 0 <= t < 2 ^ 128.
Proof.
  unfold payment_tenant. intros H. destruct raw, hint; simplify_eq; try (by left); right; by apply uuid_of_json_range in H.
Qed.

(** Every refusal is one of the documented problems. *)
Definition refused_with (codes : list string) (e : error) : Prop :=
  exists code, e = Problem BusinessRule code /\ In code codes.

Ltac refused := simpl; eexists; split; [reflexivity|simpl; tauto].

(** What is read of a provider's event is well formed, and what cannot be read is
    refused with a problem of its own: a captured payment or a refund carries non-empty,
    stripped identifiers and a tenant that is a 128-bit UUID or the one the caller already
    knew, a dispute the identifier as it was sent, each the event's own positive amount in
    paise, in rupees.  The only other exception is a [ValueError] at a dispute's deadline
    that no [datetime] holds. *)
Theorem events_typed envelope hint :
  match extract_captured_payment envelope hint with
  | Ok p => identifier (payment_id p) /\ amount_of (entity "payment" envelope) (cp_amount_inr p)
      /\ cp_currency p = SUPPORTED_CURRENCY /\ (hint = Some (cp_tenant p) \/ 0 <= cp_tenant p < 2 ^ 128)
      /\ optional_identifier (cp_pack_id p) /\ optional_identifier (order_id p) /\ optional_identifier (token_id p)
  | Err e => refused_with ["payment_payload_unrecognized"; "payment_currency_unsupported";
                           "payment_amount_unrecognized"; "payment_tenant_unresolved"] e
  end
  /\ match extract_refund envelope with
     | Ok r => identifier (refund_id r) /\ identifier (rf_payment_id r)
         /\ amount_of (entity "refund" envelope) (rf_amount_inr r) /\ rf_currency r = SUPPORTED_CURRENCY
         /\ 0 <= rf_tenant r < 2 ^ 128
     | Err e => refused_with ["refund_payload_unrecognized"; "payment_currency_unsupported";
                              "payment_amount_unrecognized"; "payment_tenant_unresolved"] e
     end
  /\ match extract_dispute envelope with
     | Ok d => amount_of (entity "dispute" envelope) (dp_amount_inr d)
         /\ get "id" (entity "dispute" envelope) = Str (dispute_id d)
         /\ dp_phase d <> Some "" /\ dp_reason_code d <> Some ""
     | Err e => e = ValueError
         \/ refused_with ["dispute_payload_unrecognized"; "payment_currency_unsupported";
                          "payment_amount_unrecognized"] e
     end.
Proof.
  split; [|split].
  - unfold extract_captured_payment. set (e := entity "payment" envelope).
    destruct (is_dict e); simpl; [|refused].
    destruct (stripped (get "id" e)) as [pid|] eqn:Ei; [|refused].
    destruct (is_inr (get "currency" e)); simpl; [|refused].
    destruct (paise_to_inr (get "amount" e)) as [q|err] eqn:Ea; [|apply paise_to_inr_refusal in Ea as ->; refused].
    set (notes := if truthy _ then _ else _).
    destruct (payment_tenant (get NOTES_TENANT_KEY notes) hint) as [t|] eqn:Et; [|refused]. simpl.
    split; [by apply stripped_identifier in Ei|]. split; [by apply paise_to_inr_amount|]. split; [done|].
    split; [|split; [apply stripped_optional|split; apply stripped_optional]].
    by apply payment_tenant_ok in Et.
  - unfold extract_refund. set (e := entity "refund" envelope).
    destruct (is_dict e); simpl; [|refused].
    destruct (stripped (get "id" e)) as [rid|] eqn:Ei; [|refused].
    destruct (stripped (get "payment_id" e)) as [pid|] eqn:Ep; [|refused].
    destruct (is_inr (get "currency" e)); simpl; [|refused].
    destruct (paise_to_inr (get "amount" e)) as [q|err] eqn:Ea; [|apply paise_to_inr_refusal in Ea as ->; refused].
    destruct (uuid_of_json _) as [t|] eqn:Et; [|refused]. simpl.
    split; [by apply stripped_identifier in Ei|]. split; [by apply stripped_identifier in Ep|].
    split; [by apply paise_to_inr_amount|]. split; [done|by eapply uuid_of_json_range].
  - assert (Hn : forall x, nonempty x <> Some "").
    { intros x. destruct x; simpl; try done. destruct (String.eqb_spec s ""); [done|congruence]. }
    unfold extract_dispute. set (e := entity "dispute" envelope).
    destruct (get "id" e) as [| | | |did| |] eqn:Ei; try (right; refused).
    destruct (get "payment_id" e) as [| | | |pid| |]; try (right; refused).
    destruct (get "status" e) as [| | | |status| |]; try (right; refused).
    destruct (is_inr (get "currency" e)); simpl; [|right; refused].
    destruct (paise_to_inr (get "amount" e)) as [q|err] eqn:Ea; [|apply paise_to_inr_refusal in Ea as ->; right; refused].
    apply paise_to_inr_amount in Ea.
    destruct (get "respond_by" e) as [| |z| | | |]; simpl;
      try (split; [done|split; [done|split; apply Hn]]).
    unfold from_timestamp. destruct (_ && _); simpl; [|by left].
    split; [done|split; [done|split; apply Hn]].
Qed.

Example uuid_text_read :
  uuid_of_text (uuid_text 1512366075204170929049582354406559215) = Some 1512366075204170929049582354406559215
  /\ uuid_text 1512366075204170929049582354406559215 = "01234567-89ab-cdef-0123-456789abcdef".
Proof. vm_compute. done. Qed.

(** A captured payment as the provider sends it. *)
Example captured_event :
  extract_captured_payment
    (Obj [("event", Str "payment.captured");
          ("payload", Obj [("payment", Obj [("entity", Obj [
             ("id", Str " pay_29QQoUBi66xm2f "); ("amount", Int 200000); ("currency", Str "inr");
             ("order_id", Str "order_9A33XWu170gUtm"); ("international", Bool false);
             ("notes", Obj [("calevate_tenant_id", Str "01234567-89ab-cdef-0123-456789abcdef");
                            ("calevate_pack_id", Str "starter")])])])])]) None
  = Ok (Captured "pay_29QQoUBi66xm2f" 1512366075204170929049582354406559215 (inject_Z 2000) "INR"
          (Some "starter") (Some "order_9A33XWu170gUtm") false None).
Proof. vm_compute. reflexivity. Qed.
End Envelope.
