(* ===== verification/Payments.v ===== *)
(** * Crediting a captured payment

    apps/api/billing/payments.py.  A payment the provider captured becomes one top-up
    entry of the payer's ledger, the lot it opens, the bonus of the pack it pays for,
    the audit entries of both, and the account's first-payment consequences, all in
    one transaction under the tenant's credit lock.  The state joins the wallet's tables
    with the other tables this code writes. *)

From Stdlib Require Import ZArith Lia List QArith Lqa.
From stdpp Require Import base list strings gmap.
From S2P Require Import Prelude PyDecimal Sql PyTime AuditLog WalletDb RateCard Lots Ledger Wallet Envelope.

Local Open Scope string_scope.
Local Open Scope list_scope.
Local Open Scope Z_scope.
Local Open Scope tx_scope.

Import Ledger Wallet Envelope.

Module Payments.

(** ** The tables *)

(** [refund_intents]: a refund the platform has committed to asking the provider for. *)
Record intent := Intent {
  in_id : uuid; in_tenant : uuid; in_payment_ref : string; in_key : string; in_amount : Q;
  failed_at : option instant; refund_ref : option string; in_created_at : instant }.

(** [payment_disputes]. *)
Record dispute_row := DisputeRow {
  dr_id : uuid; dr_tenant : uuid; dr_dispute_id : string; dr_payment_id : string; dr_amount : Q;
  dr_status : string; dr_phase : option string; dr_reason : option string;
  dr_respond_by : option instant; dr_hold : Q; dr_action_required : bool; dr_last_event : string;
  dr_created_at : instant }.

(** The database of a session that handles payments.  [fee_refs] are the payments of
    the monthly fee made through the provider, and [account] is whatever the first
    payment of an account changes. *)
Record pay {A : Type} := Pay {
  wallet : db; rates : RateCard.rates_db; refund_intents : list intent;
  payment_disputes : list dispute_row; audit_log : list Audit.row; fee_refs : list (uuid * string);
  account : A }.
Arguments pay A : clear implicits.

Definition with_wallet {A} w (s : pay A) : pay A :=
  Pay A w (rates s) (refund_intents s) (payment_disputes s) (audit_log s) (fee_refs s) (account s).
Definition with_intents {A} t (s : pay A) : pay A :=
  Pay A (wallet s) (rates s) t (payment_disputes s) (audit_log s) (fee_refs s) (account s).
Definition with_disputes {A} t (s : pay A) : pay A :=
  Pay A (wallet s) (rates s) (refund_intents s) t (audit_log s) (fee_refs s) (account s).
Definition with_audit {A} t (s : pay A) : pay A :=
  Pay A (wallet s) (rates s) (refund_intents s) (payment_disputes s) t (fee_refs s) (account s).

(** A computation on the wallet's tables, in the wider transaction. *)
Definition on_wallet {A B} (m : tx db B) : tx (pay A) B :=
  fun s => match m (wallet s) with
           | Ok (b, w) => Ok (b, with_wallet w s)
           | Err e => Err e
           end.

(** [s'] is [s] with the clock and the ids further on and, at most, messages queued:
    nothing of the wallet moved. *)
Record aside (s s' : db) : Prop := Aside {
  as_rls : rls s' = rls s;
  as_ledger : credit_ledger s' = credit_ledger s;
  as_lots : credit_lots s' = credit_lots s;
  as_lines : low_balance_lines s' = low_balance_lines s;
  as_order : order_ok s -> order_ok s';
  as_ids : exists k, forall n, ids s' n = ids s (k + n)%nat
}.

(** The tables of the payments code other than the wallet, the log and the account. *)
Record same_desk {A} (s s' : pay A) : Prop := SameDesk {
  sd_rates : rates s' = rates s;
  sd_intents : refund_intents s' = refund_intents s;
  sd_disputes : payment_disputes s' = payment_disputes s;
  sd_fees : fee_refs s' = fee_refs s
}.

(** What the payments code relies on of billing/first_payment.py: the consequences of
    a first payment leave the wallet, the refunds and the disputes as they are. *)
Class FirstPayment (A : Type) := {
  on_payment_credited : uuid -> Q -> string -> tx (pay A) bool;
  on_payment_credited_quiet : forall tenant amount via s b s',
    on_payment_credited tenant amount via s = Ok (b, s') ->
    aside (wallet s) (wallet s') /\ same_desk s s'
}.

Record TopUpResult := TopUp {
  tu_entry : uuid; tu_balance : Balance; recorded : bool; bonus_entry_id : option uuid;
  bonus_inr : option Q; bonus_clawed_back_inr : Q }.

Definition PROVIDER : string := "razorpay".
Definition PACK_BONUS_META_KIND : string := "credit_pack_bonus".

Section Credit.
Context {A : Type} `{FirstPayment A}.
(** HMAC-SHA256 and [json.dumps] of the audit log with its active key, and the terms
    on which bought credit lapses. *)
Context (hmac_hex : string -> string -> string) (dumps : Audit.payload -> string) (audit_key : string).
Context (terms : expiry_terms).

(** [write_audit] of a system action. *)
Definition audit_system (tenant_id : uuid) (action object_type object_id : string) (ip : option string) :
    tx (pay A) unit :=
  i ← on_wallet uuid7 ;
  t ← on_wallet clock_timestamp ;
  modify (fun s => with_audit
    (Audit.write_audit hmac_hex dumps audit_key i t action None (Some "system") (Some tenant_id)
       (Some object_type) (Some object_id) ip (audit_log s)) s).

(** [rate_card_at(session, at=datetime.now(UTC))]. *)
Definition rate_card_now : tx (pay A) (string -> LotRates) :=
  t ← on_wallet clock_timestamp ;
  card ← (fun s => lift (RateCard.card_at (rates s) t) s) ;
  ret (fun i => match List.find (fun c => String.eqb (fst c) i) card with
                | Some c => snd c
                | None => MkRates 0 0
                end).

Definition grant_pack_bonus (payment : CapturedPayment) (pack : RateCard.CreditPack)
    (paid_entry_id : uuid) (ip : option string) : tx (pay A) TopUpResult :=
  let tenant_id := cp_tenant payment in
  let bonus := RateCard.bonus_credits pack in
  if dle bonus 0 then
    b ← on_wallet (get_balance tenant_id) ;
    ret (TopUp paid_entry_id b true None None 0)
  else
    existing_bonus ← on_wallet (find_entry_by_ref tenant_id "bonus" [PWord (payment_id payment)]) ;
    match existing_bonus with
    | Some e =>
        b ← on_wallet (get_balance tenant_id) ;
        ret (TopUp paid_entry_id b true (Some (entry_id e)) (Some (entry_amount e)) 0)
    | None =>
        balance ← on_wallet (record_entry tenant_id bonus "bonus" (Some [PWord (payment_id payment)])
          [("kind", JText PACK_BONUS_META_KIND); ("source", JText PROVIDER);
           ("pack_id", JText (RateCard.pack_id pack)); ("paid_entry_id", JId paid_entry_id);
           ("amount_inr", JDec bonus)] false false) ;
        written ← on_wallet (find_entry_by_ref tenant_id "bonus" [PWord (payment_id payment)]) ;
        match written with
        | None => raise AssertionError
        | Some w =>
            card ← rate_card_now ;
            on_wallet (apply_credit_to_lots terms tenant_id bonus (amount_inr balance)
              (RateCard.list_rates card) "bonus_legacy" (Some (RateCard.pack_id pack)) (entry_id w) None None) ;;
            audit_system tenant_id "credit.pack_bonus" "credit_ledger" (uuid_text (entry_id w)) ip ;;
            ret (TopUp paid_entry_id balance true (Some (entry_id w)) (Some bonus) 0)
        end
    end.

Definition credit_captured_payment (payment : CapturedPayment) (ip : option string) :
    tx (pay A) TopUpResult :=
  let tenant_id := cp_tenant payment in
  let amount := cp_amount_inr payment in
  existing ← on_wallet (find_topup tenant_id [PWord (payment_id payment)]) ;
  match existing with
  | Some e =>
      if negb (deq (entry_amount e) amount) then raise (Problem Conflict "payment_amount_conflict")
      else
        b ← on_wallet (get_balance tenant_id) ;
        ret (TopUp (entry_id e) b false None None 0)
  | None =>
      let pack := RateCard.pack_paid_for (cp_pack_id payment) amount in
      let paid_meta := [("source", JText PROVIDER); ("currency", JText (cp_currency payment))]
        ++ match pack, cp_pack_id payment with
           | Some p, _ => [("pack_id", JText (RateCard.pack_id p))]
           | None, Some i => [("unhonoured_pack_id", JText i)]
           | None, None => []
           end in
      balance ← on_wallet (record_entry tenant_id amount "topup" (Some [PWord (payment_id payment)])
                             paid_meta false false) ;
      written ← on_wallet (find_topup tenant_id [PWord (payment_id payment)]) ;
      match written with
      | None => raise AssertionError
      | Some w =>
          card ← rate_card_now ;
          on_wallet (apply_credit_to_lots terms tenant_id amount (amount_inr balance)
            (RateCard.for_purchase card (option_map RateCard.pack_id pack) amount) "topup"
            (option_map RateCard.pack_id pack) (entry_id w) None None) ;;
          audit_system tenant_id "credit.topup" "credit_ledger" (uuid_text (entry_id w)) ip ;;
          on_payment_credited tenant_id amount "wallet_topup" ;;
          match pack with
          | None => ret (TopUp (entry_id w) balance true None None 0)
          | Some p => grant_pack_bonus payment p (entry_id w) ip
          end
      end
  end.
End Credit.

(** ** Steps aside *)

Lemma aside_refl s : aside s s.
Proof. constructor; try done. by exists 0%nat. Qed.

Lemma aside_trans s1 s2 s3 : aside s1 s2 -> aside s2 s3 -> aside s1 s3.
Proof.
  intros [R1 L1 C1 B1 O1 [k1 I1]] [R2 L2 C2 B2 O2 [k2 I2]]. constructor; try congruence; [auto|].
  exists (k1 + k2)%nat. intros n. rewrite I2, I1. f_equal. lia.
Qed.

Lemma aside_tick s : aside s (tick s).
Proof. constructor; try done; [apply order_ok_tick|by exists 0%nat]. Qed.

Lemma aside_drop_id s : aside s (drop_id s).
Proof. constructor; try done; [apply order_ok_drop_id|by exists 1%nat]. Qed.

Lemma clock_aside s t s' : clock_timestamp s = Ok (t, s') -> aside s s'.
Proof. intros H. unfold clock_timestamp in H. tx_inv. apply aside_tick. Qed.

Lemma uuid7_aside s i s' : uuid7 s = Ok (i, s') -> aside s s'.
Proof. intros H. unfold uuid7 in H. tx_inv. apply aside_drop_id. Qed.

(** Whatever steps aside moves no money. *)
Lemma aside_moved s s' : tables_ok s -> aside s s' -> moved 0 0 s s'.
Proof.
  intros [[H1 H2 H3 H4 H5] Hw [L1 L2 L3]] [R L C _ O [k I]].
  constructor; [|done|unfold lots_held; rewrite R, C; ring|unfold balance_held; rewrite R, L; ring|intros t _; by rewrite C, L].
  constructor; [constructor; rewrite ?L; auto|by rewrite C|constructor; rewrite ?C, ?L; try done].
  intros e i n He Hm. rewrite I. by apply (L2 e i).
Qed.

Lemma aside_owing owed s s' : owing owed s -> aside s s' -> owing owed s'.
Proof. intros Hw Ha. eapply owing_moved_0; [exact Hw|]. apply aside_moved; [apply Hw|done]. Qed.

Lemma aside_wallet_ok s s' : wallet_ok s -> aside s s' -> wallet_ok s'.
Proof. rewrite <- !owing_0. apply aside_owing. Qed.

Lemma aside_held s s' : aside s s' -> balance_held s' = balance_held s.
Proof. intros [R L _ _ _ _]. unfold balance_held. by rewrite R, L. Qed.

Lemma same_desk_refl {A} (s : pay A) : same_desk s s.
Proof. done. Qed.
Lemma same_desk_trans {A} (s1 s2 s3 : pay A) : same_desk s1 s2 -> same_desk s2 s3 -> same_desk s1 s3.
Proof. intros [] []. constructor; congruence. Qed.

(** The desk of the last state of a run is that of the first. *)
Ltac desk :=
  repeat match goal with D : same_desk _ _ |- _ => destruct D end;
  constructor; simpl in *; congruence.

Lemma on_wallet_ok {A B} (m : tx db B) (s : pay A) b s' :
  on_wallet m s = Ok (b, s') <-> exists w, m (wallet s) = Ok (b, w) /\ s' = with_wallet w s.
Proof.
  unfold on_wallet. destruct (m (wallet s)) as [[b' w]|e]; split.
  - intros [= <- <-]. by exists w.
  - intros (w' & [= <- <-] & ->). done.
  - done.
  - intros (w & ? & _). done.
Qed.

Lemma on_wallet_run {A B} (m : tx db B) (s : pay A) b w :
  m (wallet s) = Ok (b, w) -> on_wallet m s = Ok (b, with_wallet w s).
Proof. intros E. unfold on_wallet. by rewrite E. Qed.

Lemma with_wallet_same {A} (s : pay A) : with_wallet (wallet s) s = s.
Proof. by destruct s. Qed.

(** ** A recorded entry is found *)

(** The entry a lookup by reference finds. *)
Definition entry_at (tenant : uuid) (reason : string) (r : ref) (s : db) : option LedgerEntryRef :=
  option_map (fun e => MkEntryRef (e_id e) (e_delta e)) (newest (has_ref tenant (rls s) reason r) (credit_ledger s)).

Lemma find_entry_at tenant reason r s : find_entry_by_ref tenant reason r s = Ok (entry_at tenant reason r s, s).
Proof. done. Qed.

Lemma aside_entry_at tenant reason r s s' : aside s s' -> entry_at tenant reason r s' = entry_at tenant reason r s.
Proof. intros [R L _ _ _ _]. unfold entry_at. by rewrite R, L. Qed.

Lemma same_ledger_entry_at tenant reason r s s' :
  rls s' = rls s -> credit_ledger s' = credit_ledger s -> entry_at tenant reason r s' = entry_at tenant reason r s.
Proof. intros R L. unfold entry_at. by rewrite R, L. Qed.

Lemma get_balance_eq s : get_balance (rls s) s
  = Ok (MkBalance (balance_now (rls s) s) (dlt (balance_now (rls s) s) (line_now (rls s) s)), s).
Proof.
  unfold get_balance, newest_balance, bind, gets, ret. fold (balance_now (rls s) s). by rewrite low_balance_line_eq.
Qed.

Lemma balance_now_held s : ledger_ok s -> (balance_now (rls s) s == balance_held s)%Q.
Proof. intros Hk. rewrite balance_now_eq. apply (lk_balance s Hk). Qed.

(** Recording under a reference: what is owed on the lots, and what lookups then find. *)
Lemma record_found owed s delta reason r meta an az b s' :
  owing owed s -> is_money delta -> deq delta 0 && negb az = false -> marks_old s reason meta ->
  record_entry (rls s) delta reason (Some r) meta an az s = Ok (b, s') ->
  owing (owed + delta) s' /\ rls s' = rls s /\ (amount_inr b == balance_held s')%Q
  /\ (balance_held s' == balance_held s + delta)%Q
  /\ (exists x, entry_at (rls s) reason r s' = Some x /\ (entry_amount x == delta)%Q /\ entry_id x = ids s 0%nat)
  /\ (forall reason' r', (reason', r') <> (reason, r) ->
        entry_at (rls s) reason' r' s' = entry_at (rls s) reason' r' s)
  /\ (exists e, credit_ledger s' = credit_ledger s ++ [e] /\ e_tenant e = rls s /\ e_reason e = reason
        /\ (e_delta e == delta)%Q /\ e_meta e = meta
        /\ newest (has_ref (rls s') (rls s') reason r) (credit_ledger s') = Some e)
  /\ (an = false -> (delta < 0)%Q -> (0 <= amount_inr b)%Q).
Proof.
  intros Hw Hm Hz Hold H. pose proof (ow_tables _ _ Hw) as Ht.
  destruct (record_entry_moved s delta reason (Some r) meta an az b s' Ht Hm Hold H Hz) as (Hmv & Hb & _ & He & Hneg).
  pose proof (record_owing owed s delta reason (Some r) meta an az b s' Hw Hm Hold H Hz) as Ho.
  destruct He as (e & El & Ei & Et & Ed & Er & Ef & Em). pose proof (mv_rls _ _ _ _ Hmv) as Hr.
  split; [done|]. split; [done|]. split; [done|]. split; [apply (mv_ledger _ _ _ _ Hmv)|].
  assert (Hnew : newest (has_ref (rls s') (rls s') reason r) (credit_ledger s') = Some e).
  { rewrite El, newest_append; [done| |].
    + unfold has_ref, own. rewrite Et, Hr, Er, Ef, Z.eqb_refl, !bool_decide_true by done. done.
    + intros x Hx. pose proof (record_entry_ok _ _ _ _ _ _ _ _ _ _ H Hz) as [Hrec _].
      destruct (recorded_amounts _ _ _ _ _ _ _ _ (tb_ledger _ Ht) Hm Hrec) as (_ & e' & El' & _ & _ & _ & _ & Ei' & Eo' & _).
      rewrite El in El'. apply app_inj_tail in El' as [_ <-]. rewrite Ei', Eo'.
      split; [by apply (oo_row_ticks s (lk_order s (tb_ledger _ Ht)))|by apply (oo_row_ids s (lk_order s (tb_ledger _ Ht)))]. }
  split; [|split; [|split; [by exists e|done]]].
  - exists (MkEntryRef (e_id e) (e_delta e)). split; [|split; [done|done]].
    unfold entry_at. rewrite <- Hr, Hnew. done.
  - intros reason' r' Hne. unfold entry_at. rewrite El, Hr, newest_skip; [done|].
    unfold has_ref. rewrite Er, Ef. destruct (decide (reason = reason')) as [<-|];
      [|by rewrite (bool_decide_false (reason = reason')), andb_false_r by done].
    assert (r <> r') by congruence. rewrite (bool_decide_false (Some r = Some r')) by congruence. by rewrite andb_false_r.
Qed.

(** Reading the balance back. *)
Definition balance_read (w : db) : Balance :=
  MkBalance (balance_now (rls w) w) (dlt (balance_now (rls w) w) (line_now (rls w) w)).

Lemma read_balance_run {A B} (f : Balance -> B) (s : pay A) :
  bind (on_wallet (get_balance (rls (wallet s)))) (fun b => ret (f b)) s = Ok (f (balance_read (wallet s)), s).
Proof. unfold bind. by rewrite (on_wallet_run _ s _ _ (get_balance_eq (wallet s))), with_wallet_same. Qed.

Lemma read_balance {A B} (f : Balance -> B) (s s' : pay A) x :
  bind (on_wallet (get_balance (rls (wallet s)))) (fun b => ret (f b)) s = Ok (x, s') ->
  s' = s /\ x = f (balance_read (wallet s)).
Proof. rewrite read_balance_run. by intros [= <- <-]. Qed.

(** ** Crediting *)

Section CreditLaws.
Context {A : Type} {HFP : FirstPayment A}.
Context (hmac_hex : string -> string -> string) (dumps : Audit.payload -> string) (audit_key : string).
Context (terms : expiry_terms).
Abbreviation audit_system := (audit_system (A := A) hmac_hex dumps audit_key).
Abbreviation grant_pack_bonus := (grant_pack_bonus (A := A) hmac_hex dumps audit_key terms).
Abbreviation credit_captured_payment := (credit_captured_payment (A := A) hmac_hex dumps audit_key terms).

(** The wallet stepped aside and the desk is as it was. *)
Definition quiet (s s' : pay A) : Prop := aside (wallet s) (wallet s') /\ same_desk s s'.

Lemma quiet_trans s1 s2 s3 : quiet s1 s2 -> quiet s2 s3 -> quiet s1 s3.
Proof. intros [] []. split; [by eapply aside_trans|by eapply same_desk_trans]. Qed.

Lemma on_wallet_quiet {B} (m : tx db B) s b s' :
  (forall w b w', m w = Ok (b, w') -> aside w w') -> on_wallet m s = Ok (b, s') -> quiet s s'.
Proof. intros Hm H. apply on_wallet_ok in H as (w & Hw & ->). split; [by eapply Hm|done]. Qed.

Lemma audit_system_quiet t a ot oi ip s u s' : audit_system t a ot oi ip s = Ok (u, s') -> quiet s s'.
Proof.
  intros H. unfold Payments.audit_system in H. apply bind_ok in H as (i & s1 & H1 & H).
  apply bind_ok in H as (k & s2 & H2 & H). apply modify_ok in H as ->.
  eapply quiet_trans; [eapply on_wallet_quiet; [apply uuid7_aside|exact H1]|].
  apply (on_wallet_quiet _ _ _ _ clock_aside) in H2 as [? []]. done.
Qed.

Lemma rate_card_now_quiet s c s' : rate_card_now (A := A) s = Ok (c, s') -> quiet s s'.
Proof.
  intros H. unfold rate_card_now in H. apply bind_ok in H as (t & s1 & H1 & H).
  apply bind_ok in H as (card & s2 & H2 & H). apply lift_ok in H2 as [_ ->]. apply ret_ok in H as [_ ->].
  by apply (on_wallet_quiet _ _ _ _ clock_aside) in H1.
Qed.

(** Recording a credit, stepping aside, and putting it on the lots. *)
Lemma nonzero c az : (0 < c)%Q -> deq c 0 && negb az = false.
Proof. intros H. destruct (deq_spec c 0); [lra|reflexivity]. Qed.

Lemma credit_lands w c reason r meta az b w1 w2 rates_ src pack eid restate cl w3 :
  wallet_ok w -> is_money c -> (0 < c < numeric_limit)%Q -> marks_old w reason meta ->
  record_entry (rls w) c reason (Some r) meta false az w = Ok (b, w1) ->
  aside w1 w2 ->
  apply_credit_to_lots terms (rls w) c (amount_inr b) rates_ src pack eid restate None w2 = Ok (cl, w3) ->
  wallet_ok w3 /\ rls w3 = rls w /\ (balance_held w3 == balance_held w + c)%Q
  /\ (amount_inr b == balance_held w3)%Q
  /\ (exists x, entry_at (rls w) reason r w3 = Some x /\ (entry_amount x == c)%Q
        /\ entry_at (rls w) reason r w1 = Some x)
  /\ (forall reason' r', (reason', r') <> (reason, r) ->
        entry_at (rls w) reason' r' w3 = entry_at (rls w) reason' r' w)
  /\ credit_ledger w3 = credit_ledger w1.
Proof.
  intros Hw Hm Hc Hr H Ha Hl. apply owing_0 in Hw.
  destruct (record_found 0 w c reason r meta false az b w1 Hw Hm (nonzero c az (proj1 Hc)) Hr H)
    as (Ho & Hr1 & Hb & Hbal & (x & Hx & Hxc & _) & Hother & _).
  assert (Ho2 : owing c w2) by (eapply owing_eq; [|eapply aside_owing; [exact Ho|exact Ha]]; ring).
  pose proof (as_rls _ _ Ha) as Hr2. rewrite <- Hr1, <- Hr2 in Hl.
  eapply apply_credit_spec in Hl as (Hok & Hr3 & Hg & _); [|exact Ho2|exact Hm|exact Hc|by rewrite (aside_held _ _ Ha)].
  assert (Hg1 : credit_ledger w3 = credit_ledger w1) by by rewrite Hg, (as_ledger _ _ Ha).
  assert (Hr31 : rls w3 = rls w1) by congruence.
  assert (Hb3 : balance_held w3 = balance_held w1) by (unfold balance_held; by rewrite Hr31, Hg1).
  split; [done|]. split; [congruence|]. split; [by rewrite Hb3|]. split; [by rewrite Hb3|].
  split; [exists x; by rewrite (same_ledger_entry_at _ _ _ w1 w3 Hr31 Hg1)|].
  split; [|done]. intros reason' r' Hne. rewrite (same_ledger_entry_at _ _ _ w1 w3 Hr31 Hg1). by apply Hother.
Qed.

(** The payments a provider captures, as [extract_captured_payment] reads them. *)
Record payment_ok (p : CapturedPayment) : Prop := PaymentOk {
  po_money : is_money (cp_amount_inr p);
  po_amount : (0 < cp_amount_inr p < numeric_limit)%Q
}.

(** What a pack adds to a payment: its bonus, unless the payment has one already. *)
Definition bonus_due (p : CapturedPayment) (pack : RateCard.CreditPack) (w : db) : Q :=
  let b := RateCard.bonus_credits pack in
  if dle b 0 then 0%Q
  else match entry_at (cp_tenant p) "bonus" [PWord (payment_id p)] w with Some _ => 0%Q | None => b end.

Lemma grant_pack_bonus_spec p pack eid ip s r s' :
  wallet_ok (wallet s) -> cp_tenant p = rls (wallet s) -> (RateCard.bonus_credits pack < numeric_limit)%Q ->
  grant_pack_bonus p pack eid ip s = Ok (r, s') ->
  wallet_ok (wallet s') /\ rls (wallet s') = rls (wallet s)
  /\ (balance_held (wallet s') == balance_held (wallet s) + bonus_due p pack (wallet s))%Q
  /\ same_desk s s' /\ tu_entry r = eid /\ recorded r = true /\ (amount_inr (tu_balance r) == balance_held (wallet s'))%Q
  /\ entry_at (cp_tenant p) "topup" [PWord (payment_id p)] (wallet s')
     = entry_at (cp_tenant p) "topup" [PWord (payment_id p)] (wallet s).
Proof.
  intros Hw Ht Hlim H. unfold Payments.grant_pack_bonus in H. cbv zeta in H. unfold bonus_due.
  set (b := RateCard.bonus_credits pack) in *. rewrite Ht in *.
  assert (Hk : ledger_ok (wallet s)) by (apply owing_0 in Hw; apply (tb_ledger _ (ow_tables _ _ Hw))).
  destruct (dle_spec b 0) as [Hz|Hz].
  { apply (read_balance (fun bl => TopUp eid bl true None None 0)) in H as [-> ->]. simpl.
    split; [done|]. split; [done|]. split; [ring|]. split; [done|]. split; [done|]. split; [done|].
    split; [by apply balance_now_held|done]. }
  apply bind_ok in H as (found & s1 & Hf & H). apply on_wallet_ok in Hf as (w1 & Hf & ->).
  rewrite find_entry_at in Hf. injection Hf as <- <-. rewrite with_wallet_same in H.
  destruct (entry_at (rls (wallet s)) "bonus" [PWord (payment_id p)] (wallet s)) as [x|] eqn:Ex.
  { apply (read_balance (fun bl => TopUp eid bl true (Some (entry_id x)) (Some (entry_amount x)) 0)) in H as [-> ->]. simpl.
    split; [done|]. split; [done|]. split; [ring|]. split; [done|]. split; [done|]. split; [done|].
    split; [by apply balance_now_held|done]. }
  apply bind_ok in H as (bal & s1 & Hr & H). apply on_wallet_ok in Hr as (w1 & Hr & ->).
  apply bind_ok in H as (wr & s1 & Hf & H). apply on_wallet_ok in Hf as (w1' & Hf & ->).
  rewrite find_entry_at in Hf. injection Hf as <- <-. cbn [wallet with_wallet] in H.
  destruct (entry_at (rls (wallet s)) "bonus" [PWord (payment_id p)] w1) as [e|]; [|by apply raise_ok in H].
  apply bind_ok in H as (card & s2 & Hc & H). apply rate_card_now_quiet in Hc as [Ha Hd]. simpl in Ha.
  apply bind_ok in H as (cl & s3 & Hl & H). apply on_wallet_ok in Hl as (w3 & Hl & ->).
  apply bind_ok in H as (u & s4 & Hau & H). apply audit_system_quiet in Hau as [Ha' Hd']. apply ret_ok in H as [-> ->].
  simpl in Ha'. assert (Hbm : is_money b) by (unfold b, RateCard.bonus_credits; apply is_money_quantize).
  destruct (credit_lands (wallet s) b "bonus" _ _ _ bal w1 (wallet s2) _ _ _ _ _ cl w3 Hw Hbm ltac:(lra)
              (marks_old_reason _ "bonus" _ ltac:(discriminate)) Hr Ha Hl) as (H1 & H2 & H3 & H4 & _ & H5 & _).
  split; [by eapply aside_wallet_ok|]. split; [by rewrite (as_rls _ _ Ha')|].
  split; [by rewrite (aside_held _ _ Ha')|]. split; [|split; [done|split; [done|split; [by rewrite (aside_held _ _ Ha')|]]]].
  - desk.
  - rewrite (aside_entry_at _ _ _ _ _ Ha'). by apply H5.
Qed.

(** What the pack a payment pays for adds to it. *)
Definition bonus_added (p : CapturedPayment) (w : db) : Q :=
  match RateCard.pack_paid_for (cp_pack_id p) (cp_amount_inr p) with
  | Some pack => bonus_due p pack w
  | None => 0%Q
  end.

Lemma catalogue_bonus i amount pack :
  RateCard.pack_paid_for i amount = Some pack -> (RateCard.bonus_credits pack < numeric_limit)%Q.
Proof.
  intros Hp. assert (Hin : In pack RateCard.PACK_CATALOGUE).
  { unfold RateCard.pack_paid_for, RateCard.pack_by_id in Hp. destruct i as [i|]; [|done].
    destruct (last _) as [q|] eqn:E; [|done]. destruct (deq _ _); [|done]. injection Hp as ->.
    apply last_Some in E as [l E]. assert (In pack (l ++ [pack])) as Hl by (apply in_or_app; right; by left).
    rewrite <- E in Hl. by apply filter_In in Hl as [? _]. }
  clear Hp. simpl in Hin. repeat destruct Hin as [<-|Hin]; try reflexivity. destruct Hin.
Qed.

(** The answer to a payment already on the ledger. *)
Lemma credit_replay p ip s x :
  cp_tenant p = rls (wallet s) -> entry_at (cp_tenant p) "topup" [PWord (payment_id p)] (wallet s) = Some x ->
  credit_captured_payment p ip s
  = if deq (entry_amount x) (cp_amount_inr p)
    then Ok (TopUp (entry_id x) (balance_read (wallet s)) false None None 0, s)
    else Err (Problem Conflict "payment_amount_conflict").
Proof.
  intros Ht Hx. unfold Payments.credit_captured_payment. cbv zeta.
  erewrite bind_run; [|apply on_wallet_run; unfold find_topup; rewrite find_entry_at, Hx; reflexivity].
  rewrite with_wallet_same. destruct (deq (entry_amount x) (cp_amount_inr p)); cbn [negb]; [|done].
  rewrite Ht. apply (read_balance_run (fun b => TopUp (entry_id x) b false None None 0)).
Qed.

Lemma deq_proper_l a b c : (a == b)%Q -> deq a c = deq b c.
Proof. intros E. destruct (deq_spec a c) as [H1|H1], (deq_spec b c) as [H2|H2]; try done; exfalso; [apply H2|apply H1]; by rewrite <- ?E, ?E in *. Qed.

Lemma credit_spec p ip s r s' :
  wallet_ok (wallet s) -> cp_tenant p = rls (wallet s) -> payment_ok p ->
  credit_captured_payment p ip s = Ok (r, s') ->
  wallet_ok (wallet s') /\ rls (wallet s') = rls (wallet s) /\ same_desk s s'
  /\ (amount_inr (tu_balance r) == balance_held (wallet s'))%Q
  /\ (exists x, entry_at (cp_tenant p) "topup" [PWord (payment_id p)] (wallet s') = Some x
        /\ entry_id x = tu_entry r /\ (entry_amount x == cp_amount_inr p)%Q)
  /\ (if recorded r
      then entry_at (cp_tenant p) "topup" [PWord (payment_id p)] (wallet s) = None
        /\ (balance_held (wallet s') == balance_held (wallet s) + cp_amount_inr p + bonus_added p (wallet s))%Q
      else s' = s).
Proof.
  intros Hw Ht Hp H. assert (Hk : ledger_ok (wallet s)) by (apply owing_0 in Hw; apply (tb_ledger _ (ow_tables _ _ Hw))).
  destruct (entry_at (cp_tenant p) "topup" [PWord (payment_id p)] (wallet s)) as [x|] eqn:Ex.
  { rewrite (credit_replay p ip s x Ht Ex) in H. destruct (deq_spec (entry_amount x) (cp_amount_inr p)) as [E|]; [|done].
    injection H as <- <-. simpl. split; [done|]. split; [done|]. split; [done|]. split; [by apply balance_now_held|].
    split; [by exists x|done]. }
  destruct Hp as [Hm Ha]. unfold Payments.credit_captured_payment in H. cbv zeta in H.
  erewrite bind_run in H; [|apply on_wallet_run; unfold find_topup; rewrite find_entry_at, Ex; reflexivity].
  rewrite with_wallet_same in H. unfold bonus_added. set (pack := RateCard.pack_paid_for _ _) in *.
  set (amt := cp_amount_inr p) in *. rewrite Ht in *.
  apply bind_ok in H as (bal & s1 & Hr & H). apply on_wallet_ok in Hr as (w1 & Hr & ->).
  erewrite bind_run in H; [|apply on_wallet_run; unfold find_topup; rewrite find_entry_at; reflexivity].
  cbn [wallet with_wallet] in H.
  destruct (entry_at (rls (wallet s)) "topup" [PWord (payment_id p)] w1) as [e|] eqn:Ee; [|by apply raise_ok in H].
  apply bind_ok in H as (card & s2 & Hc & H). apply rate_card_now_quiet in Hc as [Hq Hd]. simpl in Hq.
  apply bind_ok in H as (cl & s3 & Hl & H). apply on_wallet_ok in Hl as (w3 & Hl & ->).
  apply bind_ok in H as (u & s4 & Hau & H). apply audit_system_quiet in Hau as [Hq' Hd']. simpl in Hq'.
  apply bind_ok in H as (fp & s5 & Hfp & H). apply on_payment_credited_quiet in Hfp as [Hq'' Hd''].
  destruct (credit_lands (wallet s) amt "topup" _ _ _ bal w1 (wallet s2) _ _ _ _ _ cl w3 Hw Hm Ha
              (marks_old_reason _ "topup" _ ltac:(discriminate)) Hr Hq Hl) as (H1 & H2 & H3 & H4 & (x & Hx & Hxa & Hx1) & H5 & _).
  pose proof (aside_trans _ _ _ Hq' Hq'') as Hq5. pose proof (aside_wallet_ok _ _ H1 Hq5) as H1'.
  assert (Hds : same_desk s s5) by desk. clear Hd Hd' Hd''.
  assert (Hr5 : rls (wallet s5) = rls (wallet s)) by by rewrite (as_rls _ _ Hq5).
  assert (Hb5 : balance_held (wallet s5) = balance_held w3) by by apply aside_held.
  assert (Hx5 : forall reason' r', entry_at (rls (wallet s)) reason' r' (wallet s5) = entry_at (rls (wallet s)) reason' r' w3)
    by (intros; by apply aside_entry_at).
  assert (Hxe : e = x) by congruence. subst x.
  destruct pack as [pk|] eqn:Epk.
  2:{ apply ret_ok in H as [-> ->]. simpl. split; [done|]. split; [done|]. split; [done|]. split; [by rewrite Hb5|].
      split; [exists e; rewrite Hx5; done|]. split; [done|]. rewrite Hb5, H3. ring. }
  rewrite <- Hr5 in Ht. pose proof (catalogue_bonus _ _ _ Epk) as Hlim.
  destruct (grant_pack_bonus_spec p pk (entry_id e) ip s5 r s' H1' Ht Hlim H) as (G1 & G2 & G3 & G4 & G5 & G6 & G7 & G8).
  rewrite Ht, Hr5 in G8. split; [done|]. split; [congruence|]. split; [by eapply same_desk_trans|]. split; [done|].
  split; [exists e; rewrite G8, Hx5; done|]. rewrite G6. split; [done|].
  rewrite G3, Hb5, H3. unfold bonus_due. rewrite Ht, Hr5, Hx5, (H5 "bonus") by congruence. done.
Qed.

(** C1. A captured payment is credited once and in full.  When it is recorded, the
    balance rises by exactly the amount and the bonus of the pack it pays for, every
    wallet stays in balance and no refund or dispute is touched; from then
    on, however the event is delivered again, the same payment finds that entry and
    changes nothing, and one of a different amount is refused. *)
Theorem credit_once p ip s r s' :
  wallet_ok (wallet s) -> cp_tenant p = rls (wallet s) -> payment_ok p ->
  credit_captured_payment p ip s = Ok (r, s') ->
  wallet_ok (wallet s') /\ same_desk s s'
  /\ (amount_inr (tu_balance r) == balance_held (wallet s'))%Q
  /\ (if recorded r
      then (balance_held (wallet s') == balance_held (wallet s) + cp_amount_inr p + bonus_added p (wallet s))%Q
      else s' = s)
  /\ forall p' ip', payment_id p' = payment_id p -> cp_tenant p' = cp_tenant p ->
       credit_captured_payment p' ip' s'
       = if deq (cp_amount_inr p) (cp_amount_inr p')
         then Ok (TopUp (tu_entry r) (balance_read (wallet s')) false None None 0, s')
         else Err (Problem Conflict "payment_amount_conflict").
Proof.
  intros Hw Ht Hp H. destruct (credit_spec p ip s r s' Hw Ht Hp H) as (H1 & H2 & H3 & H4 & (x & Hx & Hi & Hxa) & H5).
  split; [done|]. split; [done|]. split; [done|]. split; [destruct (recorded r); [by destruct H5|done]|].
  intros p' ip' Ei Et. rewrite (credit_replay p' ip' s' x).
  - rewrite (deq_proper_l _ _ _ Hxa). by rewrite Hi.
  - congruence.
  - by rewrite Et, Ei.
Qed.
End CreditLaws.

(** ** Concrete instances *)
Module Example.
(** An account on which a first payment changes nothing. *)
#[export] Instance plain_account : FirstPayment unit.
Proof.
  refine {| on_payment_credited := fun _ _ _ => ret false |}.
  intros tenant amount via s b s' H. apply ret_ok in H as [_ ->]. split; [apply aside_refl|done].
Defined.

Definition desk0 : pay unit := Pay unit (blank_db 7) (RateCard.RatesDb [] []) [] [] [] [] tt.
Definition credit : CapturedPayment -> option string -> tx (pay unit) TopUpResult :=
  credit_captured_payment (A := unit) Audit.Example.keyed Audit.Example.dumps "key" Wallet.Example.accepted_terms.
Definition starter_payment : CapturedPayment :=
  Captured "pay_1" 7 (inject_Z 2000) "INR" (Some "starter") None false None.
(** The wallet after its first payment. *)
Definition paid : pay unit :=
  match credit starter_payment None desk0 with Ok (_, s) => s | Err _ => desk0 end.

Lemma paid_run : exists r, credit starter_payment None desk0 = Ok (r, paid).
Proof.
  assert (is_ok (credit starter_payment None desk0) = true) as E by (vm_compute; reflexivity).
  unfold paid. destruct (credit starter_payment None desk0) as [[r s]|]; [by exists r|done].
Qed.

Lemma starter_payment_ok : payment_ok starter_payment.
Proof. constructor; [by exists 20000000|split; reflexivity]. Qed.

Lemma paid_ok : wallet_ok (wallet paid) /\ rls (wallet paid) = 7.
Proof.
  destruct paid_run as (r & E). unfold credit in E.
  destruct (credit_spec Audit.Example.keyed Audit.Example.dumps "key" Wallet.Example.accepted_terms starter_payment None desk0 r paid
              (blank_wallet_ok 7) eq_refl starter_payment_ok E) as (H1 & H2 & _).
  split; [exact H1|exact H2].
Qed.
End Example.
Import Example.

Lemma credit_once_witness :
  exists r, credit starter_payment None desk0 = Ok (r, paid) /\ wallet_ok (wallet paid)
    /\ (amount_inr (tu_balance r) == balance_held (wallet paid))%Q
    /\ exists r', credit starter_payment (Some "10.0.0.1") paid = Ok (r', paid) /\ recorded r' = false.
Proof.
  destruct paid_run as (r & E). exists r. split; [exact E|]. unfold credit in *.
  destruct (credit_once Audit.Example.keyed Audit.Example.dumps "key" Wallet.Example.accepted_terms starter_payment None desk0 r paid
              (blank_wallet_ok 7) eq_refl starter_payment_ok E) as (H1 & _ & H3 & _ & H5).
  split; [exact H1|]. split; [exact H3|].
  specialize (H5 starter_payment (Some "10.0.0.1") eq_refl eq_refl).
  assert (deq (cp_amount_inr starter_payment) (cp_amount_inr starter_payment) = true) as Eq by (vm_compute; reflexivity).
  rewrite Eq in H5. eexists. split; [exact H5|reflexivity].
Defined.
End Payments.
