(* ===== verification/AutoRecharge.v ===== *)
(** * Automatic recharge

    apps/api/billing/auto_recharge.py: a client approves a payment method once (the
    mandate), and the platform asks the provider for a payment whenever the wallet falls
    below a threshold, within the month's limit and one at a time.  The provider is asked
    between transactions, so other sessions commit in between: the run of
    [maybe_start_recharge] takes what they do, and what the provider answers, as
    arguments.  A charge is [pending] until the provider's event settles it; one given up
    on may still be captured. *)

From Stdlib Require Import ZArith Lia List QArith Lqa.
From stdpp Require Import base list strings relations.
From S2P Require Import Prelude PyDecimal Sql PyTime Outbox AuditLog WalletDb RateCard Lots Ledger Wallet Envelope Payments.

Local Open Scope string_scope.
Local Open Scope list_scope.
Local Open Scope Z_scope.
Local Open Scope tx_scope.

Import Ledger Payments.

Module AutoRecharge.

Definition PAYMENT_NOTICE_JOB : string := "send_payment_notice".
Definition CHARGE_ANSWER_WINDOW : Z := 3 * US_PER_DAY.
Definition CHARGE_MAY_HAVE_MOVED_CODES : list string :=
  ["payment_provider_unreachable"; "payment_provider_server_error"; "payment_provider_unreadable"].
Definition DEFAULT_THRESHOLD_INR : Q := 500.
Definition DEFAULT_AMOUNT_INR : Q := 2000.
Definition DEFAULT_MONTHLY_CAP_INR : Q := 6000.
Definition RECHARGE_DAYS : Q := 7.
Definition CAP_RECHARGES : Q := 4.
Definition RECHARGE_LAG_DAYS : Q := 3 # 2.
Definition USAGE_WINDOW_DAYS : Z := 14.
Definition MIN_TOPUP_INR : Q := 100.
Definition MAX_TOPUP_INR : Q := 100000.
Definition MANDATE_MAX_DEBIT_INR : Q := 15000.
Definition MANDATE_AUTH_AMOUNT_INR : Q := 1.
Definition ENDED_REASON (status : string) : option string :=
  if String.eqb status "rejected" then Some "Your bank or UPI app did not approve the automatic payment."
  else if String.eqb status "cancelled" then Some "The automatic payment approval was cancelled."
  else if String.eqb status "paused" then Some "The automatic payment approval was paused in your UPI app."
  else None.
Definition DISABLED_REASON : string :=
  "Auto-recharge is off because the last automatic payments did not go through.".
Definition token_status_of_event (event : string) : option string :=
  if String.eqb event "token.confirmed" then Some "confirmed"
  else if String.eqb event "token.rejected" then Some "rejected"
  else if String.eqb event "token.cancelled" then Some "cancelled"
  else if String.eqb event "token.paused" then Some "paused"
  else None.

(** [x IS NOT NULL]. *)
Definition is_given {X} (o : option X) : bool := match o with Some _ => true | None => false end.

(** ** The tables *)

Record settings := Settings {
  ar_id : uuid; ar_tenant : uuid; enabled : bool; threshold_inr : Q; ar_amount : Q; monthly_cap_inr : Q;
  customer_id : option string; token_id : option string; mandate_method : option string; mandate_status : string;
  mandate_max_inr : option Q; mandate_order_id : option string; consecutive_failures : Z;
  disabled_reason : option string; authorised_by : option uuid }.

Record charge := Charge {
  ch_id : uuid; ch_tenant : uuid; order_id : string; ch_payment_id : option string; ch_amount : Q;
  ch_status : string; failure_code : option string; settled_at : option instant; ch_created_at : instant }.

(** [razorpay_object_routes]. *)
Record route := Route {
  ro_id : uuid; ro_tenant : uuid; object_id : string; ro_kind : string; purpose : option string;
  amount_paise : option Z }.

Record recharge {A : Type} := Recharge {
  desk : pay A; auto_recharge_settings : list settings; auto_recharge_charges : list charge;
  object_routes : list route }.
Arguments recharge A : clear implicits.

Section Tables.
Context {A : Type}.
Implicit Types s : recharge A.

Definition with_desk d s : recharge A := Recharge A d (auto_recharge_settings s) (auto_recharge_charges s) (object_routes s).
Definition with_settings t s : recharge A := Recharge A (desk s) t (auto_recharge_charges s) (object_routes s).
Definition with_charges t s : recharge A := Recharge A (desk s) (auto_recharge_settings s) t (object_routes s).
Definition with_routes t s : recharge A := Recharge A (desk s) (auto_recharge_settings s) (auto_recharge_charges s) t.

(** A computation of the payments' tables, in the wider transaction. *)
Definition on_desk {B} (m : tx (pay A) B) : tx (recharge A) B :=
  fun s => match m (desk s) with Ok (b, d) => Ok (b, with_desk d s) | Err e => Err e end.
Definition on_wallet_of {B} (m : tx db B) : tx (recharge A) B := on_desk (on_wallet m).
Definition session_tenant : tx (recharge A) uuid := gets (fun s => rls (wallet (desk s))).
Definition txn_now : tx (recharge A) instant := gets (fun s => now (wallet (desk s))).
Definition new_id : tx (recharge A) uuid := on_wallet_of WalletDb.uuid7.
Definition column (q : Q) : tx (recharge A) Q := lift (numeric_12_4 q).
Definition column_opt (q : option Q) : tx (recharge A) (option Q) :=
  match q with None => ret None | Some q => x ← column q ; ret (Some x) end.

(** [_notice]. *)
Definition notice (tenant_id : uuid) (kind : string) (amount_inr : option Q) (reason : option string) : tx (recharge A) unit :=
  on_wallet_of (enqueue PAYMENT_NOTICE_JOB
    [("tenant_id", JId tenant_id); ("kind", JText kind);
     ("amount_inr", match amount_inr with Some q => JDec (to_paise q) | None => JNull end);
     ("reason", match reason with Some r => JText r | None => JNull end)]).

(** [payment_objects.record_route]: the id is unique at the provider, and a replayed
    write keeps the first row. *)
Definition route_check (x : route) : bool :=
  bool_decide (ro_kind x ∈ ["order"; "token"; "customer"])
  && match purpose x with
     | None => true
     | Some p => bool_decide (p ∈ ["topup"; "mandate"; "auto_recharge"; "platform_fee"])
     end
  && match amount_paise x with None => true | Some n => 0 <? n end
  && Bool.eqb (String.eqb (ro_kind x) "order") (is_given (amount_paise x)).

Definition record_route (tenant_id : uuid) (oid kind : string) (purpose_ : option string) (amount_inr : option Q) :
    tx (recharge A) unit :=
  i ← new_id ;
  paise ← match amount_inr with
          | None => ret None
          | Some q => n ← lift (Envelope.Envelope.inr_to_paise (Envelope.Envelope.Dec q)) ; ret (Some n)
          end ;
  let x := Route i tenant_id oid kind purpose_ paise in
  on_wallet_of (own_tenant tenant_id) ;;
  if negb (route_check x) then raise (CheckViolation "razorpay_object_routes")
  else
    t ← gets object_routes ;
    if existsb (fun y => String.eqb (object_id y) oid) t then ret tt
    else modify (with_routes (t ++ [x])).

(** ** Reads *)

Definition mine {R} (tenant : R -> uuid) (r tenant_id : uuid) (x : R) : bool := (tenant x =? r) && (tenant x =? tenant_id).

(** [_settings_row]: the row is unique; FOR UPDATE makes the transaction's read the last word. *)
Definition settings_row (tenant_id : uuid) : tx (recharge A) (option settings) :=
  r ← session_tenant ; gets (fun s => head (select (mine ar_tenant r tenant_id) (auto_recharge_settings s))).

(** [ist_month_window(ist_billing_month(at))]: the IST month of an instant. *)
Definition month_start (t : instant) : instant :=
  let d := dt_date (to_ist t) in of_ist (DateTime (Date (year d) (month d) 1) 0).
Definition month_end (t : instant) : instant :=
  let d := dt_date (to_ist t) in
  of_ist (DateTime (if month d =? 12 then Date (year d + 1) 1 1 else Date (year d) (month d + 1) 1) 0).

Definition counted_in (t : instant) (x : charge) : bool :=
  bool_decide (ch_status x ∈ ["pending"; "captured"]) && (month_start t <=? ch_created_at x) && (ch_created_at x <? month_end t).
Definition month_spent (tenant_id : uuid) (at_ : instant) : tx (recharge A) Q :=
  r ← session_tenant ;
  gets (fun s => sum_over ch_amount (select (fun x => mine ch_tenant r tenant_id x && counted_in at_ x) (auto_recharge_charges s))).

Definition daily_usage (tenant_id : uuid) : tx (recharge A) Q :=
  r ← session_tenant ;
  n ← txn_now ;
  spent ← gets (fun s => sum_over e_delta
            (select (fun e => mine e_tenant r tenant_id e && String.eqb (e_reason e) "usage"
                              && (n - USAGE_WINDOW_DAYS * US_PER_DAY <=? e_occurred_at e)) (credit_ledger (wallet (desk s))))) ;
  ret (ddiv (- spent) (inject_Z USAGE_WINDOW_DAYS)).

Definition hundreds_up (value : Q) : Q :=
  let hundreds := inject_Z (round_int ROUND_CEILING (ddiv value 100)) in
  to_paise (dmax (dmul hundreds 100) 100).
Definition suggested_threshold (daily : Q) : option Q :=
  if dlt 0 daily then Some (hundreds_up (dmul daily RECHARGE_LAG_DAYS)) else None.

Record AutoRechargeDefaults := Defaults { d_threshold : Q; d_amount : Q; d_cap : Q }.
Definition from_usage (daily : Q) : AutoRechargeDefaults :=
  if dle daily 0 then Defaults DEFAULT_THRESHOLD_INR DEFAULT_AMOUNT_INR DEFAULT_MONTHLY_CAP_INR
  else
    let ceiling := dmin MAX_TOPUP_INR MANDATE_MAX_DEBIT_INR in
    let amount := dmin (dmax (hundreds_up (dmul daily RECHARGE_DAYS)) MIN_TOPUP_INR) ceiling in
    Defaults (hundreds_up (dmul daily RECHARGE_LAG_DAYS)) amount (dmul amount CAP_RECHARGES).

Record AutoRechargeState := ArState {
  as_enabled : bool; as_threshold : Q; as_amount : Q; as_cap : Q; as_mandate_status : string;
  as_method : option string; as_max : option Q; as_failures : Z; as_disabled_reason : option string;
  month_charged_inr : Q; pending_charge_inr : option Q; suggested_threshold_inr : option Q }.

Definition read_auto_recharge (tenant_id : uuid) : tx (recharge A) AutoRechargeState :=
  daily ← daily_usage tenant_id ;
  row ← settings_row tenant_id ;
  r ← session_tenant ;
  pending ← gets (fun s => head (select (fun x => mine ch_tenant r tenant_id x && String.eqb (ch_status x) "pending")
                                  (auto_recharge_charges s))) ;
  n ← on_wallet_of clock_timestamp ;
  spent ← month_spent tenant_id n ;
  ret (match row with
       | None =>
           let offered := from_usage daily in
           ArState false (d_threshold offered) (d_amount offered) (d_cap offered) "none" None None 0 None
             (to_paise spent) None (suggested_threshold daily)
       | Some x =>
           ArState (enabled x) (to_paise (threshold_inr x)) (to_paise (ar_amount x)) (to_paise (monthly_cap_inr x))
             (mandate_status x) (mandate_method x) (option_map to_paise (mandate_max_inr x)) (consecutive_failures x)
             (disabled_reason x) (to_paise spent) (option_map (fun c => to_paise (ch_amount c)) pending)
             (suggested_threshold daily)
       end).
End Tables.

(** ** Writes

    The CHECK constraints of the two tables hold of every row a statement writes. *)

Definition at_least_0 (q : Q) : bool := dle 0 q.
Definition settings_check (x : settings) : bool :=
  at_least_0 (threshold_inr x) && dlt 0 (ar_amount x) && dle (ar_amount x) (monthly_cap_inr x)
  && match mandate_method x with None => true | Some m => bool_decide (m ∈ ["upi"; "card"]) end
  && bool_decide (mandate_status x ∈ ["none"; "pending"; "confirmed"; "rejected"; "cancelled"; "paused"])
  && (negb (enabled x) || (String.eqb (mandate_status x) "confirmed" && is_given (token_id x)))
  && (0 <=? consecutive_failures x).

Definition is_pending (x : charge) : bool := String.eqb (ch_status x) "pending".
Definition charge_check (x : charge) : bool :=
  dlt 0 (ch_amount x) && bool_decide (ch_status x ∈ ["pending"; "captured"; "failed"])
  && Bool.eqb (is_pending x) (negb (is_given (settled_at x))).

Definition of_tenant (tenant_id : uuid) (x : settings) : bool := ar_tenant x =? tenant_id.

Section Writes.
Context {A : Type}.
Implicit Types s : recharge A.

Definition update_settings (p : settings -> bool) (f : settings -> settings) : tx (recharge A) (list settings) :=
  r ← session_tenant ;
  t ← gets auto_recharge_settings ;
  let q x := (ar_tenant x =? r) && p x in
  if existsb (fun x => negb (settings_check (f x))) (select q t) then raise (CheckViolation "auto_recharge_settings")
  else modify (with_settings (update q f t)) ;; ret (map f (select q t)).

(** [INSERT ... ON CONFLICT (tenant_id) DO UPDATE]: the proposed row is checked first. *)
Definition upsert_settings (x : settings) (f : settings -> settings) : tx (recharge A) unit :=
  on_wallet_of (own_tenant (ar_tenant x)) ;;
  if negb (settings_check x) then raise (CheckViolation "auto_recharge_settings")
  else
    t ← gets auto_recharge_settings ;
    if existsb (of_tenant (ar_tenant x)) t then update_settings (of_tenant (ar_tenant x)) f ;; ret tt
    else modify (with_settings (t ++ [x])).

(** [ON CONFLICT (tenant_id) WHERE status = 'pending' DO NOTHING]: whether the row went in. *)
Definition insert_charge (x : charge) : tx (recharge A) bool :=
  on_wallet_of (own_tenant (ch_tenant x)) ;;
  t ← gets auto_recharge_charges ;
  if negb (charge_check x) then raise (CheckViolation "auto_recharge_charges")
  else if existsb (fun y => is_pending y && (ch_tenant y =? ch_tenant x)) t then ret false
  else if existsb (fun y => ch_id y =? ch_id x) t then raise (UniqueViolation "pk_auto_recharge_charges")
  else if existsb (fun y => String.eqb (order_id y) (order_id x)) t
  then raise (UniqueViolation "auto_recharge_charges_order_id_key")
  else modify (with_charges (t ++ [x])) ;; ret true.

(** An UPDATE of the charges that keeps their order ids: the rows as they were. *)
Definition update_charges (p : charge -> bool) (f : charge -> charge) : tx (recharge A) (list charge) :=
  r ← session_tenant ;
  t ← gets auto_recharge_charges ;
  let q x := (ch_tenant x =? r) && p x in
  if existsb (fun x => negb (charge_check (f x))) (select q t) then raise (CheckViolation "auto_recharge_charges")
  else modify (with_charges (update q f t)) ;; ret (select q t).

Definition with_order (oid : string) (x : charge) : charge :=
  Charge (ch_id x) (ch_tenant x) oid (ch_payment_id x) (ch_amount x) (ch_status x) (failure_code x) (settled_at x)
    (ch_created_at x).
(** [UPDATE ... SET order_id = :oid WHERE id = :id], under the unique key. *)
Definition set_order (i : uuid) (oid : string) : tx (recharge A) unit :=
  r ← session_tenant ;
  t ← gets auto_recharge_charges ;
  let q x := (ch_tenant x =? r) && (ch_id x =? i) in
  if existsb q t && existsb (fun x => negb (q x) && String.eqb (order_id x) oid) t
  then raise (UniqueViolation "auto_recharge_charges_order_id_key")
  else modify (with_charges (update q (with_order oid) t)).
End Writes.

Section Operations.
Context {A : Type}.
(** The audit log's key, and the setting [auto_recharge_max_failures]. *)
Context (hmac_hex : string -> string -> string) (dumps : Audit.payload -> string) (audit_key : string).
Context (max_failures : Z).

(** [write_audit] with the kind of actor the caller names. *)
Definition write_audit (tenant_id : uuid) (action actor_type object_type object_id : string) (ip : option string) :
    tx (recharge A) unit :=
  i ← new_id ;
  t ← on_wallet_of clock_timestamp ;
  on_desk (modify (fun d => with_audit
    (Audit.write_audit hmac_hex dumps audit_key i t action None (Some actor_type) (Some tenant_id)
       (Some object_type) (Some object_id) ip (audit_log d)) d)).

(** ** Preferences and the mandate *)

Definition validate (threshold amount cap : Q) : tx (recharge A) unit :=
  if dlt threshold 0 then raise (Problem BusinessRule "auto_recharge_invalid")
  else
    let ceiling := dmin MAX_TOPUP_INR MANDATE_MAX_DEBIT_INR in
    if dlt amount MIN_TOPUP_INR || dlt ceiling amount then raise (Problem BusinessRule "auto_recharge_invalid")
    else if dlt cap amount then raise (Problem BusinessRule "auto_recharge_invalid")
    else ret tt.

Definition saved (en : bool) (th amt cap : Q) (x : settings) : settings :=
  Settings (ar_id x) (ar_tenant x) en th amt cap (customer_id x) (token_id x) (mandate_method x) (mandate_status x)
    (mandate_max_inr x) (mandate_order_id x) (if en then 0 else consecutive_failures x)
    (if en then None else disabled_reason x) (authorised_by x).

Definition save_auto_recharge (tenant_id : uuid) (en : bool) (threshold amount cap : Q) (ip : option string) :
    tx (recharge A) AutoRechargeState :=
  validate threshold amount cap ;;
  row ← settings_row tenant_id ;
  (if en then
     match row with
     | Some x =>
         if negb (String.eqb (mandate_status x) "confirmed") || negb (is_given (token_id x))
         then raise (Problem BusinessRule "auto_recharge_needs_mandate")
         else if match mandate_max_inr x with Some m => dlt m amount | None => false end
         then raise (Problem BusinessRule "auto_recharge_over_mandate")
         else ret tt
     | None => raise (Problem BusinessRule "auto_recharge_needs_mandate")
     end
   else ret tt) ;;
  i ← new_id ;
  th ← column threshold ;
  amt ← column amount ;
  cp ← column cap ;
  upsert_settings (Settings i tenant_id false th amt cp None None None "none" None None 0 None None) (saved en th amt cp) ;;
  write_audit tenant_id "auto_recharge.settings" "user" "auto_recharge_settings" (Envelope.Envelope.uuid_text tenant_id) ip ;;
  read_auto_recharge tenant_id.

(** The transaction of [begin_mandate], once the provider has made the customer and the
    authorisation order. *)
Definition authorising (cust method order : string) (mx : Q) (by_ : uuid) (x : settings) : settings :=
  Settings (ar_id x) (ar_tenant x) false (threshold_inr x) (ar_amount x) (monthly_cap_inr x) (Some cust) None (Some method)
    "pending" (Some mx) (Some order) (consecutive_failures x) (disabled_reason x) (Some by_).

Definition record_mandate (tenant_id user_id : uuid) (cust order method : string) (max_debit : Q) (ip : option string) :
    tx (recharge A) unit :=
  record_route tenant_id cust "customer" None None ;;
  record_route tenant_id order "order" (Some "mandate") (Some MANDATE_AUTH_AMOUNT_INR) ;;
  daily ← daily_usage tenant_id ;
  let offered := from_usage daily in
  i ← new_id ;
  th ← column (d_threshold offered) ;
  amt ← column (dmin (d_amount offered) max_debit) ;
  cp ← column (dmax (d_cap offered) max_debit) ;
  mx ← column max_debit ;
  upsert_settings
    (Settings i tenant_id false th amt cp (Some cust) None (Some method) "pending" (Some mx) (Some order) 0 None (Some user_id))
    (authorising cust method order mx user_id) ;;
  write_audit tenant_id "auto_recharge.mandate_started" "user" "auto_recharge_settings" order ip.

Definition with_token (tok : string) (x : settings) : settings :=
  Settings (ar_id x) (ar_tenant x) (enabled x) (threshold_inr x) (ar_amount x) (monthly_cap_inr x) (customer_id x) (Some tok)
    (mandate_method x) (mandate_status x) (mandate_max_inr x) (mandate_order_id x) (consecutive_failures x)
    (disabled_reason x) (authorised_by x).

Definition remember_token (tenant_id : uuid) (tok : string) : tx (recharge A) unit :=
  record_route tenant_id tok "token" None None ;;
  update_settings (fun x => of_tenant tenant_id x
                            && match token_id x with None => true | Some t => String.eqb t tok end) (with_token tok) ;;
  ret tt.

Definition note_mandate_payment (tenant_id : uuid) (order : string) (tok : option string) : tx (recharge A) unit :=
  row ← settings_row tenant_id ;
  match row, tok with
  | Some x, Some t =>
      if negb (bool_decide (mandate_order_id x = Some order)) || String.eqb t "" then ret tt
      else remember_token tenant_id t
  | _, _ => ret tt
  end.

Definition token_moved (st : string) (x : settings) : settings :=
  Settings (ar_id x) (ar_tenant x) (if String.eqb st "confirmed" then enabled x else false) (threshold_inr x) (ar_amount x)
    (monthly_cap_inr x) (customer_id x) (token_id x) (mandate_method x) st (mandate_max_inr x) (mandate_order_id x)
    (consecutive_failures x)
    (if bool_decide (st ∈ ["confirmed"; "pending"]) then disabled_reason x else ENDED_REASON st) (authorised_by x).

Definition apply_token_status (tenant_id : uuid) (tok status : string) : tx (recharge A) bool :=
  let status := if String.eqb status "initiated" then "pending" else status in
  changed ← update_settings (fun x => of_tenant tenant_id x && bool_decide (token_id x = Some tok)
                                      && negb (String.eqb (mandate_status x) status)) (token_moved status) ;
  match changed with
  | [] => ret false
  | _ =>
      write_audit tenant_id "auto_recharge.mandate_status" "system" "auto_recharge_settings" tok None ;;
      (if String.eqb status "confirmed" then notice tenant_id "mandate_confirmed" None None
       else if negb (String.eqb status "pending") then notice tenant_id "mandate_ended" None (ENDED_REASON status)
       else ret tt) ;;
      ret true
  end.

(** The transactions of [cancel_mandate]: without a token to cancel, and once the
    provider has cancelled it. *)
Definition withdrawn (st : string) (keep_reason : bool) (x : settings) : settings :=
  Settings (ar_id x) (ar_tenant x) false (threshold_inr x) (ar_amount x) (monthly_cap_inr x) (customer_id x) (token_id x)
    (mandate_method x) st (mandate_max_inr x) (mandate_order_id x) (consecutive_failures x)
    (if keep_reason then disabled_reason x else None) (authorised_by x).
Definition forget_mandate (tenant_id : uuid) : tx (recharge A) AutoRechargeState :=
  update_settings (of_tenant tenant_id) (withdrawn "none" true) ;;
  read_auto_recharge tenant_id.
Definition record_cancelled (tenant_id : uuid) (tok : string) (ip : option string) : tx (recharge A) AutoRechargeState :=
  update_settings (of_tenant tenant_id) (withdrawn "cancelled" false) ;;
  write_audit tenant_id "auto_recharge.mandate_cancelled" "user" "auto_recharge_settings" tok ip ;;
  read_auto_recharge tenant_id.

(** ** The charge *)

(** [due_tenants] and [pending_mandates], read without a tenant. *)
Definition due_tenants (s : recharge A) : list uuid :=
  order_by Z.leb (map ar_tenant (select enabled (auto_recharge_settings s))).
Definition pending_mandates (s : recharge A) : list (uuid * string * string) :=
  omap (fun x => match customer_id x, token_id x with Some c, Some t => Some (ar_tenant x, c, t) | _, _ => None end)
    (order_by (fun x y => ar_tenant x <=? ar_tenant y)
       (select (fun x => bool_decide (mandate_status x ∈ ["pending"; "paused"])) (auto_recharge_settings s))).

(** What the first transaction of [maybe_start_recharge] leaves to do. *)
Inductive start :=
| Early (outcome : string)
| Claimed (amount : Q) (customer tok : option string) (payer : option uuid).

Definition claim_recharge (tenant_id claim_id : uuid) (at_ : instant) : tx (recharge A) start :=
  row ← settings_row tenant_id ;
  match row with
  | None => ret (Early "off")
  | Some x =>
      if negb (enabled x) || negb (is_given (token_id x)) then ret (Early "off")
      else
        balance ← on_wallet_of (get_balance tenant_id) ;
        if dle (threshold_inr x) (amount_inr balance) then ret (Early "above_threshold")
        else
          spent ← month_spent tenant_id at_ ;
          if dlt (monthly_cap_inr x) (dadd spent (ar_amount x)) then ret (Early "monthly_cap_reached")
          else
            n ← txn_now ;
            claimed ← insert_charge (Charge claim_id tenant_id ("claim:" +:+ Envelope.Envelope.uuid_text claim_id) None
                                       (ar_amount x) "pending" None None n) ;
            if negb claimed then ret (Early "in_flight")
            else
              notice tenant_id "recharge_started" (Some (ar_amount x)) None ;;
              write_audit tenant_id "auto_recharge.charge_started" "system" "auto_recharge_charges"
                (Envelope.Envelope.uuid_text claim_id) None ;;
              ret (Claimed (ar_amount x) (customer_id x) (token_id x) (authorised_by x))
  end.

Definition record_order (tenant_id claim_id : uuid) (oid : string) (amount : Q) : tx (recharge A) unit :=
  record_route tenant_id oid "order" (Some "auto_recharge") (Some amount) ;;
  set_order claim_id oid.

Definition with_payment (pid : option string) (x : charge) : charge :=
  Charge (ch_id x) (ch_tenant x) (order_id x) pid (ch_amount x) (ch_status x) (failure_code x) (settled_at x) (ch_created_at x).
Definition record_payment (claim_id : uuid) (pid : string) : tx (recharge A) unit :=
  update_charges (fun x => (ch_id x =? claim_id) && is_pending x) (with_payment (Some pid)) ;; ret tt.

Definition failed_charge (code : string) (n : instant) (x : charge) : charge :=
  Charge (ch_id x) (ch_tenant x) (order_id x) (ch_payment_id x) (ch_amount x) "failed" (Some code) (Some n) (ch_created_at x).
Definition counted (x : settings) : settings :=
  let off := max_failures <=? consecutive_failures x + 1 in
  Settings (ar_id x) (ar_tenant x) (if off then false else enabled x) (threshold_inr x) (ar_amount x) (monthly_cap_inr x)
    (customer_id x) (token_id x) (mandate_method x) (mandate_status x) (mandate_max_inr x) (mandate_order_id x)
    (consecutive_failures x + 1) (if off then Some DISABLED_REASON else disabled_reason x) (authorised_by x).

Definition fail_charge (tenant_id charge_id : uuid) (code : option string) : tx (recharge A) unit :=
  let named := match code with Some c => if String.eqb c "" then "unknown" else c | None => "unknown" end in
  n ← txn_now ;
  updated ← update_charges (fun x => (ch_id x =? charge_id) && is_pending x)
              (failed_charge (String.substring 0 64 named) n) ;
  match updated with
  | [] => ret tt
  | x :: _ =>
      rows ← update_settings (of_tenant tenant_id) counted ;
      write_audit tenant_id "auto_recharge.charge_failed" "system" "auto_recharge_charges"
        (Envelope.Envelope.uuid_text charge_id) None ;;
      notice tenant_id "recharge_failed" (Some (ch_amount x)) None ;;
      match rows with
      | y :: _ =>
          if negb (enabled y) && (max_failures <=? consecutive_failures y)
          then notice tenant_id "auto_recharge_disabled" None (Some DISABLED_REASON)
          else ret tt
      | [] => ret tt
      end
  end.

Definition captured_charge (pid : option string) (n : instant) (x : charge) : charge :=
  Charge (ch_id x) (ch_tenant x) (order_id x) (match pid with Some p => Some p | None => ch_payment_id x end) (ch_amount x)
    "captured" None (Some n) (ch_created_at x).
Definition forgiven (x : settings) : settings :=
  Settings (ar_id x) (ar_tenant x) (enabled x) (threshold_inr x) (ar_amount x) (monthly_cap_inr x) (customer_id x) (token_id x)
    (mandate_method x) (mandate_status x) (mandate_max_inr x) (mandate_order_id x) 0 (disabled_reason x) (authorised_by x).

Definition settle_charge (tenant_id : uuid) (oid : string) (pid : option string) (captured : bool) (code : option string) :
    tx (recharge A) unit :=
  r ← session_tenant ;
  row ← gets (fun s => head (order_by (fun x y => implb (is_pending y) (is_pending x))
          (select (fun x => mine ch_tenant r tenant_id x && String.eqb (order_id x) oid
                            && (is_pending x || (String.eqb (ch_status x) "failed" && captured))) (auto_recharge_charges s)))) ;
  match row with
  | None => ret tt
  | Some x =>
      if negb captured then fail_charge tenant_id (ch_id x) code
      else
        n ← txn_now ;
        update_charges (by_id ch_id (ch_id x)) (captured_charge pid n) ;;
        update_settings (of_tenant tenant_id) forgiven ;;
        write_audit tenant_id "auto_recharge.charge_captured" "system" "auto_recharge_charges"
          (Envelope.Envelope.uuid_text (ch_id x)) None ;;
        notice tenant_id "recharge_captured" (Some (ch_amount x)) None
  end.

Fixpoint fail_all (tenant_id : uuid) (ids : list uuid) : tx (recharge A) unit :=
  match ids with
  | [] => ret tt
  | i :: rest => fail_charge tenant_id i (Some "no_answer") ;; fail_all tenant_id rest
  end.
Definition expire_unanswered (tenant_id : uuid) (now_ : instant) : tx (recharge A) nat :=
  r ← session_tenant ;
  rows ← gets (fun s => select (fun x => mine ch_tenant r tenant_id x && is_pending x
                                         && (ch_created_at x <? now_ - CHARGE_ANSWER_WINDOW)) (auto_recharge_charges s)) ;
  fail_all tenant_id (map ch_id rows) ;;
  ret (length rows).
End Operations.

(** An amount under a limit that the column holds is stored under it. *)
Lemma column_below q r m : numeric_12_4 q = Ok r -> is_money m -> (q <= m)%Q -> (r <= m)%Q.
Proof.
  intros H [y Em] Hq. pose proof H as [[z Er] _]%numeric_12_4_ok. unfold numeric_12_4 in H.
  destruct (_ && _); [|done]. injection H as H.
  pose proof (quantize_half_up_near MONEY_SCALE q) as [_ Hn]. rewrite H in Hn. rewrite Er, Em in *.
  assert (Hz : ((z # MONEY_SCALE) <= (y # MONEY_SCALE) + (1 # (2 * MONEY_SCALE)))%Q) by lra. revert Hz.
  unfold MONEY_SCALE, Qle, Qplus. simpl. lia.
Qed.

(** ** Keys under updates *)

Lemma NoDup_snoc_map {R K} (key : R -> K) (t : list R) x :
  NoDup (map key t) -> ~ In (key x) (map key t) -> NoDup (map key (t ++ [x])).
Proof.
  intros H Hn. rewrite map_app. apply NoDup_app. split; [done|]. split; [|apply NoDup_singleton].
  intros k Hk Hx. apply list_elem_of_singleton in Hx as ->. by apply Hn, list_elem_of_In.
Qed.

Lemma update_same_keys {R K} (key : R -> K) (q : R -> bool) f (t : list R) :
  (forall x, key (f x) = key x) -> map key (update q f t) = map key t.
Proof. intros H. unfold update. rewrite map_map. apply map_ext. intros x. destruct (q x); [apply H|done]. Qed.

Lemma NoDup_select_update {R K} (key : R -> K) (sel q : R -> bool) f (t : list R) :
  (forall x, q x = true -> key (f x) = key x) -> (forall x, In x t -> q x = true -> sel (f x) = true -> sel x = true) ->
  NoDup (map key (select sel t)) -> NoDup (map key (select sel (update q f t))).
Proof.
  intros Hk. unfold select, update. induction t as [|x t IH]; intros Hs H; simpl; [done|]. simpl in H.
  assert (IH' := IH (fun y Hy => Hs y (or_intror Hy))). pose proof (Hs x (or_introl eq_refl)) as Hx.
  assert (Hin : forall k, In k (map key (List.filter sel (map (fun r => if q r then f r else r) t))) ->
                          In k (map key (List.filter sel t))).
  { intros k Hi. apply in_map_iff in Hi as (y & <- & Hy). apply filter_In in Hy as [Hy Hp].
    apply in_map_iff in Hy as (z & <- & Hz). destruct (q z) eqn:Eq.
    - rewrite Hk by done. apply in_map, filter_In. split; [done|]. apply Hs; [by right|done|done].
    - apply in_map, filter_In. done. }
  destruct (q x) eqn:Eq.
  - destruct (sel (f x)) eqn:Ef; [|apply IH'; destruct (sel x); simpl in H; [by apply NoDup_cons in H as [_ H]|done]].
    rewrite (Hx eq_refl eq_refl) in H. simpl in *. apply NoDup_cons in H as [Hn H]. apply NoDup_cons. split; [|by apply IH'].
    rewrite Hk by done. intros Hi. apply Hn. apply list_elem_of_In, Hin, list_elem_of_In, Hi.
  - destruct (sel x); [|by apply IH']. simpl in *. apply NoDup_cons in H as [Hn H]. apply NoDup_cons. split; [|by apply IH'].
    intros Hi. apply Hn. apply list_elem_of_In, Hin, list_elem_of_In, Hi.
Qed.

(** A unique key rewritten in the one row with an id. *)
Lemma NoDup_update_key {R K} (rid : R -> uuid) (key : R -> K) (q : R -> bool) f k i (t : list R) :
  pk_ok rid t -> (forall x, q x = true -> rid x = i) -> (forall x, key (f x) = k) ->
  (forall x, In x t -> q x = false -> key x <> k) ->
  NoDup (map key t) -> NoDup (map key (update q f t)).
Proof.
  unfold pk_ok, update. intros Hpk Hq Hk. induction t as [|x t IH]; intros Hf H; simpl; [done|].
  simpl in *. apply NoDup_cons in Hpk as [Hx Hpk]. apply NoDup_cons in H as [Hn H].
  assert (Hf' : forall y, In y t -> q y = false -> key y <> k) by auto. specialize (IH Hpk Hf' H). apply NoDup_cons.
  split; [|exact IH]. intros Hi. apply list_elem_of_In, in_map_iff in Hi as (y & Ey & Hy).
  apply in_map_iff in Hy as (z & <- & Hz). destruct (q x) eqn:Eq.
  - assert (q z = false) as Ez.
    { destruct (q z) eqn:Ez; [|done]. exfalso. apply Hx, list_elem_of_In. rewrite (Hq x), <- (Hq z) by done. by apply in_map. }
    rewrite Ez, Hk in Ey. by apply (Hf z (or_intror Hz)).
  - destruct (q z) eqn:Ez; [rewrite Hk in Ey; by apply (Hf x (or_introl eq_refl))|].
    apply Hn, list_elem_of_In. rewrite <- Ey. by apply in_map.
Qed.

(** ** What every transaction keeps

    The invariant: a switch that is on has a confirmed token whose limit covers the
    amount, and fewer failures than the limit; one charge of a tenant is in flight at
    most; order ids are unique.  [later] is the life of a charge. *)
Section Keeps.
Context {A : Type} (max_failures : Z).
Implicit Types s : recharge A.

Record row_ok (x : settings) : Prop := RowOk {
  ro_check : settings_check x = true;
  ro_covered : enabled x = true -> forall m, mandate_max_inr x = Some m -> (ar_amount x <= m)%Q;
  ro_failures : enabled x = true -> consecutive_failures x < max_failures;
  ro_max : forall m, mandate_max_inr x = Some m -> is_money m
}.

Record charges_ok (t : list charge) : Prop := ChargesOk {
  co_rows : Forall (fun x => charge_check x = true) t;
  co_ids : pk_ok ch_id t;
  co_orders : NoDup (map order_id t);
  co_one : NoDup (map ch_tenant (select is_pending t))
}.

Record recharge_ok s : Prop := RechargeOk {
  rk_rows : Forall row_ok (auto_recharge_settings s);
  rk_tenants : NoDup (map ar_tenant (auto_recharge_settings s));
  rk_charges : charges_ok (auto_recharge_charges s)
}.

(** A captured charge stays captured and a failed one can only be found captured after
    all; what it is for does not change, nor, for the run [own], its order. *)
Record later (own : option uuid) (x y : charge) : Prop := Later {
  lt_id : ch_id y = ch_id x; lt_tenant : ch_tenant y = ch_tenant x; lt_amount : ch_amount y = ch_amount x;
  lt_created : ch_created_at y = ch_created_at x;
  lt_captured : ch_status x = "captured" -> ch_status y = "captured";
  lt_failed : ch_status x = "failed" -> ch_status y = "failed" \/ ch_status y = "captured";
  lt_order : own = Some (ch_id x) -> order_id y = order_id x
}.

(** What the client authorised. *)
Definition same_authority (x y : settings) : Prop :=
  ar_tenant y = ar_tenant x /\ token_id y = token_id x /\ mandate_status y = mandate_status x
  /\ mandate_max_inr y = mandate_max_inr x /\ ar_amount y = ar_amount x /\ monthly_cap_inr y = monthly_cap_inr x.

Record advances (client : bool) (own : option uuid) s s' : Prop := Advances {
  adv_ok : recharge_ok s -> recharge_ok s';
  adv_charges : forall x, In x (auto_recharge_charges s) -> exists y, In y (auto_recharge_charges s') /\ later own x y;
  adv_switch : recharge_ok s -> client = false -> forall y, In y (auto_recharge_settings s') -> enabled y = true ->
    exists x, In x (auto_recharge_settings s) /\ enabled x = true /\ same_authority x y
}.

Lemma later_refl own x : later own x x.
Proof. constructor; auto. Qed.

Lemma later_trans own x y z : later own x y -> later own y z -> later own x z.
Proof.
  intros [I1 T1 A1 C1 P1 F1 O1] [I2 T2 A2 C2 P2 F2 O2]. constructor; try congruence; auto.
  - intros H. destruct (F1 H) as [E|E]; [by apply F2|right; by apply P2].
  - intros H. rewrite O2; [by apply O1|congruence].
Qed.

Lemma advances_refl client own s : advances client own s s.
Proof. constructor; [done|intros x Hx; exists x; split; [done|apply later_refl]|intros _ _ y Hy He; by exists y]. Qed.

Lemma advances_trans client own s1 s2 s3 :
  advances client own s1 s2 -> advances client own s2 s3 -> advances client own s1 s3.
Proof.
  intros [O1 C1 W1] [O2 C2 W2]. constructor; [auto| |].
  - intros x Hx. apply C1 in Hx as (y & Hy & L1). apply C2 in Hy as (z & Hz & L2). exists z. split; [done|]. by eapply later_trans.
  - intros Hok Hc z Hz He. apply W2 in Hz as (y & Hy & Ey & (?&?&?&?&?&?)); [|by auto|done..].
    apply W1 in Hy as (x & Hx & Ex & (?&?&?&?&?&?)); [|done..]. exists x. unfold same_authority. repeat split; try done; congruence.
Qed.

(** A statement that leaves the two tables alone. *)
Lemma advances_frame client own s s' :
  auto_recharge_settings s' = auto_recharge_settings s -> auto_recharge_charges s' = auto_recharge_charges s ->
  advances client own s s'.
Proof.
  intros Es Ec. constructor.
  - intros [R T C]. constructor; by rewrite ?Es, ?Ec.
  - intros x Hx. exists x. rewrite Ec. split; [done|apply later_refl].
  - intros _ _ y Hy He. rewrite Es in Hy. by exists y.
Qed.

(** A rewrite of settings rows: what the new rows must be. *)
Definition may_write client s (p : settings -> bool) (f : settings -> settings) : Prop :=
  recharge_ok s -> forall x, In x (auto_recharge_settings s) -> ar_tenant x = rls (wallet (desk s)) -> p x = true ->
    row_ok x -> settings_check (f x) = true ->
    row_ok (f x) /\ (client = false -> enabled (f x) = true -> enabled x = true /\ same_authority x (f x)).

Lemma update_settings_advances client own p f s b s' :
  update_settings p f s = Ok (b, s') -> (forall x, ar_tenant (f x) = ar_tenant x) -> may_write client s p f ->
  advances client own s s'.
Proof.
  intros H Ht Hf. cbv [update_settings session_tenant bind gets modify ret raise] in H.
  set (q := fun x => (ar_tenant x =? _) && p x) in *.
  destruct (existsb _ _) eqn:E; [done|]. injection H as <- <-.
  assert (Hq : recharge_ok s -> forall x, In x (auto_recharge_settings s) -> q x = true ->
    row_ok (f x) /\ (client = false -> enabled (f x) = true -> enabled x = true /\ same_authority x (f x))).
  { intros Hok x Hx Eq. pose proof Eq as [Et Ep]%andb_prop. apply (Hf Hok x Hx); [lia|done| |].
    - destruct Hok as [R _ _]. rewrite Forall_forall in R. by apply R, list_elem_of_In.
    - destruct (settings_check (f x)) eqn:Ec; [done|]. rewrite <- E, existsb_exists. exists x.
      split; [by apply select_In|by rewrite Ec]. }
  constructor; simpl.
  - intros Hok. pose proof Hok as [R T C]. constructor; simpl; [|by rewrite update_ids|done].
    rewrite Forall_forall in *. intros y Hy. apply list_elem_of_In, update_In in Hy as (x & Hx & ->).
    destruct (q x) eqn:Eq; [by apply Hq|by apply R, list_elem_of_In].
  - intros x Hx. exists x. split; [done|apply later_refl].
  - intros Hok Hc y Hy He. apply update_In in Hy as (x & Hx & ->). exists x. split; [done|].
    destruct (q x) eqn:Eq; [by apply Hq|done].
Qed.

(** A row put in for a tenant that had none, switched off, or the tenant's rewritten. *)
Lemma upsert_settings_advances client own x f s b s' :
  upsert_settings x f s = Ok (b, s') -> (forall y, ar_tenant (f y) = ar_tenant y) -> enabled x = false ->
  (forall m, mandate_max_inr x = Some m -> is_money m) ->
  may_write client s (of_tenant (ar_tenant x)) f -> advances client own s s'.
Proof.
  intros H Ht Hx Hm Hf. unfold upsert_settings in H. apply bind_ok in H as ([] & s1 & E & H).
  assert (s1 = s) as ->.
  { cbv [on_wallet_of on_desk on_wallet own_tenant bind gets ret raise] in E. case_in E; [|done].
    injection E as <-. by destruct s as [[] ? ? ?]. }
  destruct (settings_check x) eqn:Ec; simpl in H; [|done].
  apply bind_ok in H as (t & s1 & G & H). apply gets_ok in G as [-> ->]. destruct (existsb _ _) eqn:Ex.
  - apply bind_ok in H as (l & s1 & H & G). apply ret_ok in G as [_ ->]. by eapply update_settings_advances.
  - apply modify_ok in H as ->. constructor; simpl.
    + intros [R T C]. constructor; simpl; [|apply NoDup_snoc_map; [done|]|done].
      * apply Forall_app. split; [done|]. apply Forall_singleton. constructor; [done|by rewrite Hx..|done].
      * intros Hi. apply in_map_iff in Hi as (y & Ey & Hy). enough (false = true) by done. rewrite <- Ex.
        apply existsb_exists. exists y. split; [done|]. unfold of_tenant. lia.
    + intros y Hy. exists y. split; [done|apply later_refl].
    + intros _ _ y Hy He. apply in_app_iff in Hy as [Hy|[<-|[]]]; [by exists y|congruence].
Qed.

Definition advancing (client : bool) (own : option uuid) {B} (m : tx (recharge A) B) : Prop :=
  forall s b s', m s = Ok (b, s') -> advances client own s s'.

Section Logic.
Context {client : bool} {own : option uuid}.
Abbreviation advancing := (advancing client own).

Lemma advancing_bind {B C} (m : tx (recharge A) B) (k : B -> tx (recharge A) C) :
  advancing m -> (forall b, advancing (k b)) -> advancing (bind m k).
Proof.
  intros Hm Hk s c s' H. apply bind_ok in H as (b & s1 & H1 & H2).
  eapply advances_trans; [by eapply Hm|by eapply Hk].
Qed.
Lemma advancing_ret {B} (b : B) : advancing (ret b).
Proof. intros s c s' H. apply ret_ok in H as [_ ->]. apply advances_refl. Qed.
Lemma advancing_raise {B} e : advancing (raise (A := B) e).
Proof. intros s c s' H. by apply raise_ok in H. Qed.
Lemma advancing_gets {B} (f : recharge A -> B) : advancing (gets f).
Proof. intros s c s' H. apply gets_ok in H as [_ ->]. apply advances_refl. Qed.
Lemma advancing_lift {B} (r : result B) : advancing (lift r).
Proof. intros s c s' H. apply lift_ok in H as [_ ->]. apply advances_refl. Qed.
Lemma advancing_on_desk {B} (m : tx (pay A) B) : advancing (on_desk m).
Proof. intros s b s' H. unfold on_desk in H. destruct (m (desk s)) as [[? d]|]; [|done]. injection H as <- <-. by apply advances_frame. Qed.
Lemma advancing_routes f : advancing (modify (fun s => with_routes (f s) s)).
Proof. intros s b s' H. apply modify_ok in H as ->. by apply advances_frame. Qed.

Lemma advancing_update_settings p f :
  (forall x, ar_tenant (f x) = ar_tenant x) -> (forall s, may_write client s p f) -> advancing (update_settings p f).
Proof. intros Ht Hf s b s' H. by eapply update_settings_advances. Qed.

Lemma advancing_upsert_settings x f :
  (forall y, ar_tenant (f y) = ar_tenant y) -> enabled x = false -> (forall m, mandate_max_inr x = Some m -> is_money m) ->
  (forall s, may_write client s (of_tenant (ar_tenant x)) f) -> advancing (upsert_settings x f).
Proof. intros Ht Hx Hm Hf s b s' H. by eapply upsert_settings_advances. Qed.

(** A rewrite of charges. *)
Lemma advancing_update_charges p f :
  (forall x, p x = true -> charge_check x = true -> later own x (f x) /\ (is_pending (f x) = true -> is_pending x = true)) ->
  (forall x, order_id (f x) = order_id x /\ ch_id (f x) = ch_id x /\ ch_tenant (f x) = ch_tenant x) ->
  (forall x, p x = true -> later own x (f x)) ->
  advancing (update_charges p f).
Proof.
  intros Hp Hk Hl s b s' H. cbv [update_charges session_tenant bind gets modify ret raise] in H.
  set (q := fun x => (ch_tenant x =? _) && p x) in *.
  destruct (existsb _ _) eqn:E; [done|]. injection H as <- <-.
  assert (Hq : forall x, q x = true -> p x = true) by (by intros x [_ Hx]%andb_prop).
  constructor; simpl.
  - intros [R T [C I O P]]. constructor; simpl; [done|done|]. constructor.
    + rewrite Forall_forall in *. intros y Hy. apply list_elem_of_In, update_In in Hy as (x & Hx & ->).
      destruct (q x) eqn:Eq; [|by apply C, list_elem_of_In]. destruct (charge_check (f x)) eqn:Ec; [done|].
      rewrite <- E, existsb_exists. exists x. split; [by apply select_In|by rewrite Ec].
    + apply update_pk_ok; [intros x; apply Hk|done].
    + rewrite update_same_keys; [done|intros x; apply Hk].
    + apply NoDup_select_update; [intros x _; apply Hk| |done]. intros x Hx Hqx.
      apply (Hp x); [by apply Hq|]. rewrite Forall_forall in C. by apply C, list_elem_of_In.
  - intros x Hx. exists (if q x then f x else x). split; [apply update_In; by exists x|].
    destruct (q x) eqn:Eq; [by apply Hl, Hq|apply later_refl].
  - intros _ _ y Hy He. by exists y.
Qed.

Lemma advancing_insert_charge x : advancing (insert_charge x).
Proof.
  unfold insert_charge. apply advancing_bind; [apply advancing_on_desk|intros []]. intros s b s' H.
  cbv [bind gets modify ret raise] in H.
  destruct (charge_check x) eqn:Ec; [|done]. simpl in H.
  case_in H; [injection H as <- <-; apply advances_refl|]. rename E into E1.
  case_in H; [done|]. rename E into E2. case_in H; [done|]. rename E into E3. injection H as <- <-.
  assert (No : forall g, existsb g (auto_recharge_charges s) = false -> forall y, In y (auto_recharge_charges s) -> g y = false).
  { intros g Hg y Hy. destruct (g y) eqn:Eg; [|done]. rewrite <- Hg. symmetry. apply existsb_exists. by exists y. }
  constructor; simpl.
  - intros [R T [C I O P]]. constructor; simpl; [done|done|]. constructor.
    + apply Forall_app. by split; [|apply Forall_singleton].
    + apply insert_pk_ok; [|done]. intros Hi. apply in_map_iff in Hi as (y & Ey & Hy). apply (No _ E2) in Hy. lia.
    + apply NoDup_snoc_map; [done|]. intros Hi. apply in_map_iff in Hi as (y & Ey & Hy). apply (No _ E3) in Hy.
      by rewrite Ey, String.eqb_refl in Hy.
    + unfold select. rewrite List.filter_app. simpl. destruct (is_pending x) eqn:Ep; [|by rewrite app_nil_r].
      apply NoDup_snoc_map; [done|]. intros Hi. apply in_map_iff in Hi as (y & Ey & Hy). apply filter_In in Hy as [Hy Hyp].
      apply (No _ E1) in Hy. rewrite Hyp in Hy. simpl in Hy. lia.
  - intros y Hy. exists y. split; [apply in_app_iff; by left|apply later_refl].
  - intros _ _ y Hy He. by exists y.
Qed.

Lemma advancing_set_order i oid : own <> Some i -> advancing (set_order i oid).
Proof.
  intros Hown s b s' H. cbv [set_order session_tenant bind gets modify ret raise] in H.
  set (q := fun x => (ch_tenant x =? _) && (ch_id x =? i)) in *.
  destruct (existsb q _ && _) eqn:E; [done|]. injection H as <- <-.
  assert (Hq : forall x, q x = true -> ch_id x = i) by (intros x [_ Hx]%andb_prop; lia).
  constructor; simpl.
  - intros [R T [C I O P]]. constructor; simpl; [done|done|]. constructor.
    + rewrite Forall_forall in *. intros y Hy. apply list_elem_of_In, update_In in Hy as (x & Hx & ->).
      apply list_elem_of_In, C in Hx. by destruct (q x).
    + by apply update_pk_ok.
    + destruct (existsb q (auto_recharge_charges s)) eqn:Eq.
      * simpl in E. apply (NoDup_update_key ch_id order_id q (with_order oid) oid i); [done|done|done| |done].
        intros x Hx Hqx Eo. enough (false = true) by done. rewrite <- E. apply existsb_exists. exists x. split; [done|].
        cbv beta. fold (q x). by rewrite Hqx, Eo, String.eqb_refl.
      * rewrite update_none; [done|]. intros x Hx. destruct (q x) eqn:Ex; [|done]. rewrite <- Eq. symmetry. apply existsb_exists. by exists x.
    + by apply NoDup_select_update.
  - intros x Hx. exists (if q x then with_order oid x else x). split; [apply update_In; by exists x|].
    destruct (q x) eqn:Eq; [|apply later_refl]. constructor; simpl; auto. apply Hq in Eq. intros Ho. congruence.
  - intros _ _ y Hy He. by exists y.
Qed.

End Logic.
End Keeps.

Create HintDb recharge.
#[export] Hint Resolve advancing_ret advancing_raise advancing_gets advancing_lift advancing_on_desk advancing_routes advancing_insert_charge
  advancing_set_order : recharge.
Ltac advancing := repeat first
  [ match goal with
    | |- advancing _ _ _ (bind _ _) => apply advancing_bind; [|intros ?]
    | |- advancing _ _ _ (match ?x with _ => _ end) => destruct x
    end
  | solve [eauto 2 with recharge] ].

Section Transactions.
Context {A : Type} (hmac_hex : string -> string -> string) (dumps : Audit.payload -> string) (audit_key : string).
Context (max_failures : Z).
Implicit Types s : recharge A.
Abbreviation advancing := (advancing (A := A) max_failures).
Abbreviation may_write := (may_write (A := A) max_failures).

Section Any.
Context {client : bool} {own : option uuid}.

Lemma advancing_audit tenant action actor ot oi ip : advancing client own (write_audit hmac_hex dumps audit_key tenant action actor ot oi ip).
Proof. unfold write_audit, new_id, on_wallet_of. advancing. Qed.
Lemma advancing_notice tenant kind q why : advancing client own (notice tenant kind q why).
Proof. unfold notice, on_wallet_of. advancing. Qed.
Lemma advancing_route tenant oid kind p q : advancing client own (record_route tenant oid kind p q).
Proof. unfold record_route, new_id, on_wallet_of. advancing. Qed.
Lemma advancing_row tenant : advancing client own (settings_row tenant).
Proof. unfold settings_row, session_tenant. advancing. Qed.
Lemma advancing_daily tenant : advancing client own (daily_usage tenant).
Proof. unfold daily_usage, session_tenant, txn_now. advancing. Qed.
Lemma advancing_spent tenant t : advancing client own (month_spent tenant t).
Proof. unfold month_spent, session_tenant. advancing. Qed.
Hint Resolve advancing_audit advancing_notice advancing_route advancing_row advancing_daily advancing_spent : recharge.
Lemma advancing_read tenant : advancing client own (read_auto_recharge tenant).
Proof. unfold read_auto_recharge, session_tenant, on_wallet_of. advancing. Qed.
Hint Resolve advancing_read : recharge.

(** Rows rewritten with the switch off. *)
Lemma may_write_off s p f :
  (forall x, enabled (f x) = false) ->
  (forall x m, row_ok max_failures x -> mandate_max_inr (f x) = Some m -> is_money m) -> may_write client s p f.
Proof. intros Hf Hm _ x _ _ _ R Hc. split; [constructor; [done|by rewrite Hf..|by intros m; apply Hm]|by rewrite Hf]. Qed.

Lemma on_token x : row_ok max_failures x -> enabled x = true -> mandate_status x = "confirmed" /\ exists t, token_id x = Some t.
Proof.
  intros [Hc _ _] He. unfold settings_check in Hc. rewrite He in Hc.
  destruct (String.eqb_spec (mandate_status x) "confirmed") as [Em|Em]; [split; [done|]|by rewrite !andb_false_r in Hc].
  destruct (token_id x) as [t|]; [by exists t|by rewrite !andb_false_r in Hc].
Qed.

Lemma failures_nonneg x : settings_check x = true -> 0 <= consecutive_failures x.
Proof. unfold settings_check. intros H. lia. Qed.

Lemma advancing_remember tenant tok : advancing client own (remember_token tenant tok).
Proof.
  unfold remember_token. advancing. apply advancing_update_settings; [done|]. intros s _ x _ _ Hp R Hc.
  split; [destruct R; by constructor|]. intros _ He. split; [done|]. destruct (on_token x R He) as [_ [t Et]].
  unfold same_authority. simpl. repeat split. rewrite Et in *. apply andb_prop in Hp as [_ Hp]. apply String.eqb_eq in Hp. congruence.
Qed.
Hint Resolve advancing_remember : recharge.

Lemma advancing_note tenant order tok : advancing client own (note_mandate_payment tenant order tok).
Proof. unfold note_mandate_payment. advancing. Qed.

Lemma advancing_token_status tenant tok status :
  advancing client own (apply_token_status hmac_hex dumps audit_key tenant tok status).
Proof.
  unfold apply_token_status. set (st := if String.eqb status "initiated" then _ else _). apply advancing_bind; [|intros; advancing].
  apply advancing_update_settings; [done|]. intros s _ x _ _ Hp R Hc.
  assert (Hon : enabled (token_moved st x) = true -> enabled x = true /\ st = "confirmed").
  { simpl. destruct (String.eqb_spec st "confirmed"); done. }
  split; [destruct R as [R1 R2 R3 R4]; constructor; [done|by intros [He _]%Hon; apply R2|by intros [He _]%Hon; apply R3|done]|].
  intros _ [He Es]%Hon. split; [done|]. unfold same_authority. simpl. repeat split. rewrite Es. by destruct (on_token x R He).
Qed.

Lemma advancing_forget tenant : advancing client own (forget_mandate tenant).
Proof. unfold forget_mandate. advancing. apply advancing_update_settings; [done|]. intros s. apply may_write_off; [done|intros x m R; exact (ro_max _ _ R m)]. Qed.
Lemma advancing_cancelled tenant tok ip : advancing client own (record_cancelled hmac_hex dumps audit_key tenant tok ip).
Proof. unfold record_cancelled. advancing. apply advancing_update_settings; [done|]. intros s. apply may_write_off; [done|intros x m R; exact (ro_max _ _ R m)]. Qed.

Lemma advancing_column {B} q (k : Q -> tx (recharge A) B) :
  (forall r, is_money r -> advancing client own (k r)) -> advancing client own (bind (column q) k).
Proof.
  intros Hk s b s' H. apply bind_ok in H as (r & s1 & E & H). apply lift_ok in E as [E ->].
  apply numeric_12_4_ok in E as [Hm _]. by eapply Hk.
Qed.
Lemma advancing_mandate tenant user cust order method mx ip :
  advancing client own (record_mandate hmac_hex dumps audit_key tenant user cust order method mx ip).
Proof.
  unfold record_mandate, new_id, on_wallet_of. do 4 (apply advancing_bind; [advancing|intros ?]).
  do 4 (apply advancing_column; intros ? ?). advancing.
  apply advancing_upsert_settings; [done..|by intros m [= <-]|]. intros s. apply may_write_off; [done|by intros x m _ [= <-]].
Qed.

Lemma advancing_claim tenant i t : advancing client own (claim_recharge hmac_hex dumps audit_key tenant i t).
Proof. unfold claim_recharge, txn_now, on_wallet_of. advancing. Qed.
Lemma advancing_order tenant i oid q : own <> Some i -> advancing client own (record_order tenant i oid q).
Proof. intros Ho. unfold record_order. advancing. Qed.
Lemma advancing_payment i pid : advancing client own (record_payment i pid).
Proof.
  unfold record_payment. apply advancing_bind; [|intros; advancing]. apply advancing_update_charges; [|done|]; intros x Hp; [intros _; split; [|done]|];
    constructor; simpl; auto.
Qed.

Lemma failed_later c n x : is_pending x = true -> later own x (failed_charge c n x).
Proof. intros Hp. apply String.eqb_eq in Hp. constructor; simpl; rewrite ?Hp; auto; done. Qed.

(** A failure counted against the switch, and told. *)
Lemma advancing_count tenant i q : advancing client own
  (rows ← update_settings (of_tenant tenant) (counted max_failures) ;
   write_audit hmac_hex dumps audit_key tenant "auto_recharge.charge_failed" "system" "auto_recharge_charges"
     (Envelope.Envelope.uuid_text i) None ;;
   notice tenant "recharge_failed" (Some q) None ;;
   match rows with
   | y :: _ =>
       if negb (enabled y) && (max_failures <=? consecutive_failures y)
       then notice tenant "auto_recharge_disabled" None (Some DISABLED_REASON)
       else ret tt
   | [] => ret tt
   end).
Proof.
  advancing. apply advancing_update_settings; [done|]. intros s _ x _ _ _ [R1 R2 R3 R4] Hc.
  assert (Hon : enabled (counted max_failures x) = true -> enabled x = true /\ consecutive_failures x + 1 < max_failures).
  { simpl. destruct (Z.leb_spec max_failures (consecutive_failures x + 1)); done || by intros ?. }
  split; [constructor; [done|by intros [He _]%Hon; apply R2|by intros [_ Hl]%Hon|done]|]. by intros _ [He _]%Hon.
Qed.

Lemma advancing_fail tenant i code : advancing client own (fail_charge hmac_hex dumps audit_key max_failures tenant i code).
Proof.
  unfold fail_charge, txn_now. apply advancing_bind; [advancing|intros n]. apply advancing_bind; [|intros [|x l]; [advancing|apply advancing_count]].
  apply advancing_update_charges; [|done|]; intros x [_ Hp]%andb_prop; [intros _; split; [|done]|]; by apply failed_later.
Qed.
Hint Resolve advancing_fail : recharge.

Lemma advancing_settle tenant oid pid cap code :
  advancing client own (settle_charge hmac_hex dumps audit_key max_failures tenant oid pid cap code).
Proof.
  unfold settle_charge, session_tenant, txn_now. advancing.
  - apply advancing_update_charges; [intros x _ _; split; [|done]|done|intros x _]; constructor; simpl; auto.
  - apply advancing_update_settings; [done|]. intros s _ x _ _ _ [R1 R2 R3 R4] Hc.
    split; [constructor; [done|done| |done]|done]. intros He. simpl. specialize (R3 He). apply failures_nonneg in R1. lia.
Qed.

Lemma advancing_expire tenant t : advancing client own (expire_unanswered hmac_hex dumps audit_key max_failures tenant t).
Proof.
  unfold expire_unanswered, session_tenant. advancing. generalize (map ch_id b0). intros l.
  induction l as [|i l IH]; simpl; advancing.
Qed.
End Any.

(** The client's save.  Switching on reads the row that the write then finds. *)
Lemma validate_same th amt cap s u s' : validate th amt cap s = Ok (u, s') -> s' = s.
Proof. unfold validate. repeat case_match; cbv [ret raise]; by intros [=]. Qed.

Lemma row_read tenant s x s' :
  settings_row tenant s = Ok (x, s') ->
  s' = s /\ match x with
            | Some x => In x (auto_recharge_settings s) /\ ar_tenant x = tenant /\ rls (wallet (desk s)) = tenant
            | None => True
            end.
Proof.
  intros H. cbv [settings_row session_tenant bind gets] in H. injection H as <- <-. split; [done|].
  destruct (select _ _) as [|y l] eqn:E; simpl; [done|].
  assert (Hy : In y (select (mine ar_tenant (rls (wallet (desk s))) tenant) (auto_recharge_settings s))) by (rewrite E; by left).
  apply select_In in Hy as [Hy Hm]. unfold mine in Hm. split; [done|lia].
Qed.

Lemma one_row x y s : recharge_ok max_failures s -> In x (auto_recharge_settings s) -> In y (auto_recharge_settings s) ->
  ar_tenant x = ar_tenant y -> x = y.
Proof. intros [_ H _]. by apply pk_unique. Qed.

Lemma advancing_save own tenant en th amt cap ip :
  1 <= max_failures -> advancing true own (save_auto_recharge hmac_hex dumps audit_key tenant en th amt cap ip).
Proof.
  intros Hlim s b s' H. unfold save_auto_recharge in H.
  apply bind_ok in H as ([] & s1 & E & H). apply validate_same in E as ->.
  apply bind_ok in H as (row & s1 & E & H). apply row_read in E as [-> Er].
  apply bind_ok in H as ([] & s1 & E & H).
  assert (s1 = s /\ (en = true -> exists x, In x (auto_recharge_settings s) /\ ar_tenant x = tenant
            /\ forall m, mandate_max_inr x = Some m -> (amt <= m)%Q)) as [-> Hx].
  { destruct en; [|cbv [ret] in E; injection E as ->; done]. destruct row as [x|]; [|done].
    case_in E; [done|]. destruct (mandate_max_inr x) as [m|] eqn:Em.
    - destruct (dlt_spec m amt); [done|]. injection E as ->. split; [done|]. intros _. exists x.
      split; [apply Er|split; [apply Er|]]. intros m' [= <-]%(eq_trans (eq_sym Em)). lra.
    - injection E as ->. split; [done|]. intros _. exists x. split; [apply Er|split; [apply Er|by rewrite Em]]. }
  clear E Er row. apply bind_ok in H as (i & s1 & E & H). injection E as <- <-. set (s1 := with_desk _ s) in *.
  apply bind_ok in H as (th' & s2 & E & H). apply lift_ok in E as [_ ->].
  apply bind_ok in H as (amt' & s2 & E & H). apply lift_ok in E as [Ea ->].
  apply bind_ok in H as (cap' & s2 & E & H). apply lift_ok in E as [_ ->].
  apply bind_ok in H as ([] & s2 & E & H).
  eapply advances_trans; [by apply (advances_frame _ _ _ s s1)|]. eapply advances_trans.
  - eapply upsert_settings_advances; [exact E|done..|]. simpl. intros Hok x Hix _ Htx R Hc. split; [|done].
    constructor; [done| | |apply R]; simpl.
    + intros -> m Hm. destruct (Hx eq_refl) as (y & Hy & Ey & Hm'). unfold of_tenant in Htx.
      assert (x = y) as -> by (apply (one_row x y s1 Hok Hix Hy); lia).
      exact (column_below _ _ m Ea (ro_max _ _ R m Hm) (Hm' m Hm)).
    + intros ->. lia.
  - revert H. apply advancing_bind; [apply advancing_audit|intros []; apply advancing_read].
Qed.

(** One committed transaction of this module, or anything the rest of the platform does to
    the tables of the desk.  The client's save is a step when [client]; the run [own] is
    the only one that writes the order of its charge. *)
Inductive step (client : bool) (own : option uuid) : recharge A -> recharge A -> Prop :=
| step_desk s d : step client own s (with_desk d s)
| step_save s tenant en th amt cap ip b s' :
    client = true -> save_auto_recharge hmac_hex dumps audit_key tenant en th amt cap ip s = Ok (b, s') -> step client own s s'
| step_mandate s tenant user cust order method mx ip b s' :
    record_mandate hmac_hex dumps audit_key tenant user cust order method mx ip s = Ok (b, s') -> step client own s s'
| step_remember s tenant tok b s' : remember_token tenant tok s = Ok (b, s') -> step client own s s'
| step_note s tenant order tok b s' : note_mandate_payment tenant order tok s = Ok (b, s') -> step client own s s'
| step_token s tenant tok status b s' :
    apply_token_status hmac_hex dumps audit_key tenant tok status s = Ok (b, s') -> step client own s s'
| step_forget s tenant b s' : forget_mandate tenant s = Ok (b, s') -> step client own s s'
| step_cancelled s tenant tok ip b s' :
    record_cancelled hmac_hex dumps audit_key tenant tok ip s = Ok (b, s') -> step client own s s'
| step_claim s tenant i t b s' : claim_recharge hmac_hex dumps audit_key tenant i t s = Ok (b, s') -> step client own s s'
| step_order s tenant i oid q b s' : own <> Some i -> record_order tenant i oid q s = Ok (b, s') -> step client own s s'
| step_payment s i pid b s' : record_payment i pid s = Ok (b, s') -> step client own s s'
| step_fail s tenant i code b s' :
    fail_charge hmac_hex dumps audit_key max_failures tenant i code s = Ok (b, s') -> step client own s s'
| step_settle s tenant oid pid cap code b s' :
    settle_charge hmac_hex dumps audit_key max_failures tenant oid pid cap code s = Ok (b, s') -> step client own s s'
| step_expire s tenant t b s' :
    expire_unanswered hmac_hex dumps audit_key max_failures tenant t s = Ok (b, s') -> step client own s s'.

Definition steps (client : bool) (own : option uuid) : recharge A -> recharge A -> Prop := rtc (step client own).

Lemma step_advances client own s s' : 1 <= max_failures -> step client own s s' -> advances max_failures client own s s'.
Proof.
  intros Hlim H. inversion H; subst; clear H.
  - by apply advances_frame.
  - by eapply advancing_save.
  - by eapply advancing_mandate.
  - by eapply advancing_remember.
  - by eapply advancing_note.
  - by eapply advancing_token_status.
  - by eapply advancing_forget.
  - by eapply advancing_cancelled.
  - by eapply advancing_claim.
  - by eapply advancing_order.
  - by eapply advancing_payment.
  - by eapply advancing_fail.
  - by eapply advancing_settle.
  - by eapply advancing_expire.
Qed.

Lemma steps_advance client own s s' : 1 <= max_failures -> steps client own s s' -> advances max_failures client own s s'.
Proof.
  intros Hlim. induction 1 as [|s1 s2 s3 H _ IH]; [apply advances_refl|].
  eapply advances_trans; [by apply step_advances|exact IH].
Qed.

(** C23. However the transactions of auto-recharge are ordered, among themselves and with
    whatever else the platform does: a switch that is on has a confirmed token, an amount
    within the limit the client approved and fewer failures than the limit; a tenant has
    one charge in flight at most; a captured charge stays captured, a failed one is failed
    or found captured, and what it is for stands.  And unless the client saves, every
    switch found on was on before, for the same token, amount, limit and monthly cap. *)
Theorem recharge_life client own s s' :
  1 <= max_failures -> recharge_ok max_failures s -> steps client own s s' ->
  recharge_ok max_failures s'
  /\ (forall x, In x (auto_recharge_charges s) -> exists y, In y (auto_recharge_charges s') /\ later own x y)
  /\ (client = false -> forall y, In y (auto_recharge_settings s') -> enabled y = true ->
        exists x, In x (auto_recharge_settings s) /\ enabled x = true /\ same_authority x y).
Proof. intros Hlim Hok H. destruct (steps_advance _ _ _ _ Hlim H) as [O C W]. auto. Qed.
End Transactions.

(** ** An example: a claim, its order, its capture *)

Definition example_row : settings :=
  Settings 1 7 true 500 2000 6000 (Some "cust_1") (Some "token_1") (Some "upi") "confirmed" (Some (inject_Z 5000)) (Some "order_0") 0 None
    (Some 9).
Definition example_state : recharge unit :=
  Recharge unit (Pay unit (Db 7 0 Z.of_nat (fun n => Z.of_nat n + 1) [] [] [] []) (RateCard.RatesDb [] []) [] [] [] [] tt)
    [example_row] [] [].

Lemma example_ok : recharge_ok 3 example_state.
Proof.
  constructor; simpl.
  - apply Forall_singleton. constructor; [by vm_compute|intros _ m [= <-]; by vm_compute|done|].
    intros m [= <-]. by exists 50000000.
  - apply NoDup_singleton.
  - constructor; simpl; constructor.
Qed.

(** The state after a computation that returns. *)
Definition after {S B} (m : tx S B) (s : S) : S := match m s with Ok (_, s') => s' | Err _ => s end.
Lemma after_run {S B} (m : tx S B) s : is_ok (m s) = true -> exists b, m s = Ok (b, after m s).
Proof. unfold after. destruct (m s) as [[b s']|e]; [by exists b|done]. Qed.

Definition keyed_hmac (key message : string) : string := key +:+ message.
Definition no_dump (p : Audit.payload) : string := "".
Definition example_claimed : recharge unit := after (claim_recharge keyed_hmac no_dump "k" 7 100 5) example_state.
Definition example_ordered : recharge unit := after (record_order 7 100 "order_1" 2000) example_claimed.
Definition example_captured : recharge unit :=
  after (settle_charge keyed_hmac no_dump "k" 3 7 "order_1" (Some "pay_1") true None) example_ordered.

Lemma example_steps : steps keyed_hmac no_dump "k" 3 false None example_state example_captured.
Proof.
  destruct (after_run (claim_recharge keyed_hmac no_dump "k" 7 100 5) example_state) as [b Eb]; [by vm_compute|].
  destruct (after_run (record_order 7 100 "order_1" 2000) example_claimed) as [c Ec]; [by vm_compute|].
  destruct (after_run (settle_charge keyed_hmac no_dump "k" 3 7 "order_1" (Some "pay_1") true None) example_ordered) as [d Ed];
    [by vm_compute|].
  eapply rtc_l; [by eapply step_claim|]. eapply rtc_l; [by eapply step_order; [|exact Ec]|]. apply rtc_once. by eapply step_settle.
Qed.

Lemma recharge_life_witness :
  recharge_ok 3 example_captured /\ map ch_status (auto_recharge_charges example_captured) = ["captured"]
  /\ map ch_payment_id (auto_recharge_charges example_captured) = [Some "pay_1"].
Proof.
  split; [|split; vm_compute; reflexivity].
  apply (recharge_life keyed_hmac no_dump "k" 3 false None example_state example_captured);
    [lia|exact example_ok|exact example_steps].
Defined.

End AutoRecharge.
