(* ===== verification/RechargeRun.v ===== *)
(** * Running automatic recharges

    What apps/api/billing/auto_recharge.py asks of the payment provider, through
    razorpay_api.py.  No session is held while the provider answers, so each function is a
    sequence of transactions with requests between them; what the provider answers and
    what other sessions commit meanwhile are its arguments, and the requests it made are in
    its result. *)

From Stdlib Require Import Ascii ZArith Lia List QArith Lqa.
From stdpp Require Import base list strings relations.
From S2P Require Import Prelude PyDecimal Sql PyTime AuditLog WalletDb Ledger Wallet Envelope Payments AutoRecharge.

Local Open Scope string_scope.
Local Open Scope list_scope.
Local Open Scope Z_scope.
Local Open Scope tx_scope.

Import Ledger Payments AutoRecharge.

Module RechargeRun.

(** ** The provider's API *)

(** A request's outcome: none, or a status with a body that may not be JSON. *)
Inductive http := NoResponse | Response (status : Z) (body : option Envelope.json).

(** A refusal with its code ([kind="dependency"]). *)
Definition provider (code : string) : error := Problem Dependency code.
Definition unreadable : error := provider "payment_provider_unreadable".

(** [_send]. *)
Definition send (h : http) : result Envelope.json :=
  match h with
  | NoResponse => Err (provider "payment_provider_unreachable")
  | Response status body =>
      if 400 <=? status then
        if 500 <=? status then Err (provider "payment_provider_server_error")
        else Err (provider "payment_provider_rejected")
      else match body with Some b => Ok b | None => Err unreadable end
  end.

(** [_id_of]. *)
Definition id_of (body : Envelope.json) : result string :=
  match Envelope.get "id" body with
  | Envelope.Str s => if String.eqb (Envelope.strip s) "" then Err unreadable else Ok (Envelope.strip s)
  | _ => Err unreadable
  end.

(** The requests that leave the platform. *)
Inductive request :=
| CreateCustomer (name email contact : string)
| CreateMandateOrder (customer method : string) (max_paise : Z)
| CreateChargeOrder (paise : Z)
| CreateRecurring (order : string) (paise : Z) (customer tok email contact : string)
| FetchPayment (payment : string)
| CancelToken (customer tok : string) (by_put : bool)
| TokenStatus (customer tok : string).

Abbreviation asks B := (result B * list request)%type (only parsing).

Definition first_chars (n : nat) (s : string) : string := String.substring 0 n s.

Definition create_customer (name email contact : string) (h : http) : asks string :=
  (match send h with Ok b => id_of b | Err e => Err e end, [CreateCustomer (first_chars 50 name) email contact]).

Definition create_mandate_order (customer method : string) (max_debit : Q) (h : http) : asks string :=
  if dlt MANDATE_MAX_DEBIT_INR max_debit then (Err (Problem BusinessRule "mandate_limit_exceeded"), [])
  else
    match Envelope.inr_to_paise (Envelope.Dec max_debit) with
    | Err e => (Err e, [])
    | Ok p => (match send h with Ok b => id_of b | Err e => Err e end, [CreateMandateOrder customer method p])
    end.

Definition create_charge_order (amount : Q) (h : http) : asks string :=
  match Envelope.inr_to_paise (Envelope.Dec amount) with
  | Err e => (Err e, [])
  | Ok p => (match send h with Ok b => id_of b | Err e => Err e end, [CreateChargeOrder p])
  end.

Definition create_recurring_payment (email contact : string) (amount : Q) (order customer tok : string) (h : http) : asks string :=
  match Envelope.inr_to_paise (Envelope.Dec amount) with
  | Err e => (Err e, [])
  | Ok p =>
      (match send h with
       | Ok b => match Envelope.get "razorpay_payment_id" b with
                 | Envelope.Str s => if String.eqb s "" then Err unreadable else Ok s
                 | _ => Err unreadable
                 end
       | Err e => Err e
       end, [CreateRecurring order p customer tok email contact])
  end.

Definition cancel_token (customer tok method : string) (h : http) : asks unit :=
  (match send h with Ok _ => Ok tt | Err e => Err e end, [CancelToken customer tok (String.eqb method "upi")]).

(** The status of one token of the list, if it is there. *)
Fixpoint status_in (tok : string) (items : list Envelope.json) : option string :=
  match items with
  | [] => None
  | x :: rest =>
      match Envelope.is_dict x, Envelope.get "id" x with
      | true, Envelope.Str i =>
          if String.eqb i tok
          then match Envelope.get "status" (Envelope.get "recurring_details" x) with Envelope.Str s => Some s | _ => None end
          else status_in tok rest
      | _, _ => status_in tok rest
      end
  end.
Definition token_status (customer tok : string) (h : http) : asks (option string) :=
  (match send h with
   | Ok b => Ok (match Envelope.get "items" b with Envelope.Arr l => status_in tok l | _ => None end)
   | Err e => Err e
   end, [TokenStatus customer tok]).

(** What is read of a payment: its token ([normalize_payment]). *)
Definition payment_token (body : Envelope.json) : result (option string) :=
  match Envelope.is_dict body, Envelope.get "id" body, Envelope.get "amount" body, Envelope.get "currency" body with
  | true, Envelope.Str _, Envelope.Int _, Envelope.Str _ => Ok (Envelope.nonempty (Envelope.get "token_id" body))
  | _, _, _, _ => Err unreadable
  end.
Definition fetch_payment (payment : string) (h : http) : asks (option string) :=
  (match send h with Ok b => payment_token b | Err e => Err e end, [FetchPayment payment]).

(** ** Conversations

    A function that commits transactions and makes requests: an exception stops it and
    undoes nothing that was committed or asked. *)
Definition prog (A B : Type) : Type := recharge A -> result B * list request * recharge A.

Section Prog.
Context {A : Type}.

Definition pret {B} (b : B) : prog A B := fun s => (Ok b, [], s).
Definition fail {B} (e : error) : prog A B := fun s => (Err e, [], s).
Definition pbind {B C} (m : prog A B) (k : B -> prog A C) : prog A C :=
  fun s => let '(r, asked, s) := m s in
           match r with
           | Ok b => let '(r, more, s) := k b s in (r, asked ++ more, s)
           | Err e => (Err e, asked, s)
           end.
Definition of_result {B} (r : result B) : prog A B := fun s => (r, [], s).

(** [tenant_session]: the session runs as the tenant, at the clock's time. *)
Definition opened (tenant_id : uuid) (s : recharge A) : recharge A :=
  let w := wallet (desk s) in
  with_desk (with_wallet (Db tenant_id (ticks w 0) (fun n => ticks w (S n)) (ids w) (credit_ledger w) (credit_lots w)
                            (low_balance_lines w) (outbox_messages w)) (desk s)) s.
Definition session {B} (tenant_id : uuid) (m : tx (recharge A) B) : prog A B :=
  fun s => match m (opened tenant_id s) with Ok (b, s') => (Ok b, [], s') | Err e => (Err e, [], s) end.

(** A request, and what other sessions commit until its answer is there. *)
Definition ask {B} (r : asks B) (meanwhile : recharge A -> recharge A) : prog A B := fun s => (fst r, snd r, meanwhile s).

(** [try: m except ProblemError as exc: h(exc)]. *)
Definition catching {B} (m : prog A B) (h : problem_kind -> string -> prog A B) : prog A B :=
  fun s => let '(r, asked, s) := m s in
           match r with
           | Err (Problem kind code) => let '(r, more, s) := h kind code s in (r, asked ++ more, s)
           | r => (r, asked, s)
           end.

(** [uuid7()] and [datetime.now(UTC)], outside a session. *)
Definition draw_id : prog A uuid :=
  fun s => (Ok (ids (wallet (desk s)) 0), [], with_desk (with_wallet (drop_id (wallet (desk s))) (desk s)) s).
Definition utc_now : prog A instant :=
  fun s => (Ok (ticks (wallet (desk s)) 0), [], with_desk (with_wallet (tick (wallet (desk s))) (desk s)) s).
End Prog.

Notation "x ⇐ m ; k" := (pbind m (fun x => k)) (at level 20, m at level 100, k at level 200, only parsing).
Notation "' p ⇐ m ; k" := (pbind m (fun x => match x with p => k end))
  (at level 20, p pattern, m at level 100, k at level 200, only parsing).

(** ** The members' contact details *)

Record member := Member { u_id : uuid; u_name : option string; u_email : option string; u_phone : option string }.
Definition text_of (o : option string) : option string :=
  match o with Some s => if String.eqb s "" then None else Some s | None => None end.
Definition payer_contact (users : list member) (user_id : uuid) : result (string * string * string) :=
  match List.find (fun u => u_id u =? user_id) users with
  | None => Err (Problem BusinessRule "auto_recharge_needs_contact")
  | Some u =>
      match text_of (u_email u), text_of (u_phone u) with
      | Some e, Some p => Ok (match text_of (u_name u) with Some n => n | None => e end, e, p)
      | _, _ => Err (Problem BusinessRule "auto_recharge_needs_contact")
      end
  end.

Section Runs.
Context {A : Type}.
(** The audit log's key and HMAC-SHA256, the setting [auto_recharge_max_failures], the
    users' table, and whether this deployment can reach the provider ([razorpay_api]). *)
Context (hmac_hex : string -> string -> string) (dumps : Audit.payload -> string) (audit_key : string).
Context (max_failures : Z) (users : list member) (razorpay_api : result unit).

(** What the provider answers in a run, and what other sessions commit meanwhile. *)
Record answers := Answers {
  first_answer : http; second_answer : http;
  during_first : recharge A -> recharge A; during_second : recharge A -> recharge A }.

(** ** The mandate *)

Record MandateCheckout := Checkout { mc_order : string; mc_customer : string; mc_amount_paise : Z }.

Definition begin_mandate (says : answers) (tenant_id user_id : uuid) (method : string) (max_debit : Q) (ip : option string) :
    prog A MandateCheckout :=
  if dlt max_debit MIN_TOPUP_INR || dlt MANDATE_MAX_DEBIT_INR max_debit
  then fail (Problem BusinessRule "auto_recharge_invalid")
  else
    row ⇐ session tenant_id (settings_row tenant_id) ;
    '(name, email, phone) ⇐ of_result (payer_contact users user_id) ;
    _ ⇐ of_result razorpay_api ;
    cust ⇐ match text_of (match row with Some x => customer_id x | None => None end) with
           | Some c => pret c
           | None => ask (create_customer name email phone (first_answer says)) (during_first says)
           end ;
    _ ⇐ utc_now ;
    _ ⇐ draw_id ;
    order ⇐ ask (create_mandate_order cust method max_debit (second_answer says)) (during_second says) ;
    _ ⇐ session tenant_id (record_mandate hmac_hex dumps audit_key tenant_id user_id cust order method max_debit ip) ;
    paise ⇐ of_result (Envelope.inr_to_paise (Envelope.Dec MANDATE_AUTH_AMOUNT_INR)) ;
    pret (Checkout order cust paise).

(** [verify_checkout_signature] of payments.py. *)
Definition verify_checkout_signature (key_secret order payment : string) (signature : option string) : bool :=
  match text_of signature with
  | None => false
  | Some g => String.eqb (Envelope.strip g) (hmac_hex key_secret (order +:+ "|" +:+ payment))
  end.

Definition confirm_mandate (secret : option string) (says : answers) (tenant_id : uuid) (order payment : string)
    (signature : option string) : prog A AutoRechargeState :=
  row ⇐ session tenant_id (settings_row tenant_id) ;
  let genuine := match row, secret with
                 | Some x, Some k => bool_decide (mandate_order_id x = Some order)
                                     && verify_checkout_signature k order payment signature
                 | _, _ => false
                 end in
  if negb genuine then fail (Problem Auth "payment_signature_invalid")
  else
    _ ⇐ of_result razorpay_api ;
    tok ⇐ ask (fetch_payment payment (first_answer says)) (during_first says) ;
    session tenant_id
      (match tok with Some t => remember_token tenant_id t | None => ret tt end ;;
       read_auto_recharge tenant_id).

Definition cancel_mandate (says : answers) (tenant_id : uuid) (ip : option string) : prog A AutoRechargeState :=
  row ⇐ session tenant_id (settings_row tenant_id) ;
  match match row with Some x => match token_id x, customer_id x with Some t, Some c => Some (x, t, c) | _, _ => None end
                     | None => None end with
  | None => session tenant_id (forget_mandate tenant_id)
  | Some (x, t, c) =>
      let method := if bool_decide (mandate_method x = Some "card") then "card" else "upi" in
      _ ⇐ of_result razorpay_api ;
      _ ⇐ ask (cancel_token c t method (first_answer says)) (during_first says) ;
      session tenant_id (record_cancelled hmac_hex dumps audit_key tenant_id t ip)
  end.

Definition refresh_pending_mandate (says : answers) (tenant_id : uuid) (cust tok : string) : prog A (option string) :=
  _ ⇐ of_result razorpay_api ;
  status ⇐ ask (token_status cust tok (first_answer says)) (during_first says) ;
  match status with
  | None => pret None
  | Some st =>
      if String.eqb st "initiated" then pret status
      else _ ⇐ session tenant_id (apply_token_status hmac_hex dumps audit_key tenant_id tok st) ; pret status
  end.

(** ** A recharge *)

(** How the [try] of [maybe_start_recharge] ends. *)
Inductive asked_for := Accepted (payment : string) | Unconfirmed | Refused.

(** [str(customer_id)], of a row that may hold none. *)
Definition py_str (o : option string) : string := match o with Some s => s | None => "None" end.

Definition request_payment (says : answers) (tenant_id claim_id : uuid) (amount : Q) (cust tok : option string)
    (payer : option uuid) : prog A asked_for :=
  member_id ⇐ match payer with
              | None => fail (Problem BusinessRule "auto_recharge_needs_contact")
              | Some u => pret u
              end ;
  '(_, email, phone) ⇐ of_result (payer_contact users member_id) ;
  _ ⇐ of_result razorpay_api ;
  oid ⇐ ask (create_charge_order amount (first_answer says)) (during_first says) ;
  _ ⇐ session tenant_id (record_order tenant_id claim_id oid amount) ;
  catching
    (pid ⇐ ask (create_recurring_payment email phone amount oid (py_str cust) (py_str tok) (second_answer says))
              (during_second says) ;
     pret (Accepted pid))
    (fun kind code => if bool_decide (code ∈ CHARGE_MAY_HAVE_MOVED_CODES) then pret Unconfirmed else fail (Problem kind code)).

Definition maybe_start_recharge (says : answers) (tenant_id : uuid) : prog A string :=
  claim_id ⇐ draw_id ;
  n ⇐ utc_now ;
  first ⇐ session tenant_id (claim_recharge hmac_hex dumps audit_key tenant_id claim_id n) ;
  match first with
  | Early outcome => pret outcome
  | Claimed amount cust tok payer =>
      asked ⇐ catching (request_payment says tenant_id claim_id amount cust tok payer)
                (fun _ code => _ ⇐ session tenant_id
                                 (fail_charge hmac_hex dumps audit_key max_failures tenant_id claim_id (Some code)) ;
                               pret Refused) ;
      match asked with
      | Refused => pret "failed"
      | Unconfirmed => pret "unconfirmed"
      | Accepted pid => _ ⇐ session tenant_id (record_payment claim_id pid) ; pret "started"
      end
  end.

(** ** The sweep *)

(** The sweep's own totals: a step that raises costs its tenant only. *)
Record totals := Totals { started : nat; unconfirmed : nat; expired : nat; refreshed : nat; failed : nat }.
Definition is_outcome (o : string) (r : result string) : nat :=
  match r with Ok o' => if String.eqb o' o then 1%nat else 0%nat | Err _ => 0%nat end.

(** One step per item; the results, the requests and the state left. *)
Fixpoint each {X B} (f : X -> prog A B) (items : list X) (s : recharge A) : list (result B) * list request * recharge A :=
  match items with
  | [] => ([], [], s)
  | x :: rest =>
      let '(r, asked, s) := f x s in
      let '(rs, more, s) := each f rest s in (r :: rs, asked ++ more, s)
  end.
Definition crashed {B} (rs : list (result B)) : nat := length (List.filter (fun r => negb (is_ok r)) rs).
(** A refused refresh is logged, not a crash. *)
Definition refresh_crashed (rs : list (result (option string))) : nat :=
  length (List.filter (fun r => match r with Ok _ => false | Err (Problem _ _) => false | Err _ => true end) rs).

Definition pending_tenants (s : recharge A) : list uuid :=
  order_by Z.leb (List.nodup Z.eq_dec (map ch_tenant (select is_pending (auto_recharge_charges s)))).

Definition sweep_auto_recharge (creates_orders : bool) (refresh_says start_says : uuid -> answers) (s : recharge A) :
    option totals * list request * recharge A :=
  if negb creates_orders then (None, [], s)
  else
    let '(lapsed, _, s) :=
      each (fun t => n ⇐ utc_now ; session t (expire_unanswered hmac_hex dumps audit_key max_failures t n)) (pending_tenants s) s in
    let '(refreshed_, asked1, s) :=
      each (fun '(t, c, k) => refresh_pending_mandate (refresh_says t) t c k) (pending_mandates s) s in
    let '(begun, asked2, s) := each (fun t => maybe_start_recharge (start_says t) t) (due_tenants s) s in
    (Some (Totals (list_sum (map (is_outcome "started") begun)) (list_sum (map (is_outcome "unconfirmed") begun))
             (list_sum (map (fun r => match r with Ok n => n | Err _ => O end) lapsed))
             (length (List.filter (fun r => match r with Ok (Some s) => negb (String.eqb s "") | _ => false end) refreshed_))
             (list_sum (map (is_outcome "failed") begun) + crashed lapsed + refresh_crashed refreshed_ + crashed begun)),
     asked1 ++ asked2, s).
End Runs.

(** ** What a conversation does to the tables *)
Section Moves.
Context {A : Type} (hmac_hex : string -> string -> string) (dumps : Audit.payload -> string) (audit_key : string).
Context (max_failures : Z).
Implicit Types s : recharge A.
Abbreviation step := (step (A := A) hmac_hex dumps audit_key max_failures).
Abbreviation steps := (steps (A := A) hmac_hex dumps audit_key max_failures).

Lemma step_weaken client i s s' : step client i s s' -> step client None s s'.
Proof.
  intros [].
  - apply step_desk.
  - by eapply step_save.
  - by eapply step_mandate.
  - by eapply step_remember.
  - by eapply step_note.
  - by eapply step_token.
  - by eapply step_forget.
  - by eapply step_cancelled.
  - by eapply step_claim.
  - by eapply step_order.
  - by eapply step_payment.
  - by eapply step_fail.
  - by eapply step_settle.
  - by eapply step_expire.
Qed.
Lemma steps_weaken client i s s' : steps client i s s' -> steps client None s s'.
Proof. induction 1 as [|s1 s2 s3 H _ IH]; [constructor|]. eapply rtc_l; [by eapply step_weaken|exact IH]. Qed.

Definition moves (client : bool) {B} (m : prog A B) : Prop := forall s r l s', m s = (r, l, s') -> steps client None s s'.

Section Closure.
Context {client : bool}.
Abbreviation moves := (moves client).

Lemma moves_pret {B} (b : B) : moves (pret b).
Proof. intros s r l s' [= <- <- <-]. constructor. Qed.
Lemma moves_fail {B} e : moves (fail (B := B) e).
Proof. intros s r l s' [= <- <- <-]. constructor. Qed.
Lemma moves_result {B} (x : result B) : moves (of_result x).
Proof. intros s r l s' [= <- <- <-]. constructor. Qed.
Lemma moves_desk s d : steps client None s (with_desk d s).
Proof. apply rtc_once, step_desk. Qed.
Lemma moves_draw : moves draw_id.
Proof. intros s r l s' [= <- <- <-]. apply moves_desk. Qed.
Lemma moves_now : moves utc_now.
Proof. intros s r l s' [= <- <- <-]. apply moves_desk. Qed.
Lemma moves_ask {B} (x : asks B) f : (forall s, steps client None s (f s)) -> moves (ask x f).
Proof. intros Hf s r l s' [= <- <- <-]. apply Hf. Qed.
Lemma moves_pbind {B C} (m : prog A B) (k : B -> prog A C) : moves m -> (forall b, moves (k b)) -> moves (pbind m k).
Proof.
  intros Hm Hk s r l s' H. unfold pbind in H. destruct (m s) as [[x l1] s1] eqn:E1. apply Hm in E1. destruct x as [b|e].
  - destruct (k b s1) as [[y l2] s2] eqn:E2. apply Hk in E2. injection H as <- <- <-. by etrans.
  - by injection H as <- <- <-.
Qed.
Lemma moves_catching {B} (m : prog A B) h : moves m -> (forall k c, moves (h k c)) -> moves (catching m h).
Proof.
  intros Hm Hk s r l s' H. unfold catching in H. destruct (m s) as [[x l1] s1] eqn:E1. apply Hm in E1.
  destruct x as [b|[kind code| | | | | | | |]]; try by injection H as <- <- <-.
  destruct (h kind code s1) as [[y l2] s2] eqn:E2. apply Hk in E2. injection H as <- <- <-. by etrans.
Qed.
Lemma moves_session {B} tenant (m : tx (recharge A) B) :
  (forall s b s', m s = Ok (b, s') -> steps client None s s') -> moves (session tenant m).
Proof.
  intros Hm s r l s' H. unfold session in H. destruct (m (opened tenant s)) as [[b s1]|e] eqn:E; injection H as <- <- <-.
  - etrans; [apply moves_desk|by eapply Hm].
  - constructor.
Qed.
End Closure.

(** ** The transactions of a run *)

(** The tables of a state under a computation of the desk. *)
Lemma desk_tables {B} (m : tx (pay A) B) s b s' :
  on_desk m s = Ok (b, s') -> auto_recharge_settings s' = auto_recharge_settings s
  /\ auto_recharge_charges s' = auto_recharge_charges s.
Proof. intros H. unfold on_desk in H. destruct (m (desk s)) as [[? d]|]; [|done]. by injection H as <- <-. Qed.

Lemma balance_read_tenant tenant s b s' :
  on_wallet_of (get_balance tenant) s = Ok (b, s') -> rls (wallet (desk s)) = tenant ->
  s' = s /\ amount_inr b = balance_of tenant (credit_ledger (wallet (desk s))).
Proof.
  intros H <-. unfold on_wallet_of, on_desk in H. unfold on_wallet in H. rewrite get_balance_eq in H. injection H as <- <-.
  split; [|apply balance_now_eq]. by destruct s as [[] ? ? ?].
Qed.

(** The charges that count against the month of an instant. *)
Definition spent_in (tenant : uuid) (at_ : instant) (t : list charge) : Q :=
  sum_over ch_amount (select (fun x => (ch_tenant x =? tenant) && counted_in at_ x) t).

(** What a claim was made under. *)
Record claimed_under tenant (n : instant) s (x : settings) : Prop := ClaimedUnder {
  cu_row : In x (auto_recharge_settings s); cu_tenant : ar_tenant x = tenant; cu_on : enabled x = true;
  cu_token : exists t, token_id x = Some t;
  cu_low : (balance_of tenant (credit_ledger (wallet (desk s))) < threshold_inr x)%Q;
  cu_cap : (dadd (spent_in tenant n (auto_recharge_charges s)) (ar_amount x) <= monthly_cap_inr x)%Q;
  cu_idle : forall y, In y (auto_recharge_charges s) -> ch_tenant y = tenant -> is_pending y = false
}.

Lemma insert_charge_spec x s b s' :
  insert_charge x s = Ok (b, s') -> b = true ->
  In x (auto_recharge_charges s') /\ (forall y, In y (auto_recharge_charges s) -> ch_tenant y = ch_tenant x -> is_pending y = false).
Proof.
  intros H ->. unfold insert_charge in H. apply bind_ok in H as ([] & s1 & E & H). apply desk_tables in E as [_ Ec].
  cbv [bind gets modify ret raise] in H. case_in H; [done|]. case_in H; [done|]. rename E0 into En. case_in H; [done|].
  case_in H; [done|]. injection H as <-. simpl. split; [apply in_app_iff; right; by left|].
  intros y Hy Et. destruct (is_pending y) eqn:Ep; [|done]. rewrite Ec in *. rewrite <- En. symmetry.
  apply existsb_exists. exists y. split; [done|]. rewrite Ep. simpl. lia.
Qed.

Lemma recharge_claim_spec tenant i n s amount cust tok payer s' :
  rls (wallet (desk s)) = tenant ->
  claim_recharge hmac_hex dumps audit_key tenant i n s = Ok (Claimed amount cust tok payer, s') ->
  exists x, claimed_under tenant n s x /\ amount = ar_amount x /\ cust = customer_id x /\ tok = token_id x
  /\ exists c, In c (auto_recharge_charges s') /\ ch_id c = i /\ ch_tenant c = tenant /\ ch_amount c = amount /\ is_pending c = true.
Proof.
  intros Hr H. unfold claim_recharge in H. apply bind_ok in H as (row & s1 & E & H). apply row_read in E as [-> Er].
  destruct row as [x|]; [|by apply ret_ok in H as [? _]]. destruct Er as (Hx & Ht & _).
  destruct (enabled x) eqn:Eon; simpl in H; [|by apply ret_ok in H as [? _]].
  destruct (token_id x) as [t|] eqn:Et; simpl in H; [|by apply ret_ok in H as [? _]].
  apply bind_ok in H as (b & s1 & E & H). apply balance_read_tenant in E as [-> Eb]; [|done].
  destruct (dle_spec (threshold_inr x) (amount_inr b)) as [|Hlow]; [by apply ret_ok in H as [? _]|].
  apply bind_ok in H as (sp & s1 & E & H).
  assert (s1 = s /\ sp = spent_in tenant n (auto_recharge_charges s)) as [-> ->].
  { cbv [month_spent AutoRecharge.session_tenant bind gets] in E. injection E as <- <-. split; [done|]. rewrite Hr. unfold spent_in, select.
    f_equal. apply filter_ext. intros y. unfold mine. by destruct (ch_tenant y =? tenant). }
  destruct (dlt_spec (monthly_cap_inr x) (dadd (spent_in tenant n (auto_recharge_charges s)) (ar_amount x))) as [|Hcap];
    [by apply ret_ok in H as [? _]|].
  clear E. apply bind_ok in H as (n' & s1 & E & H). apply gets_ok in E as [-> ->].
  apply bind_ok in H as (ok & s1 & E & H). destruct ok; simpl in H; [|by apply ret_ok in H as [? _]].
  apply insert_charge_spec in E as [Hin Hno]; [|done]. simpl in Hno.
  apply bind_ok in H as ([] & s2 & E2 & H). apply bind_ok in H as ([] & s3 & E3 & H). apply ret_ok in H as [H ->].
  injection H as -> -> -> ->. exists x. split; [constructor; eauto; [rewrite <- Eb|]; lra|]. repeat split; [done|].
  apply desk_tables in E2 as [_ E2]. exists (Charge i tenant ("claim:" +:+ Envelope.uuid_text i) None (ar_amount x) "pending" None None (now (wallet (desk s)))).
  split; [|done].
  assert (E3' : auto_recharge_charges s3 = auto_recharge_charges s2).
  { unfold write_audit in E3. apply bind_ok in E3 as (? & ? & F & E3). apply desk_tables in F as [_ F].
    apply bind_ok in E3 as (? & ? & G & E3). apply desk_tables in G as [_ G]. apply desk_tables in E3 as [_ E3]. congruence. }
  by rewrite E3', E2.
Qed.
(** The charge of a run: its row, with what holds of it. *)
Definition charged (i tenant : uuid) (q : Q) (Q : charge -> Prop) s : Prop :=
  exists c, In c (auto_recharge_charges s) /\ ch_id c = i /\ ch_tenant c = tenant /\ ch_amount c = q /\ Q c.

Lemma charged_mono i tenant q (P Q : charge -> Prop) s : (forall c, P c -> Q c) -> charged i tenant q P s -> charged i tenant q Q s.
Proof. intros H (c & ? & ? & ? & ? & ?). exists c. auto 7. Qed.

Lemma charged_later own i tenant q (P Q : charge -> Prop) s s' :
  (forall x, In x (auto_recharge_charges s) -> exists y, In y (auto_recharge_charges s') /\ later own x y) ->
  (forall x y, In x (auto_recharge_charges s) -> ch_id x = i -> later own x y -> P x -> Q y) ->
  charged i tenant q P s -> charged i tenant q Q s'.
Proof.
  intros Hl Hpq (c & Hc & Ei & Et & Eq & Hp). destruct (Hl c Hc) as (d & Hd & L). exists d.
  pose proof L as [E1 E2 E3 _ _ _ _]. split; [done|]. split; [congruence|]. split; [congruence|]. split; [congruence|]. by eapply Hpq.
Qed.

Lemma settled_later own x y : charge_check x = true -> is_pending x = false -> later own x y -> is_pending y = false.
Proof.
  intros Hc Hp L. unfold charge_check in Hc. apply andb_prop in Hc as [Hc _]. apply andb_prop in Hc as [_ Hc].
  apply bool_decide_eq_true in Hc. unfold is_pending in *. apply String.eqb_neq in Hp. apply String.eqb_neq.
  apply elem_of_cons in Hc as [Hc|Hc]; [done|]. apply elem_of_cons in Hc as [Hc|Hc]; [by rewrite (lt_captured _ _ _ L Hc)|].
  apply list_elem_of_singleton in Hc. destruct (lt_failed _ _ _ L Hc) as [E|E]; by rewrite E.
Qed.

Lemma route_same tenant oid kind p q s u s' :
  record_route tenant oid kind p q s = Ok (u, s') ->
  auto_recharge_charges s' = auto_recharge_charges s /\ rls (wallet (desk s')) = rls (wallet (desk s)).
Proof.
  intros H. unfold record_route in H. apply bind_ok in H as (i & s1 & E & H). injection E as <- <-.
  apply bind_ok in H as (n & s1 & E & H).
  assert (s1 = with_desk (with_wallet (drop_id (wallet (desk s))) (desk s)) s) as ->.
  { destruct q; [|by apply ret_ok in E as [_ ->]]. apply bind_ok in E as (z & s2 & E & F). apply lift_ok in E as [_ ->].
    by apply ret_ok in F as [_ ->]. }
  apply bind_ok in H as ([] & s1 & F & H).
  cbv [on_wallet_of on_desk on_wallet own_tenant bind gets ret raise] in F. case_in F; [|done]. injection F as <-.
  cbv [bind gets modify ret raise] in H. case_in H; [done|]. case_in H; by injection H as _ <-.
Qed.

Lemma order_spec tenant i oid q s b s' P :
  1 <= max_failures -> rls (wallet (desk s)) = tenant -> record_order tenant i oid q s = Ok (b, s') ->
  charged i tenant q P s -> charged i tenant q (fun c => order_id c = oid /\ exists c0, P c0 /\ is_pending c = is_pending c0) s'.
Proof.
  intros Hlim Hr H (c & Hc & Ei & Et & Eq & Hp). unfold record_order in H. apply bind_ok in H as ([] & s1 & E & H).
  assert (auto_recharge_charges s1 = auto_recharge_charges s /\ rls (wallet (desk s1)) = tenant) as [E1 E2].
  { rewrite <- Hr. by eapply route_same. }
  cbv [set_order AutoRecharge.session_tenant bind gets modify ret raise] in H. case_in H; [done|]. injection H as <- <-.
  exists (with_order oid c). simpl. split; [|eauto 8]. apply update_In. exists c. rewrite E1. split; [done|]. by rewrite E2, Ei, Et, !Z.eqb_refl.
Qed.

(** A row that is the same charge, with the same order. *)
Definition same_charge (c0 c : charge) : Prop := order_id c = order_id c0 /\ ch_amount c = ch_amount c0.

Lemma fail_spec tenant i code s b s' q P :
  1 <= max_failures -> recharge_ok max_failures s -> rls (wallet (desk s)) = tenant ->
  fail_charge hmac_hex dumps audit_key max_failures tenant i code s = Ok (b, s') ->
  charged i tenant q P s -> charged i tenant q (fun c => is_pending c = false /\ exists c0, P c0 /\ same_charge c0 c) s'.
Proof.
  intros Hlim Hok Hr H Hch. unfold fail_charge in H. cbv zeta in H.
  set (named := String.substring 0 64 _) in H. clearbody named. apply bind_ok in H as (n & s1 & E & H). apply gets_ok in E as [-> ->].
  apply bind_ok in H as (l & s1 & E & H).
  assert (Ha : advances max_failures true None s s1).
  { revert E. apply advancing_update_charges; [|done|]; intros x Hp; [intros _; split; [|done]|];
      apply andb_prop in Hp as [_ Hp]; by apply failed_later. }
  assert (H1 : charged i tenant q (fun c => is_pending c = false /\ exists c0, P c0 /\ same_charge c0 c) s1).
  { cbv [update_charges AutoRecharge.session_tenant bind gets modify ret raise] in E. case_in E; [done|]. injection E as _ <-.
    destruct Hch as (c & Hc & Ei & Et & Eq & Hp). destruct (is_pending c) eqn:Ep.
    - eexists. split; [apply update_In; exists c; split; [exact Hc|]; rewrite Hr, Ei, Et, !Z.eqb_refl, Ep; reflexivity|].
      repeat split; try done. by exists c.
    - exists c. split; [|repeat split; try done; by exists c]. apply update_In. exists c. split; [done|]. by rewrite Ep, !andb_false_r. }
  assert (Hb : advances max_failures true (Some i) s1 s').
  { revert H. destruct l as [|x l]; [apply advancing_ret|apply advancing_count]. }
  revert H1. eapply charged_later; [apply Hb|]. intros x y Hx Ei L (Hp & c0 & Hc0 & Eo & Ea). split.
  - eapply settled_later; [|exact Hp|exact L].
    destruct (adv_ok _ _ _ _ _ Ha Hok) as [_ _ [C _ _ _]]. rewrite Forall_forall in C. by apply C, list_elem_of_In.
  - exists c0. split; [done|]. split; [rewrite (lt_order _ _ _ L); congruence|rewrite (lt_amount _ _ _ L); congruence].
Qed.

Lemma payment_spec tenant i pid s b s' q P :
  rls (wallet (desk s)) = tenant -> record_payment i pid s = Ok (b, s') -> charged i tenant q P s ->
  charged i tenant q (fun c => (is_pending c = true -> ch_payment_id c = Some pid) /\ exists c0, P c0 /\ same_charge c0 c) s'.
Proof.
  intros Hr H (c & Hc & Ei & Et & Eq & Hp). unfold record_payment in H. apply bind_ok in H as (l & s1 & E & H). apply ret_ok in H as [_ ->].
  cbv [update_charges AutoRecharge.session_tenant bind gets modify ret raise] in E. case_in E; [done|]. injection E as _ <-.
  destruct (is_pending c) eqn:Ep.
  - eexists. split; [apply update_In; exists c; split; [exact Hc|]; rewrite Hr, Ei, Et, !Z.eqb_refl, Ep; reflexivity|].
    repeat split; try done. by exists c.
  - exists c. split; [apply update_In; exists c; split; [done|]; by rewrite Ep, !andb_false_r|]. rewrite Ep. repeat split; try done. by exists c.
Qed.
(** ** A run

    The tests of an answer: in doubt, or naming a payment. *)
Definition payment_in (h : http) : option string :=
  match h with
  | Response status (Some b) =>
      if status <? 400
      then match Envelope.get "razorpay_payment_id" b with
           | Envelope.Str p => if String.eqb p "" then None else Some p
           | _ => None
           end
      else None
  | _ => None
  end.
(** Nothing in the answer proves that the bank was not asked. *)
Definition in_doubt (h : http) : bool :=
  match h with
  | NoResponse => true
  | Response status _ => (500 <=? status) || ((status <? 400) && negb (is_given (payment_in h)))
  end.

Lemma create_recurring_answer email phone q oid cust tok h r l :
  create_recurring_payment email phone q oid cust tok h = (r, l) ->
  match Envelope.inr_to_paise (Envelope.Dec q) with
  | Ok p =>
      l = [CreateRecurring oid p cust tok email phone]
      /\ match r with
         | Ok pid => payment_in h = Some pid
         | Err (Problem _ code) => payment_in h = None /\ bool_decide (code ∈ CHARGE_MAY_HAVE_MOVED_CODES) = in_doubt h
         | Err _ => False
         end
  | Err e => r = Err e /\ l = []
  end.
Proof.
  unfold create_recurring_payment. destruct (Envelope.inr_to_paise _) as [p|e]; intros [= <- <-]; [|done].
  split; [done|]. unfold in_doubt, payment_in, send. destruct h as [|status body]; [done|].
  destruct (Z.leb_spec 400 status), (Z.leb_spec 500 status), (Z.ltb_spec status 400); try lia; simpl; try (by destruct body).
  destruct body as [b|]; [|done]. destruct (Envelope.get "razorpay_payment_id" b) as [| | | |t| |]; try done.
  destruct (String.eqb t "") eqn:E; simpl; by rewrite ?E.
Qed.

(** Other sessions commit transactions, none of which writes this charge's order; those
    that leave the charge in flight. *)
Definition elsewhere (i : uuid) (f : recharge A -> recharge A) : Prop := forall s, steps true (Some i) s (f s).
Definition leaves (i : uuid) (f : recharge A -> recharge A) : Prop := forall s x y,
  In x (auto_recharge_charges s) -> ch_id x = i -> is_pending x = true ->
  In y (auto_recharge_charges (f s)) -> ch_id y = i -> is_pending y = true.

(** What was asked for a charge: its order first, then one payment of that order. *)
Definition requests (cust tok : string) (c : charge) (l : list request) : Prop :=
  l = [] \/ exists p, Envelope.inr_to_paise (Envelope.Dec (ch_amount c)) = Ok p
    /\ (l = [CreateChargeOrder p]
        \/ exists email phone, l = [CreateChargeOrder p; CreateRecurring (order_id c) p cust tok email phone]).

Lemma charged_elsewhere i tenant q f (P : charge -> Prop) s :
  1 <= max_failures -> elsewhere i f -> charged i tenant q P s ->
  charged i tenant q (fun d => exists c, P c /\ order_id d = order_id c /\ (leaves i f -> is_pending c = true -> is_pending d = true)) (f s).
Proof.
  intros Hlim Hf (c & Hc & Ei & Et & Eq & Hp). destruct (steps_advance _ _ _ _ _ _ _ _ Hlim (Hf s)) as [_ Hl _].
  destruct (Hl c Hc) as (d & Hd & L). pose proof L as [E1 E2 E3 _ _ _ E4]. exists d. repeat split; try done; try congruence.
  exists c. split; [done|]. split; [apply E4; congruence|]. intros Hv Hpc. by apply (Hv s c d Hc Ei Hpc Hd); congruence.
Qed.

Lemma opened_charges tenant s : auto_recharge_charges (opened tenant s) = auto_recharge_charges s.
Proof. done. Qed.

(** What the [try] leaves. *)
Record request_result says tenant i (q : Q) cust tok s (r : result asked_for) (l : list request) s' : Prop := RequestResult {
  rr_steps : steps true None s s';
  rr_charge : charged i tenant q (fun c => requests (py_str cust) (py_str tok) c l
    /\ (leaves i (during_first says) -> leaves i (during_second says) -> is_pending c = true)) s';
  rr_refused : r <> Ok Refused;
  rr_doubt : r = Ok Unconfirmed <-> length l = 2%nat /\ in_doubt (second_answer says) = true;
  rr_accepted : forall pid, r = Ok (Accepted pid) -> length l = 2%nat /\ payment_in (second_answer says) = Some pid
}.

Lemma stopped says tenant i q cust tok s e l s' :
  (length l < 2)%nat -> steps true None s s' ->
  charged i tenant q (fun c => requests (py_str cust) (py_str tok) c l
    /\ (leaves i (during_first says) -> leaves i (during_second says) -> is_pending c = true)) s' ->
  request_result says tenant i q cust tok s (Err e) l s'.
Proof. intros Hl Hs Hc. constructor; try done. split; [done|]. intros [? _]. lia. Qed.

(** The end of the [try]: the order recorded, then the payment asked for. *)
Definition pay_order says tenant i (q : Q) email phone cust tok oid : prog A asked_for :=
  _ ⇐ session tenant (record_order tenant i oid q) ;
  catching
    (pid ⇐ ask (create_recurring_payment email phone q oid cust tok (second_answer says)) (during_second says) ;
     pret (Accepted pid))
    (fun kind code => if bool_decide (code ∈ CHARGE_MAY_HAVE_MOVED_CODES) then pret Unconfirmed else fail (Problem kind code)).

Lemma payment_in_doubt h p : payment_in h = Some p -> in_doubt h = false.
Proof.
  unfold payment_in, in_doubt. destruct h as [|st [b|]]; try done. destruct (Z.ltb_spec st 400); [|done]. intros E.
  unfold payment_in. rewrite (proj2 (Z.ltb_lt st 400)), E by done. simpl. lia.
Qed.

Lemma pay_spec says tenant i q email phone cust tok oid s p r l s' :
  1 <= max_failures -> elsewhere i (during_second says) -> Envelope.inr_to_paise (Envelope.Dec q) = Ok p ->
  charged i tenant q (fun c => leaves i (during_first says) -> is_pending c = true) s ->
  pay_order says tenant i q email phone cust tok oid s = (r, l, s') ->
  (exists e, r = Err e /\ l = [] /\ s' = s)
  \/ (l = [CreateRecurring oid p cust tok email phone] /\ steps true None s s'
     /\ charged i tenant q (fun c => order_id c = oid
          /\ (leaves i (during_first says) -> leaves i (during_second says) -> is_pending c = true)) s'
     /\ match r with
        | Ok (Accepted pid) => payment_in (second_answer says) = Some pid
        | Ok Unconfirmed => in_doubt (second_answer says) = true
        | Ok Refused => False
        | Err _ => in_doubt (second_answer says) = false
        end).
Proof.
  intros Hlim H2 Ep Hch H. unfold pay_order, pbind at 1, session in H.
  destruct (record_order tenant i oid q (opened tenant s)) as [[u s2]|e] eqn:Eo; [|injection H as <- <- <-; left; eauto]. right.
  assert (Hst : steps true None s s2).
  { etrans; [apply moves_desk|]. apply rtc_once. by eapply step_order. }
  eapply order_spec in Eo; [|done|done|exact Hch]. unfold catching, pbind, ask in H.
  apply (charged_elsewhere _ _ _ _ _ _ Hlim H2) in Eo. pose proof (steps_weaken _ _ _ _ (H2 s2)) as Hst2.
  set (s3 := during_second says s2) in *.
  assert (Hs' : charged i tenant q (fun c => order_id c = oid
    /\ (leaves i (during_first says) -> leaves i (during_second says) -> is_pending c = true)) s3).
  { revert Eo. apply charged_mono. intros c (c1 & (Eo & c0 & Hc0 & E1) & E2 & Hk). split; [congruence|]. intros V1 V2.
    apply Hk; [done|]. rewrite E1. auto. }
  destruct (create_recurring_payment _ _ _ _ _ _ _) as [a la] eqn:Ea. apply create_recurring_answer in Ea. rewrite Ep in Ea.
  destruct Ea as [-> Ea]. simpl in H. destruct a as [pid|e]; [injection H as <- <- <-|].
  - split; [done|]. split; [by etrans|]. done.
  - destruct e as [kind code| | | | | | | |]; try done. destruct Ea as [Ea1 Ea2]. rewrite Ea2 in H.
    destruct (in_doubt (second_answer says)) eqn:Ed; injection H as <- <- <-; (split; [done|]; split; [by etrans|done]).
Qed.

Lemma request_spec says tenant i q cust tok payer s r l s' users api :
  1 <= max_failures -> elsewhere i (during_first says) -> elsewhere i (during_second says) ->
  charged i tenant q (fun c => is_pending c = true) s ->
  request_payment users api says tenant i q cust tok payer s = (r, l, s') ->
  request_result says tenant i q cust tok s r l s'.
Proof.
  intros Hlim H1 H2 Hch H. unfold request_payment in H.
  assert (Early : forall e, request_result says tenant i q cust tok s (Err e) [] s).
  { intros e. apply stopped; [simpl; lia|constructor|]. revert Hch. apply charged_mono. intros c Hc. split; [by left|done]. }
  unfold pbind at 1 in H. destruct payer as [u|]; [|by injection H as <- <- <-].
  unfold pret at 1 in H. unfold pbind at 1, of_result at 1 in H. destruct (payer_contact users u) as [[[name email] phone]|e];
    [|by injection H as <- <- <-].
  unfold pbind at 1, of_result at 1 in H. destruct api as [[]|e]; [|by injection H as <- <- <-].
  pose proof (charged_elsewhere i tenant q _ _ s Hlim H1 Hch) as Hch1. pose proof (steps_weaken _ _ _ _ (H1 s)) as Hst1.
  unfold pbind at 1, ask at 1 in H. set (s1 := during_first says s) in *.
  assert (Half : forall e l, l = [] \/ (exists p, Envelope.inr_to_paise (Envelope.Dec q) = Ok p /\ l = [CreateChargeOrder p]) ->
    request_result says tenant i q cust tok s (Err e) l s1).
  { intros e l0 Hl. apply stopped; [destruct Hl as [->|(p & _ & ->)]; simpl; lia|done|].
    destruct Hch1 as (c & Hc & Ei & Et & Eq & c0 & Hc0 & _ & Hk). exists c. repeat split; try done; [|auto].
    destruct Hl as [->|(p & Ep & ->)]; [by left|right; exists p]. rewrite Eq. auto. }
  unfold create_charge_order in H. destruct (Envelope.inr_to_paise (Envelope.Dec q)) as [p|e] eqn:Ep; simpl in H;
    [|injection H as <- <- <-; by apply Half; left].
  destruct (match send _ with Ok b => _ | Err e => _ end) as [oid|e]; [|injection H as <- <- <-; apply Half; eauto].
  fold (pay_order says tenant i q email phone (py_str cust) (py_str tok) oid) in H.
  destruct (pay_order _ _ _ _ _ _ _ _ _ _) as [[r2 l2] s2] eqn:Epay. injection H as <- <- <-.
  eapply pay_spec in Epay; [|done|done|exact Ep|revert Hch1; apply charged_mono; intros c (c0 & Hc0 & _ & Hk) Hv; by apply Hk].
  destruct Epay as [(e & -> & -> & ->)|(-> & Hst2 & Hc & Hr)]; [apply Half; eauto|]. constructor.
  - by etrans.
  - destruct Hc as (c & Hc & Ei & Et & Eq & Eo & Hv). exists c. repeat split; try done. right. exists p. rewrite Eq, Eo. eauto 6.
  - intros ->. done.
  - simpl. split; [by intros ->|]. intros [_ Hd]. destruct r2 as [[pid| |]|]; try done; [|congruence].
    apply payment_in_doubt in Hr. congruence.
  - by intros pid ->.
Qed.
Lemma requests_same cust tok c0 c l : same_charge c0 c -> requests cust tok c0 l -> requests cust tok c l.
Proof. intros [Eo Ea]. unfold requests. by rewrite Eo, Ea. Qed.

Lemma claim_early tenant i n s o s' :
  claim_recharge hmac_hex dumps audit_key tenant i n s = Ok (Early o, s') -> o <> "unconfirmed" /\ o <> "started".
Proof.
  intros H. unfold claim_recharge in H. apply bind_ok in H as (row & s1 & _ & H).
  assert (R : forall (a b : start) (u v : recharge A), ret a u = Ok (b, v) -> b = a) by (by intros ???? [-> _]%ret_ok).
  destruct row as [x|]; [|by apply R in H as [= ->]].
  destruct (_ || _) in H; [by apply R in H as [= ->]|]. apply bind_ok in H as (b & s2 & _ & H).
  destruct (dle _ _) in H; [by apply R in H as [= ->]|]. apply bind_ok in H as (sp & s3 & _ & H).
  destruct (dlt _ _) in H; [by apply R in H as [= ->]|]. apply bind_ok in H as (n' & s4 & _ & H).
  apply bind_ok in H as ([] & s5 & _ & H); simpl in H; [|by apply R in H as [= ->]].
  apply bind_ok in H as (? & ? & _ & H). apply bind_ok in H as (? & ? & _ & H). by apply R in H.
Qed.

(** What a run leaves of the charge it claimed. *)
Definition run_charge says (r : result string) (l : list request) (cust tok : string) (c : charge) : Prop :=
  requests cust tok c l
  /\ (r = Ok "unconfirmed" -> leaves (ch_id c) (during_first says) -> leaves (ch_id c) (during_second says) -> is_pending c = true)
  /\ (r = Ok "failed" -> is_pending c = false)
  /\ (r = Ok "started" -> is_pending c = true -> ch_payment_id c = payment_in (second_answer says)).

Lemma finish says tenant i n s x r2 l2 s2 s3 r s' :
  request_result says tenant i (ar_amount x) (customer_id x) (token_id x) s2 r2 l2 s3 ->
  recharge_ok max_failures s' -> claimed_under tenant n s x ->
  charged i tenant (ar_amount x) (fun c =>
    (r = Ok "unconfirmed" -> leaves i (during_first says) -> leaves i (during_second says) -> is_pending c = true)
    /\ (r = Ok "failed" -> is_pending c = false)
    /\ (r = Ok "started" -> is_pending c = true -> ch_payment_id c = payment_in (second_answer says))
    /\ exists c0, requests (py_str (customer_id x)) (py_str (token_id x)) c0 l2 /\ same_charge c0 c) s' ->
  (r = Ok "unconfirmed" <-> r2 = Ok Unconfirmed) -> (r = Ok "started" -> exists pid, r2 = Ok (Accepted pid)) ->
  recharge_ok max_failures s'
  /\ (l2 = [] \/ exists x, claimed_under tenant n s x
        /\ charged i tenant (ar_amount x) (run_charge says r l2 (py_str (customer_id x)) (py_str (token_id x))) s')
  /\ (r = Ok "unconfirmed" <-> length l2 = 2%nat /\ in_doubt (second_answer says) = true)
  /\ (r = Ok "started" -> length l2 = 2%nat /\ in_doubt (second_answer says) = false).
Proof.
  intros Hr Hok Hu (c & Hc & Ei & Et & Eq & F1 & F2 & F3 & c0 & F4 & F5) R1 R2. split; [done|]. split; [|split].
  - right. exists x. split; [done|]. exists c. unfold run_charge. rewrite Ei. repeat split; try done.
    by eapply requests_same.
  - rewrite R1. apply Hr.
  - intros E. destruct (R2 E) as [pid Ep]. destruct (rr_accepted _ _ _ _ _ _ _ _ _ _ Hr pid Ep) as [Hl Hp].
    split; [done|]. by eapply payment_in_doubt.
Qed.

(** What follows the claim. *)
Definition after_claim users api says tenant i amount cust tok payer : prog A string :=
  asked ⇐ catching (request_payment users api says tenant i amount cust tok payer)
            (fun _ code => _ ⇐ session tenant (fail_charge hmac_hex dumps audit_key max_failures tenant i (Some code)) ;
                           pret Refused) ;
  match asked with
  | Refused => pret "failed"
  | Unconfirmed => pret "unconfirmed"
  | Accepted pid => _ ⇐ session tenant (record_payment i pid) ; pret "started"
  end.

Lemma claimed_run users api says tenant i n s x payer s2 r l s' :
  1 <= max_failures -> elsewhere i (during_first says) -> elsewhere i (during_second says) ->
  (forall t, steps true None s t -> recharge_ok max_failures t) -> steps true None s s2 -> claimed_under tenant n s x ->
  charged i tenant (ar_amount x) (fun c => is_pending c = true) s2 ->
  after_claim users api says tenant i (ar_amount x) (customer_id x) (token_id x) payer s2 = (r, l, s') ->
  recharge_ok max_failures s'
  /\ (l = [] \/ exists x, claimed_under tenant n s x
        /\ charged i tenant (ar_amount x) (run_charge says r l (py_str (customer_id x)) (py_str (token_id x))) s')
  /\ (r = Ok "unconfirmed" <-> length l = 2%nat /\ in_doubt (second_answer says) = true)
  /\ (r = Ok "started" -> length l = 2%nat /\ in_doubt (second_answer says) = false).
Proof.
  intros Hlim H1 H2 Ok1 Hs2 Hu' Hch H. unfold after_claim, pbind at 1, catching at 1 in H.
  destruct (request_payment users api says tenant i _ _ _ payer s2) as [[r2 l2] s3] eqn:Er.
  apply (request_spec _ _ _ _ _ _ _ _ _ _ _ _ _ Hlim H1 H2 Hch) in Er. clear Hch.
  assert (Hs3 : steps true None s s3) by (etrans; [exact Hs2|apply Er]).
  assert (Ha : charged i tenant (ar_amount x) (fun c => requests (py_str (customer_id x)) (py_str (token_id x)) c l2) s3).
  { generalize (rr_charge _ _ _ _ _ _ _ _ _ _ Er). apply charged_mono. by intros c [? _]. }
  destruct r2 as [[pid| |]|e]; [| |by destruct (rr_refused _ _ _ _ _ _ _ _ _ _ Er)|].
  - unfold pbind at 1, session at 1 in H.
    destruct (record_payment i pid (opened tenant s3)) as [[u s4]|e] eqn:Ep; simpl in H; injection H as <- <- <-; rewrite app_nil_r.
    + eapply finish; [exact Er| |exact Hu'| |done|by eauto].
      * apply Ok1. etrans; [exact Hs3|]. eapply rtc_l; [apply step_desk|]. apply rtc_once. by eapply step_payment.
      * eapply payment_spec in Ep; [|done|exact Ha]. revert Ep. apply charged_mono.
         intros c (Hp & c0 & Hc0 & Hs). repeat split; try done; [|by exists c0]. intros _ E. rewrite (Hp E). symmetry.
         by apply (rr_accepted _ _ _ _ _ _ _ _ _ _ Er).
    + eapply finish; [exact Er|by apply Ok1|exact Hu'| |done|done].
      revert Ha. apply charged_mono. intros c Hc. repeat split; try done. by exists c.
  - simpl in H. injection H as <- <- <-. rewrite app_nil_r. eapply finish; [exact Er|by apply Ok1|exact Hu'| |done|done].
    generalize (rr_charge _ _ _ _ _ _ _ _ _ _ Er). apply charged_mono. intros c [Hc Hv]. repeat split; try done. by exists c.
  - assert (Hkeep : forall r', r' = Err e \/ (exists e', r' = Err e') -> charged i tenant (ar_amount x) (fun c =>
      (r' = Ok "unconfirmed" -> leaves i (during_first says) -> leaves i (during_second says) -> is_pending c = true)
      /\ (r' = Ok "failed" -> is_pending c = false)
      /\ (r' = Ok "started" -> is_pending c = true -> ch_payment_id c = payment_in (second_answer says))
      /\ exists c0, requests (py_str (customer_id x)) (py_str (token_id x)) c0 l2 /\ same_charge c0 c) s3).
    { intros r' Hr'. revert Ha. apply charged_mono. intros c Hc. destruct Hr' as [->|[e' ->]]; repeat split; try done; by exists c. }
    destruct e as [kind code| | | | | | | |];
      try (injection H as <- <- <-; eapply finish; [exact Er|by apply Ok1|exact Hu'|apply Hkeep; by left|done|done]).
    unfold pbind at 1, session at 1 in H.
    destruct (fail_charge _ _ _ _ _ _ _ (opened tenant s3)) as [[u s4]|e] eqn:Ef; simpl in H; injection H as <- <- <-;
      rewrite ?app_nil_r.
    + assert (Hs4 : steps true None s (opened tenant s3)) by (etrans; [exact Hs3|]; eapply rtc_l; [apply step_desk|constructor]).
      eapply finish; [exact Er| |exact Hu'| |done|done].
      * apply Ok1. etrans; [exact Hs4|]. apply rtc_once. by eapply step_fail.
      * eapply fail_spec in Ef; [|done|by apply Ok1|done|exact Ha]. revert Ef. apply charged_mono.
         intros c (Hp & c0 & Hc0 & Hs). repeat split; try done. by exists c0.
    + eapply finish; [exact Er|by apply Ok1|exact Hu'|apply Hkeep; eauto|done|done].
Qed.

(** C24. A run of [maybe_start_recharge], whatever the provider answers and the other
    sessions commit meanwhile.  It asks the provider for something only after claiming a
    charge: of a tenant whose switch is on, with a token, a balance below its threshold, no
    charge in flight, and room for the amount in the month's limit.  It then asks for one
    order and at most one payment, of the order recorded on the charge and the charge's
    amount in paise.  The outcome is [unconfirmed] exactly when the payment was asked for
    and the answer does not prove that the bank was not, and the charge then stays in
    flight unless another session settles it; after [failed] it is not in flight; after
    [started] it carries the payment's id while it is. *)
Theorem recharge_run says tenant s r l s' users api :
  1 <= max_failures -> recharge_ok max_failures s ->
  elsewhere (ids (wallet (desk s)) 0) (during_first says) -> elsewhere (ids (wallet (desk s)) 0) (during_second says) ->
  maybe_start_recharge hmac_hex dumps audit_key max_failures users api says tenant s = (r, l, s') ->
  recharge_ok max_failures s'
  /\ (l = [] \/ exists x, claimed_under tenant (ticks (wallet (desk s)) 0) s x
        /\ charged (ids (wallet (desk s)) 0) tenant (ar_amount x)
             (run_charge says r l (py_str (customer_id x)) (py_str (token_id x))) s')
  /\ (r = Ok "unconfirmed" <-> length l = 2%nat /\ in_doubt (second_answer says) = true)
  /\ (r = Ok "started" -> length l = 2%nat /\ in_doubt (second_answer says) = false).
Proof.
  intros Hlim Hok H1 H2 H. set (i := ids _ _) in *. set (n := ticks (wallet (desk s)) 0) in *.
  unfold maybe_start_recharge in H. unfold pbind at 1, draw_id at 1 in H. fold i in H.
  unfold pbind at 1, utc_now at 1 in H. simpl in H. fold n in H.
  set (s1 := with_desk _ (with_desk _ s)) in H. unfold pbind at 1, session at 1 in H.
  assert (Hs0 : steps true None s (opened tenant s1)).
  { do 3 (eapply rtc_l; [apply step_desk|]). constructor. }
  assert (Hs1 : steps true None s s1) by (do 2 (eapply rtc_l; [apply step_desk|]); constructor).
  assert (Ok1 : forall t, steps true None s t -> recharge_ok max_failures t) by (intros t Ht; by eapply steps_advance).
  destruct (claim_recharge hmac_hex dumps audit_key tenant i n (opened tenant s1)) as [[[o|q cust tok payer] s2]|e] eqn:Ec.
  - apply claim_early in Ec as Ho. injection H as <- <- <-.
    split; [apply Ok1; etrans; [exact Hs0|]; apply rtc_once; by eapply step_claim|]. split; [by left|].
    split; [split; [intros [= ->]; by destruct Ho|by intros [? _]]|intros [= ->]; by destruct Ho].
  - assert (Hs2 : steps true None s s2) by (etrans; [exact Hs0|]; apply rtc_once; by eapply step_claim).
    apply recharge_claim_spec in Ec as (x & Hu & -> & -> & -> & Hch); [|done].
    assert (Hu' : claimed_under tenant n s x) by (destruct Hu; by constructor).
    fold (after_claim users api says tenant i (ar_amount x) (customer_id x) (token_id x) payer) in H.
    destruct (after_claim _ _ _ _ _ _ _ _ _ _) as [[r2 l2] s3] eqn:Er. injection H as <- <- <-. by eapply claimed_run.
  - injection H as <- <- <-. split; [by apply Ok1|]. split; [by left|]. split; [split; [done|by intros [? _]]|done].
Qed.
End Moves.

(** ** An example: a recharge begun, and one left in doubt *)

Definition example_users : list member := [Member 9 (Some "Asha") (Some "asha@example.com") (Some "+919800000000")].
Definition example_says (payment : http) : answers (A := unit) :=
  Answers (Response 200 (Some (Envelope.Obj [("id", Envelope.Str "order_1")]))) payment id id.
Definition example_answer : http := Response 200 (Some (Envelope.Obj [("razorpay_payment_id", Envelope.Str "pay_1")])).
Definition example_run (payment : http) :=
  maybe_start_recharge keyed_hmac no_dump "k" 3 example_users (Ok tt) (example_says payment) 7 example_state.
Definition example_requests : list request :=
  [CreateChargeOrder 200000; CreateRecurring "order_1" 200000 "cust_1" "token_1" "asha@example.com" "+919800000000"].

Lemma recharge_run_witness :
  fst (fst (example_run example_answer)) = Ok "started" /\ snd (fst (example_run example_answer)) = example_requests
  /\ fst (fst (example_run NoResponse)) = Ok "unconfirmed" /\ snd (fst (example_run NoResponse)) = example_requests
  /\ recharge_ok 3 (snd (example_run NoResponse)).
Proof.
  split; [vm_compute; reflexivity|]. split; [vm_compute; reflexivity|]. split; [vm_compute; reflexivity|].
  split; [vm_compute; reflexivity|].
  apply (recharge_run keyed_hmac no_dump "k" 3 (example_says NoResponse) 7 example_state
           (fst (fst (example_run NoResponse))) (snd (fst (example_run NoResponse))) (snd (example_run NoResponse))
           example_users (Ok tt)); [lia|exact example_ok|intros s; constructor|intros s; constructor|].
  unfold example_run. by destruct (maybe_start_recharge _ _ _ _ _ _ _ _ _) as [[r l] s'].
Defined.

End RechargeRun.
