(* ===== verification/Refunds.v ===== *)
(** * Refunds

    apps/api/billing/payments.py from [RefundEvent] on.  A refund is claimed and
    committed before the provider is asked for it ([claim_refund], [release_refund_claim],
    [bind_refund_claim], [claim_of_failed_refund]), so two operators cannot together return
    more than the payment, and recorded on the wallet once the provider has processed it
    ([credit_refund], which takes the pack's bonus back in proportion). *)

From Stdlib Require Import ZArith Lia List QArith Qabs Lqa.
From stdpp Require Import base list strings relations.
From S2P Require Import Prelude PyDecimal Sql PyTime AuditLog WalletDb RateCard Lots Ledger Wallet Envelope Payments.

Local Open Scope string_scope.
Local Open Scope list_scope.
Local Open Scope Z_scope.
Local Open Scope tx_scope.

Import Lots Ledger Wallet Envelope Payments.

Module Refunds.

Definition OPEN_STATES : list string := ["open"; "under_review"].
Definition PACK_BONUS_CLAWBACK_META_KIND : string := "credit_pack_bonus_clawback".

Record RefundClaim := MkClaim { refund_key : string; claimed : bool }.

(** The rows of a payment's refunds on the ledger, and of its clawed-back bonus. *)
Definition refund_of (r tenant : uuid) (pid : string) (e : entry) : bool :=
  own r tenant e && bool_decide (e_reason e = "refund") && json_text_is "payment_ref" pid (e_meta e).
Definition clawback_of (r tenant : uuid) (pid : string) (e : entry) : bool :=
  own r tenant e && bool_decide (e_reason e = "bonus")
  && json_text_is "kind" PACK_BONUS_CLAWBACK_META_KIND (e_meta e) && json_text_is "payment_ref" pid (e_meta e).

Definition abs_sum (p : entry -> bool) (t : list entry) : Q := sum_over (fun e => Qabs (e_delta e)) (select p t).

Section Refunds.
Context {A : Type}.
(** SHA-256 of the canonical JSON of a refund's facts, and the audit log's. *)
Context (body_hash : string -> Q -> nat -> string).
Context (hmac_hex : string -> string -> string) (dumps : Audit.payload -> string) (audit_key : string).
Abbreviation audit_system := (audit_system (A := A) hmac_hex dumps audit_key).

Definition refund_idempotency_key (pid : string) (amount : Q) (attempt : nat) : string :=
  "rfnd_" +:+ String.substring 0 32 (body_hash pid (to_paise amount) attempt).

Definition refunded_total_inr (tenant_id : uuid) (pid : string) : tx (pay A) Q :=
  on_wallet (gets (fun w => abs_sum (refund_of (rls w) tenant_id pid) (credit_ledger w))).

(** A session's rows of [refund_intents] for a payment. *)
Definition intent_of (r tenant : uuid) (pid : string) (i : intent) : bool :=
  (in_tenant i =? r) && (in_tenant i =? tenant) && String.eqb (in_payment_ref i) pid.
Definition is_live (i : intent) : bool := match failed_at i with None => true | Some _ => false end.

Definition claimed_refund_total_inr (tenant_id : uuid) (pid : string) : tx (pay A) Q :=
  gets (fun s => sum_over in_amount
    (select (fun i => intent_of (rls (wallet s)) tenant_id pid i && is_live i) (refund_intents s))).

Definition unspent_credit_of_payment (tenant_id : uuid) (pid : string) (eid : uuid) : tx (pay A) Q :=
  l ← on_wallet (purchase_lot_of_entry tenant_id eid) ;
  match l with
  | None => ret 0%Q
  | Some l =>
      remaining ← on_wallet (gets (fun w =>
        match select (fun x => (l_tenant x =? rls w) && (l_id x =? el_lot l)) (credit_lots w) with
        | x :: _ => credits_remaining x
        | [] => 0%Q
        end)) ;
      already ← claimed_refund_total_inr tenant_id pid ;
      refunded ← refunded_total_inr tenant_id pid ;
      let pending := dmax (dsub already refunded) 0 in
      ret (to_paise (dmax (dsub remaining pending) 0))
  end.

(** [WHERE tenant_id AND payment_id AND status = ANY(open, under_review, lost)]. *)
Definition blocking (r tenant : uuid) (pid : string) (d : dispute_row) : bool :=
  (dr_tenant d =? r) && (dr_tenant d =? tenant) && String.eqb (dr_payment_id d) pid
  && bool_decide (dr_status d ∈ OPEN_STATES ++ ["lost"]).

Definition refuse_if_disputed (tenant_id : uuid) (pid : string) : tx (pay A) unit :=
  rows ← gets (fun s => select (blocking (rls (wallet s)) tenant_id pid) (payment_disputes s)) ;
  match rows with
  | [] => ret tt
  | _ => if existsb (fun d => String.eqb (dr_status d) "lost") rows
         then raise (Problem BusinessRule "refund_payment_charged_back")
         else raise (Problem BusinessRule "refund_payment_disputed")
  end.

(** The INSERT, with the table's CHECK, its unique index and the policy. *)
Definition insert_intent (i : intent) : tx (pay A) unit :=
  on_wallet (own_tenant (in_tenant i)) ;;
  t ← gets refund_intents ;
  if dle (in_amount i) 0 then raise (CheckViolation "amount_positive")
  else if existsb (fun x => (in_tenant x =? in_tenant i) && String.eqb (in_key x) (in_key i)) t
  then raise (UniqueViolation "ux_refund_intents_tenant_key")
  else modify (with_intents (t ++ [i])).

Definition claim_refund (tenant_id : uuid) (pid : string) (amount payment_total : Q) (topup_entry : uuid) :
    tx (pay A) RefundClaim :=
  same ← gets (fun s => select (fun i => intent_of (rls (wallet s)) tenant_id pid i && deq (in_amount i) amount)
                          (refund_intents s)) ;
  match select is_live same with
  | live :: _ => ret (MkClaim (in_key live) false)
  | [] =>
      refuse_if_disputed tenant_id pid ;;
      let failed_attempts := rowcount (fun i => negb (is_live i)) same in
      let key := refund_idempotency_key pid amount failed_attempts in
      already ← claimed_refund_total_inr tenant_id pid ;
      let remaining := dsub payment_total already in
      if dlt remaining amount then raise (Problem BusinessRule "refund_exceeds_payment")
      else
        unspent ← unspent_credit_of_payment tenant_id pid topup_entry ;
        if dlt unspent amount then raise (Problem BusinessRule "refund_exceeds_unspent")
        else
          u ← on_wallet uuid7 ;
          a ← (fun s => lift (numeric_12_4 amount) s) ;
          t ← on_wallet (gets now) ;
          insert_intent (Intent u tenant_id pid key a None None t) ;;
          ret (MkClaim key true)
  end.

(** [WHERE tenant_id AND refund_key], under the policy. *)
Definition has_key (r tenant : uuid) (key : string) (i : intent) : bool :=
  (in_tenant i =? r) && (in_tenant i =? tenant) && String.eqb (in_key i) key.

Definition set_failed (at_ : instant) (rid : option string) (i : intent) : intent :=
  Intent (in_id i) (in_tenant i) (in_payment_ref i) (in_key i) (in_amount i) (Some at_)
    (match refund_ref i with Some r => Some r | None => rid end) (in_created_at i).
Definition set_ref (rid : string) (i : intent) : intent :=
  Intent (in_id i) (in_tenant i) (in_payment_ref i) (in_key i) (in_amount i) (failed_at i)
    (Some rid) (in_created_at i).

Definition release_refund_claim (tenant_id : uuid) (key : string) (rid : option string) : tx (pay A) unit :=
  modify (fun s => with_intents
    (update (fun i => has_key (rls (wallet s)) tenant_id key i && is_live i) (set_failed (now (wallet s)) rid)
       (refund_intents s)) s).

Definition bind_refund_claim (tenant_id : uuid) (key rid : string) : tx (pay A) unit :=
  modify (fun s => with_intents
    (update (fun i => has_key (rls (wallet s)) tenant_id key i
                      && match refund_ref i with None => true | Some _ => false end) (set_ref rid)
       (refund_intents s)) s).

(** The row that is this refund's first, then one not bound yet. *)
Definition claim_of_failed_refund (tenant_id : uuid) (rf : RefundEvent) : tx (pay A) (option string) :=
  gets (fun s =>
    let mine := select (fun i => (in_tenant i =? rls (wallet s)) && (in_tenant i =? tenant_id)) (refund_intents s) in
    let bound i := bool_decide (refund_ref i = Some (refund_id rf)) in
    if existsb (fun i => bound i && negb (is_live i)) mine then None
    else
      let candidates := select is_live mine in
      match select bound candidates
            ++ select (fun i => bool_decide (refund_ref i = None) && String.eqb (in_payment_ref i) (rf_payment_id rf)
                                && deq (in_amount i) (rf_amount_inr rf)) candidates with
      | i :: _ => Some (in_key i)
      | [] => None
      end).

Definition clawed_back_bonus_inr (tenant_id : uuid) (pid : string) : tx (pay A) Q :=
  on_wallet (gets (fun w => abs_sum (clawback_of (rls w) tenant_id pid) (credit_ledger w))).

(** What the splits add to a [meta]. *)
Definition with_splits (ss : list LotSplit) : list (string * jval) :=
  match ss with [] => [] | _ => [lots_meta ss] end.

Definition claw_back_pack_bonus (rf : RefundEvent) (ip : option string) : tx (pay A) Q :=
  let tenant_id := rf_tenant rf in
  let pid := rf_payment_id rf in
  paid ← on_wallet (find_topup tenant_id [PWord pid]) ;
  grant ← on_wallet (find_entry_by_ref tenant_id "bonus" [PWord pid]) ;
  match paid, grant with
  | Some paid, Some grant =>
      if dle (entry_amount paid) 0 || dle (entry_amount grant) 0 then ret 0%Q
      else
        refunded ← refunded_total_inr tenant_id pid ;
        let target := dmin (entry_amount grant)
          (quantize MONEY_SCALE ROUND_HALF_UP
             (ddiv (dmul (entry_amount grant) refunded) (entry_amount paid))) in
        already ← clawed_back_bonus_inr tenant_id pid ;
        let delta := dsub target already in
        if dle delta 0 then ret 0%Q
        else
          removal ← on_wallet (remove_credit_from_lots tenant_id (Some (entry_id grant)) delta) ;
          on_wallet (record_entry tenant_id (dneg delta) "bonus" (Some [PWord (refund_id rf)])
            ([("kind", JText PACK_BONUS_CLAWBACK_META_KIND); ("source", JText PROVIDER);
              ("payment_ref", JText pid); ("refund_ref", JText (refund_id rf));
              ("granted_inr", JDec (entry_amount grant)); ("clawed_back_inr", JDec delta)]
             ++ with_splits (rm_splits removal)) true false) ;;
          audit_system tenant_id "credit.pack_bonus_clawback" "credit_ledger" (uuid_text (entry_id grant)) ip ;;
          ret delta
  | _, _ => ret 0%Q
  end.

Definition credit_refund (rf : RefundEvent) (ip : option string) : tx (pay A) TopUpResult :=
  let tenant_id := rf_tenant rf in
  let amount := rf_amount_inr rf in
  existing ← on_wallet (find_entry_by_ref tenant_id "refund" [PWord (refund_id rf)]) ;
  match existing with
  | Some e =>
      if negb (deq (dabs (entry_amount e)) amount) then raise (Problem Conflict "refund_amount_conflict")
      else
        clawback ← on_wallet (find_entry_by_ref tenant_id "bonus" [PWord (refund_id rf)]) ;
        b ← on_wallet (get_balance tenant_id) ;
        ret (TopUp (entry_id e) b false None None
               (match clawback with None => 0%Q | Some c => dabs (entry_amount c) end))
  | None =>
      paid ← on_wallet (find_topup tenant_id [PWord (rf_payment_id rf)]) ;
      removal ← on_wallet (remove_credit_from_lots tenant_id (option_map entry_id paid) amount) ;
      balance ← on_wallet (record_entry tenant_id (dneg amount) "refund" (Some [PWord (refund_id rf)])
        ([("source", JText PROVIDER); ("currency", JText (rf_currency rf));
          ("payment_ref", JText (rf_payment_id rf))] ++ with_splits (rm_splits removal)) true false) ;
      written ← on_wallet (find_entry_by_ref tenant_id "refund" [PWord (refund_id rf)]) ;
      match written with
      | None => raise AssertionError
      | Some w =>
          audit_system tenant_id "credit.refund" "credit_ledger" (uuid_text (entry_id w)) ip ;;
          clawed ← claw_back_pack_bonus rf ip ;
          balance ← (if dlt 0 clawed then on_wallet (get_balance tenant_id) else ret balance) ;
          ret (TopUp (entry_id w) balance true None None clawed)
      end
  end.
End Refunds.

(** ** Credit taken back *)

Lemma newest_skip_app p t es : Forall (fun e => p e = false) es -> newest p (t ++ es) = newest p t.
Proof.
  induction es as [|e es IH] using rev_ind; intros H; [by rewrite app_nil_r|].
  apply Forall_app in H as [H He]. rewrite app_assoc, newest_skip by (by inversion He). by apply IH.
Qed.

(** A reference other than those of the entries that put lapsed credit back. *)
Definition ordinary (reason : string) (r : ref) : Prop :=
  reason = "adjustment" -> forall i u, r <> [PWord CREDIT_EXPIRY_RESTATED_META_KIND; PId i; PId u].

Lemma ordinary_reason reason r : reason <> "adjustment" -> ordinary reason r.
Proof. by intros H ?. Qed.

Lemma adjustments_entry_at s s' reason r :
  rls s' = rls s -> adjustments_added s s' -> ordinary reason r ->
  entry_at (rls s) reason r s' = entry_at (rls s) reason r s.
Proof.
  intros Hr (es & El & He) Ho. unfold entry_at. rewrite El, Hr, newest_skip_app; [done|].
  apply List.Forall_forall. intros e Hin. rewrite List.Forall_forall in He. unfold has_ref.
  destruct (He e Hin) as (-> & i & u & ->). destruct (decide ("adjustment" = reason)) as [<-|Hne].
  - rewrite (bool_decide_false (Some _ = Some r)); [by rewrite andb_false_r|]. intros [= E]. by apply (Ho eq_refl i u).
  - by rewrite (bool_decide_false ("adjustment" = reason)), andb_false_r.
Qed.

(** A debit of [a] off the wallet that corrects the entry [ce]: credit taken off the lots,
    the entry's own first, and one entry of exactly [- a] under its reference. *)
Definition debited (reason : string) (r : ref) (ce : option uuid) (a : Q) (w w' : db) : Prop :=
  exists rm w1 e, taken_off w ce a rm w1
    /\ credit_lots w' = credit_lots w1 /\ credit_ledger w' = credit_ledger w1 ++ [e]
    /\ e_tenant e = rls w /\ e_reason e = reason /\ e_ref e = Some r /\ (e_delta e == - a)%Q
    /\ (balance_held w' == balance_held w + lapse_due w ce a - a)%Q.

(** Removing credit and recording why, the way a refund, a clawback and a hold do. *)
Lemma taken_back w ce a rm w1 reason r meta b w2 :
  wallet_ok w -> is_money a -> (0 < a < numeric_limit)%Q -> (forall s, marks_old s reason meta) ->
  remove_credit_from_lots (rls w) ce a w = Ok (rm, w1) ->
  record_entry (rls w) (dneg a) reason (Some r) meta true false w1 = Ok (b, w2) ->
  wallet_ok w2 /\ rls w2 = rls w /\ (amount_inr b == balance_held w2)%Q
  /\ (balance_held w2 == balance_held w + expiry_restated_inr rm - a)%Q
  /\ (0 <= expiry_restated_inr rm <= a)%Q
  /\ (exists x, entry_at (rls w) reason r w2 = Some x /\ (entry_amount x == - a)%Q)
  /\ (forall reason' r', ordinary reason' r' -> (reason', r') <> (reason, r) ->
        entry_at (rls w) reason' r' w2 = entry_at (rls w) reason' r' w)
  /\ (exists es e, credit_ledger w2 = credit_ledger w ++ es ++ [e] /\ Forall restating es
       /\ e_tenant e = rls w /\ e_reason e = reason /\ (e_delta e == - a)%Q /\ e_meta e = meta
       /\ newest (has_ref (rls w2) (rls w2) reason r) (credit_ledger w2) = Some e)
  /\ debited reason r ce a w w2.
Proof.
  intros Hw Hm Ha Hold Hrm Hrec. pose proof (remove_credit_taken w ce a rm w1 Hw Hm Ha Hrm) as Hto.
  destruct (remove_credit_spec w ce a rm w1 Hw Hm Ha Hrm) as (Ho & Hr1 & Hb1 & Hx & Hadj).
  assert (Hn : (dneg a == - a)%Q).
  { pose proof numeric_limit_bound. apply round28_money; [auto with money|qabs]. }
  assert (Hnm : is_money (dneg a)) by (rewrite Hn; auto with money).
  rewrite <- Hr1 in Hrec.
  assert (Hz : deq (dneg a) 0 && negb false = false) by (destruct (deq_spec (dneg a) 0); [lra|reflexivity]).
  destruct (record_found a w1 (dneg a) reason r meta true false b w2 Ho Hnm Hz (Hold w1) Hrec)
    as (Ho2 & Hr2 & Hb & Hb2 & (x & Hxe & Hxa & _) & Hother & (e & El & Et & Er & Ed & Em & Hnew) & _).
  destruct (record_entry_moved w1 (dneg a) reason (Some r) meta true false b w2 (ow_tables _ _ Ho) Hnm (Hold w1) Hrec Hz)
    as (_ & _ & Hlots & (e' & El' & _ & _ & _ & _ & Ef & _) & _).
  assert (e' = e) as -> by (rewrite El in El'; by apply app_inj_tail in El' as [_ ->]).
  split; [apply owing_0; eapply owing_eq; [|exact Ho2]; rewrite Hn; ring|]. split; [congruence|]. split; [done|].
  split; [rewrite Hb2, Hb1, Hn; ring|]. split; [done|]. rewrite Hr1 in *.
  split; [exists x; split; [done|by rewrite Hxa]|]. split; [|split].
  - intros reason' r' Hadj' Hne'. rewrite Hother by done. by apply adjustments_entry_at.
  - destruct Hadj as (es & Hes & Hall). exists es, e. split; [by rewrite El, Hes, app_assoc|]. split; [done|].
    split; [done|]. split; [done|]. split; [by rewrite Ed|by split].
  - exists rm, w1, e. split; [done|]. split; [done|]. split; [done|]. split; [congruence|]. split; [done|]. split; [done|].
    split; [by rewrite Ed, Hn|]. pose proof Hto as [Elap _]. rewrite <- Elap, Hb2, Hb1, Hn. ring.
Qed.

(** ** Sums over a ledger that grew *)

Lemma abs_sum_app p t1 t2 : (abs_sum p (t1 ++ t2) == abs_sum p t1 + abs_sum p t2)%Q.
Proof. unfold abs_sum, select. rewrite List.filter_app. apply sum_over_app. Qed.

Lemma abs_sum_none p es : Forall (fun e => p e = false) es -> abs_sum p es = 0%Q.
Proof.
  intros H. unfold abs_sum. assert (select p es = []) as ->; [|done].
  unfold select. induction H as [|e es He _ IH]; [done|]. simpl. by rewrite He.
Qed.

Lemma abs_sum_one p e : (abs_sum p [e] == if p e then Qabs (e_delta e) else 0)%Q.
Proof. unfold abs_sum, select. simpl. destruct (p e); unfold sum_over; simpl; ring. Qed.

Lemma clawback_reason r t pid e : e_reason e <> "bonus" -> clawback_of r t pid e = false.
Proof. intros H. unfold clawback_of. by rewrite (bool_decide_false (e_reason e = "bonus")), andb_false_r by done. Qed.

Lemma is_money_abs q : is_money q -> is_money (Qabs q).
Proof. intros H. destruct (Qlt_le_dec q 0) as [Hq|Hq]; [rewrite Qabs_neg by lra|rewrite Qabs_pos by lra]; auto with money. Qed.

Lemma abs_sum_money p t : Forall row_ok t -> is_money (abs_sum p t).
Proof.
  intros H. rewrite List.Forall_forall in H. unfold abs_sum. apply is_money_sum_over. intros e He.
  apply select_In in He as [He _]. apply is_money_abs. by destruct (H e He).
Qed.

Lemma abs_sum_nonneg p t : (0 <= abs_sum p t)%Q.
Proof.
  unfold abs_sum, sum_over. apply qsum_nonneg, List.Forall_forall. intros q Hq.
  apply in_map_iff in Hq as (e & <- & _). apply Qabs_nonneg.
Qed.

Lemma json_get_here k v o : json_get k ((k, v) :: o) = Some v.
Proof. simpl. by rewrite bool_decide_true. Qed.
Lemma json_get_skip k k' v o : k <> k' -> json_get k ((k', v) :: o) = json_get k o.
Proof. intros H. simpl. by rewrite bool_decide_false. Qed.

(** ** Taking the pack's bonus back *)

Section RefundLaws.
Context {A : Type}.
Context (body_hash : string -> Q -> nat -> string).
Context (hmac_hex : string -> string -> string) (dumps : Audit.payload -> string) (audit_key : string).
Abbreviation claw_back_pack_bonus := (claw_back_pack_bonus (A := A) hmac_hex dumps audit_key).
Abbreviation credit_refund := (credit_refund (A := A) hmac_hex dumps audit_key).

(** What of a payment's bonus was taken back so far, and what was refunded of it. *)
Definition clawed (w : db) (pid : string) : Q := abs_sum (clawback_of (rls w) (rls w) pid) (credit_ledger w).
Definition refunded (w : db) (pid : string) : Q := abs_sum (refund_of (rls w) (rls w) pid) (credit_ledger w).

(** No more of a bonus is taken back than was granted. *)
Definition bonus_kept (w : db) (pid : string) : Prop :=
  forall g, entry_at (rls w) "bonus" [PWord pid] w = Some g -> (0 < entry_amount g)%Q -> (clawed w pid <= entry_amount g)%Q.

Lemma entry_at_amount w t reason r x :
  ledger_ok w -> entry_at t reason r w = Some x ->
  is_money (entry_amount x) /\ (- numeric_limit < entry_amount x < numeric_limit)%Q.
Proof.
  intros Hk Hx. unfold entry_at in Hx. destruct (newest _ _) as [e|] eqn:E; [|done]. injection Hx as <-.
  apply newest_In in E as [Hin _]. pose proof (lk_rows w Hk) as Hr. rewrite List.Forall_forall in Hr.
  destruct (Hr e Hin) as (H1 & _ & _ & _ & H2 & H3). done.
Qed.

(** The share of the bonus that falls with what was refunded. *)
Definition clawback_target (g refunded_ paid : Q) : Q :=
  dmin g (quantize MONEY_SCALE ROUND_HALF_UP (ddiv (dmul g refunded_) paid)).

Lemma clawback_target_range g r p :
  is_money g -> (0 < g)%Q -> (0 <= r)%Q -> (0 < p)%Q ->
  is_money (clawback_target g r p) /\ (0 <= clawback_target g r p <= g)%Q.
Proof.
  intros Hm Hg Hr Hp. unfold clawback_target. set (x := quantize _ _ _).
  assert (Hx : (0 <= x)%Q).
  { apply quantize_nonneg. unfold ddiv. apply round28_nonneg.
    apply Qle_shift_div_l; [done|]. rewrite Qmult_0_l. unfold dmul. apply round28_nonneg. nra. }
  split; [apply is_money_min; [done|apply is_money_quantize]|].
  destruct (dmin_spec g x) as [[? ->]|[? ->]]; lra.
Qed.

(** The share of the bonus that is due back and was not taken yet. *)
Definition bonus_share (w : db) (pid : string) : Q :=
  match entry_at (rls w) "topup" [PWord pid] w, entry_at (rls w) "bonus" [PWord pid] w with
  | Some paid, Some grant =>
      if dle (entry_amount paid) 0 || dle (entry_amount grant) 0 then 0
      else pos (clawback_target (entry_amount grant) (refunded w pid) (entry_amount paid) - clawed w pid)
  | _, _ => 0
  end.

(** Taking [q] of the bonus back for the refund [rid]: off the lot of the grant. *)
Definition bonus_taken (pid rid : string) (q : Q) (w w' : db) : Prop :=
  if dlt 0 q
  then exists g, entry_at (rls w) "bonus" [PWord pid] w = Some g
       /\ debited "bonus" [PWord rid] (Some (entry_id g)) q w w'
  else w' = w.

Lemma debited_aside reason r ce a w w' w'' : aside w' w'' -> debited reason r ce a w w' -> debited reason r ce a w w''.
Proof.
  intros Ha (rm & w1 & e & H1 & H2 & H3 & H4 & H5 & H6 & H7 & H8). exists rm, w1, e.
  rewrite (as_lots _ _ Ha), (as_ledger _ _ Ha). split; [done|]. do 6 (split; [done|]). by rewrite (aside_held _ _ Ha).
Qed.

Lemma refund_reason t1 t2 pid e : e_reason e <> "refund" -> refund_of t1 t2 pid e = false.
Proof. intros H. unfold refund_of. by rewrite (bool_decide_false (e_reason e = "refund")), andb_false_r by done. Qed.

Lemma restating_reason es e : Forall restating es -> In e es -> e_reason e = "adjustment".
Proof. rewrite List.Forall_forall. intros H Hin. by destruct (H e Hin) as [-> _]. Qed.

Lemma claw_back_spec rf ip s q s' :
  wallet_ok (wallet s) -> rf_tenant rf = rls (wallet s) -> refund_id rf <> rf_payment_id rf ->
  bonus_kept (wallet s) (rf_payment_id rf) ->
  claw_back_pack_bonus rf ip s = Ok (q, s') ->
  wallet_ok (wallet s') /\ rls (wallet s') = rls (wallet s) /\ same_desk s s' /\ (0 <= q)%Q
  /\ ((q == bonus_share (wallet s) (rf_payment_id rf))%Q
      /\ bonus_taken (rf_payment_id rf) (refund_id rf) q (wallet s) (wallet s')
      /\ (clawed (wallet s') (rf_payment_id rf) == clawed (wallet s) (rf_payment_id rf) + q)%Q
      /\ (refunded (wallet s') (rf_payment_id rf) == refunded (wallet s) (rf_payment_id rf))%Q)
  /\ bonus_kept (wallet s') (rf_payment_id rf)
  /\ (forall r, entry_at (rls (wallet s)) "refund" r (wallet s') = entry_at (rls (wallet s)) "refund" r (wallet s))
  /\ (dlt 0 q = false -> s' = s).
Proof.
  intros Hw Ht Hids Hkept H. set (pid := rf_payment_id rf) in *. set (w := wallet s) in *.
  assert (Hk : ledger_ok w) by (apply owing_0 in Hw; apply (tb_ledger _ (ow_tables _ _ Hw))).
  assert (Hidle : forall s1, ret 0%Q s = Ok (q, s1) -> s1 = s /\ q = 0%Q) by (intros s1 E; by apply ret_ok in E as [-> ->]).
  assert (Hdone : s' = s -> q = 0%Q -> (bonus_share w pid == 0)%Q ->
    wallet_ok (wallet s') /\ rls (wallet s') = rls w /\ same_desk s s' /\ (0 <= q)%Q
    /\ ((q == bonus_share w pid)%Q /\ bonus_taken pid (refund_id rf) q w (wallet s')
        /\ (clawed (wallet s') pid == clawed w pid + q)%Q /\ (refunded (wallet s') pid == refunded w pid)%Q)
    /\ bonus_kept (wallet s') pid
    /\ (forall r, entry_at (rls w) "refund" r (wallet s') = entry_at (rls w) "refund" r w) /\ (dlt 0 q = false -> s' = s)).
  { intros -> -> E0. split; [done|]. split; [done|]. split; [done|]. split; [lra|]. split; [|done].
    split; [by rewrite E0|]. split; [done|]. fold w. split; [ring|done]. }
  unfold Refunds.claw_back_pack_bonus in H. cbv zeta in H. rewrite Ht in H. fold w pid in H.
  erewrite bind_run in H; [|apply on_wallet_run; unfold find_topup; rewrite find_entry_at; reflexivity].
  rewrite with_wallet_same in H.
  erewrite bind_run in H; [|apply on_wallet_run; rewrite find_entry_at; reflexivity]. rewrite with_wallet_same in H. fold w in H.
  assert (Esh : bonus_share w pid = bonus_share w pid) by done. unfold bonus_share in Esh at 2.
  destruct (entry_at (rls w) "topup" [PWord pid] w) as [paid|]; [|apply Hidle in H as [-> ->]; apply Hdone; [done|done|by rewrite Esh]].
  destruct (entry_at (rls w) "bonus" [PWord pid] w) as [g|] eqn:Eg; [|apply Hidle in H as [-> ->]; apply Hdone; [done|done|by rewrite Esh]].
  destruct (dle_spec (entry_amount paid) 0) as [Hp|Hp]; [apply Hidle in H as [-> ->]; apply Hdone; [done|done|by rewrite Esh, ?orb_true_r]|].
  destruct (dle_spec (entry_amount g) 0) as [Hg|Hg]; [apply Hidle in H as [-> ->]; apply Hdone; [done|done|by rewrite Esh, ?orb_true_r]|]. cbn [orb] in H, Esh.
  erewrite bind_run in H; [|unfold refunded_total_inr; apply on_wallet_run; unfold gets; reflexivity].
  rewrite with_wallet_same in H. fold w in H. fold (refunded w pid) in H.
  fold (clawback_target (entry_amount g) (refunded w pid) (entry_amount paid)) in H.
  erewrite bind_run in H; [|unfold clawed_back_bonus_inr; apply on_wallet_run; unfold gets; reflexivity].
  rewrite with_wallet_same in H. fold w in H. fold (clawed w pid) in H.
  set (target := clawback_target _ _ _) in *. set (delta := dsub target (clawed w pid)) in *.
  destruct (entry_at_amount w _ _ _ _ Hk Eg) as [Hgm [_ Hgl]].
  destruct (clawback_target_range (entry_amount g) (refunded w pid) (entry_amount paid) Hgm ltac:(lra) ltac:(apply abs_sum_nonneg) ltac:(lra))
    as [Htm [Ht0 Htg]]. fold target in Htm, Ht0, Htg.
  assert (Hcm : is_money (clawed w pid)) by (apply abs_sum_money, Hk).
  assert (Hc0 : (0 <= clawed w pid)%Q) by apply abs_sum_nonneg.
  pose proof (Hkept g Eg ltac:(lra)) as Hcg. pose proof numeric_limit_bound as Hlb.
  assert (Hdx : (delta == target - clawed w pid)%Q) by (apply dsub_money; [exact Htm|exact Hcm|lra|lra]).
  destruct (dle_spec delta 0) as [Hd|Hd]; [apply Hidle in H as [-> ->]; apply Hdone; [done|done|]; rewrite Esh, <- Hdx; pos_case; lra|].
  assert (Hdm : is_money delta) by (rewrite Hdx; auto with money).
  apply bind_ok in H as (rm & s1 & Hrm & H). apply on_wallet_ok in Hrm as (w1 & Hrm & ->). fold w in Hrm.
  apply bind_ok in H as (b & s1 & Hrec & H). apply on_wallet_ok in Hrec as (w2 & Hrec & ->). simpl in Hrec.
  apply bind_ok in H as (u & s4 & Hau & H). apply audit_system_quiet in Hau as [Hq Hds]. apply ret_ok in H as [-> ->].
  simpl in Hq.
  destruct (taken_back w _ delta rm w1 "bonus" _ _ b w2 Hw Hdm ltac:(lra) (fun s0 => marks_old_reason s0 "bonus" _ ltac:(discriminate)) Hrm Hrec)
    as (T1 & T2 & T3 & T4 & T5 & T6 & T7 & (es & e & El & Hes & Ete & Er & Ed & Em & _) & Hdeb).
  assert (Hcl : (clawed w2 pid == target)%Q).
  { unfold clawed in *. rewrite T2, El, !abs_sum_app, abs_sum_one.
    rewrite (abs_sum_none _ es).
    2:{ apply List.Forall_forall. intros x Hx. rewrite List.Forall_forall in Hes. apply clawback_reason. by destruct (Hes x Hx) as [-> _]. }
    assert (clawback_of (rls w) (rls w) pid e = true) as ->.
    { unfold clawback_of, own, json_text_is. rewrite Ete, Er, Em, Z.eqb_refl, bool_decide_true by done.
      cbn [app]. rewrite json_get_here, !json_get_skip, json_get_here by discriminate. by rewrite !bool_decide_true by reflexivity. }
    rewrite Ed, Qabs_opp, Qabs_pos by lra. lra. }
  split; [by eapply aside_wallet_ok|]. split; [rewrite (as_rls _ _ Hq); done|].
  split; [desk|]. split; [lra|]. split; [|split; [|split]].
  - split; [rewrite Esh, <- Hdx; pos_case; lra|]. split; [|split].
    + unfold bonus_taken. fold w. destruct (dlt_spec 0 delta); [|lra]. exists g. split; [exact Eg|].
      by eapply debited_aside.
    + unfold clawed at 1. rewrite (as_rls _ _ Hq), (as_ledger _ _ Hq). fold (clawed w2 pid). rewrite Hcl, Hdx. fold w. ring.
    + unfold refunded. rewrite (as_rls _ _ Hq), (as_ledger _ _ Hq), T2, El, !abs_sum_app, abs_sum_one. fold w.
      rewrite (abs_sum_none _ es), (refund_reason _ _ _ e) by (try (by rewrite Er);
        apply List.Forall_forall; intros x Hx; apply refund_reason; by rewrite (restating_reason es x Hes Hx)). ring.
  - intros g' Eg' _. rewrite (as_rls _ _ Hq), T2, (aside_entry_at _ _ _ _ _ Hq), T7, Eg in Eg'; [|by apply ordinary_reason|congruence].
    injection Eg' as <-. unfold clawed. rewrite (as_rls _ _ Hq), (as_ledger _ _ Hq). fold (clawed w2 pid). lra.
  - intros r. rewrite (aside_entry_at _ _ _ _ _ Hq). by apply T7; [apply ordinary_reason|].
  - destruct (dlt_spec 0 delta); [done|lra].
Qed.

(** ** Recording a refund *)

(** A refund as [extract_refund] reads it. *)
Record refund_ok (rf : RefundEvent) : Prop := RefundOk {
  ro_money : is_money (rf_amount_inr rf);
  ro_amount : (0 < rf_amount_inr rf < numeric_limit)%Q;
  ro_ids : refund_id rf <> rf_payment_id rf
}.

Lemma kept_by_others w w2 pid es e :
  rls w2 = rls w -> credit_ledger w2 = credit_ledger w ++ es ++ [e] ->
  Forall restating es -> e_reason e <> "bonus" ->
  entry_at (rls w) "bonus" [PWord pid] w2 = entry_at (rls w) "bonus" [PWord pid] w ->
  bonus_kept w pid -> bonus_kept w2 pid.
Proof.
  intros Hr El Hes He Hb Hk g. rewrite Hr, Hb. intros Hg H0. specialize (Hk g Hg H0).
  unfold clawed in *. rewrite Hr, El, !abs_sum_app, abs_sum_one, (abs_sum_none _ es), clawback_reason; [lra|done|].
  apply List.Forall_forall. intros x Hx. rewrite List.Forall_forall in Hes. apply clawback_reason. by destruct (Hes x Hx) as [-> _].
Qed.

Lemma bonus_kept_aside w w' pid : aside w w' -> bonus_kept w pid -> bonus_kept w' pid.
Proof.
  intros Ha Hk g. rewrite (as_rls _ _ Ha), (aside_entry_at _ _ _ _ _ Ha). unfold clawed.
  rewrite (as_rls _ _ Ha), (as_ledger _ _ Ha). apply Hk.
Qed.

(** The answer to a refund already on the ledger. *)
Lemma refund_replay rf ip s x :
  rf_tenant rf = rls (wallet s) -> entry_at (rf_tenant rf) "refund" [PWord (refund_id rf)] (wallet s) = Some x ->
  credit_refund rf ip s
  = if deq (dabs (entry_amount x)) (rf_amount_inr rf)
    then Ok (TopUp (entry_id x) (balance_read (wallet s)) false None None
               (match entry_at (rf_tenant rf) "bonus" [PWord (refund_id rf)] (wallet s) with
                | None => 0%Q | Some c => dabs (entry_amount c) end), s)
    else Err (Problem Conflict "refund_amount_conflict").
Proof.
  intros Ht Hx. unfold Refunds.credit_refund. cbv zeta.
  erewrite bind_run; [|apply on_wallet_run; rewrite find_entry_at, Hx; reflexivity].
  rewrite with_wallet_same. destruct (deq (dabs (entry_amount x)) (rf_amount_inr rf)); cbn [negb]; [|done].
  erewrite bind_run; [|apply on_wallet_run; rewrite find_entry_at; reflexivity]. rewrite with_wallet_same.
  rewrite Ht. apply (read_balance_run (fun b => TopUp (entry_id x) b false None None _)).
Qed.

Lemma dabs_neg q a : is_money a -> (0 < a < numeric_limit)%Q -> (q == - a)%Q -> (dabs q == a)%Q.
Proof.
  intros Hm Ha E. unfold dabs. destruct (Qle_bool 0 q) eqn:Eq.
  { apply Qle_bool_iff in Eq. lra. }
  pose proof numeric_limit_bound. assert (E' : (- q == a)%Q) by (rewrite E; ring).
  rewrite round28_money; [done|by rewrite E'|]. rewrite E', Qabs_pos by lra. lra.
Qed.

(** A refund that was applied: its amount is debited, the lot of its payment first, and
    then [q], the share of the bonus due once it counts among what was refunded. *)
Definition refund_applied (rf : RefundEvent) (q : Q) (w w' : db) : Prop :=
  exists w1,
    debited "refund" [PWord (refund_id rf)]
      (option_map entry_id (entry_at (rls w) "topup" [PWord (rf_payment_id rf)] w)) (rf_amount_inr rf) w w1
    /\ (refunded w1 (rf_payment_id rf) == refunded w (rf_payment_id rf) + rf_amount_inr rf)%Q
    /\ (clawed w1 (rf_payment_id rf) == clawed w (rf_payment_id rf))%Q
    /\ (q == bonus_share w1 (rf_payment_id rf))%Q
    /\ bonus_taken (rf_payment_id rf) (refund_id rf) q w1 w'
    /\ (clawed w' (rf_payment_id rf) == clawed w (rf_payment_id rf) + q)%Q
    /\ (refunded w' (rf_payment_id rf) == refunded w (rf_payment_id rf) + rf_amount_inr rf)%Q.

Lemma refund_spec rf ip s r s' :
  wallet_ok (wallet s) -> rf_tenant rf = rls (wallet s) -> refund_ok rf ->
  bonus_kept (wallet s) (rf_payment_id rf) ->
  credit_refund rf ip s = Ok (r, s') ->
  wallet_ok (wallet s') /\ rls (wallet s') = rls (wallet s) /\ same_desk s s'
  /\ bonus_kept (wallet s') (rf_payment_id rf)
  /\ (amount_inr (tu_balance r) == balance_held (wallet s'))%Q
  /\ (exists x, entry_at (rf_tenant rf) "refund" [PWord (refund_id rf)] (wallet s') = Some x
        /\ entry_id x = tu_entry r /\ (dabs (entry_amount x) == rf_amount_inr rf)%Q)
  /\ (if recorded r then refund_applied rf (bonus_clawed_back_inr r) (wallet s) (wallet s') else s' = s).
Proof.
  intros Hw Ht [Hm Ha Hids] Hkept H. set (w := wallet s) in *.
  assert (Hk : ledger_ok w) by (apply owing_0 in Hw; apply (tb_ledger _ (ow_tables _ _ Hw))).
  destruct (entry_at (rf_tenant rf) "refund" [PWord (refund_id rf)] w) as [x|] eqn:Ex.
  { rewrite (refund_replay rf ip s x Ht Ex) in H. destruct (deq_spec (dabs (entry_amount x)) (rf_amount_inr rf)) as [E|]; [|done].
    injection H as <- <-. cbn [recorded tu_balance tu_entry]. split; [done|]. split; [done|]. split; [done|]. split; [done|].
    split; [by apply balance_now_held|]. split; [by exists x|done]. }
  unfold Refunds.credit_refund in H. cbv zeta in H.
  erewrite bind_run in H; [|apply on_wallet_run; rewrite find_entry_at; fold w; rewrite Ex; reflexivity].
  change (with_wallet w s) with (with_wallet (wallet s) s) in H. rewrite with_wallet_same in H.
  erewrite bind_run in H; [|apply on_wallet_run; unfold find_topup; rewrite find_entry_at; reflexivity].
  rewrite with_wallet_same in H. set (a := rf_amount_inr rf) in *. set (pid := rf_payment_id rf) in *. rewrite Ht in *. fold w in H.
  apply bind_ok in H as (rm & s1 & Hrm & H). apply on_wallet_ok in Hrm as (w1 & Hrm & ->). fold w in Hrm.
  apply bind_ok in H as (b & s1 & Hrec & H). apply on_wallet_ok in Hrec as (w2 & Hrec & ->). simpl in Hrec.
  destruct (taken_back w _ a rm w1 "refund" _ _ b w2 Hw Hm Ha (fun s0 => marks_old_reason s0 "refund" _ ltac:(discriminate)) Hrm Hrec)
    as (T1 & T2 & T3 & T4 & T5 & (x & Tx & Txa) & T7 & (es & e & El & Hes & Ete & Er & Ed & Em & _) & Hdeb).
  assert (Hrf : (refunded w2 pid == refunded w pid + a)%Q /\ (clawed w2 pid == clawed w pid)%Q).
  { unfold refunded, clawed. rewrite T2, El, !abs_sum_app, !abs_sum_one.
    rewrite (abs_sum_none _ es), (abs_sum_none (clawback_of _ _ _) es), (clawback_reason _ _ _ e) by (try (by rewrite Er);
      apply List.Forall_forall; intros y Hy; (apply refund_reason || apply clawback_reason); by rewrite (restating_reason es y Hes Hy)).
    split; [|ring]. assert (refund_of (rls w) (rls w) pid e = true) as ->.
    { unfold refund_of, own, json_text_is. rewrite Ete, Er, Em, Z.eqb_refl, bool_decide_true by done.
      cbn [app]. rewrite !json_get_skip, json_get_here by discriminate. by rewrite bool_decide_true. }
    rewrite Ed, Qabs_opp, Qabs_pos by lra. ring. }
  erewrite bind_run in H; [|apply on_wallet_run; rewrite find_entry_at; cbn [wallet with_wallet]; rewrite Tx; reflexivity].
  cbv iota beta in H.
  apply bind_ok in H as (u & s4 & Hau & H). apply audit_system_quiet in Hau as [Hq Hds]. cbn [wallet with_wallet] in Hq.
  assert (Hkept4 : bonus_kept (wallet s4) pid).
  { eapply bonus_kept_aside; [exact Hq|]. eapply kept_by_others; [exact T2|exact El|exact Hes|by rewrite Er| |done].
    apply T7; [by apply ordinary_reason|congruence]. }
  assert (Hr4 : rls (wallet s4) = rls w) by by rewrite (as_rls _ _ Hq).
  assert (Hd4 : same_desk s s4) by desk.
  assert (Hb4 : balance_held (wallet s4) = balance_held w2) by by apply aside_held.
  assert (Hx4 : entry_at (rls w) "refund" [PWord (refund_id rf)] (wallet s4) = Some x) by by rewrite (aside_entry_at _ _ _ _ _ Hq).
  assert (Hrf4 : (refunded (wallet s4) pid == refunded w pid + a)%Q /\ (clawed (wallet s4) pid == clawed w pid)%Q).
  { unfold refunded, clawed. by rewrite (as_rls _ _ Hq), (as_ledger _ _ Hq). }
  pose proof (debited_aside _ _ _ _ _ _ _ Hq Hdeb) as Hdeb4.
  pose proof (aside_wallet_ok _ _ T1 Hq) as Hw4. clear Hq Hds.
  apply bind_ok in H as (q & s5 & Hc & H).
  destruct (claw_back_spec rf ip s4 q s5 Hw4 ltac:(congruence) Hids Hkept4 Hc) as (C1 & C2 & C3 & C4 & (C5 & C5t & C5c & C5r) & C6 & C7 & C8).
  assert (Hfin : exists bal, r = TopUp (entry_id x) bal true None None q /\ s' = s5 /\ (amount_inr bal == balance_held (wallet s5))%Q).
  { apply bind_ok in H as (bal & s6 & Hb & H). apply ret_ok in H as [-> ->]. exists bal.
    destruct (dlt 0 q) eqn:Eq.
    - apply on_wallet_ok in Hb as (w6 & Hb & ->). rewrite <- Hr4, <- C2, get_balance_eq in Hb. injection Hb as <- <-.
      rewrite with_wallet_same. split; [done|]. split; [done|]. apply balance_now_held.
      apply owing_0 in C1. apply (tb_ledger _ (ow_tables _ _ C1)).
    - apply ret_ok in Hb as [-> ->]. split; [done|]. split; [done|]. rewrite (C8 eq_refl), Hb4. done. }
  destruct Hfin as (bal & -> & -> & Hbal). cbn [recorded tu_balance tu_entry bonus_clawed_back_inr].
  split; [done|]. split; [congruence|]. split; [by eapply same_desk_trans|]. split; [done|]. split; [done|]. split.
  - exists x. rewrite <- Hr4, C7, Hr4. split; [done|]. split; [done|]. by apply dabs_neg.
  - exists (wallet s4). split; [exact Hdeb4|]. destruct Hrf4 as [Hrf4 Hcl4]. split; [done|]. split; [done|].
    split; [done|]. split; [done|]. fold pid in C5c, C5r |- *. split; [rewrite C5c, Hcl4; ring|rewrite C5r; exact Hrf4].
Qed.

(** C2. A refund is recorded once and exactly.  When it is recorded, its amount is debited
    off the lot of its payment first (lapsed credit of that lot being put back for the
    purpose) and then off the others; it counts among what was refunded of the payment,
    and the share of the pack's bonus that falls with all that was refunded, less what
    was taken back before, is debited off the lot of the grant in the same way and
    reported: exactly that share, which is none when no pack was bought and never more
    in all than was granted.  The wallet stays in balance whatever was spent, lapsed or
    re-priced since; delivering the refund again changes nothing, with a different
    amount refused. *)
Theorem refund_exact rf ip s r s' :
  wallet_ok (wallet s) -> rf_tenant rf = rls (wallet s) -> refund_ok rf ->
  bonus_kept (wallet s) (rf_payment_id rf) ->
  credit_refund rf ip s = Ok (r, s') ->
  wallet_ok (wallet s') /\ same_desk s s' /\ bonus_kept (wallet s') (rf_payment_id rf)
  /\ (amount_inr (tu_balance r) == balance_held (wallet s'))%Q
  /\ (if recorded r then refund_applied rf (bonus_clawed_back_inr r) (wallet s) (wallet s') else s' = s)
  /\ forall rf' ip', refund_id rf' = refund_id rf -> rf_tenant rf' = rf_tenant rf ->
       if deq (rf_amount_inr rf) (rf_amount_inr rf')
       then exists r', credit_refund rf' ip' s' = Ok (r', s') /\ recorded r' = false /\ tu_entry r' = tu_entry r
       else credit_refund rf' ip' s' = Err (Problem Conflict "refund_amount_conflict").
Proof.
  intros Hw Ht Hok Hkept H.
  destruct (refund_spec rf ip s r s' Hw Ht Hok Hkept H) as (H1 & H2 & H3 & H4 & H5 & (x & Hx & Hi & Hxa) & H7).
  split; [done|]. split; [done|]. split; [done|]. split; [done|]. split; [done|].
  intros rf' ip' Eid Et. rewrite (refund_replay rf' ip' s' x); [|congruence|by rewrite Et, Eid].
  rewrite (deq_proper_l _ _ _ Hxa). destruct (deq (rf_amount_inr rf) (rf_amount_inr rf')); [|done].
  eexists. split; [reflexivity|]. by rewrite <- Hi.
Qed.
End RefundLaws.

(** ** Claims

    The rows of [refund_intents] over every transaction of the program. *)

Section Claims.
Context {A : Type}.
Context (body_hash : string -> Q -> nat -> string).
(** What was paid: the top-up a payment's refunds are claimed against. *)
Context (total : uuid -> string -> Q).
Context (total_ok : forall t pid, is_money (total t pid) /\ (0 <= total t pid < numeric_limit)%Q).
Abbreviation claim_refund := (claim_refund (A := A) body_hash).
Abbreviation key_of := (refund_idempotency_key body_hash).

(** The refunds of the same amount of one payment are attempts at one refund. *)
Definition same_refund (i x : intent) : bool :=
  (in_tenant x =? in_tenant i) && String.eqb (in_payment_ref x) (in_payment_ref i) && deq (in_amount x) (in_amount i).

Definition live_total (t : uuid) (pid : string) (I : list intent) : Q :=
  sum_over in_amount (select (fun i => intent_of t t pid i && is_live i) I).

(** Each attempt has the key of its number, and all the attempts before it failed. *)
Definition numbered (I : list intent) : Prop :=
  forall l1 i l2, I = l1 ++ i :: l2 ->
    in_key i = key_of (in_payment_ref i) (in_amount i) (rowcount (same_refund i) l1)
    /\ forall x, In x l1 -> same_refund i x = true -> is_live x = false.

Record intents_ok (I : list intent) : Prop := IntentsOk {
  io_ceiling : forall t pid, (live_total t pid I <= total t pid)%Q;
  io_amounts : Forall (fun i => Ledger.is_paise (in_amount i) /\ (0 < in_amount i)%Q) I;
  io_numbered : numbered I
}.

(** What one UPDATE of this table does to a row: it fails it, or binds it. *)
Definition settled (i i' : intent) : Prop :=
  in_tenant i' = in_tenant i /\ in_payment_ref i' = in_payment_ref i /\ in_key i' = in_key i
  /\ in_amount i' = in_amount i /\ (is_live i' = true -> is_live i = true).

Lemma update_settled p f I : (forall i, settled i (f i)) -> Forall2 settled I (update p f I).
Proof.
  intros Hf. unfold update. induction I as [|i I IH]; simpl; [constructor|]. constructor; [|done].
  destruct (p i); [apply Hf|done].
Qed.

Lemma settled_total I I' t pid :
  Forall2 settled I I' -> Forall (fun i => Ledger.is_paise (in_amount i) /\ (0 < in_amount i)%Q) I ->
  (live_total t pid I' <= live_total t pid I)%Q.
Proof.
  unfold live_total, select, sum_over. induction 1 as [|i i' I I' (E1 & E2 & _ & E4 & Hl) _ IH]; intros Hp; [done|].
  apply Forall_cons in Hp as [[_ Hi] Hp]. specialize (IH Hp). simpl.
  assert (intent_of t t pid i' = intent_of t t pid i) as -> by (unfold intent_of; by rewrite E1, E2).
  destruct (intent_of t t pid i); simpl; [|done].
  destruct (is_live i'); [rewrite Hl by done; simpl; rewrite E4; lra|]. destruct (is_live i); simpl; lra.
Qed.

Lemma settled_same i i' x x' : settled i i' -> settled x x' -> same_refund i' x' = same_refund i x.
Proof. intros (A1 & A2 & _ & A4 & _) (B1 & B2 & _ & B4 & _). unfold same_refund. by rewrite A1, A2, A4, B1, B2, B4. Qed.

Lemma settled_numbered I I' : Forall2 settled I I' -> numbered I -> numbered I'.
Proof.
  intros H HN l1' i' l2' E. subst I'. apply Forall2_app_inv_r in H as (l1 & l2 & H1 & H2 & ->).
  inversion H2 as [|i ? l2'' ? Hi Hl2]; subst. destruct (HN l1 i l2'' eq_refl) as [Hk Hf].
  pose proof Hi as (_ & E2 & E3 & E4 & _). split.
  - rewrite E3, E2, E4, Hk. f_equal. clear HN Hk Hf H2. unfold rowcount, select.
    induction H1 as [|x x' l l' Hx _ IH]; simpl; [done|]. rewrite (settled_same i i' x x') by done.
    destruct (same_refund i x); simpl; congruence.
  - intros x' Hx' Hs. apply not_true_is_false. intros Hlive.
    apply list_elem_of_In in Hx'. apply list_elem_of_lookup in Hx' as (n & Hn).
    destruct (Forall2_lookup_r _ _ _ _ _ H1 Hn) as (x & Hnx & Hxx).
    assert (In x l1) as Hin by (apply list_elem_of_In, list_elem_of_lookup; by exists n).
    rewrite (settled_same i i' x x') in Hs by done. specialize (Hf x Hin Hs).
    destruct Hxx as (_ & _ & _ & _ & Hl). specialize (Hl Hlive). congruence.
Qed.

Lemma settled_intents_ok I I' : Forall2 settled I I' -> intents_ok I -> intents_ok I'.
Proof.
  intros H [H1 H2 H3]. constructor.
  - intros t pid. eapply Qle_trans; [by apply settled_total|apply H1].
  - clear H1 H3. induction H as [|i i' I I' (_ & _ & _ & E & _) _ IH]; [done|].
    apply Forall_cons in H2 as [? H2]. constructor; [by rewrite E|auto].
  - by eapply settled_numbered.
Qed.

Lemma release_ok t key rid (s : pay A) u s' :
  release_refund_claim t key rid s = Ok (u, s') -> intents_ok (refund_intents s) -> intents_ok (refund_intents s').
Proof.
  intros H. apply modify_ok in H as ->. apply settled_intents_ok, update_settled. intros i. by repeat split.
Qed.

Lemma bind_claim_ok t key rid (s : pay A) u s' :
  bind_refund_claim t key rid s = Ok (u, s') -> intents_ok (refund_intents s) -> intents_ok (refund_intents s').
Proof.
  intros H. apply modify_ok in H as ->. apply settled_intents_ok, update_settled. intros i. by repeat split.
Qed.

Lemma to_paise_eq a b : (a == b)%Q -> to_paise a = to_paise b.
Proof. intros E. unfold to_paise, quantize. by rewrite E. Qed.

Lemma key_of_eq pid a b n : (a == b)%Q -> key_of pid a n = key_of pid b n.
Proof. intros E. unfold refund_idempotency_key. by rewrite (to_paise_eq a b). Qed.

Lemma to_paise_is_paise a : Ledger.is_paise a -> (to_paise a == a)%Q.
Proof. intros [z Hz]. by apply (quantize_id PAISE_SCALE _ _ z). Qed.

(** The key's hash tells the attempts in the table from the one claimed next. *)
Definition keys_apart (I : list intent) (pid : string) (a : Q) : Prop :=
  forall i n m, In i I -> (n <= length I)%nat -> (m <= length I)%nat ->
    key_of (in_payment_ref i) (in_amount i) n = key_of pid a m ->
    in_payment_ref i = pid /\ (to_paise (in_amount i) == to_paise a)%Q /\ n = m.

Lemma unspent_returns (s : pay A) t pid e :
  tables_ok (wallet s) -> exists q, unspent_credit_of_payment t pid e s = Ok (q, s).
Proof.
  intros Ht. destruct (purchase_lot_returns (wallet s) t e Ht) as (o & Ho & _). unfold unspent_credit_of_payment.
  erewrite bind_run; [|by apply on_wallet_run]. rewrite with_wallet_same. destruct o as [l|]; [|by eexists].
  erewrite bind_run; [|apply on_wallet_run; unfold gets; reflexivity]. rewrite with_wallet_same.
  erewrite bind_run; [|unfold claimed_refund_total_inr, gets; reflexivity].
  erewrite bind_run; [|unfold refunded_total_inr; apply on_wallet_run; unfold gets; reflexivity].
  rewrite with_wallet_same. by eexists.
Qed.

Lemma deq_eq_r q a b : (a == b)%Q -> deq q a = deq q b.
Proof.
  intros E. destruct (deq_spec q a) as [E1|E1], (deq_spec q b) as [E2|E2]; try reflexivity; exfalso.
  - apply E2. by rewrite E1.
  - apply E1. by rewrite E2.
Qed.

Lemma numbered_snoc I i :
  numbered I -> in_key i = key_of (in_payment_ref i) (in_amount i) (rowcount (same_refund i) I) ->
  (forall x, In x I -> same_refund i x = true -> is_live x = false) -> numbered (I ++ [i]).
Proof.
  intros HN Hk Hf l1 x l2 E. destruct l2 as [|y l2 _] using rev_ind.
  - apply app_inj_tail in E as [-> ->]. by split.
  - rewrite app_comm_cons, app_assoc in E. apply app_inj_tail in E as [E _]. by apply (HN l1 x l2).
Qed.

Lemma rowcount_all {R} (p q : R -> bool) t :
  (forall x, In x t -> p x = true -> q x = true) -> rowcount q (select p t) = rowcount p t.
Proof.
  intros H. unfold rowcount, select. induction t as [|x t IH]; [done|]. simpl.
  destruct (p x) eqn:E; simpl; [rewrite (H x) by (by left || done); simpl|]; rewrite IH; try done; intros y Hy; apply H; by right.
Qed.

(** The answers of [claim_refund]. *)
Inductive claim_answer (t : uuid) (pid : string) (a : Q) (s : pay A) : result (RefundClaim * pay A) -> Prop :=
| answer_replay i :
    In i (refund_intents s) -> intent_of t t pid i = true -> (in_amount i == a)%Q -> is_live i = true ->
    claim_answer t pid a s (Ok (MkClaim (in_key i) false, s))
| answer_refused code :
    In code ["refund_payment_charged_back"; "refund_payment_disputed"; "refund_exceeds_payment"; "refund_exceeds_unspent"] ->
    claim_answer t pid a s (Err (Problem BusinessRule code))
| answer_claimed i :
    in_tenant i = t -> in_payment_ref i = pid -> (in_amount i == a)%Q -> is_live i = true ->
    in_key i = key_of pid a (rowcount (same_refund i) (refund_intents s)) ->
    (forall x, In x (refund_intents s) -> same_refund i x = true -> is_live x = false) ->
    (forall x, In x (refund_intents s) -> in_tenant x = t -> in_key x <> in_key i) ->
    (live_total t pid (refund_intents s) + a <= total t pid)%Q ->
    select (blocking t t pid) (payment_disputes s) = [] ->
    claim_answer t pid a s
      (Ok (MkClaim (in_key i) true, with_intents (refund_intents s ++ [i]) (with_wallet (drop_id (wallet s)) s))).

Lemma live_total_money t pid I : Forall (fun i => Ledger.is_paise (in_amount i) /\ (0 < in_amount i)%Q) I ->
  is_money (live_total t pid I) /\ (0 <= live_total t pid I)%Q.
Proof.
  intros H. rewrite List.Forall_forall in H. unfold live_total. split.
  - apply is_money_sum_over. intros i Hi. apply select_In in Hi as [Hi _]. destruct (H i Hi) as [Hp _].
    by apply Ledger.is_paise_money.
  - unfold sum_over. apply qsum_nonneg, List.Forall_forall. intros q Hq. apply in_map_iff in Hq as (i & <- & Hi).
    apply select_In in Hi as [Hi _]. destruct (H i Hi). lra.
Qed.

Lemma claim_answers s t pid a e :
  tables_ok (wallet s) -> t = rls (wallet s) -> Ledger.is_paise a -> (0 < a < numeric_limit)%Q ->
  intents_ok (refund_intents s) -> keys_apart (refund_intents s) pid a ->
  claim_answer t pid a s (claim_refund t pid a (total t pid) e s).
Proof.
  intros Htab Ht Hpa Ha [H1 H2 H3] Hkeys. pose proof numeric_limit_bound as Hlb. set (I := refund_intents s) in *.
  unfold Refunds.claim_refund. unfold bind at 1, gets at 1. rewrite <- Ht. fold I.
  set (mine := fun i => intent_of t t pid i && deq (in_amount i) a).
  destruct (select is_live (select mine I)) as [|i rest] eqn:El.
  2:{ assert (In i (select is_live (select mine I))) as Hi by (rewrite El; by left).
      apply select_In in Hi as [Hi Hl]. apply select_In in Hi as [Hi Hm]. unfold mine in Hm. apply andb_prop in Hm as [Hm1 Hm2].
      apply answer_replay; [exact Hi|exact Hm1| |exact Hl]. by destruct (deq_spec (in_amount i) a). }
  unfold bind at 1, refuse_if_disputed, bind at 1, gets at 1. rewrite <- Ht.
  destruct (select (blocking t t pid) (payment_disputes s)) as [|d ds] eqn:Ed.
  2:{ destruct (existsb _ (d :: ds)); apply answer_refused; simpl; tauto. }
  unfold ret at 1. cbv iota beta zeta.
  assert (Hdead : forall x, In x I -> mine x = true -> is_live x = false).
  { intros x Hx Hm. apply not_true_is_false. intros Hl. assert (In x []) as []. rewrite <- El. apply select_In. split; [by apply select_In; split|exact Hl]. }
  rewrite (rowcount_all mine (fun i => negb (is_live i)) I) by (intros x Hx Hm; by rewrite (Hdead x Hx Hm)).
  set (key := key_of pid a (rowcount mine I)).
  erewrite bind_run; [|unfold claimed_refund_total_inr, gets; rewrite <- Ht; fold I; fold (live_total t pid I); reflexivity].
  destruct (live_total_money t pid I H2) as [Hlm Hl0]. destruct (total_ok t pid) as [Htm [Ht0 Htl]]. pose proof (H1 t pid) as Hceil.
  assert (Hd : (dsub (total t pid) (live_total t pid I) == total t pid - live_total t pid I)%Q) by (apply dsub_money; [exact Htm|exact Hlm|lra|lra]).
  destruct (dlt_spec (dsub (total t pid) (live_total t pid I)) a) as [Hc|Hc]; [apply answer_refused; simpl; tauto|].
  destruct (unspent_returns s t pid e Htab) as (q & Hq). rewrite (bind_run _ _ _ _ _ Hq).
  destruct (dlt q a); [apply answer_refused; simpl; tauto|].
  erewrite bind_run; [|apply on_wallet_run; unfold uuid7, bind, gets, modify, ret; reflexivity].
  destruct (numeric_12_4_money a (Ledger.is_paise_money a Hpa) ltac:(lra) ltac:(lra)) as (r & Hr & Era).
  erewrite bind_run; [|unfold lift; rewrite Hr; reflexivity].
  erewrite bind_run; [|apply on_wallet_run; unfold gets; reflexivity].
  set (i := Intent (ids (wallet s) 0%nat) t pid key r None None (now (drop_id (wallet s)))).
  assert (Hsame : forall x, same_refund i x = mine x).
  { intros x. unfold same_refund, mine, intent_of. simpl. destruct (in_tenant x =? t); simpl; [|done].
    f_equal. by apply deq_eq_r. }
  assert (Hcount : rowcount (same_refund i) I = rowcount mine I).
  { unfold rowcount, select. f_equal. apply List.filter_ext. exact Hsame. }
  assert (Hfresh : forall x, In x I -> in_tenant x = t -> in_key x <> key).
  { intros x Hx Ex Ek. apply in_split in Hx as (l1 & l2 & EI). destruct (H3 l1 x l2 EI) as [Hkx _]. rewrite Hkx in Ek.
    assert (Hlen : forall p (l : list intent), (rowcount p l <= length l)%nat).
    { intros p l. unfold rowcount, select. induction l as [|y l IH]; simpl; [lia|]. destruct (p y); simpl; lia. }
    destruct (Hkeys x (rowcount (same_refund x) l1) (rowcount mine I)) as (Ep & Ea & En).
    - rewrite EI. apply in_or_app. right. by left.
    - etransitivity; [apply Hlen|]. rewrite EI, length_app. lia.
    - apply Hlen.
    - exact Ek.
    - assert (Exa : (in_amount x == a)%Q).
      { rewrite List.Forall_forall in H2. destruct (H2 x) as [Hpx _]; [rewrite EI; apply in_or_app; right; by left|].
        by rewrite (to_paise_is_paise _ Hpx), (to_paise_is_paise _ Hpa) in Ea. }
      assert (Hsx : forall y, same_refund x y = mine y).
      { intros y. rewrite <- Hsame. unfold same_refund. simpl. rewrite Ex, Ep.
        f_equal. apply deq_eq_r. by rewrite Exa, Era. }
      assert (rowcount (same_refund x) l1 = rowcount mine l1) as E1
        by (unfold rowcount, select; f_equal; apply List.filter_ext; exact Hsx).
      rewrite E1, EI in En. unfold rowcount, select in En. rewrite List.filter_app, length_app in En. simpl in En.
      assert (mine x = true) as Hmx.
      { rewrite <- Hsx. unfold same_refund. rewrite Z.eqb_refl, String.eqb_refl. simpl.
        destruct (deq_spec (in_amount x) (in_amount x)) as [|Hn]; [done|]. exfalso. apply Hn. reflexivity. }
      rewrite Hmx in En. simpl in En. lia. }
  unfold insert_intent.
  erewrite bind_run.
  2:{ erewrite bind_run; [|apply on_wallet_run; unfold own_tenant, bind, gets, ret; simpl; rewrite <- Ht, Z.eqb_refl; reflexivity].
      unfold bind at 1, gets at 1. cbn [refund_intents with_wallet in_amount in_tenant in_key]. fold I.
      replace (dle r 0) with false by (destruct (dle_spec r 0); [lra|done]).
      replace (existsb _ I) with false; [unfold modify; reflexivity|]. symmetry. apply not_true_is_false. intros Hx.
      apply existsb_exists in Hx as (x & Hx & Hp). apply andb_prop in Hp as [Hp1 Hp2]. apply String.eqb_eq in Hp2.
      by apply (Hfresh x Hx); [simpl in Hp1; lia|]. }
  apply (answer_claimed t pid a s i); [reflexivity|reflexivity|exact Era|reflexivity| | |exact Hfresh| |exact Ed].
  - unfold i at 1. cbn [in_key]. unfold key. fold I. by rewrite Hcount.
  - intros x Hx. rewrite Hsame. by apply Hdead.
  - fold I. rewrite Hd in Hc. lra.
Qed.

(** The transactions of the program, as the table of claims sees them: the hash keeps
    the attempts apart, and every other writer leaves the table alone. *)
Inductive desk_step : pay A -> pay A -> Prop :=
| step_claim t pid a e c s s' :
    tables_ok (wallet s) -> t = rls (wallet s) -> Ledger.is_paise a -> (0 < a < numeric_limit)%Q ->
    keys_apart (refund_intents s) pid a ->
    claim_refund t pid a (total t pid) e s = Ok (c, s') -> desk_step s s'
| step_release t key rid u s s' : release_refund_claim t key rid s = Ok (u, s') -> desk_step s s'
| step_bind t key rid u s s' : bind_refund_claim t key rid s = Ok (u, s') -> desk_step s s'
| step_elsewhere s s' : refund_intents s' = refund_intents s -> desk_step s s'.

Lemma live_total_snoc t pid I i :
  (live_total t pid (I ++ [i]) == live_total t pid I + if intent_of t t pid i && is_live i then in_amount i else 0)%Q.
Proof.
  unfold live_total, select. rewrite List.filter_app, sum_over_app. simpl.
  destruct (intent_of t t pid i && is_live i); unfold sum_over; simpl; ring.
Qed.

Lemma desk_step_ok s s' : desk_step s s' -> intents_ok (refund_intents s) -> intents_ok (refund_intents s').
Proof.
  intros H Hok. destruct H as [t pid a e c s s' Htab Ht Hpa Ha Hkeys H|t key rid u s s' H|t key rid u s s' H|s s' ->].
  - pose proof (claim_answers s t pid a e Htab Ht Hpa Ha Hok Hkeys) as Hans. rewrite H in Hans.
    inversion Hans as [| |i Hit Hip Hia Hil Hik Hdead Hnew Hceil Hnd]; subst; [done|]. cbn [refund_intents with_intents].
    destruct Hok as [H1 H2 H3]. constructor.
    + intros t' pid'. rewrite live_total_snoc. destruct (intent_of t' t' pid' i && is_live i) eqn:E; [|specialize (H1 t' pid'); lra].
      apply andb_prop in E as [E _]. unfold intent_of in E. apply andb_prop in E as [E1 E2]. apply String.eqb_eq in E2.
      assert (t' = in_tenant i) as -> by lia. subst pid'. rewrite Hit, Hia. exact Hceil.
    + apply Forall_app_2; [done|]. constructor; [|constructor]. rewrite Hia. split; [exact Hpa|apply Ha].
    + apply numbered_snoc; [exact H3| |exact Hdead]. rewrite Hik. symmetry. by apply key_of_eq.
  - by eapply release_ok.
  - by eapply bind_claim_ok.
  - done.
Qed.

(** C4. The claims of a payment never add up to more than the payment: whatever claims,
    releases, bindings and other transactions follow one another, for any tenants, the
    claims that have not failed stay within what was paid, and every attempt has the key
    of its number, taken only when all attempts before it had failed. *)
Theorem refund_ceiling s0 s :
  refund_intents s0 = [] -> rtc desk_step s0 s -> intents_ok (refund_intents s).
Proof.
  intros H0 Hs. assert (Hok : intents_ok (refund_intents s0)).
  { rewrite H0. constructor; [intros t pid; apply total_ok|constructor|]. intros l1 i l2 E. by destruct l1. }
  clear H0. induction Hs as [|s s1 s' Hst _ IH]; [done|]. apply IH. by eapply desk_step_ok.
Qed.

(** C38. Asking to refund always has an answer: a live claim of the same amount is
    replayed with its key; a dispute, more than is left of the payment, or more than is
    left unspent of it is refused with its own problem; otherwise the claim is taken with
    a key no earlier attempt had, so an attempt that failed never blocks the next. *)
Theorem claim_refund_answers s t pid a e :
  tables_ok (wallet s) -> t = rls (wallet s) -> Ledger.is_paise a -> (0 < a < numeric_limit)%Q ->
  intents_ok (refund_intents s) -> keys_apart (refund_intents s) pid a ->
  claim_answer t pid a s (claim_refund t pid a (total t pid) e s).
Proof. apply claim_answers. Qed.
End Claims.

(** ** Concrete instances *)
Module Example.
Import Payments.Example.

Definition readable_hash (pid : string) (a : Q) (n : nat) : string :=
  hex_text 4 (Z.of_nat n) +:+ hex_text 8 (Qnum a) +:+ hex_text 8 (Zpos (Qden a)) +:+ pid.
Definition paid_total (t : uuid) (pid : string) : Q := inject_Z 2000.

Lemma paid_total_ok t pid : is_money (paid_total t pid) /\ (0 <= paid_total t pid < numeric_limit)%Q.
Proof. split; [by exists 20000000|split; [vm_compute; discriminate|reflexivity]]. Qed.

Lemma rupees_paise n : Ledger.is_paise (inject_Z n).
Proof. exists (n * 100). unfold Qeq. simpl. lia. Qed.

Definition refund_500 : RefundEvent := Refund "rfnd_1" "pay_1" 7 (inject_Z 500) "INR".
Lemma refund_500_ok : refund_ok refund_500.
Proof. constructor; [by exists 5000000|split; reflexivity|discriminate]. Qed.

Lemma paid_tables : tables_ok (wallet paid).
Proof. destruct paid_ok as [Hw _]. apply owing_0 in Hw. apply Hw. Qed.

Lemma paid_intents : intents_ok readable_hash paid_total (refund_intents paid).
Proof.
  assert (refund_intents paid = []) as -> by (vm_compute; reflexivity).
  constructor; [intros t pid; apply paid_total_ok|constructor|]. intros l1 i l2 E. by destruct l1.
Qed.

Definition claim_500 : result (RefundClaim * pay unit) :=
  claim_refund readable_hash 7 "pay_1" (inject_Z 500) (paid_total 7 "pay_1") 0 paid.
Definition claimed_once : pay unit := match claim_500 with Ok (_, s) => s | Err _ => paid end.

Lemma claim_500_run : exists c, claim_500 = Ok (c, claimed_once).
Proof.
  assert (is_ok claim_500 = true) as E by (vm_compute; reflexivity). revert E. unfold claimed_once.
  generalize claim_500. intros [[c s]|e] E; [by exists c|discriminate E].
Qed.
End Example.
Import Example.

Lemma refund_exact_witness :
  exists r s', credit_refund Audit.Example.keyed Audit.Example.dumps "key" refund_500 None Payments.Example.paid = Ok (r, s')
    /\ recorded r = true /\ wallet_ok (wallet s') /\ (amount_inr (tu_balance r) == balance_held (wallet s'))%Q.
Proof.
  assert (exists r s', credit_refund Audit.Example.keyed Audit.Example.dumps "key" refund_500 None Payments.Example.paid = Ok (r, s')
            /\ recorded r = true) as (r & s' & E & Er) by (eexists _, _; split; vm_compute; reflexivity).
  exists r, s'. split; [exact E|]. split; [exact Er|].
  assert (bonus_kept (wallet Payments.Example.paid) "pay_1") as Hk.
  { intros g Hg. assert (entry_at (rls (wallet Payments.Example.paid)) "bonus" [PWord "pay_1"] (wallet Payments.Example.paid) = None) as Hn
      by (vm_compute; reflexivity). rewrite Hn in Hg. discriminate Hg. }
  assert (rf_tenant refund_500 = rls (wallet Payments.Example.paid)) as Ht by (vm_compute; reflexivity).
  destruct (refund_exact Audit.Example.keyed Audit.Example.dumps "key" refund_500 None Payments.Example.paid r s'
              (proj1 Payments.Example.paid_ok) Ht refund_500_ok Hk E) as (H1 & _ & _ & H4 & _).
  split; [exact H1|exact H4].
Defined.

Lemma refund_ceiling_witness : intents_ok readable_hash paid_total (refund_intents claimed_once).
Proof.
  destruct claim_500_run as (c & E). unfold claim_500 in E.
  apply (refund_ceiling readable_hash paid_total paid_total_ok Payments.Example.paid claimed_once).
  - vm_compute. reflexivity.
  - apply rtc_once, (step_claim _ _ 7 "pay_1" (inject_Z 500) 0 c).
    + apply paid_tables.
    + vm_compute. reflexivity.
    + apply rupees_paise.
    + split; reflexivity.
    + intros i n m Hi. assert (refund_intents Payments.Example.paid = []) as Hn by (vm_compute; reflexivity). rewrite Hn in Hi. destruct Hi.
    + exact E.
Defined.

Lemma claim_refund_answers_witness :
  claim_answer readable_hash paid_total 7 "pay_1" (inject_Z 500) Payments.Example.paid
    (claim_refund readable_hash 7 "pay_1" (inject_Z 500) (paid_total 7 "pay_1") 0 Payments.Example.paid).
Proof.
  apply (claim_refund_answers readable_hash paid_total paid_total_ok Payments.Example.paid 7 "pay_1" (inject_Z 500) 0).
  - apply paid_tables.
  - vm_compute. reflexivity.
  - apply rupees_paise.
  - split; reflexivity.
  - apply paid_intents.
  - intros i n m Hi. assert (refund_intents Payments.Example.paid = []) as Hn by (vm_compute; reflexivity). rewrite Hn in Hi. destruct Hi.
Defined.

(** A failed claim is followed by one with another key. *)
Example next_attempt :
  match release_refund_claim (A := unit) 7 (refund_idempotency_key readable_hash "pay_1" (inject_Z 500) 0) None claimed_once with
  | Ok (_, s) => match claim_refund readable_hash 7 "pay_1" (inject_Z 500) (inject_Z 2000) 0 s with
                 | Ok (c, _) => claimed c && negb (String.eqb (refund_key c) (refund_idempotency_key readable_hash "pay_1" (inject_Z 500) 0))
                 | Err _ => false
                 end
  | Err _ => false
  end = true.
Proof. vm_compute. reflexivity. Qed.
End Refunds.
