(* ===== verification/Disputes.v ===== *)
(** * Disputes

    apps/api/billing/disputes.py and dispute_hold.py.  A disputed payment's credit is held
    (debited) when the dispute opens and released when it is won; a dispute escalated to
    a new phase is a new round, held and released on its own.  The rounds live on the
    ledger, under one reference each. *)

From Stdlib Require Import ZArith Lia List QArith Qabs Lqa.
From stdpp Require Import base list strings relations.
From S2P Require Import Prelude PyDecimal Sql PyTime Outbox AuditLog WalletDb RateCard Lots Ledger Wallet Envelope Payments Refunds.

Local Open Scope string_scope.
Local Open Scope list_scope.
Local Open Scope Z_scope.
Local Open Scope tx_scope.

Import Lots Ledger Wallet Envelope Payments Refunds.

Module Disputes.

Definition DISPUTE_HOLD_KIND : string := "dispute_hold".
Definition DISPUTE_RELEASE_KIND : string := "dispute_release".
Definition TERMINAL_STATES : list string := ["won"; "lost"; "closed"].
Definition DISPUTE_STATUSES : list string := ["open"; "under_review"; "won"; "lost"; "closed"].
Definition ESCALATION_PHASES : list string := ["pre_arbitration"; "arbitration"].
Definition PAYMENT_NOTICE_JOB : string := "send_payment_notice".

Definition escalated (phase was : option string) : bool :=
  match phase with
  | Some p => bool_decide (p ∈ ESCALATION_PHASES) && negb (bool_decide (Some p = was))
  | None => false
  end.

(** [xs[: xs.index(x) + 1]]. *)
Fixpoint up_to (x : string) (xs : list string) : list string :=
  match xs with
  | [] => []
  | y :: ys => if String.eqb x y then [y] else y :: up_to x ys
  end.

(** [_round_suffixes]: the rounds up to the dispute's phase, oldest first; a suffix is
    the parts it adds to the reference. *)
Definition round_suffixes (phase : option string) : list (list part) :=
  match phase with
  | Some p => if bool_decide (p ∈ ESCALATION_PHASES)
              then [] :: map (fun x => [PWord x]) (up_to p ESCALATION_PHASES)
              else [[]]
  | None => [[]]
  end.

Definition hold_ref (did : string) (suffix : list part) : ref := PWord DISPUTE_HOLD_KIND :: PWord did :: suffix.
Definition release_ref (did : string) (suffix : list part) : ref := PWord DISPUTE_RELEASE_KIND :: PWord did :: suffix.

(** A round, whether it was held, and whether released. *)
Record round := Round { suffix : list part; held : bool; released : bool }.

Definition is_some {X} (o : option X) : bool := match o with Some _ => true | None => false end.

Section Disputes.
Context {A : Type}.
Context (hmac_hex : string -> string -> string) (dumps : Audit.payload -> string) (audit_key : string).
Context (terms : expiry_terms).

(** [_round_entries]. *)
Fixpoint round_entries (tenant_id : uuid) (did : string) (suffixes : list (list part)) : tx (pay A) (list round) :=
  match suffixes with
  | [] => ret []
  | x :: xs =>
      h ← on_wallet (find_entry_by_ref tenant_id "adjustment" (hold_ref did x)) ;
      r ← on_wallet (find_entry_by_ref tenant_id "adjustment" (release_ref did x)) ;
      rest ← round_entries tenant_id did xs ;
      ret (Round x (is_some h) (is_some r) :: rest)
  end.

Definition open_rounds (rs : list round) : list round := List.filter (fun r => held r && negb (released r)) rs.

Definition is_fee_payment (pid : string) : tx (pay A) bool :=
  gets (fun s => existsb (fun p => (fst p =? rls (wallet s)) && String.eqb (snd p) pid) (fee_refs s)).

(** The row of a dispute, as the session sees it. *)
Definition dispute_is (r : uuid) (did : string) (d : dispute_row) : bool :=
  (dr_tenant d =? r) && String.eqb (dr_dispute_id d) did.

Definition set_hold (q : Q) (d : dispute_row) : dispute_row :=
  DisputeRow (dr_id d) (dr_tenant d) (dr_dispute_id d) (dr_payment_id d) (dr_amount d) (dr_status d) (dr_phase d)
    (dr_reason d) (dr_respond_by d) q (dr_action_required d) (dr_last_event d) (dr_created_at d).

Definition hold (tenant_id : uuid) (d : DisputeFacts) : tx (pay A) bool :=
  rounds ← round_entries tenant_id (dispute_id d) (round_suffixes (dp_phase d)) ;
  match last rounds with
  | None => raise KeyError
  | Some newest =>
      if held newest || existsb (fun r => held r && negb (released r)) rounds then ret false
      else
        let pid := dp_payment_id d in
        paid ← on_wallet (find_topup tenant_id [PWord pid]) ;
        fee ← (match paid with None => is_fee_payment pid | Some _ => ret false end) ;
        if fee then ret false
        else
          removal ← on_wallet (remove_credit_from_lots tenant_id (option_map entry_id paid) (dp_amount_inr d)) ;
          on_wallet (record_entry tenant_id (dneg (dp_amount_inr d)) "adjustment"
            (Some (hold_ref (dispute_id d) (suffix newest)))
            ([("kind", JText DISPUTE_HOLD_KIND); ("source", JText PROVIDER);
              ("dispute_ref", JText (dispute_id d)); ("payment_ref", JText pid)]
             ++ with_splits (rm_splits removal)
             ++ (if dlt 0 (expiry_restated_inr removal)
                 then [("expiry_restated_inr", JDec (expiry_restated_inr removal))] else []))
            true false) ;;
          q ← (fun s => lift (numeric_12_4 (dp_amount_inr d)) s) ;
          modify (fun s => with_disputes
            (update (dispute_is (rls (wallet s)) (dispute_id d)) (set_hold q) (payment_disputes s)) s) ;;
          ret true
  end.

(** [SELECT meta->>'expiry_restated_inr' ... WHERE id]: what the hold put back first. *)
Definition restated_of (eid : uuid) : tx (pay A) Q :=
  on_wallet (gets (fun w =>
    match select (fun e => (e_tenant e =? rls w) && (e_id e =? eid)) (credit_ledger w) with
    | e :: _ => match json_get "expiry_restated_inr" (e_meta e) with Some (JDec q) => q | _ => 0%Q end
    | [] => 0%Q
    end)).

Definition release (tenant_id : uuid) (d : DisputeFacts) : tx (pay A) bool :=
  rounds ← round_entries tenant_id (dispute_id d) (round_suffixes (dp_phase d)) ;
  match last (open_rounds rounds) with
  | None => ret false
  | Some r =>
      h ← on_wallet (find_entry_by_ref tenant_id "adjustment" (hold_ref (dispute_id d) (suffix r))) ;
      match h with
      | None => raise AssertionError
      | Some h =>
          restated ← restated_of (entry_id h) ;
          let amount := dsub (dabs (entry_amount h)) restated in
          balance ← on_wallet (record_entry tenant_id amount "adjustment"
            (Some (release_ref (dispute_id d) (suffix r)))
            [("kind", JText DISPUTE_RELEASE_KIND); ("source", JText PROVIDER);
             ("dispute_ref", JText (dispute_id d)); ("payment_ref", JText (dp_payment_id d))] false true) ;
          back ← on_wallet (find_entry_by_ref tenant_id "adjustment" (release_ref (dispute_id d) (suffix r))) ;
          match back with
          | None => raise AssertionError
          | Some back =>
              paid ← on_wallet (find_topup tenant_id [PWord (dp_payment_id d)]) ;
              l ← (match paid with
                   | None => ret None
                   | Some p => on_wallet (purchase_lot_of_entry tenant_id (entry_id p))
                   end) ;
              card ← rate_card_now ;
              on_wallet (apply_credit_to_lots terms tenant_id amount (amount_inr balance)
                (RateCard.for_purchase card None amount) "topup" None (entry_id back)
                (option_map el_lot l) None) ;;
              ret true
          end
      end
  end.

(** [owe_dispute_outcome_notice] of auto_recharge.py: once per outcome. *)
Definition owe_outcome_notice (tenant_id : uuid) (d : DisputeFacts) : tx (pay A) unit :=
  rows ← gets (fun s => select (dispute_is (rls (wallet s)) (dispute_id d)) (payment_disputes s)) ;
  match rows with
  | [row] =>
      u ← on_wallet uuid7 ;
      on_wallet (modify (fun w => with_outbox
        (snd (Outbox.enqueue_outbox_once (now w) u PAYMENT_NOTICE_JOB
           [("tenant_id", JId tenant_id); ("kind", JText ("dispute_" +:+ dp_status d));
            ("amount_inr", JDec (to_paise (dr_hold row))); ("reason", JNull)]
           ("dispute-outcome:" +:+ dispute_id d +:+ ":"
              +:+ match dp_phase d with Some p => if String.eqb p "" then "chargeback" else p | None => "chargeback" end
              +:+ ":" +:+ dp_status d)
           (outbox_messages w))) w))
  | _ => raise NoResultFound
  end.

(** The INSERT and the UPDATE, with the table's constraints. *)
Definition insert_dispute (row : dispute_row) : tx (pay A) unit :=
  on_wallet (own_tenant (dr_tenant row)) ;;
  t ← gets payment_disputes ;
  if dle (dr_amount row) 0 then raise (CheckViolation "amount_positive")
  else if negb (bool_decide (dr_status row ∈ DISPUTE_STATUSES)) then raise (CheckViolation "status_enum")
  else if existsb (fun x => String.eqb (dr_dispute_id x) (dr_dispute_id row)) t
  then raise (UniqueViolation "payment_disputes_dispute_id_key")
  else modify (with_disputes (t ++ [row])).

Definition set_event (d : DisputeFacts) (action : bool) (event : string) (x : dispute_row) : dispute_row :=
  DisputeRow (dr_id x) (dr_tenant x) (dr_dispute_id x) (dr_payment_id x) (dr_amount x) (dp_status d)
    (match dp_phase d with Some p => Some p | None => dr_phase x end) (dr_reason x)
    (match dp_respond_by d with Some t => Some t | None => dr_respond_by x end)
    (dr_hold x) action event (dr_created_at x).

Definition update_dispute (d : DisputeFacts) (action : bool) (event : string) : tx (pay A) unit :=
  if negb (bool_decide (dp_status d ∈ DISPUTE_STATUSES)) then raise (CheckViolation "status_enum")
  else modify (fun s => with_disputes
         (update (dispute_is (rls (wallet s)) (dispute_id d)) (set_event d action event) (payment_disputes s)) s).

Definition terminal (status : string) : bool := bool_decide (status ∈ TERMINAL_STATES).

Definition apply_dispute_event (tenant_id : uuid) (event : string) (d : DisputeFacts) : tx (pay A) string :=
  rows ← gets (fun s => select (dispute_is (rls (wallet s)) (dispute_id d)) (payment_disputes s)) ;
  let existing := match rows with x :: _ => Some x | [] => None end in
  let action_required := String.eqb event "payment.dispute.action_required" in
  let stale := match existing with
               | Some x => terminal (dr_status x) && negb (terminal (dp_status d))
                           && negb (escalated (dp_phase d) (dr_phase x))
               | None => false
               end in
  if stale then ret "stale"
  else
    (match existing with
     | None =>
         u ← on_wallet uuid7 ;
         a ← (fun s => lift (numeric_12_4 (dp_amount_inr d)) s) ;
         t ← on_wallet (gets now) ;
         insert_dispute (DisputeRow u tenant_id (dispute_id d) (dp_payment_id d) a (dp_status d) (dp_phase d)
                           (dp_reason_code d) (dp_respond_by d) 0 action_required event t)
     | Some _ => update_dispute d action_required event
     end) ;;
    outcome ← (if bool_decide (dp_status d ∈ OPEN_STATES) then
                 h ← hold tenant_id d ; ret (if h : bool then "held" else "recorded")
               else if bool_decide (dp_status d ∈ ["won"; "closed"]) then
                 r ← release tenant_id d ; ret (if r : bool then "released" else "recorded")
               else if String.eqb (dp_status d) "lost" then
                 h ← hold tenant_id d ; ret (if h : bool then "debited" else "recorded")
               else ret "recorded") ;
    (if terminal (dp_status d)
        && match existing with None => true | Some x => negb (terminal (dr_status x)) end
     then owe_outcome_notice tenant_id d else ret tt) ;;
    audit_system hmac_hex dumps audit_key tenant_id "payment.dispute" "payment_disputes" (dispute_id d) None ;;
    ret outcome.

(** [record_operator_decision]: what an operator accepted or contested at the provider. *)
Definition record_operator_decision (tenant_id : uuid) (did decision provider_status : string)
    (principal : Audit.principal) (ip : option string) : tx (pay A) string :=
  rows ← gets (fun s => select (dispute_is (rls (wallet s)) did) (payment_disputes s)) ;
  match rows with
  | [row] =>
      outcome ← apply_dispute_event tenant_id ("admin.dispute_" +:+ decision)
        (Dispute did (dr_payment_id row) (dr_amount row) provider_status (dr_phase row) (dr_reason row)
           (dr_respond_by row)) ;
      i ← on_wallet uuid7 ;
      t ← on_wallet clock_timestamp ;
      modify (fun s => with_audit
        (Audit.write_audit hmac_hex dumps audit_key i t ("payment.dispute_" +:+ decision) (Some principal) None
           (Some tenant_id) (Some "payment_disputes") (Some did) ip (audit_log s)) s) ;;
      ret outcome
  | _ => raise NoResultFound
  end.

(** [dispute_hold_active]: the outbound gate's question. *)
Definition dispute_hold_active (tenant_id : uuid) : tx (pay A) bool :=
  gets (fun s => existsb (fun d => (dr_tenant d =? rls (wallet s)) && (dr_tenant d =? tenant_id)
                                   && bool_decide (dr_status d ∈ OPEN_STATES)) (payment_disputes s)).

(** [list_disputes], under the operators' policy: the open ones first, then by deadline
    with none last, then the newest. *)
Definition open_status (d : dispute_row) : bool := bool_decide (dr_status d ∈ OPEN_STATES).
Definition by_urgency (x y : dispute_row) : bool :=
  if Bool.eqb (open_status x) (open_status y) then
    match dr_respond_by x, dr_respond_by y with
    | Some a, Some b => (a <? b) || ((a =? b) && (dr_created_at y <=? dr_created_at x))
    | Some _, None => true
    | None, Some _ => false
    | None, None => dr_created_at y <=? dr_created_at x
    end
  else open_status x.
Definition list_disputes (include_closed : bool) (n : nat) : tx (pay A) (list dispute_row) :=
  gets (fun s => limit n (order_by by_urgency
    (if include_closed then payment_disputes s else select open_status (payment_disputes s)))).
End Disputes.

(** ** What a round holds *)

(** The entry that holds a round, what was put back before it, and what it took. *)
Definition hold_entry (w : db) (did : string) (x : list part) : option entry :=
  newest (has_ref (rls w) (rls w) "adjustment" (hold_ref did x)) (credit_ledger w).
Definition restated_meta (e : entry) : Q :=
  match json_get "expiry_restated_inr" (e_meta e) with Some (JDec q) => q | _ => 0%Q end.
Definition net_of (e : entry) : Q := (Qabs (e_delta e) - restated_meta e)%Q.
Definition hold_sound (e : entry) : Prop := is_money (restated_meta e) /\ (0 <= net_of e)%Q /\ (0 <= restated_meta e)%Q.

(** The rounds of a dispute as the ledger has them. *)
Definition round_at (w : db) (did : string) (x : list part) : round :=
  Round x (is_some (entry_at (rls w) "adjustment" (hold_ref did x) w))
          (is_some (entry_at (rls w) "adjustment" (release_ref did x) w)).
Definition rounds_at (w : db) (did : string) (phase : option string) : list round :=
  map (round_at w did) (round_suffixes phase).

Lemma hold_ref_ordinary did x : ordinary "adjustment" (hold_ref did x).
Proof. by intros _ i u. Qed.
Lemma release_ref_ordinary did x : ordinary "adjustment" (release_ref did x).
Proof. by intros _ i u. Qed.

Lemma entry_at_hold w did x :
  entry_at (rls w) "adjustment" (hold_ref did x) w = option_map (fun e => MkEntryRef (e_id e) (e_delta e)) (hold_entry w did x).
Proof. done. Qed.

Lemma round_entries_run {A} did xs (s : pay A) :
  round_entries (rls (wallet s)) did xs s = Ok (map (round_at (wallet s) did) xs, s).
Proof.
  induction xs as [|x xs IH]; [done|]. cbn [round_entries].
  erewrite bind_run; [|apply on_wallet_run, find_entry_at]. rewrite with_wallet_same.
  erewrite bind_run; [|apply on_wallet_run, find_entry_at]. rewrite with_wallet_same.
  by rewrite (bind_run _ _ _ _ _ IH).
Qed.

(** ** What an event must come to *)

(** The rounds of a phase, written out: a dispute is a chargeback first, and each
    escalation is one round more. *)
Definition phase_rounds (phase : option string) : list (list part) :=
  match phase with
  | Some p =>
      if String.eqb p "pre_arbitration" then [[]; [PWord "pre_arbitration"]]
      else if String.eqb p "arbitration" then [[]; [PWord "pre_arbitration"]; [PWord "arbitration"]]
      else [[]]
  | None => [[]]
  end.

Lemma round_suffixes_phase phase : round_suffixes phase = phase_rounds phase.
Proof.
  destruct phase as [p|]; [|done]. unfold round_suffixes, phase_rounds, ESCALATION_PHASES.
  destruct (String.eqb_spec p "pre_arbitration") as [->|H1]; [reflexivity|].
  destruct (String.eqb_spec p "arbitration") as [->|H2]; [reflexivity|].
  rewrite bool_decide_false; [done|]. set_solver.
Qed.

Definition held_round (w : db) (did : string) (x : list part) : bool :=
  is_some (entry_at (rls w) "adjustment" (hold_ref did x) w).
Definition open_round (w : db) (did : string) (x : list part) : bool :=
  held_round w did x && negb (is_some (entry_at (rls w) "adjustment" (release_ref did x) w)).

(** The newest round of the event's phase, and the newest of its open ones. *)
Definition newest_round (d : DisputeFacts) : list part := List.last (phase_rounds (dp_phase d)) [].
Definition newest_open (w : db) (d : DisputeFacts) : option (list part) :=
  last (List.filter (open_round w (dispute_id d)) (phase_rounds (dp_phase d))).

(** A payment of the platform fee: it never became credit. *)
Definition fee_only {A} (s : pay A) (pid : string) : bool :=
  match entry_at (rls (wallet s)) "topup" [PWord pid] (wallet s) with
  | Some _ => false
  | None => existsb (fun p => (fst p =? rls (wallet s)) && String.eqb (snd p) pid) (fee_refs s)
  end.

(** The newest round is to be held: it was not, no round up to it is open, and there is
    credit to hold. *)
Definition to_hold {A} (s : pay A) (d : DisputeFacts) : bool :=
  negb (held_round (wallet s) (dispute_id d) (newest_round d))
  && negb (existsb (open_round (wallet s) (dispute_id d)) (phase_rounds (dp_phase d)))
  && negb (fee_only s (dp_payment_id d)).

(** An event that comes after the end of its dispute, unless it escalates it. *)
Definition is_over (status : string) : bool := bool_decide (status ∈ ["won"; "lost"; "closed"]).
Definition late {A} (s : pay A) (d : DisputeFacts) : bool :=
  match select (fun x => (dr_tenant x =? rls (wallet s)) && String.eqb (dr_dispute_id x) (dispute_id d)) (payment_disputes s) with
  | [] => false
  | x :: _ =>
      is_over (dr_status x) && negb (is_over (dp_status d))
      && negb match dp_phase d with
              | Some p => (String.eqb p "pre_arbitration" || String.eqb p "arbitration")
                          && negb (bool_decide (Some p = dr_phase x))
              | None => false
              end
  end.

(** The answer an event gets. *)
Definition due_answer {A} (s : pay A) (d : DisputeFacts) : string :=
  if bool_decide (dp_status d ∈ ["open"; "under_review"]) then (if to_hold s d then "held" else "recorded")
  else if String.eqb (dp_status d) "lost" then (if to_hold s d then "debited" else "recorded")
  else if bool_decide (dp_status d ∈ ["won"; "closed"])
       then match newest_open (wallet s) d with Some _ => "released" | None => "recorded" end
  else "recorded".
Definition event_answer {A} (s : pay A) (d : DisputeFacts) : string :=
  if late s d then "stale" else due_answer s d.

Lemma escalated_phase p was :
  escalated p was = match p with
                    | Some p => (String.eqb p "pre_arbitration" || String.eqb p "arbitration")
                                && negb (bool_decide (Some p = was))
                    | None => false
                    end.
Proof.
  destruct p as [p|]; [|done]. unfold escalated, ESCALATION_PHASES. f_equal.
  destruct (String.eqb_spec p "pre_arbitration") as [->|H1]; [reflexivity|].
  destruct (String.eqb_spec p "arbitration") as [->|H2]; [reflexivity|].
  rewrite bool_decide_false; [done|]. set_solver.
Qed.

Lemma existsb_map {X Y} (f : X -> Y) p l : existsb p (map f l) = existsb (fun x => p (f x)) l.
Proof. induction l as [|x l IH]; simpl; [done|]. by rewrite IH. Qed.

Lemma filter_map {X Y} (f : X -> Y) p l : List.filter p (map f l) = map f (List.filter (fun x => p (f x)) l).
Proof. induction l as [|x l IH]; simpl; [done|]. rewrite IH. by destruct (p (f x)). Qed.

Lemma phase_rounds_last phase : last (phase_rounds phase) = Some (List.last (phase_rounds phase) []).
Proof. unfold phase_rounds. destruct phase; [|done]. repeat case_match; done. Qed.

Lemma last_map {X Y} (f : X -> Y) l : last (map f l) = option_map f (last l).
Proof. induction l as [|x l IH]; [done|]. destruct l; [done|]. exact IH. Qed.

Section DisputeLaws.
Context {A : Type}.
Context (hmac_hex : string -> string -> string) (dumps : Audit.payload -> string) (audit_key : string).
Context (terms : expiry_terms).
Abbreviation hold := (hold (A := A)).
Abbreviation release := (release (A := A) terms).
Abbreviation apply_dispute_event := (apply_dispute_event (A := A) hmac_hex dumps audit_key terms).

(** The amount of a dispute, as [extract_dispute] reads it. *)
Definition dispute_amount_ok (d : DisputeFacts) : Prop :=
  is_money (dp_amount_inr d) /\ (0 < dp_amount_inr d < numeric_limit)%Q.

(** The entry of the top-up a dispute is about. *)
Definition paid_entry (d : DisputeFacts) (w : db) : option uuid :=
  option_map entry_id (entry_at (rls w) "topup" [PWord (dp_payment_id d)] w).

(** What holding the newest round does: its entry debits the amount, less the lapsed
    credit of the payment's lot put back for the purpose; the wallet gives up exactly
    that, and no other round's entries change. *)
Definition round_held (d : DisputeFacts) (w w' : db) : Prop :=
  exists x e, x = newest_round d
    /\ hold_entry w (dispute_id d) x = None
    /\ hold_entry w' (dispute_id d) x = Some e /\ hold_sound e /\ (Qabs (e_delta e) == dp_amount_inr d)%Q
    /\ (net_of e == dp_amount_inr d - lapse_due w (paid_entry d w) (dp_amount_inr d))%Q
    /\ (balance_held w' == balance_held w - net_of e)%Q
    /\ forall r, ordinary "adjustment" r -> r <> hold_ref (dispute_id d) x ->
         newest (has_ref (rls w) (rls w) "adjustment" r) (credit_ledger w')
         = newest (has_ref (rls w) (rls w) "adjustment" r) (credit_ledger w).

Lemma hold_marks s d more : marks_old s "adjustment" (("kind", JText DISPUTE_HOLD_KIND) :: ("source", JText PROVIDER) :: d ++ more).
Proof. by apply marks_old_kind. Qed.

Lemma newest_others w es e r r' :
  Forall restating es -> e_ref e = Some r -> ordinary "adjustment" r' -> r' <> r ->
  newest (has_ref (rls w) (rls w) "adjustment" r') (credit_ledger w ++ es ++ [e])
  = newest (has_ref (rls w) (rls w) "adjustment" r') (credit_ledger w).
Proof.
  intros Hes He Ho Hne. apply newest_skip_app, Forall_app. split.
  - apply List.Forall_forall. intros x Hx. rewrite List.Forall_forall in Hes. unfold has_ref.
    destruct (Hes x Hx) as (_ & i & u & ->). rewrite (bool_decide_false (Some _ = Some r')); [by rewrite andb_false_r|].
    intros [= E]. by apply (Ho eq_refl i u).
  - constructor; [|constructor]. unfold has_ref. rewrite He, (bool_decide_false (Some r = Some r')); [by rewrite andb_false_r|congruence].
Qed.

Lemma newest_ref t r w e : newest (has_ref t t "adjustment" r) w = Some e -> e_ref e = Some r.
Proof.
  intros H. apply newest_In in H as [_ H]. unfold has_ref in H. apply andb_prop in H as [_ H].
  by apply bool_decide_eq_true in H.
Qed.

Lemma hold_spec d s b s' :
  wallet_ok (wallet s) -> dispute_amount_ok d -> hold (rls (wallet s)) d s = Ok (b, s') ->
  wallet_ok (wallet s') /\ rls (wallet s') = rls (wallet s) /\ refund_intents s' = refund_intents s
  /\ b = to_hold s d
  /\ (if b then round_held d (wallet s) (wallet s') else s' = s).
Proof.
  intros Hw [Hm Ha] H. unfold Disputes.hold in H. rewrite (bind_run _ _ _ _ _ (round_entries_run _ _ s)) in H.
  fold (rounds_at (wallet s) (dispute_id d) (dp_phase d)) in H. unfold rounds_at at 1 in H. rewrite last_map in H.
  rewrite round_suffixes_phase, phase_rounds_last in H. fold (newest_round d) in H. set (x := newest_round d) in *. cbn [option_map] in H.
  unfold to_hold. fold x. unfold rounds_at in H. rewrite round_suffixes_phase, existsb_map in H.
  change (existsb (fun y => Disputes.held (round_at (wallet s) (dispute_id d) y) && negb (Disputes.released (round_at (wallet s) (dispute_id d) y))))
    with (existsb (open_round (wallet s) (dispute_id d))) in H.
  change (Disputes.held (round_at (wallet s) (dispute_id d) x)) with (held_round (wallet s) (dispute_id d) x) in H.
  rewrite <- negb_orb. destruct (held_round (wallet s) (dispute_id d) x || _) eqn:Eh; [apply ret_ok in H as [-> ->]; done|].
  apply orb_false_iff in Eh as [Eh Eo]. cbn [negb andb].
  assert (Hnone : hold_entry (wallet s) (dispute_id d) x = None).
  { unfold held_round in Eh. rewrite entry_at_hold in Eh. by destruct (hold_entry _ _ _). }
  erewrite bind_run in H; [|apply on_wallet_run; unfold find_topup; rewrite find_entry_at; reflexivity].
  rewrite with_wallet_same in H. set (paid := entry_at _ "topup" _ _) in *.
  apply bind_ok in H as (fee & s0 & Hf & H).
  assert (s0 = s /\ fee = fee_only s (dp_payment_id d)) as [-> Efee].
  { unfold fee_only. fold paid. destruct paid; [by apply ret_ok in Hf as [-> ->]|by apply gets_ok in Hf as [-> ->]]. }
  rewrite <- Efee. destruct fee; [apply ret_ok in H as [-> ->]; done|].
  apply bind_ok in H as (rm & s1 & Hrm & H). apply on_wallet_ok in Hrm as (w1 & Hrm & ->).
  apply bind_ok in H as (bal & s1 & Hrec & H). apply on_wallet_ok in Hrec as (w2 & Hrec & ->). cbn [wallet with_wallet] in Hrec.
  apply bind_ok in H as (q & s1 & Hq & H). apply lift_ok in Hq as [_ ->].
  apply bind_ok in H as (u & s1 & Hu & H). apply modify_ok in Hu as ->. apply ret_ok in H as [-> ->].
  cbn [wallet with_wallet with_disputes refund_intents].
  set (meta := _ ++ with_splits (rm_splits rm) ++ _) in Hrec.
  destruct (taken_back (wallet s) _ (dp_amount_inr d) rm w1 "adjustment" _ meta bal w2 Hw Hm Ha (fun s0 => hold_marks s0 _ _) Hrm Hrec)
    as (T1 & T2 & _ & T4 & T5 & _ & _ & (es & e & El & Hes & Ete & Er & Ed & Em & Hnew) & _).
  destruct (remove_credit_taken _ _ _ _ _ Hw Hm Ha Hrm) as [Elap _].
  split; [done|]. split; [done|]. split; [done|]. split; [done|]. exists x, e. split; [done|].
  split; [done|]. split; [done|].
  assert (Hrest : (restated_meta e == expiry_restated_inr rm)%Q /\ is_money (restated_meta e)).
  { unfold restated_meta. rewrite Em. unfold meta. cbn [app].
    assert (Hadd : forall more : list (string * jval), json_get "expiry_restated_inr" (with_splits (rm_splits rm) ++ more) = json_get "expiry_restated_inr" more)
      by (intros more; unfold with_splits; destruct (rm_splits rm); [done|]; unfold lots_meta; cbn [app]; by rewrite json_get_skip by discriminate).
    rewrite !json_get_skip by discriminate. rewrite Hadd.
    assert (Hrmm : is_money (expiry_restated_inr rm)).
    { assert (E : (expiry_restated_inr rm == balance_held w2 - balance_held (wallet s) + dp_amount_inr d)%Q) by (rewrite T4; ring).
      rewrite E. pose proof Hw as Hw0. apply owing_0 in Hw0, T1.
      pose proof (balance_of_bounds w2 (rls w2) (tb_ledger _ (ow_tables _ _ T1))) as [M2 _].
      pose proof (balance_of_bounds (wallet s) (rls (wallet s)) (tb_ledger _ (ow_tables _ _ Hw0))) as [M1 _].
      rewrite (lk_balance w2 (tb_ledger _ (ow_tables _ _ T1))) in M2.
      rewrite (lk_balance (wallet s) (tb_ledger _ (ow_tables _ _ Hw0))) in M1.
      unfold balance_held. auto with money. }
    destruct (dlt_spec 0 (expiry_restated_inr rm)) as [Hp|Hp]; [rewrite json_get_here; done|]. simpl.
    split; [lra|auto with money]. }
  destruct Hrest as [Hrest Hrm'].
  assert (Habs : (Qabs (e_delta e) == dp_amount_inr d)%Q) by (rewrite Ed, Qabs_opp, Qabs_pos by lra; reflexivity).
  assert (Hnet : (net_of e == dp_amount_inr d - expiry_restated_inr rm)%Q) by (unfold net_of; rewrite Habs, Hrest; ring).
  split; [split; [done|rewrite Hnet, Hrest; lra]|]. split; [done|]. split; [by rewrite Hnet, Elap|].
  split; [rewrite T4, Hnet; ring|].
  intros r Ho Hne. rewrite El. apply newest_others with (r := hold_ref (dispute_id d) x); [done| |done|done].
  rewrite T2 in Hnew. by apply newest_ref in Hnew.
Qed.

(** ** Giving a round back *)

(** Crediting nothing changes no lot. *)
Lemma apply_credit_zero t c bal rates_ src pack eid restate ovr w cl w' :
  (c == 0)%Q -> apply_credit_to_lots terms t c bal rates_ src pack eid restate ovr w = Ok (cl, w') -> w' = w.
Proof.
  intros Hc H. unfold apply_credit_to_lots in H. cbv zeta in H. set (od := dmax _ 0) in H.
  assert (H0 : (0 <= od)%Q) by (unfold od; destruct (dmax_spec (dneg (dsub bal c)) 0) as [[? ->]|[? ->]]; lra).
  assert (Hz : (quantize MONEY_SCALE ROUND_HALF_UP (dsub c (dmin c od)) <= 0)%Q).
  { destruct (dmin_spec c od) as [[_ ->]|[? _]]; [rewrite dsub_self|lra]. apply Qle_refl. }
  destruct (dle_spec (quantize MONEY_SCALE ROUND_HALF_UP (dsub c (dmin c od))) 0) as [_|Hn]; [|contradiction].
  by apply ret_ok in H as [_ ->].
Qed.

(** A credit of zero or more, recorded under a reference and put on the lots. *)
Lemma credit_lands_any w c reason r meta b w1 w2 rates_ src pack eid restate cl w3 :
  wallet_ok w -> is_money c -> (0 <= c < numeric_limit)%Q -> marks_old w reason meta ->
  record_entry (rls w) c reason (Some r) meta false true w = Ok (b, w1) -> aside w1 w2 ->
  apply_credit_to_lots terms (rls w) c (amount_inr b) rates_ src pack eid restate None w2 = Ok (cl, w3) ->
  wallet_ok w3 /\ rls w3 = rls w /\ (balance_held w3 == balance_held w + c)%Q
  /\ credit_ledger w3 = credit_ledger w1.
Proof.
  intros Hw Hm [H0 H1] Hold H Ha Hl. destruct (Qlt_le_dec 0 c) as [Hp|Hp].
  { destruct (credit_lands terms w c reason r meta true b w1 w2 rates_ src pack eid restate cl w3 Hw Hm ltac:(lra) Hold H Ha Hl)
      as (R1 & R2 & R3 & _ & _ & _ & R4). done. }
  assert (Hz : (c == 0)%Q) by lra. apply apply_credit_zero in Hl as ->; [|done]. apply owing_0 in Hw.
  destruct (record_found 0 w c reason r meta false true b w1 Hw Hm (andb_false_r _) Hold H) as (Ho & Hr & _ & Hb & _).
  split; [apply owing_0; eapply owing_eq; [|eapply aside_owing; [exact Ho|exact Ha]]; lra|].
  split; [by rewrite (as_rls _ _ Ha)|]. split; [by rewrite (aside_held _ _ Ha)|by rewrite (as_ledger _ _ Ha)].
Qed.

(** What releasing the newest open round does: the wallet
    gets back what its entry says it took, and no other round's entries change. *)
Definition round_released (d : DisputeFacts) (w w' : db) : Prop :=
  exists x e, newest_open w d = Some x /\ hold_entry w (dispute_id d) x = Some e
    /\ entry_at (rls w) "adjustment" (release_ref (dispute_id d) x) w = None
    /\ is_some (entry_at (rls w) "adjustment" (release_ref (dispute_id d) x) w') = true
    /\ (balance_held w' == balance_held w + net_of e)%Q
    /\ forall r, r <> release_ref (dispute_id d) x ->
         newest (has_ref (rls w) (rls w) "adjustment" r) (credit_ledger w')
         = newest (has_ref (rls w) (rls w) "adjustment" r) (credit_ledger w).

(** The entries that hold a dispute's rounds are sound. *)
Definition holds_sound (w : db) (did : string) : Prop := forall x e, hold_entry w did x = Some e -> hold_sound e.

Lemma entry_restated (s : pay A) e :
  ledger_ok (wallet s) -> In e (credit_ledger (wallet s)) -> e_tenant e = rls (wallet s) ->
  restated_of (e_id e) s = Ok (restated_meta e, s).
Proof.
  intros Hk Hin Ht. unfold restated_of. erewrite on_wallet_run; [|unfold gets; reflexivity]. rewrite with_wallet_same.
  destruct (select _ _) as [|x rest] eqn:E.
  - exfalso. assert (In e []) as []. rewrite <- E. apply select_In. split; [done|]. rewrite Ht, !Z.eqb_refl. done.
  - assert (In x (x :: rest)) as Hx by by left. rewrite <- E in Hx. apply select_In in Hx as [Hx Hp].
    assert (x = e) as ->; [|done]. apply (pk_unique e_id (credit_ledger (wallet s))); [apply Hk|done|done|lia].
Qed.

Lemma newest_open_entry w d x :
  newest_open w d = Some x ->
  exists e, hold_entry w (dispute_id d) x = Some e /\ entry_at (rls w) "adjustment" (release_ref (dispute_id d) x) w = None.
Proof.
  intros H. apply last_Some in H as [l H].
  assert (Hr : In x (List.filter (open_round w (dispute_id d)) (phase_rounds (dp_phase d))))
    by (rewrite H; apply in_or_app; right; by left).
  apply filter_In in Hr as [_ Hp]. unfold open_round, held_round in Hp. apply andb_prop in Hp as [Hp1 Hp2].
  rewrite entry_at_hold in Hp1. destruct (hold_entry w (dispute_id d) x) as [e|] eqn:E; [|done]. exists e. split; [done|].
  by destruct (entry_at _ _ _ _).
Qed.

Lemma last_open_rounds w d :
  last (open_rounds (rounds_at w (dispute_id d) (dp_phase d))) = option_map (round_at w (dispute_id d)) (newest_open w d).
Proof. unfold open_rounds, rounds_at, newest_open. by rewrite round_suffixes_phase, filter_map, last_map. Qed.

Lemma release_spec d s b s' :
  wallet_ok (wallet s) -> holds_sound (wallet s) (dispute_id d) -> release (rls (wallet s)) d s = Ok (b, s') ->
  wallet_ok (wallet s') /\ rls (wallet s') = rls (wallet s) /\ same_desk s s'
  /\ b = match newest_open (wallet s) d with Some _ => true | None => false end
  /\ (if b then round_released d (wallet s) (wallet s') else s' = s).
Proof.
  intros Hw Hsound H. unfold Disputes.release in H. rewrite (bind_run _ _ _ _ _ (round_entries_run _ _ s)) in H.
  fold (rounds_at (wallet s) (dispute_id d) (dp_phase d)) in H. rewrite last_open_rounds in H.
  destruct (newest_open (wallet s) d) as [x|] eqn:Hx; [|apply ret_ok in H as [-> ->]; done].
  destruct (newest_open_entry _ _ _ Hx) as (e & He & Hrel). cbn [suffix round_at option_map] in H.
  assert (Hk : ledger_ok (wallet s)) by (apply owing_0 in Hw; apply (tb_ledger _ (ow_tables _ _ Hw))).
  erewrite bind_run in H; [|apply on_wallet_run, find_entry_at]. rewrite with_wallet_same, entry_at_hold, He in H. cbn [option_map entry_id entry_amount] in H.
  pose proof He as He'. apply newest_In in He' as [Hin Hhas]. unfold has_ref, own in Hhas.
  apply andb_prop in Hhas as [Hhas Href]. apply andb_prop in Hhas as [Hten _]. apply bool_decide_eq_true in Href.
  rewrite (bind_run _ _ _ _ _ (entry_restated s e Hk Hin ltac:(lia))) in H.
  set (c := dsub (dabs (e_delta e)) (restated_meta e)) in H.
  destruct (Hsound x e He) as (Hrm & Hnet & Hr0).
  pose proof (lk_rows _ Hk) as Hrows. rewrite List.Forall_forall in Hrows. destruct (Hrows e Hin) as (Hdm & _ & _ & _ & Hd1 & Hd2).
  pose proof numeric_limit_bound as Hlb.
  assert (Habs : (dabs (e_delta e) == Qabs (e_delta e))%Q /\ (0 <= Qabs (e_delta e) < numeric_limit)%Q).
  { unfold dabs. destruct (Qle_bool 0 (e_delta e)) eqn:Eq.
    - apply Qle_bool_iff in Eq. rewrite Qabs_pos by done. split; [|lra]. apply round28_money; [done|]. rewrite Qabs_pos by done. lra.
    - assert (e_delta e < 0)%Q as Hneg by (apply Qnot_le_lt; intros Hc; apply Qle_bool_iff in Hc; congruence).
      rewrite Qabs_neg by lra. split; [|lra]. apply round28_money; [auto with money|]. rewrite Qabs_opp, Qabs_neg by lra. lra. }
  destruct Habs as [Ea Hab]. assert (Hmabs : is_money (Qabs (e_delta e))) by by apply is_money_abs.
  assert (Hc : (c == net_of e)%Q).
  { unfold c, net_of. rewrite <- Ea. unfold net_of in Hnet. apply dsub_money; rewrite ?Ea; [exact Hmabs|exact Hrm|lra|lra]. }
  assert (Hcm : is_money c) by (rewrite Hc; unfold net_of; auto with money).
  apply bind_ok in H as (bal & s1 & Hrec & H). apply on_wallet_ok in Hrec as (w1 & Hrec & ->).
  erewrite bind_run in H; [|apply on_wallet_run, find_entry_at]. cbn [wallet with_wallet] in H.
  destruct (entry_at (rls (wallet s)) "adjustment" (release_ref (dispute_id d) x) w1) as [back|] eqn:Eb; [|by apply raise_ok in H].
  erewrite bind_run in H; [|apply on_wallet_run; unfold find_topup; rewrite find_entry_at; reflexivity]. cbn [wallet with_wallet] in H.
  apply bind_ok in H as (l & s1 & Hl & H).
  assert (Hold : marks_old (wallet s) "adjustment" [("kind", JText DISPUTE_RELEASE_KIND); ("source", JText PROVIDER);
             ("dispute_ref", JText (dispute_id d)); ("payment_ref", JText (dp_payment_id d))]) by by apply marks_old_kind.
  pose proof Hw as Hw0. apply owing_0 in Hw0.
  destruct (record_found 0 (wallet s) c "adjustment" _ _ false true bal w1 Hw0 Hcm (andb_false_r _) Hold Hrec)
    as (Ho1 & Hr1 & _ & _ & _ & Hother & (e1 & El1 & Et1 & Eer1 & _ & _ & Hn1) & _).
  assert (Hs1 : wallet s1 = w1 /\ same_desk s s1).
  { destruct (entry_at _ "topup" _ _) as [p|].
    - apply on_wallet_ok in Hl as (w1' & Hl & ->). cbn [wallet with_wallet] in *.
      destruct (purchase_lot_returns w1 (rls (wallet s)) (entry_id p) (ow_tables _ _ Ho1)) as (o & Hp & _).
      rewrite Hp in Hl. injection Hl as _ <-. done.
    - apply ret_ok in Hl as [_ ->]. done. }
  destruct Hs1 as [Hw1 Hd1']. clear Hl.
  apply bind_ok in H as (card & s2 & Hcard & H). apply rate_card_now_quiet in Hcard as [Hq Hds]. rewrite Hw1 in Hq.
  apply bind_ok in H as (cl & s3 & Hap & H). apply on_wallet_ok in Hap as (w3 & Hap & ->). apply ret_ok in H as [-> ->].
  assert (Hclim : (0 <= c < numeric_limit)%Q) by (rewrite Hc; unfold net_of in *; lra).
  destruct (credit_lands_any (wallet s) c "adjustment" _ _ bal w1 (wallet s2) _ _ _ _ _ cl w3 Hw Hcm Hclim Hold Hrec Hq Hap)
    as (R1 & R2 & R3 & R4).
  cbn [wallet with_wallet]. split; [done|]. split; [done|]. split; [desk|]. split; [done|].
  exists x, e. split; [done|]. split; [done|]. split; [done|]. split; [|split; [by rewrite R3, Hc|]].
  - rewrite (same_ledger_entry_at _ _ _ w1 w3); [by rewrite Eb|congruence|done].
  - intros r Hne. rewrite R4, El1. apply newest_skip. unfold has_ref. rewrite Hr1 in Hn1. apply newest_ref in Hn1. rewrite Hn1.
    rewrite (bool_decide_false (Some _ = Some r)); [by rewrite andb_false_r|congruence].
Qed.

(** ** Applying an event *)

(** Two wallets with one ledger: the rounds only depend on it. *)
Definition one_ledger (w w' : db) : Prop := rls w' = rls w /\ credit_ledger w' = credit_ledger w.

Lemma aside_one_ledger w w' : aside w w' -> one_ledger w w'.
Proof. intros [R L _ _ _ _]. done. Qed.

(** The reads of a removal depend on the ledger and the lots alone. *)
Lemma last_reprice_aside n t l w w' :
  aside w w' -> last_reprice n t l w' = match last_reprice n t l w with Ok (o, _) => Ok (o, w') | Err x => Err x end.
Proof.
  intros Ha. revert l. induction n as [|n IH]; intros l; [done|]. simpl. unfold bind, reprice_successor, gets.
  rewrite (as_rls _ _ Ha), (as_ledger _ _ Ha), (as_lots _ _ Ha). destruct (option_map _ _); [apply IH|done].
Qed.

Lemma corrected_lot_aside w w' ce : aside w w' -> corrected_lot w' ce = corrected_lot w ce.
Proof.
  intros Ha. unfold corrected_lot. destruct ce as [e|]; [|done].
  unfold purchase_lot_of_entry, lot_of_entry, bind, gets. rewrite (as_rls _ _ Ha), (as_lots _ _ Ha).
  destruct (option_map _ _) as [l|]; [|done]. rewrite (last_reprice_aside _ _ _ w w' Ha).
  rewrite (as_lots _ _ Ha). by destruct (last_reprice (S (length (credit_lots w))) (rls w) l w) as [[]|].
Qed.

Lemma lapse_due_aside w w' ce a : aside w w' -> lapse_due w' ce a = lapse_due w ce a.
Proof.
  intros Ha. unfold lapse_due. rewrite (corrected_lot_aside w w' ce Ha). destruct (corrected_lot w ce); [|done].
  by rewrite (as_rls _ _ Ha), (as_ledger _ _ Ha).
Qed.

Lemma round_held_ext d w1 w2 w1' w2' :
  aside w1 w2 -> one_ledger w1' w2' -> round_held d w2 w1' -> round_held d w1 w2'.
Proof.
  intros Ha [R' L'] (x & e & H1 & H3 & H4 & H5 & H6 & HL & H7 & H8). exists x, e. split; [done|].
  destruct (aside_one_ledger _ _ Ha) as [R L].
  unfold paid_entry in *. rewrite (aside_entry_at _ _ _ _ _ Ha), R, (lapse_due_aside w1 w2 _ _ Ha) in HL.
  unfold hold_entry, entry_at, balance_held in *. rewrite ?R, ?L, ?R', ?L' in *.
  split; [done|]. split; [done|]. split; [done|]. split; [done|]. split; [done|]. split; [done|]. exact H8.
Qed.

Lemma newest_open_ext w w' d : one_ledger w w' -> newest_open w' d = newest_open w d.
Proof. intros [R L]. unfold newest_open, open_round, held_round, entry_at. by rewrite R, L. Qed.

Lemma to_hold_ext d (s s' : pay A) :
  one_ledger (wallet s) (wallet s') -> fee_refs s' = fee_refs s -> to_hold s' d = to_hold s d.
Proof.
  intros [R L] F. unfold to_hold, fee_only, open_round, held_round, entry_at. by rewrite R, L, F.
Qed.

Lemma round_released_ext d w1 w2 w1' w2' :
  one_ledger w1 w2 -> one_ledger w1' w2' -> round_released d w2 w1' -> round_released d w1 w2'.
Proof.
  intros [R L] [R' L'] (x & e & H1 & H2 & H3 & H4 & H5 & H6). exists x, e.
  rewrite (newest_open_ext _ _ d (conj R L)) in H1. split; [done|].
  unfold hold_entry, entry_at, balance_held in *. rewrite ?R, ?L, ?R', ?L' in *.
  split; [done|]. split; [done|]. split; [done|]. split; [done|]. exact H6.
Qed.

Lemma holds_sound_ext w w' did : one_ledger w w' -> holds_sound w did -> holds_sound w' did.
Proof. intros [R L] H x e. unfold hold_entry. rewrite R, L. apply H. Qed.

Lemma round_held_sound d w w' did :
  rls w' = rls w -> round_held d w w' -> holds_sound w did -> did = dispute_id d -> holds_sound w' did.
Proof.
  intros Hr (x & e & _ & _ & He & Hs & _ & _ & _ & Hother) H -> y e' Hy.
  destruct (decide (y = x)) as [->|Hne]; [rewrite He in Hy; by injection Hy as <-|].
  apply (H y). unfold hold_entry in *. rewrite Hr, Hother in Hy; [done|apply hold_ref_ordinary|].
  unfold hold_ref. congruence.
Qed.

Lemma round_released_sound d w w' did :
  rls w' = rls w -> round_released d w w' -> holds_sound w did -> holds_sound w' did.
Proof.
  intros Hr (x & e & _ & _ & _ & _ & _ & Hother) H y e' Hy. apply (H y). unfold hold_entry in *.
  rewrite Hr, Hother in Hy; [done|]. unfold hold_ref, release_ref. done.
Qed.

(** What an event came to: its answer is the expected one, and the answer says what
    happened on the ledger. *)
Definition event_effect (d : DisputeFacts) (s : pay A) (o : string) (s' : pay A) : Prop :=
  if bool_decide (o ∈ ["held"; "debited"]) then round_held d (wallet s) (wallet s')
     else if String.eqb o "released" then round_released d (wallet s) (wallet s')
     else one_ledger (wallet s) (wallet s').
Definition event_outcome (d : DisputeFacts) (s : pay A) (o : string) (s' : pay A) : Prop :=
  o = event_answer s d /\ event_effect d s o s'.

Lemma owe_outcome_notice_aside d s u s' :
  owe_outcome_notice (A := A) (rls (wallet s)) d s = Ok (u, s') ->
  aside (wallet s) (wallet s') /\ refund_intents s' = refund_intents s /\ fee_refs s' = fee_refs s.
Proof.
  intros H. unfold owe_outcome_notice in H. apply bind_ok in H as (rows & s1 & H1 & H). apply gets_ok in H1 as [-> ->].
  destruct (select _ _) as [|row [|]]; [done| |done]. apply bind_ok in H as (i & s1 & H1 & H).
  apply on_wallet_ok in H1 as (w1 & H1 & ->). apply uuid7_aside in H1. apply on_wallet_ok in H as (w2 & H2 & ->).
  apply modify_ok in H2 as ->. cbn [wallet with_wallet refund_intents] in *. split; [|done].
  eapply aside_trans; [exact H1|]. constructor; try done; [apply order_ok_outbox|by exists 0%nat].
Qed.

(** The row of the dispute is written first; the wallet steps aside. *)
Lemma record_event_aside t d (existing : option dispute_row) action event (s s' : pay A) u :
  (match existing with
   | None =>
       u ← on_wallet uuid7 ;
       a ← (fun s => lift (numeric_12_4 (dp_amount_inr d)) s) ;
       t0 ← on_wallet (gets now) ;
       insert_dispute (DisputeRow u t (dispute_id d) (dp_payment_id d) a (dp_status d) (dp_phase d)
                         (dp_reason_code d) (dp_respond_by d) 0 action event t0)
   | Some _ => update_dispute d action event
   end) s = Ok (u, s') -> aside (wallet s) (wallet s') /\ refund_intents s' = refund_intents s /\ fee_refs s' = fee_refs s.
Proof.
  intros H. destruct existing.
  - unfold update_dispute in H. destruct (negb _); [by apply raise_ok in H|]. apply modify_ok in H as ->.
    split; [apply aside_refl|done].
  - apply bind_ok in H as (i & s1 & H1 & H). apply on_wallet_ok in H1 as (w1 & H1 & ->). apply uuid7_aside in H1.
    apply bind_ok in H as (a & s1 & H2 & H). apply lift_ok in H2 as [_ ->].
    apply bind_ok in H as (t0 & s1 & H2 & H). apply on_wallet_ok in H2 as (w2 & H2 & ->). apply gets_ok in H2 as [_ ->].
    unfold insert_dispute in H. apply bind_ok in H as (v & s1 & H2 & H). apply on_wallet_ok in H2 as (w2 & H2 & ->).
    unfold own_tenant in H2. apply bind_ok in H2 as (r & s1 & H2 & H3). apply gets_ok in H2 as [_ ->].
    cbn [wallet with_wallet] in H3. destruct (_ =? _); [|by apply raise_ok in H3]. apply ret_ok in H3 as [_ ->].
    apply bind_ok in H as (rows & s1 & H2 & H). apply gets_ok in H2 as [_ ->].
    repeat (match type of H with (if ?b then _ else _) _ = _ => destruct b; [by apply raise_ok in H|] end).
    apply modify_ok in H as ->. done.
Qed.

(** The tail of the handler: what the event comes to on a wallet its row is written in. *)
Lemma outcome_spec d s o s' :
  wallet_ok (wallet s) -> dispute_amount_ok d -> holds_sound (wallet s) (dispute_id d) ->
  (if bool_decide (dp_status d ∈ OPEN_STATES) then
     h ← hold (rls (wallet s)) d ; ret (if h : bool then "held" else "recorded")
   else if bool_decide (dp_status d ∈ ["won"; "closed"]) then
     r ← release (rls (wallet s)) d ; ret (if r : bool then "released" else "recorded")
   else if String.eqb (dp_status d) "lost" then
     h ← hold (rls (wallet s)) d ; ret (if h : bool then "debited" else "recorded")
   else ret "recorded") s = Ok (o, s') ->
  wallet_ok (wallet s') /\ rls (wallet s') = rls (wallet s) /\ refund_intents s' = refund_intents s
  /\ holds_sound (wallet s') (dispute_id d) /\ o = due_answer s d /\ event_effect d s o s'.
Proof.
  intros Hw Ha Hs H. unfold due_answer. change ["open"; "under_review"] with OPEN_STATES.
  destruct (bool_decide (dp_status d ∈ OPEN_STATES)) eqn:Eo;
    [|destruct (bool_decide (dp_status d ∈ ["won"; "closed"])) eqn:Ew;
      [|destruct (String.eqb_spec (dp_status d) "lost") as [El|];
        [|apply ret_ok in H as [-> ->]; do 4 (split; [done|]); done]]].
  - apply bind_ok in H as (b & sm & Hh & H). destruct (hold_spec d s b sm Hw Ha Hh) as (G1 & G2 & G3 & G4 & G5).
    rewrite <- G4. destruct b; apply ret_ok in H as [-> ->].
    + do 3 (split; [done|]). split; [by eapply round_held_sound|done].
    + rewrite G5. do 4 (split; [done|]). done.
  - apply bind_ok in H as (b & sm & Hh & H). destruct (release_spec d s b sm Hw Hs Hh) as (G1 & G2 & G3 & G4 & G5).
    assert (String.eqb (dp_status d) "lost" = false) as ->.
    { apply String.eqb_neq. intros El. rewrite El in Ew. discriminate Ew. }
    destruct (newest_open (wallet s) d); subst b; apply ret_ok in H as [-> ->].
    + do 2 (split; [done|]). split; [apply (sd_intents _ _ G3)|]. split; [by eapply round_released_sound|done].
    + rewrite G5. do 4 (split; [done|]). done.
  - apply bind_ok in H as (b & sm & Hh & H). destruct (hold_spec d s b sm Hw Ha Hh) as (G1 & G2 & G3 & G4 & G5).
    rewrite <- G4. destruct b; apply ret_ok in H as [-> ->].
    + do 3 (split; [done|]). split; [by eapply round_held_sound|done].
    + rewrite G5. do 4 (split; [done|]). done.
Qed.

(** What an event comes to does not depend on what steps aside. *)
Lemma event_effect_ext d (s s1 s2 s3 : pay A) o :
  aside (wallet s) (wallet s1) -> one_ledger (wallet s2) (wallet s3) ->
  event_effect d s1 o s2 -> event_effect d s o s3.
Proof.
  intros Ha L H. pose proof (aside_one_ledger _ _ Ha) as L1. unfold event_effect in *.
  destruct (bool_decide (o ∈ ["held"; "debited"])); [by eapply round_held_ext|].
  destruct (String.eqb o "released"); [by eapply round_released_ext|]. destruct L1, L, H. split; congruence.
Qed.

Lemma due_answer_ext d (s s' : pay A) :
  one_ledger (wallet s) (wallet s') -> fee_refs s' = fee_refs s -> due_answer s' d = due_answer s d.
Proof. intros L F. unfold due_answer. by rewrite (to_hold_ext _ s s' L F), (newest_open_ext _ _ d L). Qed.

Lemma dispute_event_spec event d s o s' :
  wallet_ok (wallet s) -> dispute_amount_ok d -> holds_sound (wallet s) (dispute_id d) ->
  apply_dispute_event (rls (wallet s)) event d s = Ok (o, s') ->
  wallet_ok (wallet s') /\ rls (wallet s') = rls (wallet s) /\ refund_intents s' = refund_intents s
  /\ holds_sound (wallet s') (dispute_id d) /\ event_outcome d s o s'.
Proof.
  intros Hw Ha Hsound H. unfold Disputes.apply_dispute_event in H.
  apply bind_ok in H as (rows & s0 & Hrows & H). apply gets_ok in Hrows as [-> ->]. cbv zeta in H.
  set (existing := match select _ _ with [] => None | x :: _ => Some x end) in H.
  match type of H with (if ?b then _ else _) _ = _ => assert (Hlate : b = late s d) end.
  { unfold existing, late, dispute_is, is_over, terminal. destruct (select _ _) as [|x ?]; [done|]. by rewrite escalated_phase. }
  rewrite Hlate in H. unfold event_outcome, event_answer. clear Hlate. destruct (late s d).
  { apply ret_ok in H as [-> ->]. do 5 (split; [done|]). done. }
  apply bind_ok in H as (u1 & s1 & Hrow & H). apply record_event_aside in Hrow as (Ha1 & Hi1 & Hf1).
  apply bind_ok in H as (o' & s2 & Hout & H).
  apply bind_ok in H as (u3 & s3 & Hnote & H). apply bind_ok in H as (u4 & s4 & Hau & H). apply ret_ok in H as [-> ->].
  apply audit_system_quiet in Hau as [Ha4 Hd4].
  pose proof (aside_wallet_ok _ _ Hw Ha1) as Hw1. pose proof (aside_one_ledger _ _ Ha1) as L1.
  pose proof (holds_sound_ext _ _ _ L1 Hsound) as Hs1. pose proof (as_rls _ _ Ha1) as Hr1. rewrite <- Hr1 in Hout.
  destruct (outcome_spec d s1 o' s2 Hw1 Ha Hs1 Hout) as (M1 & M2 & M3 & M4 & M5 & M6).
  assert (Ha3 : aside (wallet s2) (wallet s3) /\ refund_intents s3 = refund_intents s2).
  { rewrite <- Hr1, <- M2 in Hnote. destruct (_ && _); [by apply owe_outcome_notice_aside in Hnote as (? & ? & _)|].
    apply ret_ok in Hnote as [_ ->]. split; [apply aside_refl|done]. }
  destruct Ha3 as [Ha3 Hi3]. pose proof (aside_trans _ _ _ Ha3 Ha4) as Ha5. pose proof (aside_one_ledger _ _ Ha5) as L5.
  split; [by eapply aside_wallet_ok|]. split; [by rewrite (as_rls _ _ Ha5), M2|].
  split; [rewrite (sd_intents _ _ Hd4); congruence|]. split; [by eapply holds_sound_ext|].
  split; [by rewrite M5, (due_answer_ext d s s1)|]. by eapply event_effect_ext.
Qed.

(** C3. What a dispute event comes to is determined, and it moves credit by the rounds of
    its dispute only (a chargeback is the first, each escalation one more, up to the
    event's phase).  An event of an open state after the dispute's end changes nothing,
    unless it escalates the dispute.  An open or lost dispute holds its newest round,
    unless that round was held already, a round up to it is still open, or the payment
    never became credit: the entry debits the amount less the lapsed credit put back for
    it, and the wallet gives up exactly that.  A won or closed one releases the newest of
    its open rounds, if any: the wallet gets back exactly what that round's entry took,
    whatever lapsed in between.  Everything else leaves the ledger as it is, and the
    wallet stays in balance. *)
Theorem dispute_event_correct event d s o s' :
  wallet_ok (wallet s) -> dispute_amount_ok d -> holds_sound (wallet s) (dispute_id d) ->
  apply_dispute_event (rls (wallet s)) event d s = Ok (o, s') ->
  wallet_ok (wallet s') /\ refund_intents s' = refund_intents s
  /\ holds_sound (wallet s') (dispute_id d) /\ event_outcome d s o s'.
Proof.
  intros Hw Ha Hs H. destruct (dispute_event_spec event d s o s' Hw Ha Hs H) as (H1 & _ & H2 & H3 & H4). done.
Qed.
End DisputeLaws.

(** ** Concrete instances *)
Module Example.
Import Payments.Example.

Definition apply (event : string) (d : DisputeFacts) : tx (pay unit) string :=
  apply_dispute_event Audit.Example.keyed Audit.Example.dumps "key" Wallet.Example.accepted_terms 7 event d.

(** A dispute over 500 of the 2000 rupees paid. *)
Definition facts (status : string) (phase : option string) : DisputeFacts :=
  Dispute "disp_1" "pay_1" (inject_Z 500) status phase None None.

Lemma facts_ok status phase : dispute_amount_ok (facts status phase).
Proof. split; [by exists 5000000|split; reflexivity]. Qed.

Lemma paid_holds : holds_sound (wallet paid) "disp_1".
Proof.
  intros x e He. exfalso. apply newest_In in He as [Hin Hp].
  assert (forallb (fun e => negb (bool_decide (e_reason e = "adjustment"))) (credit_ledger (wallet paid)) = true) as Hall
    by (vm_compute; reflexivity).
  rewrite forallb_forall in Hall. specialize (Hall e Hin). unfold has_ref in Hp.
  destruct (bool_decide (e_reason e = "adjustment")); [discriminate Hall|]. rewrite andb_false_r in Hp. discriminate Hp.
Qed.

Definition balance (s : pay unit) : Q := balance_held (wallet s).
End Example.
Import Example.

Lemma dispute_event_correct_witness :
  exists s', apply "payment.dispute.created" (facts "open" None) Payments.Example.paid = Ok ("held", s')
    /\ wallet_ok (wallet s') /\ event_outcome (facts "open" None) Payments.Example.paid "held" s'.
Proof.
  assert (exists s', apply "payment.dispute.created" (facts "open" None) Payments.Example.paid = Ok ("held", s')) as (s' & E)
    by (eexists; vm_compute; reflexivity).
  exists s'. split; [exact E|]. unfold apply in E.
  assert (7 = rls (wallet Payments.Example.paid)) as H7 by (vm_compute; reflexivity). rewrite H7 in E.
  destruct (dispute_event_correct Audit.Example.keyed Audit.Example.dumps "key" Wallet.Example.accepted_terms
              "payment.dispute.created" (facts "open" None) Payments.Example.paid "held" s'
              (proj1 Payments.Example.paid_ok) (facts_ok "open" None) paid_holds E) as (H1 & _ & _ & H4).
  split; [exact H1|exact H4].
Defined.

(** Held, then won: the balance is back where it was, and calling is no longer paused. *)
Example held_and_won :
  match apply "payment.dispute.created" (facts "open" None) Payments.Example.paid with
  | Ok (_, s1) => match apply "payment.dispute.won" (facts "won" None) s1 with
                  | Ok (o, s2) => String.eqb o "released" && Qeq_bool (balance s2) (balance Payments.Example.paid)
                                  && Qeq_bool (balance s1) (inject_Z 1500)
                  | Err _ => false end
  | Err _ => false
  end = true.
Proof. vm_compute. reflexivity. Qed.

(** An event of an earlier phase that arrives late, while a later round of the same
    dispute is held, holds the money a second time: only the rounds up to the event's own
    phase are looked at.  And when the dispute is won, only one of the two holds is given
    back, although the dispute is over and calling is no longer paused. *)
Theorem late_event_holds_twice :
  exists s1 s2 s3,
    apply "payment.dispute.created" (facts "open" (Some "pre_arbitration")) Payments.Example.paid = Ok ("held", s1)
    /\ apply "payment.dispute.under_review" (facts "under_review" (Some "chargeback")) s1 = Ok ("held", s2)
    /\ (balance s2 == balance Payments.Example.paid - 2 * dp_amount_inr (facts "open" None))%Q
    /\ apply "payment.dispute.won" (facts "won" (Some "pre_arbitration")) s2 = Ok ("released", s3)
    /\ (balance s3 == balance Payments.Example.paid - dp_amount_inr (facts "open" None))%Q
    /\ dispute_hold_active 7 s3 = Ok (false, s3).
Proof.
  assert (H : match apply "payment.dispute.created" (facts "open" (Some "pre_arbitration")) Payments.Example.paid with
    | Ok (o1, s1) =>
      match apply "payment.dispute.under_review" (facts "under_review" (Some "chargeback")) s1 with
      | Ok (o2, s2) =>
        match apply "payment.dispute.won" (facts "won" (Some "pre_arbitration")) s2 with
        | Ok (o3, s3) => o1 = "held" /\ o2 = "held" /\ o3 = "released"
            /\ Qeq_bool (balance s2) (balance Payments.Example.paid - 2 * dp_amount_inr (facts "open" None)) = true
            /\ Qeq_bool (balance s3) (balance Payments.Example.paid - dp_amount_inr (facts "open" None)) = true
            /\ match dispute_hold_active 7 s3 with Ok (b, _) => b = false | Err _ => False end
        | Err _ => False end
      | Err _ => False end
    | Err _ => False end) by (vm_compute; repeat split).
  destruct (apply _ _ Payments.Example.paid) as [[o1 s1]|] eqn:E1; [|destruct H].
  destruct (apply _ _ s1) as [[o2 s2]|] eqn:E2; [|destruct H].
  destruct (apply _ _ s2) as [[o3 s3]|] eqn:E3; [|destruct H].
  destruct H as (-> & -> & -> & H2 & H3 & H4). exists s1, s2, s3.
  split; [reflexivity|]. split; [exact E2|]. split; [by apply Qeq_bool_iff|]. split; [exact E3|].
  split; [by apply Qeq_bool_iff|]. unfold dispute_hold_active, gets in *. by rewrite H4.
Qed.
End Disputes.
