(* ===== verification/FleetWalk.v ===== *)
(** * Walking the fleet under a deadline

    apps/workers/fleet_walk.py: a nightly job visits the tenants one by one until its
    time budget is spent; a cursor kept in Redis makes the next pass resume after the last
    tenant reached and wrap round.  The clock is the sequence of readings of
    [time.monotonic()] in microseconds; Redis answers or raises. *)

From Stdlib Require Import ZArith Lia List Sorted.
From stdpp Require Import base list strings sorting.
From S2P Require Import Prelude Sql.

Local Open Scope string_scope.
Local Open Scope list_scope.
Local Open Scope Z_scope.

Module FleetWalk.

Definition FLEET_WALK_DEADLINE : Z := 180 * 1000000.

(** [WalkBudget]. *)
Record WalkBudget := Budget { deadline : Z; exhausted : bool }.
Definition new_budget (monotonic : Z) : WalkBudget := Budget (monotonic + FLEET_WALK_DEADLINE) false.
Definition spent (monotonic : Z) (b : WalkBudget) : bool * WalkBudget :=
  if exhausted b then (true, b)
  else if deadline b <=? monotonic then (true, Budget (deadline b) true) else (false, b).

Section Walk.
Context {T : Type} (key : T -> string).

Definition sorted_by_key : list T -> list T := order_by (fun x y => String.leb (key x) (key y)).

Definition rotate_after (items : list T) (after : option string) : list T :=
  match after with
  | None => items
  | Some a => List.filter (fun x => String.ltb a (key x)) items
              ++ List.filter (fun x => String.leb (key x) a) items
  end.

(** [WalkCursor]: what Redis holds, and whether it answers. *)
Definition last_reached (readable : bool) (stored : option string) : option string :=
  if readable then match stored with Some v => if String.eqb v "" then None else Some v | None => None end
  else None.
Definition reached_key (writable : bool) (k : string) (stored : option string) : option string :=
  if writable then Some k else stored.

(** What happens around one pass: the clock's readings, which bodies finish, and which
    requests Redis answers. *)
Record conditions := Conditions {
  monotonic : nat -> Z; finishes : T -> bool; readable : bool; writable : nat -> bool }.

(** The loop of [resumed_walk]: the items whose body finished, the cursor and the budget.
    A body that raises ends the loop before its item is recorded. *)
Fixpoint walk_loop (c : conditions) (n : nat) (b : WalkBudget) (items : list T) (stored : option string) :
    list T * option string * WalkBudget :=
  match items with
  | [] => ([], stored, b)
  | x :: rest =>
      let '(over, b) := spent (monotonic c n) b in
      if over then ([], stored, b)
      else if negb (finishes c x) then ([], stored, b)
      else let '(done, stored, b) := walk_loop c (S n) b rest (reached_key (writable c n) (key x) stored) in
           (x :: done, stored, b)
  end.

Definition resumed_walk (c : conditions) (b : WalkBudget) (items : list T) (stored : option string) :
    list T * option string * WalkBudget :=
  walk_loop c 0 b (rotate_after (sorted_by_key items) (last_reached (readable c) stored)) stored.

(** Consecutive passes: each starts with the directory as it is then, and the cursor as
    the one before left it. *)
Record pass := Pass { directory : list T; around : conditions; began : Z }.
Fixpoint passes (ps : list pass) (stored : option string) : list (list T) :=
  match ps with
  | [] => []
  | p :: ps =>
      let '(done, stored, _) := resumed_walk (around p) (new_budget (began p)) (directory p) stored in
      done :: passes ps stored
  end.
End Walk.
Arguments conditions T : clear implicits.
Arguments pass T : clear implicits.
(** ** Every tenant is reached *)
Section Liveness.
Context {T : Type} (key : T -> string).
Implicit Types (x t : T) (items U : list T) (after : option string).

(** [x] comes in the turn that goes from just after the cursor round to [t]. *)
Definition awaits after t x : bool :=
  match after with
  | None => String.leb (key x) (key t)
  | Some a => if String.leb (key t) a then negb (String.leb (key x) a) || String.leb (key x) (key t)
              else negb (String.leb (key x) a) && String.leb (key x) (key t)
  end.

Definition before after x y : Prop :=
  match after with
  | None => String.leb (key x) (key y) = true
  | Some a => if String.leb (key x) a
              then String.leb (key y) a = true /\ String.leb (key x) (key y) = true
              else String.leb (key y) a = false -> String.leb (key x) (key y) = true
  end.

Lemma sorted_by_key_sorted items : StronglySorted (fun x y => String.leb (key x) (key y) = true) (sorted_by_key key items).
Proof.
  apply order_by_sorted; [intros x y; apply String.leb_total|intros x y z; apply leb_trans].
Qed.

Lemma filter_sorted (R : T -> T -> Prop) (p : T -> bool) l : StronglySorted R l -> StronglySorted R (List.filter p l).
Proof.
  induction 1 as [|x l Hs IH Hx]; simpl; [constructor|]. destruct (p x); [|done]. constructor; [done|].
  rewrite Forall_forall in *. intros y Hy. apply Hx. apply list_elem_of_In in Hy. apply filter_In in Hy as [Hy _].
  by apply list_elem_of_In.
Qed.

Lemma sorted_weaken (R R' : T -> T -> Prop) l :
  (forall x y, In x l -> In y l -> R x y -> R' x y) -> StronglySorted R l -> StronglySorted R' l.
Proof.
  induction 2 as [|x l Hs IH Hx]; [constructor|]. constructor.
  - apply IH. intros a b Ha Hb. apply H; by right.
  - rewrite Forall_forall in *. intros y Hy. apply H; [by left|right; by apply list_elem_of_In|by apply Hx].
Qed.

Lemma rotate_perm items after : Permutation (rotate_after key (sorted_by_key key items) after) items.
Proof.
  transitivity (sorted_by_key key items); [|apply order_by_perm]. destruct after as [a|]; [|done]. simpl.
  induction (sorted_by_key key items) as [|x l IH]; [done|]. simpl. rewrite ltb_leb.
  destruct (String.leb (key x) a); simpl; [|by constructor]. rewrite <- Permutation_middle. by constructor.
Qed.

Lemma rotate_sorted items after :
  StronglySorted (before after) (rotate_after key (sorted_by_key key items) after).
Proof.
  pose proof (sorted_by_key_sorted items) as Hs. destruct after as [a|]; [|exact Hs]. simpl. apply StronglySorted_app_2.
  - intros x y Hx Hy. apply list_elem_of_In, filter_In in Hx as [_ Hx]; apply list_elem_of_In, filter_In in Hy as [_ Hy]. unfold before. rewrite ltb_leb in Hx. apply negb_true_iff in Hx. rewrite Hx, Hy. done.
  - eapply sorted_weaken; [|apply filter_sorted, Hs]. intros x y Hx _ Hxy. apply filter_In in Hx as [_ Hx].
    unfold before. rewrite ltb_leb in Hx. apply negb_true_iff in Hx. by rewrite Hx.
  - eapply sorted_weaken; [|apply filter_sorted, Hs]. intros x y Hx Hy Hxy. apply filter_In in Hx as [_ Hx], Hy as [_ Hy].
    unfold before. by rewrite Hx.
Qed.

Lemma sorted_app_elem (R : T -> T -> Prop) l1 l2 x y :
  StronglySorted R (l1 ++ l2) -> In x l1 -> In y l2 -> R x y.
Proof.
  intros H Hx Hy. eapply StronglySorted_app_1_elem_of; [exact H|by apply list_elem_of_In..].
Qed.

(** Reaching [x] on the way to [t] shortens the turn. *)
Lemma turn_shrinks after x t :
  before after x t -> key x <> key t ->
  awaits after t x = true /\ awaits (Some (key x)) t x = false
  /\ forall y, awaits (Some (key x)) t y = true -> awaits after t y = true.
Proof.
  intros Hb Hne. assert (H : forall y, awaits after t x = true /\ awaits (Some (key x)) t x = false
    /\ (awaits (Some (key x)) t y = true -> awaits after t y = true)).
  { intros y. unfold awaits, before in *.
    destruct (text_rank [match after with Some a => a | None => "" end; key x; key y; key t]) as [rank Hr].
    destruct after as [a|];
      rewrite !(fun u v Hu Hv => proj1 (Hr u v Hu Hv)) in * by (simpl; tauto);
      rewrite (proj2 (Hr (key x) (key t) ltac:(simpl; tauto) ltac:(simpl; tauto))) in Hne; clear Hr;
      repeat match goal with
        | |- context [(?m <=? ?n)%nat] => destruct (Nat.leb_spec m n)
        | Hb : context [(?m <=? ?n)%nat] |- _ => destruct (Nat.leb_spec m n)
        end; simpl in *; try lia; naive_solver lia. }
  destruct (H x) as (H1 & H2 & _). split; [done|]. split; [done|]. intros y. apply (H y).
Qed.

(** The loop reaches a prefix of the turn, and the cursor is its last item. *)
Lemma walk_loop_prefix (c : conditions T) n b items stored done stored' b' :
  (forall x, finishes c x = true) -> (forall k, writable c k = true) ->
  walk_loop key c n b items stored = (done, stored', b') ->
  exists rest, items = done ++ rest
    /\ stored' = match last done with None => stored | Some x => Some (key x) end
    /\ (items <> [] -> fst (spent (monotonic c n) b) = false -> done <> []).
Proof.
  intros Hf Hw. revert n b stored done stored' b'. induction items as [|x items IH]; intros n b stored done stored' b' H; simpl in H.
  - injection H as <- <- <-. exists []. done.
  - destruct (spent (monotonic c n) b) as [[|] b1] eqn:Es.
    + injection H as <- <- <-. exists (x :: items). simpl. split; [done|]. split; done.
    + rewrite Hf in H. unfold reached_key in H. rewrite Hw in H. cbn [negb] in H.
      destruct (walk_loop key c (S n) b1 items (Some (key x))) as [[d s1] b2] eqn:E. injection H as <- <- <-.
      destruct (IH _ _ _ _ _ _ E) as (rest & -> & -> & _). exists rest. split; [done|]. split; [|done].
      rewrite last_cons. by destruct (last d).
Qed.

(** A pass as the platform runs it: Redis answers, the bodies deal with their own errors,
    and there is time for the first tenant. *)
Record pass_ok U t (p : pass T) : Prop := PassOk {
  po_known : forall x, In x (directory p) -> In x U;
  po_here : In t (directory p);
  po_finishes : forall x, finishes (around p) x = true;
  po_reads : readable (around p) = true;
  po_writes : forall k, writable (around p) k = true;
  po_time : monotonic (around p) 0 < began p + FLEET_WALK_DEADLINE
}.

(** The keys are ids: none is empty, and no two tenants share one. *)
Record keys_ok U : Prop := KeysOk {
  ko_text : forall x, In x U -> key x <> "";
  ko_inj : forall x y, In x U -> In y U -> key x = key y -> x = y
}.

Definition cursor_of (stored : option string) : option string := last_reached true stored.
Definition turn U t stored : nat := length (List.filter (awaits (cursor_of stored) t) U).

Lemma awaits_target after t : awaits after t t = true.
Proof. unfold awaits. rewrite leb_refl. destruct after as [a|]; [|done]. destruct (String.leb (key t) a); simpl; by rewrite ?orb_true_r. Qed.

Lemma pass_reaches_or_shrinks U t (p : pass T) stored done stored' b' :
  keys_ok U -> pass_ok U t p ->
  resumed_walk key (around p) (new_budget (began p)) (directory p) stored = (done, stored', b') ->
  In t done \/ (turn U t stored' < turn U t stored)%nat.
Proof.
  intros [Hne Hinj] [Hk Hh Hf Hr Hw Ht] H. unfold resumed_walk in H. rewrite Hr in H. fold (cursor_of stored) in H.
  destruct (walk_loop_prefix _ _ _ _ _ _ _ _ Hf Hw H) as (rest & El & -> & Hprog).
  pose proof (rotate_perm (directory p) (cursor_of stored)) as Hp. pose proof (rotate_sorted (directory p) (cursor_of stored)) as Hs.
  rewrite El in Hp, Hs. assert (Hin : In t (done ++ rest)) by (apply (Permutation_in _ (Permutation_sym Hp)), Hh).
  apply in_app_or in Hin as [Hin|Hin]; [by left|].
  assert (Hd : done <> []).
  { apply Hprog; [rewrite El; by destruct done; [destruct rest|]|].
    unfold spent, new_budget. simpl. destruct (Z.leb_spec (began p + FLEET_WALK_DEADLINE) (monotonic (around p) 0)); [lia|done]. }
  destruct (last_is_Some done) as [_ [x Hx]]; [done|]. rewrite Hx.
  assert (Hxin : In x done) by (apply list_elem_of_In, last_Some_elem_of, Hx).
  assert (HxU : In x U) by (apply Hk, (Permutation_in _ Hp), in_or_app; by left).
  destruct (decide (key x = key t)) as [E|E].
  - left. rewrite <- (Hinj x t); [done|done|by apply Hk|done].
  - right. unfold turn. unfold cursor_of at 1, last_reached. pose proof (Hne x HxU) as Hnx.
    destruct (String.eqb_spec (key x) ""); [done|].
    destruct (turn_shrinks (cursor_of stored) x t) as (A & B & C);
      [by eapply (sorted_app_elem _ done rest)|done|].
    apply (filter_length_strict _ _ _ x); [|done|done|done]. intros y _. apply C.
Qed.

Lemma passes_reach U t ps : forall stored,
  keys_ok U -> Forall (pass_ok U t) ps -> (turn U t stored <= length ps)%nat -> In t U ->
  Exists (fun reached => In t reached) (passes key ps stored).
Proof.
  induction ps as [|p ps IH]; intros stored Hk Hps Hm Ht; simpl in Hm.
  - exfalso. assert (H : In t (List.filter (awaits (cursor_of stored) t) U)).
    { apply filter_In. split; [done|apply awaits_target]. }
    unfold turn in Hm. destruct (List.filter _ U); [done|simpl in Hm; lia].
  - apply Forall_cons in Hps as [Hp Hps]. simpl.
    destruct (resumed_walk key (around p) (new_budget (began p)) (directory p) stored) as [[done s'] b'] eqn:E.
    destruct (pass_reaches_or_shrinks U t p _ _ _ _ Hk Hp E) as [H|H]; [by apply Exists_cons_hd|].
    apply Exists_cons_tl, IH; try done. lia.
Qed.

(** C27. However short the passes are cut, every tenant is reached: when every pass has
    time for one tenant, Redis keeps the cursor and the bodies deal with their own errors,
    then within as many passes as there ever are tenants, each of them that is in the
    directory throughout is visited, whoever joins or leaves in between and wherever the
    cursor starts. *)
Theorem every_tenant_reached U t ps stored :
  keys_ok U -> Forall (pass_ok U t) ps -> (length U <= length ps)%nat -> In t U ->
  Exists (fun reached => In t reached) (passes key ps stored).
Proof.
  intros Hk Hp Hl Ht. apply (passes_reach U); try done.
  unfold turn. pose proof (List.filter_length (awaits (cursor_of stored) t) U). lia.
Qed.
End Liveness.

(** ** Concrete instances *)
Module Example.

(** Three tenants and passes that are each cut short after one of them. *)
Definition fleet : list string := ["a"; "b"; "c"].
Definition one_each : conditions string :=
  Conditions (fun n => match n with O => 0 | S _ => FLEET_WALK_DEADLINE end) (fun _ => true) true (fun _ => true).
Definition night : pass string := Pass fleet one_each 0.

Example three_nights : passes id [night; night; night] (Some "a") = [["b"]; ["c"]; ["a"]].
Proof. reflexivity. Qed.

Lemma every_tenant_reached_witness :
  Exists (fun reached => In "a" reached) (passes id [night; night; night] (Some "a")).
Proof.
  apply (every_tenant_reached id fleet "a" [night; night; night] (Some "a")).
  - split; [intros x Hx E|intros x y _ _ E; exact E].
    simpl in Hx. unfold id in E. subst x. destruct Hx as [E|[E|[E|[]]]]; discriminate.
  - assert (H : pass_ok fleet "a" night).
    { split; [intros x Hx; exact Hx|by left|done|done|done|reflexivity]. }
    repeat (constructor; [exact H|]). constructor.
  - apply Nat.le_refl.
  - by left.
Defined.
End Example.
End FleetWalk.
