(* ===== verification/Account.v ===== *)
(** * An account's own tables

    The tables behind an account's standing, beside its wallet: the plans agreed with it
    ([plans], billing/models.py), the month's counters its cap is judged on
    ([spend_state]), its free trials ([tenant_trials]), the account itself and its first
    payment ([organizations], tenancy/models.py), the go-live guide it is owed, its voice
    workspace, the settings runs queued for its agents ([live_apply_runs],
    agents/models.py) and its test calls.  They complete the database of the payments
    code: a computation is a [tx] over [pay account]. *)

From Stdlib Require Import ZArith Lia List QArith Lqa.
From stdpp Require Import base list strings pretty.
From S2P Require Import Prelude PyDecimal Sql PyTime Outbox AuditLog WalletDb RateCard Lots Ledger Wallet Envelope Payments.

Local Open Scope string_scope.
Local Open Scope list_scope.
Local Open Scope Z_scope.
Local Open Scope tx_scope.

Import Payments.

Module Account.

(** ** Rows *)

Record plan := Plan {
  pl_id : uuid; pl_tenant : uuid;
  setup_fee : option Q; monthly_fee : option Q; included_min : option Z;
  overage_rate : option Q; overage_rate_second : option Q; overage_rate_value : option Q;
  llm_model_surcharge : option Q;
  hard_cap_min : option Z; hard_cap_spend : option Q;
  client_cap_min : option Z; client_cap_spend : option Q;
  concurrency_ceiling : Z;
  effective_from : option instant; effective_to : option instant;
  pl_created_at : instant }.

Record spend_row := SpendState {
  ss_tenant : uuid; month : string; minutes_used : Q; spend_used : Q; billed_inr : Q; capped : bool }.

(** [tenant_trials]; the status as the column spells it. *)
Record trial := Trial {
  tr_id : uuid; tr_tenant : uuid; days : Z; started_at : instant; ends_at : instant; tr_status : string;
  ended_at : option instant; ended_reason : option string; erase_after : option instant;
  erasure_filed_at : option instant; started_by : option uuid; free_minutes : option Z }.

Record organization := Organization {
  org_id : uuid; org_status : string; deleted_at : option instant;
  first_paid_at : option instant; first_paid_via : option string; first_paid_reason : option string }.

Record guide := Guide { gd_id : uuid; gd_tenant : uuid; owed_at : instant }.

Record workspace := Workspace {
  ws_id : uuid; ws_tenant : uuid; ws_engine : string; external_ref : string; ws_status : string;
  workspace_id : option string; last_error_code : option string }.

Record live_run := LiveRun {
  lr_id : uuid; lr_scope : string; lr_tenant : option uuid; lr_agent : option uuid; reasons : list string;
  lr_status : string; superseded_by : option uuid; lease_until : option instant; requested_by : option uuid;
  lr_created_at : instant }.

Record call := Call {
  ca_id : uuid; ca_tenant : uuid; ca_campaign : option uuid; trial_call : bool; duration_s : option Z; ca_created_at : instant; ca_status : string }.

(** [tenant_erasure_requests] of compliance/models.py. *)
Record erasure := Erasure {
  er_id : uuid; er_tenant : uuid; er_reason : string; requested_at : instant; completed_at : option instant }.

Record account := Acct {
  plans : list plan; spend_state : list spend_row; tenant_trials : list trial;
  organizations : list organization; go_live_guides : list guide; workspaces : list workspace;
  live_apply_runs : list live_run; calls : list call; erasures : list erasure }.

Abbreviation platform := (pay account) (only parsing).

Definition with_account (f : account -> account) (s : platform) : platform :=
  Pay account (wallet s) (rates s) (refund_intents s) (payment_disputes s) (audit_log s) (fee_refs s) (f (Payments.account s)).

Definition with_plans t (a : account) : account :=
  Acct t (spend_state a) (tenant_trials a) (organizations a) (go_live_guides a) (workspaces a) (live_apply_runs a) (calls a) (erasures a).
Definition with_spend t (a : account) : account :=
  Acct (plans a) t (tenant_trials a) (organizations a) (go_live_guides a) (workspaces a) (live_apply_runs a) (calls a) (erasures a).
Definition with_trials t (a : account) : account :=
  Acct (plans a) (spend_state a) t (organizations a) (go_live_guides a) (workspaces a) (live_apply_runs a) (calls a) (erasures a).
Definition with_orgs t (a : account) : account :=
  Acct (plans a) (spend_state a) (tenant_trials a) t (go_live_guides a) (workspaces a) (live_apply_runs a) (calls a) (erasures a).
Definition with_guides t (a : account) : account :=
  Acct (plans a) (spend_state a) (tenant_trials a) (organizations a) t (workspaces a) (live_apply_runs a) (calls a) (erasures a).
Definition with_workspaces t (a : account) : account :=
  Acct (plans a) (spend_state a) (tenant_trials a) (organizations a) (go_live_guides a) t (live_apply_runs a) (calls a) (erasures a).
Definition with_runs t (a : account) : account :=
  Acct (plans a) (spend_state a) (tenant_trials a) (organizations a) (go_live_guides a) (workspaces a) t (calls a) (erasures a).

Definition with_erasures t (a : account) : account :=
  Acct (plans a) (spend_state a) (tenant_trials a) (organizations a) (go_live_guides a) (workspaces a) (live_apply_runs a) (calls a) t.

(** A read of one of the tables, and a write of the account's tables. *)
Definition read {B} (f : account -> B) : tx platform B := gets (fun s => f (Payments.account s)).
Definition write (f : account -> account) : tx platform unit := modify (with_account f).

Definition uuid7 : tx platform uuid := on_wallet WalletDb.uuid7.
(** [datetime.now(UTC)]. *)
Definition utc_now : tx platform instant := on_wallet clock_timestamp.
(** [now()]: the transaction's start. *)
Definition txn_now : tx platform instant := gets (fun s => now (wallet s)).
(** [enqueue_outbox] and [enqueue_outbox_once] of reliability/service.py. *)
Definition enqueue (job : string) (payload : list (string * jval)) : tx platform unit :=
  on_wallet (Ledger.Ledger.enqueue job payload).
Definition enqueue_once (job : string) (payload : list (string * jval)) (key : string) : tx platform bool :=
  i ← uuid7 ;
  t ← gets (fun s => outbox_messages (wallet s)) ;
  n ← txn_now ;
  let '(queued, t') := Outbox.enqueue_outbox_once n i job payload key t in
  on_wallet (modify (with_outbox t')) ;;
  ret (match queued with Some _ => true | None => false end).

(** Rows of the tenant the session runs as: row-level security hides the others. *)
Definition mine {R} (tenant : R -> uuid) (rls tenant_id : uuid) (r : R) : bool :=
  (tenant r =? rls) && (tenant r =? tenant_id).

(** ** Months

    [plans.ist_billing_month]: [strftime("%Y-%m")] of the instant's date in India. *)
Definition two_digits (n : Z) : string := (if n <? 10 then "0" else "") +:+ pretty n.
Definition month_text (d : date) : string := pretty (year d) +:+ "-" +:+ two_digits (PyTime.month d).
Definition ist_billing_month (t : instant) : string := month_text (dt_date (to_ist t)).

(** ** What these computations leave alone *)

(** [s'] is [s] but for the account's tables, the clock, the ids and the outbox. *)
Definition undisturbed (s s' : platform) : Prop := aside (wallet s) (wallet s') /\ same_desk s s' /\ audit_log s' = audit_log s.

Lemma undisturbed_refl s : undisturbed s s.
Proof. split; [apply aside_refl|]. by split; [constructor|]. Qed.

Lemma undisturbed_trans s1 s2 s3 : undisturbed s1 s2 -> undisturbed s2 s3 -> undisturbed s1 s3.
Proof.
  intros (A & B & C) (A' & B' & C'). split; [by eapply aside_trans|]. split; [by eapply same_desk_trans|congruence].
Qed.

Lemma undisturbed_account f s : undisturbed s (with_account f s).
Proof. split; [apply aside_refl|]. by split; [constructor|]. Qed.

#[export] Instance undisturbed_preorder : PreOrder undisturbed.
Proof. split; [exact undisturbed_refl|exact undisturbed_trans]. Qed.

(** A computation that touches the account's tables only. *)
Definition keeps {B} (m : tx platform B) : Prop := respects undisturbed m.

Lemma keeps_bind {B C} (m : tx platform B) (k : B -> tx platform C) :
  keeps m -> (forall b, keeps (k b)) -> keeps (bind m k).
Proof. apply respects_bind, _. Qed.
Lemma keeps_ret {B} (b : B) : keeps (ret b).
Proof. apply respects_ret, _. Qed.
Lemma keeps_raise {B} e : keeps (raise (A := B) e).
Proof. apply respects_raise. Qed.
Lemma keeps_gets {B} (f : platform -> B) : keeps (gets f).
Proof. apply respects_gets, _. Qed.
Lemma keeps_lift {B} (r : result B) : keeps (lift r).
Proof. apply respects_lift, _. Qed.

Lemma keeps_write f : keeps (write f).
Proof. intros s c s' H. apply modify_ok in H as ->. apply undisturbed_account. Qed.

Lemma keeps_on_wallet {B} (m : tx db B) :
  (forall w b w', m w = Ok (b, w') -> aside w w') -> keeps (on_wallet m).
Proof.
  intros Hm s b s' H. unfold on_wallet in H. destruct (m (wallet s)) as [[b' w]|] eqn:E; [|done].
  injection H as <- <-. split; [by eapply Hm|]. by split; [constructor|].
Qed.

Lemma keeps_uuid7 : keeps uuid7.
Proof. apply keeps_on_wallet. intros w b w'. apply uuid7_aside. Qed.

Lemma keeps_utc_now : keeps utc_now.
Proof. apply keeps_on_wallet. intros w b w'. apply clock_aside. Qed.

Lemma aside_outbox o w : aside w (with_outbox o w).
Proof. constructor; try done; [apply Ledger.Ledger.order_ok_outbox|by exists 0%nat]. Qed.

Lemma keeps_enqueue job payload : keeps (enqueue job payload).
Proof.
  apply keeps_on_wallet. intros w b w' H. unfold Ledger.Ledger.enqueue in H.
  apply bind_ok in H as (i & w1 & H1 & H2). apply modify_ok in H2 as ->. apply uuid7_aside in H1.
  eapply aside_trans; [exact H1|apply aside_outbox].
Qed.

Lemma keeps_own_tenant t : keeps (on_wallet (own_tenant t)).
Proof.
  apply keeps_on_wallet. intros w u w' H. unfold own_tenant in H.
  apply bind_ok in H as (r & w1 & E & H). apply gets_ok in E as [-> ->].
  destruct (t =? rls w); [apply ret_ok in H as [_ ->]; apply aside_refl|by apply raise_ok in H].
Qed.

Create HintDb keeps.
#[export] Hint Resolve keeps_bind keeps_ret keeps_raise keeps_gets keeps_lift keeps_write keeps_uuid7
  keeps_utc_now keeps_enqueue keeps_own_tenant : keeps.
Ltac keeps := repeat first
  [ solve [eauto 2 with keeps] | apply keeps_bind; [|intros ?]
  | match goal with |- keeps (match ?x with _ => _ end) => destruct x end ].

Lemma keeps_enqueue_once job payload key : keeps (enqueue_once job payload key).
Proof.
  unfold enqueue_once, txn_now. keeps. apply keeps_on_wallet. intros ??? H. apply modify_ok in H as ->. apply aside_outbox.
Qed.
#[export] Hint Resolve keeps_enqueue_once : keeps.

(** ** Frames: what a computation does not write *)
Section Frames.
Context {X : Type} (f : platform -> X).

Definition frames {B} (m : tx platform B) : Prop := forall s b s', m s = Ok (b, s') -> f s' = f s.

Lemma frames_bind {B C} (m : tx platform B) (k : B -> tx platform C) :
  frames m -> (forall b, frames (k b)) -> frames (bind m k).
Proof.
  intros Hm Hk s c s' H. apply bind_ok in H as (b & s1 & H1 & H2).
  rewrite (Hk _ _ _ _ H2). by eapply Hm.
Qed.
Lemma frames_ret {B} (b : B) : frames (ret b).
Proof. intros s c s' H. by apply ret_ok in H as [_ ->]. Qed.
Lemma frames_raise {B} e : frames (raise (A := B) e).
Proof. intros s c s' H. by apply raise_ok in H. Qed.
Lemma frames_gets {B} (g : platform -> B) : frames (gets g).
Proof. intros s c s' H. by apply gets_ok in H as [_ ->]. Qed.
Lemma frames_lift {B} (r : result B) : frames (lift r).
Proof. intros s c s' H. by apply lift_ok in H as [_ ->]. Qed.
Lemma frames_write g : (forall s, f (with_account g s) = f s) -> frames (write g).
Proof. intros Hg s c s' H. apply modify_ok in H as ->. apply Hg. Qed.
Lemma frames_uuid7 : (forall s, f (with_wallet (drop_id (wallet s)) s) = f s) -> frames uuid7.
Proof. intros Hf s i s' H. injection H as <- <-. apply Hf. Qed.
Lemma frames_utc_now : (forall s, f (with_wallet (tick (wallet s)) s) = f s) -> frames utc_now.
Proof. intros Hf s i s' H. injection H as <- <-. apply Hf. Qed.
Lemma frames_own_tenant t : frames (on_wallet (own_tenant t)).
Proof.
  intros s u s' H. unfold on_wallet, own_tenant, bind, gets in H. destruct (t =? rls (wallet s)); [|done].
  injection H as <- <-. by rewrite with_wallet_same.
Qed.
Lemma frames_enqueue job payload :
  (forall s o, f (with_wallet (with_outbox o (drop_id (wallet s))) s) = f s) -> frames (enqueue job payload).
Proof. intros Hf s u s' H. injection H as <- <-. apply Hf. Qed.
Lemma frames_enqueue_once job payload key :
  (forall s o, f (with_wallet (with_outbox o (drop_id (wallet s))) s) = f s) -> frames (enqueue_once job payload key).
Proof.
  intros Hf s u s' H. unfold enqueue_once in H. apply bind_ok in H as (i & s1 & E & H). injection E as <- <-.
  apply bind_ok in H as (t & s1 & E & H). apply gets_ok in E as [-> ->].
  apply bind_ok in H as (n & s1 & E & H). apply gets_ok in E as [-> ->].
  destruct (Outbox.enqueue_outbox_once _ _ _ _ _ _) as [q t'].
  apply bind_ok in H as ([] & s1 & E & H). injection E as <-. apply ret_ok in H as [_ ->]. exact (Hf s t').
Qed.
End Frames.

Ltac frames := repeat first
  [ assumption | apply frames_ret | apply frames_raise | apply frames_gets | apply frames_lift
  | apply frames_own_tenant
  | apply frames_write; intros ?; reflexivity | apply frames_uuid7; intros ?; reflexivity
  | apply frames_utc_now; intros ?; reflexivity
  | apply frames_enqueue; intros ? ?; reflexivity | apply frames_enqueue_once; intros ? ?; reflexivity
  | apply frames_bind; [|intros ?]
  | match goal with |- frames _ (match ?x with _ => _ end) => destruct x end ].

End Account.
