(* ===== verification/Caps.v ===== *)
(** * Spend caps

    apps/api/billing/caps.py, plans.py and terms.py, the meter's upsert of
    apps/workers/pipeline.py, the gate of compliance/service.py and the counting-period
    boundary of billing/trials.py.  Two ceilings, the plan's and the client's own, bound
    what an account may use in a month, and the stricter binds; the month's counters live
    in one row of [spend_state], whose flag [capped] is all the gate reads.  The flag is
    derived by whoever writes: the meter after a call, the client's stop button, the
    operator's terms, the operator's recompute, and the start of a counting period.  Each
    runs under the tenant's advisory lock, so a writer is one [tx]. *)

From Stdlib Require Import ZArith Lia List QArith Lqa.
From stdpp Require Import base list strings.
From S2P Require Import Prelude PyDecimal Sql PyTime WalletDb Payments Account.

Local Open Scope string_scope.
Local Open Scope list_scope.
Local Open Scope Z_scope.
Local Open Scope tx_scope.

Import Payments Account.

Module Caps.

(** ** The plan in effect *)

(** [ORDER BY COALESCE(effective_from, '-infinity') DESC, created_at DESC, id DESC]. *)
Definition start_key (p : plan) : option instant := effective_from p.
Definition start_lt (a b : option instant) : bool :=
  match a, b with
  | Some x, Some y => x <? y
  | None, Some _ => true
  | _, None => false
  end.
Definition newest_first (x y : plan) : bool :=
  start_lt (start_key y) (start_key x)
  || negb (start_lt (start_key x) (start_key y)) && le_at_id pl_created_at pl_id y x.

Definition in_window (at_ : instant) (p : plan) : bool :=
  match effective_from p with None => true | Some t => t <=? at_ end
  && match effective_to p with None => true | Some t => at_ <? t end.

(** [plan_in_effect_sql]. *)
Definition plan_in_effect (r tenant_id : uuid) (at_ : instant) (t : list plan) : option plan :=
  head (order_by newest_first (select (fun p => mine pl_tenant r tenant_id p && in_window at_ p) t)).

(** ** Ceilings *)

(** [LEAST(a, b)]: a NULL is no constraint. *)
Definition least (a b : option Q) : option Q :=
  match a, b with
  | Some x, Some y => Some (dmin x y)
  | Some x, None | None, Some x => Some x
  | None, None => None
  end.
Definition effective_cap : option Q -> option Q -> option Q := least.
Definition minutes_cap (n : option Z) : option Q := option_map inject_Z n.

Definition plan_caps (p : option plan) : option Q * option Q :=
  match p with
  | None => (None, None)
  | Some p => (least (minutes_cap (hard_cap_min p)) (minutes_cap (client_cap_min p)),
               least (hard_cap_spend p) (client_cap_spend p))
  end.

(** [over_cap_sql]: either ceiling, once reached. *)
Definition reached (used : Q) (ceiling : option Q) : bool :=
  match ceiling with Some c => dle c used | None => false end.
Definition over_cap (minutes spend : Q) (caps : option Q * option Q) : bool :=
  reached minutes (fst caps) || reached spend (snd caps).

(** ** Columns *)
Definition numeric_14_4 (q : Q) : result Q :=
  let r := quantize MONEY_SCALE ROUND_HALF_UP q in
  if dlt r (inject_Z (10 ^ 10)) && dlt (- inject_Z (10 ^ 10)) r then Ok r else Err NumericOverflow.
Definition column {X Y} (f : X -> result Y) (x : option X) : result (option Y) :=
  match x with None => Ok None | Some x => match f x with Ok y => Ok (Some y) | Err e => Err e end end.
Definition int4 (n : Z) : result Z := if (- 2 ^ 31 <=? n) && (n <? 2 ^ 31) then Ok n else Err NumericOverflow.

Definition row_of (r tenant_id : uuid) (t : list spend_row) : option spend_row :=
  head (select (mine ss_tenant r tenant_id) t).

(** [current_billing_month]. *)
Definition current_billing_month : tx platform string := t ← utc_now ; ret (ist_billing_month t).

Definition session_tenant : tx platform uuid := gets (fun s => rls (wallet s)).

(** The [caps] CTE, at the transaction's [now()]. *)
Definition caps_now (tenant_id : uuid) : tx platform (option Q * option Q) :=
  r ← session_tenant ;
  n ← txn_now ;
  read (fun a => plan_caps (plan_in_effect r tenant_id n (plans a))).

(** ** Re-deriving the flag *)

Definition set_capped (b : bool) (x : spend_row) : spend_row :=
  SpendState (ss_tenant x) (month x) (minutes_used x) (spend_used x) (billed_inr x) b.

(** [_ARM_ZERO_CEILING]: an INSERT that rolls a closed month's row. *)
Definition arm_zero_ceiling (tenant_id : uuid) (m : string) : tx platform (option bool) :=
  r ← session_tenant ;
  caps ← caps_now tenant_id ;
  t ← read spend_state ;
  if negb (over_cap 0 0 caps) then ret None
  else
    let fresh := SpendState tenant_id m 0 0 0 true in
    if negb (tenant_id =? r) then raise (CheckViolation "row_level_security")
    else match row_of r tenant_id t with
         | None => write (with_spend (t ++ [fresh])) ;; ret (Some true)
         | Some x =>
             if String.ltb (month x) m
             then write (with_spend (update (mine ss_tenant r tenant_id) (fun _ => fresh) t)) ;; ret (Some true)
             else ret None
         end.

Definition recompute_capped (tenant_id : uuid) : tx platform (option bool) :=
  r ← session_tenant ;
  m ← current_billing_month ;
  caps ← caps_now tenant_id ;
  t ← read spend_state ;
  let p x := mine ss_tenant r tenant_id x && String.eqb (month x) m in
  let judge x := over_cap (minutes_used x) (billed_inr x) caps in
  match select p t with
  | x :: _ => write (with_spend (update p (fun x => set_capped (judge x) x) t)) ;; ret (Some (judge x))
  | [] => arm_zero_ceiling tenant_id m
  end.

(** ** The client's own caps *)

Record CapView := Caps {
  admin_min : option Z; admin_spend : option Q; client_min : option Z; client_spend : option Q }.
Definition effective_cap_min (v : CapView) : option Q :=
  effective_cap (minutes_cap (admin_min v)) (minutes_cap (client_min v)).
Definition effective_cap_spend (v : CapView) : option Q := effective_cap (admin_spend v) (client_spend v).

Definition cap_view (p : option plan) : CapView :=
  match p with
  | None => Caps None None None None
  | Some p => Caps (hard_cap_min p) (hard_cap_spend p) (client_cap_min p) (client_cap_spend p)
  end.

Definition read_caps (tenant_id : uuid) : tx platform CapView :=
  r ← session_tenant ;
  n ← txn_now ;
  read (fun a => cap_view (plan_in_effect r tenant_id n (plans a))).

Definition refuse_looser (admin client : option Q) : tx platform unit :=
  match admin, client with
  | Some a, Some c => if dlt a c then raise (Problem BusinessRule "client_cap_exceeds_plan_cap") else ret tt
  | _, _ => ret tt
  end.

Record CapWriteResult := CapWrite { caps : CapView; capped_now : bool }.

(** [_INSERT_CLIENT_CAP_PLAN]: a plan that carries the client's own caps only, without a window. *)
Definition cap_plan (i tenant_id : uuid) (cap_min : option Z) (cap_spend : option Q) (n : instant) : plan :=
  Plan i tenant_id None None None None None None None None None cap_min cap_spend 10 None None n.
Definition set_client_caps (cap_min : option Z) (cap_spend : option Q) (p : plan) : plan :=
  Plan (pl_id p) (pl_tenant p) (setup_fee p) (monthly_fee p) (included_min p) (overage_rate p) (overage_rate_second p)
    (overage_rate_value p) (llm_model_surcharge p) (hard_cap_min p) (hard_cap_spend p) cap_min cap_spend
    (concurrency_ceiling p) (effective_from p) (effective_to p) (pl_created_at p).

Definition apply_client_caps (tenant_id : uuid) (cap_min : option Z) (cap_spend : option Q) :
    tx platform CapWriteResult :=
  view ← read_caps tenant_id ;
  refuse_looser (minutes_cap (admin_min view)) (minutes_cap cap_min) ;;
  refuse_looser (admin_spend view) cap_spend ;;
  r ← session_tenant ;
  n ← txn_now ;
  t ← read plans ;
  cmin ← lift (column int4 cap_min) ;
  cspend ← lift (column numeric_12_4 cap_spend) ;
  match plan_in_effect r tenant_id n t with
  | None =>
      i ← uuid7 ;
      on_wallet (own_tenant tenant_id) ;;
      write (with_plans (t ++ [cap_plan i tenant_id cmin cspend n]))
  | Some p => write (with_plans (update (by_id pl_id (pl_id p)) (set_client_caps cmin cspend) t))
  end ;;
  now_capped ← recompute_capped tenant_id ;
  after ← read_caps tenant_id ;
  ret (CapWrite after (match now_capped with Some b => b | None => false end)).

(** ** The month's counters *)

Record SpendCounters := Counters { sc_minutes : Q; sc_spend : Q; sc_capped : bool; sc_billed : Q }.
Definition NO_SPEND_THIS_MONTH : SpendCounters := Counters 0 0 false 0.

Definition read_spend_counters (tenant_id : uuid) (m : option string) : tx platform SpendCounters :=
  r ← session_tenant ;
  t ← read spend_state ;
  match row_of r tenant_id t with
  | None => ret NO_SPEND_THIS_MONTH
  | Some x =>
      this ← match m with
             | Some m => if String.eqb m "" then current_billing_month else ret m
             | None => current_billing_month
             end ;
      ret (if String.eqb (month x) this then Counters (minutes_used x) (spend_used x) (capped x) (billed_inr x)
           else NO_SPEND_THIS_MONTH)
  end.

(** [spend_capped] of compliance/service.py: all the outbound gate reads. *)
Definition spend_capped (tenant_id : uuid) : tx platform bool :=
  r ← session_tenant ;
  t ← read spend_state ;
  match row_of r tenant_id t with
  | None => ret false
  | Some x => if capped x then m ← current_billing_month ; ret (String.eqb (month x) m) else ret false
  end.

(** ** The meter *)

(** [_accumulate]: a call of the month being counted adds to it, one of a later month
    starts it afresh, one of a closed month counts for nothing. *)
Definition accumulate (stored called : string) (mine added : Q) : Q :=
  if String.eqb stored called then (mine + added)%Q else if String.ltb stored called then added else mine.
Definition greatest (a b : string) : string := if String.ltb a b then b else a.

(** [_SPEND_STATE_UPSERT]: the row afterwards, and the ceilings it was judged by. *)
Definition spend_state_upsert (tenant_id : uuid) (m : string) (minutes spend billed : Q) :
    tx platform (spend_row * (option Q * option Q)) :=
  r ← session_tenant ;
  caps ← caps_now tenant_id ;
  t ← read spend_state ;
  min_in ← lift (numeric_14_4 minutes) ;
  spend_in ← lift (numeric_12_4 spend) ;
  billed_in ← lift (numeric_12_4 billed) ;
  if negb (tenant_id =? r) then raise (CheckViolation "row_level_security")
  else match row_of r tenant_id t with
       | None =>
           let x := SpendState tenant_id m min_in spend_in billed_in (over_cap minutes billed caps) in
           write (with_spend (t ++ [x])) ;; ret (x, caps)
       | Some x =>
           let acc f added := accumulate (month x) m (f x) added in
           min_out ← lift (numeric_14_4 (acc minutes_used min_in)) ;
           spend_out ← lift (numeric_12_4 (acc spend_used spend_in)) ;
           billed_out ← lift (numeric_12_4 (acc billed_inr billed_in)) ;
           let y := SpendState tenant_id (greatest (month x) m) min_out spend_out billed_out
                      (over_cap (acc minutes_used min_in) (acc billed_inr billed_in) caps) in
           write (with_spend (update (mine ss_tenant r tenant_id) (fun _ => y) t)) ;; ret (y, caps)
       end.

(** [cap_fullness] and [announce_cap_headroom]: the fullest ceiling's share, and the alert
    the write that crosses a line raises. *)
Definition CAP_WARN_AT : Q := 8 # 10.
Definition fraction (used : Q) (ceiling : option Q) : list Q :=
  match ceiling with None => [] | Some c => [if dle c 0 then 1%Q else ddiv used c] end.
Definition cap_fullness (minutes billed : Q) (caps : option Q * option Q) : option Q :=
  match fraction minutes (fst caps) ++ fraction billed (snd caps) with
  | [] => None
  | x :: xs => Some (foldl dmax x xs)
  end.
Definition announce_cap_headroom (before after : option Q) : list string :=
  match after with
  | None => []
  | Some a =>
      let opened := match before with Some b => b | None => 0%Q end in
      if dlt opened 1 && dle 1 a then ["tenant_spend_capped"]
      else if dlt opened CAP_WARN_AT && dle CAP_WARN_AT a then ["tenant_spend_cap_approaching"] else []
  end.

(** The counters a finished call moves (pipeline.py): the minutes and the rupees it adds,
    nothing of the rupees when a free trial covered it, and the alerts. *)
Definition meter_counters (tenant_id : uuid) (m : string) (minutes billed_ spend : Q) (on_us : bool) :
    tx platform (list string) :=
  let billed := if on_us then 0%Q else billed_ in
  '(x, caps) ← spend_state_upsert tenant_id m minutes spend billed ;
  let counted := String.eqb (month x) m in
  ret (announce_cap_headroom
         (cap_fullness (dsub (minutes_used x) (if counted then minutes else 0%Q))
                       (dsub (billed_inr x) (if counted then billed else 0%Q)) caps)
         (cap_fullness (minutes_used x) (billed_inr x) caps)).

(** ** The start of a counting period *)

Definition zeroed (x : spend_row) : spend_row := SpendState (ss_tenant x) (month x) 0 0 0 false.
Definition reset_client_counters (tenant_id : uuid) : tx platform unit :=
  r ← session_tenant ;
  write (fun a => with_spend (update (mine ss_tenant r tenant_id) zeroed (spend_state a)) a) ;;
  recompute_capped tenant_id ;; ret tt.

(** ** Commercial terms *)

(** What an operator agrees; [None] is unset, not zero. *)
Record CommercialTerms := Terms {
  tm_setup_fee : option Q; tm_monthly_fee : option Q; tm_included_min : option Z;
  tm_overage_rate : option Q; tm_overage_rate_second : option Q; tm_llm_model_surcharge : option Q;
  tm_hard_cap_min : option Z; tm_hard_cap_spend : option Q; tm_concurrency_ceiling : Z;
  tm_effective_from : option instant; tm_effective_to : option instant }.

(** [_record]: the terms a row states; the second rate falls back on the column it replaces. *)
Definition terms_of (p : plan) : CommercialTerms :=
  Terms (setup_fee p) (monthly_fee p) (included_min p) (overage_rate p)
    (match overage_rate_second p with Some q => Some q | None => overage_rate_value p end)
    (llm_model_surcharge p) (hard_cap_min p) (hard_cap_spend p) (concurrency_ceiling p)
    (effective_from p) (effective_to p).

Definition set_ {X} (x : option X) : bool := match x with Some _ => true | None => false end.
(** [PlanRecord.states_pricing]. *)
Definition states_pricing (t : CommercialTerms) : bool :=
  set_ (tm_setup_fee t) || set_ (tm_monthly_fee t) || set_ (tm_included_min t) || set_ (tm_overage_rate t)
  || set_ (tm_overage_rate_second t) || set_ (tm_llm_model_surcharge t).

Inductive terms_state := TermsNone | Unpriced | Lapsed | TermsSet.
Definition read_terms (tenant_id : uuid) : tx platform (terms_state * option plan * list plan) :=
  r ← session_tenant ;
  n ← txn_now ;
  t ← read plans ;
  let history := order_by newest_first (select (mine pl_tenant r tenant_id) t) in
  let current := plan_in_effect r tenant_id n t in
  ret (match history, current with
       | [], _ => TermsNone
       | _, None => Lapsed
       | _, Some p => if states_pricing (terms_of p) then TermsSet else Unpriced
       end, current, history).

(** [loosened_ceilings]: the admin ceilings a write would raise or remove. *)
Definition loosened (old new : option Q) : bool :=
  match old, new with
  | None, _ => false
  | Some _, None => true
  | Some o, Some n => dlt o n
  end.
Definition loosened_ceilings (current : option plan) (t : CommercialTerms) : list string :=
  match current with
  | None => []
  | Some p =>
      (if loosened (minutes_cap (hard_cap_min p)) (minutes_cap (tm_hard_cap_min t)) then ["hard_cap_min"] else [])
      ++ (if loosened (hard_cap_spend p) (tm_hard_cap_spend t) then ["hard_cap_spend"] else [])
  end.

(** [_same_terms]: the dataclass's equality, decimals by value. *)
Definition same_opt {X} (eq : X -> X -> bool) (a b : option X) : bool :=
  match a, b with Some x, Some y => eq x y | None, None => true | _, _ => false end.
Definition same_terms (a b : CommercialTerms) : bool :=
  same_opt deq (tm_setup_fee a) (tm_setup_fee b) && same_opt deq (tm_monthly_fee a) (tm_monthly_fee b)
  && same_opt Z.eqb (tm_included_min a) (tm_included_min b) && same_opt deq (tm_overage_rate a) (tm_overage_rate b)
  && same_opt deq (tm_overage_rate_second a) (tm_overage_rate_second b)
  && same_opt deq (tm_llm_model_surcharge a) (tm_llm_model_surcharge b)
  && same_opt Z.eqb (tm_hard_cap_min a) (tm_hard_cap_min b) && same_opt deq (tm_hard_cap_spend a) (tm_hard_cap_spend b)
  && (tm_concurrency_ceiling a =? tm_concurrency_ceiling b)
  && same_opt Z.eqb (tm_effective_from a) (tm_effective_from b) && same_opt Z.eqb (tm_effective_to a) (tm_effective_to b).

(** [_INSERT]: the operator's second rate goes into both its columns. *)
Definition terms_row (i tenant_id : uuid) (t : CommercialTerms) (n : instant) : result plan :=
  match column numeric_12_4 (tm_setup_fee t), column numeric_12_4 (tm_monthly_fee t), column int4 (tm_included_min t),
        column numeric_12_4 (tm_overage_rate t), column numeric_12_4 (tm_overage_rate_second t),
        column numeric_12_4 (tm_llm_model_surcharge t), column int4 (tm_hard_cap_min t),
        column numeric_12_4 (tm_hard_cap_spend t), int4 (tm_concurrency_ceiling t) with
  | Ok a, Ok b, Ok c, Ok d, Ok e, Ok f, Ok g, Ok h, Ok k =>
      Ok (Plan i tenant_id a b c d e e f g h None None k (tm_effective_from t) (tm_effective_to t) n)
  | _, _, _, _, _, _, _, _, _ => Err NumericOverflow
  end.

Record TermsWriteResult := TermsWrite {
  tw_plan : uuid; tw_changed : bool; tw_superseded : option plan; tw_capped_now : bool }.

(** The rest of [record_terms]: the new row, and the flag it moves. *)
Definition record_new (tenant_id : uuid) (t : CommercialTerms) (superseded : option plan) : tx platform TermsWriteResult :=
  i ← uuid7 ;
  c ← utc_now ;
  on_wallet (own_tenant tenant_id) ;;
  row ← lift (terms_row i tenant_id t c) ;
  write (fun a => with_plans (plans a ++ [row]) a) ;;
  now_capped ← recompute_capped tenant_id ;
  ret (TermsWrite i true superseded (match now_capped with Some b => b | None => false end)).

Definition record_terms (tenant_id : uuid) (t : CommercialTerms) : tx platform TermsWriteResult :=
  r ← session_tenant ;
  n ← txn_now ;
  all ← read plans ;
  let at_ := match tm_effective_from t with Some a => a | None => n end in
  let superseded := plan_in_effect r tenant_id at_ all in
  match superseded with
  | Some p =>
      if same_terms (terms_of p) t then ret (TermsWrite (pl_id p) false None false)
      else record_new tenant_id t superseded
  | None => record_new tenant_id t superseded
  end.

(** ** The writers of the flag *)

Inductive cap_writer :=
| MeterCall (m : string) (minutes billed spend : Q) (on_us : bool)
| ClientStop (cap_min : option Z) (cap_spend : option Q)
| OperatorTerms (t : CommercialTerms)
| OperatorRecompute
| PeriodStart.

Definition write_cap (tenant_id : uuid) (w : cap_writer) : tx platform unit :=
  match w with
  | MeterCall m minutes billed spend on_us => meter_counters tenant_id m minutes billed spend on_us ;; ret tt
  | ClientStop cap_min cap_spend => apply_client_caps tenant_id cap_min cap_spend ;; ret tt
  | OperatorTerms t => record_terms tenant_id t ;; ret tt
  | OperatorRecompute => recompute_capped tenant_id ;; ret tt
  | PeriodStart => reset_client_counters tenant_id
  end.

(** ** Rows of one tenant *)
Section Rows.
Context (r : uuid).
Implicit Types (t : list spend_row) (x : spend_row).

Lemma mine_tenant x : mine ss_tenant r r x = true <-> ss_tenant x = r.
Proof. unfold mine. rewrite andb_diag. apply Z.eqb_eq. Qed.

Lemma row_of_cases t :
  pk_ok ss_tenant t ->
  (row_of r r t = None /\ forall x, In x t -> ss_tenant x <> r)
  \/ exists x, row_of r r t = Some x /\ In x t /\ ss_tenant x = r /\ select (mine ss_tenant r r) t = [x].
Proof.
  intros Hpk. destruct (select_by_id ss_tenant t r (mine ss_tenant r r) Hpk) as [E|(x & E & Hin & Hx)].
  - intros x. apply mine_tenant.
  - left. unfold row_of. rewrite E. split; [done|]. intros x Hx Et. apply mine_tenant in Et.
    pose proof (proj2 (select_In _ _ _) (conj Hx Et)) as H. rewrite E in H. done.
  - right. exists x. unfold row_of. rewrite E. split; [done|]. split; [done|]. split; [by apply mine_tenant|done].
Qed.

Lemma row_of_update t f :
  (forall x, mine ss_tenant r r x = true -> ss_tenant (f x) = r) ->
  row_of r r (update (mine ss_tenant r r) f t) = option_map f (row_of r r t).
Proof.
  intros Hf. unfold row_of, select, update. induction t as [|x t IH]; [done|]. simpl.
  destruct (mine ss_tenant r r x) eqn:E; simpl.
  - assert (E' : mine ss_tenant r r (f x) = true) by (apply mine_tenant; by apply Hf).
    by rewrite E'.
  - rewrite E. exact IH.
Qed.

Lemma row_of_snoc t x : row_of r r t = None -> ss_tenant x = r -> row_of r r (t ++ [x]) = Some x.
Proof.
  intros H Hx. unfold row_of, select in *. rewrite List.filter_app. simpl.
  assert (E : mine ss_tenant r r x = true) by by apply mine_tenant. rewrite E.
  destruct (List.filter (mine ss_tenant r r) t); [done|discriminate H].
Qed.

Lemma update_mine_pk t f :
  (forall x, mine ss_tenant r r x = true -> ss_tenant (f x) = r) -> pk_ok ss_tenant t ->
  pk_ok ss_tenant (update (mine ss_tenant r r) f t).
Proof.
  intros Hf. unfold pk_ok, update. rewrite map_map.
  assert (E : map (fun x => ss_tenant (if mine ss_tenant r r x then f x else x)) t = map ss_tenant t).
  { apply map_ext. intros x. destruct (mine ss_tenant r r x) eqn:E; [|done].
    rewrite Hf by done. symmetry. by apply mine_tenant. }
  by rewrite E.
Qed.

Lemma snoc_pk t x : row_of r r t = None -> pk_ok ss_tenant t -> ss_tenant x = r -> pk_ok ss_tenant (t ++ [x]).
Proof.
  intros H Hpk Hx. apply insert_pk_ok; [|done]. intros Hin. rewrite Hx in Hin. apply in_map_iff in Hin as (y & Hy & Hin).
  destruct (row_of_cases t Hpk) as [[_ Hno]|(z & Hz & _)]; [|congruence]. by eapply Hno.
Qed.
End Rows.

(** ** What the recompute leaves *)

Definition caps_of (s : platform) : option Q * option Q :=
  plan_caps (plan_in_effect (rls (wallet s)) (rls (wallet s)) (now (wallet s)) (plans (Payments.account s))).

(** The flag the month's counters call for. *)
Definition due (m : string) (caps : option Q * option Q) (x : spend_row) : bool :=
  String.eqb (month x) m && over_cap (minutes_used x) (billed_inr x) caps.
Definition flag_of (m : string) (x : spend_row) : bool := capped x && String.eqb (month x) m.

(** The row afterwards: judged if it is the month's, started at zero by a ceiling zero
    already reaches, else as it was. *)
Definition rejudged (m : string) (caps : option Q * option Q) (r : uuid) (x : option spend_row) : option spend_row :=
  match x with
  | Some x => if String.eqb (month x) m then Some (set_capped (over_cap (minutes_used x) (billed_inr x) caps) x)
              else if over_cap 0 0 caps && String.ltb (month x) m then Some (SpendState r m 0 0 0 true) else Some x
  | None => if over_cap 0 0 caps then Some (SpendState r m 0 0 0 true) else None
  end.

(** Only this tenant's row of [spend_state] moved, and the keys stay unique. *)
Record own_row_only (r : uuid) (t t' : list spend_row) : Prop := OwnRow {
  or_pk : pk_ok ss_tenant t';
  or_others : forall x, ss_tenant x <> r -> In x t' <-> In x t
}.

Lemma own_update r t f :
  (forall x, mine ss_tenant r r x = true -> ss_tenant (f x) = r) -> pk_ok ss_tenant t ->
  own_row_only r t (update (mine ss_tenant r r) f t).
Proof.
  intros Hf Hpk. split; [by apply update_mine_pk|]. intros x Hx. rewrite update_In. split.
  - intros (y & Hy & ->). destruct (mine ss_tenant r r y) eqn:E; [by rewrite (Hf y E) in Hx|done].
  - intros Hin. exists x. split; [done|]. destruct (mine ss_tenant r r x) eqn:E; [|done]. by apply mine_tenant in E.
Qed.

Lemma own_snoc r t x : row_of r r t = None -> pk_ok ss_tenant t -> ss_tenant x = r -> own_row_only r t (t ++ [x]).
Proof.
  intros H Hpk Hx. split; [by apply (snoc_pk r)|]. intros y Hy. rewrite in_app_iff. simpl. split; [|by left].
  intros [?|[E|[]]]; [done|]. by subst y.
Qed.

Lemma own_refl r t : pk_ok ss_tenant t -> own_row_only r t t.
Proof. by split. Qed.

Lemma own_trans r t1 t2 t3 : own_row_only r t1 t2 -> own_row_only r t2 t3 -> own_row_only r t1 t3.
Proof. intros [P1 O1] [P2 O2]. split; [done|]. intros x Hx. by rewrite O2, O1. Qed.

(** The month's row is among the tenant's rows, which are one at most. *)
Lemma select_month r t m :
  pk_ok ss_tenant t ->
  select (fun x => mine ss_tenant r r x && String.eqb (month x) m) t
  = match row_of r r t with Some x => if String.eqb (month x) m then [x] else [] | None => [] end.
Proof.
  intros Hpk. unfold select. transitivity (List.filter (fun x => String.eqb (month x) m) (select (mine ss_tenant r r) t)).
  - unfold select. clear Hpk. induction t as [|x t IH]; [done|]. simpl. destruct (mine ss_tenant r r x); simpl; by rewrite IH.
  - destruct (row_of_cases r t Hpk) as [[E H]|(x & E & _ & _ & Es)]; rewrite E.
    + unfold row_of in E. by destruct (select _ t).
    + rewrite Es. simpl. by destruct (String.eqb _ _).
Qed.

Lemma update_month r t m f :
  (forall x, ss_tenant (f x) = ss_tenant x) -> pk_ok ss_tenant t ->
  match row_of r r t with Some x => String.eqb (month x) m = true | None => True end ->
  update (fun x => mine ss_tenant r r x && String.eqb (month x) m) f t = update (mine ss_tenant r r) f t.
Proof.
  intros Hf Hpk H. unfold update. apply map_ext_in. intros x Hx. destruct (mine ss_tenant r r x) eqn:E; [|done]. simpl.
  apply mine_tenant in E. destruct (row_of_cases r t Hpk) as [[_ Hno]|(y & Ey & Hy & Hyt & _)].
  - by destruct (Hno x Hx).
  - rewrite Ey in H. assert (x = y) as -> by (eapply (pk_unique ss_tenant); eauto; congruence). by rewrite H.
Qed.

Lemma with_spend_same s : with_account (with_spend (spend_state (Payments.account s))) s = s.
Proof. by destruct s as [? ? ? ? ? ? []]. Qed.

Lemma arm_spec s m b s' :
  let r := rls (wallet s) in let t := spend_state (Payments.account s) in
  pk_ok ss_tenant t -> match row_of r r t with Some x => String.eqb (month x) m = false | None => True end ->
  arm_zero_ceiling r m s = Ok (b, s') ->
  exists t', s' = with_account (with_spend t') s /\ own_row_only r t t'
    /\ row_of r r t' = rejudged m (caps_of s) r (row_of r r t).
Proof.
  intros r t Hpk Hm H.
  change (arm_zero_ceiling r m s) with
    ((if negb (over_cap 0 0 (caps_of s)) then ret None else
      if negb (r =? r) then raise (CheckViolation "row_level_security")
      else match row_of r r t with
           | None => write (with_spend (t ++ [SpendState r m 0 0 0 true])) ;; ret (Some true)
           | Some x => if String.ltb (month x) m
                       then write (with_spend (update (mine ss_tenant r r) (fun _ => SpendState r m 0 0 0 true) t)) ;; ret (Some true)
                       else ret None
           end) s) in H.
  assert (Hsame : s' = s -> rejudged m (caps_of s) r (row_of r r t) = row_of r r t ->
    exists t', s' = with_account (with_spend t') s /\ own_row_only r t t'
      /\ row_of r r t' = rejudged m (caps_of s) r (row_of r r t)).
  { intros -> E. exists t. split; [symmetry; apply with_spend_same|]. split; [by apply own_refl|done]. }
  unfold rejudged in *. rewrite Z.eqb_refl in H. cbn [negb] in H.
  destruct (over_cap 0 0 (caps_of s)) eqn:Eo; cbn [negb] in H.
  - destruct (row_of r r t) as [x|] eqn:Er.
    + rewrite Hm in *. cbn [andb] in *. destruct (String.ltb (month x) m).
      * injection H as <- <-. eexists. split; [reflexivity|]. split; [by apply own_update|].
        rewrite row_of_update by done. by rewrite Er.
      * apply ret_ok in H as [-> ->]. by apply Hsame.
    + injection H as <- <-. eexists. split; [reflexivity|]. split; [by apply own_snoc|]. by apply row_of_snoc.
  - apply ret_ok in H as [-> ->]. apply Hsame; [done|]. destruct (row_of r r t) as [x|]; [by rewrite Hm|done].
Qed.

Lemma recompute_spec s b s' :
  pk_ok ss_tenant (spend_state (Payments.account s)) ->
  recompute_capped (rls (wallet s)) s = Ok (b, s') ->
  let m := ist_billing_month (ticks (wallet s) 0) in
  exists t', s' = with_account (with_spend t') (with_wallet (tick (wallet s)) s)
    /\ own_row_only (rls (wallet s)) (spend_state (Payments.account s)) t'
    /\ row_of (rls (wallet s)) (rls (wallet s)) t'
       = rejudged m (caps_of s) (rls (wallet s)) (row_of (rls (wallet s)) (rls (wallet s)) (spend_state (Payments.account s))).
Proof.
  intros Hpk H m. set (r := rls (wallet s)) in *. set (t := spend_state (Payments.account s)) in *.
  set (s1 := with_wallet (tick (wallet s)) s).
  change (recompute_capped r s) with
    (match select (fun x => mine ss_tenant r r x && String.eqb (month x) m) t with
     | x :: _ => write (with_spend (update (fun x => mine ss_tenant r r x && String.eqb (month x) m)
                     (fun x => set_capped (over_cap (minutes_used x) (billed_inr x) (caps_of s)) x) t)) ;;
                 ret (Some (over_cap (minutes_used x) (billed_inr x) (caps_of s)))
     | [] => arm_zero_ceiling r m
     end s1) in H.
  rewrite (select_month r t m Hpk) in H.
  assert (Hset : forall x, ss_tenant (set_capped (over_cap (minutes_used x) (billed_inr x) (caps_of s)) x) = ss_tenant x) by done.
  destruct (row_of r r t) as [x|] eqn:Er.
  - destruct (String.eqb (month x) m) eqn:Em.
    + injection H as <- <-. eexists. split; [reflexivity|].
      rewrite (update_month r t m _ Hset Hpk) by (rewrite Er; done).
      assert (Hown : forall y, mine ss_tenant r r y = true ->
        ss_tenant (set_capped (over_cap (minutes_used y) (billed_inr y) (caps_of s)) y) = r) by (intros y Hy; by apply mine_tenant in Hy).
      split; [by apply own_update|]. rewrite row_of_update by done. rewrite Er. simpl. by rewrite Em.
    + apply (arm_spec s1) in H as (t' & -> & Ho & Hr);
        [|done|change (match row_of r r t with Some x => String.eqb (month x) m = false | None => True end); by rewrite Er].
      exists t'. split; [done|]. split; [done|]. etransitivity; [exact Hr|]. change (rejudged m (caps_of s) r (row_of r r t) = rejudged m (caps_of s) r (Some x)). by rewrite Er.
  - apply (arm_spec s1) in H as (t' & -> & Ho & Hr);
        [|done|change (match row_of r r t with Some x => String.eqb (month x) m = false | None => True end); by rewrite Er].
    exists t'. split; [done|]. split; [done|]. etransitivity; [exact Hr|]. change (rejudged m (caps_of s) r (row_of r r t) = rejudged m (caps_of s) r None). by rewrite Er.
Qed.


(** ** The gate *)

Definition own_row (s : platform) : option spend_row :=
  row_of (rls (wallet s)) (rls (wallet s)) (spend_state (Payments.account s)).
(** What the month's counters call for, by the ceilings in force. *)
Definition must_stop (m : string) (s : platform) : bool :=
  match own_row s with Some x => due m (caps_of s) x | None => false end.
(** The flag of the row the gate reads is the one its counters call for. *)
Definition flag_due (m : string) (s : platform) : Prop :=
  match own_row s with Some x => String.eqb (month x) m = true -> capped x = over_cap (minutes_used x) (billed_inr x) (caps_of s)
                     | None => True end.

Lemma spend_capped_spec m s :
  flag_due m s -> ist_billing_month (ticks (wallet s) 0) = m ->
  exists s', spend_capped (rls (wallet s)) s = Ok (must_stop m s, s').
Proof.
  intros Hf Hm. unfold flag_due, must_stop, due in *.
  change (spend_capped (rls (wallet s)) s) with
    (match own_row s with
     | None => ret false
     | Some x => if capped x then m ← current_billing_month ; ret (String.eqb (month x) m) else ret false
     end s).
  destruct (own_row s) as [x|]; [|by eexists]. destruct (capped x) eqn:Ec.
  - eexists. change ((m0 ← current_billing_month ; ret (String.eqb (month x) m0)) s) with
      (Ok (String.eqb (month x) (ist_billing_month (ticks (wallet s) 0)), with_wallet (tick (wallet s)) s)).
    rewrite Hm. destruct (String.eqb (month x) m); [|done]. by rewrite <- Hf.
  - eexists. unfold ret. destruct (String.eqb (month x) m); [|done]. by rewrite <- Hf.
Qed.

(** ** The counters of a month *)
Definition counters (m : string) (x : option spend_row) : Q * Q * Q :=
  match x with
  | Some x => if String.eqb (month x) m then (minutes_used x, spend_used x, billed_inr x) else (0, 0, 0)%Q
  | None => (0, 0, 0)%Q
  end.

(** After a recompute: the flag is due, and a ceiling already reached at zero holds the
    month from its first call. *)
Definition judged (m : string) (s : platform) : Prop :=
  flag_due m s
  /\ (over_cap 0 0 (caps_of s) = true -> exists x, own_row s = Some x /\ String.ltb (month x) m = false).

Lemma ltb_irrefl a : String.ltb a a = false.
Proof. by rewrite ltb_leb, leb_refl. Qed.

Lemma rejudged_judged m s r x :
  own_row s = rejudged m (caps_of s) r x -> judged m s /\ counters m (own_row s) = counters m x.
Proof.
  unfold judged, flag_due. intros ->. unfold rejudged.
  destruct x as [x|].
  - destruct (String.eqb (month x) m) eqn:Em; simpl; rewrite ?Em.
    + split; [split; [done|]|done]. intros _. eexists. split; [reflexivity|]. simpl.
      apply String.eqb_eq in Em as ->. apply ltb_irrefl.
    + destruct (over_cap 0 0 (caps_of s)) eqn:Eo; simpl.
      * destruct (String.ltb (month x) m) eqn:El; simpl; rewrite ?String.eqb_refl, ?Em.
        -- split; [split; [done|]|done]. intros _. eexists. split; [reflexivity|apply ltb_irrefl].
        -- split; [split; [done|]|done]. intros _. by eexists.
      * rewrite ?Em. by split.
  - destruct (over_cap 0 0 (caps_of s)) eqn:Eo; simpl; rewrite ?String.eqb_refl; [|done].
    split; [split; [done|]|done]. intros _. eexists. split; [reflexivity|apply ltb_irrefl].
Qed.

Lemma recompute_judged s b s' m :
  pk_ok ss_tenant (spend_state (Payments.account s)) -> ist_billing_month (ticks (wallet s) 0) = m ->
  recompute_capped (rls (wallet s)) s = Ok (b, s') ->
  exists t', s' = with_account (with_spend t') (with_wallet (tick (wallet s)) s)
  /\ own_row_only (rls (wallet s)) (spend_state (Payments.account s)) t'
  /\ judged m s' /\ counters m (own_row s') = counters m (own_row s).
Proof.
  intros Hpk Hm H. destruct (recompute_spec s b s' Hpk H) as (t' & -> & Ho & Hr). rewrite Hm in Hr.
  exists t'. split; [done|]. split; [exact Ho|]. apply (rejudged_judged m _ (rls (wallet s))). exact Hr.
Qed.

(** ** The plan in effect after a write *)

Lemma insert_by_map {R} (le : R -> R -> bool) (g : R -> R) x t :
  (forall x y, le (g x) (g y) = le x y) -> insert_by le (g x) (map g t) = map g (insert_by le x t).
Proof. intros H. induction t as [|y t IH]; [done|]. simpl. rewrite H. destruct (le x y); simpl; by rewrite ?IH. Qed.

Lemma order_by_map {R} (le : R -> R -> bool) (g : R -> R) t :
  (forall x y, le (g x) (g y) = le x y) -> order_by le (map g t) = map g (order_by le t).
Proof. intros H. induction t as [|x t IH]; [done|]. simpl. by rewrite IH, insert_by_map. Qed.

Lemma select_map {R} (p : R -> bool) (g : R -> R) t :
  (forall x, p (g x) = p x) -> select p (map g t) = map g (select p t).
Proof.
  intros H. unfold select. induction t as [|x t IH]; [done|]. simpl. rewrite H. destruct (p x); simpl; by rewrite IH.
Qed.

(** Writing the client's caps moves no plan in or out of effect. *)
Lemma in_effect_set r at_ t p cmin cspend :
  plan_in_effect r r at_ t = Some p ->
  plan_in_effect r r at_ (update (by_id pl_id (pl_id p)) (set_client_caps cmin cspend) t) = Some (set_client_caps cmin cspend p).
Proof.
  intros H. unfold plan_in_effect, update in *.
  set (g := fun x => if by_id pl_id (pl_id p) x then set_client_caps cmin cspend x else x).
  rewrite (select_map _ g) by (intros x; unfold g; by destruct (by_id _ _ _)).
  rewrite order_by_map.
  - destruct (order_by newest_first _) as [|x l]; [done|]. injection H as ->. simpl. unfold g, by_id.
    by rewrite Z.eqb_refl.
  - intros x y. unfold g. by destruct (by_id _ _ x), (by_id _ _ y).
Qed.

Lemma in_effect_none {R} (le : R -> R -> bool) (p : R -> bool) t :
  head (order_by le (select p t)) = None -> select p t = [].
Proof.
  intros H. destruct (select p t) as [|x l] eqn:E; [done|]. exfalso.
  pose proof (order_by_perm le (x :: l)) as Hp. destruct (order_by le (x :: l)); [|done].
  apply Permutation_nil in Hp. discriminate.
Qed.

Lemma in_effect_mint r at_ t i cmin cspend :
  plan_in_effect r r at_ t = None ->
  plan_in_effect r r at_ (t ++ [cap_plan i r cmin cspend at_]) = Some (cap_plan i r cmin cspend at_).
Proof.
  intros H. apply in_effect_none in H. unfold plan_in_effect, select in *. rewrite List.filter_app, H. simpl.
  unfold mine, in_window, cap_plan. simpl. by rewrite Z.eqb_refl.
Qed.

(** ** Each writer *)

(** Only the tenant's counters, and plans, moved. *)
Record cap_step (s s' : platform) : Prop := CapStep {
  ct_quiet : undisturbed s s';
  ct_now : now (wallet s') = now (wallet s);
  ct_tables : exists t' ps, Payments.account s' = with_spend t' (with_plans ps (Payments.account s))
    /\ own_row_only (rls (wallet s)) (spend_state (Payments.account s)) t'
}.

Definition in_force (s : platform) : option plan :=
  plan_in_effect (rls (wallet s)) (rls (wallet s)) (now (wallet s)) (plans (Payments.account s)).

Lemma cap_step_recompute s1 b s2 m :
  pk_ok ss_tenant (spend_state (Payments.account s1)) -> ist_billing_month (ticks (wallet s1) 0) = m ->
  recompute_capped (rls (wallet s1)) s1 = Ok (b, s2) ->
  cap_step s1 s2 /\ in_force s2 = in_force s1 /\ ticks (wallet s2) = (fun n => ticks (wallet s1) (S n))
  /\ judged m s2 /\ counters m (own_row s2) = counters m (own_row s1).
Proof.
  intros Hpk Hm H. destruct (recompute_judged s1 b s2 m Hpk Hm H) as (t' & -> & Ho & Hj & Hc).
  split; [|done]. split; [|done|].
  - split; [apply aside_tick|]. by split; [constructor|].
  - exists t', (plans (Payments.account s1)). split; [|exact Ho]. by destruct s1 as [? ? ? ? ? ? []].
Qed.

(** A write of the plans and then the recompute. *)
Lemma cap_step_trans s s1 s2 ps :
  Payments.account s1 = with_plans ps (Payments.account s) -> undisturbed s s1 -> now (wallet s1) = now (wallet s) ->
  cap_step s1 s2 -> cap_step s s2.
Proof.
  intros Ha Hu Hn [Q N (t' & ps' & E & O)]. split; [by eapply undisturbed_trans|congruence|].
  exists t', ps'. rewrite E, Ha. split; [done|]. rewrite Ha in O. destruct Hu as [[Hr _ _ _ _ _] _]. by rewrite Hr in O.
Qed.

Lemma read_caps_ok s v s' :
  read_caps (rls (wallet s)) s = Ok (v, s') -> s' = s /\ v = cap_view (in_force s).
Proof. unfold read_caps, session_tenant, txn_now, read. intros H. tx_inv. done. Qed.

Lemma refuse_looser_ok a c s u s' :
  refuse_looser a c s = Ok (u, s') -> s' = s /\ forall x y, a = Some x -> c = Some y -> (y <= x)%Q.
Proof.
  unfold refuse_looser. intros H. destruct a as [x|], c as [y|]; try (apply ret_ok in H as [_ ->]; split; congruence).
  destruct (dlt_spec x y); [by apply raise_ok in H|]. apply ret_ok in H as [_ ->]. split; [done|].
  intros x' y' [= <-] [= <-]. lra.
Qed.

(** The client's write: refused when looser than the plan's, else in force at once. *)
Lemma client_stop_spec s cap_min cap_spend res s' m :
  pk_ok ss_tenant (spend_state (Payments.account s)) -> ist_billing_month (ticks (wallet s) 0) = m ->
  apply_client_caps (rls (wallet s)) cap_min cap_spend s = Ok (res, s') ->
  exists cspend, cap_step s s' /\ ticks (wallet s') = (fun n => ticks (wallet s) (S n))
    /\ judged m s' /\ counters m (own_row s') = counters m (own_row s)
    /\ column numeric_12_4 cap_spend = Ok cspend
    /\ cap_view (in_force s') = Caps (admin_min (cap_view (in_force s))) (admin_spend (cap_view (in_force s))) cap_min cspend
    /\ caps res = cap_view (in_force s')
    /\ (forall a c, admin_spend (cap_view (in_force s)) = Some a -> cap_spend = Some c -> c <= a)%Q
    /\ (forall a c, admin_min (cap_view (in_force s)) = Some a -> cap_min = Some c -> c <= a)%Z.
Proof.
  intros Hpk Hm H. unfold apply_client_caps in H.
  apply bind_ok in H as (view & s0 & E & H). apply read_caps_ok in E as [-> ->].
  apply bind_ok in H as ([] & s0 & E & H). apply refuse_looser_ok in E as [-> Lmin].
  apply bind_ok in H as ([] & s0 & E & H). apply refuse_looser_ok in E as [-> Lspend].
  apply bind_ok in H as (r & s0 & E & H). apply gets_ok in E as [-> ->].
  apply bind_ok in H as (n & s0 & E & H). apply gets_ok in E as [-> ->].
  apply bind_ok in H as (t & s0 & E & H). apply gets_ok in E as [-> ->].
  apply bind_ok in H as (cmin & s0 & E & H). apply lift_ok in E as [Emin ->].
  apply bind_ok in H as (cspend & s0 & E & H). apply lift_ok in E as [Espend ->].
  apply bind_ok in H as ([] & s1 & E & H).
  apply bind_ok in H as (nc & s2 & Erc & H).
  apply bind_ok in H as (after & s3 & Ea & H). apply ret_ok in H as [-> ->].
  assert (Hc : cmin = cap_min) by (unfold column, int4 in Emin; repeat case_in Emin; congruence). subst cmin.
  assert (H1 : exists ps, Payments.account s1 = with_plans ps (Payments.account s) /\ undisturbed s s1
    /\ now (wallet s1) = now (wallet s) /\ ticks (wallet s1) = ticks (wallet s) /\ rls (wallet s1) = rls (wallet s)
    /\ cap_view (in_force s1) = Caps (admin_min (cap_view (in_force s))) (admin_spend (cap_view (in_force s))) cap_min cspend).
  { fold (in_force s) in E. destruct (in_force s) as [p|] eqn:EP.
    - apply modify_ok in E as ->. eexists. split; [reflexivity|]. split; [apply undisturbed_account|].
      split; [done|]. split; [done|]. split; [done|].
      assert (Hf : in_force (with_account (with_plans (update (by_id pl_id (pl_id p)) (set_client_caps cap_min cspend)
        (plans (Payments.account s)))) s) = Some (set_client_caps cap_min cspend p)) by exact (in_effect_set _ _ _ p cap_min cspend EP).
      by rewrite Hf.
    - apply bind_ok in E as (i & sa & E1 & E). apply bind_ok in E as ([] & sb & E2 & E). apply modify_ok in E as ->.
      injection E1 as <- <-. assert (sb = with_wallet (drop_id (wallet s)) s) as ->.
      { unfold on_wallet, own_tenant in E2. simpl in E2. unfold bind, gets in E2. rewrite Z.eqb_refl in E2. by injection E2 as <-. }
      eexists. split; [reflexivity|]. split; [split; [apply aside_drop_id|by split; [constructor|]]|].
      split; [done|]. split; [done|]. split; [done|].
      assert (Hf : in_force (with_account (with_plans (plans (Payments.account s)
        ++ [cap_plan (ids (wallet s) 0%nat) (rls (wallet s)) cap_min cspend (now (wallet s))]))
        (with_wallet (drop_id (wallet s)) s)) = Some (cap_plan (ids (wallet s) 0%nat) (rls (wallet s)) cap_min cspend (now (wallet s))))
        by exact (in_effect_mint _ _ _ _ cap_min cspend EP).
      by rewrite Hf. }
  destruct H1 as (ps & A1 & A2 & A3 & A4 & A5 & A6).
  rewrite <- A5 in Erc. assert (Hpk1 : pk_ok ss_tenant (spend_state (Payments.account s1))) by by rewrite A1.
  destruct (cap_step_recompute s1 nc s2 m Hpk1) as (B1 & B2 & B3 & B4 & B5); [by rewrite A4|done|].
  assert (Hr2 : rls (wallet s2) = rls (wallet s)) by (destruct B1 as [[[Hr _ _ _ _ _] _] _ _]; congruence).
  rewrite <- Hr2 in Ea. apply read_caps_ok in Ea as [-> ->].
  exists cspend. split; [by eapply cap_step_trans|]. split; [by rewrite B3, A4|]. split; [done|]. split.
  { rewrite B5. unfold own_row. by rewrite A1, A5. }
  split; [done|]. split; [by rewrite B2|]. split; [done|]. split; [exact Lspend|].
  intros a c Ha Hc'. specialize (Lmin (inject_Z a) (inject_Z c)). rewrite Ha, Hc' in Lmin.
  rewrite Zle_Qle. by apply Lmin.
Qed.

(** New terms: written only when they say something new, and then judged at once. *)
Lemma terms_spec s t res s' m :
  pk_ok ss_tenant (spend_state (Payments.account s)) -> ist_billing_month (ticks (wallet s) 1) = m ->
  record_terms (rls (wallet s)) t s = Ok (res, s') ->
  (tw_changed res = false /\ s' = s)
  \/ (cap_step s s' /\ ticks (wallet s') = (fun n => ticks (wallet s) (S (S n)))
      /\ judged m s' /\ counters m (own_row s') = counters m (own_row s)).
Proof.
  intros Hpk Hm H. unfold record_terms in H.
  apply bind_ok in H as (r & s0 & E & H). apply gets_ok in E as [-> ->].
  apply bind_ok in H as (n & s0 & E & H). apply gets_ok in E as [-> ->].
  apply bind_ok in H as (all & s0 & E & H). apply gets_ok in E as [-> ->].
  cbv zeta in H. set (sup := plan_in_effect _ _ _ _) in H.
  assert (Hnew : record_new (rls (wallet s)) t sup s = Ok (res, s') ->
    cap_step s s' /\ ticks (wallet s') = (fun n => ticks (wallet s) (S (S n)))
    /\ judged m s' /\ counters m (own_row s') = counters m (own_row s)).
  { clear H. intros H. unfold record_new in H.
    apply bind_ok in H as (i & s1 & E & H). injection E as <- <-.
    apply bind_ok in H as (c & s1 & E & H). injection E as <- <-.
    apply bind_ok in H as ([] & s1 & E & H).
    assert (s1 = with_wallet (tick (drop_id (wallet s))) s) as ->.
    { unfold on_wallet, own_tenant in E. simpl in E. unfold bind, gets in E. rewrite Z.eqb_refl in E. by injection E as <-. }
    clear E. apply bind_ok in H as (row & s1 & E & H). apply lift_ok in E as [_ ->].
    apply bind_ok in H as ([] & s1 & E & H). apply modify_ok in E.
    apply bind_ok in H as (nc & s2 & Erc & H). apply ret_ok in H as [_ ->]. subst s1.
    set (s1 := with_account _ _) in Erc.
    destruct (cap_step_recompute s1 nc s2 m) as (B1 & B2 & B3 & B4 & B5); [exact Hpk|exact Hm|exact Erc|].
    split; [|by split]. eapply (cap_step_trans s s1); [reflexivity| |reflexivity|exact B1].
    split; [|by split; [constructor|]]. eapply aside_trans; [apply aside_drop_id|apply aside_tick]. }
  destruct sup as [p|] eqn:Es; [|by right; apply Hnew].
  destruct (same_terms (terms_of p) t); [|by right; apply Hnew]. apply ret_ok in H as [-> ->]. by left.
Qed.

(** A counting period starts with counters at zero. *)
Lemma period_start_spec s u s' m :
  pk_ok ss_tenant (spend_state (Payments.account s)) -> ist_billing_month (ticks (wallet s) 0) = m ->
  reset_client_counters (rls (wallet s)) s = Ok (u, s') ->
  cap_step s s' /\ ticks (wallet s') = (fun n => ticks (wallet s) (S n))
  /\ judged m s' /\ counters m (own_row s') = (0, 0, 0)%Q.
Proof.
  intros Hpk Hm H. unfold reset_client_counters in H.
  apply bind_ok in H as (r & s0 & E & H). apply gets_ok in E as [-> ->].
  apply bind_ok in H as ([] & s1 & E & H). apply modify_ok in E.
  apply bind_ok in H as (nc & s2 & Erc & H). apply ret_ok in H as [_ ->]. subst s1.
  set (r := rls (wallet s)) in *. set (s1 := with_account _ _) in Erc.
  assert (Hz : own_row_only r (spend_state (Payments.account s)) (update (mine ss_tenant r r) zeroed (spend_state (Payments.account s)))).
  { apply own_update; [|done]. intros x Hx. by apply mine_tenant in Hx. }
  destruct (cap_step_recompute s1 nc s2 m) as (B1 & B2 & B3 & B4 & B5); [apply Hz|exact Hm|exact Erc|].
  split.
  - destruct B1 as [Q N (t' & ps & E & O)]. split; [by eapply undisturbed_trans; [apply undisturbed_account|]|exact N|].
    exists t', ps. split; [exact E|]. eapply own_trans; [exact Hz|exact O].
  - split; [exact B3|]. split; [exact B4|]. rewrite B5. unfold own_row.
    change (spend_state (Payments.account s1)) with (update (mine ss_tenant r r) zeroed (spend_state (Payments.account s))).
    change (rls (wallet s1)) with r. rewrite row_of_update by (intros x Hx; by apply mine_tenant in Hx).
    destruct (row_of r r _) as [x|]; simpl; [by destruct (String.eqb _ _)|done].
Qed.

(** ** The meter *)

Lemma numeric_14_4_ok q x : numeric_14_4 q = Ok x -> is_money x /\ (is_money q -> (x == q)%Q).
Proof.
  unfold numeric_14_4. intros H. destruct (_ && _); [|done]. injection H as <-.
  split; [apply is_money_quantize|apply quantize_money].
Qed.

Record amounts_ok (x : spend_row) : Prop := AmountsOk {
  ao_minutes : is_money (minutes_used x); ao_spend : is_money (spend_used x); ao_billed : is_money (billed_inr x) }.

(** The month's counters, plus what a call of that month adds. *)
Definition added (m mc : string) (c : Q * Q * Q) (minutes spend billed : Q) (c' : Q * Q * Q) : Prop :=
  let '(a, b, d) := c in let '(a', b', d') := c' in
  if String.eqb m mc then (a' == a + minutes /\ b' == b + spend /\ d' == d + billed)%Q
  else (a' == a /\ b' == b /\ d' == d)%Q.

Lemma reached_proper c a b : (a == b)%Q -> reached a c = reached b c.
Proof.
  intros E. unfold reached. destruct c as [c|]; [|done]. destruct (dle_spec c a) as [H|H], (dle_spec c b) as [H'|H']; try done;
    exfalso; [apply H'|apply H]; [by rewrite <- E|by rewrite E].
Qed.

Lemma over_cap_proper c a b x y : (a == b)%Q -> (x == y)%Q -> over_cap a x c = over_cap b y c.
Proof. intros E F. unfold over_cap. by rewrite (reached_proper _ _ _ E), (reached_proper _ _ _ F). Qed.

Lemma accumulate_money stored called a b : is_money a -> is_money b -> is_money (accumulate stored called a b).
Proof. intros. unfold accumulate. destruct (String.eqb _ _); [by apply is_money_add|]. by destruct (String.ltb _ _). Qed.

(** One column, accumulated and stored. *)
Lemma accumulated stored called a b lim x :
  is_money a -> is_money b ->
  (forall q y, lim q = Ok y -> is_money y /\ (is_money q -> (y == q)%Q)) ->
  lim (accumulate stored called a b) = Ok x ->
  is_money x /\ (x == if String.eqb stored called then a + b else if String.ltb stored called then b else a)%Q.
Proof.
  intros Ha Hb Hlim H. apply Hlim in H as [H1 H2]. split; [done|]. apply H2. by apply accumulate_money.
Qed.

Lemma numeric_12_4_stored q y : numeric_12_4 q = Ok y -> is_money y /\ (is_money q -> (y == q)%Q).
Proof. intros H. apply numeric_12_4_ok in H as (H1 & _ & _ & H2). by split. Qed.

(** The upsert, on its columns. *)
Record metered (s : platform) (mc : string) (minutes spend billed : Q) (s' : platform) (x' : spend_row) : Prop := Metered {
  mt_row : own_row s' = Some x';
  mt_amounts : amounts_ok x';
  mt_flag : capped x' = over_cap (minutes_used x') (billed_inr x') (caps_of s');
  mt_month : month x' = match own_row s with Some x => greatest (month x) mc | None => mc end;
  mt_added : added (month x') mc (counters (month x') (own_row s)) minutes spend billed (counters (month x') (Some x'))
}.

Lemma upsert_spec s mc minutes spend billed x' c s' :
  pk_ok ss_tenant (spend_state (Payments.account s)) -> (forall x, own_row s = Some x -> amounts_ok x) ->
  is_money minutes -> is_money spend -> is_money billed ->
  spend_state_upsert (rls (wallet s)) mc minutes spend billed s = Ok ((x', c), s') ->
  cap_step s s' /\ ticks (wallet s') = ticks (wallet s) /\ plans (Payments.account s') = plans (Payments.account s)
  /\ c = caps_of s' /\ metered s mc minutes spend billed s' x'.
Proof.
  intros Hpk Hrow Hm Hs Hb H. unfold spend_state_upsert in H.
  apply bind_ok in H as (r & s0 & E & H). apply gets_ok in E as [-> ->].
  apply bind_ok in H as (caps & s0 & E & H). assert (s0 = s /\ caps = caps_of s) as [-> ->].
  { unfold caps_now, session_tenant, txn_now, read in E. tx_inv. done. }
  clear E. apply bind_ok in H as (t & s0 & E & H). apply gets_ok in E as [-> ->].
  apply bind_ok in H as (mi & s0 & E & H). apply lift_ok in E as [Emi ->]. apply numeric_14_4_ok in Emi as [Mmi Emi].
  apply bind_ok in H as (si & s0 & E & H). apply lift_ok in E as [Esi ->]. apply numeric_12_4_stored in Esi as [Msi Esi].
  apply bind_ok in H as (bi & s0 & E & H). apply lift_ok in E as [Ebi ->]. apply numeric_12_4_stored in Ebi as [Mbi Ebi].
  specialize (Emi Hm). specialize (Esi Hs). specialize (Ebi Hb).
  rewrite Z.eqb_refl in H. cbn [negb] in H. fold (own_row s) in H.
  set (r := rls (wallet s)) in *. set (t := spend_state (Payments.account s)) in *.
  destruct (own_row s) as [x|] eqn:Er.
  - apply bind_ok in H as (mo & s0 & E & H). apply lift_ok in E as [Emo ->].
    apply bind_ok in H as (so & s0 & E & H). apply lift_ok in E as [Eso ->].
    apply bind_ok in H as (bo & s0 & E & H). apply lift_ok in E as [Ebo ->].
    injection H as <- <- <-. destruct (Hrow x eq_refl) as [A1 A2 A3].
    apply (accumulated _ _ _ _ numeric_14_4 _ A1 Mmi numeric_14_4_ok) in Emo as [Mmo Emo].
    apply (accumulated _ _ _ _ numeric_12_4 _ A2 Msi numeric_12_4_stored) in Eso as [Mso Eso].
    apply (accumulated _ _ _ _ numeric_12_4 _ A3 Mbi numeric_12_4_stored) in Ebo as [Mbo Ebo].
    set (x' := SpendState _ _ _ _ _ _).
    assert (Ho : own_row_only r t (update (mine ss_tenant r r) (fun _ => x') t)) by by apply own_update.
    split; [split; [apply undisturbed_account|done|]|].
    { exists (update (mine ss_tenant r r) (fun _ => x') t), (plans (Payments.account s)). split; [|exact Ho]. by destruct s as [? ? ? ? ? ? []]. }
    split; [done|]. split; [done|]. split; [done|]. split.
    + change (row_of r r (update (mine ss_tenant r r) (fun _ => x') t) = Some x'). rewrite row_of_update by done.
      change (row_of r r t) with (own_row s). by rewrite Er.
    + by split.
    + apply over_cap_proper; symmetry; [exact Emo|exact Ebo].
    + by rewrite Er.
    + rewrite Er. unfold added, counters, x', greatest. cbn [month minutes_used spend_used billed_inr].
      destruct (String.eqb (month x) mc) eqn:Em.
      * apply String.eqb_eq in Em as Em'. rewrite Em', ltb_irrefl, String.eqb_refl. lra.
      * destruct (String.ltb (month x) mc); rewrite ?String.eqb_refl, ?Em; lra.
  - injection H as <- <- <-. set (x' := SpendState _ _ _ _ _ _).
    assert (Ho : own_row_only r t (t ++ [x'])) by by apply own_snoc.
    split; [split; [apply undisturbed_account|done|]|].
    { exists (t ++ [x']), (plans (Payments.account s)). split; [|exact Ho]. by destruct s as [? ? ? ? ? ? []]. }
    split; [done|]. split; [done|]. split; [done|]. split.
    + change (row_of r r (t ++ [x']) = Some x'). by apply row_of_snoc.
    + by split.
    + apply over_cap_proper; symmetry; [exact Emi|exact Ebi].
    + by rewrite Er.
    + rewrite Er. unfold added, counters, x'. cbn [month minutes_used spend_used billed_inr]. rewrite String.eqb_refl. lra.
Qed.

(** ** The writers agree *)

(** The amounts a call adds are in the columns' scale. *)
Definition writer_ok (w : cap_writer) : Prop :=
  match w with
  | MeterCall _ minutes billed spend _ => is_money minutes /\ is_money billed /\ is_money spend
  | _ => True
  end.

(** What each writer does to the counters, and what it leaves in force. *)
Definition writer_effect (m : string) (s : platform) (w : cap_writer) (s' : platform) : Prop :=
  match w with
  | MeterCall mc minutes billed spend on_us =>
      exists x, own_row s' = Some x
        /\ month x = match own_row s with Some y => greatest (month y) mc | None => mc end
        /\ added (month x) mc (counters (month x) (own_row s)) minutes spend (if on_us then 0 else billed)%Q
             (counters (month x) (own_row s'))
  | ClientStop cap_min cap_spend =>
      counters m (own_row s') = counters m (own_row s)
      /\ exists stored, column numeric_12_4 cap_spend = Ok stored
         /\ cap_view (in_force s') = Caps (admin_min (cap_view (in_force s))) (admin_spend (cap_view (in_force s))) cap_min stored
         /\ (forall a c, admin_spend (cap_view (in_force s)) = Some a -> cap_spend = Some c -> c <= a)%Q
         /\ (forall a c, admin_min (cap_view (in_force s)) = Some a -> cap_min = Some c -> c <= a)%Z
  | OperatorTerms _ | OperatorRecompute => counters m (own_row s') = counters m (own_row s)
  | PeriodStart => counters m (own_row s') = (0, 0, 0)%Q
  end.

(** One of the ceilings in force, the plan's or the client's, is reached. *)
Definition ceiling_reached (s : platform) (minutes billed : Q) : Prop :=
  exists p, in_force s = Some p
    /\ ((exists n, (hard_cap_min p = Some n \/ client_cap_min p = Some n) /\ inject_Z n <= minutes)
        \/ (exists q, (hard_cap_spend p = Some q \/ client_cap_spend p = Some q) /\ q <= billed))%Q.

Lemma reached_least used a b :
  reached used (least a b) = true <-> exists q, (a = Some q \/ b = Some q) /\ (q <= used)%Q.
Proof.
  destruct a as [x|], b as [y|]; simpl.
  - destruct (dle_spec (dmin x y) used) as [H|H], (dmin_spec x y) as [[L E]|[L E]]; rewrite E in H; split; try done; intros Hq.
    + exists x. auto.
    + exists y. auto.
    + exfalso. destruct Hq as (q & [[= ->]|[= ->]] & Hq); lra.
    + exfalso. destruct Hq as (q & [[= ->]|[= ->]] & Hq); lra.
  - destruct (dle_spec x used) as [H|H]; split; try done; [intros _; exists x; auto|].
    intros (q & [[= ->]|[=]] & Hq). lra.
  - destruct (dle_spec y used) as [H|H]; split; try done; [intros _; exists y; auto|].
    intros (q & [[=]|[= ->]] & Hq). lra.
  - split; [done|]. intros (q & [[=]|[=]] & _).
Qed.

Lemma over_cap_spec s minutes billed : over_cap minutes billed (caps_of s) = true <-> ceiling_reached s minutes billed.
Proof.
  unfold caps_of, ceiling_reached. fold (in_force s). unfold over_cap. rewrite orb_true_iff. destruct (in_force s) as [p|]; simpl.
  - rewrite !reached_least. split.
    + intros [(q & Hq & Hle)|H]; exists p; (split; [done|]); [left|by right].
      destruct Hq as [Hq|Hq]; [destruct (hard_cap_min p) as [n|] eqn:E|destruct (client_cap_min p) as [n|] eqn:E];
        try done; injection Hq as <-; exists n; auto.
    + intros (p' & [= <-] & [(n & Hn & Hle)|H]); [left|by right]. exists (inject_Z n). split; [|done].
      destruct Hn as [-> | ->]; auto.
  - split; [by intros []|]. by intros (p & ? & _).
Qed.

(** The month's counters have reached a ceiling. *)
Definition month_over (m : string) (s : platform) : Prop :=
  exists x, own_row s = Some x /\ month x = m /\ ceiling_reached s (minutes_used x) (billed_inr x).

Lemma must_stop_spec m s : must_stop m s = true <-> month_over m s.
Proof.
  unfold must_stop, due, month_over. destruct (own_row s) as [x|].
  - rewrite andb_true_iff, String.eqb_eq, over_cap_spec. split; [intros [? ?]; by exists x|].
    by intros (y & [= <-] & ? & ?).
  - split; [done|]. by intros (y & ? & _).
Qed.

(** C21. Whoever writes the cap flag, the gate agrees with the ceilings: after a call was
    metered, the client or an operator set a ceiling, an operator recomputed or a counting
    period began, all within one month, outbound calling is stopped exactly when the
    month's counters have reached the stricter of the ceilings in force, and a ceiling of
    zero stops it before the first call (unless only a call was metered).  A metered call
    is counted into its own month, never into an earlier row's; a client's cap looser
    than the plan's is refused and any other binds at once; no other tenant's row, no
    money and nothing else of the platform moves.  Terms that say what is already in
    force write nothing. *)
Theorem caps_writers_agree s w m s' :
  pk_ok ss_tenant (spend_state (Payments.account s)) -> (forall x, own_row s = Some x -> amounts_ok x) -> writer_ok w ->
  (forall n, (n <= 2)%nat -> ist_billing_month (ticks (wallet s) n) = m) ->
  write_cap (rls (wallet s)) w s = Ok (tt, s') ->
  (exists t, w = OperatorTerms t /\ s' = s) \/
  (cap_step s s' /\ writer_effect m s w s'
   /\ (exists b s1, spend_capped (rls (wallet s)) s' = Ok (b, s1) /\ (b = true <-> month_over m s'))
   /\ match w with
      | MeterCall _ _ _ _ _ => True
      | _ => ceiling_reached s' 0 0 -> exists x, own_row s' = Some x /\ String.ltb (month x) m = false
      end).
Proof.
  intros Hpk Hrow Hok Hm H.
  assert (Hr : forall s', cap_step s s' -> rls (wallet s') = rls (wallet s)).
  { intros s1 [[[Hr _ _ _ _ _] _] _ _]. exact Hr. }
  assert (Hfin : forall k s', (k <= 2)%nat -> cap_step s s' -> ticks (wallet s') = (fun n => ticks (wallet s) (k + n)%nat) ->
    flag_due m s' -> exists b s1, spend_capped (rls (wallet s)) s' = Ok (b, s1) /\ (b = true <-> month_over m s')).
  { intros k s1 Hk Hs Ht Hf. rewrite <- (Hr s1 Hs). destruct (spend_capped_spec m s1 Hf) as [s2 H2]; [rewrite Ht; apply Hm; lia|].
    exists (must_stop m s1), s2. split; [done|apply must_stop_spec]. }
  destruct w as [mc minutes billed spend on_us|cap_min cap_spend|t| |]; simpl in H.
  - right. destruct Hok as (O1 & O2 & O3). apply bind_ok in H as (alerts & s1 & H & E). apply ret_ok in E as [_ ->].
    unfold meter_counters in H. apply bind_ok in H as ([x c] & s2 & H & E). apply ret_ok in E as [_ ->].
    apply upsert_spec in H as (A1 & A2 & A3 & -> & [B1 B2 B3 B4 B5]); try done; [|by destruct on_us; [apply is_money_0|]].
    split; [done|]. split; [exists x; rewrite B1; by split|]. split; [|done].
    apply (Hfin 0%nat); [lia|done|by rewrite A2|]. unfold flag_due. by rewrite B1.
  - right. apply bind_ok in H as (res & s1 & H & E). apply ret_ok in E as [_ ->].
    destruct (client_stop_spec s cap_min cap_spend res s1 m Hpk (Hm 0%nat ltac:(lia)) H)
      as (stored & A1 & A2 & [A3 A3'] & A4 & A5 & A6 & _ & A7 & A8).
    split; [done|]. split; [split; [done|]; by exists stored|]. split; [|by rewrite <- over_cap_spec]. by apply (Hfin 1%nat); [lia|done|rewrite A2|].
  - apply bind_ok in H as (res & s1 & H & E). apply ret_ok in E as [_ ->].
    destruct (terms_spec s t res s1 m Hpk (Hm 1%nat ltac:(lia)) H) as [[_ ->]|(A1 & A2 & [A3 A3'] & A4)]; [left; by exists t|right].
    split; [done|]. split; [done|]. split; [|by rewrite <- over_cap_spec]. by apply (Hfin 2%nat); [lia|done|rewrite A2|].
  - right. apply bind_ok in H as (res & s1 & H & E). apply ret_ok in E as [_ ->].
    destruct (cap_step_recompute s res s1 m Hpk (Hm 0%nat ltac:(lia)) H) as (A1 & _ & A2 & [A3 A3'] & A4).
    split; [done|]. split; [done|]. split; [|by rewrite <- over_cap_spec]. by apply (Hfin 1%nat); [lia|done|rewrite A2|].
  - right. destruct (period_start_spec s tt s' m Hpk (Hm 0%nat ltac:(lia)) H) as (A1 & A2 & [A3 A3'] & A4).
    split; [done|]. split; [done|]. split; [|by rewrite <- over_cap_spec]. by apply (Hfin 1%nat); [lia|done|rewrite A2|].
Qed.


(** ** Concrete instances *)
Module Example.

Definition no_account : account := Acct [] [] [] [] [] [] [] [] [].
(** A database at an instant, with the clock standing there. *)
Definition desk_at (t : instant) (a : account) : platform :=
  Pay account (Db 7 t (fun _ => t) (fun n => 100 + Z.of_nat n) [] [] [] []) (RateCard.RateCard.RatesDb [] []) [] [] [] [] a.

(** 10 July and 1 August 2026, noon in India. *)
Definition july : instant := 1783665000 * 1000000.
Definition august : instant := 1785565800 * 1000000.
Definition hundred_minutes : plan :=
  Plan 1 7 None None None None None None None (Some 100) None None (Some (inject_Z 500)) 10 None None 0.
Definition ninety_used : account :=
  with_plans [hundred_minutes] (with_spend [SpendState 7 "2026-07" (inject_Z 90) (inject_Z 30) (inject_Z 400) false] no_account).

Definition stopped (s : platform) : bool := match spend_capped 7 s with Ok (b, _) => b | Err _ => false end.
Definition after_write (w : cap_writer) (s : platform) : platform := match write_cap 7 w s with Ok (_, s') => s' | Err _ => s end.

(** Ten more minutes reach the plan's ceiling; a later call of June counts for nothing. *)
Example tenth_minute :
  stopped (after_write (MeterCall "2026-07" (inject_Z 10) (inject_Z 40) (inject_Z 4) false) (desk_at july ninety_used)) = true
  /\ stopped (after_write (MeterCall "2026-06" (inject_Z 10) (inject_Z 40) (inject_Z 4) false) (desk_at july ninety_used)) = false.
Proof. vm_compute. done. Qed.

Lemma caps_writers_agree_witness :
  exists s', write_cap 7 (ClientStop None (Some (inject_Z 400))) (desk_at july ninety_used) = Ok (tt, s')
    /\ exists b s1, spend_capped 7 s' = Ok (b, s1) /\ (b = true <-> month_over "2026-07" s').
Proof.
  assert (E : exists s', write_cap 7 (ClientStop None (Some (inject_Z 400))) (desk_at july ninety_used) = Ok (tt, s'))
    by (eexists; vm_compute; reflexivity).
  destruct E as [s' E]. exists s'. split; [exact E|].
  destruct (caps_writers_agree (desk_at july ninety_used) (ClientStop None (Some (inject_Z 400))) "2026-07" s')
    as [(t & Ht & _)|(_ & _ & H & _)].
  - apply NoDup_singleton.
  - intros x [= <-]. split; [exists 900000|exists 300000|exists 4000000]; reflexivity.
  - exact I.
  - intros n _. vm_compute. reflexivity.
  - exact E.
  - discriminate Ht.
  - exact H.
Defined.

(** A client who stops the calling with a ceiling of zero is stopped until the month ends
    only: in the new month the gate reads a closed month's flag, and the calling is open
    again until the first call is metered, although the ceiling still stands. *)
Theorem zero_ceiling_lapses_with_the_month :
  exists s, write_cap 7 (ClientStop (Some 0) None) (desk_at july no_account) = Ok (tt, s)
    /\ stopped s = true
    /\ stopped (desk_at august (Payments.account s)) = false
    /\ ceiling_reached (desk_at august (Payments.account s)) 0 0.
Proof.
  eexists. split; [vm_compute; reflexivity|]. split; [vm_compute; reflexivity|]. split; [vm_compute; reflexivity|].
  apply over_cap_spec. vm_compute. reflexivity.
Qed.
End Example.
End Caps.
