(* ===== verification/Workspaces.v ===== *)
(** * Voice workspaces, and the settings runs queued for an account's agents

    apps/api/tenancy/engine_workspace.py, agents/live_apply.py ([queue_live_apply]) and
    go_live/moves.py ([queue_agent_move], [refresh_agents_after_payment]).  A tenant has one
    workspace at the voice platform, recorded in one row with its status; a change of
    settings is carried to the live agents by a run, and one pending run covers several
    changes.  The deployment's engine and the platform's own workspace ids are settings. *)

From Stdlib Require Import ZArith Lia List.
From stdpp Require Import base list strings.
From S2P Require Import Prelude Sql PyTime Outbox WalletDb Envelope Payments Account.

Local Open Scope string_scope.
Local Open Scope list_scope.
Local Open Scope Z_scope.
Local Open Scope tx_scope.

Import Payments Account Envelope.

Module Workspaces.

Definition WORKSPACE_ENGINES : list string := ["thinnest"].
Definition PROVISION_JOB : string := "provision_engine_workspace".
Definition OFFBOARD_JOB : string := "offboard_engine_workspace".
Definition MOVE_JOB : string := "move_agents_to_workspace".
Definition APPLY_JOB : string := "apply_live_settings".
Definition WORKSPACE_PREFIX : string := "org_".

(** [is_customer_workspace] of engine_scope.py. *)
Definition is_customer_workspace (w : option string) : bool :=
  match w with
  | None => false
  | Some w => String.prefix WORKSPACE_PREFIX w && (String.length WORKSPACE_PREFIX <? String.length w)%nat
              && match String.index 0 "@" w with None => true | Some _ => false end
  end.

(** [tenant_engine_workspaces]: at most one row per tenant; the id of our developer
    workspace and the deployment's engine are settings. *)
Section Engine.
Context (engine : string) (is_developer_workspace : string -> bool).

Definition engine_has_workspaces : bool := bool_decide (engine ∈ WORKSPACE_ENGINES).

Definition external_ref_for (tenant_id : uuid) : string := "calevate-" +:+ uuid_text tenant_id.

Definition is_own_workspace (w : option string) : bool :=
  is_customer_workspace w && negb (match w with Some w => is_developer_workspace w | None => false end).

(** [WorkspaceState], the columns its readers here use; [read_workspace_state] and the
    resolver. *)
Record WorkspaceState := WsState { status : string; ws_workspace : option string }.
Definition NOT_PROVISIONED : WorkspaceState := WsState "not_provisioned" None.
Definition active (w : WorkspaceState) : bool :=
  String.eqb (status w) "active" && is_own_workspace (ws_workspace w).

Definition session_tenant : tx platform uuid := gets (fun s => rls (wallet s)).
Definition read_workspace_state (tenant_id : uuid) : tx platform WorkspaceState :=
  r ← session_tenant ;
  read (fun a => match select (mine ws_tenant r tenant_id) (workspaces a) with
                 | x :: _ => WsState (ws_status x) (workspace_id x)
                 | [] => NOT_PROVISIONED
                 end).
Definition resolve_workspace (tenant_id : uuid) : tx platform (option string) :=
  w ← read_workspace_state tenant_id ; ret (if active w then ws_workspace w else None).

Definition set_ws_status (st : string) (x : workspace) : workspace :=
  Workspace (ws_id x) (ws_tenant x) (ws_engine x) (external_ref x) st (workspace_id x) (last_error_code x).
Definition reopened (x : workspace) : workspace :=
  Workspace (ws_id x) (ws_tenant x) (ws_engine x) (external_ref x) "pending" (workspace_id x) None.
Definition closed_status (st : string) : bool := String.eqb st "offboarding" || String.eqb st "deleted".

(** [INSERT ... ON CONFLICT (tenant_id) DO NOTHING]. *)
Definition insert_workspace (tenant_id : uuid) : tx platform unit :=
  i ← uuid7 ;
  on_wallet (own_tenant tenant_id) ;;
  t ← read workspaces ;
  if existsb (fun x => ws_tenant x =? tenant_id) t then ret tt
  else write (with_workspaces (t ++ [Workspace i tenant_id engine (external_ref_for tenant_id) "pending" None None])).

Definition queue_workspace_provisioning (tenant_id : uuid) (reopen : bool) : tx platform bool :=
  if negb engine_has_workspaces then ret false
  else
    w ← read_workspace_state tenant_id ;
    if active w then ret false
    else
      r ← session_tenant ;
      if closed_status (status w) && negb reopen then ret false
      else
        (if closed_status (status w)
         then write (fun a => with_workspaces (update (mine ws_tenant r tenant_id) reopened (workspaces a)) a)
         else ret tt) ;;
        insert_workspace tenant_id ;;
        enqueue PROVISION_JOB [("tenant_id", JId tenant_id)] ;;
        ret true.

Definition queue_workspace_offboarding (tenant_id : uuid) : tx platform bool :=
  if negb engine_has_workspaces then ret false
  else
    w ← read_workspace_state tenant_id ;
    if bool_decide (status w ∈ ["not_provisioned"; "deleted"]) then ret false
    else
      r ← session_tenant ;
      write (fun a => with_workspaces (update (mine ws_tenant r tenant_id) (set_ws_status "offboarding") (workspaces a)) a) ;;
      enqueue OFFBOARD_JOB [("tenant_id", JId tenant_id)] ;;
      ret true.

Definition resume_workspace_offboarding (tenant_id : uuid) : tx platform bool :=
  if negb engine_has_workspaces then ret false
  else
    w ← read_workspace_state tenant_id ;
    if negb (String.eqb (status w) "offboarding") then ret false
    else enqueue OFFBOARD_JOB [("tenant_id", JId tenant_id)] ;; ret true.

(** ** Settings runs *)

Inductive scope := PlatformScope | TenantScope | AgentScope.
Definition scope_text (s : scope) : string :=
  match s with PlatformScope => "platform" | TenantScope => "tenant" | AgentScope => "agent" end.
Definition is_some {X} (x : option X) : bool := match x with Some _ => true | None => false end.
(** [tenant_id = CAST(:tid AS uuid)]: no row equals NULL. *)
Definition same_id (a b : option uuid) : bool := match a, b with Some x, Some y => x =? y | _, _ => false end.

Definition check_target (s : scope) (tenant_id agent_id : option uuid) : bool :=
  match s with
  | PlatformScope => negb (is_some tenant_id) && negb (is_some agent_id)
  | TenantScope => is_some tenant_id && negb (is_some agent_id)
  | AgentScope => is_some tenant_id && is_some agent_id
  end.

(** A pending run that already reaches everything [s] names. *)
Definition covers (s : scope) (tenant_id agent_id : option uuid) (x : live_run) : bool :=
  String.eqb (lr_status x) "pending"
  && (String.eqb (lr_scope x) "platform"
      || String.eqb (lr_scope x) "tenant" && same_id (lr_tenant x) tenant_id
         && match s with PlatformScope => false | _ => true end
      || String.eqb (lr_scope x) "agent" && same_id (lr_agent x) agent_id
         && match s with AgentScope => true | _ => false end).

(** An open run that a new run for [s] makes needless. *)
Definition superseded_by_scope (s : scope) (tenant_id agent_id : option uuid) (x : live_run) : bool :=
  match s with
  | PlatformScope => true
  | TenantScope => same_id (lr_tenant x) tenant_id
  | AgentScope => String.eqb (lr_scope x) "agent" && same_id (lr_agent x) agent_id
  end.

Definition add_reason (reason : string) (x : live_run) : live_run :=
  LiveRun (lr_id x) (lr_scope x) (lr_tenant x) (lr_agent x)
    (if bool_decide (reason ∈ reasons x) then reasons x else reasons x ++ [reason])
    (lr_status x) (superseded_by x) (lease_until x) (requested_by x) (lr_created_at x).
Definition supersede (i : uuid) (x : live_run) : live_run :=
  LiveRun (lr_id x) (lr_scope x) (lr_tenant x) (lr_agent x) (reasons x) "superseded" (Some i) None
    (requested_by x) (lr_created_at x).

Definition queue_live_apply (s : scope) (reason : string) (tenant_id agent_id by_ : option uuid) : tx platform uuid :=
  if negb (check_target s tenant_id agent_id) then raise ValueError
  else
    t ← read live_apply_runs ;
    match order_by (fun x y => lr_created_at x <=? lr_created_at y) (select (covers s tenant_id agent_id) t) with
    | x :: _ =>
        write (with_runs (update (by_id lr_id (lr_id x)) (add_reason reason) t)) ;; ret (lr_id x)
    | [] =>
        i ← uuid7 ;
        n ← txn_now ;
        let row := LiveRun i (scope_text s) tenant_id agent_id [reason] "pending" None None by_ n in
        let p x := bool_decide (lr_status x ∈ ["pending"; "running"]) && negb (lr_id x =? i)
                   && superseded_by_scope s tenant_id agent_id x in
        write (with_runs (update p (supersede i) (t ++ [row]))) ;;
        enqueue APPLY_JOB [("run_id", JId i)] ;;
        ret i
    end.

(** ** After a payment *)

Definition queue_agent_move (tenant_id : uuid) (w : string) (tick : option string) : tx platform bool :=
  enqueue_once MOVE_JOB [("tenant_id", JId tenant_id); ("workspace_id", JText w)]
    ("agent-move:" +:+ uuid_text tenant_id +:+ ":" +:+ w
       +:+ match tick with Some t => if String.eqb t "" then "" else ":" +:+ t | None => "" end).

Definition refresh_agents_after_payment (tenant_id : uuid) (reason : string) : tx platform string :=
  w ← read_workspace_state tenant_id ;
  match (if active w then ws_workspace w else None) with
  | None => ret "on_activation"
  | Some ws =>
      queue_live_apply TenantScope reason (Some tenant_id) None None ;;
      queue_agent_move tenant_id ws None ;;
      ret "queued"
  end.

(** ** What these leave alone *)

Lemma keeps_provisioning t reopen : keeps (queue_workspace_provisioning t reopen).
Proof. unfold queue_workspace_provisioning, read_workspace_state, session_tenant, read. keeps. Qed.

Lemma keeps_live_apply sc reason t a b : keeps (queue_live_apply sc reason t a b).
Proof. unfold queue_live_apply, read, txn_now. keeps. Qed.
#[local] Hint Resolve keeps_live_apply : keeps.

Lemma keeps_refresh t reason : keeps (refresh_agents_after_payment t reason).
Proof. unfold refresh_agents_after_payment, queue_agent_move, read_workspace_state, session_tenant, read. keeps. Qed.

(** The tables other than the workspaces' own, and the session's tenant. *)
Definition others (s : platform) :=
  let a := Payments.account s in
  (rls (wallet s), now (wallet s), ticks (wallet s),
   (plans a, spend_state a, tenant_trials a, organizations a, go_live_guides a, calls a, erasures a)).

Lemma frames_provisioning t reopen : frames others (queue_workspace_provisioning t reopen).
Proof.
  unfold queue_workspace_provisioning, read_workspace_state, insert_workspace, session_tenant, read. frames.
Qed.

Lemma frames_refresh t reason : frames others (refresh_agents_after_payment t reason).
Proof.
  unfold refresh_agents_after_payment, queue_live_apply, queue_agent_move, read_workspace_state, session_tenant, read, txn_now.
  frames.
Qed.

End Engine.
#[export] Hint Resolve keeps_provisioning keeps_refresh : keeps.
End Workspaces.
