(* ===== verification/Trials.v ===== *)
(** * Free trials

    apps/api/billing/trials.py, the nightly sweep of apps/workers/trials.py and the filing
    of a tenant's erasure (compliance/tenant_erasure.py).  A trial is a row that is opened,
    and closed once: converted by a sale, expired by its clock or its minutes, stopped by a
    person, or replaced by another trial.  It covers the calls placed while it ran, its end
    starts a counting period, and one that ends without a sale schedules the erasure of the
    client's data after the agreed grace.  The trial's advisory lock makes each operation
    one [tx]. *)

From Stdlib Require Import ZArith Lia List QArith Lqa Sorted.
From stdpp Require Import base list strings pretty.
From S2P Require Import Prelude PyDecimal Sql PyTime Outbox AuditLog WalletDb Envelope Payments Account Caps Workspaces.

Local Open Scope string_scope.
Local Open Scope list_scope.
Local Open Scope Z_scope.
Local Open Scope tx_scope.

Import Payments Account Caps.

Module Trials.

Definition INBOUND_CUTOVER_JOB : string := "apply_inbound_credit_state".
Definition TRIAL_ACTIVE : string := "active".
Definition TRIAL_CONVERTED : string := "converted".
Definition TRIAL_EXPIRED : string := "expired".
Definition TRIAL_STOPPED : string := "stopped".
Definition MIN_TRIAL_DAYS : Z := 1.
Definition MAX_TRIAL_DAYS : Z := 365.
Definition MIN_FREE_MINUTES : Z := 1.
Definition MAX_FREE_MINUTES : Z := 1000.
Definition DEFAULT_ERASURE_GRACE_DAYS : Z := 30.
Definition MIN_ERASURE_GRACE_DAYS : Z := 1.
Definition MAX_ERASURE_GRACE_DAYS : Z := 180.
Definition EXPIRY_REASON : string := "The trial ran to its end date.".
Definition MINUTES_USED_REASON : string := "The trial's free minutes were used.".
Definition PAID_REASON : string := "The client added credit.".
Definition REPLACED_REASON : string := "Replaced by the trial Calevate set for this account.".

Definition timedelta_days (n : Z) : Z := n * US_PER_DAY.

(** ** Reading a trial *)

Definition is_running (t : trial) : bool := String.eqb (tr_status t) TRIAL_ACTIVE.
(** [TrialState.is_active]: the clock is asked as well as the status. *)
Definition is_active (at_ : instant) (t : trial) : bool := is_running t && (at_ <? ends_at t).
Definition covered_until (t : trial) : instant :=
  match ended_at t with Some e => Z.min (ends_at t) e | None => ends_at t end.
(** Whole days left, rounded up. *)
Definition days_remaining (at_ : instant) (t : trial) : option Z :=
  if is_active at_ t then Some (Z.max 0 (- (- (ends_at t - at_) / US_PER_DAY))) else None.

(** [ORDER BY started_at DESC, id DESC LIMIT 1]. *)
Definition latest (x y : trial) : bool := le_at_id started_at tr_id y x.
Definition newest_trial (r tenant_id : uuid) (t : list trial) : option trial :=
  head (order_by latest (select (mine tr_tenant r tenant_id) t)).
Definition session_tenant : tx platform uuid := gets (fun s => rls (wallet s)).
Definition read_trial (tenant_id : uuid) : tx platform (option trial) :=
  r ← session_tenant ; read (fun a => newest_trial r tenant_id (tenant_trials a)).

Definition or_now (at_ : option instant) : tx platform instant :=
  match at_ with Some t => ret t | None => utc_now end.

Definition trial_billing_active (tenant_id : uuid) (at_ : option instant) : tx platform bool :=
  t ← read_trial tenant_id ;
  match t with
  | None => ret false
  | Some t => n ← or_now at_ ; ret (is_active n t)
  end.

(** The meter's question: was the call free when it was placed. *)
Definition trial_covers (tenant_id : uuid) (at_ : instant) : tx platform bool :=
  t ← read_trial tenant_id ;
  ret (match t with None => false | Some t => (started_at t <=? at_) && (at_ <? covered_until t) end).

(** [ON_TRIAL_ROW_SQL]: the readers of the usage ledger ask every trial. *)
Definition on_trial_row (tenant_id : uuid) (at_ : instant) (t : list trial) : bool :=
  existsb (fun x => (tr_tenant x =? tenant_id) && (started_at x <=? at_) && (at_ <? covered_until x)) t.

Definition trial_overlaps (tenant_id : uuid) (start end_ : instant) : tx platform bool :=
  r ← session_tenant ;
  read (fun a => existsb (fun x => mine tr_tenant r tenant_id x && (started_at x <? end_) && (start <? covered_until x))
                   (tenant_trials a)).

(** Where the client's current counting period began. *)
Definition counter_epoch (tenant_id : uuid) : tx platform (option instant) :=
  t ← read_trial tenant_id ;
  ret (match t with
       | None => None
       | Some t => Some (if is_running t then started_at t else covered_until t)
       end).

Definition trial_seconds_used (tenant_id : uuid) (t : trial) : tx platform Z :=
  r ← session_tenant ;
  read (fun a => fold_right Z.add 0
          (map (fun c => match duration_s c with Some d => d | None => 0 end)
             (select (fun c => mine ca_tenant r tenant_id c && trial_call c && (started_at t <=? ca_created_at c)) (calls a)))).
Definition trial_calls_since (tenant_id : uuid) (since : instant) : tx platform nat :=
  r ← session_tenant ;
  read (fun a => rowcount (fun c => mine ca_tenant r tenant_id c && trial_call c && (since <=? ca_created_at c)) (calls a)).
Definition minutes_of (seconds : Z) : Z := - (- seconds / 60).

(** ** Opening and closing *)

(** The CHECKs and the partial unique index of [tenant_trials]. *)
Definition insert_trial (x : trial) : tx platform unit :=
  on_wallet (own_tenant (tr_tenant x)) ;;
  t ← read tenant_trials ;
  if negb ((1 <=? days x) && (days x <=? 365)) then raise (CheckViolation "days_range")
  else if negb (started_at x <? ends_at x) then raise (CheckViolation "ends_after_start")
  else if negb (match free_minutes x with None => true | Some m => (1 <=? m) && (m <=? 1000) end)
  then raise (CheckViolation "free_minutes_range")
  else if existsb (fun y => (tr_tenant y =? tr_tenant x) && is_running y) t
  then raise (UniqueViolation "ux_tenant_trials_active")
  else write (with_trials (t ++ [x])).

Definition start_trial (tenant_id : uuid) (days_ : Z) (actor : option uuid) (erasure_grace_days : Z)
    (free_minutes_ : option Z) (at_ : option instant) : tx platform trial :=
  n ← or_now at_ ;
  if negb ((MIN_TRIAL_DAYS <=? days_) && (days_ <=? MAX_TRIAL_DAYS))
  then raise (Problem BusinessRule "invalid_trial_days")
  else if negb ((MIN_ERASURE_GRACE_DAYS <=? erasure_grace_days) && (erasure_grace_days <=? MAX_ERASURE_GRACE_DAYS))
  then raise (Problem BusinessRule "invalid_erasure_grace")
  else if negb (match free_minutes_ with None => true | Some m => (MIN_FREE_MINUTES <=? m) && (m <=? MAX_FREE_MINUTES) end)
  then raise (Problem BusinessRule "invalid_trial_minutes")
  else
    existing ← read_trial tenant_id ;
    if match existing with Some t => is_running t | None => false end
    then raise (Problem Conflict "trial_already_open")
    else
      i ← uuid7 ;
      let ends := n + timedelta_days days_ in
      let x := Trial i tenant_id days_ n ends TRIAL_ACTIVE None None
                 (Some (ends + timedelta_days erasure_grace_days)) None actor free_minutes_ in
      insert_trial x ;;
      enqueue INBOUND_CUTOVER_JOB [("tenant_id", JId tenant_id)] ;;
      ret x.

(** [UPDATE ... WHERE id = :id AND status = 'active']. *)
Definition closed (st : string) (at_ : instant) (why : string) (erase : option instant) (x : trial) : trial :=
  Trial (tr_id x) (tr_tenant x) (days x) (started_at x) (ends_at x) st (Some at_) (Some why) erase
    (erasure_filed_at x) (started_by x) (free_minutes x).
Definition close_row (i : uuid) (st : string) (at_ : instant) (why : string) (erase : option instant) : tx platform unit :=
  r ← session_tenant ;
  write (fun a => with_trials (update (fun x => (tr_tenant x =? r) && by_id tr_id i x && is_running x)
                                 (closed st at_ why erase) (tenant_trials a)) a).

Definition replace_open_trial (tenant_id : uuid) (at_ : option instant) : tx platform (option trial) :=
  n ← or_now at_ ;
  t ← read_trial tenant_id ;
  match t with
  | None => ret None
  | Some t =>
      if negb (is_running t) then ret None
      else
        close_row (tr_id t) TRIAL_STOPPED n REPLACED_REASON None ;;
        reset_client_counters tenant_id ;;
        ret (Some t)
  end.

Section Engine.
(** The deployment's engine and the platform's own workspaces, for the agents of a
    converted account (see [Workspaces]). *)
Context (engine : string) (is_developer_workspace : string -> bool).

Definition end_trial (tenant_id : uuid) (outcome reason : string) (at_ : option instant) : tx platform trial :=
  n ← or_now at_ ;
  if negb (bool_decide (outcome ∈ [TRIAL_CONVERTED; TRIAL_EXPIRED; TRIAL_STOPPED]))
  then raise (Problem BusinessRule "invalid_trial_outcome")
  else
    t ← read_trial tenant_id ;
    match t with
    | None => raise (Problem Conflict "no_open_trial")
    | Some t =>
        if negb (is_running t) then raise (Problem Conflict "no_open_trial")
        else
          let grace := match erase_after t with
                       | Some e => e - ends_at t
                       | None => timedelta_days DEFAULT_ERASURE_GRACE_DAYS
                       end in
          let erase := if String.eqb outcome TRIAL_CONVERTED then None else Some (n + grace) in
          close_row (tr_id t) outcome n reason erase ;;
          reset_client_counters tenant_id ;;
          (if String.eqb outcome TRIAL_CONVERTED
           then Workspaces.refresh_agents_after_payment is_developer_workspace tenant_id "trial_converted" ;;
                Workspaces.queue_workspace_provisioning engine is_developer_workspace tenant_id false ;; ret tt
           else ret tt) ;;
          ret (closed outcome n reason erase t)
    end.

(** ** The sweep *)

Definition TRIAL_MINUTES_USED_NOTICE_JOB : string := "notify_trial_minutes_used".
Definition ERASURE_REASON : string :=
  "The trial ended without the client converting, and the grace period agreed when the trial was opened has now passed.".

Definition end_if_minutes_used (tenant_id : uuid) (t : trial) (n : instant) : tx platform bool :=
  match free_minutes t with
  | None => ret false
  | Some m =>
      used ← trial_seconds_used tenant_id t ;
      if used <? m * 60 then ret false
      else
        end_trial tenant_id TRIAL_EXPIRED MINUTES_USED_REASON (Some n) ;;
        enqueue_once TRIAL_MINUTES_USED_NOTICE_JOB [("tenant_id", JId tenant_id); ("trial_id", JId (tr_id t))]
          ("trial_minutes_used:" +:+ Envelope.Envelope.uuid_text (tr_id t)) ;;
        ret true
  end.

Definition close_if_minutes_used (tenant_id : uuid) (n : instant) : tx platform bool :=
  t ← read_trial tenant_id ;
  match t with
  | None => ret false
  | Some t => if is_active n t then end_if_minutes_used tenant_id t n else ret false
  end.

Definition close_if_expired (tenant_id : uuid) (n : instant) : tx platform bool :=
  t ← read_trial tenant_id ;
  match t with
  | None => ret false
  | Some t =>
      if negb (is_running t) then ret false
      else if n <? ends_at t then end_if_minutes_used tenant_id t n
      else end_trial tenant_id TRIAL_EXPIRED EXPIRY_REASON (Some (ends_at t)) ;; ret true
  end.

(** ** Erasure *)

Definition TENANT_ERASURE_JOB : string := "execute_tenant_erasure".
Definition TENANT_ERASURE_REDRIVE_AFTER : Z := 3600 * 1000000.
Definition REQUIRED_STATUS : string := "churned".

Definition own_org (tenant_id : uuid) : tx platform (option organization) :=
  r ← session_tenant ;
  read (fun a => head (select (mine org_id r tenant_id) (organizations a))).

Definition assert_erasable (tenant_id : uuid) : tx platform unit :=
  o ← own_org tenant_id ;
  match o with
  | None => raise (Problem NotFound "not_found")
  | Some o => match deleted_at o with
              | Some _ => raise (Problem Conflict "tenant_already_erased")
              | None => if negb (String.eqb (org_status o) REQUIRED_STATUS)
                        then raise (Problem Conflict "tenant_not_closed") else ret tt
              end
  end.

(** [_redrive_if_stalled]: once per hour of age. *)
Definition redrive_if_stalled (e : erasure) : tx platform unit :=
  n ← utc_now ;
  let age := n - requested_at e in
  if age <? TENANT_ERASURE_REDRIVE_AFTER then ret tt
  else
    enqueue_once TENANT_ERASURE_JOB [("tenant_id", JId (er_tenant e)); ("request_id", JId (er_id e))]
      ("tenant_erasure_redrive:" +:+ Envelope.Envelope.uuid_text (er_id e) +:+ ":"
         +:+ pretty (age / TENANT_ERASURE_REDRIVE_AFTER)) ;;
    ret tt.

Definition is_open (e : erasure) : bool := match completed_at e with None => true | Some _ => false end.
Definition request_tenant_erasure (tenant_id : uuid) (reason : string) : tx platform (erasure * bool) :=
  assert_erasable tenant_id ;;
  r ← session_tenant ;
  t ← read erasures ;
  match order_by (le_at_id requested_at er_id) (select (fun e => (er_tenant e =? r) && is_open e) t) with
  | e :: _ => redrive_if_stalled e ;; ret (e, true)
  | [] =>
      i ← uuid7 ;
      n ← txn_now ;
      let e := Erasure i tenant_id reason n None in
      on_wallet (own_tenant tenant_id) ;;
      write (with_erasures (t ++ [e])) ;;
      enqueue TENANT_ERASURE_JOB [("tenant_id", JId tenant_id); ("request_id", JId i)] ;;
      ret (e, false)
  end.

Definition filed (at_ : instant) (x : trial) : trial :=
  Trial (tr_id x) (tr_tenant x) (days x) (started_at x) (ends_at x) (tr_status x) (ended_at x) (ended_reason x)
    (erase_after x) (Some at_) (started_by x) (free_minutes x).
Definition mark_erasure_filed (trial_id : uuid) (at_ : option instant) : tx platform unit :=
  n ← or_now at_ ;
  r ← session_tenant ;
  write (fun a => with_trials (update (fun x => (tr_tenant x =? r) && by_id tr_id trial_id x) (filed n) (tenant_trials a)) a).

Inductive filing := Filed | Blocked.
Definition file_erasure_if_due (tenant_id : uuid) (n : instant) : tx platform (option filing) :=
  t ← read_trial tenant_id ;
  match t with
  | None => ret None
  | Some t =>
      match erase_after t, erasure_filed_at t with
      | Some e, None =>
          if is_running t || (n <? e) then ret None
          else
            o ← own_org tenant_id ;
            if negb (match o with Some o => String.eqb (org_status o) REQUIRED_STATUS | None => false end)
            then ret (Some Blocked)
            else
              request_tenant_erasure tenant_id ERASURE_REASON ;;
              mark_erasure_filed (tr_id t) (Some n) ;;
              ret (Some Filed)
      | _, _ => ret None
      end
  end.
End Engine.

(** ** The life of a trial *)
Section Life.
Implicit Types (T : list trial) (x y t : trial) (r : uuid).

Definition grace_ok (g : Z) : Prop :=
  exists d, MIN_ERASURE_GRACE_DAYS <= d <= MAX_ERASURE_GRACE_DAYS /\ g = timedelta_days d.

(** A sound row: open exactly while it has no end, an erasure date only if no sale
    converted it, the agreed grace after its end, and filed only once it is over. *)
Record trial_wf x : Prop := TrialWf {
  tf_span : started_at x < ends_at x;
  tf_open : is_running x = true <-> ended_at x = None;
  tf_ended : forall e, ended_at x = Some e -> started_at x <= e;
  tf_erase : forall e, erase_after x = Some e ->
    tr_status x <> TRIAL_CONVERTED
    /\ exists g, grace_ok g /\ e = (match ended_at x with Some t => t | None => ends_at x end) + g;
  tf_grace : is_running x = true -> erase_after x <> None;
  tf_filed : erasure_filed_at x <> None -> is_running x = false /\ erase_after x <> None
}.

Record trials_ok T : Prop := TrialsOk {
  to_pk : pk_ok tr_id T;
  to_wf : forall x, In x T -> trial_wf x;
  to_open : forall x y, In x T -> In y T -> tr_tenant x = tr_tenant y ->
    is_running x = true -> is_running y = true -> x = y;
  to_newest : forall x y, In x T -> In y T -> tr_tenant x = tr_tenant y -> is_running x = true -> x <> y ->
    started_at y < started_at x \/ (started_at y = started_at x /\ tr_id y < tr_id x);
  to_disjoint : forall x y, In x T -> In y T -> tr_tenant x = tr_tenant y -> x <> y ->
    covered_until x <= started_at y \/ covered_until y <= started_at x
}.

Lemma mine_trial r x : mine tr_tenant r r x = true <-> tr_tenant x = r.
Proof. unfold mine. rewrite andb_diag. apply Z.eqb_eq. Qed.

Lemma latest_total x y : latest x y = true \/ latest y x = true.
Proof. apply le_at_id_total. Qed.
Lemma latest_trans x y z : latest x y = true -> latest y z = true -> latest x z = true.
Proof. unfold latest. intros. by eapply le_at_id_trans. Qed.

Lemma newest_spec r T t :
  newest_trial r r T = Some t ->
  In t T /\ tr_tenant t = r /\ forall y, In y T -> tr_tenant y = r -> latest t y = true.
Proof.
  unfold newest_trial. intros H.
  pose proof (order_by_perm latest (select (mine tr_tenant r r) T)) as Hp.
  pose proof (order_by_sorted latest latest_total latest_trans (select (mine tr_tenant r r) T)) as Hs.
  destruct (order_by latest _) as [|x l]; [done|]. injection H as ->.
  assert (Hin : forall y, In y (t :: l) <-> In y T /\ tr_tenant y = r).
  { intros y. rewrite <- mine_trial, <- select_In. split; apply Permutation_in; [exact Hp|by symmetry]. }
  destruct (proj1 (Hin t) (or_introl eq_refl)) as [H1 H2]. split; [done|]. split; [done|].
  intros y Hy Hyr. apply StronglySorted_inv in Hs as [_ Hs]. rewrite Forall_forall in Hs.
  destruct (proj2 (Hin y) (conj Hy Hyr)) as [<-|Hl]; [|by apply Hs, list_elem_of_In].
  unfold latest, le_at_id. lia.
Qed.

(** An edit of some rows that opens none, and lengthens no coverage. *)
Record closing (p : trial -> bool) (f : trial -> trial) : Prop := Closing {
  cl_id : forall x, tr_id (f x) = tr_id x;
  cl_tenant : forall x, tr_tenant (f x) = tr_tenant x;
  cl_started : forall x, started_at (f x) = started_at x;
  cl_covered : forall x, p x = true -> trial_wf x -> covered_until (f x) <= covered_until x;
  cl_running : forall x, is_running (f x) = true -> is_running x = true
}.

Lemma edit_ok T p f :
  closing p f -> (forall x, In x T -> p x = true -> trial_wf x -> trial_wf (f x)) ->
  trials_ok T -> trials_ok (update p f T).
Proof.
  intros [C1 C2 C3 C4 C5] Hwf [P W O N D].
  assert (Hback : forall x', In x' (update p f T) -> exists x, In x T /\ x' = (if p x then f x else x)
    /\ tr_tenant x' = tr_tenant x /\ started_at x' = started_at x /\ tr_id x' = tr_id x
    /\ covered_until x' <= covered_until x /\ (is_running x' = true -> is_running x = true)).
  { intros x' Hx. apply update_In in Hx as (x & Hx & ->). exists x. specialize (W x Hx).
    destruct (p x) eqn:Ep; repeat split; auto with zarith. }
  split.
  - by apply update_pk_ok.
  - intros x' Hx. destruct (Hback x' Hx) as (x & Hin & -> & _). destruct (p x) eqn:E; [|by apply W]. apply Hwf; auto.
  - intros x' y' Hx Hy Ht Rx Ry. destruct (Hback x' Hx) as (x & Hin & Ex & Tx & _ & _ & _ & Bx).
    destruct (Hback y' Hy) as (y & Hiny & Ey & Ty & _ & _ & _ & By).
    assert (E : x = y) by (apply O; auto; congruence). by rewrite Ex, Ey, E.
  - intros x' y' Hx Hy Ht Rx Hne. destruct (Hback x' Hx) as (x & Hin & Ex & Tx & Sx & Ix & _ & Bx).
    destruct (Hback y' Hy) as (y & Hiny & Ey & Ty & Sy & Iy & _ & _).
    rewrite Sx, Sy, Ix, Iy. apply N; auto; [congruence|]. intros E. apply Hne. by rewrite Ex, Ey, E.
  - intros x' y' Hx Hy Ht Hne. destruct (Hback x' Hx) as (x & Hin & Ex & Tx & Sx & _ & Cx & _).
    destruct (Hback y' Hy) as (y & Hiny & Ey & Ty & Sy & _ & Cy & _).
    rewrite Sx, Sy. destruct (D x y) as [H|H]; try done; [congruence| |left; lia|right; lia].
    intros E. apply Hne. by rewrite Ex, Ey, E.
Qed.

(** The newest trial stays the newest through an edit. *)
Lemma newest_update r T p f y z :
  pk_ok tr_id T -> (forall x, (tr_id (f x), tr_tenant (f x), started_at (f x)) = (tr_id x, tr_tenant x, started_at x)) ->
  newest_trial r r T = Some y -> newest_trial r r (update p f T) = Some z -> z = if p y then f y else y.
Proof.
  intros Hpk Hf Hy Hz. apply newest_spec in Hy as (Hy & Ey & Ly). apply newest_spec in Hz as (Hz & Ez & Lz).
  assert (Hk : forall x, tr_id (if p x then f x else x) = tr_id x /\ tr_tenant (if p x then f x else x) = tr_tenant x
                        /\ started_at (if p x then f x else x) = started_at x).
  { intros x. destruct (p x); [|done]. by injection (Hf x) as -> -> ->. }
  apply update_In in Hz as (x & Hx & ->). destruct (Hk x) as (Kx1 & Kx2 & Kx3), (Hk y) as (Ky1 & Ky2 & Ky3).
  assert (x = y) as ->; [|done]. apply (pk_unique tr_id T); [done..|].
  specialize (Ly x Hx ltac:(congruence)). specialize (Lz (if p y then f y else y)).
  rewrite Ky2 in Lz. specialize (Lz ltac:(apply in_map_iff; by exists y) Ey).
  unfold latest, le_at_id in *. lia.
Qed.

(** The instants a write uses are not before those recorded for the tenant. *)
Definition timely r (n : instant) T : Prop :=
  forall y, In y T -> tr_tenant y = r -> started_at y <= n /\ forall e, ended_at y = Some e -> e <= n.

Lemma open_ok T x :
  trials_ok T -> trial_wf x -> timely (tr_tenant x) (started_at x) T ->
  (forall y, In y T -> tr_id y < tr_id x) ->
  (forall y, In y T -> tr_tenant y = tr_tenant x -> is_running y = false) ->
  trials_ok (T ++ [x]).
Proof.
  intros [P W O N D] Hx Ht Hid Hno.
  assert (Hcase : forall y, In y (T ++ [x]) -> In y T \/ y = x).
  { intros y Hy. apply in_app_or in Hy as [Hy|[<-|[]]]; auto. }
  assert (Hcov : forall y, In y T -> tr_tenant y = tr_tenant x -> covered_until y <= started_at x).
  { intros y Hy Ey. destruct (Ht y Hy Ey) as [_ He]. pose proof (Hno y Hy Ey) as Hr. specialize (W y Hy).
    unfold covered_until. destruct (ended_at y) as [e|] eqn:E; [specialize (He e eq_refl); lia|].
    apply (tf_open _ W) in E. congruence. }
  split.
  - apply insert_pk_ok; [|done]. intros Hin. apply in_map_iff in Hin as (y & E & Hy). specialize (Hid y Hy). lia.
  - intros y Hy. destruct (Hcase y Hy) as [H| ->]; [by apply W|done].
  - intros y z Hy Hz Et Ry Rz. destruct (Hcase y Hy) as [H| ->], (Hcase z Hz) as [H'| ->]; [by apply O| | |done].
    + by rewrite (Hno y H Et) in Ry.
    + by rewrite (Hno z H' (eq_sym Et)) in Rz.
  - intros y z Hy Hz Et Ry Hne. destruct (Hcase y Hy) as [H| ->], (Hcase z Hz) as [H'| ->]; [by apply N| | |done].
    + by rewrite (Hno y H Et) in Ry.
    + destruct (Ht z H' (eq_sym Et)) as [Hs _]. specialize (Hid z H'). lia.
  - intros y z Hy Hz Et Hne. destruct (Hcase y Hy) as [H| ->], (Hcase z Hz) as [H'| ->]; [by apply D|left|right|done].
    + by apply Hcov.
    + by apply Hcov.
Qed.

(** A close is not before the start of the trial it closes. *)
Definition due r (n : instant) T : Prop := forall y, newest_trial r r T = Some y -> started_at y <= n.
Lemma timely_due r n T : timely r n T -> due r n T.
Proof. intros H y Hy. apply newest_spec in Hy as (Hin & E & _). by destruct (H y Hin E). Qed.

(** A close of the tenant's open trial, with the erasure the outcome leaves. *)
Lemma close_ok T t r n st why er :
  trials_ok T -> In t T -> tr_tenant t = r -> is_running t = true -> started_at t <= n -> st <> TRIAL_ACTIVE ->
  (forall e, er = Some e -> st <> TRIAL_CONVERTED /\ exists g, grace_ok g /\ e = n + g) ->
  trials_ok (update (fun x => (tr_tenant x =? r) && by_id tr_id (tr_id t) x && is_running x) (closed st n why er) T).
Proof.
  intros HT Hin Er Hr Ht Hst Her.
  assert (Hoff : forall x, is_running (closed st n why er x) = false).
  { intros x. apply String.eqb_neq. done. }
  apply edit_ok; [split; try done|  |done].
  - intros x Hp Hx. apply andb_prop in Hp as [_ Hp]. apply (tf_open _ Hx) in Hp as E. unfold covered_until at 1. simpl. unfold covered_until. rewrite E. lia.
  - intros x Hx. by rewrite Hoff in Hx.
  - intros x Hx Hp W. unfold by_id in Hp.
    assert (x = t) as -> by (apply (pk_unique tr_id T); [apply HT|done|done|lia]).
    split; simpl; try (by rewrite Hoff); try apply W.
    + intros e [= <-]. done.
    + exact Her.
    + intros Hf. split; [by apply Hoff|]. destruct (tf_filed _ W Hf) as [Hc _]. congruence.
Qed.
End Life.

(** ** What each operation does to the trials *)
Section Operations.
Context (engine : string) (is_developer_workspace : string -> bool).
Implicit Types (s : platform) (T : list trial).

(** What the counters' reset and the agents' refresh leave alone. *)
Definition view s :=
  let a := Payments.account s in (rls (wallet s), tenant_trials a, organizations a, go_live_guides a).
Definition trials_of s : list trial := tenant_trials (Payments.account s).
(** The instant an operation works at: the given one, or the clock's. *)
Definition instant_of (at_ : option instant) s : instant := match at_ with Some t => t | None => ticks (wallet s) 0 end.

Lemma frames_or_now {X} (f : platform -> X) at_ :
  (forall s, f (with_wallet (tick (wallet s)) s) = f s) -> frames f (or_now at_).
Proof. intros H. destruct at_; [apply frames_ret|by apply frames_utc_now]. Qed.

Lemma or_now_ok at_ s n s' : or_now at_ s = Ok (n, s') -> n = instant_of at_ s /\ view s' = view s.
Proof.
  intros H. split; [|by eapply (frames_or_now view)].
  destruct at_; simpl in *; [by apply ret_ok in H as [-> _]|by injection H as <- _].
Qed.

Lemma frames_read_trial {X} (f : platform -> X) t : frames f (read_trial t).
Proof. unfold read_trial, session_tenant, read. frames. Qed.

Lemma read_trial_ok t s x s' :
  read_trial t s = Ok (x, s') -> s' = s /\ x = newest_trial (rls (wallet s)) t (trials_of s).
Proof.
  unfold read_trial. intros H. apply bind_ok in H as (r & s1 & E & H). apply gets_ok in E as [-> ->].
  by apply gets_ok in H as [-> ->].
Qed.

Lemma frames_reset t : frames view (reset_client_counters t).
Proof.
  unfold reset_client_counters, recompute_capped, arm_zero_ceiling, caps_now, current_billing_month, Caps.session_tenant, txn_now, read.
  frames.
Qed.

Lemma others_view {B} (m : tx platform B) : frames Workspaces.others m -> frames view m.
Proof. intros H s b s' E. specialize (H s b s' E). unfold Workspaces.others in H. unfold view. congruence. Qed.

Definition close_edit (r i : uuid) (st : string) (n : instant) (why : string) (er : option instant) : list trial -> list trial :=
  update (fun x => (tr_tenant x =? r) && by_id tr_id i x && is_running x) (closed st n why er).

(** Replacing: the open trial is stopped and asks for no erasure. *)
Lemma replace_spec t at_ s x s' :
  replace_open_trial t at_ s = Ok (x, s') ->
  rls (wallet s') = rls (wallet s) /\ 
  match newest_trial (rls (wallet s)) t (trials_of s) with
  | Some y => if is_running y
              then x = Some y /\ trials_of s' = close_edit (rls (wallet s)) (tr_id y) TRIAL_STOPPED (instant_of at_ s) REPLACED_REASON None (trials_of s)
              else x = None /\ trials_of s' = trials_of s
  | None => x = None /\ trials_of s' = trials_of s
  end.
Proof.
  unfold replace_open_trial. intros H. apply bind_ok in H as (n & s1 & E & H). apply or_now_ok in E as [-> V].
  apply bind_ok in H as (y & s2 & E & H). apply read_trial_ok in E as [-> Ey].
  assert (Hr : rls (wallet s1) = rls (wallet s)) by (unfold view in V; congruence).
  assert (HT : trials_of s1 = trials_of s) by (unfold view in V; unfold trials_of; congruence).
  rewrite Hr, HT in Ey. rewrite <- Ey. destruct y as [y|]; [|by apply ret_ok in H as [-> ->]].
  destruct (is_running y) eqn:Er; simpl in H; [|by apply ret_ok in H as [-> ->]].
  apply bind_ok in H as ([] & s2 & E & H). apply bind_ok in E as (r & s3 & Eg & E). apply gets_ok in Eg as [-> ->].
  apply modify_ok in E. apply bind_ok in H as ([] & s3 & E3 & H). apply ret_ok in H as [-> ->].
  apply frames_reset in E3. subst s2. unfold view in E3. simpl in E3. rewrite <- Hr, <- HT.
  split; [|split; [done|]]; unfold trials_of, close_edit; congruence.
Qed.

(** The erasure an outcome leaves: none after a sale, else the agreed grace from the end. *)
Definition erasure_from (outcome : string) (n : instant) (y : trial) : option instant :=
  if String.eqb outcome TRIAL_CONVERTED then None
  else Some (n + match erase_after y with Some e => e - ends_at y | None => timedelta_days DEFAULT_ERASURE_GRACE_DAYS end).

Lemma frames_converting t b :
  frames view (if b : bool
               then Workspaces.refresh_agents_after_payment is_developer_workspace t "trial_converted" ;;
                    Workspaces.queue_workspace_provisioning engine is_developer_workspace t false ;; ret tt
               else ret tt).
Proof.
  destruct b; [|apply frames_ret]. apply frames_bind; [apply others_view, Workspaces.frames_refresh|intros ?].
  apply frames_bind; [apply others_view, Workspaces.frames_provisioning|intros ?]. apply frames_ret.
Qed.

Lemma end_spec t outcome reason at_ s x s' :
  end_trial engine is_developer_workspace t outcome reason at_ s = Ok (x, s') ->
  outcome ∈ [TRIAL_CONVERTED; TRIAL_EXPIRED; TRIAL_STOPPED] /\
  exists y, newest_trial (rls (wallet s)) t (trials_of s) = Some y /\ is_running y = true
  /\ x = closed outcome (instant_of at_ s) reason (erasure_from outcome (instant_of at_ s) y) y
  /\ view s' = (rls (wallet s),
       close_edit (rls (wallet s)) (tr_id y) outcome (instant_of at_ s) reason
         (erasure_from outcome (instant_of at_ s) y) (trials_of s),
       organizations (Payments.account s), go_live_guides (Payments.account s)).
Proof.
  unfold end_trial. intros H. apply bind_ok in H as (n & s1 & E & H). apply or_now_ok in E as [-> V].
  case_bool_decide as Ho; [|done]. split; [done|]. simpl in H.
  apply bind_ok in H as (y & s2 & E & H). apply read_trial_ok in E as [-> Ey].
  unfold view in V. injection V as Hr HT HO HG. fold (trials_of s1) (trials_of s) in HT. rewrite Hr, HT in Ey.
  destruct y as [y|]; [|done]. destruct (is_running y) eqn:Er; [|done]. simpl in H. exists y. do 2 (split; [done|]).
  apply bind_ok in H as ([] & s2 & E & H). apply bind_ok in E as (r & s3 & Eg & E). apply gets_ok in Eg as [-> ->].
  apply modify_ok in E. apply bind_ok in H as ([] & s3 & E3 & H). apply frames_reset in E3.
  apply bind_ok in H as (u & s4 & E4 & H). apply frames_converting in E4. apply ret_ok in H as [-> ->].
  split; [done|]. rewrite E4, E3, E, <- HT, <- HO, <- HG, <- Hr. done.
Qed.

Lemma start_spec t d actor g m at_ s x s' :
  start_trial t d actor g m at_ s = Ok (x, s') ->
  t = rls (wallet s) /\ trial_wf x /\ is_running x = true
  /\ (tr_id x, tr_tenant x, days x, started_at x, free_minutes x) = (ids (wallet s) 0, t, d, instant_of at_ s, m)
  /\ (MIN_TRIAL_DAYS <= d <= MAX_TRIAL_DAYS) /\ ends_at x = started_at x + timedelta_days d
  /\ (forall y, In y (trials_of s) -> tr_tenant y = t -> is_running y = false)
  /\ rls (wallet s') = rls (wallet s) /\ trials_of s' = trials_of s ++ [x].
Proof.
  unfold start_trial. intros H. apply bind_ok in H as (n & s1 & E & H).
  assert (Hid : ids (wallet s1) = ids (wallet s)).
  { eapply (frames_or_now (fun s => ids (wallet s))); [|exact E]. done. }
  apply or_now_ok in E as [-> V]. injection V as Hr HT HO HG. fold (trials_of s1) (trials_of s) in HT.
  destruct (_ && _) eqn:Hd in H; [|done]. simpl in H. destruct (_ && _) eqn:Hg in H; [|done]. simpl in H.
  destruct (match m with Some _ => _ | None => _ end) eqn:Hm; [|done]. simpl in H.
  apply bind_ok in H as (y & s2 & E & H). apply read_trial_ok in E as [-> Ey].
  destruct (match y with Some _ => _ | None => _ end) eqn:Hy; [done|].
  apply bind_ok in H as (i & s2 & E & H). injection E as <- <-.
  apply bind_ok in H as ([] & s2 & E & H). apply bind_ok in H as (u & s3 & E3 & H). apply ret_ok in H as [-> ->].
  injection E3 as E3. subst s3. set (x := Trial _ _ _ _ _ _ _ _ _ _ _ _) in *. unfold insert_trial in E.
  apply bind_ok in E as ([] & s4 & Eo & E).
  assert (Ht : t = rls (wallet s) /\ s4 = with_wallet (drop_id (wallet s1)) s1).
  { unfold on_wallet, own_tenant, bind, gets in Eo. simpl in Eo. destruct (t =? _) eqn:Et; [|done].
    injection Eo as <-. rewrite Hr in Et. split; [lia|done]. }
  destruct Ht as [Ht ->]. apply bind_ok in E as (T & s4 & Eg & E). apply gets_ok in Eg as [-> ->].
  change (tenant_trials (Payments.account _)) with (trials_of s1) in E. rewrite HT in E.
  destruct (_ && _) eqn:H1 in E; [|done]. simpl in E.
  destruct (_ <? _) eqn:H2 in E; [|done]. simpl in E.
  destruct (match m with Some _ => _ | None => _ end) eqn:H3 in E; [|done]. simpl in E.
  destruct (existsb _ _) eqn:H4 in E; [done|]. apply modify_ok in E. subst s2.
  assert (Hx : trial_wf x).
  { split; [simpl; lia|done|done| |done|done]. intros e [= <-]. split; [done|]. exists (timedelta_days g). split; [|done].
    exists g. split; [lia|done]. }
  split; [done|]. split; [done|]. split; [done|]. split; [unfold x; simpl; by rewrite Hid|]. split; [lia|].
  split; [done|]. split; [|by split].
  intros y0 Hy0 Et. destruct (is_running y0) eqn:Er; [|done].
  assert (E : existsb (fun y => (tr_tenant y =? t) && is_running y) (trials_of s) = true); [|congruence].
  apply existsb_exists. exists y0. split; [done|]. rewrite Er. lia.
Qed.

Lemma newest_own r t T y : newest_trial r t T = Some y -> t = r.
Proof.
  unfold newest_trial. intros H. pose proof (order_by_perm latest (select (mine tr_tenant r t) T)) as Hp.
  destruct (order_by latest _) as [|x l]; [done|].
  assert (Hx : In x (select (mine tr_tenant r t) T)) by (eapply Permutation_in; [exact Hp|by left]).
  apply select_In in Hx as [_ Hx]. unfold mine in Hx. lia.
Qed.

Lemma end_ok t outcome reason at_ s x s' :
  trials_ok (trials_of s) -> due (rls (wallet s)) (instant_of at_ s) (trials_of s) ->
  end_trial engine is_developer_workspace t outcome reason at_ s = Ok (x, s') -> trials_ok (trials_of s').
Proof.
  intros HT Ht H. apply end_spec in H as (Ho & y & Ey & Er & _ & V).
  unfold view in V. injection V as _ V _ _. unfold trials_of at 1. rewrite V. pose proof (newest_own _ _ _ _ Ey) as ->.
  pose proof (Ht y Ey) as Hs. apply newest_spec in Ey as (Hin & Et & _). assert (W : trial_wf y) by by apply HT.
  apply close_ok; try done; [intros ->; apply (bool_decide_eq_true_2 _) in Ho; by vm_compute in Ho|].
  unfold erasure_from. intros e. destruct (String.eqb_spec outcome TRIAL_CONVERTED); [done|]. intros [= <-]. split; [done|].
  destruct (erase_after y) as [g|] eqn:Eg; [|by destruct (tf_grace _ W Er)].
  exists (g - ends_at y). split; [|done]. destruct (tf_erase _ W g Eg) as (_ & d & Hd & ->).
  apply (tf_open _ W) in Er as ->. by replace (ends_at y + d - ends_at y) with d by lia.
Qed.

Lemma replace_ok t at_ s x s' :
  trials_ok (trials_of s) -> due (rls (wallet s)) (instant_of at_ s) (trials_of s) ->
  replace_open_trial t at_ s = Ok (x, s') -> trials_ok (trials_of s').
Proof.
  intros HT Ht H. apply replace_spec in H as (_ & H). destruct (newest_trial _ t _) as [y|] eqn:Ey; [|by destruct H as [_ ->]].
  pose proof (newest_own _ _ _ _ Ey) as ->. pose proof (Ht y Ey) as Hs. apply newest_spec in Ey as (Hin & Et & _).
  destruct (is_running y) eqn:Er; destruct H as [_ ->]; [|done]. by apply close_ok.
Qed.

Lemma start_ok t d actor g m at_ s x s' :
  trials_ok (trials_of s) -> timely (rls (wallet s)) (instant_of at_ s) (trials_of s) ->
  (forall y, In y (trials_of s) -> tr_id y < ids (wallet s) 0) ->
  start_trial t d actor g m at_ s = Ok (x, s') -> trials_ok (trials_of s').
Proof.
  intros HT Ht Hid H. apply start_spec in H as (-> & W & Er & E & _ & _ & Hno & _ & ->).
  injection E as E1 E2 E3 E4 E5. apply open_ok; rewrite ?E1, ?E2, ?E4; done.
Qed.

Lemma frames_enqueue_view job p : frames view (enqueue job p).
Proof. by apply frames_enqueue. Qed.
Lemma frames_enqueue_once_view job p k : frames view (enqueue_once job p k).
Proof. by apply frames_enqueue_once. Qed.

Lemma frames_seconds t y : forall s n s', trial_seconds_used t y s = Ok (n, s') -> s' = s.
Proof. intros s n s' H. apply bind_ok in H as (r & s1 & E & H). apply gets_ok in E as [-> ->]. by apply gets_ok in H as [_ ->]. Qed.

Lemma minutes_ok t y n s b s' :
  trials_ok (trials_of s) -> due (rls (wallet s)) n (trials_of s) ->
  end_if_minutes_used engine is_developer_workspace t y n s = Ok (b, s') -> trials_ok (trials_of s').
Proof.
  intros HT Ht H. unfold end_if_minutes_used in H. destruct (free_minutes y); [|by apply ret_ok in H as [_ ->]].
  apply bind_ok in H as (u & s1 & E & H). apply frames_seconds in E as ->.
  destruct (_ <? _); [by apply ret_ok in H as [_ ->]|].
  apply bind_ok in H as (x & s1 & E & H). apply end_ok in E; [|done|done].
  apply bind_ok in H as (q & s2 & E2 & H). apply ret_ok in H as [_ ->]. apply frames_enqueue_once_view in E2.
  unfold trials_of. unfold view in E2. injection E2 as _ -> _ _. done.
Qed.

Lemma close_minutes_ok t n s b s' :
  trials_ok (trials_of s) -> due (rls (wallet s)) n (trials_of s) ->
  close_if_minutes_used engine is_developer_workspace t n s = Ok (b, s') -> trials_ok (trials_of s').
Proof.
  intros HT Ht H. apply bind_ok in H as (y & s1 & E & H). apply read_trial_ok in E as [-> _].
  destruct y as [y|]; [|by apply ret_ok in H as [_ ->]].
  destruct (is_active n y); [by eapply minutes_ok|by apply ret_ok in H as [_ ->]].
Qed.

(** The sweep ends an overrun trial at the end it was given, not at the sweep. *)
Lemma sweep_ok t n s b s' :
  trials_ok (trials_of s) -> due (rls (wallet s)) n (trials_of s) ->
  close_if_expired engine is_developer_workspace t n s = Ok (b, s') -> trials_ok (trials_of s').
Proof.
  intros HT Ht H. apply bind_ok in H as (y & s1 & E & H). apply read_trial_ok in E as [-> Ey].
  destruct y as [y|]; [|by apply ret_ok in H as [_ ->]].
  destruct (is_running y) eqn:Er; simpl in H; [|by apply ret_ok in H as [_ ->]].
  destruct (n <? ends_at y) eqn:En; [by eapply minutes_ok|].
  apply bind_ok in H as (x & s1 & E & H). apply ret_ok in H as [_ ->]. eapply end_ok; [done| |exact E].
  intros z Hz. simpl. symmetry in Ey. pose proof (newest_own _ _ _ _ Ey) as ->. assert (z = y) as -> by congruence.
  apply newest_spec in Hz as (Hin & _). assert (W : trial_wf y) by by apply HT. pose proof (tf_span _ W). lia.
Qed.


Lemma frames_request t why : frames view (request_tenant_erasure t why).
Proof.
  unfold request_tenant_erasure, redrive_if_stalled, assert_erasable, own_org, session_tenant, txn_now, read. frames.
Qed.

(** What the nightly sweep does to an ended trial: nothing before the erasure is due or
    after it was filed, a report while the account is not closed, and else one filing. *)
Lemma file_spec t n s o s' :
  file_erasure_if_due t n s = Ok (o, s') ->
  (o <> Some Filed /\ s' = s)
  \/ (o = Some Filed /\ t = rls (wallet s) /\ exists y e,
        newest_trial t t (trials_of s) = Some y /\ is_running y = false
        /\ erase_after y = Some e /\ e <= n /\ erasure_filed_at y = None
        /\ (exists g, In g (organizations (Payments.account s)) /\ org_id g = t /\ org_status g = REQUIRED_STATUS)
        /\ view s' = (t, update (fun x => (tr_tenant x =? t) && by_id tr_id (tr_id y) x) (filed n) (trials_of s),
                      organizations (Payments.account s), go_live_guides (Payments.account s))).
Proof.
  intros H. apply bind_ok in H as (y & s1 & E & H). apply read_trial_ok in E as [-> Ey]. symmetry in Ey.
  destruct y as [y|]; [|apply ret_ok in H as [-> ->]; by left].
  destruct (erase_after y) as [e|] eqn:Ee; [|apply ret_ok in H as [-> ->]; by left].
  destruct (erasure_filed_at y) eqn:Ef; [apply ret_ok in H as [-> ->]; by left|].
  destruct (is_running y || _) eqn:Er; [apply ret_ok in H as [-> ->]; by left|].
  apply bind_ok in H as (g & s1 & E & H). apply bind_ok in E as (r & s2 & Eg & E). apply gets_ok in Eg as [-> ->].
  apply gets_ok in E as [Eg ->]. symmetry in Eg. destruct g as [g|]; simpl in H; [|apply ret_ok in H as [-> ->]; by left].
  destruct (String.eqb_spec (org_status g) REQUIRED_STATUS) as [Hs|]; simpl in H; [|apply ret_ok in H as [-> ->]; by left].
  right. apply bind_ok in H as (q & s1 & E & H). apply frames_request in E.
  apply bind_ok in H as ([] & s2 & E2 & H). apply ret_ok in H as [-> ->].
  pose proof (newest_own _ _ _ _ Ey) as ->. split; [done|]. split; [done|]. exists y, e. apply orb_false_iff in Er as [Er Hn].
  repeat (split; [done||lia|]). split.
  - exists g. assert (Hg : In g (select (mine org_id (rls (wallet s)) (rls (wallet s))) (organizations (Payments.account s)))).
    { destruct (select _ _); [done|]. injection Eg as ->. by left. }
    apply select_In in Hg as [Hg Hm]. unfold mine in Hm. repeat split; [done|lia|done].
  - apply bind_ok in E2 as (n' & s3 & E3 & E2). apply ret_ok in E3 as [-> ->].
    apply bind_ok in E2 as (r & s3 & E3 & E2). apply gets_ok in E3 as [-> ->]. apply modify_ok in E2 as ->.
    unfold view in *. injection E as E1 E2 E3 E4. simpl. by rewrite E1, E2, E3, E4.
Qed.

Lemma file_ok t n s o s' :
  trials_ok (trials_of s) -> file_erasure_if_due t n s = Ok (o, s') -> trials_ok (trials_of s').
Proof.
  intros HT H. apply file_spec in H as [[_ ->]|(_ & _ & y & e & Ey & Er & Ee & _ & _ & _ & V)]; [done|].
  injection V as _ V _ _. unfold trials_of at 1. rewrite V. apply newest_spec in Ey as (Hin & Et & _).
  apply edit_ok; [split; try done| |done].
  intros x Hx Hp W. unfold by_id in Hp.
  assert (x = y) as -> by (apply (pk_unique tr_id (trials_of s)); [apply HT|done|done|lia]).
  split; try apply W. intros _. split; [exact Er|]. simpl. by rewrite Ee.
Qed.
End Operations.

End Trials.
