(* ===== verification/FirstPayment.v ===== *)
(** * An account's first payment, and the doors to a trial

    apps/api/billing/first_payment.py and the handlers of billing/trial_routes.py.  The
    first payment at or above the minimum marks the account paid, once; it converts a
    running trial or keeps the data of an ended one, refreshes the agents, queues the
    account's workspace and owes the owner the go-live guide.  A super admin's and an
    operator's conversion are the other doors.  The development's payments are proved
    against the interface [FirstPayment]; this file discharges it. *)

From Stdlib Require Import ZArith Lia List QArith Lqa.
From stdpp Require Import base list strings relations.
From S2P Require Import Prelude PyDecimal Sql PyTime Outbox AuditLog WalletDb RateCard Lots Ledger Wallet Envelope Payments Account Caps Workspaces Trials.

Local Open Scope string_scope.
Local Open Scope list_scope.
Local Open Scope Z_scope.
Local Open Scope tx_scope.

Import Ledger Wallet Envelope Payments Account Caps Trials.

Module FirstPayment.

Definition MIN_TOPUP_INR : Q := 100.
Definition OPERATOR_CONVERSION : string := "operator_conversion".
Definition COMPLIMENTARY : string := "complimentary".
Definition COMPLIMENTARY_REASON : string := "Made a paid account by a super admin, without a payment".

Definition is_some {X} (x : option X) : bool := match x with Some _ => true | None => false end.

Definition has_paid (tenant_id : uuid) : tx platform bool :=
  o ← own_org tenant_id ;
  ret (match o with Some o => is_some (first_paid_at o) | None => false end).

Definition stamped (via : string) (at_ : instant) (o : organization) : organization :=
  Organization (org_id o) (org_status o) (deleted_at o) (Some at_) (Some via) (first_paid_reason o).
(** [UPDATE ... WHERE id = :tid AND first_paid_at IS NULL RETURNING id]. *)
Definition claim (tenant_id : uuid) (via : string) (at_ : instant) : tx platform bool :=
  r ← session_tenant ;
  t ← read organizations ;
  let p o := mine org_id r tenant_id o && negb (is_some (first_paid_at o)) in
  write (with_orgs (update p (stamped via at_) t)) ;;
  ret (existsb p t).

Definition owe_go_live_guide (tenant_id : uuid) (at_ : instant) : tx platform unit :=
  i ← uuid7 ;
  on_wallet (own_tenant tenant_id) ;;
  t ← read go_live_guides ;
  if existsb (fun g => gd_tenant g =? tenant_id) t then ret tt
  else write (with_guides (t ++ [Guide i tenant_id at_])).

Definition without_erasure (x : trial) : trial :=
  Trial (tr_id x) (tr_tenant x) (days x) (started_at x) (ends_at x) (tr_status x) (ended_at x) (ended_reason x)
    None (erasure_filed_at x) (started_by x) (free_minutes x).
(** [UPDATE tenant_trials SET erase_after = NULL WHERE id = :id]. *)
Definition keep_data (i : uuid) : tx platform unit :=
  r ← session_tenant ;
  write (fun a => with_trials (update (fun x => (tr_tenant x =? r) && by_id tr_id i x) without_erasure (tenant_trials a)) a).

Section Doors.
Context (engine : string) (is_developer_workspace : string -> bool).
(** The audit log's HMAC and [json.dumps], with its active key. *)
Context (hmac_hex : string -> string -> string) (dumps : Audit.payload -> string) (audit_key : string).

(** A trial that ended without a sale, with its erasure pending. *)
Definition erasure_pending (t : trial) : bool :=
  negb (is_running t) && is_some (erase_after t) && negb (is_some (erasure_filed_at t)).

Definition unlock (tenant_id : uuid) (n : instant) (trial_reason : string) : tx platform (bool * bool) :=
  t ← read_trial tenant_id ;
  let converting := match t with Some t => is_running t | None => false end in
  (if converting
   then end_trial engine is_developer_workspace tenant_id TRIAL_CONVERTED trial_reason (Some n) ;; ret tt
   else match t with
        | Some t => if is_some (erase_after t) && negb (is_some (erasure_filed_at t)) then keep_data (tr_id t) else ret tt
        | None => ret tt
        end) ;;
  (match t with
   | Some t => if negb (is_running t)
               then Workspaces.refresh_agents_after_payment is_developer_workspace tenant_id "first_payment" ;; ret tt
               else ret tt
   | None => ret tt
   end) ;;
  workspace_owed ← (if converting
                    then w ← Workspaces.read_workspace_state tenant_id ;
                         ret (String.eqb (Workspaces.status w) "pending")
                    else Workspaces.queue_workspace_provisioning engine is_developer_workspace tenant_id false) ;
  owe_go_live_guide tenant_id n ;;
  ret (converting, workspace_owed).

Definition audit_paid (tenant_id : uuid) : tx platform unit :=
  Payments.audit_system hmac_hex dumps audit_key tenant_id "account.first_payment" "organizations"
    (Envelope.Envelope.uuid_text tenant_id) None.

Definition on_payment_credited (tenant_id : uuid) (amount_inr : Q) (via : string) (at_ : option instant) : tx platform bool :=
  if dlt amount_inr MIN_TOPUP_INR then ret false
  else
    n ← or_now at_ ;
    first ← claim tenant_id via n ;
    if negb first then ret false
    else
      unlock tenant_id n PAID_REASON ;;
      audit_paid tenant_id ;;
      ret true.

Definition with_reason (reason : string) (o : organization) : organization :=
  Organization (org_id o) (org_status o) (deleted_at o) (first_paid_at o) (first_paid_via o) (Some reason).
Definition on_complimentary_conversion (tenant_id : uuid) (reason : string) (at_ : option instant) :
    tx platform (option (bool * bool)) :=
  n ← or_now at_ ;
  first ← claim tenant_id COMPLIMENTARY n ;
  if negb first then ret None
  else
    r ← session_tenant ;
    write (fun a => with_orgs (update (mine org_id r tenant_id) (with_reason reason) (organizations a)) a) ;;
    unlocked ← unlock tenant_id n COMPLIMENTARY_REASON ;
    ret (Some unlocked).

Definition on_operator_conversion (tenant_id : uuid) (at_ : option instant) : tx platform bool :=
  n ← or_now at_ ;
  first ← claim tenant_id OPERATOR_CONVERSION n ;
  if negb first then ret false
  else owe_go_live_guide tenant_id n ;; audit_paid tenant_id ;; ret true.

(** True when the operator is paged. *)
Definition alert_payment_reversed (tenant_id : uuid) : tx platform bool :=
  paid ← has_paid tenant_id ; ret (if negb paid then false else true).

(** ** The trial routes

    [open_trial] and [close_trial], past their step-up confirmation, and
    [start_new_account_trial] of trials.py with the settings' terms. *)
Definition TRIAL_STARTED_NOTICE_JOB : string := "notify_trial_started".

Definition audit_trial (action : string) (actor : option Audit.principal) (actor_type : option string)
    (tenant_id : uuid) (i : uuid) (ip : option string) : tx platform unit :=
  e ← uuid7 ;
  t ← utc_now ;
  modify (fun s => with_audit
    (Audit.write_audit hmac_hex dumps audit_key e t action actor actor_type (Some tenant_id)
       (Some "tenant_trials") (Some (Envelope.Envelope.uuid_text i)) ip (audit_log s)) s).

Definition assert_tenant_exists (tenant_id : uuid) : tx platform unit :=
  o ← own_org tenant_id ;
  if match o with Some o => is_some (deleted_at o) | None => true end
  then raise (Problem NotFound "not_found") else ret tt.

Definition open_trial (tenant_id : uuid) (principal : Audit.principal) (days_ erasure_grace_days : Z)
    (free_minutes_ : option Z) (ip : option string) : tx platform trial :=
  at_ ← utc_now ;
  assert_tenant_exists tenant_id ;;
  replace_open_trial tenant_id (Some at_) ;;
  x ← start_trial tenant_id days_ (Audit.user_id principal) erasure_grace_days free_minutes_ (Some at_) ;
  audit_trial "trial.started" (Some principal) None tenant_id (tr_id x) ip ;;
  enqueue_once TRIAL_STARTED_NOTICE_JOB [("tenant_id", JId tenant_id); ("trial_id", JId (tr_id x))]
    ("trial_started:" +:+ Envelope.Envelope.uuid_text (tr_id x)) ;;
  ret x.

Definition close_trial (tenant_id : uuid) (principal : Audit.principal) (may_comp : bool) (outcome reason : string)
    (ip : option string) : tx platform trial :=
  if String.eqb outcome TRIAL_CONVERTED && negb may_comp then raise (Problem Permission "forbidden")
  else
    at_ ← utc_now ;
    assert_tenant_exists tenant_id ;;
    x ← end_trial engine is_developer_workspace tenant_id outcome reason (Some at_) ;
    (if String.eqb outcome TRIAL_CONVERTED then on_operator_conversion tenant_id (Some at_) ;; ret tt else ret tt) ;;
    audit_trial "trial.ended" (Some principal) None tenant_id (tr_id x) ip ;;
    ret x.

Definition start_new_account_trial (self_serve_trial_days self_serve_trial_free_minutes : Z) (tenant_id : uuid)
    (actor : option Audit.principal) (ip : option string) : tx platform trial :=
  x ← start_trial tenant_id self_serve_trial_days None DEFAULT_ERASURE_GRACE_DAYS
        (Some self_serve_trial_free_minutes) None ;
  audit_trial "trial.started" actor (match actor with Some _ => None | None => Some "user" end) tenant_id (tr_id x) ip ;;
  ret x.
End Doors.

(** ** What the doors leave alone *)
Section Quiet.
Context (engine : string) (is_developer_workspace : string -> bool).
Context (hmac_hex : string -> string -> string) (dumps : Audit.payload -> string) (audit_key : string).
Implicit Types s : platform.

Lemma keeps_reset t : keeps (reset_client_counters t).
Proof.
  unfold reset_client_counters, recompute_capped, arm_zero_ceiling, caps_now, current_billing_month, Caps.session_tenant, txn_now, read.
  keeps.
Qed.
#[local] Hint Resolve keeps_reset Workspaces.keeps_provisioning Workspaces.keeps_refresh : keeps.

Lemma keeps_end t outcome why at_ : keeps (end_trial engine is_developer_workspace t outcome why at_).
Proof. unfold end_trial, or_now, close_row, read_trial, session_tenant, read. keeps. Qed.
#[local] Hint Resolve keeps_end : keeps.

Lemma keeps_guide t n : keeps (owe_go_live_guide t n).
Proof. unfold owe_go_live_guide, read. keeps. Qed.

Lemma keeps_sale t why n (b : bool) y : keeps (
  if b then end_trial engine is_developer_workspace t TRIAL_CONVERTED why (Some n) ;; ret tt
  else match y with
       | Some y => if is_some (erase_after y) && negb (is_some (erasure_filed_at y)) then keep_data (tr_id y) else ret tt
       | None => ret tt
       end).
Proof. unfold keep_data, session_tenant. keeps. Qed.

Lemma keeps_unlock t n why : keeps (unlock engine is_developer_workspace t n why).
Proof.
  unfold unlock, keep_data, read_trial, Workspaces.read_workspace_state, Workspaces.session_tenant, session_tenant, read.
  pose proof keeps_guide. keeps.
Qed.

Lemma keeps_claim t via n : keeps (claim t via n).
Proof. unfold claim, session_tenant, read. keeps. Qed.
Lemma keeps_or_now at_ : keeps (or_now at_).
Proof. unfold or_now. keeps. Qed.

Lemma undisturbed_quiet s s' : undisturbed s s' -> quiet s s'.
Proof. by intros (A & B & _). Qed.

Lemma first_payment_quiet t amount via at_ s b s' :
  on_payment_credited engine is_developer_workspace hmac_hex dumps audit_key t amount via at_ s = Ok (b, s') ->
  quiet s s'.
Proof.
  unfold on_payment_credited. destruct (dlt _ _); intros H; [apply ret_ok in H as [_ ->]; apply undisturbed_quiet, undisturbed_refl|].
  apply bind_ok in H as (n & s1 & E & H). apply keeps_or_now, undisturbed_quiet in E. eapply quiet_trans; [exact E|].
  apply bind_ok in H as (c & s2 & E2 & H). apply keeps_claim, undisturbed_quiet in E2. eapply quiet_trans; [exact E2|].
  destruct c; simpl in H; [|apply ret_ok in H as [_ ->]; apply undisturbed_quiet, undisturbed_refl].
  apply bind_ok in H as (u & s3 & E3 & H). apply keeps_unlock, undisturbed_quiet in E3. eapply quiet_trans; [exact E3|].
  apply bind_ok in H as (v & s4 & E4 & H). apply audit_system_quiet in E4. by apply ret_ok in H as [_ ->].
Qed.

(** The interface the payments are proved against. *)
#[export] Instance first_payment : Payments.FirstPayment account := {
  Payments.on_payment_credited t amount via :=
    on_payment_credited engine is_developer_workspace hmac_hex dumps audit_key t amount via None;
  Payments.on_payment_credited_quiet t amount via s b s' := first_payment_quiet t amount via None s b s' }.
End Quiet.

(** ** What the doors do *)
Section Specs.
Context (engine : string) (is_developer_workspace : string -> bool).
Context (hmac_hex : string -> string -> string) (dumps : Audit.payload -> string) (audit_key : string).
Implicit Types (s : platform) (T : list trial) (O : list organization).

Definition orgs_of s : list organization := organizations (Payments.account s).
Definition guides_of s : list guide := go_live_guides (Payments.account s).

Lemma view_split s s' :
  view s' = view s -> rls (wallet s') = rls (wallet s) /\ trials_of s' = trials_of s
  /\ orgs_of s' = orgs_of s /\ guides_of s' = guides_of s.
Proof. unfold view. intros H. by injection H. Qed.

Definition unpaid (r : uuid) (o : organization) : bool := (org_id o =? r) && negb (is_some (first_paid_at o)).

Lemma claim_spec t via n s b s' :
  claim t via n s = Ok (b, s') ->
  view s' = (rls (wallet s), trials_of s,
             (if b then update (unpaid (rls (wallet s))) (stamped via n) (orgs_of s) else orgs_of s), guides_of s)
  /\ (b = true -> t = rls (wallet s) /\ exists o, In o (orgs_of s) /\ org_id o = t /\ first_paid_at o = None)
  /\ (b = false -> s' = s /\ (t = rls (wallet s) -> forall o, In o (orgs_of s) -> org_id o = t -> first_paid_at o <> None)).
Proof.
  unfold claim. intros H. apply bind_ok in H as (r & s1 & E & H). apply gets_ok in E as [-> ->].
  apply bind_ok in H as (O & s1 & E & H). apply gets_ok in E as [-> ->].
  apply bind_ok in H as ([] & s1 & E & H). apply modify_ok in E. apply ret_ok in H as [-> ->].
  set (p := fun o => _) in *. fold (orgs_of s) in *.
  destruct (existsb p (orgs_of s)) eqn:Ep.
  - apply existsb_exists in Ep as (o & Ho & Hp). unfold p, mine in Hp.
    assert (Ht : t = rls (wallet s)) by lia. subst s1. split; [|split; [|done]].
    + assert (Eu : update p (stamped via n) (orgs_of s) = update (unpaid (rls (wallet s))) (stamped via n) (orgs_of s)).
      { apply map_ext. intros x. unfold p, unpaid, mine. subst t. by rewrite andb_diag. }
      unfold view. simpl. by rewrite Eu.
    + intros _. split; [done|]. exists o. split; [done|]. split; [lia|]. destruct (first_paid_at o); [simpl in Hp; lia|done].
  - assert (Hp : forall o, In o (orgs_of s) -> p o = false).
    { intros o Ho. destruct (p o) eqn:E'; [|done]. exfalso. assert (existsb p (orgs_of s) = true); [|congruence].
      apply existsb_exists. by exists o. }
    rewrite (update_none p) in E by done.
    assert (Es : s1 = s) by (subst s1; destruct s as [? ? ? ? ? ? []]; reflexivity).
    split; [by rewrite Es|]. split; [done|]. intros _. split; [done|].
    intros -> o Ho Hi Hn. specialize (Hp o Ho). unfold p, mine in Hp. rewrite Hn, Hi, Z.eqb_refl in Hp. done.
Qed.

(** An audit entry changes the audit log alone. *)
Lemma frames_audit t a ot oi ip : frames Payments.account (Payments.audit_system hmac_hex dumps audit_key t a ot oi ip).
Proof.
  unfold Payments.audit_system. apply frames_bind; [by apply frames_uuid7|intros i].
  apply frames_bind; [by apply frames_utc_now|intros n]. intros s u s' H. by apply modify_ok in H as ->.
Qed.

(** The account owns a guide from [n], or had one. *)
Definition guided (t : uuid) (n : instant) (G G' : list guide) : Prop :=
  (exists g, In g G /\ gd_tenant g = t) /\ G' = G \/ exists i, G' = G ++ [Guide i t n].

Lemma guide_spec t n s u s' :
  owe_go_live_guide t n s = Ok (u, s') ->
  t = rls (wallet s) /\ rls (wallet s') = rls (wallet s) /\ trials_of s' = trials_of s /\ orgs_of s' = orgs_of s
  /\ workspaces (Payments.account s') = workspaces (Payments.account s)
  /\ guided t n (guides_of s) (guides_of s').
Proof.
  unfold owe_go_live_guide. intros H. apply bind_ok in H as (i & s1 & E & H). injection E as <- <-.
  apply bind_ok in H as (v & s1 & E & H).
  assert (t = rls (wallet s) /\ s1 = with_wallet (drop_id (wallet s)) s) as [Et ->].
  { unfold on_wallet, own_tenant, bind, gets in E. simpl in E. destruct (_ =? _) eqn:Et; [|done].
    injection E as <- <-. split; [lia|done]. }
  split; [done|].
  apply bind_ok in H as (G & s1 & E' & H). apply gets_ok in E' as [-> ->].
  destruct (existsb _ _) eqn:Eg in H.
  - apply ret_ok in H as [-> ->]. repeat (split; [done|]). left. split; [|done].
    apply existsb_exists in Eg as (g & Hg & Eg). exists g. split; [done|lia].
  - apply modify_ok in H as ->. repeat (split; [done|]). right. by eexists.
Qed.

Definition has_workspace (t : uuid) s : Prop := exists x, In x (workspaces (Payments.account s)) /\ ws_tenant x = t.

Lemma read_ws_ok t s w s' :
  Workspaces.read_workspace_state t s = Ok (w, s') -> s' = s /\ (w = Workspaces.NOT_PROVISIONED \/ has_workspace t s).
Proof.
  intros H. apply bind_ok in H as (r & s1 & E & H). apply gets_ok in E as [-> ->]. apply gets_ok in H as [-> ->].
  split; [done|]. destruct (select _ _) as [|x l] eqn:E; [by left|right]. exists x.
  assert (Hx : In x (select (mine ws_tenant (rls (wallet s)) t) (workspaces (Payments.account s)))) by (rewrite E; by left).
  apply select_In in Hx as [Hx Hm]. unfold mine in Hm. split; [done|lia].
Qed.

(** Owing the workspace leaves the account with one, in whatever state. *)
Lemma provision_spec t reopen s b s' :
  Workspaces.engine_has_workspaces engine = true ->
  Workspaces.queue_workspace_provisioning engine is_developer_workspace t reopen s = Ok (b, s') -> has_workspace t s'.
Proof.
  intros He H. unfold Workspaces.queue_workspace_provisioning in H. rewrite He in H. simpl in H.
  apply bind_ok in H as (w & s1 & E & H). apply read_ws_ok in E as [-> Hw].
  destruct (Workspaces.active _ w) eqn:Ea; [apply ret_ok in H as [_ ->]; by destruct Hw as [->|]|].
  apply bind_ok in H as (r & s1 & E & H). apply gets_ok in E as [-> ->].
  destruct (_ && _) eqn:Ec; [apply ret_ok in H as [_ ->]; destruct Hw as [->|]; done|].
  apply bind_ok in H as ([] & s1 & _ & H). apply bind_ok in H as ([] & s2 & E & H).
  apply bind_ok in H as ([] & s3 & E3 & H). apply ret_ok in H as [_ ->].
  assert (Hw3 : workspaces (Payments.account s3) = workspaces (Payments.account s2)).
  { by eapply (frames_enqueue (fun s => workspaces (Payments.account s))); [|exact E3]. }
  unfold has_workspace. rewrite Hw3. clear E3 Hw3 Hw Ea Ec. unfold Workspaces.insert_workspace in E.
  apply bind_ok in E as (i & s4 & E4 & E). apply bind_ok in E as ([] & s5 & E5 & E).
  apply bind_ok in E as (W & s6 & E6 & E). apply gets_ok in E6 as [-> ->].
  destruct (existsb _ _) eqn:Ex.
  - apply ret_ok in E as [_ ->]. apply existsb_exists in Ex as (x & Hx & Ex). exists x. split; [done|lia].
  - apply modify_ok in E as ->. eexists. split; [apply in_or_app; right; by left|done].
Qed.

(** The trials once a sale is recorded at [n]: a running one is converted, one that ended
    with the erasure pending keeps the client's data. *)
Definition after_sale (r : uuid) (n : instant) (why : string) T : list trial :=
  match newest_trial r r T with
  | None => T
  | Some y =>
      if is_running y then close_edit r (tr_id y) TRIAL_CONVERTED n why None T
      else if is_some (erase_after y) && negb (is_some (erasure_filed_at y))
           then update (fun x => (tr_tenant x =? r) && by_id tr_id (tr_id y) x) without_erasure T
           else T
  end.

Lemma end_owes_workspace t why at_ s x s' :
  Workspaces.engine_has_workspaces engine = true ->
  end_trial engine is_developer_workspace t TRIAL_CONVERTED why at_ s = Ok (x, s') -> has_workspace t s'.
Proof.
  intros He H. unfold end_trial in H. apply bind_ok in H as (n & s1 & _ & H). simpl in H.
  apply bind_ok in H as (y & s2 & _ & H). destruct y as [y|]; [|done]. destruct (is_running y); [|done]. simpl in H.
  apply bind_ok in H as ([] & s3 & _ & H). apply bind_ok in H as ([] & s4 & _ & H).
  apply bind_ok in H as (u & s5 & E & H). apply ret_ok in H as [_ ->].
  apply bind_ok in E as (v & s6 & _ & E). apply bind_ok in E as (w & s7 & E & H). apply ret_ok in H as [_ ->].
  by eapply provision_spec.
Qed.

Lemma has_workspace_eq t s s' :
  workspaces (Payments.account s') = workspaces (Payments.account s) -> has_workspace t s -> has_workspace t s'.
Proof. unfold has_workspace. by intros ->. Qed.

(** The first stage: the trial's. *)
Lemma sale_spec t n why s y u s' :
  newest_trial (rls (wallet s)) t (trials_of s) = y -> t = rls (wallet s) ->
  (if match y with Some y => is_running y | None => false end
   then end_trial engine is_developer_workspace t TRIAL_CONVERTED why (Some n) ;; ret tt
   else match y with
        | Some y => if is_some (erase_after y) && negb (is_some (erasure_filed_at y)) then keep_data (tr_id y) else ret tt
        | None => ret tt
        end) s = Ok (u, s') ->
  view s' = (rls (wallet s), after_sale t n why (trials_of s), orgs_of s, guides_of s).
Proof.
  intros Ey -> H. unfold after_sale. rewrite Ey. destruct y as [y|]; [|by apply ret_ok in H as [_ ->]].
  destruct (is_running y).
  - apply bind_ok in H as (x & s1 & E & H). apply ret_ok in H as [_ ->].
    apply end_spec in E as (_ & z & Ez & _ & _ & V). rewrite Ey in Ez. injection Ez as <-. exact V.
  - destruct (_ && _); [|by apply ret_ok in H as [_ ->]].
    unfold keep_data in H. apply bind_ok in H as (r & s1 & E & H). apply gets_ok in E as [-> ->]. by apply modify_ok in H as ->.
Qed.

Lemma unlock_spec t n why s c s' :
  unlock engine is_developer_workspace t n why s = Ok (c, s') ->
  t = rls (wallet s) /\ rls (wallet s') = rls (wallet s)
  /\ trials_of s' = after_sale t n why (trials_of s) /\ orgs_of s' = orgs_of s /\ guided t n (guides_of s) (guides_of s')
  /\ (Workspaces.engine_has_workspaces engine = true -> has_workspace t s').
Proof.
  unfold unlock. intros H. apply bind_ok in H as (y & s1 & E & H). apply read_trial_ok in E as [-> Ey]. symmetry in Ey.
  apply bind_ok in H as ([] & s1 & E1 & H). apply bind_ok in H as ([] & s2 & E2 & H).
  apply bind_ok in H as (w & s3 & E3 & H). apply bind_ok in H as ([] & s4 & E4 & H). apply ret_ok in H as [_ ->].
  assert (V2 : view s2 = view s1).
  { destruct y as [y|]; [|by apply ret_ok in E2 as [_ ->]]. destruct (is_running y); simpl in E2; [by apply ret_ok in E2 as [_ ->]|].
    apply bind_ok in E2 as (v & s5 & E & E2). apply ret_ok in E2 as [_ ->].
    eapply (others_view _ (Workspaces.frames_refresh _ _ _)); exact E. }
  assert (V3 : view s3 = view s2).
  { destruct (match y with Some _ => _ | None => _ end).
    - apply bind_ok in E3 as (v & s5 & E & E3). apply ret_ok in E3 as [_ ->]. by apply read_ws_ok in E as [-> _].
    - eapply (others_view _ (Workspaces.frames_provisioning _ _ _ _)); exact E3. }
  assert (V1 : rls (wallet s1) = rls (wallet s)).
  { eapply (as_rls (wallet s) (wallet s1)). eapply keeps_sale. exact E1. }
  apply view_split in V2 as (R2 & T2 & O2 & G2). apply view_split in V3 as (R3 & T3 & O3 & G3).
  apply guide_spec in E4 as (Et & R4 & T4 & O4 & W4 & G4).
  assert (Ht : t = rls (wallet s)) by congruence.
  pose proof (sale_spec t n why s y tt s1 Ey Ht E1) as V. unfold view in V.
  injection V as RV TV OV GV. fold (trials_of s1) (orgs_of s1) (guides_of s1) in TV, OV, GV.
  split; [done|]. split; [congruence|]. split; [congruence|]. split; [congruence|]. split.
  - assert (GG : guides_of s3 = guides_of s) by congruence. by rewrite GG in G4.
  - intros He. eapply has_workspace_eq; [exact W4|]. destruct y as [y|]; [destruct (is_running y)|].
    + apply bind_ok in E3 as (v & s5 & E & E3). apply ret_ok in E3 as [_ ->]. apply read_ws_ok in E as [-> _].
      simpl in E2. apply ret_ok in E2 as [_ ->]. apply bind_ok in E1 as (x & s6 & E & E1). apply ret_ok in E1 as [_ ->].
      by eapply end_owes_workspace.
    + by eapply provision_spec.
    + by eapply provision_spec.
Qed.

Lemma sale_ok t n why s :
  trials_ok (trials_of s) -> due t n (trials_of s) -> trials_ok (after_sale t n why (trials_of s)).
Proof.
  intros HT Ht. unfold after_sale. destruct (newest_trial t t (trials_of s)) as [y|] eqn:Ey; [|done].
  pose proof (Ht y Ey) as Hs. apply newest_spec in Ey as (Hin & Et & _).
  destruct (is_running y) eqn:Er; [by apply close_ok|]. destruct (_ && _) eqn:Ee; [|done].
  apply edit_ok; [split; try done| |done]. intros x Hx Hp W. unfold by_id in Hp.
  assert (x = y) as -> by (apply (pk_unique tr_id (trials_of s)); [apply HT|done|done|lia]).
  assert (Hf : erasure_filed_at y = None) by (destruct (erasure_filed_at y); [simpl in Ee; lia|done]).
  split; [apply W|apply W|apply W|done| |simpl; by rewrite Hf].
  change (is_running y = true -> @None instant <> None). congruence.
Qed.

(** After a sale nothing of the client's runs as a trial or waits to be erased. *)
Lemma sale_settles t n why T z :
  pk_ok tr_id T -> newest_trial t t (after_sale t n why T) = Some z -> is_running z = false /\ erasure_pending z = false.
Proof.
  intros Hpk. unfold after_sale. destruct (newest_trial t t T) as [y|] eqn:Ey; [|by rewrite Ey].
  pose proof (newest_spec _ _ _ Ey) as (Hin & Et & _). destruct (is_running y) eqn:Er.
  - intros Hz. eapply newest_update in Hz; [|done| |exact Ey]; [|done]. unfold by_id in Hz.
    rewrite Er, Et, !Z.eqb_refl in Hz. simpl in Hz. by subst z.
  - destruct (_ && _) eqn:Ee.
    + intros Hz. eapply newest_update in Hz; [|done| |exact Ey]; [|done]. unfold by_id in Hz.
      rewrite Et, !Z.eqb_refl in Hz. simpl in Hz. subst z. split; [exact Er|].
      unfold erasure_pending. simpl. by rewrite andb_false_r.
    + rewrite Ey. intros [= <-]. split; [done|]. unfold erasure_pending. rewrite Er. simpl. exact Ee.
Qed.

(** What the first sale, through [via] at [n], makes of the account. *)
Record sold (t : uuid) (via : string) (n : instant) (why : string) (a a' : account) : Prop := Sold {
  so_unpaid : exists o, In o (organizations a) /\ org_id o = t /\ first_paid_at o = None;
  so_paid : organizations a' = update (unpaid t) (stamped via n) (organizations a);
  so_trials : tenant_trials a' = after_sale t n why (tenant_trials a);
  so_guide : guided t n (go_live_guides a) (go_live_guides a');
  so_workspace : Workspaces.engine_has_workspaces engine = true -> exists x, In x (workspaces a') /\ ws_tenant x = t
}.

(** What on_payment_credited does, whether or not the credit is the first. *)
Lemma credited_spec t amount via at_ s b s' :
  on_payment_credited engine is_developer_workspace hmac_hex dumps audit_key t amount via at_ s = Ok (b, s') ->
  if b then
    t = rls (wallet s) /\ (MIN_TOPUP_INR <= amount)%Q
    /\ sold t via (instant_of at_ s) PAID_REASON (Payments.account s) (Payments.account s')
  else
    Payments.account s' = Payments.account s /\ audit_log s' = audit_log s
    /\ ((amount < MIN_TOPUP_INR)%Q \/ (t = rls (wallet s) -> forall o, In o (orgs_of s) -> org_id o = t -> first_paid_at o <> None)).
Proof.
  unfold on_payment_credited. destruct (dlt_spec amount MIN_TOPUP_INR) as [Hm|Hm]; intros H.
  { apply ret_ok in H as [-> ->]. split; [done|]. split; [done|by left]. }
  apply bind_ok in H as (n & s1 & E & H).
  assert (Hs1 : Payments.account s1 = Payments.account s /\ audit_log s1 = audit_log s).
  { split; [by eapply (frames_or_now Payments.account)|by eapply (frames_or_now (@audit_log account))]. }
  apply or_now_ok in E as [-> V]. apply view_split in V as (R1 & T1 & O1 & G1).
  apply bind_ok in H as (c & s2 & E2 & H). apply claim_spec in E2 as (V & Hc & Hn). destruct c; simpl in H.
  - destruct (Hc eq_refl) as (Et & o & Ho & Ei & Eo). apply bind_ok in H as (u & s3 & E3 & H).
    apply bind_ok in H as ([] & s4 & E4 & H). apply ret_ok in H as [-> ->].
    unfold view in V. injection V as R2 T2 O2 G2. fold (trials_of s2) (orgs_of s2) (guides_of s2) in T2, O2, G2.
    apply unlock_spec in E3 as (_ & R3 & T3 & O3 & G3 & W3).
    assert (Ha : Payments.account s4 = Payments.account s3) by (by eapply frames_audit). rewrite Ha.
    split; [congruence|]. split; [lra|]. split.
    + exists o. fold (orgs_of s). by rewrite <- O1.
    + fold (orgs_of s) (orgs_of s3). rewrite O3, O2, O1. congruence.
    + fold (trials_of s) (trials_of s3). congruence.
    + fold (guides_of s) (guides_of s3). assert (GG : guides_of s2 = guides_of s) by congruence. by rewrite GG in G3.
    + exact W3.
  - apply ret_ok in H as [-> ->]. destruct (Hn eq_refl) as [-> Hp]. destruct Hs1 as [-> ->]. split; [done|]. split; [done|].
    right. rewrite <- R1, <- O1. exact Hp.
Qed.

Lemma sold_is_paid t via n why a a' o :
  sold t via n why a a' -> In o (organizations a') -> org_id o = t -> first_paid_at o <> None.
Proof.
  intros S Ho Hi. rewrite (so_paid _ _ _ _ _ _ S) in Ho. apply update_In in Ho as (x & Hx & ->).
  destruct (unpaid t x) eqn:Eu; [done|]. unfold unpaid in Eu. intros En. rewrite En in Eu. simpl in Eu. lia.
Qed.

Lemma complimentary_spec t why at_ s b s' :
  on_complimentary_conversion engine is_developer_workspace t why at_ s = Ok (b, s') ->
  match b with
  | None => view s' = view s
  | Some _ =>
      t = rls (wallet s)
      /\ orgs_of s' = update (mine org_id t t) (with_reason why) (update (unpaid t) (stamped COMPLIMENTARY (instant_of at_ s)) (orgs_of s))
      /\ trials_of s' = after_sale t (instant_of at_ s) COMPLIMENTARY_REASON (trials_of s)
  end.
Proof.
  intros H. apply bind_ok in H as (n & s1 & E & H). apply or_now_ok in E as [-> V1].
  apply bind_ok in H as (c & s2 & E2 & H). apply claim_spec in E2 as (V & Hc & Hn). destruct c; simpl in H.
  - destruct (Hc eq_refl) as (Et & _). apply bind_ok in H as (r & s3 & E & H). apply gets_ok in E as [-> ->].
    apply bind_ok in H as ([] & s3 & E & H). apply modify_ok in E. apply bind_ok in H as (u & s4 & E4 & H).
    apply ret_ok in H as [-> ->]. apply unlock_spec in E4 as (Et3 & R4 & T4 & O4 & _). apply view_split in V1 as (R1 & T1 & O1 & _).
    unfold view in V. injection V as R2 T2 O2 _. fold (trials_of s2) (orgs_of s2) in T2, O2.
    assert (Er : t = rls (wallet s)) by congruence. split; [done|]. split.
    + rewrite O4. subst s3. unfold orgs_of at 1. simpl. fold (orgs_of s2). rewrite R2, R1, O2, R1, O1. by rewrite <- Er.
    + rewrite T4. subst s3. unfold trials_of at 1. simpl. fold (trials_of s2). congruence.
  - apply ret_ok in H as [-> ->]. destruct (Hn eq_refl) as [-> _]. done.
Qed.

Lemma operator_spec t at_ s b s' :
  on_operator_conversion hmac_hex dumps audit_key t at_ s = Ok (b, s') ->
  trials_of s' = trials_of s
  /\ orgs_of s' = if b then update (unpaid (rls (wallet s))) (stamped OPERATOR_CONVERSION (instant_of at_ s)) (orgs_of s) else orgs_of s.
Proof.
  intros H. apply bind_ok in H as (n & s1 & E & H). apply or_now_ok in E as [-> V1]. apply view_split in V1 as (R1 & T1 & O1 & _).
  apply bind_ok in H as (c & s2 & E2 & H). apply claim_spec in E2 as (V & _ & Hn). destruct c; simpl in H.
  - apply bind_ok in H as ([] & s3 & E3 & H). apply guide_spec in E3 as (_ & _ & T3 & O3 & _).
    apply bind_ok in H as ([] & s4 & E4 & H). apply ret_ok in H as [-> ->]. apply frames_audit in E4.
    unfold view in V. injection V as R2 T2 O2 _. fold (trials_of s2) (orgs_of s2) in T2, O2.
    unfold trials_of at 1, orgs_of at 1. rewrite E4. fold (trials_of s3) (orgs_of s3). split; congruence.
  - apply ret_ok in H as [-> ->]. by destruct (Hn eq_refl) as [-> _].
Qed.

Lemma own_org_ok t s o s' : own_org t s = Ok (o, s') -> s' = s.
Proof. intros H. apply bind_ok in H as (r & s1 & E & H). apply gets_ok in E as [-> ->]. by apply gets_ok in H as [_ ->]. Qed.

Lemma assert_tenant_ok t s u s' : assert_tenant_exists t s = Ok (u, s') -> s' = s.
Proof.
  intros H. apply bind_ok in H as (o & s1 & E & H). apply own_org_ok in E as ->. destruct (match o with Some _ => _ | None => _ end); [done|].
  by apply ret_ok in H as [_ ->].
Qed.

Lemma frames_audit_trial a p k t i ip : frames Payments.account (audit_trial hmac_hex dumps audit_key a p k t i ip).
Proof.
  unfold audit_trial. apply frames_bind; [by apply frames_uuid7|intros e].
  apply frames_bind; [by apply frames_utc_now|intros n]. intros s u s' H. by apply modify_ok in H as ->.
Qed.

(** The clock is past what is recorded for the session's tenant, and ids grow. *)
Record clocked (n : instant) s : Prop := Clocked {
  ck_times : timely (rls (wallet s)) n (trials_of s);
  ck_ids : forall k y, In y (trials_of s) -> tr_id y < ids (wallet s) k
}.

Lemma timely_close r i st n why er T : timely r n T -> timely r n (close_edit r i st n why er T).
Proof.
  intros H y' Hy Er. apply update_In in Hy as (y & Hy & ->). destruct (_ && _); [|by apply H].
  destruct (H y Hy Er) as [Hs _]. split; [done|]. simpl. intros e [= <-]. lia.
Qed.

Lemma frames_replace_orgs t at_ : frames orgs_of (replace_open_trial t at_).
Proof.
  unfold replace_open_trial, close_row, or_now, read_trial, session_tenant, reset_client_counters, recompute_capped,
    arm_zero_ceiling, caps_now, current_billing_month, Caps.session_tenant, txn_now, read.
  frames.
Qed.

Lemma keeps_replace t at_ : keeps (replace_open_trial t at_).
Proof. unfold replace_open_trial, close_row, read_trial, session_tenant, read. pose proof keeps_or_now. pose proof keeps_reset. keeps. Qed.

Lemma frames_start_orgs t d a g m at_ : frames orgs_of (start_trial t d a g m at_).
Proof. unfold start_trial, insert_trial, or_now, read_trial, session_tenant, read. frames. Qed.

Lemma replace_timely t at_ s x s' :
  clocked (instant_of at_ s) s -> replace_open_trial t at_ s = Ok (x, s') -> clocked (instant_of at_ s) s'.
Proof.
  intros [Ht Hid] H. destruct (keeps_replace _ _ _ _ _ H) as (Ha & _). destruct (as_ids _ _ Ha) as [k Hk].
  apply replace_spec in H as (Hr & H).
  assert (HT : trials_of s' = trials_of s \/ exists i st why er, trials_of s' = close_edit (rls (wallet s)) i st (instant_of at_ s) why er (trials_of s)).
  { destruct (newest_trial _ _ _) as [y|]; [|left; apply H]. destruct (is_running y); [right|left; apply H].
    destruct H as [_ H]. do 4 eexists. exact H. }
  split.
  - rewrite Hr. destruct HT as [->|(i & st & why & er & ->)]; [done|by apply timely_close].
  - intros j y Hy. rewrite Hk. destruct HT as [E|(i & st & why & er & E)]; rewrite E in Hy; [by apply Hid|].
    apply update_In in Hy as (y0 & Hy0 & ->). pose proof (Hid (k + j)%nat y0 Hy0). by destruct (_ && _).
Qed.

Lemma open_trial_ok t p d g m ip s x s' :
  trials_ok (trials_of s) -> clocked (ticks (wallet s) 0) s ->
  open_trial hmac_hex dumps audit_key t p d g m ip s = Ok (x, s') -> trials_ok (trials_of s') /\ orgs_of s' = orgs_of s.
Proof.
  intros HT Hc H. apply bind_ok in H as (n & s1 & E & H). injection E as <- <-. set (n := ticks (wallet s) 0) in *.
  apply bind_ok in H as ([] & s2 & E & H). apply assert_tenant_ok in E as ->.
  set (s1 := with_wallet _ s) in H. assert (Hc1 : clocked n s1) by (destruct Hc; by split).
  apply bind_ok in H as (y & s2 & E2 & H). pose proof (replace_timely t (Some n) s1 y s2 Hc1 E2) as Hc2. simpl in Hc2.
  pose proof (frames_replace_orgs _ _ _ _ _ E2) as O2.
  apply replace_ok in E2; [|done|by apply timely_due, Hc1].
  apply bind_ok in H as (z & s3 & E3 & H). pose proof (frames_start_orgs _ _ _ _ _ _ _ _ _ E3) as O3.
  apply start_ok in E3; [|done|apply Hc2|apply Hc2].
  apply bind_ok in H as ([] & s4 & E4 & H). apply frames_audit_trial in E4.
  apply bind_ok in H as (q & s5 & E5 & H). apply ret_ok in H as [-> ->]. apply frames_enqueue_once_view, view_split in E5 as (_ & T5 & O5 & _).
  assert (T4 : trials_of s4 = trials_of s3) by (unfold trials_of; by rewrite E4).
  assert (O4 : orgs_of s4 = orgs_of s3) by (unfold orgs_of; by rewrite E4).
  change (orgs_of s1) with (orgs_of s) in O2. split; [by rewrite T5, T4|congruence].
Qed.

Lemma new_account_ok d m t a ip s x s' :
  trials_ok (trials_of s) -> clocked (ticks (wallet s) 0) s ->
  start_new_account_trial hmac_hex dumps audit_key d m t a ip s = Ok (x, s') ->
  trials_ok (trials_of s') /\ orgs_of s' = orgs_of s.
Proof.
  intros HT Hc H. apply bind_ok in H as (z & s1 & E & H). pose proof (frames_start_orgs _ _ _ _ _ _ _ _ _ E) as O.
  apply start_ok in E; [|done|apply Hc|apply Hc]. apply bind_ok in H as ([] & s2 & E2 & H). apply ret_ok in H as [-> ->].
  apply frames_audit_trial in E2. unfold trials_of at 1, orgs_of at 1. by rewrite E2.
Qed.

Lemma close_trial_ok t p c outcome why ip s x s' :
  trials_ok (trials_of s) -> due (rls (wallet s)) (ticks (wallet s) 0) (trials_of s) ->
  close_trial engine is_developer_workspace hmac_hex dumps audit_key t p c outcome why ip s = Ok (x, s') ->
  trials_ok (trials_of s')
  /\ (orgs_of s' = orgs_of s \/ exists n, orgs_of s' = update (unpaid (rls (wallet s))) (stamped OPERATOR_CONVERSION n) (orgs_of s)).
Proof.
  intros HT Hc H. unfold close_trial in H. destruct (_ && _); [done|].
  apply bind_ok in H as (n & s1 & E & H). injection E as <- <-. set (n := ticks (wallet s) 0) in *.
  apply bind_ok in H as ([] & s2 & E & H). apply assert_tenant_ok in E as ->. set (s1 := with_wallet _ s) in H.
  apply bind_ok in H as (y & s2 & E2 & H). pose proof E2 as V. apply end_spec in V as (_ & z & _ & _ & _ & V).
  unfold view in V. injection V as R2 _ O2 _. apply end_ok in E2; [|done|done].
  apply bind_ok in H as ([] & s3 & E3 & H). apply bind_ok in H as ([] & s4 & E4 & H). apply ret_ok in H as [-> ->].
  apply frames_audit_trial in E4. unfold trials_of at 1, orgs_of at 1 3. rewrite E4. fold (trials_of s3) (orgs_of s3).
  fold (orgs_of s2) in O2. change (organizations (Payments.account s1)) with (orgs_of s) in O2.
  destruct (String.eqb _ _).
  - apply bind_ok in E3 as (b & s5 & E & E3). apply ret_ok in E3 as [_ ->]. apply operator_spec in E as [-> ->].
    split; [done|]. rewrite R2, O2. destruct b; [right; by eexists|by left].
  - apply ret_ok in E3 as [_ ->]. split; [done|by left].
Qed.

Lemma frames_end_orgs t outcome why at_ : frames orgs_of (end_trial engine is_developer_workspace t outcome why at_).
Proof. intros s x s' H. apply end_spec in H as (_ & y & _ & _ & _ & V). unfold view in V. by injection V. Qed.

Lemma frames_minutes_orgs t y n : frames orgs_of (end_if_minutes_used engine is_developer_workspace t y n).
Proof.
  unfold end_if_minutes_used, trial_seconds_used, session_tenant, read. destruct (free_minutes y); [|apply frames_ret].
  apply frames_bind; [frames|intros used]. destruct (used <? _); [apply frames_ret|].
  apply frames_bind; [apply frames_end_orgs|intros ?]. frames.
Qed.

Lemma frames_sweep_orgs t n : frames orgs_of (close_if_expired engine is_developer_workspace t n).
Proof.
  unfold close_if_expired. apply frames_bind; [apply frames_read_trial|intros [y|]]; [|apply frames_ret].
  destruct (negb _); [apply frames_ret|]. destruct (n <? _); [apply frames_minutes_orgs|].
  apply frames_bind; [apply frames_end_orgs|intros ?]. apply frames_ret.
Qed.

Lemma frames_close_minutes_orgs t n : frames orgs_of (close_if_minutes_used engine is_developer_workspace t n).
Proof.
  unfold close_if_minutes_used. apply frames_bind; [apply frames_read_trial|intros [y|]]; [|apply frames_ret].
  destruct (is_active n y); [apply frames_minutes_orgs|apply frames_ret].
Qed.

Lemma frames_file_orgs t n : frames orgs_of (file_erasure_if_due t n).
Proof.
  intros s o s' H. apply file_spec in H as [[_ ->]|(_ & -> & y & e & H)]; [done|].
  destruct H as (_ & _ & _ & _ & _ & _ & V). unfold view in V. by injection V.
Qed.

(** ** The life of the accounts' trials and payments *)

Definition orgs_ok O : Prop :=
  pk_ok org_id O /\ forall o, In o O -> (first_paid_at o = None <-> first_paid_via o = None).

(** Every account that had paid is still paid, at the same instant and by the same door. *)
Definition paid_kept O O' : Prop :=
  forall o, In o O -> first_paid_at o <> None ->
    exists o', In o' O' /\ org_id o' = org_id o /\ first_paid_at o' = first_paid_at o /\ first_paid_via o' = first_paid_via o.

Lemma paid_kept_refl O : paid_kept O O.
Proof. intros o Ho _. by exists o. Qed.
Lemma paid_kept_trans O1 O2 O3 : paid_kept O1 O2 -> paid_kept O2 O3 -> paid_kept O1 O3.
Proof.
  intros H1 H2 o Ho Hp. destruct (H1 o Ho Hp) as (o1 & I1 & E1 & A1 & V1).
  destruct (H2 o1 I1 ltac:(congruence)) as (o2 & I2 & E2 & A2 & V2). exists o2. repeat split; [done|congruence..].
Qed.

(** An edit that stamps unpaid accounts, or leaves payments alone. *)
Lemma org_edit O p f :
  orgs_ok O -> (forall o, org_id (f o) = org_id o) ->
  (forall o, p o = true -> (first_paid_at (f o) = None <-> first_paid_via (f o) = None) \/
     (first_paid_at (f o) = first_paid_at o /\ first_paid_via (f o) = first_paid_via o)) ->
  (forall o, p o = true -> first_paid_at o = None \/ (first_paid_at (f o) = first_paid_at o /\ first_paid_via (f o) = first_paid_via o)) ->
  orgs_ok (update p f O) /\ paid_kept O (update p f O).
Proof.
  intros [Hpk Hv] Hid Hf Hk. split; [split; [by apply update_pk_ok|]|].
  - intros o' Ho. apply update_In in Ho as (o & Ho & ->). destruct (p o) eqn:E; [|by apply Hv].
    destruct (Hf o E) as [H|[-> ->]]; [exact H|by apply Hv].
  - intros o Ho Hp. exists (if p o then f o else o). split; [apply in_map_iff; by exists o|].
    destruct (p o) eqn:E; [|done]. split; [apply Hid|]. by destruct (Hk o E).
Qed.

Lemma stamp_ok O r via n :
  orgs_ok O -> orgs_ok (update (unpaid r) (stamped via n) O) /\ paid_kept O (update (unpaid r) (stamped via n) O).
Proof.
  intros H. apply org_edit; [done|done|by left|]. intros o Hu. left. unfold unpaid in Hu.
  destruct (first_paid_at o); [simpl in Hu; lia|done].
Qed.

Lemma reason_ok O r why :
  orgs_ok O -> orgs_ok (update (mine org_id r r) (with_reason why) O) /\ paid_kept O (update (mine org_id r r) (with_reason why) O).
Proof. intros H. apply org_edit; [done|done|by right|by right]. Qed.

Definition life s : list trial * list organization := (trials_of s, orgs_of s).

(** The transactions that write trials or payments of accounts, each at an instant of its
    clock, and any other that leaves the trials and what accounts paid alone. *)
Inductive life_step : list trial * list organization -> list trial * list organization -> Prop :=
| LifeOpen t p d g m ip s x s' : clocked (ticks (wallet s) 0) s ->
    open_trial hmac_hex dumps audit_key t p d g m ip s = Ok (x, s') -> life_step (life s) (life s')
| LifeNewAccount d m t a ip s x s' : clocked (ticks (wallet s) 0) s ->
    start_new_account_trial hmac_hex dumps audit_key d m t a ip s = Ok (x, s') -> life_step (life s) (life s')
| LifeClose t p c outcome why ip s x s' : clocked (ticks (wallet s) 0) s ->
    close_trial engine is_developer_workspace hmac_hex dumps audit_key t p c outcome why ip s = Ok (x, s') ->
    life_step (life s) (life s')
| LifePayment t amount via at_ s b s' : clocked (instant_of at_ s) s ->
    on_payment_credited engine is_developer_workspace hmac_hex dumps audit_key t amount via at_ s = Ok (b, s') ->
    life_step (life s) (life s')
| LifeComplimentary t why at_ s b s' : clocked (instant_of at_ s) s ->
    on_complimentary_conversion engine is_developer_workspace t why at_ s = Ok (b, s') -> life_step (life s) (life s')
| LifeSweep t n s b s' : clocked n s ->
    close_if_expired engine is_developer_workspace t n s = Ok (b, s') -> life_step (life s) (life s')
| LifeMinutes t n s b s' : clocked n s ->
    close_if_minutes_used engine is_developer_workspace t n s = Ok (b, s') -> life_step (life s) (life s')
| LifeFiling t n s o s' : file_erasure_if_due t n s = Ok (o, s') -> life_step (life s) (life s')
| LifeOther T O O' : orgs_ok O' -> paid_kept O O' -> life_step (T, O) (T, O').

Lemma clocked_due n s : clocked n s -> due (rls (wallet s)) n (trials_of s).
Proof. intros H. by apply timely_due, H. Qed.

Lemma life_step_ok st st' :
  life_step st st' -> trials_ok (fst st) -> orgs_ok (snd st) ->
  trials_ok (fst st') /\ orgs_ok (snd st') /\ paid_kept (snd st) (snd st').
Proof.
  intros H HT HO.
  destruct H as [t p d g m ip s x s' Hc H|d m t a ip s x s' Hc H|t p c outcome why ip s x s' Hc H|t amount via at_ s b s' Hc H
    |t why at_ s b s' Hc H|t n s b s' Hc H|t n s b s' Hc H|t n s o s' H|T O O' HO' Hk]; simpl in *.
  - apply open_trial_ok in H as [H ->]; [|done|done]. split; [done|]. split; [done|apply paid_kept_refl].
  - apply new_account_ok in H as [H ->]; [|done|done]. split; [done|]. split; [done|apply paid_kept_refl].
  - apply close_trial_ok in H as [H [->|[n ->]]]; [| |done|by apply clocked_due].
    + split; [done|]. split; [done|apply paid_kept_refl].
    + split; [done|]. by apply stamp_ok.
  - apply credited_spec in H. destruct b.
    + destruct H as (Et & _ & S). pose proof (so_trials _ _ _ _ _ _ S) as ET. pose proof (so_paid _ _ _ _ _ _ S) as EO.
      fold (trials_of s) (trials_of s') in ET. fold (orgs_of s) (orgs_of s') in EO. rewrite ET, EO.
      split; [apply sale_ok; [done|]; rewrite Et; by apply clocked_due|]. by apply stamp_ok.
    + destruct H as (Ha & _). unfold trials_of at 1, orgs_of at 1 3. rewrite Ha. split; [done|]. split; [done|apply paid_kept_refl].
  - apply complimentary_spec in H. destruct b as [b|].
    + destruct H as (Et & -> & ->). split; [apply sale_ok; [done|]; rewrite Et; by apply clocked_due|].
      destruct (stamp_ok (orgs_of s) t COMPLIMENTARY (instant_of at_ s) HO) as [H1 K1].
      destruct (reason_ok _ t why H1) as [H2 K2]. split; [done|]. by eapply paid_kept_trans.
    + apply view_split in H as (_ & -> & -> & _). split; [done|]. split; [done|apply paid_kept_refl].
  - rewrite (frames_sweep_orgs _ _ _ _ _ H). apply sweep_ok in H; [|done|by apply clocked_due].
    split; [done|]. split; [done|apply paid_kept_refl].
  - rewrite (frames_close_minutes_orgs _ _ _ _ _ H). apply close_minutes_ok in H; [|done|by apply clocked_due].
    split; [done|]. split; [done|apply paid_kept_refl].
  - rewrite (frames_file_orgs _ _ _ _ _ H). apply file_ok in H; [|done]. split; [done|]. split; [done|apply paid_kept_refl].
  - done.
Qed.

(** C20. Whatever order accounts are opened on a trial, given another, converted, stopped,
    swept, paid and filed for erasure in: a client never has two open trials, the open one
    is the newest, no instant is covered by two of them, a converted one asks for no
    erasure and any other asks for it the agreed 1 to 180 days after its end, an erasure is
    filed only for a trial that is over; and an account that has paid stays paid, since the
    same instant and by the same door. *)
Theorem trial_life O st :
  orgs_ok O -> rtc life_step ([], O) st -> trials_ok (fst st) /\ orgs_ok (snd st) /\ paid_kept O (snd st).
Proof.
  intros HO H.
  enough (forall st0, rtc life_step st0 st -> trials_ok (fst st0) -> orgs_ok (snd st0) ->
          trials_ok (fst st) /\ orgs_ok (snd st) /\ paid_kept (snd st0) (snd st)) as Hgo.
  { apply (Hgo ([], O)); [done| |done]. split; try done. constructor. }
  clear H HO. induction 1 as [x|x y z Hs _ IH]; intros HT HO; [split; [done|split; [done|apply paid_kept_refl]]|].
  destruct (life_step_ok _ _ Hs HT HO) as (HT' & HO' & K). destruct (IH HT' HO') as (A & B & K').
  split; [done|]. split; [done|]. by eapply paid_kept_trans.
Qed.

(** The first credit of at least the minimum makes the account paid and no later one
    does: it is stamped at that instant, its running trial is converted or the data of its
    ended trial kept, so that nothing of it runs as a trial or waits to be erased, it owns
    a go-live guide and, where the engine has workspaces, a workspace; every other credit
    leaves the account's tables as they were.  No credit is moved either way. *)
Theorem first_payment_once t amount via at_ s b s' :
  pk_ok tr_id (trials_of s) ->
  on_payment_credited engine is_developer_workspace hmac_hex dumps audit_key t amount via at_ s = Ok (b, s') ->
  quiet s s'
  /\ if b then
       (MIN_TOPUP_INR <= amount)%Q /\ sold t via (instant_of at_ s) PAID_REASON (Payments.account s) (Payments.account s')
       /\ (forall z, newest_trial t t (trials_of s') = Some z -> is_running z = false /\ erasure_pending z = false)
       /\ (forall amount' via' at' b' s2,
             on_payment_credited engine is_developer_workspace hmac_hex dumps audit_key t amount' via' at' s' = Ok (b', s2) ->
             b' = false)
     else Payments.account s' = Payments.account s
          /\ ((amount < MIN_TOPUP_INR)%Q \/ (t = rls (wallet s) -> forall o, In o (orgs_of s) -> org_id o = t -> first_paid_at o <> None)).
Proof.
  intros Hpk H. split; [by eapply first_payment_quiet|]. apply credited_spec in H. destruct b.
  - destruct H as (Et & Hm & S). split; [done|]. split; [done|]. split.
    + intros z. unfold trials_of. rewrite (so_trials _ _ _ _ _ _ S). by apply sale_settles.
    + intros amount' via' at' b' s2 H. apply credited_spec in H. destruct b'; [|done].
      destruct H as (_ & _ & S'). destruct (so_unpaid _ _ _ _ _ _ S') as (o & Ho & Hi & Hn).
      by destruct (sold_is_paid _ _ _ _ _ _ _ S Ho Hi).
  - destruct H as (Ha & _ & Hw). by split.
Qed.

(** ** From the provider's payment to the account *)
Lemma frames_on_wallet {B} (m : tx db B) : frames Payments.account (on_wallet m).
Proof. intros s b s' H. apply on_wallet_ok in H as (w & _ & ->). done. Qed.

Lemma frames_card : frames Payments.account rate_card_now.
Proof. unfold rate_card_now. apply frames_bind; [apply frames_on_wallet|intros n]. frames. intros s c s' H. by apply lift_ok in H as [_ ->]. Qed.

Lemma frames_bonus terms p pack eid ip : frames Payments.account (grant_pack_bonus hmac_hex dumps audit_key terms p pack eid ip).
Proof.
  unfold grant_pack_bonus. cbv zeta. destruct (dle _ _).
  { apply frames_bind; [apply frames_on_wallet|intros ?; apply frames_ret]. }
  apply frames_bind; [apply frames_on_wallet|intros [e|]].
  { apply frames_bind; [apply frames_on_wallet|intros ?; apply frames_ret]. }
  apply frames_bind; [apply frames_on_wallet|intros bal]. apply frames_bind; [apply frames_on_wallet|intros [w|]]; [|apply frames_raise].
  apply frames_bind; [apply frames_card|intros card]. apply frames_bind; [apply frames_on_wallet|intros ?].
  apply frames_bind; [apply frames_audit|intros ?]. apply frames_ret.
Qed.

Abbreviation credit_payment terms :=
  (credit_captured_payment (H := first_payment engine is_developer_workspace hmac_hex dumps audit_key) hmac_hex dumps audit_key terms).

(** A payment that is recorded reports itself to its account once, and nothing else it
    does touches the account's tables. *)
Lemma captured_reports terms p ip s r s' :
  wallet_ok (wallet s) -> cp_tenant p = rls (wallet s) -> payment_ok p ->
  credit_payment terms p ip s = Ok (r, s') -> recorded r = true ->
  exists s1 b s2, Payments.account s1 = Payments.account s /\ rls (wallet s1) = rls (wallet s)
    /\ on_payment_credited engine is_developer_workspace hmac_hex dumps audit_key (cp_tenant p) (cp_amount_inr p) "wallet_topup" None s1 = Ok (b, s2)
    /\ Payments.account s' = Payments.account s2.
Proof.
  intros Hw Ht [Hm Ha] H Hr. unfold credit_captured_payment in H. cbv zeta in H. rewrite Ht in *.
  apply bind_ok in H as (x & s1 & Hx & H). apply on_wallet_ok in Hx as (w & Hx & ->). unfold find_topup in Hx.
  rewrite find_entry_at in Hx. injection Hx as <- <-. rewrite with_wallet_same in H.
  destruct (entry_at _ "topup" _ (wallet s)) as [x|].
  { destruct (negb _); [done|]. apply bind_ok in H as (b & s1 & _ & H). by apply ret_ok in H as [-> _]. }
  apply bind_ok in H as (bal & s1 & Hb & H). apply on_wallet_ok in Hb as (w1 & Hb & ->).
  apply bind_ok in H as (e & s1 & He & H). apply on_wallet_ok in He as (w & He & ->). unfold find_topup in He.
  rewrite find_entry_at in He. injection He as <- <-. simpl in H.
  destruct (entry_at _ "topup" _ w1) as [e|]; [|done].
  apply bind_ok in H as (card & s2 & Hc & H). pose proof (frames_card _ _ _ Hc) as A2. apply rate_card_now_quiet in Hc as [Hq _]. simpl in A2, Hq.
  apply bind_ok in H as (cl & s3 & Hl & H). apply on_wallet_ok in Hl as (w3 & Hl & ->).
  destruct (credit_lands terms (wallet s) (cp_amount_inr p) "topup" _ _ _ bal w1 (wallet s2) _ _ _ _ _ cl w3 Hw Hm Ha
              (marks_old_reason _ "topup" _ ltac:(discriminate)) Hb Hq Hl) as (_ & Hr3 & _).
  apply bind_ok in H as (u & s4 & Hau & H). pose proof (frames_audit _ _ _ _ _ _ _ _ Hau) as A4. apply audit_system_quiet in Hau as [Hq4 _].
  apply bind_ok in H as (b & s5 & Hf & H). exists s4, b, s5. simpl in A4, Hq4. split; [congruence|].
  split; [rewrite (as_rls _ _ Hq4); exact Hr3|]. split; [exact Hf|].
  destruct (RateCard.pack_paid_for _ _); [by apply frames_bonus in H|by apply ret_ok in H as [_ ->]].
Qed.

(** C19. A captured payment reaches its account once.  When it is recorded and is at least
    the minimum the account is paid afterwards, either because it was or by this payment
    with everything a first payment unlocks; a smaller one, and any redelivery, leaves the
    account's tables as they were. *)
Theorem payment_reaches_account terms p ip s r s' :
  wallet_ok (wallet s) -> cp_tenant p = rls (wallet s) -> payment_ok p ->
  credit_payment terms p ip s = Ok (r, s') ->
  if negb (recorded r) then s' = s
  else if dlt (cp_amount_inr p) MIN_TOPUP_INR then Payments.account s' = Payments.account s
  else (forall o, In o (orgs_of s') -> org_id o = cp_tenant p -> first_paid_at o <> None)
       /\ (Payments.account s' = Payments.account s
           \/ exists n, sold (cp_tenant p) "wallet_topup" n PAID_REASON (Payments.account s) (Payments.account s')).
Proof.
  intros Hw Ht Hp H. destruct (recorded r) eqn:Hr; simpl.
  - destruct (captured_reports terms p ip s r s' Hw Ht Hp H Hr) as (s1 & b & s2 & A1 & R1 & Hc & A2).
    apply credited_spec in Hc. unfold orgs_of. rewrite A2. destruct b.
    + destruct Hc as (_ & Hm & S). rewrite A1 in S. destruct (dlt_spec (cp_amount_inr p) MIN_TOPUP_INR); [lra|].
      split; [intros o; by eapply sold_is_paid|right; by eexists].
    + destruct Hc as (Ha & _ & Hc). rewrite Ha, A1. destruct (dlt_spec (cp_amount_inr p) MIN_TOPUP_INR); [done|].
      destruct Hc as [Hc|Hc]; [lra|]. split; [|by left]. unfold orgs_of in Hc. rewrite A1 in Hc. apply Hc. congruence.
  - apply (credit_spec hmac_hex dumps audit_key terms) in H; [|done..]. destruct H as (_ & _ & _ & _ & _ & H). by rewrite Hr in H.
Qed.
End Specs.

(** ** Concrete instances *)
Module Example.
Definition no_developer (_ : string) : bool := false.
Definition org : organization := Organization 7 "active" None None None None.
Definition desk0 : platform :=
  Pay account (blank_db 7) (RateCard.RatesDb [] []) [] [] [] [] (Acct [] [] [] [org] [] [] [] [] []).
Definition state_of {B} (r : result (B * platform)) : platform := match r with Ok (_, s) => s | Err _ => desk0 end.

Definition new_account : result (trial * platform) :=
  start_new_account_trial Audit.Example.keyed Audit.Example.dumps "key" 7 15 7 None None desk0.
(** A new account on its seven days. *)
Definition born : platform := state_of new_account.
Abbreviation pays amount s :=
  (on_payment_credited "thinnest" no_developer Audit.Example.keyed Audit.Example.dumps "key" 7 amount "manual_topup" None s).
Definition sale : platform := state_of (pays 100 born).
Definition transfer : CapturedPayment := Captured "pay_1" 7 500 "INR" None None false None.
Abbreviation captured s :=
  (credit_captured_payment (H := first_payment "thinnest" no_developer Audit.Example.keyed Audit.Example.dumps "key")
    Audit.Example.keyed Audit.Example.dumps "key" Wallet.Example.accepted_terms transfer None s).

Lemma born_run : exists x, new_account = Ok (x, born).
Proof. eexists. vm_compute. reflexivity. Qed.

Lemma sale_run : pays 100 born = Ok (true, sale).
Proof. vm_compute. reflexivity. Qed.

Example sale_converts : map tr_status (trials_of sale) = [TRIAL_CONVERTED] /\ map ws_status (workspaces (Payments.account sale)) = ["pending"].
Proof. vm_compute. done. Qed.

Lemma born_clocked : clocked (ticks (wallet born) 0) born.
Proof.
  assert (Hi : forall k, ids (wallet born) k = Z.of_nat (3 + k)) by (intros k; reflexivity).
  assert (HT : map (fun y => (tr_id y, started_at y, ended_at y)) (trials_of born) = [(0, 0, None)]) by (vm_compute; reflexivity).
  assert (Hy : forall y, In y (trials_of born) -> (tr_id y, started_at y, ended_at y) = (0, 0, None)).
  { intros y Hy. apply (in_map (fun y => (tr_id y, started_at y, ended_at y))) in Hy. rewrite HT in Hy. by destruct Hy as [<-|[]]. }
  split.
  - intros y Iy _. injection (Hy y Iy) as _ -> ->. split; [vm_compute; discriminate|done].
  - intros k y Iy. injection (Hy y Iy) as -> _ _. rewrite Hi. lia.
Qed.
End Example.
Import Example.

(** A call placed on a trial that an operator then replaces is no longer covered for the
    meter, which asks the newest trial only, although the readers of the usage ledger, which
    ask every trial, count it as a call the trial paid for. *)
Theorem replaced_trial_uncovers_its_calls :
  exists x s placed,
    open_trial Audit.Example.keyed Audit.Example.dumps "key" 7 (Audit.Principal true None None) 14 30 None None born = Ok (x, s)
    /\ trial_covers 7 placed born = Ok (true, born) /\ trial_covers 7 placed s = Ok (false, s)
    /\ on_trial_row 7 placed (trials_of s) = true.
Proof.
  eexists. eexists. exists 0. split; [vm_compute; reflexivity|].
  split; [vm_compute; reflexivity|]. split; vm_compute; reflexivity.
Qed.

Lemma first_payment_once_witness :
  pays 100 born = Ok (true, sale) /\ quiet born sale
  /\ sold "thinnest" 7 "manual_topup" (instant_of None born) PAID_REASON (Payments.account born) (Payments.account sale).
Proof.
  split; [exact sale_run|].
  destruct (first_payment_once "thinnest" no_developer Audit.Example.keyed Audit.Example.dumps "key" 7 100 "manual_topup" None born true sale)
    as [Hq (_ & Hs & _)].
  - assert (E : map tr_id (trials_of born) = [0]) by (vm_compute; reflexivity). unfold pk_ok. rewrite E.
    apply NoDup_singleton.
  - exact sale_run.
  - split; [exact Hq|exact Hs].
Defined.

Lemma trial_life_witness :
  rtc (life_step "thinnest" no_developer Audit.Example.keyed Audit.Example.dumps "key") ([], [org]) (life sale)
  /\ trials_ok (fst (life sale)) /\ paid_kept [org] (snd (life sale)).
Proof.
  assert (Hr : rtc (life_step "thinnest" no_developer Audit.Example.keyed Audit.Example.dumps "key") ([], [org]) (life sale)).
  { apply rtc_l with (life born).
    - destruct born_run as (x & E). change (([] : list trial), [org]) with (life desk0).
      eapply LifeNewAccount; [|exact E]. split; [intros y []|intros k y []].
    - apply rtc_once. eapply LifePayment; [|exact sale_run]. exact born_clocked. }
  split; [exact Hr|].
  destruct (trial_life "thinnest" no_developer Audit.Example.keyed Audit.Example.dumps "key" [org] (life sale)) as (H1 & _ & H3).
  - split; [apply NoDup_singleton|]. intros o [<-|[]]. done.
  - exact Hr.
  - split; [exact H1|exact H3].
Defined.

Lemma payment_reaches_account_witness :
  exists r s', captured desk0 = Ok (r, s') /\ recorded r = true
    /\ forall o, In o (orgs_of s') -> org_id o = 7 -> first_paid_at o <> None.
Proof.
  assert (E : exists r s', captured desk0 = Ok (r, s') /\ recorded r = true)
    by (eexists; eexists; split; [vm_compute; reflexivity|reflexivity]).
  destruct E as (r & s' & E & Hr). exists r, s'. split; [exact E|]. split; [exact Hr|].
  pose proof (payment_reaches_account "thinnest" no_developer Audit.Example.keyed Audit.Example.dumps "key"
                Wallet.Example.accepted_terms transfer None desk0 r s' (blank_wallet_ok 7) eq_refl) as H.
  rewrite Hr in H. apply H; [|exact E].
  constructor; [by exists 5000000|split; reflexivity].
Defined.

End FirstPayment.
