(* ===== verification/TrialSweep.v ===== *)
(** * The nightly sweep of trials

    [sweep_trials] of apps/workers/trials.py: every live organisation is visited, from
    where the last pass stopped ([FleetWalk]); each is swept in two transactions of its
    own, one that ends a trial whose time or minutes are up and one that files an erasure
    that is due, and a tenant that fails does not stop the others.  A transaction that
    raises leaves the database as it found it. *)

From Stdlib Require Import ZArith Lia List.
From stdpp Require Import base list strings.
From S2P Require Import Prelude Sql PyTime WalletDb RateCard Envelope Payments FleetWalk Account Caps Workspaces Trials.

Local Open Scope string_scope.
Local Open Scope list_scope.
Local Open Scope Z_scope.
Local Open Scope tx_scope.

Import Payments Account Caps Trials.

Module TrialSweep.

(** [tenant_session]: a session opens for a tenant, at the clock's time, and its
    transaction is committed whole or not at all. *)
Definition opened (tenant_id : uuid) (s : platform) : platform :=
  let w := wallet s in
  with_wallet (Db tenant_id (ticks w 0) (fun n => ticks w (S n)) (ids w) (credit_ledger w) (credit_lots w)
                 (low_balance_lines w) (outbox_messages w)) s.
Definition in_session {B} (tenant_id : uuid) (m : tx platform B) (s : platform) : option B * platform :=
  match m (opened tenant_id s) with Ok (b, s') => (Some b, s') | Err _ => (None, s) end.

(** What the sweep did for one tenant. *)
Record swept := Swept { expired : bool; outcome : option filing; failed : bool }.

Section Sweep.
Context (engine : string) (is_developer_workspace : string -> bool).

Definition sweep_tenant (n : instant) (tenant_id : uuid) (s : platform) : swept * platform :=
  match in_session tenant_id (close_if_expired engine is_developer_workspace tenant_id n) s with
  | (None, s) => (Swept false None true, s)
  | (Some e, s) =>
      match in_session tenant_id (file_erasure_if_due tenant_id n) s with
      | (None, s) => (Swept e None true, s)
      | (Some o, s) => (Swept e o false, s)
      end
  end.

Fixpoint sweep (n : instant) (tenants : list uuid) (s : platform) : list (uuid * swept) * platform :=
  match tenants with
  | [] => ([], s)
  | t :: rest =>
      let '(w, s) := sweep_tenant n t s in
      let '(ws, s) := sweep n rest s in ((t, w) :: ws, s)
  end.

Record totals := Totals {
  tenants_probed : nat; trials_expired : nat; erasures_filed : nat; erasures_blocked : nat;
  tenants_failed : nat; tenants_unreached : nat }.
Definition filing_is (f : filing) (w : swept) : bool :=
  match outcome w, f with Some Filed, Filed => true | Some Blocked, Blocked => true | _, _ => false end.
Definition count (p : swept -> bool) (ws : list (uuid * swept)) : nat := length (List.filter (fun x => p (snd x)) ws).
Definition count_up (all : nat) (ws : list (uuid * swept)) : totals :=
  Totals (length ws) (count expired ws) (count (filing_is Filed) ws) (count (filing_is Blocked) ws)
    (count failed ws) (all - length ws).

(** [_DIRECTORY]: the live organisations. *)
Definition directory (s : platform) : list uuid :=
  map org_id (order_by (fun x y => org_id x <=? org_id y)
    (select (fun o => match deleted_at o with None => true | Some _ => false end) (organizations (Payments.account s)))).

(** The tick: the readings of the monotonic clock, the budget's start, which requests
    Redis answers and the cursor it holds, the sweep's instant and the state; it returns
    the totals, the cursor and the state.  No body raises: a failure is caught. *)
Definition sweep_trials (monotonic : nat -> Z) (began : Z) (readable : bool) (writable : nat -> bool) (stored : option string)
    (n : instant) (s : platform) : totals * option string * platform :=
  let tenant_ids := directory s in
  let '(reached, stored, _) :=
    FleetWalk.resumed_walk Envelope.Envelope.uuid_text (FleetWalk.Conditions monotonic (fun _ => true) readable writable)
      (FleetWalk.new_budget began) tenant_ids stored in
  let '(ws, s) := sweep n reached s in
  (count_up (length tenant_ids) ws, stored, s).
End Sweep.

(** ** What a tenant is left with *)
Section Laws.
Context (engine : string) (is_developer_workspace : string -> bool).
Implicit Types (s : platform) (T : list trial) (t : uuid).

Definition erasure_due (n : instant) (y : trial) : bool :=
  negb (is_running y) && match erase_after y, erasure_filed_at y with Some e, None => e <=? n | _, _ => false end.
Definition churned t (O : list organization) : bool :=
  match head (select (mine org_id t t) O) with Some o => String.eqb (org_status o) REQUIRED_STATUS | None => false end.

(** *** The reference: what a night owes one tenant *)

(** The tenant's trials, as a table. *)
Definition rows t T : list trial := select (mine tr_tenant t t) T.

(** The seconds of the trial's calls. *)
Definition used_seconds (C : list call) (y : trial) : Z :=
  fold_right Z.add 0
    (map (fun c => match duration_s c with Some d => d | None => 0 end)
       (select (fun c => mine ca_tenant (tr_tenant y) (tr_tenant y) c && trial_call c && (started_at y <=? ca_created_at c)) C)).

(** When a running trial is up and why: its end date, or its minutes. *)
Definition up (n : instant) (C : list call) (y : trial) : option (instant * string) :=
  if negb (is_running y) then None
  else if ends_at y <=? n then Some (ends_at y, EXPIRY_REASON)
  else match free_minutes y with
       | Some m => if m * 60 <=? used_seconds C y then Some (n, MINUTES_USED_REASON) else None
       | None => None
       end.
Definition ended (n : instant) (C : list call) (y : trial) : trial :=
  match up n C y with
  | Some (at_, why) => closed TRIAL_EXPIRED at_ why (erasure_from TRIAL_EXPIRED at_ y) y
  | None => y
  end.

(** Whether an erasure is due, and whether it can be filed. *)
Definition owed (n : instant) t (O : list organization) (y : trial) : option filing :=
  if erasure_due n y then Some (if churned t O then Filed else Blocked) else None.
Definition left_as (n : instant) t (O : list organization) (y : trial) : trial :=
  match owed n t O y with Some Filed => filed n y | _ => y end.

(** The newest trial became [z], and the tenant's other trials are as they were. *)
Definition became t (y z : trial) (T T' : list trial) : Prop :=
  rows t T' = update (by_id tr_id (tr_id y)) (fun _ => z) (rows t T).

(** An erasure of the tenant's data is on file and not carried out yet. *)
Definition on_file t s : Prop := exists e, In e (erasures (Payments.account s)) /\ er_tenant e = t /\ is_open e = true.

(** What the night did for a tenant it served, from the state it started with; and for
    one it failed to serve: nothing, or the first half of it. *)
Definition served (n : instant) t s (w : swept) s' : Prop :=
  match newest_trial t t (trials_of s) with
  | None => w = Swept false None false /\ rows t (trials_of s') = rows t (trials_of s)
  | Some y =>
      let C := calls (Payments.account s) in
      let O := organizations (Payments.account s) in
      let y1 := ended n C y in
      w = Swept (match up n C y with Some _ => true | None => false end) (owed n t O y1) false
      /\ became t y (left_as n t O y1) (trials_of s) (trials_of s')
      /\ (owed n t O y1 = Some Filed -> on_file t s')
  end.
Definition unserved (n : instant) t s (w : swept) s' : Prop :=
  outcome w = None
  /\ if expired w
     then exists y, newest_trial t t (trials_of s) = Some y /\ up n (calls (Payments.account s)) y <> None
          /\ became t y (ended n (calls (Payments.account s)) y) (trials_of s) (trials_of s')
     else rows t (trials_of s') = rows t (trials_of s).

(** What a night for [t] leaves alone: the other tenants' trials, the organisations, the
    calls and the erasures already filed. *)
Record apart t s s' : Prop := Apart {
  ap_orgs : organizations (Payments.account s') = organizations (Payments.account s);
  ap_calls : calls (Payments.account s') = calls (Payments.account s);
  ap_erasures : incl (erasures (Payments.account s)) (erasures (Payments.account s'));
  ap_rows : forall u, u <> t -> rows u (trials_of s') = rows u (trials_of s);
  ap_pk : pk_ok tr_id (trials_of s) -> pk_ok tr_id (trials_of s')
}.

Lemma apart_refl t s : apart t s s.
Proof. split; try done. by intros x. Qed.

Lemma apart_trans t s1 s2 s3 : apart t s1 s2 -> apart t s2 s3 -> apart t s1 s3.
Proof.
  intros [A1 B1 E1 R1 P1] [A2 B2 E2 R2 P2]. split; [congruence|congruence| | |auto].
  - intros x Hx. auto.
  - intros u Hu. by rewrite R2, R1.
Qed.

Lemma newest_rows t T : newest_trial t t T = head (order_by latest (rows t T)).
Proof. done. Qed.

(** *** Edits of one row *)

Lemma select_update_other {R} (p q : R -> bool) f (l : list R) :
  (forall x, p x = true -> q x = false /\ q (f x) = false) -> select q (update p f l) = select q l.
Proof.
  intros H. unfold select, update. induction l as [|x l IH]; simpl; [done|]. rewrite IH. destruct (p x) eqn:E; [|done].
  by destruct (H x E) as [-> ->].
Qed.

Lemma rows_other u t p f T :
  u <> t -> (forall x, p x = true -> tr_tenant x = t) -> (forall x, tr_tenant (f x) = tr_tenant x) ->
  rows u (update p f T) = rows u T.
Proof.
  intros Hu Hp Hf. unfold rows. apply select_update_other.
  intros x Hx. unfold mine. rewrite Hf, (Hp x Hx). split; lia.
Qed.

Lemma rows_edit t T p f y :
  pk_ok tr_id T -> In y T -> tr_tenant y = t -> p y = true ->
  (forall x, p x = true -> tr_id x = tr_id y) -> (forall x, tr_tenant (f x) = tr_tenant x) ->
  became t y (f y) T (update p f T).
Proof.
  intros Hpk Hy Ht Hp Hid Hf. unfold became.
  assert (Hu : forall x, In x T -> tr_id x = tr_id y -> x = y) by (intros x Hx E; by apply (pk_unique tr_id T)).
  revert Hu. clear Hpk Hy. unfold rows, select, update. induction T as [|x T IH]; intros Hu; simpl; [done|].
  specialize (IH (fun z Hz => Hu z (or_intror Hz))). destruct (p x) eqn:Ep.
  - assert (x = y) as -> by (apply Hu; [by left|by apply Hid]).
    assert (mine tr_tenant t t (f y) = true /\ mine tr_tenant t t y = true) as [-> ->] by (unfold mine; rewrite Hf; lia).
    simpl. unfold by_id at 1. rewrite Z.eqb_refl. by rewrite IH.
  - destruct (mine tr_tenant t t x); [|exact IH]. simpl. unfold by_id at 1. destruct (tr_id x =? tr_id y) eqn:E; [|by rewrite IH].
    assert (x = y) as -> by (apply Hu; [by left|lia]). congruence.
Qed.

Lemma became_same t y T : pk_ok tr_id T -> In y T -> became t y y T T.
Proof.
  intros Hpk Hy. unfold became, update. rewrite <- (map_id (rows t T)) at 1. apply map_ext_in. intros x Hx.
  apply select_In in Hx as [Hx _]. unfold by_id. destruct (tr_id x =? tr_id y) eqn:E; [|done].
  apply (pk_unique tr_id T); [done..|lia].
Qed.

Lemma became_trans t y y1 z T1 T2 T3 :
  tr_id y1 = tr_id y -> became t y y1 T1 T2 -> became t y1 z T2 T3 -> became t y z T1 T3.
Proof.
  unfold became. intros Hi -> ->. rewrite Hi. unfold update. rewrite map_map. apply map_ext. intros x.
  destruct (by_id tr_id (tr_id y) x) eqn:E; [|by rewrite E]. unfold by_id. by rewrite Hi, Z.eqb_refl.
Qed.

Lemma became_In t y z T T' : In y T -> tr_tenant y = t -> became t y z T T' -> In z (rows t T').
Proof.
  intros Hy Ht ->. apply update_In. exists y. split; [apply select_In; split; [done|unfold mine; lia]|].
  unfold by_id. by rewrite Z.eqb_refl.
Qed.

(** The newest trial, edited in place, is still the newest. *)
Lemma became_newest t y z T T' :
  pk_ok tr_id T -> newest_trial t t T = Some y -> became t y z T T' ->
  (tr_id z, tr_tenant z, started_at z) = (tr_id y, tr_tenant y, started_at y) -> newest_trial t t T' = Some z.
Proof.
  intros Hpk Hy Hb [= Ei Et Es]. pose proof Hy as Hs. apply newest_spec in Hs as (Hin & Hten & _).
  set (f := fun x => Trial (tr_id x) (tr_tenant x) (days z) (started_at x) (ends_at z) (tr_status z) (ended_at z)
                       (ended_reason z) (erase_after z) (erasure_filed_at z) (started_by z) (free_minutes z)).
  assert (Hfy : f y = z) by (unfold f; rewrite <- Ei, <- Et, <- Es; by destruct z).
  set (p := fun x => (tr_tenant x =? t) && by_id tr_id (tr_id y) x).
  assert (Hp : p y = true) by (unfold p, by_id; lia).
  assert (Hb' : became t y (f y) T (update p f T)).
  { apply (rows_edit t T); try done. intros x Hx. unfold p, by_id in Hx. lia. }
  unfold became in Hb, Hb'. rewrite Hfy in Hb'.
  assert (En : newest_trial t t T' = newest_trial t t (update p f T)) by (rewrite !newest_rows; congruence).
  rewrite En. destruct (newest_trial t t (update p f T)) as [x|] eqn:Ex.
  - f_equal. assert (x = if p y then f y else y) as ->; [|by rewrite Hp].
    apply (newest_update t T p f y x); done.
  - exfalso. assert (Hz : In z (rows t (update p f T))).
    { apply select_In. split; [|unfold mine; lia]. apply update_In. exists y. by rewrite Hp, Hfy. }
    rewrite newest_rows in Ex. assert (Hn : rows t (update p f T) = []).
    { destruct (order_by latest (rows t (update p f T))) eqn:Eo; [|done].
      apply (Permutation_nil (l := rows t (update p f T))). rewrite <- Eo. apply order_by_perm. }
    by rewrite Hn in Hz.
Qed.

(** *** The two transactions *)

(** The tables a night reads but [view] does not hold. *)
Definition aux s := (calls (Payments.account s), erasures (Payments.account s)).

Lemma frames_reset_aux t : frames aux (reset_client_counters t).
Proof.
  unfold reset_client_counters, recompute_capped, arm_zero_ceiling, caps_now, current_billing_month, Caps.session_tenant, txn_now, read.
  frames.
Qed.

Lemma others_aux {B} (m : tx platform B) : frames Workspaces.others m -> frames aux m.
Proof. intros H s b s' E. specialize (H s b s' E). unfold Workspaces.others in H. unfold aux. congruence. Qed.

Lemma frames_end_aux t o why at_ : frames aux (end_trial engine is_developer_workspace t o why at_).
Proof.
  unfold end_trial. apply frames_bind; [by apply frames_or_now|intros n]. destruct (negb _); [apply frames_raise|].
  apply frames_bind; [apply frames_read_trial|intros y]. destruct y as [y|]; [|apply frames_raise].
  destruct (negb _); [apply frames_raise|]. apply frames_bind; [unfold close_row, session_tenant; frames|intros ?].
  apply frames_bind; [apply frames_reset_aux|intros ?]. apply frames_bind; [|intros ?; apply frames_ret].
  destruct (String.eqb _ _); [|apply frames_ret]. apply frames_bind; [apply others_aux, Workspaces.frames_refresh|intros ?].
  apply frames_bind; [apply others_aux, Workspaces.frames_provisioning|intros ?]. apply frames_ret.
Qed.

(** Ending the newest trial. *)
Lemma end_apart t why at_ s x s' y :
  t = rls (wallet s) -> newest_trial t t (trials_of s) = Some y -> pk_ok tr_id (trials_of s) ->
  end_trial engine is_developer_workspace t TRIAL_EXPIRED why (Some at_) s = Ok (x, s') ->
  apart t s s' /\ became t y (closed TRIAL_EXPIRED at_ why (erasure_from TRIAL_EXPIRED at_ y) y) (trials_of s) (trials_of s').
Proof.
  intros Et Ey Hpk H. pose proof (frames_end_aux _ _ _ _ _ _ _ H) as Haux. unfold aux in Haux. injection Haux as HC HE.
  apply end_spec in H as (_ & y' & Ey' & Er & _ & V). rewrite <- Et, Ey in Ey'. injection Ey' as <-.
  unfold view in V. rewrite <- Et in V. injection V as _ VT VO _. fold (trials_of s') in VT. simpl in VT.
  pose proof Ey as Hs. apply newest_spec in Hs as (Hin & Hten & _). split.
  - split; [exact VO|exact HC|rewrite HE; apply incl_refl| |rewrite VT; intros _; by apply update_pk_ok].
    intros u Hu. rewrite VT. apply rows_other with (t := t); [done| |done]. intros z Hz. lia.
  - rewrite VT. unfold close_edit. apply (rows_edit t (trials_of s)); try done.
    + unfold by_id. rewrite Hten, !Z.eqb_refl, Er. done.
    + intros z Hz. unfold by_id in Hz. lia.
Qed.

Lemma seconds_used t y s u s' :
  t = rls (wallet s) -> tr_tenant y = t -> trial_seconds_used t y s = Ok (u, s') ->
  u = used_seconds (calls (Payments.account s)) y /\ s' = s.
Proof.
  intros Et Ey H. apply bind_ok in H as (r & s1 & E & H). apply gets_ok in E as [-> ->]. apply gets_ok in H as [-> ->].
  split; [|done]. unfold used_seconds. by rewrite Ey, <- Et.
Qed.
(** Ending what is up. *)
Lemma close_exact t n s b s' :
  t = rls (wallet s) -> pk_ok tr_id (trials_of s) ->
  close_if_expired engine is_developer_workspace t n s = Ok (b, s') ->
  apart t s s' /\ match newest_trial t t (trials_of s) with
                  | None => b = false /\ s' = s
                  | Some y => b = (match up n (calls (Payments.account s)) y with Some _ => true | None => false end)
                      /\ became t y (ended n (calls (Payments.account s)) y) (trials_of s) (trials_of s')
                  end.
Proof.
  intros Et Hpk H. apply bind_ok in H as (y & s1 & E & H). apply read_trial_ok in E as [-> Ey]. rewrite <- Et in Ey.
  rewrite <- Ey. destruct y as [y|]; [|apply ret_ok in H as [-> ->]; split; [apply apart_refl|done]]. symmetry in Ey.
  pose proof Ey as Hs. apply newest_spec in Hs as (Hin & Hten & _).
  assert (Hstay : up n (calls (Payments.account s)) y = None -> b = false -> s' = s ->
    apart t s s' /\ b = (match up n (calls (Payments.account s)) y with Some _ => true | None => false end)
    /\ became t y (ended n (calls (Payments.account s)) y) (trials_of s) (trials_of s')).
  { intros Hu -> ->. split; [apply apart_refl|]. unfold ended. rewrite Hu. split; [done|]. by apply became_same. }
  assert (Hend : forall at_ why x s1, up n (calls (Payments.account s)) y = Some (at_, why) ->
    end_trial engine is_developer_workspace t TRIAL_EXPIRED why (Some at_) s = Ok (x, s1) ->
    apart t s s1 /\ became t y (ended n (calls (Payments.account s)) y) (trials_of s) (trials_of s1)).
  { intros at_ why x s1 Hu E. unfold ended. rewrite Hu. by eapply end_apart. }
  unfold up in *. destruct (is_running y) eqn:Er; simpl in H, Hstay, Hend |- *; [|apply ret_ok in H as [-> ->]; by apply Hstay].
  destruct (n <? ends_at y) eqn:En.
  - replace (ends_at y <=? n) with false in * by lia. unfold end_if_minutes_used in H.
    destruct (free_minutes y) as [m|]; [|apply ret_ok in H as [-> ->]; by apply Hstay].
    apply bind_ok in H as (u & s1 & E & H). apply seconds_used in E as [-> ->]; [|done..].
    destruct (used_seconds _ y <? m * 60) eqn:Eu.
    { replace (m * 60 <=? used_seconds (calls (Payments.account s)) y) with false in * by lia.
      apply ret_ok in H as [-> ->]. by apply Hstay. }
    replace (m * 60 <=? used_seconds (calls (Payments.account s)) y) with true in * by lia.
    apply bind_ok in H as (x & s1 & E & H). destruct (Hend _ _ _ _ eq_refl E) as [[A1 A2 A3 A4 A5] D].
    apply bind_ok in H as (q & s2 & E2 & H). apply ret_ok in H as [-> ->].
    pose proof (frames_enqueue_once aux _ _ _ ltac:(done) _ _ _ E2) as Haux. unfold aux in Haux. injection Haux as HC HE.
    apply frames_enqueue_once_view in E2. unfold view in E2. injection E2 as _ E2 EO _. fold (trials_of s2) (trials_of s1) in E2.
    rewrite E2. split; [|by split]. split; rewrite ?E2; [congruence|congruence|rewrite HE; exact A3|done|done].
  - replace (ends_at y <=? n) with true in * by lia.
    apply bind_ok in H as (x & s1 & E & H). apply ret_ok in H as [-> ->]. by destruct (Hend _ _ _ _ eq_refl E).
Qed.

Lemma frames_redrive_aux e : frames aux (redrive_if_stalled e).
Proof. unfold redrive_if_stalled. frames. Qed.

(** A request leaves the tenant with an erasure on file. *)
Lemma request_files t why s e s' :
  t = rls (wallet s) -> request_tenant_erasure t why s = Ok (e, s') ->
  calls (Payments.account s') = calls (Payments.account s)
  /\ incl (erasures (Payments.account s)) (erasures (Payments.account s')) /\ on_file t s'.
Proof.
  intros Et H. unfold request_tenant_erasure in H. apply bind_ok in H as (u & s1 & E & H).
  assert (s1 = s) as ->.
  { unfold assert_erasable in E. apply bind_ok in E as (o & s2 & E2 & E). apply bind_ok in E2 as (r & s3 & E3 & E2).
    apply gets_ok in E3 as [-> ->]. apply gets_ok in E2 as [_ ->]. destruct o as [o|]; [|done]. destruct (deleted_at o); [done|].
    destruct (negb _); [done|]. by apply ret_ok in E as [_ ->]. }
  clear E. apply bind_ok in H as (r & s1 & E & H). apply gets_ok in E as [-> ->].
  apply bind_ok in H as (T & s1 & E & H). apply gets_ok in E as [-> ->].
  destruct (order_by _ _) as [|e0 rest] eqn:Eo.
  - apply bind_ok in H as (i & s1 & E & H). injection E as <- <-.
    apply bind_ok in H as (m & s2 & E2 & H). apply gets_ok in E2 as [-> ->].
    apply bind_ok in H as (u1 & s3 & E3 & H). pose proof (frames_own_tenant aux _ _ _ _ E3) as A3.
    apply bind_ok in H as (u2 & s4 & E4 & H). apply modify_ok in E4 as ->.
    apply bind_ok in H as (u3 & s5 & E5 & H). apply ret_ok in H as [-> ->].
    pose proof (frames_enqueue aux _ _ ltac:(done) _ _ _ E5) as A5. unfold aux in *. injection A3 as A3 _. injection A5 as A5 A6.
    split; [by rewrite A5|]. unfold on_file. rewrite A6. simpl. split; [intros x Hx; apply in_or_app; by left|].
    eexists. split; [apply in_or_app; right; by left|done].
  - apply bind_ok in H as (u1 & s1 & E & H). apply ret_ok in H as [-> ->].
    assert (A : aux s1 = aux s).
    { revert E. apply (frames_redrive_aux e0). }
    unfold aux in A. injection A as A1 A2. unfold on_file. rewrite A1, A2. split; [done|]. split; [apply incl_refl|].
    assert (Hin : In e0 (order_by (le_at_id requested_at er_id) (select (fun e => (er_tenant e =? rls (wallet s)) && is_open e)
              (erasures (Payments.account s))))) by (rewrite Eo; by left).
    apply order_by_In, select_In in Hin as [Hin Hp]. exists e0. split; [done|]. split; [lia|]. by destruct (is_open e0); [|lia].
Qed.

(** Filing what is due. *)
Lemma file_exact t n s o s' :
  t = rls (wallet s) -> pk_ok tr_id (trials_of s) -> file_erasure_if_due t n s = Ok (o, s') ->
  apart t s s' /\ match newest_trial t t (trials_of s) with
                  | None => o = None /\ rows t (trials_of s') = rows t (trials_of s)
                  | Some y => o = owed n t (organizations (Payments.account s)) y
                      /\ became t y (left_as n t (organizations (Payments.account s)) y) (trials_of s) (trials_of s')
                      /\ (o = Some Filed -> on_file t s')
                  end.
Proof.
  intros Et Hpk H. apply bind_ok in H as (y & s1 & E & H). apply read_trial_ok in E as [-> Ey]. rewrite <- Et in Ey.
  rewrite <- Ey. destruct y as [y|]; [|apply ret_ok in H as [-> ->]; split; [apply apart_refl|done]]. symmetry in Ey.
  pose proof Ey as Hs. apply newest_spec in Hs as (Hin & Hten & _).
  assert (Hstay : forall o', o' <> Some Filed -> owed n t (organizations (Payments.account s)) y = o' -> o = o' -> s' = s ->
    apart t s s' /\ o = owed n t (organizations (Payments.account s)) y
    /\ became t y (left_as n t (organizations (Payments.account s)) y) (trials_of s) (trials_of s')
    /\ (o = Some Filed -> on_file t s')).
  { intros o' Hne Ho -> ->. split; [apply apart_refl|]. split; [done|]. unfold left_as. rewrite Ho.
    split; [|congruence]. destruct o' as [[]|]; [done| |]; by apply became_same. }
  unfold owed, erasure_due in *. destruct (erase_after y) as [e|] eqn:Ee.
  2:{ apply ret_ok in H as [-> ->]. apply (Hstay None); try done. by rewrite andb_false_r. }
  destruct (erasure_filed_at y) eqn:Ef.
  { apply ret_ok in H as [-> ->]. apply (Hstay None); try done. by rewrite andb_false_r. }
  destruct (is_running y || (n <? e)) eqn:Er.
  { apply ret_ok in H as [-> ->]. apply (Hstay None); try done.
    by replace (negb (is_running y) && (e <=? n)) with false by (destruct (is_running y); simpl in *; lia). }
  replace (negb (is_running y) && (e <=? n)) with true in * by (destruct (is_running y); simpl in *; lia).
  apply bind_ok in H as (g & s1 & E & H). apply bind_ok in E as (r & s2 & Eg & E). apply gets_ok in Eg as [-> ->].
  apply gets_ok in E as [Eg ->]. rewrite <- Et in Eg.
  assert (Hch : churned t (organizations (Payments.account s)) = match g with Some o => String.eqb (org_status o) REQUIRED_STATUS | None => false end)
    by (unfold churned; by rewrite <- Eg).
  rewrite Hch in Hstay |- *. clear Eg. destruct g as [g|]; simpl in H; [|apply ret_ok in H as [-> ->]; by apply (Hstay (Some Blocked))].
  destruct (String.eqb (org_status g) REQUIRED_STATUS); simpl in H; [|apply ret_ok in H as [-> ->]; by apply (Hstay (Some Blocked))].
  clear Hstay. apply bind_ok in H as (q & s1 & E & H). pose proof E as EV. apply frames_request in EV.
  apply request_files in E as (HC & HE & e1 & Hon); [|done].
  apply bind_ok in H as (u & s2 & E2 & H). apply ret_ok in H as [-> ->].
  apply bind_ok in E2 as (n' & s3 & E3 & E2). apply ret_ok in E3 as [-> ->].
  apply bind_ok in E2 as (r & s3 & E3 & E2). apply gets_ok in E3 as [-> ->]. apply modify_ok in E2 as ->.
  unfold view in EV. injection EV as V1 V2 V3 _. fold (trials_of s1) (trials_of s) in V2.
  assert (HT : trials_of (with_account (fun a => with_trials (update (fun x => (tr_tenant x =? rls (wallet s1))
    && by_id tr_id (tr_id y) x) (filed n) (tenant_trials a)) a) s1) = update (fun x => (tr_tenant x =? t) && by_id tr_id (tr_id y) x) (filed n) (trials_of s)).
  { unfold trials_of at 1. simpl. rewrite V1, <- Et. fold (trials_of s1). by rewrite V2. }
  rewrite HT. split; [|split; [done|split; [|intros _; by exists e1]]].
  - split; [done|done|done| |rewrite HT; intros _; by apply update_pk_ok].
    intros u' Hu. rewrite HT. apply rows_other with (t := t); [done| |done]. intros z Hz. lia.
  - assert (left_as n t (organizations (Payments.account s)) y = filed n y) as ->.
    { unfold left_as, owed, erasure_due. rewrite Ee, Ef, Hch. apply orb_false_iff in Er as [-> Er].
      simpl. by replace (e <=? n) with true by lia. }
    apply (rows_edit t (trials_of s)); try done.
    + unfold by_id. lia.
    + intros z Hz. unfold by_id in Hz. lia.
Qed.

Lemma apart_opened t s s' : apart t (opened t s) s' -> apart t s s'.
Proof. intros [A B C D E]. by split. Qed.

Lemma ended_keys n C y : (tr_id (ended n C y), tr_tenant (ended n C y), started_at (ended n C y)) = (tr_id y, tr_tenant y, started_at y).
Proof. unfold ended. by destruct (up n C y) as [[? ?]|]. Qed.

(** One tenant's night, from the state it starts with. *)
Lemma sweep_tenant_spec n t s w s' :
  pk_ok tr_id (trials_of s) -> sweep_tenant engine is_developer_workspace n t s = (w, s') ->
  apart t s s' /\ if failed w then unserved n t s w s' else served n t s w s'.
Proof.
  intros Hpk H. unfold sweep_tenant, in_session in H.
  destruct (close_if_expired _ _ t n (opened t s)) as [[b s1]|] eqn:E1.
  2:{ injection H as <- <-. split; [apply apart_refl|]. by split. }
  apply close_exact in E1 as [A1 D1]; [|done|exact Hpk]. apply apart_opened in A1.
  change (trials_of (opened t s)) with (trials_of s) in D1. change (Payments.account (opened t s)) with (Payments.account s) in D1.
  pose proof (ap_pk _ _ _ A1 Hpk) as Hpk1.
  destruct (file_erasure_if_due t n (opened t s1)) as [[o s2]|] eqn:E2; injection H as <- <-; simpl.
  - apply file_exact in E2 as [A2 D2]; [|done|exact Hpk1]. apply apart_opened in A2.
    change (trials_of (opened t s1)) with (trials_of s1) in D2. change (Payments.account (opened t s1)) with (Payments.account s1) in D2.
    split; [by eapply apart_trans|]. unfold served. rewrite (ap_orgs _ _ _ A1) in D2.
    destruct (newest_trial t t (trials_of s)) as [y|] eqn:Ey.
    + destruct D1 as [-> D1]. rewrite (became_newest t y _ _ _ Hpk Ey D1 (ended_keys _ _ _)) in D2.
      destruct D2 as (-> & D2 & D3). split; [done|]. split; [|done]. eapply became_trans; [|exact D1|exact D2].
      by pose proof (ended_keys n (calls (Payments.account s)) y) as [= ? ? ?].
    + destruct D1 as [-> ->]. change (trials_of (opened t s)) with (trials_of s) in D2. rewrite Ey in D2. destruct D2 as [-> D2]. done.
  - split; [done|]. unfold unserved. split; [done|]. simpl. destruct (newest_trial t t (trials_of s)) as [y|] eqn:Ey.
    + destruct D1 as [-> D1]. destruct (up n (calls (Payments.account s)) y) eqn:Eu.
      * exists y. rewrite Eu. done.
      * unfold ended in D1. rewrite Eu in D1. rewrite D1. symmetry. apply (became_same t y (trials_of s) Hpk).
        by apply newest_spec in Ey as (? & _).
    + by destruct D1 as [-> ->].
Qed.

(** Every tenant of a pass, each from its own state. *)
Definition nightly (n : instant) t s (w : swept) s' : Prop := if failed w then unserved n t s w s' else served n t s w s'.

Lemma nightly_after n t u s s1 w s' :
  t <> u -> apart u s s1 -> nightly n t s1 w s' -> nightly n t s w s'.
Proof.
  intros Hu [A B _ D _] H. unfold nightly, served, unserved, became in *. rewrite newest_rows in *.
  rewrite ?A, ?B, ?(D t Hu) in H. exact H.
Qed.

(** What a pass over [l] leaves alone. *)
Record spared (l : list uuid) s s' : Prop := Spared {
  sp_orgs : organizations (Payments.account s') = organizations (Payments.account s);
  sp_calls : calls (Payments.account s') = calls (Payments.account s);
  sp_erasures : incl (erasures (Payments.account s)) (erasures (Payments.account s'));
  sp_rows : forall u, ~ In u l -> rows u (trials_of s') = rows u (trials_of s)
}.

Lemma nightly_spared n t l s w s1 s' :
  ~ In t l -> spared l s1 s' -> nightly n t s w s1 -> nightly n t s w s'.
Proof.
  intros Hl [_ _ C D] H. unfold nightly, served, unserved, became in *. rewrite (D t Hl).
  destruct (failed w); [exact H|]. destruct (newest_trial t t (trials_of s)); [|exact H].
  destruct H as (H1 & H2 & H3). split; [exact H1|]. split; [exact H2|]. intros Ho.
  destruct (H3 Ho) as (e & He & Hx). exists e. split; [by apply C|done].
Qed.

Lemma sweep_spec n l s ws s' :
  NoDup l -> pk_ok tr_id (trials_of s) -> sweep engine is_developer_workspace n l s = (ws, s') ->
  map fst ws = l /\ (forall t w, In (t, w) ws -> nightly n t s w s') /\ spared l s s'.
Proof.
  revert s ws. induction l as [|t l IH]; intros s ws Hnd Hpk H; simpl in H.
  { injection H as <- <-. split; [done|]. split; [done|]. split; try done. apply incl_refl. }
  destruct (sweep_tenant _ _ n t s) as [w s1] eqn:E1. destruct (sweep _ _ n l s1) as [ws1 s2] eqn:E2. injection H as <- <-.
  apply NoDup_cons in Hnd as [Ht Hnd]. rewrite list_elem_of_In in Ht.
  destruct (sweep_tenant_spec n t s w s1 Hpk E1) as [A D].
  destruct (IH s1 ws1 Hnd (ap_pk _ _ _ A Hpk) E2) as (F & G & U). simpl.
  split; [by rewrite F|]. split.
  - intros u w' [[= <- <-]|Hin]; [by eapply nightly_spared|]. eapply nightly_after; [|exact A|by apply G].
    intros ->. apply Ht. rewrite <- F. apply in_map_iff. by exists (t, w').
  - destruct A as [A1 A2 A3 A4 _], U as [U1 U2 U3 U4]. split; [congruence|congruence| |].
    + intros x Hx. auto.
    + intros u Hu. simpl in Hu. rewrite U4 by tauto. apply A4. intros ->. tauto.
Qed.

(** The walk reaches a prefix of the fleet, and all of it before the deadline. *)
Lemma walk_loop_takes {X} (key : X -> string) (c : FleetWalk.conditions X) k b items stored reached stored' b' :
  FleetWalk.walk_loop key c k b items stored = (reached, stored', b') ->
  exists rest, items = reached ++ rest
    /\ ((forall x, FleetWalk.finishes c x = true) -> FleetWalk.exhausted b = false ->
        (forall j, FleetWalk.monotonic c j < FleetWalk.deadline b) -> rest = []).
Proof.
  revert k b stored reached stored' b'. induction items as [|x items IH]; intros k b stored reached stored' b' H; simpl in H.
  { injection H as <- <- <-. by exists []. }
  destruct (FleetWalk.spent (FleetWalk.monotonic c k) b) as [over b1] eqn:Es.
  destruct over.
  { injection H as <- <- <-. exists (x :: items). split; [done|]. intros _ Hb Hm. unfold FleetWalk.spent in Es.
    rewrite Hb in Es. specialize (Hm k). destruct (FleetWalk.deadline b <=? _) eqn:E; [lia|done]. }
  destruct (FleetWalk.finishes c x) eqn:Ef; simpl in H.
  2:{ injection H as <- <- <-. exists (x :: items). split; [done|]. intros Hf. specialize (Hf x). congruence. }
  destruct (FleetWalk.walk_loop key c (S k) b1 items _) as [[r st] b2] eqn:E. injection H as <- <- <-.
  destruct (IH _ _ _ _ _ _ E) as (rest & -> & Hr). exists rest. split; [done|]. intros Hf Hb Hm. apply Hr; [done|..].
  - unfold FleetWalk.spent in Es. rewrite Hb in Es. destruct (_ <=? _); [done|]. by injection Es as <-.
  - unfold FleetWalk.spent in Es. rewrite Hb in Es. destruct (_ <=? _); [done|]. by injection Es as <-.
Qed.

Lemma directory_nodup s : pk_ok org_id (organizations (Payments.account s)) -> NoDup (directory s).
Proof.
  intros H. unfold directory. rewrite (order_by_perm _ _). unfold pk_ok in H. unfold select.
  by apply NoDup_map_filter.
Qed.

(** C22. The nightly sweep does for each live organisation it reaches exactly what its
    newest trial is owed at the start of the night, and nothing to its other trials: a
    trial past its end date is ended at that date, one whose calls used its minutes now;
    an ended trial whose erasure is due and not filed is stamped filed, with a request on
    file, if the account is closed, and reported blocked if it is not; a tenant without a
    trial keeps none.  A tenant's failure costs only that tenant's own half of the work,
    an unreached one's trials are as they were, the totals are the counts of these
    outcomes, and a walk within its deadline reaches every tenant. *)
Theorem sweep_settles monotonic began readable writable stored n s tot stored' s' :
  pk_ok tr_id (trials_of s) -> pk_ok org_id (organizations (Payments.account s)) ->
  sweep_trials engine is_developer_workspace monotonic began readable writable stored n s = (tot, stored', s') ->
  exists ws,
    NoDup (map fst ws) /\ incl (map fst ws) (directory s) /\ tot = count_up (length (directory s)) ws
    /\ (forall t w, In (t, w) ws -> if failed w then unserved n t s w s' else served n t s w s')
    /\ (forall u, ~ In u (map fst ws) -> rows u (trials_of s') = rows u (trials_of s))
    /\ ((forall j, monotonic j < began + FleetWalk.FLEET_WALK_DEADLINE) -> incl (directory s) (map fst ws)).
Proof.
  intros Hpk Ho H. unfold sweep_trials in H. destruct (FleetWalk.resumed_walk _ _ _ _ _) as [[reached st] b] eqn:Ew.
  destruct (sweep _ _ n reached s) as [ws s1] eqn:Es. injection H as <- <- <-. exists ws.
  unfold FleetWalk.resumed_walk in Ew. apply walk_loop_takes in Ew as (rest & Er & Hall).
  pose proof (FleetWalk.rotate_perm Envelope.Envelope.uuid_text (directory s) (FleetWalk.last_reached readable stored)) as Hp.
  simpl in Er. rewrite Er in Hp.
  assert (Hnd : NoDup reached).
  { apply (NoDup_app reached rest). rewrite Hp. by apply directory_nodup. }
  destruct (sweep_spec n reached s ws s1 Hnd Hpk Es) as (-> & G & [_ _ _ U]).
  split; [done|]. split; [intros x Hx; apply (Permutation_in _ Hp), in_or_app; by left|].
  do 3 (split; [done|]). intros Hm x Hx. rewrite (Hall (fun _ => eq_refl) eq_refl Hm), app_nil_r in Hp.
  by apply (Permutation_in _ (Permutation_sym Hp)).
Qed.
End Laws.

(** ** A concrete night *)
Module Example.
Definition no_developer (_ : string) : bool := false.
Definition day (n : Z) : instant := timedelta_days n.
(** Client 7's trial has run out; client 8's ended unpaid 40 days ago and its account is
    closed; client 9's the same, but its account is still open. *)
Definition trials : list trial :=
  [Trial 1 7 7 (day 50) (day 57) TRIAL_ACTIVE None None (Some (day 87)) None None (Some 15);
   Trial 2 8 7 (day 10) (day 17) TRIAL_EXPIRED (Some (day 17)) (Some EXPIRY_REASON) (Some (day 47)) None None None;
   Trial 3 9 7 (day 10) (day 17) TRIAL_EXPIRED (Some (day 17)) (Some EXPIRY_REASON) (Some (day 47)) None None None].
Definition org (i : uuid) (st : string) : organization := Organization i st None None None None.
Definition fleet : platform :=
  Pay Account.account (blank_db 0) (RateCard.RateCard.RatesDb [] []) [] [] [] []
    (Acct [] [] trials [org 7 "active"; org 8 "churned"; org 9 "active"] [] [] [] [] []).
Abbreviation night :=
  (sweep_trials "thinnest" no_developer (fun _ => 0) 0 true (fun _ => true) None (day 57) fleet).
Definition after : platform := let '(_, _, s) := night in s.

Example night_run : exists st, night = (Totals 3 1 1 1 0 0, st, after).
Proof. eexists. vm_compute. reflexivity. Qed.
End Example.
Import Example.

(** The three clients' trials in the morning. *)
Definition morning : list (uuid * option trial) :=
  map (fun t => (t, newest_trial t t (trials_of after))) [7; 8; 9].

Lemma sweep_settles_witness :
  exists ws, (forall t w, In (t, w) ws -> if failed w then unserved (day 57) t fleet w after else served (day 57) t fleet w after)
    /\ incl [7; 8; 9] (map fst ws)
    /\ morning = [(7, Some (closed TRIAL_EXPIRED (day 57) EXPIRY_REASON (Some (day 87))
                              (Trial 1 7 7 (day 50) (day 57) TRIAL_ACTIVE None None (Some (day 87)) None None (Some 15))));
                  (8, Some (filed (day 57) (Trial 2 8 7 (day 10) (day 17) TRIAL_EXPIRED (Some (day 17)) (Some EXPIRY_REASON)
                              (Some (day 47)) None None None)));
                  (9, Some (Trial 3 9 7 (day 10) (day 17) TRIAL_EXPIRED (Some (day 17)) (Some EXPIRY_REASON)
                              (Some (day 47)) None None None))].
Proof.
  destruct night_run as (st & Hrun).
  assert (Hd : directory fleet = [7; 8; 9]) by (vm_compute; reflexivity).
  destruct (sweep_settles "thinnest" no_developer (fun _ => 0) 0 true (fun _ => true) None (day 57) fleet
              (Totals 3 1 1 1 0 0) st after) as (ws & _ & _ & _ & Hs & _ & Hall).
  - apply NoDup_ListNoDup. vm_compute. repeat constructor; simpl; intuition discriminate.
  - apply NoDup_ListNoDup. vm_compute. repeat constructor; simpl; intuition discriminate.
  - exact Hrun.
  - exists ws. split; [exact Hs|]. specialize (Hall ltac:(intros j; vm_compute; reflexivity)). rewrite Hd in Hall.
    split; [exact Hall|]. vm_compute. reflexivity.
Defined.

End TrialSweep.
