(* ===== verification/TrialAccess.v ===== *)
(** * What a free trial may do

    apps/api/compliance/trial_access.py: an account on a trial that has not converted and
    has not paid may place test calls, within the trial's minutes and a daily cap, and
    nothing else. *)

From Stdlib Require Import ZArith Lia List.
From stdpp Require Import base list strings pretty relations.
From S2P Require Import Prelude PyDecimal Sql PyTime WalletDb RateCard Payments Account Caps Workspaces Trials FirstPayment.

Local Open Scope string_scope.
Local Open Scope list_scope.
Local Open Scope Z_scope.
Local Open Scope tx_scope.

Import Payments Account Trials.

Module TrialAccess.

Definition TRIAL_MIN_CALL_SECONDS : Z := 60.
Definition ADD_CREDIT_STEP : string := "Add credit from Billing to go live.".

(** What a trial account is refused, and the rule of each refusal. *)
Inductive TrialLocked := campaigns | numbers | kyc | inbound | live_outbound.
Definition TRIAL_REFUSALS (locked : TrialLocked) : string :=
  match locked with
  | campaigns => "trial_campaigns_unavailable"
  | numbers => "trial_numbers_unavailable"
  | kyc => "trial_kyc_unavailable"
  | inbound => "trial_inbound_unavailable"
  | live_outbound => "trial_live_outbound_unavailable"
  end.
Definition TRIAL_ENDED_RULE : string := "trial_ended".
Definition TRIAL_MINUTES_USED_RULE : string := "trial_minutes_used".
Definition TRIAL_DAILY_CAP_RULE : string := "trial_daily_cap".
Definition TRIAL_DIAL_REFUSALS : list string :=
  [TRIAL_REFUSALS live_outbound; TRIAL_ENDED_RULE; TRIAL_MINUTES_USED_RULE; TRIAL_DAILY_CAP_RULE].

Definition restricting_trial (tenant_id : uuid) : tx platform (option trial) :=
  t ← read_trial tenant_id ;
  match t with
  | None => ret None
  | Some t =>
      if String.eqb (tr_status t) TRIAL_CONVERTED then ret None
      else paid ← FirstPayment.has_paid tenant_id ; ret (if paid : bool then None else Some t)
  end.

Definition trial_blocker (tenant_id : uuid) (locked : TrialLocked) : tx platform (option string) :=
  t ← restricting_trial tenant_id ;
  ret (match t with None => None | Some _ => Some (TRIAL_REFUSALS locked) end).

Definition refuse_on_trial (tenant_id : uuid) (locked : TrialLocked) : tx platform unit :=
  blocked ← trial_blocker tenant_id locked ;
  match blocked with Some rule => raise (Problem BusinessRule rule) | None => ret tt end.

Definition refuse_trial_numbers (tenant_id : uuid) : tx platform unit := refuse_on_trial tenant_id numbers.

(** Midnight in India of the instant's day. *)
Definition ist_day_start (at_ : instant) : instant := of_ist (DateTime (dt_date (to_ist at_)) 0).

Record TrialAccess := Access {
  ta_trial : trial; seconds_used : Z; calls_today : nat; daily_cap : Z; max_call_seconds : Z; ta_at : instant }.

Definition free_seconds (a : TrialAccess) : option Z := option_map (fun m => m * 60) (free_minutes (ta_trial a)).
Definition minutes_used (a : TrialAccess) : Z := minutes_of (seconds_used a).
Definition minutes_left (a : TrialAccess) : option Z :=
  option_map (fun free => Z.max 0 ((free - seconds_used a) / 60)) (free_seconds a).
Definition ended (a : TrialAccess) : option string :=
  if match free_seconds a with Some free => free <=? seconds_used a | None => false end then Some TRIAL_MINUTES_USED_RULE
  else if negb (String.eqb (tr_status (ta_trial a)) TRIAL_ACTIVE) || negb (is_active (ta_at a) (ta_trial a))
  then Some TRIAL_ENDED_RULE
  else None.
Definition call_seconds (a : TrialAccess) : Z :=
  let limit := match free_seconds a with
               | Some free => Z.min (max_call_seconds a) (free - seconds_used a)
               | None => max_call_seconds a
               end in
  Z.max TRIAL_MIN_CALL_SECONDS limit.
Definition blocker (a : TrialAccess) : option string :=
  match ended a with
  | Some rule => Some rule
  | None => if daily_cap a <=? Z.of_nat (calls_today a) then Some TRIAL_DAILY_CAP_RULE else None
  end.

Section Access.
(** The settings [trial_daily_call_cap] and [trial_call_max_seconds]. *)
Context (trial_daily_call_cap trial_call_max_seconds : Z).

Definition read_trial_access (tenant_id : uuid) (at_ : option instant) : tx platform (option TrialAccess) :=
  t ← restricting_trial tenant_id ;
  match t with
  | None => ret None
  | Some t =>
      n ← or_now at_ ;
      used ← trial_seconds_used tenant_id t ;
      today ← trial_calls_since tenant_id (ist_day_start n) ;
      ret (Some (Access t used today trial_daily_call_cap trial_call_max_seconds n))
  end.
End Access.

(** ** The minutes of a trial

    What a trial's test calls came to, and the states its account goes through when one
    call is placed and ended at a time. *)
Section Bounds.
Context (trial_daily_call_cap trial_call_max_seconds : Z).
Abbreviation read_access := (read_trial_access trial_daily_call_cap trial_call_max_seconds).
Implicit Types s : platform.

Definition seconds (c : call) : Z := match duration_s c with Some d => d | None => 0 end.
Definition test_calls (tenant : uuid) (since : instant) (t : list call) : list call :=
  select (fun c => mine ca_tenant tenant tenant c && trial_call c && (since <=? ca_created_at c)) t.
Definition total (l : list call) : Z := fold_right Z.add 0 (map seconds l).
Definition used (tenant : uuid) (since : instant) s : Z := total (test_calls tenant since (calls (Payments.account s))).

Definition add_call (c : call) (a : account) : account :=
  Acct (plans a) (spend_state a) (tenant_trials a) (organizations a) (go_live_guides a) (workspaces a) (live_apply_runs a)
    (calls a ++ [c]) (erasures a).

(** The account's newest trial began at [since] with [m] minutes. *)
Definition on_trial (tenant : uuid) (since : instant) (m : Z) s : Prop :=
  exists y, newest_trial tenant tenant (tenant_trials (Payments.account s)) = Some y
    /\ started_at y = since /\ free_minutes y = Some m.

(** A test call placed on an allowance read when the calls before it were over; or
    anything that leaves the trial and its test calls. *)
Inductive test_step (tenant : uuid) (since : instant) (m : Z) : platform -> platform -> Prop :=
| step_call s at_ a s1 i d n st :
    rls (wallet s) = tenant -> read_access tenant at_ s = Ok (Some a, s1) -> blocker a = None -> d <= call_seconds a ->
    test_step tenant since m s (with_account (add_call (Call i tenant None true (Some d) n st)) s1)
| step_other s s' :
    (on_trial tenant since m s -> on_trial tenant since m s') -> used tenant since s' = used tenant since s ->
    test_step tenant since m s s'.

Lemma total_app l1 l2 : total (l1 ++ l2) = total l1 + total l2.
Proof. unfold total. rewrite map_app. induction (map seconds l1) as [|x l IH]; simpl; lia. Qed.

Lemma has_paid_same tenant s b s' : FirstPayment.has_paid tenant s = Ok (b, s') -> s' = s.
Proof.
  intros H. apply bind_ok in H as (o & s1 & E & H). apply ret_ok in H as [_ ->].
  apply bind_ok in E as (r & s2 & E1 & E). apply gets_ok in E1 as [-> ->]. by apply gets_ok in E as [_ ->].
Qed.

(** What an allowance is read from. *)
Lemma access_spec tenant since m at_ s a s1 :
  rls (wallet s) = tenant -> on_trial tenant since m s -> read_access tenant at_ s = Ok (Some a, s1) ->
  Payments.account s1 = Payments.account s /\ started_at (ta_trial a) = since /\ free_minutes (ta_trial a) = Some m
  /\ seconds_used a = used tenant since s /\ max_call_seconds a = trial_call_max_seconds.
Proof.
  intros Hr (y & Hy & Hs & Hm) H. apply bind_ok in H as (t & s2 & E & H).
  apply bind_ok in E as (t' & s3 & E' & E). cbv [read_trial session_tenant read bind gets] in E'. rewrite Hr, Hy in E'.
  injection E' as <- <-. destruct (String.eqb _ _); [apply ret_ok in E as [-> ->]; by apply ret_ok in H as [? _]|].
  apply bind_ok in E as (b & s3 & E1 & E). apply has_paid_same in E1 as ->. apply ret_ok in E as [-> ->].
  destruct b; [by apply ret_ok in H as [? _]|]. apply bind_ok in H as (n & s2 & E & H).
  assert (rls (wallet s2) = tenant /\ Payments.account s2 = Payments.account s) as [R A].
  { destruct at_ as [t|]; [by apply ret_ok in E as [_ ->]|]. injection E as _ <-. done. }
  apply bind_ok in H as (u & s3 & E1 & H). cbv [trial_seconds_used session_tenant read bind gets] in E1. injection E1 as <- <-.
  apply bind_ok in H as (k & s3 & E1 & H). cbv [trial_calls_since session_tenant read bind gets] in E1. injection E1 as <- <-.
  apply ret_ok in H as [[= ->] ->]. simpl. repeat split; try done. by rewrite R, A, Hs.
Qed.

Lemma call_within a m :
  free_minutes (ta_trial a) = Some m -> blocker a = None ->
  seconds_used a < m * 60 /\ seconds_used a + call_seconds a < m * 60 + 60.
Proof.
  intros Hm Hb. unfold blocker, ended, call_seconds, free_seconds, TRIAL_MIN_CALL_SECONDS in *. rewrite Hm in *. simpl in *.
  destruct (Z.leb_spec (m * 60) (seconds_used a)); [done|]. lia.
Qed.

Lemma test_step_bound tenant since m s s' :
  test_step tenant since m s s' -> on_trial tenant since m s -> used tenant since s < m * 60 + 60 ->
  on_trial tenant since m s' /\ used tenant since s' < m * 60 + 60.
Proof.
  intros [s0 at_ a s1 i d n st Hr Ha Hb Hd|s0 s1 Ho Hu] Ht Hlt; [|rewrite Hu; auto].
  destruct (access_spec _ _ _ _ _ _ _ Hr Ht Ha) as (A & _ & Hm & Es & _). destruct (call_within a m Hm Hb) as [_ Hc].
  split; [by destruct Ht as (y & Hy); exists y; simpl; rewrite A|].
  unfold used, test_calls, select in *. simpl. rewrite A, List.filter_app, total_app. simpl.
  destruct (_ && _); unfold total at 2, seconds; simpl; lia.
Qed.

(** C25. A free trial's test calls never come to a minute more than its free minutes, when
    each is placed on an allowance read once the calls before it are over, whatever else
    happens to the account; and once the minutes are used, every further test call is
    refused for that. *)
Theorem test_calls_bounded tenant since m s s' :
  on_trial tenant since m s -> used tenant since s < m * 60 + 60 -> rtc (test_step tenant since m) s s' ->
  on_trial tenant since m s' /\ used tenant since s' < m * 60 + 60
  /\ forall at_ a s1, rls (wallet s') = tenant -> m * 60 <= used tenant since s' ->
       read_access tenant at_ s' = Ok (Some a, s1) -> blocker a = Some TRIAL_MINUTES_USED_RULE.
Proof.
  intros Ht Hu H. assert (on_trial tenant since m s' /\ used tenant since s' < m * 60 + 60) as [Ht' Hu'].
  { induction H as [|s1 s2 s3 H _ IH]; [done|]. destruct (test_step_bound _ _ _ _ _ H Ht Hu). by apply IH. }
  split; [done|]. split; [done|]. intros at_ a s1 Hr Hm Ha.
  destruct (access_spec _ _ _ _ _ _ _ Hr Ht' Ha) as (_ & _ & Hf & Es & _).
  unfold blocker, ended, free_seconds. rewrite Hf. simpl. by destruct (Z.leb_spec (m * 60) (seconds_used a)); [|lia].
Qed.
End Bounds.

(** ** An example: ten free minutes *)
Definition example_trial : trial :=
  Trial 1 7 14 0 (14 * US_PER_DAY) TRIAL_ACTIVE None None None None None (Some 10).
Definition example_account (served : list call) : account :=
  Acct [] [] [example_trial] [Organization 7 "live" None None None None] [] [] [] served [].
Definition example_state (served : list call) : platform :=
  Pay account (Db 7 0 (fun n => Z.of_nat n + 1) Z.of_nat [] [] [] []) (RateCard.RatesDb [] []) [] [] [] [] (example_account served).
Definition example_access (served : list call) : option TrialAccess :=
  match read_trial_access 5 600 7 (Some 100) (example_state served) with Ok (a, _) => a | Err _ => None end.
Definition served (d : Z) (at_ : instant) : call := Call at_ 7 None true (Some d) at_ "completed".

(** The allowance is not read again under the lock on the shared line: two calls placed on
    one reading, the second once the first is over, come to twice the minutes. *)
Lemma stale_allowance_overruns :
  exists a, example_access [] = Some a /\ blocker a = None /\ call_seconds a = 600
    /\ used 7 0 (example_state [served (call_seconds a) 100; served (call_seconds a) 200]) = 1200.
Proof. eexists. split; [vm_compute; reflexivity|]. by vm_compute. Qed.

Lemma example_step l d n :
  match example_access l with Some a => blocker a = None /\ d <= call_seconds a | None => False end ->
  test_step 5 600 7 0 10 (example_state l) (example_state (l ++ [served d n])).
Proof.
  unfold example_access. destruct (read_trial_access 5 600 7 (Some 100) (example_state l)) as [[[a|] s1]|e] eqn:E; try done. intros [Hb Hd].
  assert (s1 = example_state l) as ->.
  { unfold read_trial_access in E. apply bind_ok in E as (t & s2 & E1 & E).
    assert (s2 = example_state l) as ->.
    { apply bind_ok in E1 as (y & s3 & E2 & E1). injection E2 as <- <-. injection E1 as <- <-. done. }
    destruct t; [|done]. cbv [or_now bind ret trial_seconds_used trial_calls_since session_tenant read gets] in E. by injection E as _ <-. }
  exact (step_call 5 600 7 0 10 (example_state l) (Some 100) a (example_state l) n d n "completed" eq_refl E Hb Hd).
Qed.

Lemma test_calls_bounded_witness :
  used 7 0 (example_state [served 540 100; served 60 700]) < 10 * 60 + 60
  /\ match example_access [served 540 100; served 60 700] with
     | Some a => blocker a = Some TRIAL_MINUTES_USED_RULE
     | None => False
     end.
Proof.
  assert (Ht : on_trial 7 0 10 (example_state [])) by (exists example_trial; vm_compute; auto).
  assert (H : rtc (test_step 5 600 7 0 10) (example_state []) (example_state [served 540 100; served 60 700])).
  { eapply rtc_l; [apply (example_step [] 540 100); vm_compute; split; [reflexivity|discriminate]|].
    apply rtc_once. apply (example_step [served 540 100] 60 700). vm_compute. split; [reflexivity|discriminate]. }
  destruct (test_calls_bounded 5 600 7 0 10 (example_state []) _ Ht ltac:(vm_compute; reflexivity) H) as (_ & Hu & Hr).
  split; [exact Hu|]. unfold example_access.
  destruct (read_trial_access 5 600 7 (Some 100) (example_state [served 540 100; served 60 700])) as [[[a|] s1]|e] eqn:E.
  - apply (Hr (Some 100) a s1); [reflexivity|vm_compute; discriminate|exact E].
  - vm_compute in E. discriminate.
  - vm_compute in E. discriminate.
Defined.

End TrialAccess.
