(* ===== verification/PlatformFee.v ===== *)
(** * The monthly platform fee

    apps/api/billing/platform_fee.py, the writes of platform_fee_routes.py and the hourly
    job of apps/workers/billing.py: one fee per client and month, settled by a payment of
    its own and never from the wallet; outbound calling pauses while one is overdue.  The
    tables complete those of the payments code and of auto-recharge. *)

From Stdlib Require Import ZArith Lia List QArith Lqa.
From stdpp Require Import base list strings relations.
From S2P Require Import Prelude PyDecimal Sql PyTime AuditLog WalletDb RateCard Ledger Envelope Payments AutoRecharge RechargeRun FleetWalk Account Trials FirstPayment TrialAccess.

Local Open Scope string_scope.
Local Open Scope list_scope.
Local Open Scope Z_scope.
Local Open Scope tx_scope.

Import Payments Account AutoRecharge.

Module PlatformFee.

Definition GRACE_PERIOD : Z := 7 * US_PER_DAY.
Definition REMINDER_BEFORE : Z := 2 * US_PER_DAY.
Definition PLATFORM_FEE_RULE : string := "platform_fee_overdue".

(** ** The tables *)

(** [monthly_fee_charges]. *)
Record fee_row := FeeRow {
  fc_id : uuid; fc_tenant : uuid; period : string; fc_amount : Q; issued_at : instant; grace_ends_at : instant;
  provider_order_id : option string; issued_notice_sent_at : option instant; reminder_sent_at : option instant;
  paused_notice_sent_at : option instant }.

(** [monthly_fee_payments]. *)
Record fee_payment := FeePayment {
  fp_id : uuid; fp_tenant : uuid; charge_id : uuid; fp_amount : Q; fp_method : string; payment_ref : string;
  recorded_by : option uuid; fp_paid_at : instant }.

(** The columns of [organizations] the fee reads, by the organisation's id. *)
Record standing := Standing {
  so_org : uuid; plan_tier : string; billing_email : option string; waived_at : option instant;
  waiver_reason : option string; waived_by : option uuid }.

Record fees := Fees {
  books : recharge account; fee_charges : list fee_row; fee_payments : list fee_payment; standings : list standing }.

Definition with_books b (s : fees) : fees := Fees b (fee_charges s) (fee_payments s) (standings s).
Definition with_fee_charges t (s : fees) : fees := Fees (books s) t (fee_payments s) (standings s).
Definition with_fee_payments t (s : fees) : fees := Fees (books s) (fee_charges s) t (standings s).
Definition with_standings t (s : fees) : fees := Fees (books s) (fee_charges s) (fee_payments s) t.

(** A computation of the tables below, in the wider transaction. *)
Definition on_books {B} (m : tx (recharge account) B) : tx fees B :=
  fun s => match m (books s) with Ok (b, r) => Ok (b, with_books r s) | Err e => Err e end.
Definition on_platform {B} (m : tx platform B) : tx fees B := on_books (on_desk m).
Definition on_db {B} (m : tx db B) : tx fees B := on_platform (on_wallet m).
Definition session_tenant : tx fees uuid := gets (fun s => rls (wallet (desk (books s)))).

(** [fee_refs] of the payments' tables is this table as disputes.py reads it: the
    references of the payments the provider took. *)
Definition ref_of (p : fee_payment) : uuid * string := (fp_tenant p, payment_ref p).
Definition by_provider (p : fee_payment) : bool := String.eqb (fp_method p) "razorpay".
Definition refs_of (t : list fee_payment) : list (uuid * string) := map ref_of (select by_provider t).
Definition with_fee_refs t (d : platform) : platform :=
  Pay account (wallet d) (rates d) (refund_intents d) (payment_disputes d) (audit_log d) t (Payments.account d).

(** ** The switch and the status *)

Record FeeSwitch := Switch { sw_enabled : bool; sw_amount_inr : option Q }.
Definition charging (w : FeeSwitch) : bool := sw_enabled w && is_given (sw_amount_inr w).

(** A fee with the payment that settled it. *)
Record FeeCharge := Fee { fee : fee_row; paid_at : option instant; payment_method : option string }.
Definition paid (c : FeeCharge) : bool := is_given (paid_at c).

Inductive FeeStatus := Paid | Due | Overdue | Waived.
Inductive Exemption := ByTrial | ByWaiver.
Definition fee_status (c : FeeCharge) (at_ : instant) (exemption : option Exemption) (w : FeeSwitch) : FeeStatus :=
  if paid c then Paid
  else if is_given exemption || negb (sw_enabled w) then Waived
  else if at_ <? grace_ends_at (fee c) then Due else Overdue.

(** [LEFT JOIN monthly_fee_payments]: a charge has one payment at most. *)
Definition payment_of (r : uuid) (t : list fee_payment) (i : uuid) : option fee_payment :=
  head (select (fun p => (fp_tenant p =? r) && (charge_id p =? i)) t).
Definition joined (r : uuid) (t : list fee_payment) (c : fee_row) : FeeCharge :=
  let p := payment_of r t (fc_id c) in Fee c (option_map fp_paid_at p) (option_map fp_method p).

Definition charges_where (tenant_id : uuid) (p : fee_row -> bool) : tx fees (list FeeCharge) :=
  r ← session_tenant ;
  gets (fun s => map (joined r (fee_payments s)) (select (fun c => mine fc_tenant r tenant_id c && p c) (fee_charges s))).

Definition list_charges (tenant_id : uuid) (n : nat) : tx fees (list FeeCharge) :=
  cs ← charges_where tenant_id (fun _ => true) ;
  ret (limit n (order_by (fun x y => String.leb (period (fee y)) (period (fee x))) cs)).
Definition read_charge (tenant_id i : uuid) : tx fees (option FeeCharge) :=
  cs ← charges_where tenant_id (by_id fc_id i) ; ret (head cs).
Definition charge_for_order (tenant_id : uuid) (oid : string) : tx fees (option FeeCharge) :=
  cs ← charges_where tenant_id (fun c => bool_decide (provider_order_id c = Some oid)) ; ret (head cs).

Definition standing_of (tenant_id : uuid) : tx fees (option standing) :=
  r ← session_tenant ; gets (fun s => head (select (mine so_org r tenant_id) (standings s))).

Definition exemption_of (tenant_id : uuid) (at_ : instant) : tx fees (option Exemption) :=
  row ← standing_of tenant_id ;
  match row with
  | None => ret None
  | Some o =>
      if is_given (waived_at o) then ret (Some ByWaiver)
      else if String.eqb (plan_tier o) "trial" then ret (Some ByTrial)
      else
        t ← on_platform (Trials.read_trial tenant_id) ;
        if match t with Some x => Trials.is_active at_ x | None => false end then ret (Some ByTrial)
        else
          held ← on_platform (TrialAccess.restricting_trial tenant_id) ;
          ret (if is_given held then Some ByTrial else None)
  end.

Section Fees.
(** The ops console's switch. *)
Context (switch : FeeSwitch).

Definition overdue_charge (tenant_id : uuid) (at_ : option instant) : tx fees (option FeeCharge) :=
  if negb (sw_enabled switch) then ret None
  else
    n ← match at_ with Some t => ret t | None => on_db clock_timestamp end ;
    cs ← charges_where tenant_id (fun c => grace_ends_at c <=? n) ;
    match head (order_by (fun x y => issued_at (fee x) <=? issued_at (fee y)) (List.filter (fun c => negb (paid c)) cs)) with
    | None => ret None
    | Some c =>
        e ← exemption_of tenant_id n ;
        ret (if is_given e then None else Some c)
    end.
Definition platform_fee_paused (tenant_id : uuid) : tx fees bool :=
  c ← overdue_charge tenant_id None ; ret (is_given c).
End Fees.

(** ** Writes *)

Definition insert_charge (x : fee_row) : tx fees (option uuid) :=
  on_db (own_tenant (fc_tenant x)) ;;
  t ← gets fee_charges ;
  if negb (dlt 0 (fc_amount x) && (issued_at x <? grace_ends_at x)) then raise (CheckViolation "monthly_fee_charges")
  else if existsb (fun y => (fc_tenant y =? fc_tenant x) && String.eqb (period y) (period x)) t then ret None
  else if existsb (by_id fc_id (fc_id x)) t then raise (UniqueViolation "pk_monthly_fee_charges")
  else modify (with_fee_charges (t ++ [x])) ;; ret (Some (fc_id x)).

Definition issue_charge (tenant_id : uuid) (amount : Q) (at_ : instant) : tx fees (option uuid) :=
  if dle amount 0 then raise ValueError
  else
    i ← on_db WalletDb.uuid7 ;
    stored ← lift (numeric_12_4 amount) ;
    insert_charge (FeeRow i tenant_id (ist_billing_month at_) stored at_ (at_ + GRACE_PERIOD) None None None None).

Definition with_order (oid : string) (c : fee_row) : fee_row :=
  FeeRow (fc_id c) (fc_tenant c) (period c) (fc_amount c) (issued_at c) (grace_ends_at c) (Some oid)
    (issued_notice_sent_at c) (reminder_sent_at c) (paused_notice_sent_at c).
Definition attach_order (tenant_id i : uuid) (oid : string) : tx fees unit :=
  r ← session_tenant ;
  t ← gets fee_charges ;
  let q c := mine fc_tenant r tenant_id c && by_id fc_id i c in
  if existsb q t && existsb (fun c => negb (q c) && bool_decide (provider_order_id c = Some oid)) t
  then raise (UniqueViolation "ux_monthly_fee_charges_order")
  else modify (with_fee_charges (update q (with_order oid) t)).

Definition paid_with (i : uuid) : tx fees (option string) :=
  r ← session_tenant ; gets (fun s => option_map payment_ref (payment_of r (fee_payments s) i)).

(** [INSERT ... ON CONFLICT DO NOTHING RETURNING id]: whether the row went in. *)
Definition settles_same (x y : fee_payment) : bool :=
  (charge_id y =? charge_id x) || (String.eqb (fp_method y) (fp_method x) && String.eqb (payment_ref y) (payment_ref x))
  || (fp_id y =? fp_id x).
Definition insert_payment (x : fee_payment) : tx fees bool :=
  on_db (own_tenant (fp_tenant x)) ;;
  cs ← gets fee_charges ;
  t ← gets fee_payments ;
  if negb (dlt 0 (fp_amount x) && bool_decide (fp_method x ∈ ["razorpay"; "manual"]) && negb (String.eqb (payment_ref x) ""))
  then raise (CheckViolation "monthly_fee_payments")
  else if existsb (settles_same x) t then ret false
  else if negb (existsb (by_id fc_id (charge_id x)) cs)
  then raise (CheckViolation "fk_monthly_fee_payments_charge_id_monthly_fee_charges")
  else
    modify (with_fee_payments (t ++ [x])) ;;
    (if by_provider x then on_platform (modify (fun d => with_fee_refs (fee_refs d ++ [ref_of x]) d)) else ret tt) ;;
    ret true.

Definition record_payment (tenant_id : uuid) (c : FeeCharge) (amount : Q) (method ref_ : string) (paid_at_ : instant)
    (by_ : option uuid) : tx fees bool :=
  if negb (deq amount (fc_amount (fee c))) then raise (Problem Conflict "platform_fee_amount_mismatch")
  else
    i ← on_db WalletDb.uuid7 ;
    stored ← lift (numeric_12_4 amount) ;
    went_in ← insert_payment (FeePayment i tenant_id (fc_id (fee c)) stored method (Envelope.Envelope.strip ref_) by_ paid_at_) ;
    if went_in : bool then ret true
    else
      settled ← paid_with (fc_id (fee c)) ;
      match settled with
      | Some _ => ret false
      | None => raise (Problem Conflict "platform_fee_reference_used")
      end.

Record Waiver := MkWaiver { wv_at : instant; wv_reason : option string; wv_by : option uuid }.
Definition read_waiver (tenant_id : uuid) : tx fees (option Waiver) :=
  row ← standing_of tenant_id ;
  ret (match row with
       | Some o => option_map (fun t => MkWaiver t (waiver_reason o) (waived_by o)) (waived_at o)
       | None => None
       end).

Definition unwaived (o : standing) : standing := Standing (so_org o) (plan_tier o) (billing_email o) None None None.
Definition waived (at_ : instant) (why : string) (by_ : option uuid) (o : standing) : standing :=
  Standing (so_org o) (plan_tier o) (billing_email o) (Some at_) (Some why) by_.
(** The CHECK of the columns: a waiver has its reason, and none without. *)
Definition waiver_check (o : standing) : bool :=
  Bool.eqb (is_given (waived_at o)) (is_given (waiver_reason o))
  && match waiver_reason o with Some w => negb (String.eqb w "") | None => true end.
Definition update_standings (p : standing -> bool) (f : standing -> standing) : tx fees bool :=
  t ← gets standings ;
  if existsb (fun o => negb (waiver_check (f o))) (select p t) then raise (CheckViolation "platform_fee_waiver_together")
  else modify (with_standings (update p f t)) ;; ret (existsb p t).
Definition set_waiver (tenant_id : uuid) (reason : option string) (operator : option uuid) (at_ : instant) : tx fees bool :=
  r ← session_tenant ;
  match reason with
  | None => update_standings (fun o => mine so_org r tenant_id o && is_given (waived_at o)) unwaived
  | Some why =>
      let why := Envelope.Envelope.strip why in
      update_standings (fun o => mine so_org r tenant_id o && negb (bool_decide (waiver_reason o = Some why)))
        (waived at_ why operator)
  end.

(** ** The routes' transactions *)

Section Routes.
(** The audit log's key, and the switch. *)
Context (hmac_hex : string -> string -> string) (dumps : Audit.payload -> string) (audit_key : string).
Context (switch : FeeSwitch).

(** [write_audit] with an administrator as its actor. *)
Definition write_audit (tenant_id : uuid) (action object_type object_id : string) (actor : Audit.principal) (ip : option string) :
    tx fees unit :=
  i ← on_db WalletDb.uuid7 ;
  t ← on_db clock_timestamp ;
  on_platform (modify (fun d => with_audit
    (Audit.write_audit hmac_hex dumps audit_key i t action (Some actor) None (Some tenant_id) (Some object_type)
       (Some object_id) ip (audit_log d)) d)).

Definition require_tenant (tenant_id : uuid) : tx fees unit :=
  on_platform (FirstPayment.FirstPayment.assert_tenant_exists tenant_id).

(** [open_fee_order]: the transaction before the order is asked for, and the one that
    records it.  The order's amount is the fee's in paise. *)
Definition payable_fee (tenant_id i : uuid) (at_ : instant) : tx fees FeeCharge :=
  c ← read_charge tenant_id i ;
  match c with
  | None => raise (Problem NotFound "not_found")
  | Some c =>
      e ← exemption_of tenant_id at_ ;
      match fee_status c at_ e switch with
      | Paid | Waived => raise (Problem BusinessRule "platform_fee_not_payable")
      | Due | Overdue => ret c
      end
  end.
Definition record_fee_order (tenant_id : uuid) (c : FeeCharge) (oid : string) : tx fees unit :=
  on_books (record_route tenant_id oid "order" (Some "platform_fee") (Some (to_paise (fc_amount (fee c))))) ;;
  attach_order tenant_id (fc_id (fee c)) oid.

Definition waive_platform_fee (tenant_id : uuid) (reason : string) (actor : Audit.principal) (operator : option uuid)
    (ip : option string) : tx fees bool :=
  require_tenant tenant_id ;;
  n ← on_db clock_timestamp ;
  changed ← set_waiver tenant_id (Some reason) operator n ;
  (if changed : bool then
     write_audit tenant_id "tenant.platform_fee_waived" "organizations" (Envelope.Envelope.uuid_text tenant_id) actor ip
   else ret tt) ;;
  ret changed.
Definition withdraw_platform_fee_waiver (tenant_id : uuid) (actor : Audit.principal) (ip : option string) : tx fees bool :=
  require_tenant tenant_id ;;
  n ← on_db clock_timestamp ;
  changed ← set_waiver tenant_id None None n ;
  (if changed : bool then
     write_audit tenant_id "tenant.platform_fee_waiver_withdrawn" "organizations" (Envelope.Envelope.uuid_text tenant_id) actor ip
   else ret tt) ;;
  ret changed.

Definition record_manual_fee_payment (tenant_id i : uuid) (reference : string) (actor : Audit.principal) (operator : option uuid)
    (ip : option string) : tx fees (bool * FeeStatus) :=
  n ← on_db clock_timestamp ;
  require_tenant tenant_id ;;
  c ← read_charge tenant_id i ;
  match c with
  | None => raise (Problem NotFound "not_found")
  | Some c =>
      recorded ← record_payment tenant_id c (fc_amount (fee c)) "manual" reference n operator ;
      (if recorded : bool then
         write_audit tenant_id "tenant.platform_fee_paid_manually" "monthly_fee_charges"
           (Envelope.Envelope.uuid_text (fc_id (fee c))) actor ip
       else ret tt) ;;
      settled ← read_charge tenant_id i ;
      e ← exemption_of tenant_id n ;
      match settled with
      | None => raise AssertionError
      | Some y => ret (recorded, fee_status y n e switch)
      end
  end.
End Routes.

(** ** The hourly job *)

Inductive Notice := Issued | Reminder | PausedCalls.
Definition notice_due (c : FeeCharge) (n : instant) : option Notice :=
  if paid c then None
  else if grace_ends_at (fee c) <=? n then if is_given (paused_notice_sent_at (fee c)) then None else Some PausedCalls
  else if grace_ends_at (fee c) - REMINDER_BEFORE <=? n then if is_given (reminder_sent_at (fee c)) then None else Some Reminder
  else if is_given (issued_notice_sent_at (fee c)) then None else Some Issued.

(** [_STAMP]: the column of a notice, and a write of it. *)
Definition stamp (k : Notice) (c : fee_row) : option instant :=
  match k with Issued => issued_notice_sent_at c | Reminder => reminder_sent_at c | PausedCalls => paused_notice_sent_at c end.
Definition stamped (k : Notice) (v : option instant) (c : fee_row) : fee_row :=
  FeeRow (fc_id c) (fc_tenant c) (period c) (fc_amount c) (issued_at c) (grace_ends_at c) (provider_order_id c)
    (match k with Issued => v | _ => issued_notice_sent_at c end)
    (match k with Reminder => v | _ => reminder_sent_at c end)
    (match k with PausedCalls => v | _ => paused_notice_sent_at c end).

Definition claim (i : uuid) (k : Notice) (at_ : instant) : tx fees bool :=
  r ← session_tenant ;
  t ← gets fee_charges ;
  let q c := (fc_tenant c =? r) && by_id fc_id i c && negb (is_given (stamp k c)) in
  modify (with_fee_charges (update q (stamped k (Some at_)) t)) ;;
  ret (existsb q t).
Definition release (i : uuid) (k : Notice) : tx fees unit :=
  r ← session_tenant ;
  modify (fun s => with_fee_charges (update (fun c => (fc_tenant c =? r) && by_id fc_id i c) (stamped k None) (fee_charges s)) s).

(** [tenant_session]: committed whole, or not at all. *)
Definition opened (tenant_id : uuid) (s : fees) : fees := with_books (RechargeRun.RechargeRun.opened tenant_id (books s)) s.
Definition in_session {B} (tenant_id : uuid) (m : tx fees B) (s : fees) : result B * fees :=
  match m (opened tenant_id s) with Ok (b, s') => (Ok b, s') | Err e => (Err e, s) end.

Inductive TenantOutcome := Exempt | IssuedFee | Noticed | Nothing | NoBillingEmail | SendFailed.

(** The first session of [settle_tenant]. *)
Definition raise_fee (tenant_id : uuid) (amount : Q) (n : instant) :
    tx fees (option (bool * option standing * list FeeCharge)) :=
  e ← exemption_of tenant_id n ;
  if is_given e then ret None
  else
    issued ← issue_charge tenant_id amount n ;
    row ← standing_of tenant_id ;
    cs ← list_charges tenant_id 12 ;
    ret (Some (is_given issued, row, cs)).

(** One client's month: what the transport answers, and what other sessions commit
    between this job's own, are arguments. *)
Definition settle_tenant (sends : result bool) (meanwhile1 meanwhile2 : fees -> fees) (tenant_id : uuid) (amount : Q) (n : instant)
    (s : fees) : result TenantOutcome * fees :=
  match in_session tenant_id (raise_fee tenant_id amount n) s with
  | (Err e, s) => (Err e, s)
  | (Ok None, s) => (Ok Exempt, s)
  | (Ok (Some (issued, row, cs)), s) =>
      let quiet := if issued : bool then IssuedFee else Nothing in
      match row with
      | None => (Ok Nothing, s)
      | Some o =>
          match last (omap (fun c => option_map (pair c) (notice_due c n)) cs) with
          | None => (Ok quiet, s)
          | Some (c, k) =>
              if match billing_email o with Some a => String.eqb a "" | None => true end then (Ok NoBillingEmail, s)
              else
                match in_session tenant_id (claim (fc_id (fee c)) k n) (meanwhile1 s) with
                | (Err e, s) => (Err e, s)
                | (Ok false, s) => (Ok quiet, s)
                | (Ok true, s) =>
                    match sends with
                    | Err e => (Err e, meanwhile2 s)
                    | Ok true => (Ok Noticed, meanwhile2 s)
                    | Ok false =>
                        match in_session tenant_id (release (fc_id (fee c)) k) (meanwhile2 s) with
                        | (Err e, s) => (Err e, s)
                        | (Ok _, s) => (Ok SendFailed, s)
                        end
                    end
                end
          end
      end
  end.

(** [_DIRECTORY]: the live clients. *)
Definition directory (s : fees) : list uuid :=
  map org_id (order_by (fun x y => org_id x <=? org_id y)
    (select (fun o => negb (is_given (deleted_at o)) && String.eqb (org_status o) "active")
       (organizations (Payments.account (desk (books s)))))).

Record counts := Counts { probed : nat; issued : nat; noticed : nat; exempt : nat; failed : nat }.
Definition count_outcome (c : counts) (r : result TenantOutcome) : counts :=
  match r with
  | Ok IssuedFee => Counts (S (probed c)) (S (issued c)) (noticed c) (exempt c) (failed c)
  | Ok Noticed => Counts (S (probed c)) (issued c) (S (noticed c)) (exempt c) (failed c)
  | Ok Exempt => Counts (S (probed c)) (issued c) (noticed c) (S (exempt c)) (failed c)
  | Ok SendFailed | Err _ => Counts (S (probed c)) (issued c) (noticed c) (exempt c) (S (failed c))
  | Ok Nothing | Ok NoBillingEmail => Counts (S (probed c)) (issued c) (noticed c) (exempt c) (failed c)
  end.

(** What the sending of a tenant's notice meets. *)
Record mail := Mail { sends : result bool; during_claim : fees -> fees; during_send : fees -> fees }.
Fixpoint settle_all (post : uuid -> mail) (amount : Q) (n : instant) (tenants : list uuid) (c : counts) (s : fees) : counts * fees :=
  match tenants with
  | [] => (c, s)
  | t :: rest =>
      let '(r, s) := settle_tenant (sends (post t)) (during_claim (post t)) (during_send (post t)) t amount n s in
      settle_all post amount n rest (count_outcome c r) s
  end.

(** The tick: what it answers, the cursor left, and the state; the walk's conditions are
    those of [FleetWalk]. *)
Inductive fee_report := SwitchedOff | Unpriced | Swept (c : counts) (unreached : Z).
Definition issue_platform_fees (switch : FeeSwitch) (post : uuid -> mail) (monotonic : nat -> Z) (began : Z) (readable : bool)
    (writable : nat -> bool) (stored : option string) (n : instant) (s : fees) : fee_report * option string * fees :=
  match sw_enabled switch, sw_amount_inr switch with
  | false, _ => (SwitchedOff, stored, s)
  | true, None => (Unpriced, stored, s)
  | true, Some amount =>
      let tenant_ids := directory s in
      let '(reached, stored, _) :=
        FleetWalk.FleetWalk.resumed_walk Envelope.Envelope.uuid_text
          (FleetWalk.FleetWalk.Conditions monotonic (fun _ => true) readable writable)
          (FleetWalk.FleetWalk.new_budget began) tenant_ids stored in
      let '(c, s) := settle_all post amount n reached (Counts 0 0 0 0 0) s in
      (Swept c (Z.of_nat (length tenant_ids) - Z.of_nat (probed c)), stored, s)
  end.

(** ** What the fee's transactions keep

    One fee of a client and month, one order per fee, one payment per fee and of its exact
    amount, no payment counted twice; and disputes.py sees every payment the provider
    took. *)
Record row_ok (c : fee_row) : Prop := RowOk {
  ro_amount : (0 < fc_amount c)%Q; ro_money : is_money (fc_amount c); ro_grace : issued_at c < grace_ends_at c }.

Definition month_of (c : fee_row) : uuid * string := (fc_tenant c, period c).
Definition source_of (p : fee_payment) : string * string := (fp_method p, payment_ref p).
Definition settles (p : fee_payment) (c : fee_row) : Prop :=
  charge_id p = fc_id c /\ fp_tenant p = fc_tenant c /\ (fp_amount p == fc_amount c)%Q.

Record fees_ok (s : fees) : Prop := FeesOk {
  fk_rows : List.Forall row_ok (fee_charges s);
  fk_ids : pk_ok fc_id (fee_charges s);
  fk_months : NoDup (map month_of (fee_charges s));
  fk_orders : NoDup (omap provider_order_id (fee_charges s));
  fk_once : NoDup (map charge_id (fee_payments s));
  fk_sources : NoDup (map source_of (fee_payments s));
  fk_settles : forall p, In p (fee_payments s) -> exists c, In c (fee_charges s) /\ settles p c;
  fk_desk : fee_refs (desk (books s)) = refs_of (fee_payments s)
}.

(** A fee as it was raised. *)
Definition same_fee (x y : fee_row) : Prop :=
  fc_id y = fc_id x /\ fc_tenant y = fc_tenant x /\ period y = period x /\ fc_amount y = fc_amount x
  /\ issued_at y = issued_at x /\ grace_ends_at y = grace_ends_at x.

Record advances (s s' : fees) : Prop := Advances {
  av_ok : fees_ok s -> fees_ok s';
  av_charges : forall c, In c (fee_charges s) -> exists c', In c' (fee_charges s') /\ same_fee c c';
  av_payments : exists l, fee_payments s' = fee_payments s ++ l
}.

(** Neither credit nor a lot of any wallet moved. *)
Definition wallet_kept (s s' : fees) : Prop :=
  credit_ledger (wallet (desk (books s'))) = credit_ledger (wallet (desk (books s)))
  /\ credit_lots (wallet (desk (books s'))) = credit_lots (wallet (desk (books s))).

Definition kept (s s' : fees) : Prop := advances s s' /\ wallet_kept s s'.

#[export] Instance same_fee_trans : Transitive same_fee.
Proof. intros x y z (?&?&?&?&?&?) (?&?&?&?&?&?). repeat split; congruence. Qed.

#[export] Instance advances_preorder : PreOrder advances.
Proof.
  split.
  - intros s. constructor; [done|intros c Hc; by exists c|exists []; by rewrite app_nil_r].
  - intros s1 s2 s3 [O1 C1 [l1 P1]] [O2 C2 [l2 P2]]. constructor; [auto| |exists (l1 ++ l2); by rewrite P2, P1, app_assoc].
    intros c Hc. apply C1 in Hc as (c1 & Hc & E1). apply C2 in Hc as (c2 & Hc & E2). exists c2. split; [done|]. by etrans.
Qed.

#[export] Instance kept_preorder : PreOrder kept.
Proof.
  split; [by intros s; split; [reflexivity|]|].
  intros s1 s2 s3 [A1 [L1 W1]] [A2 [L2 W2]]. split; [by etrans|]. split; congruence.
Qed.

(** The wider tables of a computation on the tables below. *)
Lemma kept_books r s :
  fee_refs (desk r) = fee_refs (desk (books s)) ->
  credit_ledger (wallet (desk r)) = credit_ledger (wallet (desk (books s))) ->
  credit_lots (wallet (desk r)) = credit_lots (wallet (desk (books s))) -> kept s (with_books r s).
Proof.
  intros F L C. split; [|by split]. constructor; simpl; [|intros c Hc; by exists c|exists []; by rewrite app_nil_r].
  intros []. constructor; simpl; try done. congruence.
Qed.

(** Computations on the tables below that leave the wallet and the fees' references. *)
Definition untouched (r r' : recharge account) : Prop :=
  fee_refs (desk r') = fee_refs (desk r) /\ credit_ledger (wallet (desk r')) = credit_ledger (wallet (desk r))
  /\ credit_lots (wallet (desk r')) = credit_lots (wallet (desk r)).
#[export] Instance untouched_preorder : PreOrder untouched.
Proof. split; [done|]. intros x y z (?&?&?) (?&?&?). repeat split; congruence. Qed.

Lemma respects_on_books {B} (m : tx (recharge account) B) : respects untouched m -> respects kept (on_books m).
Proof.
  intros Hm s b s' H. unfold on_books in H. destruct (m (books s)) as [[b' r]|] eqn:E; [|done]. injection H as <- <-.
  apply Hm in E as (F & L & C). by apply kept_books.
Qed.

Lemma untouched_on_desk {B} (m : tx platform B) : keeps m -> respects untouched (on_desk m).
Proof.
  intros Hm s b s' H. unfold on_desk in H. destruct (m (desk s)) as [[b' d]|] eqn:E; [|done]. injection H as <- <-.
  apply Hm in E as (A & D & _). split; [apply D|]. split; [apply A|apply A].
Qed.
Lemma untouched_on_wallet {B} (m : tx db B) :
  (forall w b w', m w = Ok (b, w') -> aside w w') -> respects untouched (on_wallet_of m).
Proof. intros Hm. by apply untouched_on_desk, keeps_on_wallet. Qed.

Lemma respects_platform {B} (m : tx platform B) : keeps m -> respects kept (on_platform m).
Proof. intros Hm. by apply respects_on_books, untouched_on_desk. Qed.
Lemma respects_db {B} (m : tx db B) :
  (forall w b w', m w = Ok (b, w') -> aside w w') -> respects kept (on_db m).
Proof. intros Hm. by apply respects_platform, keeps_on_wallet. Qed.

Lemma own_tenant_same t w u w' : own_tenant t w = Ok (u, w') -> w' = w /\ t = rls w.
Proof. unfold own_tenant, bind, gets, ret, raise. destruct (Z.eqb_spec t (rls w)); [|done]. by intros [= _ <-]. Qed.
Lemma own_tenant_aside t w u w' : own_tenant t w = Ok (u, w') -> aside w w'.
Proof. intros H. apply own_tenant_same in H as [-> _]. apply aside_refl. Qed.

Lemma untouched_record_route t oid k pu a : respects untouched (record_route (A := account) t oid k pu a).
Proof.
  pose proof (untouched_on_wallet _ uuid7_aside). pose proof (fun t => untouched_on_wallet _ (own_tenant_aside t)).
  unfold record_route. cbv zeta. respects. by apply respects_modify.
Qed.

(** A column that may be NULL, under updates. *)
Lemma omap_update {X K} (k : X -> option K) (q : X -> bool) f (t : list X) :
  (forall x, k (f x) = k x) -> omap k (update q f t) = omap k t.
Proof.
  intros H. unfold update. induction t as [|x t IH]; [done|]. csimpl. rewrite IH. destruct (q x); [by rewrite H|done].
Qed.

Lemma NoDup_omap_update {X K} (rid : X -> uuid) (key : X -> option K) (q : X -> bool) f k i (t : list X) :
  pk_ok rid t -> (forall x, q x = true -> rid x = i) -> (forall x, key (f x) = Some k) ->
  (forall x, In x t -> q x = false -> key x <> Some k) ->
  NoDup (omap key t) -> NoDup (omap key (update q f t)).
Proof.
  unfold pk_ok, update. intros Hpk Hq Hk. induction t as [|x t IH]; intros Hf H; simpl; [done|].
  simpl in Hpk. apply NoDup_cons in Hpk as [Hx Hpk].
  assert (Hno : q x = true -> forall y, In y t -> q y = false).
  { intros Eq y Hy. destruct (q y) eqn:E; [|done]. exfalso. apply Hx, list_elem_of_In. rewrite (Hq x), <- (Hq y) by done. by apply in_map. }
  assert (Ht : NoDup (omap key (map (fun r => if q r then f r else r) t))).
  { apply IH; [done|intros y Hy; apply Hf; by right|]. simpl in H. destruct (key x); [by apply NoDup_cons in H as [_ ?]|done]. }
  destruct (q x) eqn:Eq.
  - rewrite Hk. apply NoDup_cons. split; [|done]. intros Hi. apply list_elem_of_omap in Hi as (y & Hy & Ey).
    apply list_elem_of_In, in_map_iff in Hy as (z & <- & Hz). rewrite (Hno eq_refl z Hz) in Ey.
    apply (Hf z); [by right|by apply Hno|done].
  - destruct (key x) as [kx|] eqn:Ek; [|done]. apply NoDup_cons. split; [|done]. simpl in H. rewrite Ek in H.
    apply NoDup_cons in H as [Hn _]. intros Hi. apply list_elem_of_omap in Hi as (y & Hy & Ey).
    apply list_elem_of_In, in_map_iff in Hy as (z & <- & Hz). destruct (q z) eqn:Eqz.
    + rewrite Hk in Ey. apply (Hf x); [by left|done|congruence].
    + apply Hn, list_elem_of_omap. exists z. split; [by apply list_elem_of_In|done].
Qed.

(** A rewrite of fees that keeps what was raised. *)
Lemma kept_update q f s :
  (forall c, same_fee c (f c)) ->
  (fees_ok s -> NoDup (omap provider_order_id (update q f (fee_charges s)))) ->
  kept s (with_fee_charges (update q f (fee_charges s)) s).
Proof.
  intros Hf Ho. split; [|by split].
  assert (E : forall c, same_fee c (if q c then f c else c)) by (intros c; by destruct (q c)).
  constructor; simpl; [| |exists []; by rewrite app_nil_r].
  - intros Hok. pose proof Hok as [R I M _ P1 P2 Ps D]. constructor; simpl; try done; [| | |by apply Ho|].
    + rewrite List.Forall_forall in *. intros c Hc. apply update_In in Hc as (x & Hx & ->). apply R in Hx as [A B C].
      destruct (E x) as (_&_&_&Ea&Ei&Eg). constructor; rewrite ?Ea, ?Ei, ?Eg; done.
    + apply update_pk_ok; [intros c; apply Hf|done].
    + unfold update. rewrite map_map. erewrite map_ext; [exact M|]. intros c. unfold month_of. by destruct (E c) as (_&->&->&_).
    + intros p Hp. destruct (Ps p Hp) as (c & Hc & S1 & S2 & S3). exists (if q c then f c else c).
      split; [apply update_In; by exists c|]. destruct (E c) as (E1&E2&_&E3&_). unfold settles. by rewrite E1, E2, E3.
  - intros c Hc. exists (if q c then f c else c). split; [apply update_In; by exists c|apply E].
Qed.

Lemma kept_stamp q k v s : kept s (with_fee_charges (update q (stamped k v) (fee_charges s)) s).
Proof.
  apply kept_update; [by intros []|]. intros Hok. rewrite omap_update; [apply Hok|done].
Qed.

(** ** The writes *)

Lemma respects_claim i k at_ : respects kept (claim i k at_).
Proof.
  intros s b s' H. cbv [claim session_tenant bind gets modify ret] in H. injection H as _ <-. apply kept_stamp.
Qed.
Lemma respects_release i k : respects kept (release i k).
Proof.
  intros s b s' H. cbv [release session_tenant bind gets modify ret] in H. injection H as _ <-. apply kept_stamp.
Qed.

Lemma respects_attach t i oid : respects kept (attach_order t i oid).
Proof.
  intros s b s' H. cbv [attach_order session_tenant bind gets modify ret raise] in H.
  set (q := fun c => mine fc_tenant _ t c && _ c) in *. destruct (existsb q _ && _) eqn:E; [done|]. injection H as _ <-.
  apply kept_update; [by intros []|]. intros Hok.
  destruct (existsb q (fee_charges s)) eqn:Eq.
  - apply (NoDup_omap_update fc_id provider_order_id q (with_order oid) oid i); try done; [apply Hok| | |apply Hok].
    + intros c [_ Hc]%andb_prop. unfold by_id in Hc. lia.
    + intros c Hc Hqc Ho. enough (false = true) by done. rewrite <- E. apply existsb_exists. exists c. split; [done|].
      cbv beta. fold (q c). rewrite Hqc. simpl. by apply bool_decide_eq_true.
  - rewrite update_none; [apply Hok|]. intros c Hc. destruct (q c) eqn:Ec; [|done]. rewrite <- Eq. symmetry. apply existsb_exists. by exists c.
Qed.

Lemma existsb_none {X} (p : X -> bool) l : existsb p l = false -> forall x, In x l -> p x = false.
Proof. intros H x Hx. destruct (p x) eqn:E; [|done]. rewrite <- H. symmetry. apply existsb_exists. by exists x. Qed.

Lemma respects_insert x : is_money (fc_amount x) -> provider_order_id x = None -> respects kept (insert_charge x).
Proof.
  intros Hm Ho. unfold insert_charge. apply respects_bind; [typeclasses eauto|apply respects_db, own_tenant_aside|intros _].
  intros s b s' H. cbv [bind gets modify ret raise] in H.
  destruct (dlt_spec 0 (fc_amount x)) as [Ha|]; [|done]. destruct (Z.ltb_spec (issued_at x) (grace_ends_at x)) as [Hg|]; [|done].
  simpl in H. case_in H; [injection H as _ <-; reflexivity|]. case_in H; [done|]. injection H as _ <-.
  split; [|by split]. constructor; simpl; [|intros c Hc; exists c; split; [by apply in_or_app; left|done]|exists []; by rewrite app_nil_r].
  intros [R I M O P1 P2 Ps D]. constructor; simpl; try done.
  - apply List.Forall_app. split; [done|]. by repeat constructor.
  - apply insert_pk_ok; [|done]. intros Hi. apply in_map_iff in Hi as (y & Ey & Hy). apply (existsb_none _ _ E0) in Hy.
    unfold by_id in Hy. lia.
  - apply NoDup_snoc_map; [done|]. intros Hi. apply in_map_iff in Hi as (y & Ey & Hy). apply (existsb_none _ _ E) in Hy.
    unfold month_of in Ey. injection Ey as Et Ep. by rewrite Et, Ep, Z.eqb_refl, String.eqb_refl in Hy.
  - rewrite omap_app. simpl. rewrite Ho. by rewrite app_nil_r.
  - intros p Hp. destruct (Ps p Hp) as (c & Hc & S). exists c. split; [by apply in_or_app; left|done].
Qed.

Lemma respects_issue t amount at_ : respects kept (issue_charge t amount at_).
Proof.
  unfold issue_charge. destruct (dle amount 0); [by apply respects_raise|].
  apply respects_bind; [typeclasses eauto|apply respects_db, uuid7_aside|intros i].
  intros s b s' H. apply bind_ok in H as (q & s1 & E & H). apply lift_ok in E as [E ->].
  apply numeric_12_4_ok in E as [Hm _]. by eapply respects_insert in H.
Qed.

(** A transaction on the database that steps aside. *)
Lemma on_db_ok {B} (m : tx db B) s b s' :
  on_db m s = Ok (b, s') <-> exists w, m (wallet (desk (books s))) = Ok (b, w)
    /\ s' = with_books (with_desk (with_wallet w (desk (books s))) (books s)) s.
Proof.
  unfold on_db, on_platform, on_books, on_desk, on_wallet. destruct (m _) as [[b' w]|e]; split.
  - intros [= <- <-]. by exists w.
  - intros (w' & [= <- <-] & ->). done.
  - done.
  - by intros (w & ? & _).
Qed.

Lemma on_db_own t s u s' : on_db (own_tenant t) s = Ok (u, s') -> s' = s /\ t = rls (wallet (desk (books s))).
Proof. intros H. apply on_db_ok in H as (w & E & ->). apply own_tenant_same in E as [-> ->]. by destruct s as [[[] ? ? ?] ? ? ?]. Qed.

Lemma refs_app t p : refs_of (t ++ [p]) = refs_of t ++ (if by_provider p then [ref_of p] else []).
Proof. unfold refs_of, select. rewrite List.filter_app, map_app. simpl. by destruct (by_provider p). Qed.

Lemma insert_payment_spec x s b s' c :
  insert_payment x s = Ok (b, s') -> In c (fee_charges s) -> settles x c ->
  fp_tenant x = rls (wallet (desk (books s))) /\ kept s s'
  /\ if b then fee_payments s' = fee_payments s ++ [x] /\ (forall y, In y (fee_payments s) -> settles_same x y = false)
     else s' = s /\ exists y, In y (fee_payments s) /\ settles_same x y = true.
Proof.
  intros H Hc Hx. unfold insert_payment in H. apply bind_ok in H as (u & s1 & E & H). apply on_db_own in E as [-> Ht].
  split; [done|]. apply bind_ok in H as (cs & s1 & E & H). apply gets_ok in E as [-> ->].
  apply bind_ok in H as (t & s1 & E & H). apply gets_ok in E as [-> ->]. case_in H; [done|]. clear E.
  case_in H. { apply ret_ok in H as [-> ->]. apply existsb_exists in E as (y & Hy & Es). split; [reflexivity|eauto]. }
  case_in H; [done|]. clear E0. apply bind_ok in H as (u1 & s1 & E1 & H). apply modify_ok in E1 as ->.
  pose proof (existsb_none _ _ E) as Hno. apply bind_ok in H as (u2 & s2 & E2 & H). apply ret_ok in H as [-> ->].
  assert (books s2 = if by_provider x then with_desk (with_fee_refs (fee_refs (desk (books s)) ++ [ref_of x]) (desk (books s))) (books s) else books s) as Eb
    by (destruct (by_provider x); [by injection E2 as _ <-|by apply ret_ok in E2 as [_ ->]]).
  assert (fee_charges s2 = fee_charges s /\ fee_payments s2 = fee_payments s ++ [x]) as [Ec Ep]
    by (destruct (by_provider x); [by injection E2 as _ <-|by apply ret_ok in E2 as [_ ->]]).
  split; [|by rewrite Ep]. split; [|by split; rewrite Eb; destruct (by_provider x)].
  constructor; [| |exists [x]; done]; [|intros d Hd; exists d; by rewrite Ec].
  intros [R I M O P1 P2 Ps D]. constructor; rewrite ?Ec, ?Ep; try done.
  - apply NoDup_snoc_map; [done|]. intros Hi. apply in_map_iff in Hi as (y & Ey & Hy). apply Hno in Hy.
    unfold settles_same in Hy. by rewrite Ey, Z.eqb_refl in Hy.
  - apply NoDup_snoc_map; [done|]. intros Hi. apply in_map_iff in Hi as (y & Ey & Hy). apply Hno in Hy.
    unfold settles_same in Hy. unfold source_of in Ey. injection Ey as E3 E4.
    by rewrite E3, E4, !String.eqb_refl, orb_true_r in Hy.
  - intros p Hp. apply in_app_iff in Hp as [Hp|[<-|[]]]; [by apply Ps|by exists c].
  - rewrite Eb, refs_app, <- D. destruct (by_provider x); [done|by rewrite app_nil_r].
Qed.

(** What settling a fee leaves: its payment, or the one that had settled it. *)
Lemma record_payment_spec t c amount method ref_ at_ by_ s b s' :
  record_payment t c amount method ref_ at_ by_ s = Ok (b, s') ->
  In (fee c) (fee_charges s) -> fc_tenant (fee c) = t -> fees_ok s ->
  kept s s' /\ t = rls (wallet (desk (books s))) /\ (amount == fc_amount (fee c))%Q
  /\ if b then exists p, fee_payments s' = fee_payments s ++ [p] /\ settles p (fee c)
                 /\ source_of p = (method, Envelope.Envelope.strip ref_) /\ fp_paid_at p = at_
                 /\ forall y, In y (fee_payments s) -> charge_id y <> fc_id (fee c)
     else fee_payments s' = fee_payments s /\ exists y, In y (fee_payments s) /\ charge_id y = fc_id (fee c).
Proof.
  intros H Hc Ht Hok. unfold record_payment in H. destruct (deq_spec amount (fc_amount (fee c))) as [Ea|]; [|done]. simpl in H.
  apply bind_ok in H as (i & s1 & E & H). pose proof (respects_db _ uuid7_aside _ _ _ E) as K1.
  apply on_db_ok in E as (w & Ew & ->). injection Ew as _ <-. set (s1 := with_books _ s) in *.
  apply bind_ok in H as (q & s2 & E & H). apply lift_ok in E as [E ->].
  apply numeric_12_4_ok in E as (_ & _ & _ & Eq).
  assert (Hq : (q == fc_amount (fee c))%Q).
  { rewrite <- Ea. apply Eq. pose proof (fk_rows _ Hok) as R. rewrite List.Forall_forall in R. destruct (R _ Hc) as [_ M _].
    eapply is_money_proper; [exact Ea|exact M]. }
  apply bind_ok in H as (b1 & s2 & E & H). set (x := FeePayment _ _ _ _ _ _ _ _) in *.
  destruct (insert_payment_spec x s1 b1 s2 (fee c) E Hc) as (Hr & K2 & Hb); [by repeat split|].
  destruct b1.
  - apply ret_ok in H as [-> ->]. destruct Hb as [Ep Hno]. split; [by etrans|]. split; [done|]. split; [done|].
    exists x. split; [done|]. split; [by repeat split|]. split; [done|]. split; [done|]. intros y Hy Ey. apply Hno in Hy.
    unfold settles_same in Hy. simpl in Hy. by rewrite Ey, Z.eqb_refl in Hy.
  - destruct Hb as [-> (y & Hy & Es)]. apply bind_ok in H as (o & s2 & E2 & H).
    cbv [paid_with session_tenant bind gets] in E2. injection E2 as <- <-.
    destruct (payment_of _ _ _) as [z|] eqn:Ez; [|done]. apply ret_ok in H as [-> ->].
    split; [done|]. split; [done|]. split; [done|]. split; [done|]. unfold payment_of in Ez.
    apply head_Some in Ez as (l & El). assert (In z (z :: l)) as Hz by by left. rewrite <- El in Hz.
    apply select_In in Hz as [Hz Ep%andb_prop]. exists z. split; [done|]. lia.
Qed.

(** ** Reads *)

Lemma respects_kept {B} (m : tx fees B) : respects eq m -> respects kept m.
Proof. intros Hm s b s' H. by apply Hm in H as <-. Qed.

Lemma reads_standing t : respects eq (standing_of t).
Proof. unfold standing_of, session_tenant. respects. Qed.
Lemma reads_charges t p : respects eq (charges_where t p).
Proof. unfold charges_where, session_tenant. respects. Qed.
Lemma reads_platform {B} (m : tx platform B) : respects eq m -> respects eq (on_platform m).
Proof.
  intros Hm s b s' H. unfold on_platform, on_books, on_desk in H. destruct (m _) as [[b' d]|] eqn:E; [|done].
  apply Hm in E as <-. injection H as _ <-. by destruct s as [[] ? ? ?].
Qed.
Lemma reads_trial t : respects eq (Trials.read_trial t).
Proof. unfold Trials.read_trial, Trials.session_tenant, read. respects. Qed.
Lemma reads_restricting t : respects eq (TrialAccess.restricting_trial t).
Proof.
  unfold TrialAccess.restricting_trial, FirstPayment.FirstPayment.has_paid, Trials.own_org, Trials.session_tenant, read.
  pose proof (reads_trial t). respects.
Qed.
#[local] Hint Resolve reads_standing reads_charges reads_platform reads_trial reads_restricting : respects.

Lemma reads_exemption t n : respects eq (exemption_of t n).
Proof. unfold exemption_of. respects. Qed.
Lemma reads_read_charge t i : respects eq (read_charge t i).
Proof. unfold read_charge. respects. Qed.
Lemma reads_list t n : respects eq (list_charges t n).
Proof. unfold list_charges. respects. Qed.

(** The fee a read finds is a row of the tenant's. *)
Lemma charges_where_in t p s l s' c :
  charges_where t p s = Ok (l, s') -> In c l ->
  s' = s /\ In (fee c) (fee_charges s) /\ fc_tenant (fee c) = t /\ p (fee c) = true
  /\ c = joined (rls (wallet (desk (books s)))) (fee_payments s) (fee c) /\ t = rls (wallet (desk (books s))).
Proof.
  intros H Hc. cbv [charges_where session_tenant bind gets] in H. injection H as <- <-.
  apply in_map_iff in Hc as (x & <- & Hx). apply select_In in Hx as [Hx [Hm Hp]%andb_prop]. unfold mine in Hm.
  split; [done|]. split; [done|]. split; [simpl; lia|]. split; [done|]. split; [done|]. lia.
Qed.
Lemma head_in {X} (l : list X) x : head l = Some x -> In x l.
Proof. destruct l; [done|]. intros [= ->]. by left. Qed.

Lemma read_charge_in t i s c s' :
  read_charge t i s = Ok (Some c, s') -> s' = s /\ In (fee c) (fee_charges s) /\ fc_tenant (fee c) = t /\ fc_id (fee c) = i.
Proof.
  intros H. apply bind_ok in H as (l & s1 & E & H). apply ret_ok in H as [Hc ->].
  destruct (charges_where_in _ _ _ _ _ c E) as (-> & Hin & Ht & Hp & _); [by apply head_in|].
  unfold by_id in Hp. split; [done|]. split; [done|]. split; [done|]. lia.
Qed.
Lemma order_charge_in t oid s c s' :
  charge_for_order t oid s = Ok (Some c, s') ->
  s' = s /\ In (fee c) (fee_charges s) /\ fc_tenant (fee c) = t /\ provider_order_id (fee c) = Some oid.
Proof.
  intros H. apply bind_ok in H as (l & s1 & E & H). apply ret_ok in H as [Hc ->].
  destruct (charges_where_in _ _ _ _ _ c E) as (-> & Hin & Ht & Hp & _); [by apply head_in|].
  by apply bool_decide_eq_true in Hp.
Qed.

(** ** The life of a fee *)
Section Life.
Context (hmac_hex : string -> string -> string) (dumps : Audit.payload -> string) (audit_key : string).
Context (switch : FeeSwitch).

(** The transactions on the fees, of any tenant's session. *)
Inductive fee_op : fees -> fees -> Prop :=
| OpRaise s t amount n r s' : raise_fee t amount n s = Ok (r, s') -> fee_op s s'
| OpOrder s t i at_ c oid s1 u s' :
    payable_fee switch t i at_ s = Ok (c, s1) -> record_fee_order t c oid s = Ok (u, s') -> fee_op s s'
| OpManual s t i reference actor operator ip r s' :
    record_manual_fee_payment hmac_hex dumps audit_key switch t i reference actor operator ip s = Ok (r, s') -> fee_op s s'
| OpCaptured s t oid c s1 amount pid at_ b s' :
    charge_for_order t oid s = Ok (Some c, s1) -> record_payment t c amount "razorpay" pid at_ None s1 = Ok (b, s') -> fee_op s s'
| OpClaim s i k at_ b s' : claim i k at_ s = Ok (b, s') -> fee_op s s'
| OpRelease s i k u s' : release i k s = Ok (u, s') -> fee_op s s'
| OpWaive s t reason actor operator ip b s' :
    waive_platform_fee hmac_hex dumps audit_key t reason actor operator ip s = Ok (b, s') -> fee_op s s'
| OpWithdraw s t actor ip b s' :
    withdraw_platform_fee_waiver hmac_hex dumps audit_key t actor ip s = Ok (b, s') -> fee_op s s'.

(** Those, and anything that leaves the fees and their payments alone. *)
Inductive fee_step (s s' : fees) : Prop :=
| StepFee : fee_op s s' -> fee_step s s'
| StepOther :
    fee_charges s' = fee_charges s -> fee_payments s' = fee_payments s ->
    fee_refs (desk (books s')) = fee_refs (desk (books s)) -> fee_step s s'.

Lemma respects_clock : respects kept (on_db clock_timestamp).
Proof. apply respects_db, clock_aside. Qed.
#[local] Hint Resolve respects_clock : respects.

Lemma respects_audit t a ot oi actor ip : respects kept (write_audit hmac_hex dumps audit_key t a ot oi actor ip).
Proof.
  pose proof (respects_db _ uuid7_aside). unfold write_audit. respects. intros s u s' E. injection E as _ <-. by apply kept_books.
Qed.

Lemma respects_standings p f : respects kept (update_standings p f).
Proof.
  unfold update_standings. respects. apply respects_modify. intros s. split; [|by split]. constructor; [by intros []|intros c Hc; by exists c|exists []; by rewrite app_nil_r].
Qed.

Lemma respects_waiver t why by_ n : respects kept (set_waiver t why by_ n).
Proof.
  pose proof respects_standings. unfold set_waiver, session_tenant. cbv zeta. respects.
Qed.

Lemma respects_require t : respects kept (require_tenant t).
Proof.
  apply respects_kept, reads_platform. unfold FirstPayment.FirstPayment.assert_tenant_exists, Trials.own_org, Trials.session_tenant, read.
  respects.
Qed.

#[local] Hint Resolve respects_audit respects_waiver respects_require : respects.

Lemma fee_op_kept s s' : fees_ok s -> fee_op s s' -> kept s s'.
Proof.
  intros Hok H. destruct H.
  - apply (respects_bind kept) in H; [done|apply respects_kept, reads_exemption|intros e]. destruct (is_given e); [by respects|].
    pose proof respects_issue. pose proof (fun t => respects_kept _ (reads_standing t)).
    pose proof (fun t n => respects_kept _ (reads_list t n)). respects.
  - assert (s1 = s) as ->.
    { apply bind_ok in H as (o & s2 & E & H). apply reads_read_charge in E as <-. destruct o as [y|]; [|done].
      apply bind_ok in H as (e & s2 & E & H). apply reads_exemption in E as <-. destruct (fee_status _ _ _ _); try done; by apply ret_ok in H as [_ ->]. }
    apply (respects_bind kept) in H0; [done|apply respects_on_books, untouched_record_route|intros _; apply respects_attach].
  - apply bind_ok in H as (n & s1 & E & H). apply respects_clock in E as K1.
    apply bind_ok in H as (u & s2 & E2 & H). apply respects_require in E2 as K2.
    assert (fees_ok s2) as Hok2 by by apply K2, K1. assert (kept s s2) as K by by etrans. clear K1 K2.
    apply bind_ok in H as (o & s3 & E3 & H). destruct o as [c|]; [|done].
    apply read_charge_in in E3 as (-> & Hin & Ht & _).
    apply bind_ok in H as (b & s3 & E3 & H). destruct (record_payment_spec _ _ _ _ _ _ _ _ _ _ E3 Hin Ht Hok2) as (K3 & _).
    etrans; [exact K|]. etrans; [exact K3|].
    pose proof (fun t i => respects_kept _ (reads_read_charge t i)). pose proof (fun t n => respects_kept _ (reads_exemption t n)).
    respected H.
  - destruct (order_charge_in _ _ _ _ _ H) as (-> & Hin & Ht & _).
    destruct (record_payment_spec _ _ _ _ _ _ _ _ _ _ H0 Hin Ht Hok) as (K & _). exact K.
  - exact (respects_claim _ _ _ _ _ _ H).
  - exact (respects_release _ _ _ _ _ H).
  - unfold waive_platform_fee in H. respected H.
  - unfold withdraw_platform_fee_waiver in H. respected H.
Qed.

Lemma fee_step_advances s s' : fees_ok s -> fee_step s s' -> advances s s'.
Proof.
  intros Hok [H|Ec Ep Ef]; [by apply fee_op_kept in H as [? _]|].
  constructor; rewrite ?Ec, ?Ep; [|intros c Hc; by exists c|exists []; by rewrite app_nil_r].
  intros []. constructor; rewrite ?Ec, ?Ep, ?Ef; done.
Qed.

(** ** When calling is paused *)

(** No payment of the session's tenant settles the fee. *)
Definition unpaid (s : fees) (c : fee_row) : Prop := forall p, In p (fee_payments s) -> charge_id p <> fc_id c.

Lemma exemption_total t n s : exists e, exemption_of t n s = Ok (e, s).
Proof.
  unfold exemption_of, standing_of, session_tenant, bind, gets. cbv beta.
  destruct (head _) as [o|]; [|by eexists]. destruct (is_given (waived_at o)); [by eexists|].
  destruct (String.eqb _ _); [by eexists|].
  assert (R : forall B (m : tx platform B), (exists b, m (desk (books s)) = Ok (b, desk (books s))) -> exists b, on_platform m s = Ok (b, s)).
  { intros B m (b & E). exists b. unfold on_platform, on_books, on_desk. rewrite E. by destruct s as [[] ? ? ?]. }
  destruct (R _ (Trials.read_trial t)) as (x & ->); [by eexists|]. destruct (match x with Some _ => _ | None => _ end); [by eexists|].
  destruct (R _ (TrialAccess.restricting_trial t)) as (y & ->); [|by eexists].
  unfold TrialAccess.restricting_trial, Trials.read_trial, Trials.session_tenant, read, bind, gets, ret.
  destruct (Trials.newest_trial _ _ _) as [z|]; [|by eexists]. destruct (String.eqb _ _); [by eexists|].
  by eexists.
Qed.

Lemma unpaid_joined s c :
  fees_ok s -> In c (fee_charges s) -> fc_tenant c = rls (wallet (desk (books s))) ->
  paid (joined (rls (wallet (desk (books s)))) (fee_payments s) c) = false <-> unpaid s c.
Proof.
  intros Hok Hc Ht. unfold paid, joined, payment_of. simpl. set (q := fun p => (fp_tenant p =? _) && _). split.
  - intros H p Hp E. destruct (fk_settles _ Hok p Hp) as (d & Hd & E1 & E2 & _).
    assert (d = c) as -> by (apply (pk_unique fc_id (fee_charges s)); [apply Hok|done|done|congruence]).
    assert (In p (select q (fee_payments s))) as Hs by (apply select_In; split; [done|unfold q; lia]).
    destruct (select q (fee_payments s)); [destruct Hs|done].
  - intros H. destruct (select q (fee_payments s)) as [|p l] eqn:E; [done|].
    assert (In p (p :: l)) as Hp by by left. rewrite <- E in Hp. apply select_In in Hp as [Hp Hq]. unfold q in Hq.
    exfalso. apply (H p Hp). lia.
Qed.

Lemma head_order_by {X} (le : X -> X -> bool) l : head (order_by le l) = None <-> l = [].
Proof.
  split; [|by intros ->]. destruct l as [|x l]; [done|]. simpl. destruct (order_by le l); simpl; [done|]. by destruct (le _ _).
Qed.

Lemma paused_spec t s :
  fees_ok s -> rls (wallet (desk (books s))) = t ->
  exists b s', platform_fee_paused switch t s = Ok (b, s')
    /\ let n := ticks (wallet (desk (books s))) 0 in
       (b = true <-> sw_enabled switch = true
          /\ (exists c, In c (fee_charges s) /\ fc_tenant c = t /\ grace_ends_at c <= n /\ unpaid s c)
          /\ exemption_of t n s' = Ok (None, s')).
Proof.
  intros Hok Ht. unfold platform_fee_paused, overdue_charge. destruct (sw_enabled switch); simpl.
  2:{ exists false, s. split; [done|]. split; [done|]. by intros [? _]. }
  set (n := ticks _ 0). set (s1 := with_books (with_desk (with_wallet (tick (wallet (desk (books s)))) (desk (books s))) (books s)) s).
  assert (Hr1 : rls (wallet (desk (books s1))) = t) by done.
  assert (Hok1 : fees_ok s1) by (destruct Hok; constructor; done).
  destruct (exemption_total t n s1) as (e & Ee).
  set (row := fun c => mine fc_tenant t t c && (grace_ends_at c <=? n)).
  set (l := List.filter (fun c => negb (paid c)) (map (joined t (fee_payments s)) (select row (fee_charges s)))).
  assert (Hl : (exists c, In c (fee_charges s) /\ fc_tenant c = t /\ grace_ends_at c <= n /\ unpaid s c) <-> l <> []).
  { split.
    - intros (c & Hc & Etc & Hg & Hu) El. assert (In (joined t (fee_payments s) c) l) as Hin; [|by rewrite El in Hin].
      apply filter_In. split; [apply in_map, select_In; split; [done|unfold row, mine; lia]|].
      rewrite <- Ht, (proj2 (unpaid_joined s c Hok Hc (eq_trans Etc (eq_sym Ht))) Hu). done.
    - intros Hne. destruct l as [|y l'] eqn:El; [done|]. assert (In y l) as Hy by (rewrite El; by left).
      apply filter_In in Hy as [Hy Hp]. apply in_map_iff in Hy as (c & <- & Hc). apply select_In in Hc as [Hc Hrow].
      unfold row, mine in Hrow. exists c. split; [done|]. split; [lia|]. split; [lia|].
      apply unpaid_joined; [done|done|lia|]. rewrite Ht. by apply negb_true_iff. }
  exists (is_given (match head (order_by (fun x y => issued_at (fee x) <=? issued_at (fee y)) l) with
                    | Some c => if is_given e then None else Some c | None => None end)), s1. split.
  - assert (E1 : on_db clock_timestamp s = Ok (n, s1)) by done.
    assert (E2 : charges_where t (fun c => grace_ends_at c <=? n) s1 = Ok (map (joined t (fee_payments s)) (select row (fee_charges s)), s1)).
    { cbv [charges_where session_tenant bind gets]. by rewrite Hr1. }
    rewrite (bind_run _ _ _ (match head (order_by (fun x y => issued_at (fee x) <=? issued_at (fee y)) l) with
                    | Some c => if is_given e then None else Some c | None => None end) s1); [done|].
    rewrite (bind_run _ _ _ _ _ E1), (bind_run _ _ _ _ _ E2). fold l. destruct (head _) as [c|]; [|done].
    by rewrite (bind_run _ _ _ _ _ Ee).
  - rewrite Hl, Ee. destruct (head _) as [c|] eqn:Eh.
    + destruct e as [e|]; simpl; split; try done; [by intros (_ & _ & ?)|]. intros _. split; [done|]. split; [|done].
      intros El. by rewrite El in Eh.
    + apply head_order_by in Eh. simpl. split; [done|]. by intros (_ & Hne & _).
Qed.

Lemma fee_steps_advance s s' : fees_ok s -> rtc fee_step s s' -> advances s s'.
Proof.
  intros Hok H. induction H as [|s1 s2 s3 H _ IH]; [reflexivity|]. apply fee_step_advances in H as A; [|done].
  etrans; [exact A|]. apply IH. by apply A.
Qed.

(** C26. Over every order of the fee's transactions, whoever runs them and whatever runs
    between them: a client is raised one fee a month; a fee raised keeps its amount, its
    month and its grace; it is settled by one payment, of its exact amount, and no payment
    settles two; what settled it stays, and settling it again records nothing; no wallet
    is touched; and calling is paused exactly while the switch is on and an account that
    is not exempt has an unpaid fee past its grace. *)
Theorem fee_life s0 s :
  fees_ok s0 -> rtc fee_step s0 s ->
  fees_ok s
  /\ (forall c, In c (fee_charges s0) -> exists c', In c' (fee_charges s) /\ same_fee c c')
  /\ (exists l, fee_payments s = fee_payments s0 ++ l)
  /\ (forall s', fee_op s s' -> wallet_kept s s')
  /\ (forall c p t amount method ref_ at_ by_ b s',
        In (fee c) (fee_charges s) -> fc_tenant (fee c) = t -> In p (fee_payments s) -> charge_id p = fc_id (fee c) ->
        record_payment t c amount method ref_ at_ by_ s = Ok (b, s') -> b = false /\ fee_payments s' = fee_payments s)
  /\ (forall t, rls (wallet (desk (books s))) = t ->
        exists b s', platform_fee_paused switch t s = Ok (b, s')
          /\ let n := ticks (wallet (desk (books s))) 0 in
             (b = true <-> sw_enabled switch = true
                /\ (exists c, In c (fee_charges s) /\ fc_tenant c = t /\ grace_ends_at c <= n /\ unpaid s c)
                /\ exemption_of t n s' = Ok (None, s'))).
Proof.
  intros Hok H. destruct (fee_steps_advance s0 s Hok H) as [A C P]. specialize (A Hok).
  split; [done|]. split; [done|]. split; [done|]. split; [by intros s' Ho; apply fee_op_kept in Ho as [_ ?]|].
  split; [|intros t; by apply paused_spec].
  intros c p t amount method ref_ at_ by_ b s' Hc Ht Hp Ep E.
  destruct (record_payment_spec _ _ _ _ _ _ _ _ _ _ E Hc Ht A) as (_ & _ & _ & Hb). destruct b; [|by destruct Hb].
  destruct Hb as (_ & _ & _ & _ & _ & Hno). by destruct (Hno p Hp).
Qed.

(** A fee with a fraction of a paisa cannot be paid online: its order asks for the amount
    in paise, and a payment of that amount is refused as another. *)
Lemma sub_paise_fee_unpayable t c pid at_ by_ s :
  ~ (to_paise (fc_amount (fee c)) == fc_amount (fee c))%Q ->
  record_payment t c (to_paise (fc_amount (fee c))) "razorpay" pid at_ by_ s
  = Err (Problem Conflict "platform_fee_amount_mismatch").
Proof. intros H. unfold record_payment. by destruct (deq_spec (to_paise (fc_amount (fee c))) (fc_amount (fee c))). Qed.
End Life.

(** ** An example: a fee raised, overdue, and paid *)
Module Example.
Definition on : FeeSwitch := Switch true (Some (inject_Z 999)).
Definition fees0 : fees :=
  Fees (Recharge account FirstPayment.FirstPayment.Example.desk0 [] [] []) [] [] [Standing 7 "managed" (Some "owner@example.com") None None None].
Definition state_of {B} (r : result (B * fees)) : fees := match r with Ok (_, s) => s | Err _ => fees0 end.
(** Eight days ago. *)
Definition then_ : instant := - 8 * US_PER_DAY.
Definition raised : fees := state_of (raise_fee 7 (inject_Z 999) then_ fees0).
Definition the_fee : FeeCharge :=
  match payable_fee on 7 0 0 raised with Ok (c, _) => c | Err _ => Fee (FeeRow 0 0 "" 0 0 0 None None None None) None None end.
Definition ordered : fees := state_of (record_fee_order 7 the_fee "order_1" raised).
Definition ordered_fee : FeeCharge :=
  match charge_for_order 7 "order_1" ordered with Ok (Some c, _) => c | _ => the_fee end.
Definition settled : fees :=
  state_of (record_payment 7 ordered_fee (inject_Z 999) "razorpay" "pay_1" 5 None ordered).
Definition paused (s : fees) : option bool :=
  match platform_fee_paused on 7 s with Ok (b, _) => Some b | Err _ => None end.

Example paying_resumes_calls : paused ordered = Some true /\ paused settled = Some false.
Proof. vm_compute. done. Qed.

Lemma fees0_ok : fees_ok fees0.
Proof. constructor; simpl; try apply NoDup_nil_2; try done; by intros p []. Qed.

Lemma settling :
  rtc (fee_step Audit.Example.keyed Audit.Example.dumps "key" on) fees0 settled.
Proof.
  apply rtc_l with raised.
  { apply StepFee. eapply OpRaise with (t := 7) (amount := inject_Z 999) (n := then_). vm_compute. reflexivity. }
  apply rtc_l with ordered.
  { apply StepFee. eapply OpOrder with (t := 7) (i := 0) (at_ := 0) (c := the_fee) (oid := "order_1"); vm_compute; reflexivity. }
  apply rtc_once, StepFee.
  eapply OpCaptured with (t := 7) (oid := "order_1") (c := ordered_fee) (amount := inject_Z 999) (pid := "pay_1") (at_ := 5);
    vm_compute; reflexivity.
Qed.
End Example.
Import Example.

Lemma fee_life_witness :
  rtc (fee_step Audit.Example.keyed Audit.Example.dumps "key" on) fees0 settled /\ fees_ok settled
  /\ exists b s', platform_fee_paused on 7 settled = Ok (b, s') /\ b = false.
Proof.
  split; [exact settling|].
  destruct (fee_life Audit.Example.keyed Audit.Example.dumps "key" on fees0 settled fees0_ok settling) as (H1 & _ & _ & _ & _ & H6).
  split; [exact H1|]. destruct (H6 7 ltac:(vm_compute; reflexivity)) as (b & s' & E & _). exists b, s'. split; [exact E|].
  pose proof paying_resumes_calls as [_ Hp]. unfold paused in Hp. rewrite E in Hp. by injection Hp.
Defined.

End PlatformFee.
