(* ===== verification/PaymentEvents.v ===== *)
(** * What each provider event does

    apps/api/billing/payment_events.py, with the order record of payment_objects.py and
    the top-up attempts of wallet.py: a verified event is claimed in the inbox, applied to
    the books and marked processed in one transaction of its tenant's session.  This file
    composes the inbox, the payments, the refunds, the disputes, auto-recharge and the
    platform fee over one state. *)

From Stdlib Require Import ZArith Lia List QArith Lqa.
From stdpp Require Import base list strings relations.
From S2P Require Import Prelude PyDecimal Sql PyTime AuditLog Idempotency WalletDb RateCard Lots Ledger Wallet Envelope Payments AutoRecharge RechargeRun Refunds Disputes Account Trials FirstPayment TrialAccess PlatformFee.

Local Open Scope string_scope.
Local Open Scope list_scope.
Local Open Scope Z_scope.
Local Open Scope tx_scope.

Import Wallet Ledger Envelope Payments Account AutoRecharge PlatformFee.

Module PaymentEvents.

Definition TOPUP : string := "topup".
Definition MANDATE : string := "mandate".
Definition AUTO_RECHARGE : string := "auto_recharge".
Definition PLATFORM_FEE : string := "platform_fee".

(** ** The tables *)

(** [topup_attempts]. *)
Record attempt := Attempt {
  ta_id : uuid; ta_tenant : uuid; receipt : string; ta_order : option string; ta_payment : option string;
  ta_amount : Q; ta_pack : option string; ta_status : string; ta_created_at : instant }.

Record till := Till { fee_books : fees; inbox : list Inbox.event; topup_attempts : list attempt }.
Definition with_fee_books f (s : till) : till := Till f (inbox s) (topup_attempts s).
Definition with_inbox t (s : till) : till := Till (fee_books s) t (topup_attempts s).
Definition with_attempts t (s : till) : till := Till (fee_books s) (inbox s) t.

(** The tables below. *)
Definition desk_of (s : till) : platform := desk (books (fee_books s)).
Definition wallet_of (s : till) : db := wallet (desk_of s).
Definition routes_of (s : till) : list route := object_routes (books (fee_books s)).

Definition in_fees {B} (m : tx fees B) : tx till B :=
  fun s => match m (fee_books s) with Ok (b, f) => Ok (b, with_fee_books f s) | Err e => Err e end.
Definition in_books {B} (m : tx (recharge account) B) : tx till B := in_fees (on_books m).
Definition in_desk {B} (m : tx platform B) : tx till B := in_fees (on_platform m).
Definition in_wallet {B} (m : tx db B) : tx till B := in_fees (on_db m).

(** ** Top-up attempts (billing/wallet.py) *)

Definition PENDING_GRACE_HOURS : Z := 24.
Definition attempt_is (r tenant_id : uuid) (p : attempt -> bool) (a : attempt) : bool := mine ta_tenant r tenant_id a && p a.

Definition attempt_paid (tenant_id : uuid) (rc : string) : tx till bool :=
  r ← gets (fun s => rls (wallet_of s)) ;
  gets (fun s => existsb (attempt_is r tenant_id (fun a => String.eqb (receipt a) rc
                            && bool_decide (ta_status a ∈ ["captured"; "authorized"]))) (topup_attempts s)).

Definition with_attempt_order (oid : option string) (a : attempt) : attempt :=
  Attempt (ta_id a) (ta_tenant a) (receipt a) (match oid with Some o => Some o | None => ta_order a end) (ta_payment a)
    (ta_amount a) (ta_pack a) (ta_status a) (ta_created_at a).
(** [INSERT ... ON CONFLICT (tenant_id, receipt) DO UPDATE]. *)
Definition record_attempt (tenant_id : uuid) (rc : string) (amount : Q) (oid pack : option string) : tx till unit :=
  i ← in_wallet WalletDb.uuid7 ;
  amt ← lift (numeric_12_4 amount) ;
  in_wallet (own_tenant tenant_id) ;;
  n ← gets (fun s => now (wallet_of s)) ;
  t ← gets topup_attempts ;
  let same a := (ta_tenant a =? tenant_id) && String.eqb (receipt a) rc in
  if negb (dlt 0 amt) then raise (CheckViolation "amount_positive")
  else if existsb same t then modify (with_attempts (update same (with_attempt_order oid) t))
  else modify (with_attempts (t ++ [Attempt i tenant_id rc oid None amt pack "created" n])).

Definition settled_attempt (status : string) (pid : option string) (a : attempt) : attempt :=
  Attempt (ta_id a) (ta_tenant a) (receipt a) (ta_order a) (match pid with Some p => Some p | None => ta_payment a end)
    (ta_amount a) (ta_pack a) status (ta_created_at a).
Definition settle_attempt (tenant_id : uuid) (oid pid : option string) (status : string) : tx till unit :=
  match oid with
  | None => ret tt
  | Some o =>
      r ← gets (fun s => rls (wallet_of s)) ;
      modify (fun s => with_attempts
        (update (attempt_is r tenant_id (fun a => bool_decide (ta_order a = Some o) && negb (String.eqb (ta_status a) "captured")))
           (settled_attempt status pid) (topup_attempts s)) s)
  end.

(** What a client's screen calls an attempt. *)
Definition attempt_outcome (n : instant) (a : attempt) : string :=
  if String.eqb (ta_status a) "created"
  then if PENDING_GRACE_HOURS * 3600 * 1000000 <? n - ta_created_at a then "unfinished" else "settling"
  else ta_status a.
Definition read_attempts (tenant_id : uuid) (at_ : option instant) (k : nat) : tx till (list (attempt * string)) :=
  n ← match at_ with Some t => ret t | None => in_wallet clock_timestamp end ;
  r ← gets (fun s => rls (wallet_of s)) ;
  gets (fun s => map (fun a => (a, attempt_outcome n a))
    (limit k (order_by (fun x y => (ta_created_at y <? ta_created_at x)
                                   || ((ta_created_at y =? ta_created_at x) && (ta_id y <=? ta_id x)))
       (select (mine ta_tenant r tenant_id) (topup_attempts s))))).

(** ** Our record of an order (billing/payment_objects.py) *)

(** [route_for]: read without a tenant; the object's id is unique. *)
Definition route_for (oid : option string) (s : till) : option route :=
  match oid with
  | None => None
  | Some o => if String.eqb o "" then None else List.find (fun x => String.eqb (object_id x) o) (routes_of s)
  end.

Definition verify_order (p : CapturedPayment) (r : option route) : result unit :=
  match r with
  | None => Ok tt
  | Some x =>
      if negb (ro_tenant x =? cp_tenant p) then Err (Problem Conflict "payment_order_mismatch")
      else
        match amount_paise x with
        | None => Ok tt
        | Some n =>
            match inr_to_paise (Dec (cp_amount_inr p)) with
            | Err e => Err e
            | Ok k => if n =? k then Ok tt else Err (Problem Conflict "payment_order_mismatch")
            end
        end
  end.
Definition purpose_is (what : string) (r : option route) : bool :=
  match r with Some x => bool_decide (purpose x = Some what) | None => false end.

(** ** Results *)

Inductive EventStatus := Credited | Refunded | Duplicate | Failed | Ignored | Authorized | RefundFailed | Mandated | Disputed | FeePaid.
Record EventResult := Event {
  er_status : EventStatus; er_payment : option string; er_entry : option uuid; er_amount : option Q; er_balance : option Q }.
Definition only (st : EventStatus) (pid : option string) : EventResult := Event st pid None None None.

Section Events.
Context (engine : string) (is_developer_workspace : string -> bool).
(** The audit log's key and HMAC-SHA256, the hash of an event's content, the terms on
    which credit lapses, the setting [auto_recharge_max_failures]. *)
Context (hmac_hex : string -> string -> string) (dumps : Audit.payload -> string) (audit_key : string).
Context (body_hash : list (string * jval) -> string) (terms : expiry_terms) (max_failures : Z).

Definition credit_payment : CapturedPayment -> option string -> tx platform TopUpResult :=
  credit_captured_payment (H := FirstPayment.FirstPayment.first_payment engine is_developer_workspace hmac_hex dumps audit_key)
    hmac_hex dumps audit_key terms.

(** [tenant_session]: committed whole, or not at all. *)
Definition opened (tenant_id : uuid) (s : till) : till := with_fee_books (PlatformFee.opened tenant_id (fee_books s)) s.
Definition in_session {B} (tenant_id : uuid) (m : tx till B) (s : till) : result B * till :=
  match m (opened tenant_id s) with Ok (b, s') => (Ok b, s') | Err e => (Err e, s) end.

Definition require_tenant (tenant_id : uuid) : tx till unit :=
  in_desk (FirstPayment.FirstPayment.assert_tenant_exists tenant_id).

(** [claim_inbox_event] and [mark_inbox_processed], at the transaction's [now()]. *)
Definition claim_event (key : string) (body : list (string * jval)) (event : string) : tx till Inbox.InboxClaim :=
  i ← in_wallet WalletDb.uuid7 ;
  n ← gets (fun s => now (wallet_of s)) ;
  t ← gets inbox ;
  c ← lift (Inbox.claim_inbox_event n i PROVIDER key (body_hash body) (Some event) t) ;
  modify (with_inbox (snd c)) ;;
  ret (fst c).
Definition mark_processed (i : uuid) : tx till unit :=
  n ← gets (fun s => now (wallet_of s)) ;
  modify (fun s => with_inbox (Inbox.mark_inbox_processed n i (inbox s)) s).

Definition event_key (event_id : option string) (event oid : string) : string :=
  match event_id with Some e => if String.eqb e "" then event +:+ ":" +:+ oid else e | None => event +:+ ":" +:+ oid end.
Definition payment_body (p : CapturedPayment) : list (string * jval) :=
  [("payment_id", JText (payment_id p)); ("tenant_id", JId (cp_tenant p)); ("amount_inr", JDec (cp_amount_inr p));
   ("currency", JText (cp_currency p))].

(** The inbox claim of a delivery; the reconciliation makes none. *)
Definition claimed (keyed : bool) (key : string) (body : list (string * jval)) (event : string) : tx till (option Inbox.InboxClaim) :=
  if keyed then c ← claim_event key body event ; ret (Some c) else ret None.
Definition is_duplicate (c : option Inbox.InboxClaim) : bool :=
  match c with Some x => match Inbox.state x with Inbox.duplicate => true | Inbox.claimed => false end | None => false end.
Definition close_claim (c : option Inbox.InboxClaim) : tx till unit :=
  match c with Some x => mark_processed (Inbox.row_id x) | None => ret tt end.

(** ** Captured payments *)

Definition when_order (b : bool) (oid : option string) (m : string -> tx till unit) : tx till unit :=
  match oid with Some o => if b then m o else ret tt | None => ret tt end.

(** The transaction of [apply_captured]. *)
Definition captured_tx (keyed : bool) (event : string) (event_id ip : option string) (p : CapturedPayment) (r : option route) :
    tx till EventResult :=
  let tenant_id := cp_tenant p in
  require_tenant tenant_id ;;
  claim ← claimed keyed (event_key event_id event (payment_id p)) (payment_body p) event ;
  if is_duplicate claim then
    existing ← in_wallet (find_topup tenant_id [PWord (payment_id p)]) ;
    b ← in_wallet (get_balance tenant_id) ;
    ret (Event Duplicate (Some (payment_id p)) (option_map entry_id existing)
           (option_map (fun e => to_paise (entry_amount e)) existing) (Some (to_paise (amount_inr b))))
  else
    result ← in_desk (credit_payment p ip) ;
    settle_attempt tenant_id (Envelope.order_id p) (Some (payment_id p)) "captured" ;;
    when_order (purpose_is MANDATE r) (Envelope.order_id p)
      (fun o => in_books (note_mandate_payment tenant_id o (Envelope.token_id p))) ;;
    when_order (purpose_is AUTO_RECHARGE r) (Envelope.order_id p)
      (fun o => in_books (settle_charge hmac_hex dumps audit_key max_failures tenant_id o (Some (payment_id p)) true None)) ;;
    close_claim claim ;;
    ret (Event (if recorded result then Credited else Duplicate) (Some (payment_id p)) (Some (tu_entry result))
           (Some (to_paise (cp_amount_inr p))) (Some (to_paise (amount_inr (tu_balance result))))).

(** The transaction of [_apply_fee_payment]. *)
Definition fee_tx (keyed : bool) (event : string) (event_id : option string) (p : CapturedPayment) : tx till EventResult :=
  let tenant_id := cp_tenant p in
  require_tenant tenant_id ;;
  claim ← claimed keyed (event_key event_id event (payment_id p)) (payment_body p) event ;
  if is_duplicate claim then ret (only Duplicate (Some (payment_id p)))
  else
    c ← match Envelope.order_id p with None => ret None | Some o => in_fees (charge_for_order tenant_id o) end ;
    match c with
    | None => raise (Problem Conflict "platform_fee_unmatched")
    | Some c =>
        n ← in_wallet clock_timestamp ;
        done ← in_fees (record_payment tenant_id c (cp_amount_inr p) "razorpay" (payment_id p) n None) ;
        close_claim claim ;;
        ret (Event (if done : bool then FeePaid else Duplicate) (Some (payment_id p)) None (Some (to_paise (cp_amount_inr p))) None)
    end.

(** [apply_captured] past the reading of the event; the reconciliation calls it without
    an envelope ([keyed] false). *)
Definition captured (keyed : bool) (event : string) (event_id ip : option string) (p : CapturedPayment) (r : option route)
    (s : till) : result EventResult * till :=
  match verify_order p r with
  | Err e => (Err e, s)
  | Ok _ =>
      if purpose_is PLATFORM_FEE r then in_session (cp_tenant p) (fee_tx keyed event event_id p) s
      else in_session (cp_tenant p) (captured_tx keyed event event_id ip p r) s
  end.
(** The whole of it: the route is read first, in a session of its own, so other sessions
    may commit ([meanwhile]) before the tenant's opens. *)
Definition apply_captured (envelope : Envelope.json) (event : string) (event_id ip : option string) (meanwhile : till -> till)
    (s : till) : result EventResult * till :=
  let r := route_for (payment_order_id envelope) s in
  match extract_captured_payment envelope (option_map ro_tenant r) with
  | Err e => (Err e, s)
  | Ok p => captured true event event_id ip p r (meanwhile s)
  end.

(** ** Payments authorised or failed: no money moves *)

(** [payment_attempt_ids]. *)
Record PaymentAttemptIds := AttemptIds { ai_tenant : uuid; ai_order : string; ai_payment : option string }.
Definition payment_attempt_ids (envelope : Envelope.json) (tenant_hint : option uuid) : option PaymentAttemptIds :=
  let e := entity "payment" envelope in
  if negb (is_dict e) then None
  else
    match stripped (get "order_id" e) with
    | None => None
    | Some o =>
        match payment_tenant (get NOTES_TENANT_KEY (get "notes" e)) tenant_hint with
        | None => None
        | Some t => Some (AttemptIds t o (stripped (get "id" e)))
        end
    end.

Definition payment_state_tx (failed : bool) (code : option string) (a : PaymentAttemptIds) (r : option route) : tx till unit :=
  settle_attempt (ai_tenant a) (Some (ai_order a)) (ai_payment a) (if failed then "failed" else "authorized") ;;
  (if failed && purpose_is AUTO_RECHARGE r
   then in_books (settle_charge hmac_hex dumps audit_key max_failures (ai_tenant a) (ai_order a) (ai_payment a) false code)
   else ret tt).
Definition apply_payment_state (envelope : Envelope.json) (failed : bool) (meanwhile : till -> till) (s : till) :
    result EventResult * till :=
  let r := route_for (payment_order_id envelope) s in
  let st := if failed then Failed else Authorized in
  match payment_attempt_ids envelope (option_map ro_tenant r) with
  | None => (Ok (only st None), s)
  | Some a =>
      let code := match get "error_code" (entity "payment" envelope) with Str c => Some c | _ => None end in
      match in_session (ai_tenant a) (payment_state_tx failed code a r) (meanwhile s) with
      | (Ok _, s) => (Ok (only st (ai_payment a)), s)
      | (Err e, s) => (Err e, s)
      end
  end.

(** ** Refunds *)

Definition refund_body (rf : RefundEvent) : list (string * jval) :=
  [("refund_id", JText (refund_id rf)); ("payment_id", JText (rf_payment_id rf)); ("tenant_id", JId (rf_tenant rf));
   ("amount_inr", JDec (rf_amount_inr rf)); ("currency", JText (rf_currency rf))].
Definition refund_tx (event : string) (event_id ip : option string) (rf : RefundEvent) : tx till EventResult :=
  require_tenant (rf_tenant rf) ;;
  claim ← claimed true (event_key event_id event (refund_id rf)) (refund_body rf) event ;
  if is_duplicate claim then
    b ← in_wallet (get_balance (rf_tenant rf)) ;
    ret (Event Duplicate (Some (rf_payment_id rf)) None None (Some (to_paise (amount_inr b))))
  else
    result ← in_desk (Refunds.Refunds.credit_refund hmac_hex dumps audit_key rf ip) ;
    close_claim claim ;;
    ret (Event (if recorded result then Refunded else Duplicate) (Some (rf_payment_id rf)) (Some (tu_entry result))
           (Some (to_paise (rf_amount_inr rf))) (Some (to_paise (amount_inr (tu_balance result))))).
Definition apply_refund_processed (envelope : Envelope.json) (event : string) (event_id ip : option string) (s : till) :
    result EventResult * till :=
  match extract_refund envelope with
  | Err e => (Err e, s)
  | Ok rf => in_session (rf_tenant rf) (refund_tx event event_id ip rf) s
  end.

Definition refund_failed_tx (rf : RefundEvent) : tx till unit :=
  require_tenant (rf_tenant rf) ;;
  key ← in_desk (Refunds.Refunds.claim_of_failed_refund (rf_tenant rf) rf) ;
  match key with
  | Some k => in_desk (Refunds.Refunds.release_refund_claim (rf_tenant rf) k (Some (refund_id rf)))
  | None => ret tt
  end ;;
  in_desk (audit_system hmac_hex dumps audit_key (rf_tenant rf) "refund.failed" "credit_ledger" (refund_id rf) None).
Definition apply_refund_failed (envelope : Envelope.json) (s : till) : result EventResult * till :=
  match extract_refund envelope with
  | Err e => (Err e, s)
  | Ok rf =>
      match in_session (rf_tenant rf) (refund_failed_tx rf) s with
      | (Ok _, s) => (Ok (only RefundFailed (Some (rf_payment_id rf))), s)
      | (Err e, s) => (Err e, s)
      end
  end.

(** ** Mandates *)

Definition apply_token (envelope : Envelope.json) (event : string) (meanwhile : till -> till) (s : till) :
    result EventResult * till :=
  match get "id" (entity "token" envelope), token_status_of_event event with
  | Str tok, Some status =>
      match route_for (Some tok) s with
      | None => (Ok (only Ignored None), s)
      | Some r =>
          match in_session (ro_tenant r)
                  (in_books (apply_token_status hmac_hex dumps audit_key (ro_tenant r) tok status)) (meanwhile s) with
          | (Ok _, s) => (Ok (only Mandated None), s)
          | (Err e, s) => (Err e, s)
          end
      end
  | _, _ => (Ok (only Ignored None), s)
  end.

(** ** Disputes *)

(** [_notes_tenant]: the tenant the disputed payment's notes name, if they name one. *)
Definition notes_tenant (envelope : Envelope.json) : option uuid :=
  let raw := get NOTES_TENANT_KEY (get "notes" (entity "payment" envelope)) in
  if truthy raw then uuid_of_json raw else None.

Definition dispute_body (d : DisputeFacts) (event : string) : list (string * jval) :=
  [("dispute_id", JText (dispute_id d)); ("status", JText (dp_status d)); ("event", JText event)].
Definition dispute_tx (tenant_id : uuid) (event : string) (event_id : option string) (d : DisputeFacts) : tx till EventResult :=
  require_tenant tenant_id ;;
  claim ← claimed true (event_key event_id event (dispute_id d)) (dispute_body d event) event ;
  if is_duplicate claim then ret (only Duplicate (Some (dp_payment_id d)))
  else
    in_desk (Disputes.Disputes.apply_dispute_event hmac_hex dumps audit_key terms tenant_id event d) ;;
    close_claim claim ;;
    ret (only Disputed (Some (dp_payment_id d))).
Definition apply_dispute (envelope : Envelope.json) (event : string) (event_id : option string) (meanwhile : till -> till)
    (s : till) : result EventResult * till :=
  match extract_dispute envelope with
  | Err e => (Err e, s)
  | Ok d =>
      match match route_for (payment_order_id envelope) s with Some r => Some (ro_tenant r) | None => notes_tenant envelope end with
      | None => (Err (Problem NotFound "not_found"), s)
      | Some t => in_session t (dispute_tx t event event_id d) (meanwhile s)
      end
  end.
End Events.

(** ** Steps beside the wallet *)

(** The clock, the ids and the outbox of the wallet's tables may move on, and the audit
    log; auto-recharge's tables stay sound. *)
Definition beside (max_failures : Z) (r r' : recharge account) : Prop :=
  aside (wallet (desk r)) (wallet (desk r')) /\ same_desk (desk r) (desk r')
  /\ (recharge_ok max_failures r -> recharge_ok max_failures r').

(** A step of the till beside the wallet, the fees and the attempts. *)
Record calm (max_failures : Z) (s s' : till) : Prop := Calm {
  cm_books : beside max_failures (books (fee_books s)) (books (fee_books s'));
  cm_charges : fee_charges (fee_books s') = fee_charges (fee_books s);
  cm_payments : fee_payments (fee_books s') = fee_payments (fee_books s);
  cm_attempts : topup_attempts s' = topup_attempts s
}.

Section Beside.
Context (max_failures : Z).
Abbreviation beside := (beside max_failures).
Abbreviation calm := (calm max_failures).

#[export] Instance beside_preorder : PreOrder beside.
Proof.
  split; [intros r; split; [apply aside_refl|done]|].
  intros r1 r2 r3 (A1 & D1 & K1) (A2 & D2 & K2). split; [by eapply aside_trans|]. split; [by eapply same_desk_trans|auto].
Qed.
#[export] Instance calm_preorder : PreOrder calm.
Proof.
  split; [intros s; by constructor|]. intros s1 s2 s3 [B1 C1 P1 A1] [B2 C2 P2 A2].
  constructor; [by etrans|congruence..].
Qed.

(** Two parts of [beside], proved apart. *)
Definition quiet_desk (r r' : recharge account) : Prop :=
  aside (wallet (desk r)) (wallet (desk r')) /\ same_desk (desk r) (desk r').
#[export] Instance quiet_desk_preorder : PreOrder quiet_desk.
Proof.
  split; [intros r; split; [apply aside_refl|done]|].
  intros r1 r2 r3 [A1 D1] [A2 D2]. split; [by eapply aside_trans|by eapply same_desk_trans].
Qed.

Lemma quiet_on_wallet {B} (m : tx db B) :
  (forall w b w', m w = Ok (b, w') -> aside w w') -> respects quiet_desk (on_wallet_of m).
Proof.
  intros Hm s b s' H. unfold on_wallet_of, on_desk, on_wallet in H. destruct (m _) as [[b' w]|] eqn:E; [|done].
  injection H as <- <-. split; [by eapply Hm|done].
Qed.
Lemma quiet_uuid : respects quiet_desk (new_id (A := account)).
Proof. apply quiet_on_wallet, uuid7_aside. Qed.
Lemma quiet_clock : respects quiet_desk (on_wallet_of (A := account) clock_timestamp).
Proof. apply quiet_on_wallet, clock_aside. Qed.
Lemma quiet_own t : respects quiet_desk (on_wallet_of (A := account) (own_tenant t)).
Proof. apply quiet_on_wallet, own_tenant_aside. Qed.
Lemma enqueue_aside job payload w u w' : Ledger.enqueue job payload w = Ok (u, w') -> aside w w'.
Proof.
  intros H. apply bind_ok in H as (i & w1 & H1 & H2). apply modify_ok in H2 as ->. apply uuid7_aside in H1.
  eapply aside_trans; [exact H1|apply aside_outbox].
Qed.
Lemma quiet_notice t k q why : respects quiet_desk (notice (A := account) t k q why).
Proof. apply quiet_on_wallet, enqueue_aside. Qed.
Lemma quiet_same f : (forall r : recharge account, desk (f r) = desk r) -> respects quiet_desk (modify f).
Proof. intros Hf. apply respects_modify. intros r. split; rewrite Hf; [apply aside_refl|done]. Qed.
Lemma quiet_charges t : respects quiet_desk (modify (with_charges (A := account) t)).
Proof. by apply quiet_same. Qed.
Lemma quiet_settings t : respects quiet_desk (modify (with_settings (A := account) t)).
Proof. by apply quiet_same. Qed.
Lemma quiet_routes t : respects quiet_desk (modify (with_routes (A := account) t)).
Proof. by apply quiet_same. Qed.
#[local] Hint Resolve quiet_uuid quiet_clock quiet_own quiet_notice quiet_charges quiet_settings quiet_routes : respects.

Lemma quiet_audit hm du k t a at_ ot oi ip : respects quiet_desk (AutoRecharge.write_audit (A := account) hm du k t a at_ ot oi ip).
Proof.
  unfold AutoRecharge.write_audit. respects. intros r u r' H. injection H as _ <-. split; [apply aside_refl|done].
Qed.
Lemma quiet_update_settings p f : respects quiet_desk (update_settings (A := account) p f).
Proof. unfold update_settings, AutoRecharge.session_tenant. cbv zeta. respects. Qed.
Lemma quiet_update_charges p f : respects quiet_desk (update_charges (A := account) p f).
Proof. unfold update_charges, AutoRecharge.session_tenant. cbv zeta. respects. Qed.
Lemma quiet_record_route t oid k pu q : respects quiet_desk (record_route (A := account) t oid k pu q).
Proof. unfold record_route. cbv zeta. respects. Qed.
#[local] Hint Resolve quiet_audit quiet_update_settings quiet_update_charges quiet_record_route : respects.

Lemma quiet_note t o tok : respects quiet_desk (note_mandate_payment (A := account) t o tok).
Proof. unfold note_mandate_payment, settings_row, AutoRecharge.session_tenant, remember_token. respects. Qed.
Lemma quiet_settle hm du k t o pid c code : respects quiet_desk (settle_charge (A := account) hm du k max_failures t o pid c code).
Proof.
  unfold settle_charge, AutoRecharge.session_tenant, AutoRecharge.txn_now, fail_charge. cbv zeta. respects.
Qed.
Lemma quiet_token hm du k t tok st : respects quiet_desk (apply_token_status (A := account) hm du k t tok st).
Proof. unfold apply_token_status. cbv zeta. respects. Qed.

Lemma beside_note t o tok : respects beside (note_mandate_payment t o tok).
Proof.
  intros r u r' H. destruct (quiet_note _ _ _ _ _ _ H). split; [done|]. split; [done|].
  apply (adv_ok _ _ _ _ _ (advancing_note (client := false) (own := None) max_failures _ _ _ _ _ _ H)).
Qed.
Lemma beside_settle hm du k t o pid c code : respects beside (settle_charge hm du k max_failures t o pid c code).
Proof.
  intros r u r' H. destruct (quiet_settle _ _ _ _ _ _ _ _ _ _ _ H). split; [done|]. split; [done|].
  apply (adv_ok _ _ _ _ _ (advancing_settle (client := false) (own := None) _ _ _ max_failures _ _ _ _ _ _ _ _ H)).
Qed.
Lemma beside_token hm du k t tok st : respects beside (apply_token_status hm du k t tok st).
Proof.
  intros r u r' H. destruct (quiet_token _ _ _ _ _ _ _ _ _ H). split; [done|]. split; [done|].
  apply (adv_ok _ _ _ _ _ (advancing_token_status (client := false) (own := None) _ _ _ max_failures _ _ _ _ _ _ H)).
Qed.

(** ** The same at the till *)

Lemma in_books_ok {B} (m : tx (recharge account) B) s b s' :
  in_books m s = Ok (b, s') <-> exists r, m (books (fee_books s)) = Ok (b, r)
    /\ s' = with_fee_books (with_books r (fee_books s)) s.
Proof.
  unfold in_books, in_fees, on_books. destruct (m _) as [[b' r]|e]; split.
  - intros [= <- <-]. by exists r.
  - intros (r' & [= <- <-] & ->). done.
  - done.
  - by intros (r & ? & _).
Qed.

Lemma calm_books {B} (m : tx (recharge account) B) : respects beside m -> respects calm (in_books m).
Proof. intros Hm s b s' H. apply in_books_ok in H as (r & E & ->). apply Hm in E. by constructor. Qed.

Lemma in_wallet_ok {B} (m : tx db B) s b s' :
  in_wallet m s = Ok (b, s') <-> exists w, m (wallet_of s) = Ok (b, w)
    /\ s' = with_fee_books (with_books (with_desk (with_wallet w (desk_of s)) (books (fee_books s))) (fee_books s)) s.
Proof.
  unfold in_wallet, in_fees. split.
  - destruct (on_db m _) as [[b' f]|] eqn:E; [|done]. intros [= <- <-]. apply on_db_ok in E as (w & E & ->). by exists w.
  - intros (w & E & ->). assert (on_db m (fee_books s) = Ok (b, with_books (with_desk (with_wallet w (desk_of s)) (books (fee_books s))) (fee_books s)))
      as -> by (apply on_db_ok; by exists w). done.
Qed.
Lemma calm_wallet {B} (m : tx db B) : (forall w b w', m w = Ok (b, w') -> aside w w') -> respects calm (in_wallet m).
Proof.
  intros Hm s b s' H. apply in_wallet_ok in H as (w & E & ->). constructor; try done. split; [by eapply Hm|].
  split; [done|]. by intros [].
Qed.

Lemma require_same t s u s' : require_tenant t s = Ok (u, s') -> s' = s.
Proof.
  intros H. unfold require_tenant, in_desk, in_fees in H. destruct (on_platform _ _) as [[u' f]|] eqn:E; [|done].
  injection H as _ <-. assert (fee_books s = f) as <-; [|by destruct s].
  eapply reads_platform; [|exact E]. unfold FirstPayment.FirstPayment.assert_tenant_exists, Trials.own_org, Trials.session_tenant, read. respects.
Qed.
Lemma calm_require t : respects calm (require_tenant t).
Proof. intros s u s' H. apply require_same in H as ->. reflexivity. Qed.

Lemma calm_inbox f : respects calm (modify (fun s => with_inbox (f s) s)).
Proof. apply respects_modify. intros s. by constructor. Qed.

Lemma calm_claimed hash keyed key body event : respects calm (claimed hash keyed key body event).
Proof.
  pose proof (calm_wallet _ uuid7_aside). pose proof (fun t => calm_inbox (fun _ => t)). unfold claimed, claim_event. respects.
Qed.
Lemma calm_close c : respects calm (close_claim c).
Proof. unfold close_claim, mark_processed. respects. intros s u s' H. by apply calm_inbox in H. Qed.
Lemma calm_when b o m : (forall x, respects calm (m x)) -> respects calm (when_order b o m).
Proof. intros Hm. unfold when_order. destruct o, b; try done; by respects. Qed.

(** The orders a captured payment settles. *)
Definition settled_orders (t : uuid) (o : option string) (l : list attempt) : Prop :=
  forall a, In a l -> ta_tenant a = t -> ta_order a = o -> o <> None -> ta_status a = "captured".

Lemma settle_attempt_spec t o pid s u s' :
  settle_attempt t o pid "captured" s = Ok (u, s') -> rls (wallet_of s) = t ->
  fee_books s' = fee_books s /\ settled_orders t o (topup_attempts s').
Proof.
  intros H Hr. unfold settle_attempt in H. destruct o as [o|].
  - cbv [bind gets modify] in H. injection H as _ <-. split; [done|]. simpl. intros a Ha Ht Ho _.
    apply update_In in Ha as (x & Hx & ->). unfold attempt_is, mine in *. rewrite Hr in *.
    destruct (((ta_tenant x =? t) && (ta_tenant x =? t)) && _) eqn:E; [done|].
    destruct (String.eqb_spec (ta_status x) "captured") as [|Hs]; [done|]. rewrite Ht, Ho, Z.eqb_refl, bool_decide_true in E by done. done.
  - apply ret_ok in H as [_ ->]. split; [done|]. by intros a _ _ _ [].
Qed.
End Beside.

(** ** The theorem's terms *)
Section Laws.
Context (engine : string) (is_developer_workspace : string -> bool).
Context (hmac_hex : string -> string -> string) (dumps : Audit.payload -> string) (audit_key : string).
Context (body_hash : list (string * jval) -> string) (terms : expiry_terms) (max_failures : Z).
Abbreviation captured := (captured engine is_developer_workspace hmac_hex dumps audit_key body_hash terms max_failures).
Abbreviation captured_tx := (captured_tx engine is_developer_workspace hmac_hex dumps audit_key body_hash terms max_failures).
Abbreviation fee_tx := (fee_tx body_hash).
Abbreviation credit_payment := (credit_payment engine is_developer_workspace hmac_hex dumps audit_key terms).

(** Every wallet in balance, the fees and auto-recharge sound. *)
Record books_ok (s : till) : Prop := BooksOk {
  bk_wallet : wallet_ok (wallet_of s);
  bk_fees : fees_ok (fee_books s);
  bk_recharge : recharge_ok max_failures (books (fee_books s))
}.

(** No credit, lot or fee payment moved. *)
Record money_kept (s s' : till) : Prop := MoneyKept {
  mk_ledger : credit_ledger (wallet_of s') = credit_ledger (wallet_of s);
  mk_lots : credit_lots (wallet_of s') = credit_lots (wallet_of s);
  mk_fees : fee_payments (fee_books s') = fee_payments (fee_books s)
}.

(** [s'] is [s] after more movements and more fee payments: both tables only grow. *)
Record grown (s s' : till) : Prop := Grown {
  gr_ledger : exists l, credit_ledger (wallet_of s') = credit_ledger (wallet_of s) ++ l;
  gr_fees : exists l, fee_payments (fee_books s') = fee_payments (fee_books s) ++ l
}.

#[export] Instance money_kept_preorder : PreOrder money_kept.
Proof. split; [by intros s|]. intros s1 s2 s3 [] []. constructor; congruence. Qed.

Lemma calm_money s s' : calm max_failures s s' -> money_kept s s' /\ rls (wallet_of s') = rls (wallet_of s).
Proof. intros [(A & _ & _) _ P _]. split; [constructor; [apply A|apply A|done]|apply A]. Qed.

Lemma fees_ok_same f f' :
  fee_refs (desk (books f')) = fee_refs (desk (books f)) -> fee_charges f' = fee_charges f -> fee_payments f' = fee_payments f ->
  fees_ok f -> fees_ok f'.
Proof. intros E1 E2 E3 []. constructor; rewrite ?E2, ?E3; try done. congruence. Qed.

Lemma calm_ok s s' : calm max_failures s s' -> books_ok s -> books_ok s'.
Proof.
  intros [(A & D & K) C P _] [W F R]. constructor; [by eapply aside_wallet_ok|eapply fees_ok_same; [apply D|..]; done|by apply K].
Qed.

Lemma opened_ok t s : books_ok s -> books_ok (opened t s).
Proof.
  intros [W F R]. constructor; [|by destruct F|by destruct R].
  destruct W as [[[O H1 H2 H3 H4] L [K1 K2 K3]] S]. constructor; [constructor; [constructor; try done| |constructor]|]; try done.
  destruct O. constructor; try done; simpl; intros; auto with arith.
Qed.

Lemma desk_ok {B} (m : tx platform B) s b s' :
  in_desk m s = Ok (b, s') <-> exists d, m (desk_of s) = Ok (b, d)
    /\ s' = with_fee_books (with_books (with_desk d (books (fee_books s))) (fee_books s)) s.
Proof.
  unfold in_desk, in_fees, on_platform, on_books, on_desk, desk_of. destruct (m _) as [[b' d]|e]; split.
  - intros [= <- <-]. by exists d.
  - intros (d' & [= <- <-] & ->). done.
  - done.
  - by intros (d & ? & _).
Qed.

Lemma bonus_added_aside p w w' : aside w w' -> bonus_added p w' = bonus_added p w.
Proof. intros A. unfold bonus_added, bonus_due. destruct (RateCard.pack_paid_for _ _); [|done]. by rewrite (aside_entry_at _ _ _ _ _ A). Qed.

(** What the tail of [captured_tx] leaves. *)
Lemma tail_calm t p r claim (b : EventResult) s u s' :
  (when_order (purpose_is MANDATE r) (Envelope.order_id p)
     (fun o => in_books (note_mandate_payment t o (Envelope.token_id p))) ;;
   when_order (purpose_is AUTO_RECHARGE r) (Envelope.order_id p)
     (fun o => in_books (settle_charge hmac_hex dumps audit_key max_failures t o (Some (payment_id p)) true None)) ;;
   close_claim claim ;; ret b) s = Ok (u, s') ->
  calm max_failures s s' /\ u = b.
Proof.
  intros H. apply bind_ok in H as (x1 & s1 & E1 & H). apply bind_ok in H as (x2 & s2 & E2 & H).
  apply bind_ok in H as (x3 & s3 & E3 & H). apply ret_ok in H as [-> ->]. split; [|done].
  apply (calm_when max_failures) in E1; [|intros o; apply calm_books, beside_note].
  apply (calm_when max_failures) in E2; [|intros o; apply calm_books, beside_settle].
  apply (calm_close max_failures) in E3. etrans; [exact E1|]. by etrans.
Qed.

Lemma captured_tx_spec keyed event event_id ip p r s res s' :
  books_ok s -> cp_tenant p = rls (wallet_of s) -> payment_ok p -> captured_tx keyed event event_id ip p r s = Ok (res, s') ->
  books_ok s' /\ rls (wallet_of s') = rls (wallet_of s)
  /\ (er_status res = Credited
       /\ (ledger_sum (cp_tenant p) (credit_ledger (wallet_of s'))
           == ledger_sum (cp_tenant p) (credit_ledger (wallet_of s)) + cp_amount_inr p + bonus_added p (wallet_of s))%Q
       /\ fee_payments (fee_books s') = fee_payments (fee_books s)
       /\ settled_orders (cp_tenant p) (Envelope.order_id p) (topup_attempts s')
       /\ entry_at (cp_tenant p) "topup" [PWord (payment_id p)] (wallet_of s) = None
       /\ entry_at (cp_tenant p) "topup" [PWord (payment_id p)] (wallet_of s') <> None
     \/ er_status res = Duplicate /\ money_kept s s').
Proof.
  intros Hok Ht Hp H. unfold PaymentEvents.captured_tx in H. cbv zeta in H.
  apply bind_ok in H as (u & s0 & E & H). apply require_same in E as ->.
  apply bind_ok in H as (claim & s1 & E & H). apply (calm_claimed max_failures) in E as C1.
  pose proof (calm_ok _ _ C1 Hok) as Hok1. destruct (calm_money _ _ C1) as [M1 R1].
  destruct (is_duplicate claim).
  { apply bind_ok in H as (x & s2 & E2 & H). apply in_wallet_ok in E2 as (w & E2 & ->). unfold find_topup in E2.
    rewrite find_entry_at in E2. injection E2 as <- <-.
    apply bind_ok in H as (y & s3 & E3 & H). apply in_wallet_ok in E3 as (w & E3 & ->).
    assert (w = wallet_of s1) as ->.
    { unfold wallet_of, desk_of in E3. simpl in E3. rewrite Ht, <- R1 in E3. unfold wallet_of, desk_of in E3. by rewrite get_balance_eq in E3; injection E3 as _ <-. }
    apply ret_ok in H as [-> ->].
    replace (with_fee_books _ _) with s1 by (by destruct s1 as [[[[] ? ? ?] ? ? ?] ? ?]).
    split; [done|]. split; [done|]. by right. }
  apply bind_ok in H as (res0 & s2 & E2 & H). apply desk_ok in E2 as (d & E2 & ->).
  pose proof (bk_wallet _ Hok1) as W1. rewrite <- R1 in Ht.
  destruct (credit_spec hmac_hex dumps audit_key terms p ip (desk_of s1) res0 d W1 Ht Hp E2) as (W2 & R2 & D2 & _ & (x & Hx & _) & Hrec).
  set (s2 := with_fee_books _ s1) in *.
  apply bind_ok in H as (u1 & s3 & E3 & H).
  assert (R2' : rls (wallet_of s2) = cp_tenant p) by (rewrite Ht; exact R2).
  destruct (settle_attempt_spec _ _ _ _ _ _ E3 R2') as [F3 A3]. apply tail_calm in H as [C4 ->].
  assert (Hok3 : books_ok s3).
  { assert (Hok2 : books_ok s2).
    { destruct Hok1 as [_ F K]. constructor; [done|eapply fees_ok_same; [apply D2|..]; done|by destruct K]. }
    destruct Hok2 as [W F K]. unfold wallet_of, desk_of in *. constructor; unfold wallet_of, desk_of; by rewrite F3. }
  destruct (calm_money _ _ C4) as [M4 R4]. split; [by eapply calm_ok|].
  assert (Hw3 : wallet_of s3 = wallet d) by (unfold wallet_of, desk_of; by rewrite F3).
  split; [rewrite R4, Hw3, R2, <- R1; done|]. simpl.
  pose proof C1 as [(A1 & _) _ _ _]. pose proof C4 as [(A4 & _) _ _ _].
  destruct (recorded res0).
  - left. destruct Hrec as [Hn Hb]. split; [done|].
    rewrite (mk_ledger _ _ M4), Hw3, <- (mk_ledger _ _ M1), (mk_fees _ _ M4), F3, (cm_attempts _ _ _ C4).
    split; [|split; [|split; [done|split]]].
    + unfold balance_held in Hb. rewrite R2 in Hb. change (wallet (desk_of s1)) with (wallet_of s1) in Hb.
      rewrite <- Ht in Hb. pose proof (bonus_added_aside p _ _ A1 : bonus_added p (wallet_of s1) = bonus_added p (wallet_of s)) as Eb.
      rewrite Eb in Hb. exact Hb.
    + apply (mk_fees _ _ M1).
    + rewrite <- Hn. symmetry. by apply aside_entry_at.
    + unfold wallet_of at 1, desk_of. rewrite (aside_entry_at _ _ _ _ _ A4). fold (desk_of s3). fold (wallet_of s3). by rewrite Hw3, Hx.
  - right. split; [done|]. subst d. etrans; [exact M1|]. etrans; [|exact M4]. constructor; [by rewrite Hw3..|by rewrite F3].
Qed.

(** ** A fee's payment *)

(** A transaction on the fees beside the wallet. *)
Definition fees_beside (f f' : fees) : Prop :=
  aside (wallet (desk (books f))) (wallet (desk (books f')))
  /\ (recharge_ok max_failures (books f) -> recharge_ok max_failures (books f')).
#[local] Instance fees_beside_preorder : PreOrder fees_beside.
Proof.
  split; [intros f; split; [apply aside_refl|done]|]. intros f1 f2 f3 [A1 K1] [A2 K2]. split; [by eapply aside_trans|auto].
Qed.
Lemma fees_beside_db {B} (m : tx db B) : (forall w b w', m w = Ok (b, w') -> aside w w') -> respects fees_beside (on_db m).
Proof. intros Hm f b f' H. apply on_db_ok in H as (w & E & ->). split; [by eapply Hm|by intros []]. Qed.
Lemma fees_beside_record t c amount method ref_ at_ by_ : respects fees_beside (record_payment t c amount method ref_ at_ by_).
Proof.
  pose proof (fees_beside_db _ uuid7_aside). pose proof (fun t => fees_beside_db _ (own_tenant_aside t)).
  assert (forall l, respects fees_beside (modify (with_fee_payments l))).
  { intros l. apply respects_modify. intros f. split; [apply aside_refl|by intros []]. }
  assert (forall x, respects fees_beside (on_platform (modify (fun d => with_fee_refs (fee_refs d ++ [ref_of x]) d)))).
  { intros x f u f' E. injection E as _ <-. split; [apply aside_refl|by intros []]. }
  unfold record_payment, insert_payment, paid_with, session_tenant. respects.
Qed.

Lemma fees_step {B} (m : tx fees B) s b s' : in_fees m s = Ok (b, s') -> exists f, m (fee_books s) = Ok (b, f) /\ s' = with_fee_books f s.
Proof. unfold in_fees. destruct (m _) as [[b' f]|]; [|done]. intros [= <- <-]. by exists f. Qed.

Lemma fee_tx_spec keyed event event_id p s res s' :
  books_ok s -> cp_tenant p = rls (wallet_of s) -> fee_tx keyed event event_id p s = Ok (res, s') ->
  books_ok s' /\ rls (wallet_of s') = rls (wallet_of s)
  /\ credit_ledger (wallet_of s') = credit_ledger (wallet_of s) /\ credit_lots (wallet_of s') = credit_lots (wallet_of s)
  /\ (er_status res = FeePaid
       /\ (exists c x, In c (fee_charges (fee_books s)) /\ provider_order_id c = Envelope.order_id p
            /\ fee_payments (fee_books s') = fee_payments (fee_books s) ++ [x] /\ settles x c
            /\ (fp_amount x == cp_amount_inr p)%Q /\ source_of x = ("razorpay", strip (payment_id p)))
     \/ er_status res = Duplicate /\ fee_payments (fee_books s') = fee_payments (fee_books s)).
Proof.
  intros Hok Ht H. unfold PaymentEvents.fee_tx in H. cbv zeta in H.
  apply bind_ok in H as (u & s0 & E & H). apply require_same in E as ->.
  apply bind_ok in H as (claim & s1 & E & H). apply (calm_claimed max_failures) in E as C1.
  pose proof (calm_ok _ _ C1 Hok) as Hok1. destruct (calm_money _ _ C1) as [[L1 T1 P1] R1]. pose proof (cm_charges _ _ _ C1) as Q1.
  destruct (is_duplicate claim); [apply ret_ok in H as [-> ->]; split; [done|]; split; [done|]; split; [done|]; split; [done|]; by right|].
  apply bind_ok in H as (o & s2 & E2 & H).
  assert (s2 = s1 /\ match o with Some c => In (fee c) (fee_charges (fee_books s1)) /\ fc_tenant (fee c) = cp_tenant p
            /\ provider_order_id (fee c) = Envelope.order_id p | None => True end) as [-> Hc].
  { destruct (Envelope.order_id p) as [oid|]; [|by apply ret_ok in E2 as [-> ->]].
    apply fees_step in E2 as (f & E2 & ->). destruct o as [c|].
    - destruct (order_charge_in _ _ _ _ _ E2) as (-> & ? & ? & ?). split; [by destruct s1|done].
    - apply bind_ok in E2 as (l & f1 & E2 & E3). apply reads_charges in E2 as <-. apply ret_ok in E3 as [_ ->]. split; [by destruct s1|done]. }
  destruct o as [c|]; [|by apply raise_ok in H]. destruct Hc as (Hin & Htc & Hoc).
  apply bind_ok in H as (n & s2 & E2' & H). apply (calm_wallet max_failures _ clock_aside) in E2' as C2.
  pose proof (calm_ok _ _ C2 Hok1) as Hok2. destruct (calm_money _ _ C2) as [[L2 T2 P2] R2]. pose proof (cm_charges _ _ _ C2) as Q2.
  apply bind_ok in H as (b & s3 & E3 & H). apply fees_step in E3 as (f & E3 & ->).
  rewrite <- Q2 in Hin. pose proof (fees_beside_record _ _ _ _ _ _ _ _ _ _ E3) as [A3 K3].
  destruct (record_payment_spec _ _ _ _ _ _ _ _ _ _ E3 Hin Htc (bk_fees _ Hok2)) as ([V3 [L3 T3]] & _ & Ea & Hb).
  set (s3 := with_fee_books f s2) in *.
  assert (Hok3 : books_ok s3).
  { destruct Hok2 as [W F K]. constructor; [by eapply aside_wallet_ok|by apply V3|by apply K3]. }
  apply bind_ok in H as (u4 & s4 & E4 & H). apply (calm_close max_failures) in E4 as C4. apply ret_ok in H as [-> ->].
  destruct (calm_money _ _ C4) as [[L4 T4 P4] R4].
  split; [by eapply calm_ok|]. split; [rewrite R4; transitivity (rls (wallet_of s2)); [apply A3|congruence]|].
  split; [rewrite L4; transitivity (credit_ledger (wallet_of s2)); [apply L3|congruence]|].
  split; [rewrite T4; transitivity (credit_lots (wallet_of s2)); [apply T3|congruence]|].
  rewrite P4. simpl. destruct b.
  - destruct Hb as (x & Ex & Sx & Src & _ & _). left. split; [done|]. exists (fee c), x.
    rewrite <- Q1, <- Q2. split; [done|]. split; [done|]. split; [by rewrite Ex, P2, P1|]. split; [done|].
    split; [|done]. destruct Sx as (_ & _ & Sx). by rewrite Sx, Ea.
  - destruct Hb as [Ep _]. right. split; [done|]. by rewrite Ep, P2, P1.
Qed.

(** What a delivery did, by its answer. *)
Definition booked (p : CapturedPayment) (r : option route) (res : EventResult) (s s' : till) : Prop :=
  let t := cp_tenant p in
  match er_status res with
  | Credited =>
      purpose_is PLATFORM_FEE r = false
      /\ (ledger_sum t (credit_ledger (wallet_of s'))
          == ledger_sum t (credit_ledger (wallet_of s)) + cp_amount_inr p + bonus_added p (wallet_of (opened t s)))%Q
      /\ fee_payments (fee_books s') = fee_payments (fee_books s)
      /\ settled_orders t (Envelope.order_id p) (topup_attempts s')
  | FeePaid =>
      purpose_is PLATFORM_FEE r = true
      /\ credit_ledger (wallet_of s') = credit_ledger (wallet_of s) /\ credit_lots (wallet_of s') = credit_lots (wallet_of s)
      /\ exists c x, In c (fee_charges (fee_books s)) /\ provider_order_id c = Envelope.order_id p
           /\ fee_payments (fee_books s') = fee_payments (fee_books s) ++ [x] /\ settles x c /\ (fp_amount x == cp_amount_inr p)%Q
  | st => st = Duplicate /\ money_kept s s'
  end.

Definition topup_known (p : CapturedPayment) (s : till) : Prop :=
  exists e, In e (credit_ledger (wallet_of s)) /\ has_ref (cp_tenant p) (cp_tenant p) "topup" [PWord (payment_id p)] e = true.
Definition fee_known (p : CapturedPayment) (s : till) : Prop :=
  exists x, In x (fee_payments (fee_books s)) /\ source_of x = ("razorpay", strip (payment_id p)).

Lemma entry_known p s : rls (wallet_of s) = cp_tenant p ->
  entry_at (cp_tenant p) "topup" [PWord (payment_id p)] (wallet_of s) <> None <-> topup_known p s.
Proof.
  intros Hr. unfold entry_at. rewrite Hr. destruct (newest _ _) as [e|] eqn:E; simpl.
  - split; [|done]. intros _. apply newest_In in E as [H1 H2]. by exists e.
  - split; [done|]. intros (e & He & Hp). rewrite newest_none in E. by rewrite E in Hp.
Qed.

Lemma known_grown p s s1 : grown s s1 -> topup_known p s -> topup_known p s1.
Proof. intros [[l L] _] (e & He & Hp). exists e. rewrite L. split; [apply in_or_app; by left|done]. Qed.
Lemma fee_known_grown p s s1 : grown s s1 -> fee_known p s -> fee_known p s1.
Proof. intros [_ [l L]] (e & He & Hp). exists e. rewrite L. split; [apply in_or_app; by left|done]. Qed.

(** One delivery. *)
Lemma captured_spec keyed event event_id ip p r s res s' :
  books_ok s -> payment_ok p -> captured keyed event event_id ip p r s = (Ok res, s') ->
  verify_order p r = Ok tt /\ books_ok s' /\ booked p r res s s'
  /\ (er_status res = Credited -> ~ topup_known p s /\ topup_known p s')
  /\ (er_status res = FeePaid -> ~ fee_known p s /\ fee_known p s').
Proof.
  intros Hok Hp H. unfold PaymentEvents.captured in H. destruct (verify_order p r) as [[]|e]; [|done]. split; [done|].
  pose proof (opened_ok (cp_tenant p) s Hok) as Hoko. unfold booked. unfold in_session in H. destruct (purpose_is PLATFORM_FEE r).
  - destruct (PaymentEvents.fee_tx _ _ _ _ _ _) as [[b s2]|] eqn:E; [|done]. injection H as -> ->.
    apply fee_tx_spec in E as (Hok' & _ & L & T & Hc); [|done|done]. split; [done|].
    destruct Hc as [[Es (c & x & Hin & Ho & Ep & Sx & Ea & Src)]|[Es Ep]]; rewrite Es.
    + split; [split; [done|]; split; [done|]; split; [done|]; by exists c, x|]. split; [done|]. intros _. split.
      * intros (y & Hy & Sy). pose proof (fk_sources _ (bk_fees _ Hok')) as Hnd. rewrite Ep, map_app in Hnd.
        apply NoDup_app in Hnd as (_ & Hd & _). apply (Hd (source_of y)).
        -- by apply list_elem_of_In, in_map.
        -- rewrite Sy, <- Src. by left.
      * exists x. rewrite Ep. split; [apply in_or_app; right; by left|done].
    + split; [split; [done|by constructor]|]. done.
  - destruct (PaymentEvents.captured_tx _ _ _ _ _ _ _ _ _ _ _ _ _ _ _) as [[b s2]|] eqn:E; [|done]. injection H as -> ->.
    apply captured_tx_spec in E as (Hok' & Hr & Hc); [|done..]. split; [done|].
    destruct Hc as [(Es & Hb & Ep & Hs & Hn & Hk)|[Es M]]; rewrite Es.
    + split; [by repeat split|]. split; [|done]. intros _. split.
      * intros Hkn. apply (entry_known p (opened (cp_tenant p) s)) in Hkn; done.
      * by apply entry_known.
    + split; [|done]. split; [done|]. by destruct M.
Qed.

(** C40. A captured payment is booked once, where our own record of its order says.  An
    order we recorded must name the payment's tenant and its exact amount; a top-up
    raises the tenant's balance by the amount and its pack's bonus and settles the
    order's attempts, a platform fee is settled without touching a wallet; every wallet,
    fee and recharge stays sound.  From then on, under whatever event, event id or
    reconciliation it is delivered again and whatever was booked meanwhile, it moves
    nothing. *)
Theorem captured_once keyed event event_id ip p r s res s' :
  books_ok s -> payment_ok p -> captured keyed event event_id ip p r s = (Ok res, s') ->
  match r with
  | Some x => ro_tenant x = cp_tenant p
              /\ forall n, amount_paise x = Some n -> inr_to_paise (Dec (cp_amount_inr p)) = Ok n
  | None => True
  end
  /\ books_ok s' /\ booked p r res s s'
  /\ forall keyed' event' event_id' ip' p' r' s1 res' s2,
       er_status res <> Duplicate -> payment_id p' = payment_id p -> cp_tenant p' = cp_tenant p -> payment_ok p' ->
       purpose_is PLATFORM_FEE r' = purpose_is PLATFORM_FEE r -> books_ok s1 -> grown s' s1 ->
       captured keyed' event' event_id' ip' p' r' s1 = (Ok res', s2) ->
       er_status res' = Duplicate /\ money_kept s1 s2.
Proof.
  intros Hok Hp H. destruct (captured_spec _ _ _ _ _ _ _ _ _ Hok Hp H) as (Hv & Hok' & Hb & Hk & Hf).
  split.
  { destruct r as [x|]; [|done]. unfold verify_order in Hv. destruct (Z.eqb_spec (ro_tenant x) (cp_tenant p)) as [Et|]; [|done].
    cbn [negb] in Hv. split; [done|]. intros n En. rewrite En in Hv. destruct (inr_to_paise (Dec (cp_amount_inr p))) as [k|]; [|done].
    destruct (Z.eqb_spec n k) as [E|]; [by rewrite E|done]. }
  split; [done|]. split; [done|]. intros keyed' event' event_id' ip' p' r' s1 res' s2 Hd Ei Et Hp' Hpu Hok1 Hg H1.
  destruct (captured_spec _ _ _ _ _ _ _ _ _ Hok1 Hp' H1) as (_ & _ & Hb1 & Hk1 & Hf1).
  assert (Ek : forall x, topup_known p' x <-> topup_known p x) by (intros x; unfold topup_known; by rewrite Ei, Et).
  assert (Ef : forall x, fee_known p' x <-> fee_known p x) by (intros x; unfold fee_known; by rewrite Ei).
  unfold booked in Hb, Hb1. rewrite Hpu in Hb1. destruct (er_status res) eqn:Es, (er_status res') eqn:Es1; try by destruct Hb; try by destruct Hb1.
  - exfalso. destruct (Hk1 eq_refl) as [Hn _]. apply Hn, Ek. eapply known_grown; [exact Hg|by apply Hk].
  - destruct Hb as [Hb _], Hb1 as [Hb1 _]. congruence.
  - destruct Hb as [Hb _], Hb1 as [Hb1 _]. congruence.
  - exfalso. destruct (Hf1 eq_refl) as [Hn _]. apply Hn, Ef. eapply fee_known_grown; [exact Hg|by apply Hf].
Qed.
End Laws.

(** ** An example: a recorded top-up order, captured, delivered again under another event *)
Module Example.
Definition order : route := Route 1 7 "order_1" "order" (Some TOPUP) (Some 50000).
Definition till0 : till :=
  Till (Fees (Recharge account FirstPayment.FirstPayment.Example.desk0 [] [] [order]) [] []
          [Standing 7 "self_serve" (Some "owner@example.com") None None None])
    [] [Attempt 2 7 "rcpt_1" (Some "order_1") None 500 None "created" 0].
Definition payment : CapturedPayment := Captured "pay_1" 7 500 "INR" None (Some "order_1") false None.
Definition body_hash (_ : list (string * jval)) : string := "hash".
Abbreviation deliver event event_id s :=
  (captured "thinnest" FirstPayment.FirstPayment.Example.no_developer Audit.Example.keyed Audit.Example.dumps "key" body_hash
    Wallet.Example.accepted_terms 3 true event event_id None payment (route_for (Some "order_1") s) s).
Definition answer (r : result EventResult * till) : option EventStatus :=
  match fst r with Ok e => Some (er_status e) | Err _ => None end.
Definition till1 : till := snd (deliver "payment.captured" (Some "evt_1") till0).
Definition till2 : till := snd (deliver "order.paid" (Some "evt_2") till1).

Example captured_then_again :
  answer (deliver "payment.captured" (Some "evt_1") till0) = Some Credited
  /\ answer (deliver "order.paid" (Some "evt_2") till1) = Some Duplicate
  /\ map ta_status (topup_attempts till1) = ["captured"] /\ map Inbox.event_key (inbox till2) = ["evt_1"; "evt_2"].
Proof. vm_compute. done. Qed.

(** Claimed for another tenant, or for another amount, the order refuses the payment. *)
Example mismatch_refused :
  verify_order (Captured "pay_1" 8 500 "INR" None (Some "order_1") false None) (Some order)
    = Err (Problem Conflict "payment_order_mismatch")
  /\ verify_order (Captured "pay_1" 7 499 "INR" None (Some "order_1") false None) (Some order)
    = Err (Problem Conflict "payment_order_mismatch").
Proof. vm_compute. done. Qed.

Lemma answered r st s' : answer r = Some st -> s' = snd r -> exists e, r = (Ok e, s') /\ er_status e = st.
Proof. destruct r as [[e|] s]; [|done]. intros [= <-] ->. by exists e. Qed.
Lemma first_run : exists e, deliver "payment.captured" (Some "evt_1") till0 = (Ok e, till1) /\ er_status e = Credited.
Proof. apply answered; [exact (proj1 captured_then_again)|reflexivity]. Qed.
Lemma second_run : exists e, deliver "order.paid" (Some "evt_2") till1 = (Ok e, till2) /\ er_status e = Duplicate.
Proof. apply answered; [exact (proj1 (proj2 captured_then_again))|reflexivity]. Qed.

Lemma payment_sound : payment_ok payment.
Proof. constructor; [by exists 5000000|split; reflexivity]. Qed.
Lemma till0_ok : books_ok 3 till0.
Proof.
  constructor; [apply blank_wallet_ok|constructor; simpl; try apply NoDup_nil_2; try done; by intros p []|].
  constructor; simpl; [done|apply NoDup_nil_2|constructor; simpl; try apply NoDup_nil_2; done].
Qed.
End Example.
Import Example.

Lemma captured_once_witness :
  books_ok 3 till1 /\ (ledger_sum 7 (credit_ledger (wallet_of till1)) == 500)%Q /\ money_kept till1 till2.
Proof.
  destruct first_run as (e1 & E1 & S1), second_run as (e2 & E2 & S2).
  destruct (captured_once _ _ _ _ _ _ _ _ _ _ _ _ _ _ _ _ _ till0_ok payment_sound E1) as (_ & Hok & Hb & Hagain).
  split; [exact Hok|]. split.
  - unfold booked in Hb. rewrite S1 in Hb. destruct Hb as (_ & Hb & _). rewrite Hb. vm_compute. reflexivity.
  - apply (fun H => Hagain true "order.paid" (Some "evt_2") None payment (route_for (Some "order_1") till1) till1 e2 till2 H
             eq_refl eq_refl payment_sound); [rewrite S1; discriminate|vm_compute; reflexivity|exact Hok| |exact E2].
    split; exists []; by rewrite app_nil_r.
Defined.
End PaymentEvents.
