(* ===== verification/Phone.v ===== *)
(** * Phone numbers

    [normalize_phone] of apps/api/ingest/service.py, through which every number enters the
    tables, with the numbering series of apps/api/agents/models.py and the reading of a
    declared calling number of apps/api/compliance/autodialer.py. *)

From Stdlib Require Import ZArith Lia List Ascii.
From stdpp Require Import base list strings.
From S2P Require Import Prelude.

Local Open Scope string_scope.
Local Open Scope list_scope.
Local Open Scope Z_scope.

Module Phone.

(** A text is its code points. *)
Definition text : Type := list Z.
Definition code (c : ascii) : Z := Z.of_N (N_of_ascii c).
Definition points (s : string) : text := map code (String.list_ascii_of_string s).
Definition PLUS : Z := 43.

Definition digit_char (d : Z) : ascii := ascii_of_N (Z.to_N (48 + d)).
Fixpoint digit_text (ds : list Z) : string :=
  match ds with [] => "" | d :: r => String (digit_char d) (digit_text r) end.
Definition is_digit (c : ascii) : bool := (48 <=? code c) && (code c <=? 57).
Fixpoint all_chars (p : ascii -> bool) (s : string) : bool :=
  match s with EmptyString => true | String c r => p c && all_chars p r end.

(** The regular expression [_E164]. *)
Definition is_e164 (s : string) : bool :=
  match s with
  | String p (String c r) =>
      (code p =? PLUS) && (49 <=? code c) && (code c <=? 57) && all_chars is_digit r
      && (7 <=? String.length r)%nat && (String.length r <=? 14)%nat
  | _ => false
  end.

Definition INDIA_PREFIX : string := "+91".

(** [series_for_e164]. *)
Definition series_for_e164 (e164 : string) : option string :=
  if negb (String.prefix INDIA_PREFIX e164) then None
  else
    let national := String.substring 3 3 e164 in
    Some (if bool_decide (national ∈ ["140"; "160"]) then national else "standard").

Section Unicode.
(** [str.isspace] and [unicodedata.decimal], of a code point. *)
Context (is_space : Z -> bool) (decimal : Z -> option Z).

Fixpoint lstrip (t : text) : text := match t with [] => [] | c :: r => if is_space c then lstrip r else t end.
Definition strip (t : text) : text := rev (lstrip (rev (lstrip t))).
Definition is_plus (c : Z) : bool := c =? PLUS.
Definition starts_plus (t : text) : bool := match t with c :: _ => is_plus c | [] => false end.

(** [ascii_digits]. *)
Fixpoint digits (t : text) : list Z :=
  match t with [] => [] | c :: r => match decimal c with Some d => d :: digits r | None => digits r end end.
Definition is_mobile (ds : list Z) : bool := match ds with d :: _ => (6 <=? d) && (d <=? 9) | [] => false end.

Definition candidate (t : text) : option string :=
  let ds := digits t in
  if starts_plus t then
    if (10 <=? length ds)%nat && (length ds <=? 15)%nat then Some ("+" +:+ digit_text ds) else None
  else if (length ds =? 10)%nat && is_mobile ds then Some (INDIA_PREFIX +:+ digit_text ds)
  else if (length ds =? 11)%nat && bool_decide (head ds = Some 0) && is_mobile (tail ds) then Some (INDIA_PREFIX +:+ digit_text (tail ds))
  else if (length ds =? 12)%nat && bool_decide (take 2 ds = [9; 1]) then Some ("+" +:+ digit_text ds)
  else None.

Definition normalize_phone (raw : text) : option string :=
  let t := strip raw in
  if (1 <? length (List.filter is_plus t))%nat || (existsb is_plus t && negb (starts_plus t)) then None
  else match candidate t with Some c => if is_e164 c then Some c else None | None => None end.

(** [declared_cli]: also a bare header of the 140 or 160 series. *)
Definition declared_cli (raw : text) : option string :=
  let ds := digits raw in
  let header := INDIA_PREFIX +:+ digit_text ds in
  if (length ds =? 10)%nat && negb (starts_plus (strip raw)) && bool_decide (series_for_e164 header ∈ [Some "140"; Some "160"])
  then Some header
  else normalize_phone raw.
End Unicode.

(** What the code relies on of Unicode's tables. *)
Record unicode_ok (is_space : Z -> bool) (decimal : Z -> option Z) : Prop := UnicodeOk {
  un_range : forall c d, decimal c = Some d -> 0 <= d <= 9;
  un_ascii : forall d, 0 <= d <= 9 -> decimal (48 + d) = Some d /\ is_space (48 + d) = false;
  un_plus : decimal PLUS = None /\ is_space PLUS = false;
  un_space : forall c, is_space c = true -> decimal c = None
}.

(** ** Digits *)

Definition digit_range (ds : list Z) : Prop := Forall (fun d => 0 <= d <= 9) ds.

Lemma code_digit d : 0 <= d <= 9 -> code (digit_char d) = 48 + d.
Proof.
  intros H. unfold code, digit_char. rewrite N_ascii_embedding by lia. lia.
Qed.
Lemma digit_text_length ds : String.length (digit_text ds) = length ds.
Proof. induction ds as [|d r IH]; [done|]. simpl. by rewrite IH. Qed.
Lemma digit_text_digits ds : digit_range ds -> all_chars is_digit (digit_text ds) = true.
Proof.
  induction 1 as [|d r Hd _ IH]; [done|]. simpl. rewrite IH. unfold is_digit. rewrite code_digit by done. lia.
Qed.
Lemma points_digit_text ds : digit_range ds -> points (digit_text ds) = map (Z.add 48) ds.
Proof.
  induction 1 as [|d r Hd _ IH]; [done|]. unfold points in *. simpl. by rewrite IH, code_digit.
Qed.
Lemma is_e164_digits d r : 0 <= d <= 9 -> digit_range r ->
  is_e164 ("+" +:+ digit_text (d :: r)) = (1 <=? d) && (7 <=? length r)%nat && (length r <=? 14)%nat.
Proof.
  intros Hd Hr. change ("+" +:+ digit_text (d :: r)) with (String "+" (String (digit_char d) (digit_text r))).
  unfold is_e164. rewrite code_digit, digit_text_digits, digit_text_length by done. change (code "+") with 43. unfold PLUS.
  replace (49 <=? 48 + d) with (1 <=? d) by lia. replace (48 + d <=? 57) with true by lia. by rewrite !andb_true_r.
Qed.

Section Laws.
Context (is_space : Z -> bool) (decimal : Z -> option Z) (U : unicode_ok is_space decimal).
Abbreviation normalize := (normalize_phone is_space decimal).
Abbreviation digits := (digits decimal).

Lemma digits_range t : digit_range (digits t).
Proof.
  induction t as [|c t IH]; [constructor|]. simpl. destruct (decimal c) as [d|] eqn:E; [|done].
  constructor; [by apply (un_range _ _ U c)|done].
Qed.
Lemma digits_ascii ds : digit_range ds -> digits (map (Z.add 48) ds) = ds.
Proof.
  induction 1 as [|d r Hd _ IH]; [done|]. simpl. destruct (un_ascii _ _ U d Hd) as [-> _]. by rewrite IH.
Qed.

Lemma lstrip_first c t : is_space c = false -> lstrip is_space (c :: t) = c :: t.
Proof. intros H. simpl. by rewrite H. Qed.
Lemma lstrip_visible t : Forall (fun c => is_space c = false) t -> lstrip is_space t = t.
Proof. destruct 1; [done|by apply lstrip_first]. Qed.
Lemma strip_visible t : Forall (fun c => is_space c = false) t -> strip is_space t = t.
Proof.
  intros H. unfold strip. rewrite (lstrip_visible t H), lstrip_visible, rev_involutive; [done|]. by apply Forall_rev.
Qed.

Lemma no_plus_digits ds : digit_range ds -> List.filter is_plus (map (Z.add 48) ds) = [].
Proof.
  induction 1 as [|d r Hd _ IH]; [done|]. simpl. unfold is_plus at 1, PLUS. destruct (48 + d =? 43) eqn:E; [lia|done].
Qed.
Lemma visible_digits ds : digit_range ds -> Forall (fun c => is_space c = false) (map (Z.add 48) ds).
Proof. induction 1 as [|d r Hd _ IH]; constructor; [by apply (un_ascii _ _ U)|done]. Qed.

(** A number with its [+] is read back as it is written. *)
Lemma normalize_written ds : digit_range ds -> (10 <= length ds <= 15)%nat ->
  is_e164 ("+" +:+ digit_text ds) = true -> normalize (points ("+" +:+ digit_text ds)) = Some ("+" +:+ digit_text ds).
Proof.
  intros Hr Hl He. assert (E : points ("+" +:+ digit_text ds) = PLUS :: map (Z.add 48) ds).
  { change (points ("+" +:+ digit_text ds)) with (PLUS :: points (digit_text ds)). by rewrite points_digit_text. }
  unfold normalize_phone. rewrite E, strip_visible.
  2:{ constructor; [apply (un_plus _ _ U)|by apply visible_digits]. }
  unfold candidate. assert (D : digits (PLUS :: map (Z.add 48) ds) = ds).
  { simpl. destruct (un_plus _ _ U) as [-> _]. by apply digits_ascii. }
  assert (B : (10 <=? length ds)%nat && (length ds <=? 15)%nat = true) by (apply andb_true_iff; split; apply Nat.leb_le; lia).
  rewrite D, B. cbn [starts_plus List.filter existsb is_plus PLUS Z.eqb Pos.eqb]. rewrite no_plus_digits by done. cbn -[is_e164 digit_text String.append]. by rewrite He.
Qed.

Lemma candidate_written t p : candidate decimal t = Some p ->
  exists ds, p = "+" +:+ digit_text ds /\ digit_range ds /\ (10 <= length ds <= 15)%nat.
Proof.
  unfold candidate. pose proof (digits_range t) as Hr.
  assert (G : forall r q, digit_range r -> length r = 10%nat -> Some (INDIA_PREFIX +:+ digit_text r) = Some q ->
     exists ds, q = "+" +:+ digit_text ds /\ digit_range ds /\ (10 <= length ds <= 15)%nat).
  { intros r q Hq Hl [= <-]. exists (9 :: 1 :: r). split; [done|]. simpl. split; [by repeat constructor|lia]. }
  destruct (starts_plus t).
  { destruct (_ && _) eqn:E; [|done]. intros [= <-]. exists (digits t). split; [done|]. split; [done|].
    apply andb_true_iff in E as [E1 E2]. apply Nat.leb_le in E1, E2. lia. }
  destruct ((length _ =? 10)%nat && _) eqn:E.
  { apply andb_true_iff in E as [E _]. apply Nat.eqb_eq in E. by apply G. }
  destruct ((length _ =? 11)%nat && _ && _) eqn:E1.
  { apply andb_true_iff in E1 as [E1 _]. apply andb_true_iff in E1 as [E1 _]. apply Nat.eqb_eq in E1.
    destruct Hr as [|d r _ Hr]; [done|]. apply G; [done|]. simpl in *. lia. }
  destruct ((length _ =? 12)%nat && _) eqn:E2; [|done]. apply andb_true_iff in E2 as [E2 _]. apply Nat.eqb_eq in E2.
  intros [= <-]. exists (digits t). split; [done|]. split; [done|]. lia.
Qed.

(** ** The spellings of a mobile *)

Lemma digits_app t1 t2 : digits (t1 ++ t2) = digits t1 ++ digits t2.
Proof. induction t1 as [|c t IH]; [done|]. simpl. rewrite IH. by destruct (decimal c). Qed.
Lemma digits_rev t : digits (rev t) = rev (digits t).
Proof. induction t as [|c t IH]; [done|]. simpl. rewrite digits_app, IH. simpl. destruct (decimal c); simpl; [done|by rewrite app_nil_r]. Qed.
Lemma digits_lstrip t : digits (lstrip is_space t) = digits t.
Proof.
  induction t as [|c t IH]; [done|]. simpl. destruct (is_space c) eqn:E; [|done]. by rewrite (un_space _ _ U c E).
Qed.
Lemma digits_strip t : digits (strip is_space t) = digits t.
Proof. unfold strip. by rewrite digits_rev, digits_lstrip, digits_rev, rev_involutive, digits_lstrip. Qed.

Lemma plus_lstrip t : List.filter is_plus (lstrip is_space t) = List.filter is_plus t.
Proof.
  induction t as [|c t IH]; [done|]. simpl. destruct (is_space c) eqn:E; [|done]. rewrite IH. unfold is_plus at 2.
  destruct (Z.eqb_spec c PLUS) as [->|]; [|done]. destruct (un_plus _ _ U) as [_ P]. congruence.
Qed.
Lemma plus_rev t : List.filter is_plus (rev t) = rev (List.filter is_plus t).
Proof.
  induction t as [|c t IH]; [done|]. simpl. rewrite List.filter_app, IH. simpl. destruct (is_plus c); simpl; [done|by rewrite app_nil_r].
Qed.
Lemma plus_strip t : List.filter is_plus (strip is_space t) = List.filter is_plus t.
Proof. unfold strip. by rewrite plus_rev, plus_lstrip, plus_rev, rev_involutive, plus_lstrip. Qed.
Lemma existsb_filter (t : text) : existsb is_plus t = negb (Nat.eqb (length (List.filter is_plus t)) 0).
Proof. induction t as [|c t IH]; [done|]. simpl. by destruct (is_plus c). Qed.

(** The ways a ten-digit mobile is written: alone, behind the trunk 0, behind 91, or
    behind +91, with any separators. *)
Definition spelling (ds : list Z) (t : text) : Prop :=
  (List.filter is_plus t = [] /\ (digits t = ds \/ digits t = 0 :: ds \/ digits t = 9 :: 1 :: ds))
  \/ (starts_plus (strip is_space t) = true /\ length (List.filter is_plus t) = 1%nat /\ digits t = 9 :: 1 :: ds).

Lemma spelling_normalized ds t : length ds = 10%nat -> is_mobile ds = true -> spelling ds t ->
  normalize t = Some (INDIA_PREFIX +:+ digit_text ds).
Proof.
  intros Hl Hm Hs. set (p := INDIA_PREFIX +:+ digit_text ds).
  assert (Hr : digit_range ds).
  { pose proof (digits_range t) as H. destruct Hs as [[_ [E|[E|E]]]|(_ & _ & E)]; rewrite E in H; unfold digit_range in *;
      repeat match goal with H : Forall _ (_ :: _) |- _ => apply Forall_inv_tail in H end; exact H. }
  assert (He : is_e164 p = true).
  { unfold p. change (INDIA_PREFIX +:+ digit_text ds) with ("+" +:+ digit_text (9 :: 1 :: ds)).
    rewrite is_e164_digits; [|lia|by repeat constructor]. simpl. by rewrite Hl. }
  unfold normalize_phone. rewrite existsb_filter, plus_strip.
  assert (Hc : candidate decimal (strip is_space t) = Some p).
  { unfold candidate. rewrite digits_strip. destruct Hs as [[Hp Hd]|(Hp & _ & ->)].
    - assert (starts_plus (strip is_space t) = false) as ->.
      { rewrite <- plus_strip in Hp. destruct (strip is_space t) as [|c r]; [done|]. simpl in *. by destruct (is_plus c). }
      destruct Hd as [->|[->| ->]]; simpl; by rewrite ?Hl, ?Hm.
    - rewrite Hp. simpl. by rewrite Hl. }
  rewrite Hc, He. destruct Hs as [[-> _]|(-> & -> & _)]; done.
Qed.

(** C13. What [normalize_phone] returns is a number with its country code, [+] and ten to
    fifteen digits, and is its own normal form; and a mobile has one form however it is
    written.  So a number on the do-not-call list, in a consent and about to be dialled
    compare equal. *)
Theorem normalize_phone_canonical raw p : normalize raw = Some p ->
  is_e164 p = true /\ (exists ds, p = "+" +:+ digit_text ds /\ digit_range ds /\ (10 <= length ds <= 15)%nat)
  /\ normalize (points p) = Some p
  /\ forall ds t, p = INDIA_PREFIX +:+ digit_text ds -> length ds = 10%nat -> is_mobile ds = true -> spelling ds t ->
       normalize t = Some p.
Proof.
  intros H. unfold normalize_phone in H. destruct (_ || _); [done|]. destruct (candidate decimal _) as [c|] eqn:E; [|done].
  destruct (is_e164 c) eqn:He; [|done]. injection H as ->. apply candidate_written in E as (ds & -> & Hr & Hl).
  split; [done|]. split; [by exists ds|]. split; [by apply normalize_written|].
  intros ds' t -> Hl' Hm Hs. by apply spelling_normalized.
Qed.
End Laws.

(** ** An example: ASCII, with Devanagari digits *)
Module Example.
Definition is_space (c : Z) : bool := (c =? 32) || ((9 <=? c) && (c <=? 13)).
Definition decimal (c : Z) : option Z :=
  if (48 <=? c) && (c <=? 57) then Some (c - 48) else if (2406 <=? c) && (c <=? 2415) then Some (c - 2406) else None.
Abbreviation normalize := (normalize_phone is_space decimal).

Lemma unicode : unicode_ok is_space decimal.
Proof.
  constructor.
  - intros c d. unfold decimal. repeat case_match; intros [= <-]; lia.
  - intros d Hd. unfold decimal, is_space. repeat case_match; try lia. split; [f_equal; lia|lia].
  - done.
  - intros c. unfold decimal, is_space. intros H. repeat case_match; lia || done.
Qed.

Example four_spellings :
  map (fun s => normalize (points s)) ["+91 98480-22338"; "09848022338"; "91 98480 22338"; " 9848022338 "]
  = repeat (Some "+919848022338") 4
  /\ normalize [2415; 2414; 2410; 2414; 2406; 2408; 2408; 2409; 2409; 2414] = Some "+919848022338"
  /\ map (fun s => normalize (points s)) ["++919848022338"; "98480"; "12345 67890"; "98480+22338"] = repeat None 4.
Proof. vm_compute. done. Qed.
Example headers_declared :
  declared_cli is_space decimal (points "140 1234567") = Some "+911401234567"
  /\ declared_cli is_space decimal (points "120 1234567") = None.
Proof. vm_compute. done. Qed.
End Example.
Import Example.

Lemma normalize_phone_canonical_witness :
  normalize (points "09848022338") = Some "+919848022338" /\ normalize (points "+919848022338") = Some "+919848022338".
Proof.
  assert (E : normalize (points "09848022338") = Some "+919848022338") by (vm_compute; reflexivity).
  split; [exact E|]. exact (proj1 (proj2 (proj2 (normalize_phone_canonical is_space decimal unicode _ _ E)))).
Defined.
End Phone.
