(* ===== verification/Dnc.v ===== *)
(** * Do-not-call

    apps/api/compliance/dnc.py, the recording of an opt-out of compliance/optout.py,
    [add_to_dnc] of compliance/service.py, and what a suppression sets off: the recall of
    compliance/dnc_recall.py, the voice platform's own list of compliance/engine_dnc.py and
    the call-backs and Follow-ups called off (callbacks/service.py, follow_ups/runner.py).
    The recognition of an opt-out in a transcript, and the redaction of its words, are not
    modelled. *)

From Stdlib Require Import ZArith Lia List QArith.
From stdpp Require Import base list strings relations.
From S2P Require Import Prelude PyDecimal Sql PyTime AuditLog WalletDb RateCard Ledger Envelope Payments AutoRecharge Account Workspaces Trials FirstPayment PlatformFee Phone.

Local Open Scope string_scope.
Local Open Scope list_scope.
Local Open Scope Z_scope.
Local Open Scope tx_scope.

Import AutoRecharge Payments Account PlatformFee.

Module Dnc.

Definition CALL_OPTOUT_SOURCE : string := "call_optout".
Definition OPTOUT_PURPOSE : string := "marketing".
Definition OPTOUT_CONSENT_SOURCE : string := "inbound_call_verbal".
Definition DETECTION_SOURCES : list string := ["in_call_tool"; "post_call_transcript"; "engine_platform"].
Definition SOURCES : list string := ["customer_request"; "call_optout"; "manual"; "regulator"].
Definition GLOBAL_SOURCES : list string := ["regulator"; "platform_block"].
(** [DNC_REMOVABLE_SOURCES]. *)
Definition REMOVABLE_SOURCES : list string := ["manual"].
Definition RESTORABLE_SOURCES : list string := [CALL_OPTOUT_SOURCE; "customer_request"].
Definition RESTORE_NEVER_ASKED : string := "never_asked".
Definition RESTORE_ASKED_TO_BE_CALLED : string := "asked_to_be_called".
Definition RESTORE_GROUNDS : list string := [RESTORE_NEVER_ASKED; RESTORE_ASKED_TO_BE_CALLED].
Definition RESTORE_NOTE_MIN : nat := 5.
Definition RESTORE_NOTE_MAX : nat := 200.
Definition MAX_LIST : nat := 500.
Definition MAX_OPTOUT_EVIDENCE : nat := 5.
Definition DNC_RECALL_JOB : string := "recall_dials_for_dnc".
Definition ENGINE_DNC_PUSH_JOB : string := "push_engine_dnc".
Definition ENGINE_DNC_REMOVE_JOB : string := "remove_engine_dnc".
Definition DNC_PUSH_ENGINES : list string := ["thinnest"].
Definition CALLBACK_SUPPRESSED_REASON : string :=
  "This number was added to your do-not-call list, so we did not ring them back.".
Definition STOPPED_SENTENCE : string := "This follow-up stopped, so the call was not needed.".

(** ** The tables *)

(** [dnc_list]: a row without a tenant suppresses for every tenant. *)
Record entry := Entry {
  dn_id : uuid; dn_tenant : option uuid; dn_phone : string; scope : string; source : option string; added_at : instant }.

(** [consent_ledger]: append-only. *)
Record consent := Consent {
  cn_id : uuid; cn_tenant : uuid; cn_call : option uuid; cn_phone : string; cn_purpose : string; cn_status : string;
  cn_source : option string; captured_at : instant; expires_at : option instant; evidence : option (list (string * jval)) }.

(** [scheduled_callbacks]. *)
(** What was promised to whom, and what became of it. *)
Record promise := Promise {
  pr_id : uuid; pr_tenant : uuid; pr_agent : uuid; source_call_id : option uuid; source_execution_id : string;
  pr_lead : option uuid; pr_phone : string; pr_requested_at : instant; booked_at : instant; note : option Phone.text;
  pr_language : option Phone.text }.
Record progress := Progress {
  pg_status : string; attempts : Z; next_attempt_at : option instant; grace_from : option instant;
  last_refusal_rule : option string; last_refusal_reason : option string; last_call_id : option uuid;
  settled_at : option instant; pg_updated_at : instant }.
Record callback := Callback { promised : promise; progress_of : progress }.

(** [follow_up_runs] and [follow_up_run_events]. *)
Record run := Run {
  fr_id : uuid; fr_tenant : uuid; fr_phone : string; fr_status : string; step_id : string; fr_attempt : Z;
  wake_at : option instant; waiting_call_id : option uuid; end_reason : option string; ended_at : option instant }.
Record run_event := RunEvent {
  re_id : uuid; re_tenant : uuid; re_run : uuid; re_step : string; re_attempt : Z; re_kind : string; re_result : string }.

Record roll := Roll {
  fee_books : fees; dnc_list : list entry; consent_ledger : list consent; scheduled_callbacks : list callback;
  follow_up_runs : list run; follow_up_run_events : list run_event }.
Definition with_fee_books f (s : roll) : roll :=
  Roll f (dnc_list s) (consent_ledger s) (scheduled_callbacks s) (follow_up_runs s) (follow_up_run_events s).
Definition with_dnc t (s : roll) : roll :=
  Roll (fee_books s) t (consent_ledger s) (scheduled_callbacks s) (follow_up_runs s) (follow_up_run_events s).
Definition with_consents t (s : roll) : roll :=
  Roll (fee_books s) (dnc_list s) t (scheduled_callbacks s) (follow_up_runs s) (follow_up_run_events s).
Definition with_callbacks t (s : roll) : roll :=
  Roll (fee_books s) (dnc_list s) (consent_ledger s) t (follow_up_runs s) (follow_up_run_events s).
Definition with_follow_ups r e (s : roll) : roll :=
  Roll (fee_books s) (dnc_list s) (consent_ledger s) (scheduled_callbacks s) r e.

Definition desk_of (s : roll) : platform := AutoRecharge.AutoRecharge.desk (books (fee_books s)).
Definition wallet_of (s : roll) : db := wallet (desk_of s).
Definition in_fees {B} (m : tx fees B) : tx roll B :=
  fun s => match m (fee_books s) with Ok (b, f) => Ok (b, with_fee_books f s) | Err e => Err e end.
Definition in_wallet {B} (m : tx db B) : tx roll B := in_fees (on_db m).
Definition in_desk {B} (m : tx platform B) : tx roll B := in_fees (on_platform m).
Definition session_tenant : tx roll uuid := gets (fun s => rls (wallet_of s)).
Definition txn_now : tx roll instant := gets (fun s => now (wallet_of s)).

(** The rows a tenant's session reads, and the ones it may change. *)
Definition visible (r : uuid) (e : entry) : bool := match dn_tenant e with None => true | Some t => t =? r end.
Definition own (r : uuid) (e : entry) : bool := bool_decide (dn_tenant e = Some r) && String.eqb (scope e) "tenant".
(** [phone_e164 = :phone AND (tenant_id = :tid OR tenant_id IS NULL)]. *)
Definition suppresses (tenant_id : uuid) (phone : string) (e : entry) : bool :=
  String.eqb (dn_phone e) phone && visible tenant_id e.
Definition source_in (l : list string) (e : entry) : bool :=
  match source e with Some x => bool_decide (x ∈ l) | None => false end.

Definition is_removable (e : entry) : bool := negb (String.eqb (scope e) "global") && source_in REMOVABLE_SOURCES e.
Definition is_restorable (e : entry) : bool := negb (String.eqb (scope e) "global") && source_in RESTORABLE_SOURCES e.

(** An array of texts. *)
Definition texts (l : list string) : jval := JArr (map (fun x => [("", JText x)]) l).
Definition sorted_set (l : list string) : list string := order_by String.leb (remove_dups l).

(** ** Follow-ups and call-backs called off *)

Definition live_run (x : run) : bool := bool_decide (fr_status x ∈ ["running"; "waiting"]).
Definition shown (n : nat) (x : string) : string := String.substring 0 n x.

(** [record]: one event per run, step, attempt and kind. *)
Definition record (x : run) (kind result : string) : tx roll bool :=
  i ← in_wallet WalletDb.uuid7 ;
  t ← gets follow_up_run_events ;
  if existsb (fun e => (re_run e =? fr_id x) && String.eqb (re_step e) (step_id x) && (re_attempt e =? fr_attempt x)
                       && String.eqb (re_kind e) kind) t
  then ret false
  else
    modify (fun s => with_follow_ups (follow_up_runs s)
      (t ++ [RunEvent i (fr_tenant x) (fr_id x) (step_id x) (fr_attempt x) kind (shown 64 result)]) s) ;;
    ret true.
Definition finished (n : instant) (st reason : string) (x : run) : run :=
  Run (fr_id x) (fr_tenant x) (fr_phone x) st (step_id x) (fr_attempt x) None None (Some (shown 64 reason)) (Some n).
Definition finish (x : run) (st reason : string) : tx roll unit :=
  n ← txn_now ;
  r ← session_tenant ;
  modify (fun s => with_follow_ups
    (update (fun y => (fr_tenant y =? r) && (fr_id y =? fr_id x) && live_run y) (finished n st reason) (follow_up_runs s))
    (follow_up_run_events s) s).

(** [split_part(source_execution_id, ':', 2)] of a ['follow-up:'] id. *)
Definition follow_up_of (x : string) : option string :=
  if String.prefix "follow-up:" x
  then let rest := String.substring 10 (String.length x) x in
       Some (match String.index 0 ":" rest with Some n => String.substring 0 n rest | None => rest end)
  else None.
Definition cancelled (n : instant) (reason : string) (keep_next : bool) (c : callback) : callback :=
  let g := progress_of c in
  Callback (promised c) (Progress "cancelled" (attempts g) (if keep_next then next_attempt_at g else None) (grace_from g)
    (last_refusal_rule g) (Some reason) (last_call_id g) (Some n) n).
Definition scheduled (r : uuid) (c : callback) : bool := (pr_tenant (promised c) =? r) && String.eqb (pg_status (progress_of c)) "scheduled".
Definition cancel_callbacks (runs : list uuid) (reason : string) : tx roll unit :=
  if bool_decide (runs = []) then ret tt
  else
    n ← txn_now ;
    r ← session_tenant ;
    modify (fun s => with_callbacks
      (update (fun c => scheduled r c && match follow_up_of (source_execution_id (promised c)) with
                                         | Some i => bool_decide (i ∈ map Envelope.Envelope.uuid_text runs)
                                         | None => false
                                         end) (cancelled n reason false) (scheduled_callbacks s)) s).

Fixpoint stop_each (l : list run) (reason : string) : tx roll unit :=
  match l with
  | [] => ret tt
  | x :: l => record x "stop" reason ;; finish x "stopped" reason ;; stop_each l reason
  end.
Definition stop_for_phones (phones : list string) (reason : string) : tx roll nat :=
  if bool_decide (phones = []) then ret 0%nat
  else
    r ← session_tenant ;
    l ← gets (fun s => select (fun x => (fr_tenant x =? r) && live_run x && bool_decide (fr_phone x ∈ phones)) (follow_up_runs s)) ;
    stop_each l reason ;;
    cancel_callbacks (map fr_id l) STOPPED_SENTENCE ;;
    ret (length l).

Definition cancel_for_phones (phones : list string) (reason : string) : tx roll nat :=
  if bool_decide (phones = []) then ret 0%nat
  else
    n ← txn_now ;
    r ← session_tenant ;
    t ← gets scheduled_callbacks ;
    let p c := scheduled r c && bool_decide (pr_phone (promised c) ∈ phones) in
    modify (with_callbacks (update p (cancelled n reason true) t)) ;;
    stop_for_phones phones "do_not_call" ;;
    ret (rowcount p t).

(** [set_config('app.tenant_id', ...)]: the session goes on as another tenant. *)
Definition set_tenant (r : uuid) : tx roll unit :=
  in_wallet (modify (fun w =>
    Db r (now w) (ticks w) (ids w) (credit_ledger w) (credit_lots w) (low_balance_lines w) (outbox_messages w))).
Fixpoint cancel_each (tenants : list uuid) (phones : list string) (reason : string) : tx roll nat :=
  match tenants with
  | [] => ret 0%nat
  | t :: l =>
      set_tenant t ;;
      n ← cancel_for_phones phones reason ;
      m ← cancel_each l phones reason ;
      ret (n + m)%nat
  end.
(** [finally]: the tenant the session came with is restored; a failed transaction is
    rolled back whole. *)
Definition cancel_for_phones_fleet_wide (tenants : list uuid) (phones : list string) (reason : string) : tx roll nat :=
  if bool_decide (phones = []) || bool_decide (tenants = []) then ret 0%nat
  else
    r ← session_tenant ;
    n ← cancel_each tenants phones reason ;
    set_tenant r ;;
    ret n.

Section Writers.
(** Unicode's tables; the voice platform and the id of our own workspace there; the audit
    log's key; SHA-256 and the sealing of a number; the transcript redactor. *)
Context (is_space : Z -> bool) (decimal : Z -> option Z).
Context (engine : string) (is_developer_workspace : string -> bool).
Context (hmac_hex : string -> string -> string) (dumps : Audit.payload -> string) (audit_key : string).
Context (sha256_hex : string -> string) (seal : string -> string -> string) (redact : Phone.text -> Phone.text).
Abbreviation normalize := (Phone.normalize_phone is_space decimal).

(** [subject_ref]. *)
Definition subject_ref (phone : string) : string := String.substring 0 32 (sha256_hex phone).

(** ** What a suppression sets off *)

Definition enqueue_dnc_recall (tenant_id : option uuid) (phones : list string) (cause : option string) : tx roll unit :=
  if bool_decide (phones = []) then ret tt
  else in_wallet (Ledger.Ledger.enqueue DNC_RECALL_JOB
         ([("tenant_id", match tenant_id with Some t => JId t | None => JNull end); ("phones", texts (sorted_set phones))]
          ++ match cause with Some c => [("cause", JText c)] | None => [] end)).

Definition own_workspace (tenant_id : uuid) : tx roll (option string) :=
  w ← in_desk (Workspaces.Workspaces.resolve_workspace is_developer_workspace tenant_id) ;
  ret (if Workspaces.Workspaces.is_own_workspace is_developer_workspace w then w else None).
Definition queue_engine_dnc_push (tenant_id : uuid) (phones : list string) : tx roll bool :=
  if bool_decide (phones = []) || negb (bool_decide (engine ∈ DNC_PUSH_ENGINES)) then ret false
  else
    w ← own_workspace tenant_id ;
    match w with
    | None => ret false
    | Some _ =>
        r ← session_tenant ;
        ids ← gets (fun s => map dn_id (order_by (fun x y => dn_id x <=? dn_id y)
          (select (fun e => visible r e && bool_decide (dn_tenant e = Some tenant_id) && bool_decide (dn_phone e ∈ phones)) (dnc_list s)))) ;
        if bool_decide (ids = []) then ret false
        else
          in_wallet (Ledger.Ledger.enqueue ENGINE_DNC_PUSH_JOB
            [("tenant_id", JId tenant_id); ("dnc_ids", JArr (map (fun i => [("", JId i)]) ids))]) ;;
          ret true
    end.
Definition removal_context (entry_id : uuid) : string := "engine_dnc_removal:" +:+ Envelope.Envelope.uuid_text entry_id.
Definition queue_engine_dnc_removal (tenant_id entry_id : uuid) (phone : string) : tx roll bool :=
  if negb (bool_decide (engine ∈ DNC_PUSH_ENGINES)) then ret false
  else
    w ← own_workspace tenant_id ;
    match w with
    | None => ret false
    | Some _ =>
        in_wallet (Ledger.Ledger.enqueue ENGINE_DNC_REMOVE_JOB
          [("tenant_id", JId tenant_id); ("entry_id", JId entry_id); ("subject", JText (seal phone (removal_context entry_id)))]) ;;
        ret true
    end.

(** ** Writing the list *)

(** [INSERT ... ON CONFLICT DO NOTHING]: whether the row went in. *)
Definition same_number (x y : entry) : bool :=
  bool_decide (dn_tenant y = dn_tenant x) && String.eqb (dn_phone y) (dn_phone x).
Definition insert_entry (x : entry) : tx roll bool :=
  t ← gets dnc_list ;
  if existsb (same_number x) t then ret false
  else if existsb (by_id dn_id (dn_id x)) t then raise (UniqueViolation "pk_dnc_list")
  else modify (with_dnc (t ++ [x])) ;; ret true.
Fixpoint insert_entries (tenant_id : option uuid) (sc : string) (src : string) (phones : list string) : tx roll nat :=
  match phones with
  | [] => ret 0%nat
  | p :: l =>
      i ← in_wallet WalletDb.uuid7 ;
      n ← txn_now ;
      went_in ← insert_entry (Entry i tenant_id p sc (Some src) n) ;
      k ← insert_entries tenant_id sc src l ;
      ret (if went_in : bool then S k else k)
  end.
Definition with_source (src : string) (e : entry) : entry :=
  Entry (dn_id e) (dn_tenant e) (dn_phone e) (scope e) (Some src) (added_at e).
(** A suppression's source only gets stronger. *)
Definition upgradable (src : string) (e : entry) : bool :=
  source_in REMOVABLE_SOURCES e && negb (bool_decide (src ∈ REMOVABLE_SOURCES)).

Definition add_to_dnc (tenant_id : uuid) (phone src : string) : tx roll unit :=
  i ← in_wallet WalletDb.uuid7 ;
  in_wallet (own_tenant tenant_id) ;;
  n ← txn_now ;
  let x := Entry i (Some tenant_id) phone "tenant" (Some src) n in
  clash ← gets (fun s => existsb (same_number x) (dnc_list s)) ;
  (if clash : bool
   then modify (fun s => with_dnc (update (fun e => same_number x e && upgradable src e) (with_source src) (dnc_list s)) s)
   else insert_entry x ;; ret tt) ;;
  enqueue_dnc_recall (Some tenant_id) [phone] None ;;
  queue_engine_dnc_push tenant_id [phone] ;;
  cancel_for_phones [phone] CALLBACK_SUPPRESSED_REASON ;;
  ret tt.

Record AddResult := Added { added : nat; already_suppressed : nat; malformed : nat }.
(** [dict.fromkeys]: each number once, in the order given. *)
Fixpoint unique (seen l : list string) : list string :=
  match l with
  | [] => []
  | x :: l => if bool_decide (x ∈ seen) then unique seen l else x :: unique (x :: seen) l
  end.
(** What is read of a pasted list: its numbers, and how many are no number. *)
Definition read_numbers (raw : list Phone.text) : list string * nat :=
  let ns := map normalize raw in
  (unique [] (omap id ns), length (List.filter (fun n => negb (is_given n)) ns)).
Definition fresh_of (existing l : list string) : list string := List.filter (fun p => negb (bool_decide (p ∈ existing))) l.

(** [add_numbers], past its read of what is on the list already. *)
Definition add_write (tenant_id : uuid) (src : string) (numbers fresh : list string) : tx roll nat :=
  k ← (if bool_decide (fresh = []) then ret 0%nat
       else
         in_wallet (own_tenant tenant_id) ;;
         k ← insert_entries (Some tenant_id) "tenant" src fresh ;
         enqueue_dnc_recall (Some tenant_id) fresh None ;;
         queue_engine_dnc_push tenant_id fresh ;;
         cancel_for_phones fresh CALLBACK_SUPPRESSED_REASON ;;
         ret k) ;
  (if bool_decide (src ∈ REMOVABLE_SOURCES) then ret tt
   else
     r ← session_tenant ;
     modify (fun s => with_dnc
       (update (fun e => visible r e && bool_decide (dn_tenant e = Some tenant_id) && bool_decide (dn_phone e ∈ numbers)
                         && source_in REMOVABLE_SOURCES e) (with_source src) (dnc_list s)) s)) ;;
  ret k.
Definition add_numbers (tenant_id : uuid) (raw : list Phone.text) (src : string) : tx roll AddResult :=
  if negb (bool_decide (src ∈ SOURCES)) then raise (Problem BusinessRule "dnc_unknown_source")
  else
    let (numbers, bad) := read_numbers raw in
    if bool_decide (numbers = []) then ret (Added 0 0 bad)
    else
      r ← session_tenant ;
      existing ← gets (fun s => map dn_phone (select (fun e => visible r e && bool_decide (dn_phone e ∈ numbers)
        && visible tenant_id e) (dnc_list s))) ;
      k ← add_write tenant_id src numbers (fresh_of existing numbers) ;
      ret (Added k (length numbers - k) bad).

(** [add_global_numbers]: a session of no tenant; the live tenants are read on another. *)
Definition add_global_numbers (raw : list Phone.text) (src : string) (tenants : list uuid) : tx roll AddResult :=
  if negb (bool_decide (src ∈ GLOBAL_SOURCES)) then raise (Problem BusinessRule "dnc_unknown_global_source")
  else
    let (numbers, bad) := read_numbers raw in
    if bool_decide (numbers = []) then ret (Added 0 0 bad)
    else
      existing ← gets (fun s => map dn_phone (select (fun e => bool_decide (dn_tenant e = None)
        && bool_decide (dn_phone e ∈ numbers)) (dnc_list s))) ;
      let fresh := fresh_of existing numbers in
      if bool_decide (fresh = []) then ret (Added 0 (length numbers) bad)
      else
        k ← insert_entries None "global" src fresh ;
        enqueue_dnc_recall None fresh None ;;
        cancel_for_phones_fleet_wide tenants fresh CALLBACK_SUPPRESSED_REASON ;;
        ret (Added k (length numbers - k) bad).

(** ** Reading the list *)

Definition newest_first (x y : entry) : bool :=
  (added_at y <? added_at x) || ((added_at y =? added_at x) && (dn_id y <=? dn_id x)).
Definition list_entries (k : nat) : tx roll (list (entry * bool * bool)) :=
  r ← session_tenant ;
  gets (fun s => map (fun e => (e, is_removable e, is_restorable e))
    (limit (Nat.min k MAX_LIST) (order_by newest_first (select (visible r) (dnc_list s))))).
Definition list_global_entries (k : nat) : tx roll (list (entry * bool * bool)) :=
  gets (fun s => map (fun e => (e, is_removable e, is_restorable e))
    (limit (Nat.min k MAX_LIST) (order_by newest_first (select (fun e => bool_decide (dn_tenant e = None)) (dnc_list s))))).

Record CheckResult := Checked { valid : bool; suppressed : bool; by_scope : option string }.
Definition check_number (tenant_id : uuid) (raw : Phone.text) : tx roll CheckResult :=
  match normalize raw with
  | None => ret (Checked false false None)
  | Some p =>
      r ← session_tenant ;
      e ← gets (fun s => head (order_by (fun x y => String.eqb (scope x) "global" || negb (String.eqb (scope y) "global"))
        (select (fun e => visible r e && suppresses tenant_id p e) (dnc_list s)))) ;
      ret (match e with None => Checked true false None | Some e => Checked true true (Some (scope e)) end)
  end.
Definition find_global_entry (raw : Phone.text) : tx roll (bool * option (entry * bool * bool)) :=
  match normalize raw with
  | None => ret (false, None)
  | Some p =>
      e ← gets (fun s => head (select (fun e => bool_decide (dn_tenant e = None) && String.eqb (dn_phone e) p) (dnc_list s))) ;
      ret (true, option_map (fun e => (e, is_removable e, is_restorable e)) e)
  end.

(** ** Lifting a suppression *)

Definition entry_seen (entry_id : uuid) : tx roll (option entry) :=
  r ← session_tenant ; gets (fun s => head (select (fun e => visible r e && by_id dn_id entry_id e) (dnc_list s))).

Record Removal := Removed { rm_source : option string; rm_subject : string }.

(** [remove_entry], past its read of the row. *)
Definition remove_delete (tenant_id entry_id : uuid) (e : entry) : tx roll Removal :=
  r ← session_tenant ;
  t ← gets dnc_list ;
  let p x := own r x && by_id dn_id entry_id x && source_in REMOVABLE_SOURCES x in
  if (rowcount p t =? 1)%nat then
    modify (with_dnc (delete_where p t)) ;;
    queue_engine_dnc_removal tenant_id entry_id (dn_phone e) ;;
    ret (Removed (source e) (subject_ref (dn_phone e)))
  else
    still ← entry_seen entry_id ;
    match still with
    | Some x => if source_in REMOVABLE_SOURCES x then raise (Problem NotFound "not_found")
                else raise (Problem BusinessRule "dnc_consumer_optout")
    | None => raise (Problem NotFound "not_found")
    end.
Definition remove_entry (tenant_id entry_id : uuid) : tx roll Removal :=
  row ← entry_seen entry_id ;
  match row with
  | None => raise (Problem NotFound "not_found")
  | Some e =>
      if String.eqb (scope e) "global" then raise (Problem BusinessRule "dnc_global_entry")
      else if negb (source_in REMOVABLE_SOURCES e) then raise (Problem BusinessRule "dnc_consumer_optout")
      else remove_delete tenant_id entry_id e
  end.

Definition newest_consent (x y : consent) : bool :=
  (captured_at y <? captured_at x) || ((captured_at y =? captured_at x) && (cn_id y <=? cn_id x)).
Definition evidence_rows (tenant_id : uuid) (phone : string) (k : nat) : tx roll (list consent) :=
  r ← session_tenant ;
  gets (fun s => limit k (order_by newest_consent
    (select (fun c => mine cn_tenant r tenant_id c && String.eqb (cn_phone c) phone && String.eqb (cn_purpose c) OPTOUT_PURPOSE
                      && String.eqb (cn_status c) "withdrawn") (consent_ledger s)))).
Definition optout_evidence (entry_id : uuid) : tx roll (bool * list consent) :=
  row ← entry_seen entry_id ;
  match row with
  | None => raise (Problem NotFound "not_found")
  | Some e =>
      match dn_tenant e with
      | None => ret (is_restorable e, [])
      | Some t => l ← evidence_rows t (dn_phone e) MAX_OPTOUT_EVIDENCE ; ret (is_restorable e, l)
      end
  end.

(** [" ".join(note.split())]. *)
Fixpoint words (cur : Phone.text) (t : Phone.text) : list Phone.text :=
  match t with
  | [] => match cur with [] => [] | _ => [cur] end
  | c :: t => if is_space c then match cur with [] => words [] t | _ => cur :: words [] t end else words (cur ++ [c]) t
  end.
Fixpoint joined (l : list Phone.text) : Phone.text :=
  match l with [] => [] | [w] => w | w :: l => w ++ 32 :: joined l end.
Definition restore_note (ground : string) (note : option Phone.text) : result (option Phone.text) :=
  let cleaned := joined (words [] (match note with Some n => n | None => [] end)) in
  if String.eqb ground RESTORE_ASKED_TO_BE_CALLED && (length cleaned <? RESTORE_NOTE_MIN)%nat
  then Err (Problem BusinessRule "dnc_restore_note_required")
  else if (RESTORE_NOTE_MAX <? length cleaned)%nat then Err (Problem BusinessRule "dnc_restore_note_too_long")
  else Ok (match cleaned with [] => None | _ => Some (redact cleaned) end).

Record Restoration := Restored { rs_source : option string; rs_subject : string; rs_note : option Phone.text }.
(** [restore_optout], past its read of the row: the row is locked from here on. *)
Definition restore_locked (tenant_id entry_id : uuid) (e : entry) (note : option Phone.text) (latest_evidence_id : option uuid) :
    tx roll Restoration :=
  r ← session_tenant ;
  t ← gets dnc_list ;
  if negb (existsb (fun x => visible r x && by_id dn_id entry_id x && String.eqb (scope x) "tenant") t)
  then raise (Problem NotFound "not_found")
  else
    newest ← evidence_rows tenant_id (dn_phone e) 1 ;
    if negb (bool_decide (option_map cn_id (head newest) = latest_evidence_id)) then raise (Problem Conflict "dnc_restore_stale")
    else
      let p x := own r x && by_id dn_id entry_id x && source_in RESTORABLE_SOURCES x in
      if negb (rowcount p t =? 1)%nat then raise (Problem NotFound "not_found")
      else
        modify (with_dnc (delete_where p t)) ;;
        queue_engine_dnc_removal tenant_id entry_id (dn_phone e) ;;
        ret (Restored (source e) (subject_ref (dn_phone e)) note).
Definition restore_optout (tenant_id entry_id : uuid) (ground : string) (note : option Phone.text)
    (latest_evidence_id : option uuid) : tx roll Restoration :=
  if negb (bool_decide (ground ∈ RESTORE_GROUNDS)) then raise (Problem BusinessRule "dnc_restore_unknown_ground")
  else
    cleaned ← lift (restore_note ground note) ;
    row ← entry_seen entry_id ;
    match row with
    | None => raise (Problem NotFound "not_found")
    | Some e =>
        if String.eqb (scope e) "global" then raise (Problem BusinessRule "dnc_global_entry")
        else if negb (source_in RESTORABLE_SOURCES e) then raise (Problem BusinessRule "dnc_not_restorable")
        else restore_locked tenant_id entry_id e cleaned latest_evidence_id
    end.

Definition remove_global_entry (entry_id : uuid) : tx roll Removal :=
  t ← gets dnc_list ;
  let p x := by_id dn_id entry_id x && bool_decide (dn_tenant x = None) in
  match select p t with
  | [] => raise (Problem NotFound "not_found")
  | e :: _ =>
      if negb (rowcount p t =? 1)%nat then raise (Problem NotFound "not_found")
      else modify (with_dnc (delete_where p t)) ;; ret (Removed (source e) (subject_ref (dn_phone e)))
  end.

(** ** An opt-out said on a call *)

Record OptOutSignal := Signal { sg_rule : string; language : string; turn_idx : option Z; matched : string }.
Record OptOutRecord := Recorded { or_suppressed : bool; newly_suppressed : bool; evidence_written : bool }.
Definition optout_evidence_of (detected_by : string) (g : OptOutSignal) : list (string * jval) :=
  [("detected_by", JText detected_by); ("rule", JText (sg_rule g)); ("language", JText (language g));
   ("turn_idx", match turn_idx g with Some n => JDec (inject_Z n) | None => JNull end); ("matched", JText (matched g))].
Definition audit_call_optout (tenant_id : uuid) (call_id : option uuid) : tx roll unit :=
  i ← in_wallet WalletDb.uuid7 ;
  t ← in_wallet clock_timestamp ;
  in_desk (modify (fun d => with_audit
    (Audit.write_audit hmac_hex dumps audit_key i t "compliance.call_optout_recorded" None (Some "system") (Some tenant_id)
       (Some "call") (option_map Envelope.Envelope.uuid_text call_id) None (audit_log d)) d)).
Definition withdrawn_on (r tenant_id : uuid) (phone : string) (call_id : option uuid) (c : consent) : bool :=
  mine cn_tenant r tenant_id c && String.eqb (cn_phone c) phone && String.eqb (cn_purpose c) OPTOUT_PURPOSE
  && String.eqb (cn_status c) "withdrawn" && bool_decide (cn_call c = call_id).

(** The evidence of one, and its audit entry. *)
Definition write_optout_evidence (tenant_id : uuid) (phone : string) (call_id : option uuid) (detected_by : string)
    (signal : OptOutSignal) : tx roll bool :=
  r ← session_tenant ;
  i ← in_wallet WalletDb.uuid7 ;
  n ← txn_now ;
  l ← gets consent_ledger ;
  if existsb (withdrawn_on r tenant_id phone call_id) l then ret false
  else
    in_wallet (own_tenant tenant_id) ;;
    modify (with_consents (l ++ [Consent i tenant_id call_id phone OPTOUT_PURPOSE "withdrawn" (Some OPTOUT_CONSENT_SOURCE) n
      None (Some (optout_evidence_of detected_by signal))])) ;;
    audit_call_optout tenant_id call_id ;;
    ret true.
Definition record_call_optout (tenant_id : uuid) (raw_phone : Phone.text) (call_id : option uuid) (detected_by : string)
    (signal : OptOutSignal) : tx roll OptOutRecord :=
  if negb (bool_decide (detected_by ∈ DETECTION_SOURCES)) then raise ValueError
  else
    match normalize raw_phone with
    | None => raise (Problem BusinessRule "optout_phone_invalid")
    | Some phone =>
        r ← session_tenant ;
        before ← gets (fun s => existsb (fun e => visible r e && suppresses tenant_id phone e) (dnc_list s)) ;
        add_to_dnc tenant_id phone CALL_OPTOUT_SOURCE ;;
        written ← write_optout_evidence tenant_id phone call_id detected_by signal ;
        ret (Recorded true (negb before) written)
    end.
End Writers.

(** ** What each write leaves of the list *)

(** The row as it was, or with a stronger source. *)
Record stays (e e' : entry) : Prop := Stays {
  sy_id : dn_id e' = dn_id e; sy_tenant : dn_tenant e' = dn_tenant e; sy_phone : dn_phone e' = dn_phone e;
  sy_scope : scope e' = scope e;
  sy_source : source e' = source e \/ source_in REMOVABLE_SOURCES e = true /\ source_in REMOVABLE_SOURCES e' = false }.
#[export] Instance stays_preorder : PreOrder stays.
Proof.
  split; [intros e; constructor; auto|]. intros e1 e2 e3 [] []. constructor; try congruence.
  destruct sy_source0 as [E|[E1 E2]], sy_source1 as [E'|[E1' E2']].
  - left. congruence.
  - right. split; [unfold source_in in *; by rewrite <- E|done].
  - right. split; [done|]. unfold source_in in *. by rewrite E'.
  - congruence.
Qed.

(** The list and the consents untouched. *)
Definition same_list (s s' : roll) : Prop := dnc_list s' = dnc_list s /\ consent_ledger s' = consent_ledger s.
#[export] Instance same_list_preorder : PreOrder same_list.
Proof. split; [by intros s|]. intros s1 s2 s3 [] []. split; congruence. Qed.
(** The keys of the table: its primary key, and one row per number of a tenant or of all. *)
Definition number_of (e : entry) : option uuid * string := (dn_tenant e, dn_phone e).
Definition keys_ok (t : list entry) : Prop := pk_ok dn_id t /\ NoDup (map number_of t).
(** Every row stays, and consents are only added. *)
Record grows (s s' : roll) : Prop := Grows {
  gw_rows : forall e, In e (dnc_list s) -> exists e', In e' (dnc_list s') /\ stays e e';
  gw_consents : exists l, consent_ledger s' = consent_ledger s ++ l;
  gw_keys : keys_ok (dnc_list s) -> keys_ok (dnc_list s') }.
#[export] Instance grows_preorder : PreOrder grows.
Proof.
  split.
  - intros s. constructor; [intros e He; by exists e|by exists []; rewrite app_nil_r|done].
  - intros s1 s2 s3 [H1 [l1 L1] K1] [H2 [l2 L2] K2]. constructor; [| |auto].
    + intros e He. destruct (H1 e He) as (e1 & He1 & S1). destruct (H2 e1 He1) as (e2 & He2 & S2). exists e2. split; [done|by etrans].
    + exists (l1 ++ l2). by rewrite L2, L1, app_assoc.
Qed.
Lemma same_grows s s' : same_list s s' -> grows s s'.
Proof. intros [E1 E2]. constructor; [intros e He; exists e; by rewrite E1|exists []; by rewrite E2, app_nil_r|by rewrite E1]. Qed.
Lemma same_respects_grows {B} (m : tx roll B) : respects same_list m -> respects grows m.
Proof. intros Hm s b s' H. by apply same_grows, (Hm _ _ _ H). Qed.

Lemma same_in_fees {B} (m : tx fees B) : respects same_list (in_fees m).
Proof. intros s b s' H. unfold in_fees in H. destruct (m _) as [[b' f]|]; [|done]. by injection H as _ <-. Qed.
Lemma same_in_wallet {B} (m : tx db B) : respects same_list (in_wallet m).
Proof. apply same_in_fees. Qed.
Lemma same_in_desk {B} (m : tx platform B) : respects same_list (in_desk m).
Proof. apply same_in_fees. Qed.
Lemma same_callbacks t : respects same_list (modify (with_callbacks t)).
Proof. by apply respects_modify. Qed.
Lemma same_callbacks_f f : respects same_list (modify (fun s => with_callbacks (f s) s)).
Proof. by apply respects_modify. Qed.
Lemma same_follow_ups f g : respects same_list (modify (fun s => with_follow_ups (f s) (g s) s)).
Proof. by apply respects_modify. Qed.
#[local] Hint Resolve same_in_fees same_in_wallet same_in_desk same_callbacks : respects.

Lemma same_record x kind result : respects same_list (record x kind result).
Proof. pose proof same_follow_ups. unfold record. respects. Qed.
Lemma same_finish x st reason : respects same_list (finish x st reason).
Proof.
  unfold finish, txn_now, session_tenant. respects. intros s u s' H.
  by apply (same_follow_ups (fun s => update _ _ (follow_up_runs s)) follow_up_run_events) in H.
Qed.
#[local] Hint Resolve same_record same_finish : respects.
Lemma same_stop_each l reason : respects same_list (stop_each l reason).
Proof. induction l as [|x l IH]; simpl; respects. Qed.
#[local] Hint Resolve same_stop_each : respects.
Lemma same_stop_for_phones phones reason : respects same_list (stop_for_phones phones reason).
Proof.
  assert (forall ids why, respects same_list (cancel_callbacks ids why)).
  { intros ids why. unfold cancel_callbacks, txn_now, session_tenant. respects. intros s u s' H. by apply (same_callbacks_f (fun s => update _ _ _)) in H. }
  unfold stop_for_phones, session_tenant. respects.
Qed.
#[local] Hint Resolve same_stop_for_phones : respects.
Lemma same_cancel phones reason : respects same_list (cancel_for_phones phones reason).
Proof. unfold cancel_for_phones, txn_now, session_tenant. cbv zeta. respects. Qed.
#[local] Hint Resolve same_cancel : respects.
Lemma same_cancel_each ts phones reason : respects same_list (cancel_each ts phones reason).
Proof. induction ts as [|t ts IH]; simpl; unfold set_tenant; respects. Qed.
#[local] Hint Resolve same_cancel_each : respects.
Lemma same_fleet_wide ts phones reason : respects same_list (cancel_for_phones_fleet_wide ts phones reason).
Proof. unfold cancel_for_phones_fleet_wide, set_tenant, session_tenant. respects. Qed.
Lemma same_recall t phones c : respects same_list (enqueue_dnc_recall t phones c).
Proof. unfold enqueue_dnc_recall. respects. Qed.
#[local] Hint Resolve same_fleet_wide same_recall : respects.

Section Laws.
Context (is_space : Z -> bool) (decimal : Z -> option Z).
Context (engine : string) (is_developer_workspace : string -> bool).
Context (hmac_hex : string -> string -> string) (dumps : Audit.payload -> string) (audit_key : string).
Context (sha256_hex : string -> string) (seal : string -> string -> string) (redact : Phone.text -> Phone.text).
Abbreviation push := (queue_engine_dnc_push engine is_developer_workspace).
Abbreviation queue_removal := (queue_engine_dnc_removal engine is_developer_workspace seal).
Abbreviation add_to_dnc := (add_to_dnc engine is_developer_workspace).
Abbreviation add_write := (add_write engine is_developer_workspace).
Abbreviation add_global_numbers := (add_global_numbers is_space decimal).
Abbreviation remove_delete := (remove_delete engine is_developer_workspace sha256_hex seal).
Abbreviation restore_optout := (restore_optout is_space engine is_developer_workspace sha256_hex seal redact).
Abbreviation remove_global_entry := (remove_global_entry sha256_hex).
Abbreviation write_evidence := (write_optout_evidence hmac_hex dumps audit_key).
Abbreviation record_call_optout := (record_call_optout is_space decimal engine is_developer_workspace hmac_hex dumps audit_key).

Lemma same_own_workspace t : respects same_list (own_workspace is_developer_workspace t).
Proof. unfold own_workspace. respects. Qed.
#[local] Hint Resolve same_own_workspace : respects.
Lemma same_push t phones : respects same_list (push t phones).
Proof. unfold queue_engine_dnc_push, session_tenant. respects. Qed.
Lemma same_queue_removal t i phone : respects same_list (queue_removal t i phone).
Proof. unfold queue_engine_dnc_removal. respects. Qed.
Lemma same_seen i : respects same_list (entry_seen i).
Proof. unfold entry_seen, session_tenant. respects. Qed.
Lemma same_evidence t p k : respects same_list (evidence_rows t p k).
Proof. unfold evidence_rows, session_tenant. respects. Qed.
Lemma same_audit t c : respects same_list (audit_call_optout hmac_hex dumps audit_key t c).
Proof. unfold audit_call_optout. respects. Qed.
#[local] Hint Resolve same_push same_queue_removal same_seen same_evidence same_audit : respects.
#[local] Hint Extern 2 (respects grows _) => (apply same_respects_grows; solve [eauto 2 with respects]) : respects.

(** Adding rows, and making a source stronger. *)
Lemma same_number_spec x y : same_number x y = true <-> number_of y = number_of x.
Proof.
  unfold same_number, number_of. rewrite andb_true_iff, bool_decide_eq_true, String.eqb_eq. split; [intros [-> ->]; done|by intros [= -> ->]].
Qed.
Lemma grows_insert x : respects grows (insert_entry x).
Proof.
  intros s b s' H. apply bind_ok in H as (t & s1 & H1 & H). apply gets_ok in H1 as [-> ->].
  destruct (existsb (same_number x) _) eqn:E1; [apply ret_ok in H as [_ ->]; done|].
  destruct (existsb (by_id _ _) _) eqn:E2; [by apply raise_ok in H|].
  apply bind_ok in H as (u & s2 & H1 & H). apply modify_ok in H1 as ->. apply ret_ok in H as [_ ->].
  constructor; [intros e He; exists e; split; [apply in_or_app; by left|done]|by exists []; rewrite app_nil_r|]. intros [K1 K2]. split.
  - apply insert_pk_ok; [|done]. intros (e & He & Hi)%in_map_iff. assert (existsb (by_id dn_id (dn_id x)) (dnc_list s) = true); [|congruence].
    apply existsb_exists. exists e. split; [done|]. unfold by_id. by apply Z.eqb_eq.
  - simpl. rewrite map_app. apply NoDup_app. split; [done|]. split; [|apply NoDup_singleton].
    intros k Hk Hk'. apply list_elem_of_singleton in Hk' as ->. apply list_elem_of_In, in_map_iff in Hk as (e & Hi & He).
    assert (existsb (same_number x) (dnc_list s) = true); [|congruence]. apply existsb_exists. exists e. split; [done|by apply same_number_spec].
Qed.
Lemma update_keys_ok p src t : keys_ok t -> keys_ok (update p (with_source src) t).
Proof.
  intros [K1 K2]. split; [by apply update_pk_ok|]. unfold update. rewrite map_map.
  rewrite (map_ext _ number_of); [done|]. intros e. by destruct (p e).
Qed.
Lemma grows_update p src : (forall e, p e = true -> upgradable src e = true) ->
  respects grows (modify (fun s => with_dnc (update p (with_source src) (dnc_list s)) s)).
Proof.
  intros Hp. apply respects_modify. intros s. constructor; [|by exists []; rewrite app_nil_r|apply update_keys_ok]. intros e He.
  exists (if p e then with_source src e else e). split; [apply update_In; by exists e|].
  destruct (p e) eqn:E; [|done]. apply Hp, andb_true_iff in E as [E1 E2]. constructor; try done. right. split; [done|].
  by apply negb_true_iff in E2.
Qed.
#[local] Hint Resolve grows_insert : respects.
Lemma grows_inserts t sc src phones : respects grows (insert_entries t sc src phones).
Proof. induction phones as [|p l IH]; simpl; unfold txn_now; respects. Qed.
#[local] Hint Resolve grows_inserts : respects.

Lemma grows_add_to_dnc t phone src : respects grows (add_to_dnc t phone src).
Proof.
  unfold Dnc.add_to_dnc, txn_now. cbv zeta.
  assert (forall x, respects grows (modify (fun s => with_dnc
    (update (fun e => same_number x e && upgradable src e) (with_source src) (dnc_list s)) s))).
  { intros x. apply grows_update. intros e E. by apply andb_true_iff in E as [_ E]. }
  respects.
Qed.
Lemma grows_add_write t src numbers fresh : respects grows (add_write t src numbers fresh).
Proof.
  unfold Dnc.add_write, session_tenant.
  assert (forall r, bool_decide (src ∈ REMOVABLE_SOURCES) = false -> respects grows (modify (fun s => with_dnc
    (update (fun e => visible r e && bool_decide (dn_tenant e = Some t) && bool_decide (dn_phone e ∈ numbers)
                      && source_in REMOVABLE_SOURCES e) (with_source src) (dnc_list s)) s))).
  { intros r Hs. apply grows_update. intros e E. apply andb_true_iff in E as [_ E]. unfold upgradable. by rewrite E, Hs. }
  apply respects_bind; [typeclasses eauto|respects|]. intros k. destruct (bool_decide (src ∈ REMOVABLE_SOURCES)) eqn:E; respects.
Qed.
Lemma grows_global raw src ts : respects grows (add_global_numbers raw src ts).
Proof. unfold Dnc.add_global_numbers. destruct (read_numbers _ _ _). cbv zeta. respects. Qed.
#[local] Hint Resolve grows_add_to_dnc : respects.
(** The evidence of the call is in the ledger once its opt-out is. *)
Definition evidenced (t : uuid) (p : string) (call : option uuid) (s : roll) : Prop :=
  exists c, In c (consent_ledger s) /\ cn_tenant c = t /\ cn_phone c = p /\ cn_purpose c = OPTOUT_PURPOSE
    /\ cn_status c = "withdrawn" /\ cn_call c = call.
Lemma write_evidence_spec t p c d g s b s' : write_evidence t p c d g s = Ok (b, s') ->
  grows s s' /\ dnc_list s' = dnc_list s /\ evidenced t p c s'.
Proof.
  unfold Dnc.write_optout_evidence. intros H. apply bind_ok in H as (r & s1 & E & H). apply gets_ok in E as [-> ->].
  apply bind_ok in H as (i & s1 & E & H). apply same_in_wallet in E as [D0 L0]. apply bind_ok in H as (n & s2 & E & H).
  apply gets_ok in E as [_ ->]. apply bind_ok in H as (l & s2 & E & H). apply gets_ok in E as [-> ->].
  rewrite L0 in H. destruct (existsb _ _) eqn:Ex.
  { apply ret_ok in H as [_ ->]. split; [by apply same_grows|]. split; [done|]. apply existsb_exists in Ex as (e & He & E).
    unfold withdrawn_on, mine in E. rewrite !andb_true_iff in E. destruct E as [[[[[_ E0] E1] E2] E3] E4].
    exists e. rewrite L0. apply Z.eqb_eq in E0. apply String.eqb_eq in E1, E2, E3. by apply bool_decide_eq_true in E4. }
  apply bind_ok in H as (v & s2 & E & H). apply same_in_wallet in E as [D1 L1].
  apply bind_ok in H as (w & s3 & E & H). apply modify_ok in E as ->.
  apply bind_ok in H as (u & s4 & E & H). apply same_audit in E as [D2 L2]. apply ret_ok in H as [_ ->].
  simpl in D2, L2. assert (D : dnc_list s4 = dnc_list s) by congruence.
  split; [constructor; rewrite ?D; [intros e He; by exists e|rewrite L2; by eexists|done]|]. split; [done|].
  eexists. rewrite L2. split; [apply in_or_app; right; by left|done].
Qed.
Lemma grows_write_evidence t p c d g : respects grows (write_evidence t p c d g).
Proof. intros s b s' H. apply (write_evidence_spec _ _ _ _ _ _ _ _ H). Qed.
#[local] Hint Resolve grows_write_evidence : respects.
Lemma grows_optout t raw c d g : respects grows (record_call_optout t raw c d g).
Proof.
  unfold Dnc.record_call_optout, session_tenant. destruct (negb _); [apply respects_raise|].
  destruct (Phone.normalize_phone _ _ _) as [phone|]; [|apply respects_raise]. respects.
Qed.

(** ** Lifting *)

(** Why a row of the list may go: its own tenant removes what it typed in, or restores a
    person's opt-out having seen the newest evidence; operations lift a row of everyone's. *)
Inductive lifting := Undone (tenant : uuid) | Attested (tenant : uuid) (ground : string) (seen : option uuid) | LiftedByOps.
Definition may_lift (why : lifting) (s : roll) (e : entry) : Prop :=
  match why with
  | Undone t => dn_tenant e = Some t /\ source_in REMOVABLE_SOURCES e = true
  | Attested t ground seen =>
      dn_tenant e = Some t /\ source_in RESTORABLE_SOURCES e = true /\ ground ∈ RESTORE_GROUNDS
      /\ option_map cn_id (head (order_by newest_consent
           (select (fun c => mine cn_tenant t t c && String.eqb (cn_phone c) (dn_phone e) && String.eqb (cn_purpose c) OPTOUT_PURPOSE
                             && String.eqb (cn_status c) "withdrawn") (consent_ledger s)))) = seen
  | LiftedByOps => dn_tenant e = None
  end.

(** [s'] is [s] with the row [i] lifted for [why], and otherwise grown. *)
Record lifts (why : lifting) (i : uuid) (s s' : roll) : Prop := Lifts {
  lf_rows : forall e, In e (dnc_list s) -> (dn_id e = i /\ may_lift why s e) \/ exists e', In e' (dnc_list s') /\ stays e e';
  lf_consents : exists l, consent_ledger s' = consent_ledger s ++ l;
  lf_keys : keys_ok (dnc_list s) -> keys_ok (dnc_list s') }.
Lemma delete_keys_ok p t : keys_ok t -> keys_ok (delete_where p t).
Proof. intros [K1 K2]. split; by apply NoDup_map_filter. Qed.
Lemma lifts_delete why i p s s1 s' :
  same_list s s1 -> (forall e, In e (dnc_list s) -> p e = true -> dn_id e = i /\ may_lift why s e) ->
  same_list (with_dnc (delete_where p (dnc_list s1)) s1) s' -> lifts why i s s'.
Proof.
  intros [D1 L1] Hp [D L]. rewrite D1 in D. constructor.
  - intros e He. destruct (p e) eqn:E; [left; by apply Hp|right]. exists e. rewrite D. simpl. split; [|done].
    apply filter_In. split; [done|by rewrite E].
  - exists []. by rewrite L, app_nil_r.
  - rewrite D. simpl. apply delete_keys_ok.
Qed.
Lemma own_spec r e : own r e = true -> dn_tenant e = Some r.
Proof. intros H. apply andb_true_iff in H as [H _]. by apply bool_decide_eq_true in H. Qed.

Lemma remove_lifts t i e0 s x s' : remove_delete t i e0 s = Ok (x, s') -> lifts (Undone (rls (wallet_of s))) i s s'.
Proof.
  intros H. unfold Dnc.remove_delete in H. apply bind_ok in H as (r & s1 & E & H). apply gets_ok in E as [-> ->].
  apply bind_ok in H as (l & s1 & E & H). apply gets_ok in E as [-> ->]. cbv zeta in H.
  destruct (_ =? 1)%nat.
  - apply bind_ok in H as (u & s1 & E & H). apply modify_ok in E as ->.
    eapply lifts_delete; [reflexivity| |]; cycle 1.
    + apply bind_ok in H as (b & s2 & E & H). apply same_queue_removal in E. apply ret_ok in H as [_ ->]. exact E.
    + intros e _ E. apply andb_true_iff in E as [E E2]. apply andb_true_iff in E as [E E1]. apply Z.eqb_eq in E1.
      apply own_spec in E. done.
  - apply bind_ok in H as (o & s1 & E & H). destruct o as [y|]; [|by apply raise_ok in H].
    destruct (source_in _ y); by apply raise_ok in H.
Qed.
Lemma ops_lifts i s x s' : remove_global_entry i s = Ok (x, s') -> lifts LiftedByOps i s s'.
Proof.
  intros H. unfold Dnc.remove_global_entry in H. apply bind_ok in H as (l & s1 & E & H). apply gets_ok in E as [-> ->].
  destruct (select _ _); [by apply raise_ok in H|]. destruct (negb _); [by apply raise_ok in H|].
  apply bind_ok in H as (u & s1 & E & H). apply modify_ok in E as ->. apply ret_ok in H as [_ ->].
  eapply lifts_delete; [reflexivity| |reflexivity]. intros e0 _ E. apply andb_true_iff in E as [E1 E2].
  apply Z.eqb_eq in E1. by apply bool_decide_eq_true in E2.
Qed.

Lemma restore_lifts t i ground note seen s x s' :
  rls (wallet_of s) = t -> keys_ok (dnc_list s) -> restore_optout t i ground note seen s = Ok (x, s') ->
  lifts (Attested t ground seen) i s s'.
Proof.
  intros Hr [K _] H. unfold Dnc.restore_optout in H. destruct (bool_decide (ground ∈ _)) eqn:Eg; [|by apply raise_ok in H].
  apply bool_decide_eq_true in Eg. cbn [negb] in H.
  apply bind_ok in H as (cleaned & s1 & E & H). apply lift_ok in E as [_ ->].
  apply bind_ok in H as (row & s1 & E & H). unfold entry_seen in E. apply bind_ok in E as (r & s2 & E1 & E).
  apply gets_ok in E1 as [-> ->]. apply gets_ok in E as [-> ->]. rewrite Hr in H.
  destruct (select _ _) as [|e0 l] eqn:E0; [by apply raise_ok in H|]. simpl in H.
  destruct (String.eqb (scope e0) _); [by apply raise_ok in H|]. destruct (negb _); [by apply raise_ok in H|].
  assert (He0 : In e0 (dnc_list s) /\ dn_id e0 = i).
  { assert (Hs : In e0 (select (fun e => visible t e && by_id dn_id i e) (dnc_list s))) by (rewrite E0; by left).
    apply select_In in Hs as [Hi Hp]. apply andb_true_iff in Hp as [_ Hp]. by apply Z.eqb_eq in Hp. }
  unfold restore_locked in H. apply bind_ok in H as (r & s1 & E & H). apply gets_ok in E as [-> ->].
  apply bind_ok in H as (t0 & s1 & E & H). apply gets_ok in E as [-> ->]. destruct (negb (existsb _ _)); [by apply raise_ok in H|].
  apply bind_ok in H as (newest & s1 & E & H). unfold evidence_rows in E. apply bind_ok in E as (r & s2 & E1 & E).
  apply gets_ok in E1 as [-> ->]. apply gets_ok in E as [-> ->]. rewrite Hr in H. cbv zeta in H.
  destruct (bool_decide (option_map cn_id _ = seen)) eqn:En; [|by apply raise_ok in H]. apply bool_decide_eq_true in En.
  cbn [negb] in H. destruct (negb _); [by apply raise_ok in H|].
  apply bind_ok in H as (u & s1 & E & H). apply modify_ok in E as ->.
  eapply lifts_delete; [reflexivity| |]; cycle 1.
  + apply bind_ok in H as (b & s2 & E & H). apply same_queue_removal in E. apply ret_ok in H as [_ ->]. exact E.
  + intros e Hin E. apply andb_true_iff in E as [E E2]. apply andb_true_iff in E as [E E1]. apply Z.eqb_eq in E1.
    apply own_spec in E. split; [done|]. split; [done|]. split; [done|]. split; [done|].
    assert (e = e0) as ->. { eapply (pk_unique dn_id); [exact K|exact Hin|apply He0|]. rewrite E1. symmetry. apply He0. }
    rewrite <- En. unfold limit. by destruct (order_by _ _).
Qed.

(** ** The life of the list *)

(** A transaction of any session, by the row it lifts if it lifts one: the writers above
    (each past what it read of the list, which may be stale), or anything that leaves the
    list and only adds consents. *)
Inductive dnc_step : option (lifting * uuid) -> roll -> roll -> Prop :=
| StepAdd s t src numbers fresh k s' : add_write t src numbers fresh s = Ok (k, s') -> dnc_step None s s'
| StepAddTo s t phone src u s' : add_to_dnc t phone src s = Ok (u, s') -> dnc_step None s s'
| StepOptout s t raw c d g x s' : record_call_optout t raw c d g s = Ok (x, s') -> dnc_step None s s'
| StepGlobal s raw src ts x s' : add_global_numbers raw src ts s = Ok (x, s') -> dnc_step None s s'
| StepRemove s t i e x s' : remove_delete t i e s = Ok (x, s') -> dnc_step (Some (Undone (rls (wallet_of s)), i)) s s'
| StepRestore s t i ground note seen x s' :
    rls (wallet_of s) = t -> restore_optout t i ground note seen s = Ok (x, s') -> dnc_step (Some (Attested t ground seen, i)) s s'
| StepOps s i x s' : remove_global_entry i s = Ok (x, s') -> dnc_step (Some (LiftedByOps, i)) s s'
| StepElsewhere s s' :
    dnc_list s' = dnc_list s -> (exists l, consent_ledger s' = consent_ledger s ++ l) -> dnc_step None s s'.

Lemma step_cases o s s' : keys_ok (dnc_list s) -> dnc_step o s s' ->
  match o with None => grows s s' | Some (why, i) => lifts why i s s' end.
Proof.
  intros K H. destruct H.
  - by eapply grows_add_write.
  - by eapply grows_add_to_dnc.
  - by eapply grows_optout.
  - by eapply grows_global.
  - by eapply remove_lifts.
  - by eapply restore_lifts.
  - by eapply ops_lifts.
  - constructor; [intros e He; exists e; by rewrite H|done|by rewrite H].
Qed.
Lemma step_keys o s s' : keys_ok (dnc_list s) -> dnc_step o s s' -> keys_ok (dnc_list s').
Proof. intros K H. pose proof (step_cases _ _ _ K H) as C. destruct o as [[why i]|]; [apply (lf_keys _ _ _ _ C K)|apply (gw_keys _ _ C K)]. Qed.

(** A suppression of the tenant that is not the tenant's own to undo. *)
Record binding (i t : uuid) (p : string) (s : roll) : Prop := Binding {
  bd_row : exists e, In e (dnc_list s) /\ dn_id e = i /\ dn_tenant e = Some t /\ dn_phone e = p
             /\ source_in REMOVABLE_SOURCES e = false;
  bd_keys : keys_ok (dnc_list s) }.
(** Steps other than a restoration of [i]. *)
Definition unrestored (i : uuid) (s s' : roll) : Prop :=
  exists o, dnc_step o s s' /\ forall t ground seen, o <> Some (Attested t ground seen, i).

Lemma stays_binding i t p s' e e' : keys_ok (dnc_list s') -> In e' (dnc_list s') -> stays e e' ->
  dn_id e = i -> dn_tenant e = Some t -> dn_phone e = p -> source_in REMOVABLE_SOURCES e = false -> binding i t p s'.
Proof.
  intros K' He' [E1 E2 E3 E4 E5] Hi Ht Hp Hs. constructor; [|done]. exists e'. rewrite E1, E2, E3.
  repeat (split; [done|]). destruct E5 as [E5|[E5 _]]; [|congruence]. unfold source_in in *. by rewrite E5.
Qed.
Lemma binding_grows i t p s s' : grows s s' -> binding i t p s -> binding i t p s'.
Proof.
  intros [G _ GK] [(e & He & Hi & Ht & Hp & Hs) K]. destruct (G e He) as (e' & He' & S).
  exact (stays_binding i t p s' e e' (GK K) He' S Hi Ht Hp Hs).
Qed.
Lemma binding_step i t p s s' : binding i t p s -> unrestored i s s' -> binding i t p s'.
Proof.
  intros [(e & He & Hi & Ht & Hp & Hs) K] (o & H & Ho). pose proof (step_keys _ _ _ K H) as K'. pose proof (step_cases _ _ _ K H) as C.
  assert (Hstay : exists e', In e' (dnc_list s') /\ stays e e').
  { destruct o as [[why j]|]; [|by apply C]. destruct (lf_rows _ _ _ _ C e He) as [[Hj Hm]|]; [|done]. exfalso.
    destruct why as [u|u g n|]; simpl in Hm.
    - destruct Hm. congruence.
    - apply (Ho u g n). by rewrite <- Hj, Hi.
    - congruence. }
  destruct Hstay as (e' & He' & S). exact (stays_binding i t p s' e e' K' He' S Hi Ht Hp Hs).
Qed.
Lemma binding_stands i t p s s' : binding i t p s -> rtc (unrestored i) s s' -> binding i t p s'.
Proof. intros Hb H. revert Hb. induction H as [|s1 s2 s3 H _ IH]; [done|]. intros Hb. apply IH. by eapply binding_step. Qed.

(** ** An opt-out said on a call *)

Lemma add_to_dnc_binds t phone src s u s' :
  src ∉ REMOVABLE_SOURCES -> keys_ok (dnc_list s) -> add_to_dnc t phone src s = Ok (u, s') -> exists i, binding i t phone s'.
Proof.
  intros Hs K H. pose proof (grows_add_to_dnc t phone src s u s' H) as G.
  unfold Dnc.add_to_dnc in H. apply bind_ok in H as (i & s1 & E & H). apply same_in_wallet in E as [D _].
  apply bind_ok in H as (v & s2 & E & H). apply same_in_wallet in E as [D2 _]. rewrite D in D2. cbv zeta in H.
  apply bind_ok in H as (n & s3 & E & H). apply gets_ok in E as [_ ->].
  apply bind_ok in H as (clash & s3 & E & H). apply gets_ok in E as [-> ->].
  set (x := Entry i (Some t) phone "tenant" (Some src) n) in *.
  apply bind_ok in H as (w & s3 & E & H).
  assert (B : exists j, binding j t phone s3).
  { destruct (existsb _ _) eqn:Ex.
    - apply modify_ok in E as ->. apply existsb_exists in Ex as (e & He & Hx).
      apply same_number_spec in Hx as Hn. injection Hn as Ht Hp.
      exists (dn_id e). constructor; [|simpl; rewrite D2; by apply update_keys_ok].
      exists (if upgradable src e then with_source src e else e). simpl. split.
      { apply update_In. exists e. split; [done|]. by rewrite Hx. }
      unfold upgradable. destruct (source_in REMOVABLE_SOURCES e) eqn:Es; simpl.
      + rewrite bool_decide_false by done. simpl. repeat (split; [done|]). unfold source_in. simpl. by apply bool_decide_eq_false.
      + done.
    - apply bind_ok in E as (b & s4 & E & E'). apply ret_ok in E' as [_ ->].
      pose proof (gw_keys _ _ (grows_insert x s2 b s4 E)) as GK. rewrite D2 in GK. specialize (GK K).
      unfold insert_entry in E. apply bind_ok in E as (l & s5 & E1 & E). apply gets_ok in E1 as [-> ->]. rewrite Ex in E.
      destruct (existsb (by_id _ _) _); [by apply raise_ok in E|]. apply bind_ok in E as (y & s5 & E1 & E).
      apply modify_ok in E1 as ->. apply ret_ok in E as [_ ->]. exists i. constructor; [|done].
      exists x. split; [simpl; apply in_or_app; right; by left|]. repeat (split; [done|]).
      unfold source_in. simpl. by apply bool_decide_eq_false. }
  destruct B as (j & B). exists j. eapply binding_grows; [|exact B]. apply same_grows.
  apply bind_ok in H as (y & s4 & E1 & H). apply same_recall in E1.
  apply bind_ok in H as (z & s5 & E2 & H). apply same_push in E2.
  apply bind_ok in H as (q & s6 & E3 & H). apply same_cancel in E3. apply ret_ok in H as [_ ->].
  by etrans; [|etrans].
Qed.

Lemma binding_suppresses i t p (s : roll) raw : binding i t p s -> rls (wallet_of s) = t -> Phone.normalize_phone is_space decimal raw = Some p ->
  exists sc, check_number is_space decimal t raw s = Ok (Checked true true (Some sc), s).
Proof.
  intros [(e & He & Hi & Ht & Hp & _) _] Hr Hn. unfold check_number. rewrite Hn. unfold session_tenant, Prelude.bind, gets. rewrite Hr.
  set (l := order_by _ _). assert (In e l) as Hin.
  { apply order_by_In, select_In. split; [done|]. unfold suppresses, visible. by rewrite Hp, Ht, String.eqb_refl, Z.eqb_refl. }
  destruct l as [|e0 l]; [done|]. by eexists.
Qed.
Lemma evidenced_stands t p c s s' : evidenced t p c s -> (exists l, consent_ledger s' = consent_ledger s ++ l) -> evidenced t p c s'.
Proof. intros (x & Hx & H) (l & L). exists x. rewrite L. split; [apply in_or_app; by left|done]. Qed.
Lemma step_consents o s s' : keys_ok (dnc_list s) -> dnc_step o s s' -> exists l, consent_ledger s' = consent_ledger s ++ l.
Proof. intros K H. pose proof (step_cases _ _ _ K H) as C. destruct o as [[why i]|]; apply C. Qed.

Lemma optout_binds t raw call detected_by signal s x s1 : keys_ok (dnc_list s) ->
  record_call_optout t raw call detected_by signal s = Ok (x, s1) ->
  exists i p, Phone.normalize_phone is_space decimal raw = Some p /\ binding i t p s1 /\ evidenced t p call s1.
Proof.
  intros K H. unfold Dnc.record_call_optout in H. destruct (negb _); [by apply raise_ok in H|].
  destruct (Phone.normalize_phone _ _ raw) as [p|]; [|by apply raise_ok in H].
  apply bind_ok in H as (r & s0 & E & H). apply gets_ok in E as [-> ->].
  apply bind_ok in H as (b & s0 & E & H). apply gets_ok in E as [-> ->].
  apply bind_ok in H as (u & s0 & E & H). apply add_to_dnc_binds in E as (i & B); [|apply (proj1 (bool_decide_eq_false _)); reflexivity|done].
  apply bind_ok in H as (w & s3 & E & H). apply ret_ok in H as [_ ->].
  apply write_evidence_spec in E as (G & _ & Ev). exists i, p. split; [done|]. split; [by eapply binding_grows|done].
Qed.

(** C9. An opt-out said on a call binds: the number is on the tenant's list from that
    transaction on, under a source its own staff cannot remove, whatever was typed in for
    it before, with the call's evidence in the append-only ledger.  Whatever transactions
    follow, in any session and any number, short of an attested restoration of that very
    row, the number is refused however it is written, and the evidence never goes. *)
Theorem optout_stands t raw call detected_by signal s x s1 : keys_ok (dnc_list s) ->
  record_call_optout t raw call detected_by signal s = Ok (x, s1) ->
  exists i p, Phone.normalize_phone is_space decimal raw = Some p
    /\ forall s2, rtc (unrestored i) s1 s2 ->
         binding i t p s2 /\ evidenced t p call s2
         /\ (rls (wallet_of s2) = t -> forall raw', Phone.normalize_phone is_space decimal raw' = Some p ->
               exists sc, check_number is_space decimal t raw' s2 = Ok (Checked true true (Some sc), s2)).
Proof.
  intros K H. destruct (optout_binds _ _ _ _ _ _ _ _ K H) as (i & p & Hp & B & Ev). exists i, p. split; [done|].
  intros s2 Hs. assert (I : binding i t p s2 /\ evidenced t p call s2).
  { clear - B Ev Hs. induction Hs as [s2|s2 s4 s5 Hstep _ IH]; [done|]. apply IH; [by eapply binding_step|].
    eapply evidenced_stands; [exact Ev|]. destruct Hstep as (o & Hstep & _). eapply step_consents; [apply B|exact Hstep]. }
  destruct I as [B2 Ev2]. split; [done|]. split; [done|]. intros Hr raw' Hn. by eapply binding_suppresses.
Qed.

(** ** What lifts a suppression *)

Definition any_step (s s' : roll) : Prop := exists o, dnc_step o s s'.
Definition REGULATOR : string := "regulator".

(** Past any transactions a row is still there, perhaps stronger, or one of them lifted it. *)
Lemma row_fate s s' e : keys_ok (dnc_list s) -> rtc any_step s s' -> In e (dnc_list s) ->
  (exists e', In e' (dnc_list s') /\ stays e e')
  \/ exists s1 s2 why e1, rtc any_step s s1 /\ dnc_step (Some (why, dn_id e)) s1 s2 /\ rtc any_step s2 s'
        /\ In e1 (dnc_list s1) /\ stays e e1 /\ may_lift why s1 e1.
Proof.
  intros K Hs. revert e K. induction Hs as [s|s s1 s' [o H] Hs IH]; intros e K He; [left; by exists e|].
  pose proof (step_keys _ _ _ K H) as K1. pose proof (step_cases _ _ _ K H) as C.
  assert (F : (exists e1, In e1 (dnc_list s1) /\ stays e e1) \/ exists why, o = Some (why, dn_id e) /\ may_lift why s e).
  { destruct o as [[why j]|]; [|left; by apply C]. destruct (lf_rows _ _ _ _ C e He) as [[Hj Hm]|F]; [|by left].
    right. exists why. by rewrite Hj. }
  destruct F as [(e1 & He1 & S)|(why & -> & Hm)].
  - destruct (IH e1 K1 He1) as [(e' & He' & S')|(s2 & s3 & why & e2 & H1 & H2 & H3 & He2 & S2 & Hm)].
    + left. exists e'. split; [done|]. by etrans.
    + right. exists s2, s3, why, e2. split; [eapply rtc_l; [by exists o|done]|].
      rewrite <- (sy_id _ _ S). split; [done|]. split; [done|]. split; [done|]. split; [by etrans|done].
  - right. exists s, s1, why, e. by repeat (split; [done|]).
Qed.

(** C8. No suppression is lost.  A row of the list that is gone after any transactions was
    lifted by one of them, for one of three reasons that held as it ran: its own tenant
    removed what its own staff had typed in; its own tenant restored a person's opt-out on
    an attested ground, having been shown the newest evidence there was; or operations
    lifted a row of everyone's.  So a regulator's entry for one tenant is never lifted. *)
Theorem suppression_lifts s s' e : keys_ok (dnc_list s) -> rtc any_step s s' -> In e (dnc_list s) ->
  ((forall e', In e' (dnc_list s') -> dn_id e' <> dn_id e) ->
     exists s1 s2 why e1, rtc any_step s s1 /\ dnc_step (Some (why, dn_id e)) s1 s2 /\ rtc any_step s2 s'
       /\ In e1 (dnc_list s1) /\ stays e e1 /\ may_lift why s1 e1)
  /\ (source e = Some REGULATOR -> dn_tenant e <> None -> exists e', In e' (dnc_list s') /\ stays e e').
Proof.
  intros K Hs He. destruct (row_fate s s' e K Hs He) as [(e' & He' & S)|F].
  - split; [|intros _ _; by exists e']. intros H. by destruct (H e' He'), S.
  - split; [done|]. intros Hsrc Ht. exfalso. destruct F as (s1 & s2 & why & e1 & _ & _ & _ & _ & [_ Et _ _ Es] & Hm).
    assert (E : source e1 = Some REGULATOR).
    { destruct Es as [Es|[Es _]]; [congruence|]. unfold source_in in Es. rewrite Hsrc in Es. by vm_compute in Es. }
    destruct why as [t|t g n|]; simpl in Hm; unfold source_in in Hm; rewrite ?E in Hm.
    + destruct Hm as [_ Hm]. by vm_compute in Hm.
    + destruct Hm as (_ & Hm & _). by vm_compute in Hm.
    + congruence.
Qed.
End Laws.

(** ** An example *)
Module Example.
Import Phone.Phone.Example.
Definition no_developer := FirstPayment.FirstPayment.Example.no_developer.
Definition sha (s : string) : string := s.
Definition seal (p c : string) : string := p +:+ c.
Definition redact (t : Phone.Phone.text) : Phone.Phone.text := t.
Definition roll0 : roll := Roll PlatformFee.Example.fees0 [] [] [] [] [].
Definition signal (w : string) : OptOutSignal := Signal "engine" "unknown" None w.
Definition phone : Phone.Phone.text := Phone.points "098480 22338".
Abbreviation optout call w s :=
  (record_call_optout is_space decimal "thinnest" no_developer Audit.Example.keyed Audit.Example.dumps "key" 7 phone call
     "engine_platform" (signal w) s).
Abbreviation restore i ground seen s :=
  (restore_optout is_space "thinnest" no_developer sha seal redact 7 i ground None seen s).
Abbreviation add src l s := (add_numbers is_space decimal "thinnest" no_developer 7 l src s).
Definition after {B} (r : result (B * roll)) : roll := match r with Ok (_, s) => s | Err _ => roll0 end.
Definition answer {B} (r : result (B * roll)) : option B := match r with Ok (b, _) => Some b | Err _ => None end.
Definition seen (s : roll) : option uuid := option_map cn_id (head (consent_ledger s)).
Definition row (s : roll) : uuid := match dnc_list s with e :: _ => dn_id e | [] => 0 end.
Definition suppressed_now (s : roll) : option bool :=
  option_map suppressed (answer (check_number is_space decimal 7 (Phone.points "+91 98480 22338") s)).

(** Typed in by the tenant's staff, then asked for by the person: no longer the staff's to
    remove. *)
Definition typed : roll := after (add "manual" [phone; phone; Phone.points "12"] roll0).
Definition asked : roll := after (optout (Some 1) "stop calling" typed).
Example staff_cannot_undo :
  answer (add "manual" [phone; phone; Phone.points "12"] roll0) = Some (Added 1 0 1)
  /\ map source (dnc_list typed) = [Some "manual"] /\ map source (dnc_list asked) = [Some "call_optout"]
  /\ answer (remove_entry "thinnest" no_developer sha seal 7 (row typed) typed) <> None
  /\ remove_entry "thinnest" no_developer sha seal 7 (row asked) asked = Err (Problem BusinessRule "dnc_consumer_optout")
  /\ suppressed_now asked = Some true.
Proof. vm_compute. done. Qed.

(** An opt-out on a later call is newer evidence, and refuses a restoration that had seen
    only the first. *)
Definition asked_again : roll := after (optout (Some 2) "I said stop" asked).
Example newer_refuses :
  restore (row asked) RESTORE_NEVER_ASKED (seen asked) asked_again = Err (Problem Conflict "dnc_restore_stale")
  /\ suppressed_now (after (restore (row asked) RESTORE_NEVER_ASKED (seen asked) asked)) = Some false.
Proof. vm_compute. done. Qed.

(** But two opt-outs on calls that match no call row share one evidence row: the second is
    not seen, and the restoration lifts the suppression. *)
Definition unmatched : roll := after (optout None "stop calling" roll0).
Definition unmatched_again : roll := after (optout None "I said stop" unmatched).
Example newer_unmatched_unseen :
  option_map evidence_written (answer (optout None "I said stop" unmatched)) = Some false
  /\ is_given (answer (restore (row unmatched) RESTORE_NEVER_ASKED (seen unmatched) unmatched_again)) = true
  /\ suppressed_now unmatched_again = Some true
  /\ suppressed_now (after (restore (row unmatched) RESTORE_NEVER_ASKED (seen unmatched) unmatched_again)) = Some false.
Proof. vm_compute. done. Qed.

Lemma run_ok {B} (r : result (B * roll)) : is_given (answer r) = true -> exists b, r = Ok (b, after r).
Proof. destruct r as [[b s]|]; [by exists b|done]. Qed.
Lemma typed_keys : keys_ok (dnc_list typed).
Proof. split; apply (bool_decide_unpack _); vm_compute; reflexivity. Qed.
End Example.
Import Phone.Phone.Example Example.

Abbreviation step := (dnc_step is_space decimal "thinnest" no_developer Audit.Example.keyed Audit.Example.dumps "key" sha seal redact).
Abbreviation moves := (any_step is_space decimal "thinnest" no_developer Audit.Example.keyed Audit.Example.dumps "key" sha seal redact).

Lemma optout_stands_witness :
  exists i x, optout (Some 1) "stop calling" typed = Ok (x, asked)
    /\ rtc (unrestored is_space decimal "thinnest" no_developer Audit.Example.keyed Audit.Example.dumps "key" sha seal redact i) asked asked_again
    /\ exists sc, check_number is_space decimal 7 phone asked_again = Ok (Checked true true (Some sc), asked_again).
Proof.
  destruct (run_ok (optout (Some 1) "stop calling" typed) ltac:(vm_compute; reflexivity)) as (x & E).
  destruct (run_ok (optout (Some 2) "I said stop" asked) ltac:(vm_compute; reflexivity)) as (y & E2).
  destruct (optout_stands is_space decimal "thinnest" no_developer Audit.Example.keyed Audit.Example.dumps "key" sha seal redact
    7 phone (Some 1) "engine_platform" (signal "stop calling") typed x asked typed_keys E) as (i & p & Hp & H).
  exists i, x. split; [exact E|]. assert (Hs : rtc (unrestored is_space decimal "thinnest" no_developer Audit.Example.keyed Audit.Example.dumps "key" sha seal redact i) asked asked_again).
  { apply rtc_once. exists None. split; [exact (StepOptout _ _ _ _ _ _ _ _ _ _ _ _ _ _ _ _ _ _ E2)|discriminate]. }
  split; [exact Hs|]. destruct (H _ Hs) as (_ & _ & Hc). apply Hc; [vm_compute; reflexivity|exact Hp].
Defined.

Definition restored : roll := after (restore (row asked) RESTORE_NEVER_ASKED (seen asked) asked).
Definition asked_row : entry := match dnc_list asked with e :: _ => e | [] => Entry 0 None "" "" None 0 end.
Lemma suppression_lifts_witness :
  In asked_row (dnc_list asked) /\ dnc_list restored = []
  /\ exists s1 s2 why e1, rtc moves asked s1 /\ step (Some (why, dn_id asked_row)) s1 s2 /\ rtc moves s2 restored
       /\ In e1 (dnc_list s1) /\ stays asked_row e1 /\ may_lift why s1 e1.
Proof.
  assert (Hin : In asked_row (dnc_list asked)) by (vm_compute; left; reflexivity).
  assert (Hnone : dnc_list restored = []) by (vm_compute; reflexivity).
  split; [exact Hin|]. split; [exact Hnone|].
  destruct (run_ok (restore (row asked) RESTORE_NEVER_ASKED (seen asked) asked) ltac:(vm_compute; reflexivity)) as (x & E).
  assert (K : keys_ok (dnc_list asked)) by (split; apply (bool_decide_unpack _); vm_compute; reflexivity).
  assert (Hs : rtc moves asked restored).
  { apply rtc_once. exists (Some (Attested 7 RESTORE_NEVER_ASKED (seen asked), row asked)).
    refine (StepRestore _ _ _ _ _ _ _ _ _ _ _ _ _ _ _ _ _ _ _ E). vm_compute; reflexivity. }
  destruct (suppression_lifts is_space decimal "thinnest" no_developer Audit.Example.keyed Audit.Example.dumps "key" sha seal redact
    asked restored asked_row K Hs Hin) as [H _].
  apply H. intros e' He'. rewrite Hnone in He'. destruct He'.
Defined.

End Dnc.
