(* ===== verification/Clearance.v ===== *)
(** * Who may place calls

    The paperwork the outbound gate asks for, each as the operations on its own table:
    [Kyc] (apps/api/compliance/kyc.py), the business's verified identity; [Pledge]
    (compliance/outbound_pledge.py), the no-cold-calls pledge; [Legal] (legal/catalogue.py,
    legal/service.py), the agreements accepted; [A2p] (compliance/autodialer.py), the
    declared calling numbers.  [r] is the tenant the session runs as, [n] the transaction's
    [now()]. *)

From Stdlib Require Import ZArith Lia List Ascii.
From stdpp Require Import base list strings pretty relations.
From S2P Require Import Prelude Sql PyTime AutoRecharge Account Phone.

Local Open Scope string_scope.
Local Open Scope list_scope.
Local Open Scope Z_scope.

Import AutoRecharge Account.

Definition coalesce {X} (a b : option X) : option X := match a with Some _ => a | None => b end.

Module Kyc.

Definition KYC_STATUSES : list string := ["not_started"; "submitted"; "in_review"; "verified"; "rejected"; "expired"].
Definition KYC_VERIFIED : string := "verified".
Definition KYC_ENTITY_TYPES : list string :=
  ["sole_proprietorship"; "partnership"; "llp"; "private_limited"; "public_limited"; "trust_or_society"; "huf"].
Definition KYC_DOCUMENT_KINDS : list string := ["cin"; "llpin"; "gstin"; "udyam"; "shop_establishment"; "trade_licence"].
Definition KYC_PROVIDERS : list string := ["setu"; "digio"; "cashfree"; "sandbox"; "fake"].

(** [kyc_records], its columns in groups: the evidence of a verification, the business's
    facts, the DigiLocker requirement and the owner's ID. *)
Record facts := Facts {
  entity_type : option string; document_kind : option string; document_ref : option string; signatory_name : option string;
  evidence_ref : option string; provider : option string; reference : option string; verified_name : option string }.
Record business := Business {
  kyc_path : option string; legal_business_name : option string; gst_registered : option bool; gstin : option string }.
Record digilocker := Digilocker {
  dl_required : bool; dl_reason : option string; dl_required_at : option instant; dl_required_by : option uuid;
  dl_verified_at : option instant; name_match : option bool }.
Record owner := Owner {
  owner_id_type : option string; owner_id_masked : option string; pan_checked : bool; pan_checked_at : option instant;
  pan_checked_by : option uuid }.
Record row := Row {
  ky_id : uuid; ky_tenant : uuid; ky_status : string; rejection_reason : option string; verified_by : option uuid;
  submitted_at : option instant; verified_at : option instant; ky_source : option string;
  ky_facts : facts; ky_business : business; ky_digilocker : digilocker; ky_owner : owner }.

Definition no_facts : facts := Facts None None None None None None None None.
Definition no_business : business := Business None None None None.
Definition no_digilocker : digilocker := Digilocker false None None None None None.
Definition no_owner : owner := Owner None None false None None.

(** The CHECK constraints of the table. *)
Definition one_of (l : list string) (o : option string) : bool := match o with Some x => bool_decide (x ∈ l) | None => true end.
Definition aadhaar_shaped (o : option string) : bool :=
  match o with Some x => Phone.all_chars Phone.is_digit x && (String.length x =? 12)%nat | None => false end.
Definition names_its_evidence (x : row) : bool :=
  let f := ky_facts x in
  negb (String.eqb (ky_status x) KYC_VERIFIED)
  || is_given (verified_at x)
     && ((bool_decide (ky_source x = Some "operator") && is_given (document_kind f) && is_given (document_ref f) && is_given (verified_by x))
         || (bool_decide (ky_source x = Some "aggregator") && is_given (provider f) && is_given (reference f) && is_given (verified_name f))).
Definition check (x : row) : bool :=
  let f := ky_facts x in let o := ky_owner x in
  bool_decide (ky_status x ∈ KYC_STATUSES) && one_of KYC_ENTITY_TYPES (entity_type f) && one_of KYC_DOCUMENT_KINDS (document_kind f)
  && names_its_evidence x && one_of ["operator"; "aggregator"] (ky_source x) && one_of KYC_PROVIDERS (provider f)
  && Bool.eqb (is_given (provider f)) (is_given (reference f))
  && (negb (String.eqb (ky_status x) "rejected") || is_given (rejection_reason x))
  && negb (existsb aadhaar_shaped [document_ref f; signatory_name f; evidence_ref f; reference f; verified_name f])
  && Bool.eqb (pan_checked o) (is_given (pan_checked_at o)) && Bool.eqb (pan_checked o) (is_given (pan_checked_by o))
  && negb (bool_decide (kyc_path (ky_business x) = Some "manual") && bool_decide (owner_id_type o = Some "aadhaar")
           && bool_decide (ky_status x ∈ ["submitted"; "in_review"])).

(** [UPDATE ... WHERE tenant_id = :tid], and the upsert on the tenant. *)
Definition update_row (r tenant_id : uuid) (f : row -> row) (t : list row) : result (list row) :=
  let q := mine ky_tenant r tenant_id in
  if existsb (fun x => negb (check (f x))) (select q t) then Err (CheckViolation "kyc_records") else Ok (update q f t).
Definition upsert (r tenant_id : uuid) (fresh : row) (f : row -> row) (t : list row) : result (list row) :=
  if negb (tenant_id =? r) then Err (CheckViolation "row_level_security")
  else if existsb (mine ky_tenant r tenant_id) t then update_row r tenant_id f t
  else if negb (check fresh) then Err (CheckViolation "kyc_records")
  else if existsb (by_id ky_id (ky_id fresh)) t then Err (UniqueViolation "pk_kyc_records")
  else Ok (t ++ [fresh]).

(** ** Reading *)

Definition read_kyc (r tenant_id : uuid) (t : list row) : option row := head (select (mine ky_tenant r tenant_id) t).
Definition is_verified (x : row) : bool := String.eqb (ky_status x) KYC_VERIFIED.
Definition digilocker_outstanding (x : row) : bool :=
  let d := ky_digilocker x in
  dl_required d && match dl_verified_at d, dl_required_at d with Some v, Some q => v <? q | _, _ => true end.

(** [kyc_rule] of compliance/service.py. *)
Definition kyc_rule (o : option row) : option string :=
  match o with
  | None => Some "kyc_missing"
  | Some x =>
      if String.eqb (ky_status x) "not_started" then Some "kyc_missing"
      else if negb (is_verified x) then Some "kyc_not_verified"
      else if digilocker_outstanding x then Some "kyc_digilocker_required"
      else None
  end.

(** ** Writing *)

(** What a verification is recorded with. *)
Record outcome := Outcome {
  oc_status : string; oc_facts : facts; oc_rejection : option string; oc_admin : option uuid; oc_source : string }.
Definition kept_facts (new old : facts) : facts :=
  Facts (coalesce (entity_type new) (entity_type old)) (coalesce (document_kind new) (document_kind old))
    (coalesce (document_ref new) (document_ref old)) (coalesce (signatory_name new) (signatory_name old))
    (coalesce (evidence_ref new) (evidence_ref old)) (coalesce (provider new) (provider old))
    (coalesce (reference new) (reference old)) (coalesce (verified_name new) (verified_name old)).
Definition record_kyc (r tenant_id i : uuid) (n : instant) (o : outcome) (t : list row) : result (list row) :=
  let verified := String.eqb (oc_status o) KYC_VERIFIED in
  let admin := if verified then oc_admin o else None in
  let at_ := if verified then Some n else None in
  upsert r tenant_id
    (Row i tenant_id (oc_status o) (oc_rejection o) admin (Some n) at_ (Some (oc_source o)) (oc_facts o) no_business no_digilocker no_owner)
    (fun x => Row (ky_id x) (ky_tenant x) (oc_status o) (oc_rejection o) admin (coalesce (submitted_at x) (Some n)) at_
                (Some (oc_source o)) (kept_facts (oc_facts o) (ky_facts x)) (ky_business x) (ky_digilocker x) (ky_owner x))
    t.

(** [_EDITABLE_STATUSES], of a record or of none. *)
Definition editable (o : option row) : bool :=
  match o with Some x => bool_decide (ky_status x ∈ ["not_started"; "rejected"; "expired"]) | None => true end.
Definition declared (entity name : string) (gst : bool) (gstin_ : option string) (owner_ : string) (x : row) : row :=
  let f := ky_facts x in
  Row (ky_id x) (ky_tenant x) (ky_status x) (rejection_reason x) (verified_by x) (submitted_at x) (verified_at x) (ky_source x)
    (Facts (Some entity) (document_kind f) (document_ref f) (Some owner_) (evidence_ref f) (provider f) (reference f) (verified_name f))
    (Business (kyc_path (ky_business x)) (Some name) (Some gst) (if gst then gstin_ else None)) (ky_digilocker x) (ky_owner x).
Definition blank (tenant_id i : uuid) : row :=
  Row i tenant_id "not_started" None None None None None no_facts no_business no_digilocker no_owner.
Definition save_business_details (r tenant_id i : uuid) (entity name : string) (gst : bool) (gstin_ : option string) (owner_ : string)
    (t : list row) : result (list row) :=
  let current := read_kyc r tenant_id t in
  if negb (editable current) then Err (Problem BusinessRule "kyc_details_locked")
  else if match current with
          | Some x => bool_decide (ky_source x = Some "aggregator") && negb (bool_decide (entity_type (ky_facts x) = Some entity))
          | None => false
          end
  then Err (Problem BusinessRule "entity_type_on_file_differs")
  else upsert r tenant_id (declared entity name gst gstin_ owner_ (blank tenant_id i)) (declared entity name gst gstin_ owner_) t.

Definition with_business (b : business) (x : row) : row :=
  Row (ky_id x) (ky_tenant x) (ky_status x) (rejection_reason x) (verified_by x) (submitted_at x) (verified_at x) (ky_source x)
    (ky_facts x) b (ky_digilocker x) (ky_owner x).
Definition with_digilocker (d : digilocker) (x : row) : row :=
  Row (ky_id x) (ky_tenant x) (ky_status x) (rejection_reason x) (verified_by x) (submitted_at x) (verified_at x) (ky_source x)
    (ky_facts x) (ky_business x) d (ky_owner x).
Definition with_owner (o : owner) (x : row) : row :=
  Row (ky_id x) (ky_tenant x) (ky_status x) (rejection_reason x) (verified_by x) (submitted_at x) (verified_at x) (ky_source x)
    (ky_facts x) (ky_business x) (ky_digilocker x) o.

Definition submit_for_manual_review (r tenant_id : uuid) (n : instant) (id_type masked : string) (t : list row) : result (list row) :=
  update_row r tenant_id (fun x =>
    let b := ky_business x in
    Row (ky_id x) (ky_tenant x) "submitted" None (verified_by x) (Some n) (verified_at x) (ky_source x) (ky_facts x)
      (Business (Some "manual") (legal_business_name b) (gst_registered b) (gstin b)) (ky_digilocker x)
      (Owner (Some id_type) (Some masked) false None None)) t.
Definition record_owner_pan_check (r tenant_id : uuid) (n : instant) (admin : uuid) (t : list row) : result (list row) :=
  update_row r tenant_id (fun x =>
    with_owner (Owner (owner_id_type (ky_owner x)) (owner_id_masked (ky_owner x)) true (Some n) (Some admin)) x) t.
Definition mark_digilocker_path (r tenant_id : uuid) (t : list row) : result (list row) :=
  update_row r tenant_id (fun x =>
    let b := ky_business x in
    if negb (is_given (kyc_path b)) || negb (is_verified x)
    then with_business (Business (Some "digilocker") (legal_business_name b) (gst_registered b) (gstin b)) x else x) t.

Section Names.
(** [str.lower]. *)
Context (lower : string -> string).
Definition is_lower (c : ascii) : bool := (97 <=? Phone.code c) && (Phone.code c <=? 122).
(** [re.split(r"[^a-z]+", name)]. *)
Fixpoint split_letters (cur : string) (s : string) : list string :=
  match s with
  | EmptyString => [cur]
  | String c s => if is_lower c then split_letters (cur +:+ String c "") s else cur :: split_letters "" s
  end.
Definition tokens (name : string) : list string :=
  order_by String.leb (List.filter (fun x => (1 <? String.length x)%nat) (split_letters "" (lower name))).
Definition named (o : option string) : bool := match o with Some x => negb (String.eqb x "") | None => false end.
Definition names_match (declared_ attested : option string) : option bool :=
  match declared_, attested with
  | Some d, Some a =>
      if negb (named (Some d) && named (Some a)) then None
      else
        let left := tokens d in let right := tokens a in
        if bool_decide (left = []) || bool_decide (right = []) then Some false
        else if bool_decide (left = right) then Some true
        else
          let '(shorter, longer) := if (length left <=? length right)%nat then (left, right) else (right, left) in
          Some ((2 <=? length shorter)%nat && forallb (fun x => bool_decide (x ∈ longer)) shorter)
  | _, _ => None
  end.

Definition record_digilocker_completion (r tenant_id : uuid) (n : instant) (attested : option string) (id_type : string)
    (masked : option string) (t : list row) : result (list row) :=
  let declared_ := match read_kyc r tenant_id t with Some x => signatory_name (ky_facts x) | None => None end in
  update_row r tenant_id (fun x =>
    let d := ky_digilocker x in let o := ky_owner x in
    with_owner (Owner (Some id_type) masked (pan_checked o) (pan_checked_at o) (pan_checked_by o))
      (with_digilocker (Digilocker (dl_required d) (dl_reason d) (dl_required_at d) (dl_required_by d) (Some n)
         (names_match declared_ attested)) x)) t.
End Names.

Definition required (n : instant) (reason : option string) (admin : option uuid) (x : row) : row :=
  with_digilocker (Digilocker true reason (Some n) admin (dl_verified_at (ky_digilocker x)) (name_match (ky_digilocker x))) x.
Definition set_digilocker_requirement (r tenant_id i : uuid) (n : instant) (on : bool) (reason : option string) (admin : option uuid)
    (t : list row) : result (list row) :=
  if on then upsert r tenant_id (required n reason admin (blank tenant_id i)) (required n reason admin) t
  else update_row r tenant_id (fun x =>
         with_digilocker (Digilocker false None None None (dl_verified_at (ky_digilocker x)) (name_match (ky_digilocker x))) x) t.

(** ** What passing the gate rests on *)

(** Someone verified the business, and the record says on what. *)
Record evidenced (x : row) : Prop := Evidenced {
  ev_status : ky_status x = KYC_VERIFIED;
  ev_at : is_given (verified_at x) = true;
  ev_source :
    (ky_source x = Some "operator" /\ is_given (document_kind (ky_facts x)) = true
       /\ is_given (document_ref (ky_facts x)) = true /\ is_given (verified_by x) = true)
    \/ (ky_source x = Some "aggregator" /\ is_given (provider (ky_facts x)) = true
          /\ is_given (reference (ky_facts x)) = true /\ is_given (verified_name (ky_facts x)) = true);
  (** A DigiLocker run, once required, has completed since. *)
  ev_run : dl_required (ky_digilocker x) = true ->
    exists v q, dl_verified_at (ky_digilocker x) = Some v /\ dl_required_at (ky_digilocker x) = Some q /\ q <= v }.

Definition table_ok (t : list row) : Prop := Forall (fun x => check x = true) t /\ pk_ok ky_id t /\ NoDup (map ky_tenant t).

(** A transaction on the table; [dl] when it sets or lifts a tenant's DigiLocker
    requirement or completes a run of it. *)
Inductive kyc_step (lower : string -> string) : option uuid -> list row -> list row -> Prop :=
| StepRecord r tn i n o t t' : record_kyc r tn i n o t = Ok t' -> kyc_step lower None t t'
| StepSave r tn i entity name gst gstin_ owner_ t t' :
    save_business_details r tn i entity name gst gstin_ owner_ t = Ok t' -> kyc_step lower None t t'
| StepSubmit r tn n id_type masked t t' : submit_for_manual_review r tn n id_type masked t = Ok t' -> kyc_step lower None t t'
| StepPan r tn n admin t t' : record_owner_pan_check r tn n admin t = Ok t' -> kyc_step lower None t t'
| StepPath r tn t t' : mark_digilocker_path r tn t = Ok t' -> kyc_step lower None t t'
| StepRun r tn n attested id_type masked t t' :
    record_digilocker_completion lower r tn n attested id_type masked t = Ok t' -> kyc_step lower (Some tn) t t'
| StepRequire r tn i n on reason admin t t' :
    set_digilocker_requirement r tn i n on reason admin t = Ok t' -> kyc_step lower (Some tn) t t'.

(** Each of them rewrites rows of one tenant by [f], or adds that tenant's first row. *)
Definition rewrites (tn : uuid) (P : row -> row -> Prop) (t t' : list row) : Prop :=
  exists f, (forall x, ky_id (f x) = ky_id x /\ ky_tenant (f x) = ky_tenant x)
    /\ (forall x, In x t -> check x = true -> check (f x) = true)
    /\ (forall x, In x t -> f x = x \/ (ky_tenant x = tn /\ P x (f x)))
    /\ (t' = map f t
        \/ exists y, t' = map f t ++ [y] /\ check y = true /\ ~ In (ky_id y) (map ky_id t) /\ ~ In (ky_tenant y) (map ky_tenant t)).

Lemma update_row_rewrites r tn f t t' (P : row -> row -> Prop) :
  (forall x, ky_id (f x) = ky_id x /\ ky_tenant (f x) = ky_tenant x) -> (forall x, P x (f x)) ->
  update_row r tn f t = Ok t' -> rewrites tn P t t'.
Proof.
  intros Hk HP H. unfold update_row in H. destruct (existsb _ _) eqn:E; [done|]. injection H as <-.
  exists (fun x => if mine ky_tenant r tn x then f x else x). split; [intros x; destruct (mine _ _ _ _); [apply Hk|done]|].
  split.
  - intros x Hx Hc. destruct (mine ky_tenant r tn x) eqn:M; [|done]. destruct (check (f x)) eqn:C; [done|].
    assert (existsb (fun x => negb (check (f x))) (select (mine ky_tenant r tn) t) = true); [|congruence].
    apply existsb_exists. exists x. rewrite C. split; [by apply select_In|done].
  - split; [|by left]. intros x _. destruct (mine ky_tenant r tn x) eqn:M; [right|by left].
    unfold mine in M. apply andb_true_iff in M as [_ M%Z.eqb_eq]. done.
Qed.
Lemma upsert_rewrites r tn fresh f t t' (P : row -> row -> Prop) :
  (forall x, ky_id (f x) = ky_id x /\ ky_tenant (f x) = ky_tenant x) -> (forall x, P x (f x)) -> ky_tenant fresh = tn ->
  upsert r tn fresh f t = Ok t' -> rewrites tn P t t'.
Proof.
  intros Hk HP Ht H. unfold upsert in H. destruct (negb _) eqn:Er; [done|]. apply negb_false_iff, Z.eqb_eq in Er as ->.
  destruct (existsb (mine _ _ _) _) eqn:E; [by eapply update_row_rewrites|]. destruct (negb _) eqn:C; [done|].
  destruct (existsb (by_id ky_id (ky_id fresh)) t) eqn:Ei; [done|]. injection H as <-. exists id. split; [done|]. split; [done|]. split; [by left|].
  right. exists fresh. rewrite map_id. split; [done|]. split; [by apply negb_false_iff|]. split.
  - intros (x & Hx & Hin)%in_map_iff. assert (existsb (by_id ky_id (ky_id fresh)) t = true); [|congruence].
    apply existsb_exists. exists x. split; [done|]. by apply Z.eqb_eq.
  - intros (x & Hx & Hin)%in_map_iff. assert (existsb (mine ky_tenant r r) t = true); [|congruence].
    apply existsb_exists. exists x. split; [done|]. unfold mine. rewrite Hx, Ht. by rewrite Z.eqb_refl.
Qed.

(** The DigiLocker columns, of every row but the named tenant's. *)
Definition same_run (x x' : row) : Prop := ky_digilocker x' = ky_digilocker x.
Lemma step_rewrites lower dl t t' : kyc_step lower dl t t' ->
  exists tn, rewrites tn (fun x x' => dl = Some tn \/ same_run x x') t t'.
Proof.
  assert (G : forall r tn fresh f t t' dl, (forall x, ky_id (f x) = ky_id x /\ ky_tenant (f x) = ky_tenant x) ->
    (forall x, dl = Some tn \/ same_run x (f x)) -> ky_tenant fresh = tn -> upsert r tn fresh f t = Ok t' ->
    exists tn, rewrites tn (fun x x' => dl = Some tn \/ same_run x x') t t').
  { intros r tn fresh f u u' d Hk HP Ht Hu. exists tn. by eapply upsert_rewrites. }
  assert (G' : forall r tn f t t' dl, (forall x, ky_id (f x) = ky_id x /\ ky_tenant (f x) = ky_tenant x) ->
    (forall x, dl = Some tn \/ same_run x (f x)) -> update_row r tn f t = Ok t' ->
    exists tn, rewrites tn (fun x x' => dl = Some tn \/ same_run x x') t t').
  { intros r tn f u u' d Hk HP Hu. exists tn. by eapply update_row_rewrites. }
  intros H. destruct H as [r tn i n o t t' H|r tn i entity name gst g own t t' H|r tn n id_type masked t t' H|r tn n admin t t' H
    |r tn t t' H|r tn n attested id_type masked t t' H|r tn i n on reason admin t t' H].
  - unfold record_kyc in H. eapply G; [..|exact H]; [done|by right|done].
  - unfold save_business_details in H. destruct (negb _); [done|]. destruct (match read_kyc _ _ _ with Some _ => _ | None => _ end); [done|].
    eapply G; [..|exact H]; [done|by right|done].
  - eapply G'; [..|exact H]; [done|by right].
  - eapply G'; [..|exact H]; [done|by right].
  - eapply G'; [..|exact H]; [intros x; simpl; by destruct (_ || _)|right; unfold same_run; by destruct (_ || _)].
  - eapply G'; [..|exact H]; [done|by left].
  - unfold set_digilocker_requirement in H. destruct on; [eapply G; [..|exact H]; [done|by left|done]|eapply G'; [..|exact H]; [done|by left]].
Qed.

Lemma rewrites_ok tn P t t' : table_ok t -> rewrites tn P t t' -> table_ok t'.
Proof.
  intros (C & K & N) (f & Hk & Hc & _ & Ht).
  assert (Cf : Forall (fun x => check x = true) (map f t)).
  { rewrite Forall_forall in *. intros y (x & -> & Hx)%list_elem_of_fmap. apply Hc; [by apply list_elem_of_In|by apply C]. }
  assert (Ki : map ky_id (map f t) = map ky_id t) by (rewrite map_map; apply map_ext; intros; apply Hk).
  assert (Kt : map ky_tenant (map f t) = map ky_tenant t) by (rewrite map_map; apply map_ext; intros; apply Hk).
  destruct Ht as [->|(y & -> & Hy & Hi & Hn)].
  - split; [done|]. unfold pk_ok. by rewrite Ki, Kt.
  - split; [by apply Forall_app; split; [|constructor]|]. unfold pk_ok. rewrite !map_app, Ki, Kt.
    split; apply NoDup_app; split; try done; (split; [|apply NoDup_singleton]); intros z Hz Hz';
      apply list_elem_of_singleton in Hz' as ->; apply list_elem_of_In in Hz; done.
Qed.

Lemma read_kyc_own r tn t x : table_ok t -> In x t -> ky_tenant x = tn -> r = tn -> read_kyc r tn t = Some x.
Proof.
  intros (_ & _ & N) Hx Ht ->. unfold read_kyc.
  destruct (select_by_id ky_tenant t tn (mine ky_tenant tn tn) N) as [E|(y & E & Hy & My)].
  - intros y. unfold mine. intros [H _]%andb_true_iff. by apply Z.eqb_eq in H.
  - assert (In x []) as []. rewrite <- E. apply select_In. split; [done|]. unfold mine. by rewrite Ht, Z.eqb_refl.
  - rewrite E. simpl. f_equal. unfold mine in My. apply andb_true_iff in My as [My%Z.eqb_eq _].
    eapply (pk_unique ky_tenant); [exact N|done|done|congruence].
Qed.
Lemma passes_evidenced x : check x = true -> kyc_rule (Some x) = None -> evidenced x.
Proof.
  intros C H. unfold kyc_rule in H. destruct (String.eqb _ _); [done|]. destruct (is_verified x) eqn:V; [|done]. cbn [negb] in H.
  destruct (digilocker_outstanding x) eqn:D; [done|]. pose proof V as V'. apply String.eqb_eq in V'.
  assert (E : names_its_evidence x = true).
  { unfold check in C. rewrite !andb_true_iff in C. tauto. }
  unfold names_its_evidence in E. unfold is_verified in V. rewrite V in E. cbn [negb orb] in E.
  apply andb_true_iff in E as [Ea E]. constructor; [done|done| |].
  - apply orb_true_iff in E as [E|E]; rewrite !andb_true_iff, bool_decide_eq_true in E; [left|right]; tauto.
  - intros Hq. unfold digilocker_outstanding in D. rewrite Hq in D. cbn [andb] in D.
    destruct (dl_verified_at _) as [v|]; [|done]. destruct (dl_required_at _) as [q|]; [|done].
    exists v, q. split; [done|]. split; [done|lia].
Qed.

(** A tenant held by a requirement: no run of it has completed since it was set. *)
Definition held (tn : uuid) (t : list row) : Prop := exists x, In x t /\ ky_tenant x = tn /\ digilocker_outstanding x = true.
Lemma held_refused tn t : table_ok t -> held tn t -> kyc_rule (read_kyc tn tn t) <> None.
Proof.
  intros Hok (x & Hx & Ht & Ho). rewrite (read_kyc_own tn tn t x Hok Hx Ht eq_refl). unfold kyc_rule.
  rewrite Ho. by destruct (String.eqb _ _), (is_verified x).
Qed.
Lemma held_step lower dl tn t t' : kyc_step lower dl t t' -> dl <> Some tn -> held tn t -> held tn t'.
Proof.
  intros H Hd (x & Hx & Ht & Ho). apply step_rewrites in H as (u & f & Hk & _ & Hf & Htab).
  exists (f x). split.
  { destruct Htab as [->|(y & -> & _)]; [by apply in_map|]. apply in_or_app. left. by apply in_map. }
  split; [by rewrite (proj2 (Hk x))|]. destruct (Hf x Hx) as [->|(E & [->|S])]; [done|congruence|].
  unfold digilocker_outstanding in *. by rewrite S.
Qed.
Lemma require_holds tn i n reason admin t t' : table_ok t ->
  (forall x v, In x t -> ky_tenant x = tn -> dl_verified_at (ky_digilocker x) = Some v -> v < n) ->
  set_digilocker_requirement tn tn i n true reason admin t = Ok t' -> held tn t'.
Proof.
  intros Hok Hv H. unfold set_digilocker_requirement, upsert in H. rewrite Z.eqb_refl in H. cbn [negb] in H.
  destruct (existsb _ _) eqn:E.
  - unfold update_row in H. destruct (existsb _ (select _ _)); [done|]. injection H as <-.
    apply existsb_exists in E as (x & Hx & M). exists (required n reason admin x). split.
    { apply update_In. exists x. by rewrite M. }
    unfold mine in M. apply andb_true_iff in M as [M%Z.eqb_eq _]. split; [done|].
    unfold digilocker_outstanding. simpl. destruct (dl_verified_at _) as [v|] eqn:Ev; [|done]. specialize (Hv x v Hx M Ev). lia.
  - destruct (check (required n reason admin (blank tn i))); [|done]. cbn [negb] in H. destruct (existsb (by_id _ _) _); [done|]. injection H as <-.
    eexists. split; [apply in_or_app; right; by left|]. done.
Qed.

(** C10. What the identity check lets through.  Whatever is recorded in the table of
    verifications, a business passes only on a record that names its evidence: who checked
    which document, or which provider attested which name under which reference; and, where
    an operator required a DigiLocker run, one that completed since.  Once the requirement
    is set, nothing but a run of that business or the operator lifting it lets it through. *)
Theorem identity_gate lower t t' : table_ok t -> rtc (fun t t' => exists dl, kyc_step lower dl t t') t t' ->
  table_ok t'
  /\ (forall tn, kyc_rule (read_kyc tn tn t') = None -> exists x, read_kyc tn tn t' = Some x /\ ky_tenant x = tn /\ evidenced x)
  /\ (forall tn i n reason admin t1 t2, 
        (forall x v, In x t' -> ky_tenant x = tn -> dl_verified_at (ky_digilocker x) = Some v -> v < n) ->
        set_digilocker_requirement tn tn i n true reason admin t' = Ok t1 ->
        rtc (fun t t' => exists dl, kyc_step lower dl t t' /\ dl <> Some tn) t1 t2 ->
        kyc_rule (read_kyc tn tn t2) <> None).
Proof.
  intros Hok Hs. assert (S : forall dl t t', table_ok t -> kyc_step lower dl t t' -> table_ok t').
  { intros dl u u' Hu H. apply step_rewrites in H as (tn & H). by eapply rewrites_ok. }
  assert (Hok' : table_ok t'). { induction Hs as [|t t1 t' [dl H] _ IH]; [done|]. apply IH. by eapply S. }
  split; [done|]. split.
  - intros tn H. destruct (read_kyc tn tn t') as [x|] eqn:E; [|done]. exists x. split; [done|].
    unfold read_kyc in E. destruct (select _ _) as [|y l] eqn:El; [done|]. injection E as ->.
    assert (Hin : In x (select (mine ky_tenant tn tn) t')) by (rewrite El; by left).
    apply select_In in Hin as [Hin M]. unfold mine in M. apply andb_true_iff in M as [M%Z.eqb_eq _]. split; [done|].
    apply passes_evidenced; [|done]. destruct Hok' as (C & _). rewrite Forall_forall in C. apply C. by apply list_elem_of_In.
  - intros tn i n reason admin t1 t2 Hv H Hs2. pose proof (require_holds tn i n reason admin t' t1 Hok' Hv H) as Hh.
    assert (Hok1 : table_ok t1) by (eapply S; [exact Hok'|by eapply StepRequire]). clear - S Hok1 Hh Hs2.
    induction Hs2 as [t1|t1 t3 t2 (dl & H & Hd) _ IH]; [by apply held_refused|]. apply IH; [by eapply held_step|by eapply S].
Qed.

(** ** An example *)
Module Example.
Definition lower (s : string) : string := s.
Definition after (r : result (list row)) : list row := match r with Ok t => t | Err _ => [] end.
Definition facts0 : facts := Facts None (Some "gstin") (Some "29ABCDE1234F1Z5") None None None None None.
Definition filed : list row := after (save_business_details 7 7 1 "private_limited" "Acme" true (Some "29ABCDE1234F1Z5") "ravi kumar" []).
Definition verified : list row := after (record_kyc 7 7 2 100 (Outcome "verified" facts0 None (Some 3) "operator") filed).
Definition asked : list row := after (set_digilocker_requirement 7 7 4 200 true (Some "again") (Some 3) verified).
Definition ran : list row := after (record_digilocker_completion lower 7 7 300 (Some "kumar ravi s") "aadhaar" None asked).
Example gate : map (fun t => kyc_rule (read_kyc 7 7 t)) [[]; filed; verified; asked; ran]
  = [Some "kyc_missing"; Some "kyc_missing"; None; Some "kyc_digilocker_required"; None].
Proof. vm_compute. done. Qed.
Example locked_once_verified :
  save_business_details 7 7 5 "llp" "Other" false None "someone else" verified = Err (Problem BusinessRule "kyc_details_locked")
  /\ record_kyc 7 7 2 100 (Outcome "verified" no_facts None (Some 3) "operator") filed = Err (CheckViolation "kyc_records")
  /\ map (fun x => name_match (ky_digilocker x)) ran = [Some true].
Proof. vm_compute. done. Qed.
Lemma verified_ok : table_ok verified.
Proof. split; [|split]; apply (bool_decide_unpack _); vm_compute; reflexivity. Qed.
End Example.
Import Example.

Lemma identity_gate_witness :
  table_ok verified /\ (exists x, read_kyc 7 7 verified = Some x /\ ky_tenant x = 7 /\ evidenced x)
  /\ kyc_rule (read_kyc 7 7 asked) <> None.
Proof.
  destruct (identity_gate lower verified verified verified_ok (rtc_refl _ _)) as (H1 & H2 & H3).
  split; [exact H1|]. split; [apply H2; vm_compute; reflexivity|].
  apply (H3 7 4 200 (Some "again") (Some 3) asked asked); [|vm_compute; reflexivity|apply rtc_refl].
  intros x v Hx _ Hv. vm_compute in Hx. destruct Hx as [<-|[]]. discriminate.
Defined.

End Kyc.

(** ** The newest row *)

Section Newest.
Context {R : Type} (le : R -> R -> bool).
Context (le_total : forall x y, le x y = true \/ le y x = true).
Context (le_trans : forall x y z, le x y = true -> le y z = true -> le x z = true).

Lemma head_first t m x : head (order_by le t) = Some m -> In x t -> le m x = true.
Proof.
  intros H Hx. pose proof (order_by_sorted le le_total le_trans t) as S. apply order_by_In with (le := le) in Hx.
  destruct (order_by le t) as [|y l]; [done|]. injection H as ->. inversion_clear S as [|? ? _ F].
  destruct Hx as [->|Hx]; [by destruct (le_total x x)|]. rewrite Forall_forall in F. apply F. by apply list_elem_of_In.
Qed.
Lemma head_insert x l : head (insert_by le x l) = match head l with Some h => if le x h then Some x else Some h | None => Some x end.
Proof. destruct l as [|h l]; [done|]. simpl. by destruct (le x h). Qed.
(** A row added is the newest, or leaves the newest as it was. *)
Lemma head_snoc t y : head (order_by le (t ++ [y])) = Some y \/ head (order_by le (t ++ [y])) = head (order_by le t).
Proof.
  induction t as [|x t IH]; [by left|]. simpl. rewrite !head_insert. destruct IH as [E|E]; [|by right; rewrite E].
  rewrite E. destruct (le x y) eqn:Ex; [right|by left]. destruct (head (order_by le t)) as [h|] eqn:Eh; [|done].
  assert (le y h = true) as Hy.
  { apply (head_first (t ++ [y]) y h E). apply in_or_app. left. apply (order_by_In le). destruct (order_by le t); [done|].
    injection Eh as ->. by left. }
  by rewrite (le_trans x y h Ex Hy).
Qed.
Lemma head_newest t y : (forall x, In x t -> le x y = false) -> head (order_by le (t ++ [y])) = Some y.
Proof.
  induction t as [|x t IH]; [done|]. intros H. simpl. rewrite head_insert, IH by (intros; apply H; by right).
  by rewrite H by (by left).
Qed.
End Newest.

Lemma nodup_map_inj {X Y} (f : X -> Y) l x y : NoDup (map f l) -> In x l -> In y l -> f x = f y -> x = y.
Proof.
  induction l as [|z l IH]; [done|]. simpl. intros [Hn Hl]%NoDup_cons.
  assert (Hz : forall w, In w l -> f z <> f w).
  { intros w Hw E. apply Hn, list_elem_of_In. rewrite E. by apply in_map. }
  intros [->|Hx] [->|Hy] E; [done|by destruct (Hz _ Hy)|by destruct (Hz _ Hx)|by apply IH].
Qed.
Lemma select_snoc {R} (p : R -> bool) t y : select p (t ++ [y]) = select p t ++ (if p y then [y] else []).
Proof. unfold select. rewrite List.filter_app. simpl. by destruct (p y). Qed.

Module Pledge.

Definition PLEDGE_VERSION : Z := 2.
(** [outbound_pledge_acceptances]: append-only. *)
Record row := Row {
  pl_id : uuid; pl_tenant : uuid; pledge_version : Z; pl_sha256 : string; pl_by : uuid; pl_ip : option string;
  pl_accepted_at : instant; pl_created_at : instant }.
Definition newest (x y : row) : bool :=
  (pl_accepted_at y <? pl_accepted_at x) || ((pl_accepted_at y =? pl_accepted_at x) && (pl_created_at y <=? pl_created_at x)).

Definition read_pledge (r tenant_id : uuid) (t : list row) : option row :=
  head (order_by newest (select (mine pl_tenant r tenant_id) t)).
Definition is_current (o : option row) : bool := match o with Some x => pledge_version x =? PLEDGE_VERSION | None => false end.
Definition pledge_blocker (r tenant_id : uuid) (t : list row) : option string :=
  let o := read_pledge r tenant_id t in
  if negb (is_given o) then Some "outbound_pledge_missing"
  else if negb (is_current o) then Some "outbound_pledge_outdated" else None.

(** [text_sha256]: SHA-256 of the pledge's words. *)
Definition accept_pledge (text_sha256 : string) (r tenant_id i user : uuid) (n : instant) (version : Z) (sha : string)
    (ip : option string) (t : list row) : result (list row) :=
  if negb (version =? PLEDGE_VERSION) || negb (String.eqb sha text_sha256) then Err (Problem BusinessRule "outbound_pledge_version_stale")
  else if negb (tenant_id =? r) then Err (CheckViolation "row_level_security")
  else if existsb (by_id pl_id i) t then Err (UniqueViolation "pk_outbound_pledge_acceptances")
  else Ok (t ++ [Row i tenant_id version sha user ip n n]).
End Pledge.

Module Legal.

Record Revision := Rev { revision : string; material : bool }.
Record LegalDocumentSpec := Spec { slug : string; blocking : bool; revisions : list Revision }.
Definition PENDING_LEGAL_REVIEW : bool := false.
Definition PRE_REVIEW_SUFFIX : string := "+pre-review".
(** Revisions "1", "2", ..., by whether each is material. *)
Definition numbered (l : list bool) : list Revision := imap (fun n m => Rev (pretty (N.of_nat (S n))) m) l.
Definition DOCUMENTS : list LegalDocumentSpec :=
  [
   Spec "privacy" true (numbered [true; true; true; false; false; true; true; true; true; false; false; true; true; true; true; false; true; false; false; false; true; false; true; true; false; false; false]);
   Spec "terms" true (numbered [true; true; true; false; false; true; true; false; false; true; false; true; true; true; false; false; true; true; true]);
   Spec "acceptable-use" true (numbered [true; false; true; true; false; false; false]);
   Spec "dpa" true (numbered [true; true; true; false; false; true; true; false; false; false; true; true; true; false; true; true; false; false]);
   Spec "subprocessors" false (numbered [true; true; true; true; true; true; true; false; false; false; true; true; false; true; true; true; true; false; false; true; false; true; true; false; false]);
   Spec "refunds" false (numbered [true; false; false; true; true; true; true]);
   Spec "grievance" false (numbered [true; false; false]);
   Spec "cookies" false (numbered [true; false; false; false; false; false])].

Definition version_of (rev : string) : string := if PENDING_LEGAL_REVIEW then rev +:+ PRE_REVIEW_SUFFIX else rev.
Definition current_version (d : LegalDocumentSpec) : string :=
  version_of (match List.last (map revision (revisions d)) "" with x => x end).
Definition ends_with (suffix s : string) : bool :=
  (String.length suffix <=? String.length s)%nat
  && String.eqb (String.substring (String.length s - String.length suffix) (String.length suffix) s) suffix.
Definition split (version : string) : string * bool :=
  if ends_with PRE_REVIEW_SUFFIX version
  then (String.substring 0 (String.length version - String.length PRE_REVIEW_SUFFIX) version, true) else (version, false).
Definition is_provisional (version : string) : bool := snd (split version).
Definition BLOCKING_SLUGS : list string := map slug (List.filter blocking DOCUMENTS).
Definition document (x : string) : option LegalDocumentSpec := find (fun d => String.eqb (slug d) x) DOCUMENTS.

(** What follows a revision in the document's history, if it is there. *)
Fixpoint after_revision (rev : string) (l : list Revision) : option (list Revision) :=
  match l with [] => None | x :: l => if String.eqb (revision x) rev then Some l else after_revision rev l end.
Definition reacceptance_required (d : LegalDocumentSpec) (accepted : option string) : bool :=
  match accepted with
  | None => true
  | Some v =>
      if String.eqb v (current_version d) then false
      else
        let '(rev, provisional) := split v in
        if negb (Bool.eqb provisional PENDING_LEGAL_REVIEW) then true
        else match after_revision rev (revisions d) with None => true | Some later => existsb material later end
  end.
Fixpoint index_of (rev : string) (l : list Revision) : option nat :=
  match l with [] => None | x :: l => if String.eqb (revision x) rev then Some 0%nat else option_map S (index_of rev l) end.
Definition reached_revision (d : LegalDocumentSpec) (accepted rev : string) : bool :=
  match index_of (fst (split accepted)) (revisions d), index_of rev (revisions d) with
  | Some a, Some b => (b <=? a)%nat
  | _, _ => false
  end.
Definition changed_since (d : LegalDocumentSpec) (accepted : option string) : bool :=
  match accepted with Some v => negb (String.eqb v (current_version d)) | None => false end.

(** [legal_acceptances]: append-only. *)
Record row := Row {
  la_id : uuid; la_tenant : uuid; document_slug : string; document_version : string; statement_version : string;
  accepted_by : uuid; la_accepted_at : instant; la_created_at : instant }.
Definition newest (x y : row) : bool :=
  (la_accepted_at y <? la_accepted_at x) || ((la_accepted_at y =? la_accepted_at x) && (la_created_at y <=? la_created_at x)).
(** [DISTINCT ON (document_slug)]. *)
Definition of_document (r tenant_id : uuid) (sl : string) (x : row) : bool :=
  mine la_tenant r tenant_id x && String.eqb (document_slug x) sl.
Definition latest_acceptance (r tenant_id : uuid) (t : list row) (sl : string) : option row :=
  head (order_by newest (select (of_document r tenant_id sl) t)).
Definition outstanding_slugs (accepted : string -> option row) : list string :=
  map slug (List.filter (fun d => blocking d && reacceptance_required d (option_map document_version (accepted (slug d)))) DOCUMENTS).
Definition AGREEMENTS_RULE : string := "agreements_not_accepted".
Definition agreements_blocker (r tenant_id : uuid) (t : list row) : option string :=
  if bool_decide (outstanding_slugs (latest_acceptance r tenant_id t) = []) then None else Some AGREEMENTS_RULE.
(** [assert_agreements_accepted]. *)
Definition assert_agreements_accepted (r tenant_id : uuid) (t : list row) : result unit :=
  match agreements_blocker r tenant_id t with Some rule => Err (Problem Conflict rule) | None => Ok tt end.

Definition STATEMENT_REVISION : string := "1".
(** [record_acceptance], on its table: the table after, and whether the acceptance cleared
    the last agreement outstanding. *)
Definition record_acceptance (r tenant_id i user : uuid) (n : instant) (sl version statement : string) (t : list row) :
    result (list row * bool) :=
  match document sl with
  | None => Err (Problem Validation "legal_document_not_acceptable")
  | Some d =>
      if negb (bool_decide (sl ∈ BLOCKING_SLUGS)) then Err (Problem Validation "legal_document_not_acceptable")
      else if negb (String.eqb version (current_version d)) then Err (Problem BusinessRule "legal_version_not_current")
      else if negb (String.eqb statement (version_of STATEMENT_REVISION)) then Err (Problem BusinessRule "legal_statement_not_current")
      else if negb (tenant_id =? r) then Err (CheckViolation "row_level_security")
      else if existsb (by_id la_id i) t then Err (UniqueViolation "pk_legal_acceptances")
      else
        let t' := t ++ [Row i tenant_id sl version statement user n n] in
        Ok (t', is_given (agreements_blocker r tenant_id t) && negb (is_given (agreements_blocker r tenant_id t')))
  end.

(** ** What the agreements rest on *)

Lemma acceptances_total x y : newest x y = true \/ newest y x = true.
Proof. unfold newest. lia. Qed.
Lemma acceptances_trans x y z : newest x y = true -> newest y z = true -> newest x z = true.
Proof. unfold newest. lia. Qed.

(** The organisation's latest acceptance of the document is of a revision no material one
    has followed. *)
Definition settled (r tenant_id : uuid) (t : list row) (d : LegalDocumentSpec) : Prop :=
  exists x, latest_acceptance r tenant_id t (slug d) = Some x /\ la_tenant x = tenant_id /\ document_slug x = slug d
    /\ (document_version x = current_version d
        \/ exists later, after_revision (document_version x) (revisions d) = Some later /\ Forall (fun v => material v = false) later).

Lemma agreements_spec r tn t : agreements_blocker r tn t = None <->
  forall d, In d DOCUMENTS -> blocking d = true -> reacceptance_required d (option_map document_version (latest_acceptance r tn t (slug d))) = false.
Proof.
  unfold agreements_blocker. case_bool_decide as E; split; intros H; try done.
  - intros d Hd Hb. destruct (reacceptance_required _ _) eqn:Er; [|done].
    assert (In (slug d) (outstanding_slugs (latest_acceptance r tn t))); [|by rewrite E in *].
    apply in_map, filter_In. by rewrite Hb, Er.
  - exfalso. apply E. unfold outstanding_slugs. destruct (List.filter _ _) as [|d l] eqn:El; [done|].
    assert (Hd : In d (d :: l)) by (by left). rewrite <- El in Hd. apply filter_In in Hd as [Hd Hp]. apply andb_true_iff in Hp as [Hb Hr].
    by rewrite H in Hr.
Qed.
Lemma not_required_settled r tn t d :
  reacceptance_required d (option_map document_version (latest_acceptance r tn t (slug d))) = false -> settled r tn t d.
Proof.
  intros H. destruct (latest_acceptance r tn t (slug d)) as [x|] eqn:E; [|done]. exists x. split; [done|].
  assert (Hx : of_document r tn (slug d) x = true).
  { unfold latest_acceptance in E. destruct (order_by _ _) as [|y l] eqn:El; [done|]. injection E as ->.
    assert (Hin : In x (order_by newest (select (of_document r tn (slug d)) t))) by (rewrite El; by left).
    by apply order_by_In, select_In in Hin as [_ Hp]. }
  unfold of_document, mine in Hx. rewrite !andb_true_iff in Hx. destruct Hx as [[_ Ht%Z.eqb_eq] Hs%String.eqb_eq].
  split; [done|]. split; [done|]. simpl in H. destruct (String.eqb _ _) eqn:Ev; [left; by apply String.eqb_eq|right].
  unfold split in H. destruct (ends_with _ _); simpl in H; [done|]. destruct (after_revision _ _) as [later|]; [|done].
  exists later. split; [done|]. rewrite Forall_forall. intros v Hv. destruct (material v) eqn:Em; [|done].
  assert (existsb material later = true); [|congruence]. apply existsb_exists. exists v. split; [by apply list_elem_of_In|done].
Qed.
Definition plain (d : LegalDocumentSpec) : bool := forallb (fun v => negb (snd (split (revision v)))) (revisions d).
Lemma after_revision_In rev l later : after_revision rev l = Some later -> exists v, In v l /\ revision v = rev.
Proof.
  induction l as [|v l IH]; simpl; [done|]. destruct (String.eqb _ _) eqn:E.
  - intros _. exists v. split; [by left|by apply String.eqb_eq].
  - intros (w & Hw & Er)%IH. exists w. split; [by right|done].
Qed.
Lemma settled_not_required r tn t d : In d DOCUMENTS -> settled r tn t d ->
  reacceptance_required d (option_map document_version (latest_acceptance r tn t (slug d))) = false.
Proof.
  intros Hd (x & -> & _ & _ & Hx). simpl. destruct (String.eqb _ _) eqn:E; [done|].
  destruct Hx as [Hx|(later & Hl & Hf)]; [apply String.eqb_neq in E; done|].
  assert (Hp : snd (split (document_version x)) = false).
  { apply after_revision_In in Hl as (v & Hv & <-). assert (A : forallb plain DOCUMENTS = true) by (vm_compute; reflexivity).
    rewrite forallb_forall in A. specialize (A d Hd). unfold plain in A. rewrite forallb_forall in A. specialize (A v Hv).
    by destruct (snd _). }
  assert (Hr : fst (split (document_version x)) = document_version x)
    by (unfold split in *; destruct (ends_with _ _); [discriminate Hp|done]).
  destruct (split (document_version x)) as [rev b]. simpl in Hp, Hr. subst rev b. simpl. rewrite Hl.
  destruct (existsb material later) eqn:Em; [|done]. apply existsb_exists in Em as (v & Hv & Em).
  rewrite Forall_forall in Hf. rewrite Hf in Em; [done|by apply list_elem_of_In].
Qed.
Lemma document_slug_of sl d : document sl = Some d -> In d DOCUMENTS /\ slug d = sl.
Proof. unfold document. intros H. apply find_some in H as [H1 H2]. by apply String.eqb_eq in H2. Qed.
Lemma slugs_differ d e : In d DOCUMENTS -> In e DOCUMENTS -> slug d = slug e -> d = e.
Proof.
  intros Hd He E. apply (nodup_map_inj slug DOCUMENTS); [|done..]. apply (bool_decide_unpack _). vm_compute. reflexivity.
Qed.

Definition accept_step (t t' : list row) : Prop :=
  exists r tn i user n sl version statement b, record_acceptance r tn i user n sl version statement t = Ok (t', b).
Lemma acceptance_spec r tn i user n sl version statement t t' b :
  record_acceptance r tn i user n sl version statement t = Ok (t', b) ->
  exists d, In d DOCUMENTS /\ slug d = sl /\ blocking d = true /\ version = current_version d /\ tn = r
    /\ t' = t ++ [Row i tn sl version statement user n n].
Proof.
  intros H. unfold record_acceptance in H. destruct (document sl) as [d|] eqn:Ed; [|done]. apply document_slug_of in Ed as [Hd Hs].
  destruct (negb (bool_decide _)) eqn:Eb; [done|]. destruct (negb (String.eqb version _)) eqn:Ev; [done|].
  destruct (negb (String.eqb statement _)); [done|]. destruct (negb (tn =? r)) eqn:Er; [done|].
  destruct (existsb _ t); [done|]. injection H as <- _. exists d. apply negb_false_iff, bool_decide_eq_true in Eb.
  apply negb_false_iff, String.eqb_eq in Ev. apply negb_false_iff, Z.eqb_eq in Er. repeat (split; [done|]).
  split; [|done]. unfold BLOCKING_SLUGS in Eb. apply list_elem_of_In, in_map_iff in Eb as (e & He & Hin).
  apply filter_In in Hin as [Hin Hb]. by rewrite (slugs_differ d e) by congruence.
Qed.
Lemma latest_snoc r tn t y sl :
  latest_acceptance r tn (t ++ [y]) sl = latest_acceptance r tn t sl
  \/ (of_document r tn sl y = true /\ latest_acceptance r tn (t ++ [y]) sl = Some y).
Proof.
  unfold latest_acceptance. rewrite select_snoc. destruct (of_document r tn sl y); [|left; by rewrite app_nil_r].
  destruct (head_snoc newest acceptances_total acceptances_trans (select (of_document r tn sl) t) y) as [E|E]; [by right|by left].
Qed.
Lemma current_not_required d : reacceptance_required d (Some (current_version d)) = false.
Proof. unfold reacceptance_required. by rewrite String.eqb_refl. Qed.
Lemma accept_keeps_clear r tn t t' : accept_step t t' -> agreements_blocker r tn t = None -> agreements_blocker r tn t' = None.
Proof.
  intros (r' & tn' & i & user & n & sl & version & statement & b & H) Hb. apply acceptance_spec in H as (e & He & Hs & _ & -> & -> & ->).
  rewrite agreements_spec in *. intros d Hd Hbl. destruct (latest_snoc r tn t (Row i r' sl (current_version e) statement user n n) (slug d)) as [E|[Ho E]].
  - rewrite E. by apply Hb.
  - rewrite E. unfold of_document in Ho. apply andb_true_iff in Ho as [_ Ho%String.eqb_eq]. simpl in Ho.
    rewrite (slugs_differ d e) by congruence. apply current_not_required.
Qed.

(** C11. The agreements.  An organisation passes exactly when, of every document that blocks,
    its latest acceptance is of the current revision or of one that only immaterial
    revisions have followed; a document accepted since the others of its rows is
    outstanding no more; and an organisation that passes goes on passing whatever
    acceptances anyone records. *)
Theorem agreements_stand r tn t :
  (agreements_blocker r tn t = None <-> forall d, In d DOCUMENTS -> blocking d = true -> settled r tn t d)
  /\ (forall i user n sl statement d t' b, document sl = Some d ->
        (forall x, In x t -> la_tenant x = tn -> document_slug x = sl -> la_accepted_at x < n) ->
        record_acceptance r tn i user n sl (current_version d) statement t = Ok (t', b) ->
        ~ In sl (outstanding_slugs (latest_acceptance r tn t'))
        /\ (forall sl', In sl' (outstanding_slugs (latest_acceptance r tn t')) -> In sl' (outstanding_slugs (latest_acceptance r tn t))))
  /\ (agreements_blocker r tn t = None -> forall t', rtc accept_step t t' -> agreements_blocker r tn t' = None).
Proof.
  split; [|split].
  - rewrite agreements_spec. split; intros H d Hd Hb.
    + by apply not_required_settled, H.
    + by apply settled_not_required, H.
  - intros i user n sl statement d t' b Hdoc Hn H. apply document_slug_of in Hdoc as [Hd Hsl].
    apply acceptance_spec in H as (e & He & Hs & _ & _ & -> & ->). rewrite (slugs_differ d e) by congruence.
    set (y := Row i r sl (current_version e) statement user n n).
    assert (Ey : latest_acceptance r r (t ++ [y]) sl = Some y).
    { unfold latest_acceptance. rewrite select_snoc. unfold of_document at 2, mine. simpl. rewrite Z.eqb_refl, String.eqb_refl. simpl.
      apply head_newest. intros x (Hx & Hp)%select_In. unfold of_document, mine in Hp. rewrite !andb_true_iff in Hp.
      destruct Hp as [[_ Ht%Z.eqb_eq] Hp%String.eqb_eq]. specialize (Hn x Hx Ht Hp). unfold newest. simpl. lia. }
    split.
    + intros (d' & E & Hin)%in_map_iff. apply filter_In in Hin as [Hin Hp]. apply andb_true_iff in Hp as [_ Hp].
      rewrite E, Ey in Hp. cbn [option_map] in Hp. unfold y in Hp. cbn [document_version] in Hp. rewrite (slugs_differ d' e) in Hp by congruence. rewrite current_not_required in Hp. done.
    + intros sl' (d' & <- & Hin)%in_map_iff. apply filter_In in Hin as [Hin Hp]. apply andb_true_iff in Hp as [Hb Hp].
      apply in_map, filter_In. split; [done|]. rewrite Hb. destruct (latest_snoc r r t y (slug d')) as [E|[Ho E]]; [by rewrite E in Hp|].
      rewrite E in Hp. unfold of_document in Ho. apply andb_true_iff in Ho as [_ Ho%String.eqb_eq].
      cbn [option_map] in Hp. unfold y in Hp, Ho. cbn [document_version document_slug] in Hp, Ho. rewrite (slugs_differ d' e) in Hp by congruence. rewrite current_not_required in Hp. done.
  - intros H t' Hs. induction Hs as [|t t1 t' Hst _ IH]; [done|]. apply IH. by eapply accept_keeps_clear.
Qed.

(** ** An example *)
Module Example.
Definition accept (sl : string) (n : instant) (t : list row) : list row :=
  match document sl with
  | Some d => match record_acceptance 7 7 n 1 n sl (current_version d) "1" t with Ok (t', _) => t' | Err _ => t end
  | None => t
  end.
Definition three : list row := accept "dpa" 3 (accept "terms" 2 (accept "privacy" 1 [])).
Definition four : list row := accept "acceptable-use" 4 three.
Definition old (version : string) : list row := four ++ [Row 5 7 "terms" version "1" 1 5 5].
Example outstanding :
  outstanding_slugs (latest_acceptance 7 7 []) = ["privacy"; "terms"; "acceptable-use"; "dpa"]
  /\ outstanding_slugs (latest_acceptance 7 7 three) = ["acceptable-use"]
  /\ agreements_blocker 7 7 four = None /\ agreements_blocker 8 8 four = Some AGREEMENTS_RULE
  /\ outstanding_slugs (latest_acceptance 7 7 (old "18")) = ["terms"]
  /\ outstanding_slugs (latest_acceptance 7 7 (old "19+pre-review")) = ["terms"]
  /\ outstanding_slugs (latest_acceptance 7 7 (four ++ [Row 5 7 "privacy" "24" "1" 1 5 5])) = []
  /\ outstanding_slugs (latest_acceptance 7 7 (four ++ [Row 5 7 "privacy" "23" "1" 1 5 5])) = ["privacy"].
Proof. vm_compute. done. Qed.
Lemma fourth : exists t' b, record_acceptance 7 7 4 1 4 "acceptable-use" "7" "1" three = Ok (t', b) /\ t' = four.
Proof. vm_compute. by do 2 eexists. Qed.
End Example.
Import Example.

Lemma agreements_stand_witness :
  ~ In "acceptable-use" (outstanding_slugs (latest_acceptance 7 7 four))
  /\ (forall t', rtc accept_step four t' -> agreements_blocker 7 7 t' = None).
Proof.
  split.
  - destruct fourth as (t' & b & E & ->). destruct (document "acceptable-use") as [d|] eqn:Ed; [|vm_compute in Ed; discriminate].
    destruct (proj1 (proj2 (agreements_stand 7 7 three)) 4 1 4 "acceptable-use" "1" d four b Ed) as [H _].
    + intros x Hx _ Hs. vm_compute in Hx. destruct Hx as [<-|[<-|[<-|[]]]]; vm_compute in Hs; discriminate.
    + assert (current_version d = "7") as ->; [|exact E]. vm_compute in Ed. injection Ed as <-. reflexivity.
    + exact H.
  - apply (agreements_stand 7 7 four). vm_compute. reflexivity.
Defined.
End Legal.

Module A2p.

Definition MAX_DECLARED_CLIS : nat := 20.
Definition DECLARATION_VERSION : Z := 2.
Definition HISTORY_LIMIT : nat := 50.
Definition A2P_DECLARATION_MISSING_RULE : string := "a2p_declaration_missing".
Definition A2P_DECLARATION_NOT_YET_EFFECTIVE_RULE : string := "a2p_declaration_not_yet_effective".
Definition A2P_NUMBER_UNDECLARED_RULE : string := "a2p_number_undeclared".
Definition A2P_TEST_CALL_OWN_NUMBER_RULE : string := "a2p_test_call_own_number_only".

(** [autodialer_notices]: append-only. A day is its ordinal. *)
Record notice := Notice {
  no_id : uuid; no_tenant : uuid; state : string; notified_on : Z; no_created_at : instant; declared_clis : list string;
  attestation_version : option Z; recorded_by : uuid }.
(** [phone_numbers]. *)
Record number := Number {
  pn_id : uuid; pn_tenant : uuid; pn_agent : option uuid; e164 : string; released_at : option instant; pn_created_at : instant }.

(** [ist_today]. *)
Definition ist_day (n : instant) : Z := (n + IST_OFFSET) / US_PER_DAY + EPOCH_ORD.
Definition enforcement_active (enforced_from today : Z) : bool := enforced_from <=? today.

Definition newest (x y : notice) : bool :=
  (no_created_at y <? no_created_at x) || ((no_created_at y =? no_created_at x) && (no_id y <=? no_id x)).
Definition history (r tenant_id : uuid) (t : list notice) : list notice := order_by newest (select (mine no_tenant r tenant_id) t).
Definition read_declaration (r tenant_id : uuid) (t : list notice) : option notice := head (history r tenant_id t).
Definition withdrawn (x : notice) : bool := String.eqb (state x) "withdrawn".
Definition covers (x : notice) : bool := bool_decide (attestation_version x = Some DECLARATION_VERSION).
Definition is_effective (today : Z) (x : notice) : bool := negb (withdrawn x) && covers x && (notified_on x <=? today).

Definition by_age (x y : number) : bool :=
  (pn_created_at x <? pn_created_at y) || ((pn_created_at x =? pn_created_at y) && (pn_id x <=? pn_id y)).
Definition agent_calling_numbers (r agent_id : uuid) (t : list number) : list string :=
  map e164 (order_by by_age (select (fun x => (pn_tenant x =? r) && bool_decide (pn_agent x = Some agent_id)
                                               && negb (is_given (released_at x))) t)).
Definition tenant_rented_numbers (r : uuid) (t : list number) : list string :=
  map e164 (order_by by_age (select (fun x => (pn_tenant x =? r) && negb (is_given (released_at x))) t)).

Fixpoint carried (today : Z) (latest : list string) (older : list notice) : list string :=
  match older with
  | [] => []
  | x :: older =>
      if withdrawn x then []
      else if covers x && (notified_on x <=? today) then List.filter (fun p => bool_decide (p ∈ latest)) (declared_clis x)
      else carried today latest older
  end.
Definition still_declared (r tenant_id : uuid) (latest : notice) (today : Z) (t : list notice) : list string :=
  carried today (declared_clis latest) (tail (limit HISTORY_LIMIT (history r tenant_id t))).

Definition all_in (l clis : list string) : bool := forallb (fun p => bool_decide (p ∈ l)) clis.
Definition a2p_declaration_blocker (r tenant_id : uuid) (caller_ids : list string) (today : Z) (t : list notice) : option string :=
  match read_declaration r tenant_id t with
  | None => Some A2P_DECLARATION_MISSING_RULE
  | Some d =>
      if withdrawn d || negb (covers d) then Some A2P_DECLARATION_MISSING_RULE
      else if negb (is_effective today d) then
        if negb (bool_decide (caller_ids = [])) && all_in (still_declared r tenant_id d today t) caller_ids then None
        else Some A2P_DECLARATION_NOT_YET_EFFECTIVE_RULE
      else if bool_decide (caller_ids = []) || negb (all_in (declared_clis d) caller_ids) then Some A2P_NUMBER_UNDECLARED_RULE
      else None
  end.

Section Declaring.
(** Unicode's tables; SHA-256 of the words confirmed. *)
Context (is_space : Z -> bool) (decimal : Z -> option Z) (text_sha256 : string).

Fixpoint collect (raw : list Phone.text) (numbers : list string) : result (list string) :=
  match raw with
  | [] => Ok numbers
  | x :: raw =>
      if bool_decide (Phone.strip is_space x = []) then collect raw numbers
      else match Phone.declared_cli is_space decimal x with
           | None => Err (Problem BusinessRule "a2p_declaration_number_invalid")
           | Some p => collect raw (if bool_decide (p ∈ numbers) then numbers else numbers ++ [p])
           end
  end.
(** [_declared_clis]. *)
Definition read_clis (raw : list Phone.text) (required : bool) : result (list string) :=
  match collect raw [] with
  | Err e => Err e
  | Ok l =>
      if required && bool_decide (l = []) then Err (Problem BusinessRule "a2p_declaration_numbers_missing")
      else if (MAX_DECLARED_CLIS <? length l)%nat then Err (Problem BusinessRule "a2p_declaration_numbers_too_many")
      else Ok l
  end.
(** [n]: when the row is written; the clock of the default day is [at_]. *)
Definition record_declaration (r tenant_id i user : uuid) (n at_ : instant) (version : Z) (sha : string) (raw : list Phone.text)
    (withdraw : bool) (on : option Z) (t : list notice) : result (list notice) :=
  if negb (version =? DECLARATION_VERSION) || negb (String.eqb sha text_sha256)
  then Err (Problem BusinessRule "a2p_declaration_version_stale")
  else
    match read_clis raw (negb withdraw) with
    | Err e => Err e
    | Ok l =>
        if negb (tenant_id =? r) then Err (CheckViolation "row_level_security")
        else if existsb (by_id no_id i) t then Err (UniqueViolation "pk_autodialer_notices")
        else Ok (t ++ [Notice i tenant_id (if withdraw then "withdrawn" else "notified")
                         (match on with Some d => d | None => ist_day at_ end) n l (Some version) user])
    end.
End Declaring.

(** ** What a dial under the rule rests on *)

Lemma notices_total x y : newest x y = true \/ newest y x = true.
Proof. unfold newest. lia. Qed.
Lemma notices_trans x y z : newest x y = true -> newest y z = true -> newest x z = true.
Proof. unfold newest. lia. Qed.

Lemma history_In r tn t x : In x (history r tn t) -> In x t /\ no_tenant x = tn.
Proof.
  intros (Hx & Hp)%order_by_In%select_In. unfold mine in Hp. by apply andb_true_iff in Hp as [_ Hp%Z.eqb_eq].
Qed.
Lemma all_in_spec l clis : all_in l clis = true <-> forall p, In p clis -> In p l.
Proof.
  unfold all_in. rewrite forallb_forall. split; intros H p Hp; specialize (H p Hp).
  - apply list_elem_of_In. by apply bool_decide_eq_true in H.
  - by apply bool_decide_eq_true, list_elem_of_In.
Qed.

(** [x] is in the tenant's history with nothing but standing rows before it. *)
Definition unwithdrawn_since (x : notice) (h : list notice) : Prop :=
  exists l l', h = l ++ x :: l' /\ Forall (fun y => withdrawn y = false) (l ++ [x]).
Lemma carried_from today latest older p : In p (carried today latest older) ->
  exists x, unwithdrawn_since x older /\ is_effective today x = true /\ In p (declared_clis x) /\ In p latest.
Proof.
  induction older as [|x older IH]; [done|]. simpl. destruct (withdrawn x) eqn:W; [done|].
  destruct (covers x && (notified_on x <=? today)) eqn:C.
  - intros [Hp Hl]%filter_In. exists x. split; [exists [], older; split; [done|by constructor]|].
    unfold is_effective. rewrite W. cbn [negb andb]. rewrite C. split; [done|]. split; [done|]. apply list_elem_of_In. by apply bool_decide_eq_true in Hl.
  - intros Hp. destruct (IH Hp) as (y & (l & l' & E & F) & H). exists y. split; [|done]. exists (x :: l), l'. split; [by rewrite E|].
    simpl. by constructor.
Qed.
Lemma take_unwithdrawn x n h : unwithdrawn_since x (limit n h) -> unwithdrawn_since x h.
Proof.
  intros (l & l' & E & F). exists l, (l' ++ drop n h). split; [|done].
  transitivity (take n h ++ drop n h); [by rewrite take_drop|]. unfold limit in E. by rewrite E, <- app_assoc.
Qed.

Lemma blocker_sound r tn clis today t : a2p_declaration_blocker r tn clis today t = None ->
  clis <> [] /\ exists d, read_declaration r tn t = Some d /\ withdrawn d = false /\
    forall p, In p clis -> In p (declared_clis d)
      /\ exists x, unwithdrawn_since x (history r tn t) /\ is_effective today x = true /\ In p (declared_clis x).
Proof.
  unfold a2p_declaration_blocker. destruct (read_declaration r tn t) as [d|] eqn:Ed; [|done].
  destruct (withdrawn d || _) eqn:W; [done|]. apply orb_false_iff in W as [W C].
  assert (Hh : exists h, history r tn t = d :: h).
  { unfold read_declaration in Ed. destruct (history r tn t) as [|y h]; [done|]. injection Ed as ->. by exists h. }
  destruct Hh as [h Eh]. destruct (is_effective today d) eqn:E; cbn [negb].
  - destruct (bool_decide _) eqn:En; [done|]. destruct (all_in _ _) eqn:A; [|done]. intros _. split; [by apply bool_decide_eq_false in En|].
    exists d. split; [done|]. split; [done|]. rewrite all_in_spec in A. intros p Hp. split; [by apply A|]. exists d. split; [|by split; [|apply A]].
    rewrite Eh. exists [], h. split; [done|]. by constructor.
  - destruct (negb _ && _) eqn:A; [|done]. apply andb_true_iff in A as [En A]. intros _. split; [by apply negb_true_iff, bool_decide_eq_false in En|].
    exists d. split; [done|]. split; [done|]. rewrite all_in_spec in A. intros p Hp. specialize (A p Hp).
    apply carried_from in A as (x & Hx & Ex & Hp' & Hl). split; [done|]. exists x. split; [|done].
    assert (Hu : unwithdrawn_since x (limit HISTORY_LIMIT (history r tn t))); [|by eapply take_unwithdrawn].
    rewrite Eh in *. destruct Hx as (l & l' & E1 & F). exists (d :: l), l'. split; [|by constructor]. simpl in *. by rewrite E1.
Qed.
Lemma declaration_spec is_space decimal sha r tn i user n at_ version given raw w on t t' :
  record_declaration is_space decimal sha r tn i user n at_ version given raw w on t = Ok t' ->
  exists l, read_clis is_space decimal raw (negb w) = Ok l /\ tn = r
    /\ t' = t ++ [Notice i tn (if w then "withdrawn" else "notified") (match on with Some d => d | None => ist_day at_ end) n l
                    (Some DECLARATION_VERSION) user].
Proof.
  unfold record_declaration. destruct (negb (version =? _) || _) eqn:E; [done|]. apply orb_false_iff in E as [E _].
  apply negb_false_iff, Z.eqb_eq in E as ->. destruct (read_clis _ _ _ _) as [l|]; [|done]. destruct (negb (tn =? r)) eqn:Er; [done|].
  apply negb_false_iff, Z.eqb_eq in Er. destruct (existsb _ t); [done|]. intros [= <-]. by exists l.
Qed.
Lemma collect_read is_space decimal raw l0 l : collect is_space decimal raw l0 = Ok l ->
  (forall p, In p l -> In p l0 \/ exists x, In x raw /\ Phone.strip is_space x <> [] /\ Phone.declared_cli is_space decimal x = Some p)
  /\ (forall p, In p l0 -> In p l)
  /\ (forall x, In x raw -> Phone.strip is_space x = [] \/ exists p, Phone.declared_cli is_space decimal x = Some p /\ In p l).
Proof.
  revert l0. induction raw as [|x raw IH]; intros l0 H; simpl in H.
  { injection H as ->. split; [by left|]. split; [done|]. by intros x []. }
  destruct (bool_decide (Phone.strip is_space x = [])) eqn:Eb.
  - apply bool_decide_eq_true in Eb. destruct (IH l0 H) as (H1 & H2 & H3). split.
    + intros p Hp. destruct (H1 p Hp) as [|(y & Hy & E)]; [by left|right]. exists y. split; [by right|done].
    + split; [done|]. intros y [<-|Hy]; [by left|by apply H3].
  - destruct (Phone.declared_cli is_space decimal x) as [q|] eqn:Eq; [|done].
    set (l1 := if bool_decide (q ∈ l0) then l0 else l0 ++ [q]) in H. destruct (IH l1 H) as (H1 & H2 & H3).
    assert (Hq : In q l1 /\ forall p, In p l1 <-> In p l0 \/ p = q).
    { unfold l1. destruct (bool_decide (q ∈ l0)) eqn:E.
      - apply bool_decide_eq_true, list_elem_of_In in E. split; [done|]. intros p. split; [by left|by intros [| ->]].
      - split; [apply in_or_app; right; by left|]. intros p. rewrite in_app_iff. simpl. clear. intuition congruence. }
    destruct Hq as [Hq Hl]. split; [|split].
    + intros p Hp. destruct (H1 p Hp) as [Hp'|(y & Hy & E)]; [|right; exists y; split; [by right|done]].
      apply Hl in Hp' as [| ->]; [by left|right]. exists x. split; [by left|].
      split; [by apply bool_decide_eq_false in Eb|done].
    + intros p Hp. apply H2, Hl. by left.
    + intros y [<-|Hy]; [right; exists q; split; [done|by apply H2]|by apply H3].
Qed.
Lemma read_declaration_newest r tn t y : mine no_tenant r tn y = true ->
  (forall x, In x t -> no_tenant x = tn -> no_created_at x < no_created_at y) -> read_declaration r tn (t ++ [y]) = Some y.
Proof.
  intros M H. unfold read_declaration, history. rewrite select_snoc, M. apply head_newest. intros x (Hx & Hp)%select_In.
  unfold mine in Hp. apply andb_true_iff in Hp as [_ Hp%Z.eqb_eq]. specialize (H x Hx Hp). unfold newest. lia.
Qed.

(** Declarations recorded by other tenants. *)
Definition others (is_space : Z -> bool) (decimal : Z -> option Z) (sha : string) (tn : uuid) (t t' : list notice) : Prop :=
  exists r i user n at_ version given raw w on,
    r <> tn /\ record_declaration is_space decimal sha r r i user n at_ version given raw w on t = Ok t'.
Lemma others_history is_space decimal sha tn t t' : others is_space decimal sha tn t t' -> history tn tn t' = history tn tn t.
Proof.
  intros (r & i & user & n & at_ & version & given & raw & w & on & Hr & H). apply declaration_spec in H as (l & _ & _ & ->).
  unfold history. rewrite select_snoc. unfold mine at 2. simpl. replace (r =? tn) with false by lia. by rewrite app_nil_r.
Qed.

(** C12. The calling numbers a client confirmed.  The gate passes a set of calling numbers
    only if it is not empty and each of them is in the client's latest confirmation and in
    one that authorises us, is in force on the day, and that no withdrawal has followed.
    Confirming numbers for today lets exactly those that were read pass, in the form they
    are stored, until the client confirms or withdraws again, whatever others record. *)
Theorem declared_numbers is_space decimal sha r t :
  (forall tn clis today, a2p_declaration_blocker r tn clis today t = None ->
     clis <> [] /\ exists d, read_declaration r tn t = Some d /\ withdrawn d = false /\
       forall p, In p clis -> In p (declared_clis d)
         /\ exists x, unwithdrawn_since x (history r tn t) /\ is_effective today x = true /\ In p (declared_clis x))
  /\ (forall i user n at_ version given raw t1 t2 today,
        (forall x, In x t -> no_tenant x = r -> no_created_at x < n) -> ist_day at_ <= today ->
        record_declaration is_space decimal sha r r i user n at_ version given raw false None t = Ok t1 ->
        rtc (others is_space decimal sha r) t1 t2 ->
        forall clis, clis <> [] ->
          (a2p_declaration_blocker r r clis today t2 = None <->
           forall p, In p clis -> exists x, In x raw /\ Phone.strip is_space x <> [] /\ Phone.declared_cli is_space decimal x = Some p)).
Proof.
  split; [intros tn clis today; apply blocker_sound|].
  intros i user n at_ version given raw t1 t2 today Hn Ht H Hs clis Hc. apply declaration_spec in H as (l & Hl & _ & ->).
  set (y := Notice _ _ _ _ _ _ _ _) in Hs.
  assert (Ey : read_declaration r r t2 = Some y).
  { unfold read_declaration. assert (Eh : history r r t2 = history r r (t ++ [y])).
    { clear - Hs. induction Hs as [u|u u1 u2 Hst _ IH]; [done|]. rewrite IH. by eapply others_history. }
    rewrite Eh. apply read_declaration_newest; [unfold mine; simpl; by rewrite Z.eqb_refl|exact Hn]. }
  unfold a2p_declaration_blocker. rewrite Ey. unfold is_effective, withdrawn, covers, y. simpl.
  replace (ist_day at_ <=? today) with true by lia. cbn [negb]. rewrite bool_decide_false by done. cbn [orb].
  unfold read_clis in Hl. destruct (collect is_space decimal raw []) as [l'|] eqn:El; [|done].
  destruct (_ && _); [done|]. destruct (MAX_DECLARED_CLIS <? _)%nat; [done|]. injection Hl as ->.
  destruct (collect_read _ _ _ _ _ El) as (H1 & _ & H3).
  destruct (all_in l clis) eqn:A; cbn [negb].
  - split; [|done]. intros _ p Hp. rewrite all_in_spec in A. by destruct (H1 p (A p Hp)) as [[]|H].
  - split; [done|]. intros Hall. assert (all_in l clis = true); [|congruence]. apply all_in_spec. intros p Hp.
    destruct (Hall p Hp) as (x & Hx & Hne & E). destruct (H3 x Hx) as [|(q & Eq & Hq)]; [done|]. congruence.
Qed.

(** ** An example *)
Module Example.
Import Phone.Example.
Definition after (r : result (list notice)) : list notice := match r with Ok t => t | Err _ => [] end.
Definition typed : list Phone.text := map Phone.points ["140 1234567"; "098480 22338"; " "; "+91 98480-22338"].
Definition told : list notice := after (record_declaration is_space decimal "sha" 7 7 1 3 0 0 2 "sha" typed false None []).
Definition elsewhere : list notice := after (record_declaration is_space decimal "sha" 8 8 2 3 5 5 2 "sha" [] true None told).
(** A later confirmation, dated ahead, leaves what both list; a withdrawal leaves nothing. *)
Definition ahead : list notice :=
  after (record_declaration is_space decimal "sha" 7 7 4 3 9 9 2 "sha" [Phone.points "1401234567"; Phone.points "1601234567"] false (Some 800000) told).
Definition gone : list notice := after (record_declaration is_space decimal "sha" 7 7 5 3 9 9 2 "sha" [] true None told).
Abbreviation asks clis t := (a2p_declaration_blocker 7 7 clis (ist_day 10) t).
Example confirmed :
  map declared_clis told = [["+911401234567"; "+919848022338"]]
  /\ asks ["+911401234567"] told = None /\ asks ["+911401234568"] told = Some A2P_NUMBER_UNDECLARED_RULE
  /\ asks ["+911401234567"] ahead = None /\ asks ["+919848022338"] ahead = Some A2P_DECLARATION_NOT_YET_EFFECTIVE_RULE
  /\ asks ["+911601234567"] ahead = Some A2P_DECLARATION_NOT_YET_EFFECTIVE_RULE
  /\ asks ["+911401234567"] gone = Some A2P_DECLARATION_MISSING_RULE.
Proof. vm_compute. done. Qed.
Lemma told_by : record_declaration is_space decimal "sha" 7 7 1 3 0 0 2 "sha" typed false None [] = Ok told.
Proof. vm_compute. reflexivity. Qed.
Lemma not_ours : others is_space decimal "sha" 7 told elsewhere.
Proof. exists 8, 2, 3, 5, 5, 2, "sha", [], true, None. split; [done|]. vm_compute. reflexivity. Qed.
End Example.
Import Phone.Example Example.

Lemma declared_numbers_witness :
  a2p_declaration_blocker 7 7 ["+919848022338"] (ist_day 10) elsewhere = None
  /\ exists d, read_declaration 7 7 ahead = Some d /\ withdrawn d = false.
Proof.
  split.
  - apply (proj2 (declared_numbers is_space decimal "sha" 7 []) 1 3 0 0 2 "sha" typed told elsewhere (ist_day 10));
      [intros x []|vm_compute; discriminate|exact told_by|exact (rtc_once _ _ not_ours)|discriminate|].
    intros p [<-|[]]. exists (Phone.points "098480 22338"). split; [right; left; reflexivity|].
    split; [vm_compute; discriminate|vm_compute; reflexivity].
  - destruct (proj1 (declared_numbers is_space decimal "sha" 7 ahead) 7 ["+911401234567"] (ist_day 10)) as (_ & d & H1 & H2 & _);
      [vm_compute; reflexivity|]. exists d. split; [exact H1|exact H2].
Defined.
End A2p.
