(* ===== verification/Gate.v ===== *)
(** * The outbound gate

    [check_dispatch] of apps/api/compliance/service.py, the one function every outbound call
    passes through, over the tables of the modules it asks: the account's standing, its
    agent, its paperwork ([Clearance]), its money, the calls it may hold at once
    (tenancy/call_lines.py), the hours, the person called and the declared numbers.  Whether
    an agent's first words say its notices (the composer of the opening line) is a
    parameter, and so is the platform's status, which its caller reads. *)

From Stdlib Require Import ZArith Lia List QArith.
From stdpp Require Import base list strings relations.
From S2P Require Import Prelude PyDecimal Sql PyTime AuditLog WalletDb RateCard Ledger Envelope Payments AutoRecharge Disputes Account Caps Workspaces Trials FirstPayment TrialAccess PlatformFee Phone Dnc Clearance.

Local Open Scope string_scope.
Local Open Scope list_scope.
Local Open Scope Z_scope.
Local Open Scope tx_scope.

Import AutoRecharge Account Dnc.

Module Gate.

Definition PREPAID_TIERS : list string := ["prepaid"; "self_serve"; "trial"].
Definition DEFAULT_PLAN_TIER : string := "prepaid".
Definition PAID_CALL_LINES_DEFAULT : Z := 2.
Definition TRIAL_CALL_LINES_DEFAULT : Z := 1.
Definition LIVE_STATUSES : list string := ["queued"; "ringing"; "in_progress"].
Definition TRIAL_LINE_MARGIN : Z := 180 * 1000000.
Definition TRUTHFUL_ANSWER_MISSING : string := "truthful_answer_missing".
Definition TRUTHFUL_ANSWER_VERDICT_TTL : Z := 24 * 60 * 60 * 1000000.
Definition AGENT_READY_STATUS : string := "paused".
Definition INDIA_E164_PREFIX : string := "+91".
Definition ANONYMIZED_PREFIX : string := "+91000000".
(** [DIAL_REFUSING_CONSENT_STATUSES]: every status of the ledger but [granted]. *)
Definition CONSENT_STATUSES : list string := ["granted"; "declined"; "withdrawn"].
Definition DIAL_REFUSING_CONSENT_STATUSES : list string := List.filter (fun x => negb (String.eqb x "granted")) CONSENT_STATUSES.
Definition BIG_RED_SWITCH_RULE : string := "big_red_switch".
Definition MAINTENANCE_DRAIN_RULE : string := "platform_maintenance".
Definition CALLING_HOURS_RULE : string := "calling_hours".
Definition NO_CONSENT_RECORD_RULE : string := "no_consent_record".
Definition DESTINATION_ERASED_RULE : string := "destination_erased".
Definition DISCLOSURE_NOT_SAID_RULE : string := "disclosure_not_said".
Definition AGENT_NOT_READY_RULE : string := "agent_not_ready".
Definition TRUTHFUL_ANSWER_DRIFT_RULE : string := "truthful_answer_drift".
Definition CALL_LINES_BUSY_RULE : string := "call_lines_busy".
Definition NOT_ON_TRIAL_RULE : string := "trial_call_not_on_trial".
Definition PERSON_LEVEL_REFUSALS : list string :=
  ["dnc"; "no_consent"; "destination_not_india"; "consent_expired"; NO_CONSENT_RECORD_RULE; DESTINATION_ERASED_RULE].

(** ** The tables *)

(** [agents]: the columns the gate reads, and those of its opening words. *)
Record opening := Opening {
  ai_disclosure_enabled : bool; recording_notice_enabled : bool; recording_notice_line : option Phone.text;
  language_primary : string; live_prompt_id : option uuid; system_prompt_id : option uuid }.
Record agent := Agent {
  ag_id : uuid; ag_tenant : uuid; ai_disclosure_line : Phone.text; ag_status : string; direction : string;
  engine_agent_ref : option string; ag_opening : opening; ag_deleted_at : option instant }.
(** [prompt_versions]. *)
Record prompt := Prompt { pv_id : uuid; pv_tenant : uuid; body : Phone.text }.
(** [engine_agent_routes]. *)
Record drift_route := DriftRoute {
  dr_tenant : uuid; dr_agent : uuid; dr_active : bool; drift_state : option string; drift_checked_at : option instant }.
(** The columns of [organizations] the gate reads besides its standing, by the
    organisation's id. *)
Record footing := Footing {
  fo_org : uuid; fo_name : option string; outbound_requires_consent : bool; call_lines : option Z;
  call_lines_applied : option Z; call_lines_applied_at : option instant }.

Record floor := Floor {
  roll_of : roll; kyc_records : list Kyc.row; pledges : list Pledge.row; acceptances : list Legal.row;
  notices : list A2p.notice; numbers : list A2p.number; agents : list agent; prompts : list prompt;
  drift_routes : list drift_route; footings : list footing }.
Definition with_roll r (s : floor) : floor :=
  Floor r (kyc_records s) (pledges s) (acceptances s) (notices s) (numbers s) (agents s) (prompts s) (drift_routes s) (footings s).

Definition in_roll {B} (m : tx roll B) : tx floor B :=
  fun s => match m (roll_of s) with Ok (b, r) => Ok (b, with_roll r s) | Err e => Err e end.
Definition on_fees {B} (m : tx PlatformFee.fees B) : tx floor B := in_roll (in_fees m).
Definition on_desk {B} (m : tx platform B) : tx floor B := in_roll (in_desk m).
Definition on_wallet {B} (m : tx db B) : tx floor B := in_roll (in_wallet m).
Definition tenant_of (s : floor) : uuid := rls (wallet_of (roll_of s)).
Definition session : tx floor uuid := gets tenant_of.
Definition start_of (s : floor) : instant := now (wallet_of (roll_of s)).
(** A read of the clock. *)
Definition clock : tx floor instant := on_wallet clock_timestamp.

(** ** The platform and the hours *)

(** [PlatformStatus] of core/loadshed.py. *)
Record PlatformStatus := Status { outbound_halted : bool; maintenance : string }.
Definition accepting_new_work (p : PlatformStatus) : bool := String.eqb (maintenance p) "none".

Definition within_calling_hours (t : instant) : bool :=
  (hms 9 0 0 <=? dt_time (to_ist t)) && (dt_time (to_ist t) <? hms 21 0 0).

(** ** The account *)

Definition stopped_rule (o : option organization) : option string :=
  match o with
  | None => Some "account_missing"
  | Some o =>
      if is_given (deleted_at o) then Some "account_closed"
      else if String.eqb (org_status o) "suspended" then Some "account_suspended"
      else if String.eqb (org_status o) "churned" then Some "account_closed"
      else None
  end.
Definition account_stopped_blocker (tenant_id : uuid) : tx floor (option string) :=
  o ← on_desk (Trials.Trials.own_org tenant_id) ; ret (stopped_rule o).

Definition own_footing (r tenant_id : uuid) (t : list footing) : option footing := head (select (mine fo_org r tenant_id) t).
Definition outbound_requires_consent_of (tenant_id : uuid) : tx floor bool :=
  r ← session ;
  gets (fun s => match own_footing r tenant_id (footings s) with Some x => outbound_requires_consent x | None => false end).

Definition plan_tier_of (tenant_id : uuid) : tx floor string :=
  o ← on_fees (PlatformFee.standing_of tenant_id) ;
  ret (match o with
       | Some x => if String.eqb (PlatformFee.plan_tier x) "" then DEFAULT_PLAN_TIER else PlatformFee.plan_tier x
       | None => DEFAULT_PLAN_TIER
       end).
Definition credits_exhausted (tenant_id : uuid) : tx floor bool :=
  tier ← plan_tier_of tenant_id ;
  if negb (bool_decide (tier ∈ PREPAID_TIERS)) then ret false
  else
    free ← on_desk (Trials.Trials.trial_billing_active tenant_id None) ;
    if free : bool then ret false
    else b ← on_wallet (Ledger.Ledger.get_balance tenant_id) ; ret (Ledger.Ledger.is_exhausted b).

Definition kyc_blocker (tenant_id : uuid) : tx floor (option string) :=
  r ← session ; gets (fun s => Kyc.kyc_rule (Kyc.read_kyc r tenant_id (kyc_records s))).
Definition pledge_blocker (tenant_id : uuid) : tx floor (option string) :=
  r ← session ; gets (fun s => Pledge.pledge_blocker r tenant_id (pledges s)).
Definition agreements_blocker (tenant_id : uuid) : tx floor (option string) :=
  r ← session ; gets (fun s => Legal.agreements_blocker r tenant_id (acceptances s)).

(** ** The agent *)

Definition dial_refusal_for_agent_status (status : string) (trial_call : bool) : option string :=
  if String.eqb status "live" then None
  else if trial_call && String.eqb status AGENT_READY_STATUS then None
  else if trial_call && String.eqb status "draft" then Some AGENT_NOT_READY_RULE
  else Some "agent_not_live".

(** [recorded_drift_state] of agents/reconciliation.py: the verdict stored. *)
Definition recorded_drift_state (state : string) (truthful_answer_applied : option bool) : string :=
  if String.eqb state "not_applied" && bool_decide (truthful_answer_applied = Some false) then TRUTHFUL_ANSWER_MISSING else state.

(** [ORDER BY drift_checked_at DESC NULLS LAST]. *)
Definition freshest (x y : drift_route) : bool :=
  match drift_checked_at x, drift_checked_at y with Some a, Some b => b <=? a | _, None => true | None, Some _ => false end.
Definition drifted (tenant_id agent_id : uuid) (x : drift_route) : bool :=
  (dr_tenant x =? tenant_id) && (dr_agent x =? agent_id) && dr_active x && bool_decide (drift_state x = Some TRUTHFUL_ANSWER_MISSING).
Definition fresh (n : instant) (x : drift_route) : bool :=
  match drift_checked_at x with Some t => n - TRUTHFUL_ANSWER_VERDICT_TTL <? t | None => false end.
Definition truthful_answer_drift_blocker (tenant_id agent_id : uuid) : tx floor (option string) :=
  gets (fun s => match order_by freshest (select (drifted tenant_id agent_id) (drift_routes s)) with
                 | x :: _ => if fresh (start_of s) x then Some TRUTHFUL_ANSWER_DRIFT_RULE else None
                 | [] => None
                 end).

(** ** The person *)

Definition newest_call_consent (r tenant_id : uuid) (phone : string) (t : list consent) : option consent :=
  head (order_by newest_consent
    (select (fun c => mine cn_tenant r tenant_id c && String.eqb (cn_phone c) phone && String.eqb (cn_purpose c) "callback") t)).
Definition latest_call_consent (tenant_id : uuid) (phone : string) : tx floor (option consent) :=
  r ← session ; gets (fun s => newest_call_consent r tenant_id phone (consent_ledger (roll_of s))).

Definition person_level_refusal (tenant_id : uuid) (phone : string) : tx floor (option string) :=
  if negb (String.prefix INDIA_E164_PREFIX phone) then ret (Some "destination_not_india")
  else if String.prefix ANONYMIZED_PREFIX phone then ret (Some DESTINATION_ERASED_RULE)
  else
    r ← session ;
    blocked ← gets (fun s => existsb (fun e => visible r e && suppresses tenant_id phone e) (dnc_list (roll_of s))) ;
    if blocked : bool then ret (Some "dnc")
    else
      c ← latest_call_consent tenant_id phone ;
      match c with
      | None =>
          needed ← outbound_requires_consent_of tenant_id ;
          ret (if needed : bool then Some NO_CONSENT_RECORD_RULE else None)
      | Some c =>
          if bool_decide (cn_status c ∈ DIAL_REFUSING_CONSENT_STATUSES) then ret (Some "no_consent")
          else match expires_at c with
               | None => ret None
               | Some e => n ← clock ; ret (if e <=? n then Some "consent_expired" else None)
               end
      end.

(** ** The calls at once *)

Record CallLines := Lines {
  lines : Z; chosen : option Z; on_trial : bool; of_organization : bool; engine_state : string; applied : option Z;
  applied_at : option instant }.

Definition call_table (s : floor) : list call := calls (Payments.account (desk_of (roll_of s))).

Record DispatchDecision := Decision { allowed : bool; rule : option string }.
Definition refused (x : string) : DispatchDecision := Decision false (Some x).

Section Gate.
(** The deployment's engine and our developer workspace there; the trial's settings; the
    ops console's fee switch; the day the declaration rule bites; Unicode's spaces; and
    whether the opening composed of an agent's columns, its script and the business's name
    says each notice switched on. *)
Context (engine : string) (is_developer_workspace : string -> bool).
Context (trial_daily_call_cap trial_call_max_seconds : Z).
Context (switch : PlatformFee.FeeSwitch) (enforced_from : Z) (is_space : Z -> bool).
Context (first_words_disclose : Phone.text -> opening -> option Phone.text -> option string -> bool).

Definition engine_holds_it (tenant_id : uuid) (on_trial : bool) : tx floor bool :=
  if on_trial || negb (Workspaces.Workspaces.engine_has_workspaces engine) then ret false
  else w ← on_desk (Workspaces.Workspaces.read_workspace_state tenant_id) ; ret (Workspaces.Workspaces.active is_developer_workspace w).
Definition read_call_lines (tenant_id : uuid) : tx floor CallLines :=
  r ← session ;
  o ← gets (fun s => own_footing r tenant_id (footings s)) ;
  match o with
  | None => raise (Problem NotFound "not_found")
  | Some x =>
      t ← on_desk (TrialAccess.TrialAccess.restricting_trial tenant_id) ;
      let trial := is_given t in
      let n := match call_lines x with Some n => n | None => if trial then TRIAL_CALL_LINES_DEFAULT else PAID_CALL_LINES_DEFAULT end in
      held ← engine_holds_it tenant_id trial ;
      ret (Lines n (call_lines x) trial (is_given (call_lines x))
             (if held : bool then if bool_decide (call_lines_applied x = Some n) then "applied" else "applying" else "ours")
             (call_lines_applied x) (call_lines_applied_at x))
  end.
(** The calls of the tenant that hold a line at [n]. *)
Definition holding (r tenant_id : uuid) (n : instant) (t : list call) : nat :=
  rowcount (fun c => mine ca_tenant r tenant_id c && bool_decide (ca_status c ∈ LIVE_STATUSES)
                     && (n - (trial_call_max_seconds * 1000000 + TRIAL_LINE_MARGIN) <? ca_created_at c)) t.
Definition calls_in_progress (tenant_id : uuid) : tx floor nat :=
  r ← session ; gets (fun s => holding r tenant_id (start_of s) (call_table s)).
Definition call_lines_blocker (tenant_id : uuid) : tx floor (option string) :=
  l ← read_call_lines tenant_id ;
  if negb (on_trial l) then ret None
  else n ← calls_in_progress tenant_id ; ret (if Z.of_nat n <? lines l then None else Some CALL_LINES_BUSY_RULE).

(** ** Every refusal of the account, in the gate's order *)

Definition account_dial_blockers (tenant_id : uuid) (trial_call : bool) : tx floor (list string) :=
  trial ← on_desk (TrialAccess.TrialAccess.read_trial_access trial_daily_call_cap trial_call_max_seconds tenant_id None) ;
  paid ← (if trial_call && negb (is_given trial) then on_desk (FirstPayment.FirstPayment.has_paid tenant_id) else ret true) ;
  identity ← (if trial_call then ret None else kyc_blocker tenant_id) ;
  unpledged ← pledge_blocker tenant_id ;
  unaccepted ← agreements_blocker tenant_id ;
  capped ← on_desk (Caps.Caps.spend_capped tenant_id) ;
  disputed ← on_desk (Disputes.Disputes.dispute_hold_active tenant_id) ;
  paused ← on_fees (PlatformFee.platform_fee_paused switch tenant_id) ;
  broke ← credits_exhausted tenant_id ;
  ret (omap id
    [ (if paid : bool then None else Some NOT_ON_TRIAL_RULE);
      (if is_given trial && negb trial_call
       then Some (TrialAccess.TrialAccess.TRIAL_REFUSALS TrialAccess.TrialAccess.live_outbound) else None);
      match trial with Some a => TrialAccess.TrialAccess.blocker a | None => None end;
      identity; unpledged; unaccepted;
      (if capped : bool then Some "spend_cap" else None);
      (if disputed : bool then Some "payment_dispute" else None);
      (if paused : bool then Some PlatformFee.PLATFORM_FEE_RULE else None);
      (if broke : bool then Some "no_credits" else None) ]).

(** [a2p_dial_blocker]; the declarations are judged on one day, read once. *)
Definition a2p_dial_blocker (tenant_id agent_id : uuid) (trial_call own_number_attested : bool) : tx floor (option string) :=
  today ← clock ;
  if negb (A2p.enforcement_active enforced_from (A2p.ist_day today)) then ret None
  else if trial_call then ret (if own_number_attested then None else Some A2p.A2P_TEST_CALL_OWN_NUMBER_RULE)
  else
    n ← clock ;
    r ← session ;
    gets (fun s => A2p.a2p_declaration_blocker r tenant_id (A2p.agent_calling_numbers r agent_id (numbers s)) (A2p.ist_day n) (notices s)).

(** ** The gate *)

Definition read_agent (tenant_id agent_id : uuid) : tx floor (option agent) :=
  r ← session ;
  gets (fun s => head (select (fun a => mine ag_tenant r tenant_id a && by_id ag_id agent_id a && negb (is_given (ag_deleted_at a))) (agents s))).
Definition says_its_notices (r : uuid) (s : floor) (a : agent) : bool :=
  let o := ag_opening a in
  let script := match Clearance.coalesce (live_prompt_id o) (system_prompt_id o) with
                | Some i => option_map body (head (select (fun p => (pv_tenant p =? r) && by_id pv_id i p) (prompts s)))
                | None => None
                end in
  first_words_disclose (ai_disclosure_line a) o script
    (match own_footing r (ag_tenant a) (footings s) with Some x => fo_name x | None => None end).
(** What the agent's own row refuses. *)
Definition agent_rule (r : uuid) (s : floor) (a : agent) (trial_call : bool) : option string :=
  if bool_decide (Phone.strip is_space (ai_disclosure_line a) = []) then Some "disclosure_missing"
  else if negb (says_its_notices r s a) then Some DISCLOSURE_NOT_SAID_RULE
  else match dial_refusal_for_agent_status (ag_status a) trial_call with
       | Some x => Some x
       | None =>
           if trial_call && match engine_agent_ref a with Some x => String.eqb x "" | None => true end then Some AGENT_NOT_READY_RULE
           else if String.eqb (direction a) "inbound" && negb trial_call then Some "agent_inbound_only"
           else None
       end.

(** A refusal found, or the rest of the gate. *)
Definition unless (found : option string) (rest : tx floor DispatchDecision) : tx floor DispatchDecision :=
  match found with Some x => ret (refused x) | None => rest end.

Definition check_dispatch (p : PlatformStatus) (tenant_id agent_id : uuid) (phone : string)
    (trial_call own_number_attested places_call : bool) : tx floor DispatchDecision :=
  if outbound_halted p then ret (refused BIG_RED_SWITCH_RULE)
  else if negb (accepting_new_work p) then ret (refused MAINTENANCE_DRAIN_RULE)
  else
    stopped ← account_stopped_blocker tenant_id ;
    unless stopped
   (a ← read_agent tenant_id agent_id ;
    match a with
    | None => ret (refused "agent_missing")
    | Some a =>
        r ← session ;
        own ← gets (fun s => agent_rule r s a trial_call) ;
        unless own
       (truthful ← truthful_answer_drift_blocker tenant_id agent_id ;
        unless truthful
       (found ← account_dial_blockers tenant_id trial_call ;
        unless (head found)
       (busy ← (if trial_call then call_lines_blocker tenant_id else ret None) ;
        unless busy
       (late ← (if trial_call && own_number_attested then ret false else n ← clock ; ret (negb (within_calling_hours n))) ;
        if late : bool then ret (refused CALLING_HOURS_RULE)
        else
          person ← person_level_refusal tenant_id phone ;
          unless person
         (undeclared ← (if places_call then a2p_dial_blocker tenant_id agent_id trial_call own_number_attested else ret None) ;
          unless undeclared (ret (Decision true None)))))))
    end).

(** [assert_dispatch_allowed]. *)
Definition assert_dispatch_allowed (p : PlatformStatus) (tenant_id agent_id : uuid) (phone : string) : tx floor unit :=
  d ← check_dispatch p tenant_id agent_id phone false false true ;
  if allowed d then ret tt
  else raise (Problem BusinessRule ("dispatch_blocked_" +:+ match rule d with Some x => x | None => "None" end)).
End Gate.

(** ** Filing the paperwork *)

Definition with_kyc t (s : floor) : floor :=
  Floor (roll_of s) t (pledges s) (acceptances s) (notices s) (numbers s) (agents s) (prompts s) (drift_routes s) (footings s).
Definition with_pledges t (s : floor) : floor :=
  Floor (roll_of s) (kyc_records s) t (acceptances s) (notices s) (numbers s) (agents s) (prompts s) (drift_routes s) (footings s).
Definition with_acceptances t (s : floor) : floor :=
  Floor (roll_of s) (kyc_records s) (pledges s) t (notices s) (numbers s) (agents s) (prompts s) (drift_routes s) (footings s).
Definition new_id : tx floor uuid := on_wallet WalletDb.uuid7.

Section Filing.
Context (engine : string) (text_sha256 : string).

(** [queue_business_details_submission] of campaigns/engine_business_details.py. *)
Definition SUBMIT_JOB : string := "submit_engine_business_details".
Definition queue_business_details_submission (tenant_id : uuid) : tx floor bool :=
  if negb (Workspaces.Workspaces.engine_has_workspaces engine) then ret false
  else on_wallet (Ledger.Ledger.enqueue SUBMIT_JOB [("tenant_id", JId tenant_id)]) ;; ret true.
(** [record_kyc], the submission it owes included. *)
Definition file_kyc (tenant_id : uuid) (o : Kyc.outcome) : tx floor unit :=
  i ← new_id ;
  r ← session ;
  n ← gets start_of ;
  t ← gets kyc_records ;
  t' ← lift (Kyc.record_kyc r tenant_id i n o t) ;
  modify (with_kyc t') ;;
  if String.eqb (Kyc.oc_status o) Kyc.KYC_VERIFIED then queue_business_details_submission tenant_id ;; ret tt else ret tt.
(** [accept_pledge]. *)
Definition file_pledge (tenant_id user : uuid) (version : Z) (sha : string) (ip : option string) : tx floor uuid :=
  i ← new_id ;
  r ← session ;
  n ← gets start_of ;
  t ← gets pledges ;
  t' ← lift (Pledge.accept_pledge text_sha256 r tenant_id i user n version sha ip t) ;
  modify (with_pledges t') ;;
  ret i.
(** [_has_live_agent]. *)
Definition has_live_agent (tenant_id : uuid) : tx floor bool :=
  r ← session ;
  gets (fun s => existsb (fun a => mine ag_tenant r tenant_id a && String.eqb (ag_status a) "live" && negb (is_given (ag_deleted_at a))) (agents s)).
(** [record_acceptance]: the one that clears the last agreement brings the live agents up
    to date. *)
Definition file_acceptance (tenant_id user : uuid) (slug version statement : string) : tx floor unit :=
  i ← new_id ;
  r ← session ;
  n ← gets start_of ;
  t ← gets acceptances ;
  ' (t', cleared_) ← lift (Legal.record_acceptance r tenant_id i user n slug version statement t) ;
  modify (with_acceptances t') ;;
  live ← (if cleared_ : bool then has_live_agent tenant_id else ret false) ;
  if live : bool
  then on_desk (Workspaces.Workspaces.queue_live_apply Workspaces.Workspaces.TenantScope "agreements_accepted" (Some tenant_id) None None) ;; ret tt
  else ret tt.
End Filing.

(** [outbound_agent_numbers] and [outbound_in_use] of compliance/autodialer.py. *)
Definition places_calls (r : uuid) (a : agent) : bool :=
  (ag_tenant a =? r) && negb (is_given (ag_deleted_at a)) && negb (String.eqb (direction a) "inbound").
Definition outbound_agent_numbers : tx floor (list string) :=
  r ← session ;
  gets (fun s => unique [] (map A2p.e164 (order_by (fun x y => A2p.pn_created_at x <=? A2p.pn_created_at y)
    (select (fun x => (A2p.pn_tenant x =? r) && negb (is_given (A2p.released_at x))
                      && existsb (fun a => places_calls r a && bool_decide (A2p.pn_agent x = Some (ag_id a))) (agents s)) (numbers s))))).
Definition outbound_in_use : tx floor bool :=
  r ← session ; gets (fun s => existsb (places_calls r) (agents s)).

(** ** A computation that only reads

    It answers, and leaves every table as it was: the clock alone has moved. *)

Class Clocked (S : Type) := tick_on : S -> S.
Definition adv {S} `{Clocked S} (j : nat) (s : S) : S := Nat.iter j tick_on s.
Definition reads {S} `{Clocked S} {B} (m : tx S B) : Prop := forall s, exists b j, m s = Ok (b, adv j s).
(** What the computation answers, asked at some moment from this state on. *)
Definition answers {S} `{Clocked S} {B} (m : tx S B) (b : B) (s : S) : Prop := exists j s', m (adv j s) = Ok (b, s').

Section Reads.
Context {S : Type} `{Clocked S}.
Lemma adv_add i j (s : S) : adv i (adv j s) = adv (i + j) s.
Proof. unfold adv. by rewrite Nat.iter_add. Qed.
Lemma still {X} (f : S -> X) j s : (forall s, f (tick_on s) = f s) -> f (adv j s) = f s.
Proof. intros Hf. unfold adv. induction j as [|j IH]; [done|]. simpl. by rewrite Hf. Qed.
Lemma reads_ret {B} (b : B) : reads (ret b).
Proof. intros s. by exists b, 0%nat. Qed.
Lemma reads_gets {B} (f : S -> B) : reads (gets f).
Proof. intros s. by exists (f s), 0%nat. Qed.
Lemma reads_bind {B C} (m : tx S B) (k : B -> tx S C) : reads m -> (forall b, reads (k b)) -> reads (bind m k).
Proof.
  intros Hm Hk s. destruct (Hm s) as (b & j & E). destruct (Hk b (adv j s)) as (c & i & E').
  exists c, (i + j)%nat. unfold bind. rewrite E, E'. by rewrite adv_add.
Qed.
Lemma reads_run {B} (m : tx S B) s b s' : reads m -> m s = Ok (b, s') -> exists j, s' = adv j s.
Proof. intros Hm E. destruct (Hm s) as (b' & j & E'). exists j. congruence. Qed.
Lemma reads_bind_ok {B C} (m : tx S B) (k : B -> tx S C) s j c s' : reads m -> bind m k (adv j s) = Ok (c, s') ->
  exists b i, m (adv j s) = Ok (b, adv i s) /\ answers m b s /\ k b (adv i s) = Ok (c, s').
Proof.
  intros Hm E. apply bind_ok in E as (b & s1 & E & E'). destruct (reads_run m _ _ _ Hm E) as [i ->]. rewrite adv_add in E, E'.
  exists b, (i + j)%nat. split; [done|]. split; [by exists j, (adv (i + j) s)|done].
Qed.
End Reads.

(** A computation of a part reads the whole. *)
Section Part.
Context {S T : Type} `{Clocked S} `{Clocked T} (get : S -> T) (put : T -> S -> S).
Context (get_put : forall t s, get (put t s) = t) (put_get : forall s, put (get s) s = s).
Context (put_put : forall t t' s, put t (put t' s) = put t s) (ticks_part : forall s : S, tick_on s = put (tick_on (get s)) s).
Lemma adv_part j s : put (adv j (get s)) s = adv j s.
Proof.
  unfold adv. induction j as [|j IH]; simpl; [apply put_get|]. by rewrite <- IH, ticks_part, get_put, put_put.
Qed.
Lemma reads_part {B} (m : tx T B) :
  reads m -> reads (fun s => match m (get s) with Ok (b, t) => Ok (b, put t s) | Err e => Err e end).
Proof. intros Hm s. destruct (Hm (get s)) as (b & j & E). exists b, j. by rewrite E, adv_part. Qed.
End Part.

#[export] Instance clocked_db : Clocked db := tick.
#[export] Instance clocked_platform : Clocked platform := fun s => Payments.with_wallet (tick_on (Payments.wallet s)) s.
#[export] Instance clocked_books : Clocked (AutoRecharge.recharge account) := fun s => AutoRecharge.with_desk (tick_on (AutoRecharge.desk s)) s.
#[export] Instance clocked_fees : Clocked PlatformFee.fees := fun s => PlatformFee.with_books (tick_on (PlatformFee.books s)) s.
#[export] Instance clocked_roll : Clocked roll := fun s => with_fee_books (tick_on (fee_books s)) s.
#[export] Instance clocked_floor : Clocked floor := fun s => with_roll (tick_on (roll_of s)) s.

Ltac part := apply reads_part; [done|by intros []|done|done|].
Lemma reads_on_wallet {B} (m : tx db B) : reads m -> reads (S := platform) (Payments.on_wallet m).
Proof. intros. unfold Payments.on_wallet. by part. Qed.
Lemma reads_on_books {B} (m : tx platform B) : reads m -> reads (S := AutoRecharge.recharge account) (AutoRecharge.on_desk m).
Proof. intros. unfold AutoRecharge.on_desk. by part. Qed.
Lemma reads_fees {B} (m : tx (AutoRecharge.recharge account) B) : reads m -> reads (PlatformFee.on_books m).
Proof. intros. unfold PlatformFee.on_books. by part. Qed.
Lemma reads_in_fees {B} (m : tx PlatformFee.fees B) : reads m -> reads (in_fees m).
Proof. intros. unfold in_fees. by part. Qed.
Lemma reads_in_roll {B} (m : tx roll B) : reads m -> reads (in_roll m).
Proof. intros. unfold in_roll. by part. Qed.
Lemma reads_clock_timestamp : reads clock_timestamp.
Proof. intros s. by exists (ticks s 0%nat), 1%nat. Qed.

Create HintDb reads.
Ltac reads := repeat first
  [ apply reads_ret | apply reads_gets | apply reads_clock_timestamp
  | solve [eauto 2 with reads]
  | apply reads_on_wallet | apply reads_on_books | apply reads_fees | apply reads_in_fees | apply reads_in_roll
  | match goal with
    | |- reads (bind _ _) => apply reads_bind; [|intros ?]
    | |- reads (match ?x with _ => _ end) => destruct x
    end ].

Lemma reads_clock : reads clock.
Proof. unfold clock, on_wallet, in_wallet, PlatformFee.on_db, PlatformFee.on_platform. reads. Qed.
#[export] Hint Resolve reads_clock : reads.
Lemma reads_on_fees {B} (m : tx PlatformFee.fees B) : reads m -> reads (on_fees m).
Proof. intros. unfold on_fees. reads. Qed.
Lemma reads_on_desk {B} (m : tx platform B) : reads m -> reads (on_desk m).
Proof. intros. unfold on_desk, in_desk, PlatformFee.on_platform. reads. Qed.
Lemma reads_wallet {B} (m : tx db B) : reads m -> reads (on_wallet m).
Proof. intros. unfold on_wallet, in_wallet, PlatformFee.on_db, PlatformFee.on_platform. reads. Qed.

(** ** The questions the gate asks only read *)

Lemma reads_own_org t : reads (Trials.Trials.own_org t).
Proof. unfold Trials.Trials.own_org, Trials.Trials.session_tenant, read. reads. Qed.
Lemma reads_utc_now : reads utc_now.
Proof. unfold utc_now. reads. Qed.
#[export] Hint Resolve reads_own_org reads_utc_now : reads.
Lemma reads_read_trial t : reads (Trials.Trials.read_trial t).
Proof. unfold Trials.Trials.read_trial, Trials.Trials.session_tenant, read. reads. Qed.
Lemma reads_or_now o : reads (Trials.Trials.or_now o).
Proof. unfold Trials.Trials.or_now. reads. Qed.
#[export] Hint Resolve reads_read_trial reads_or_now : reads.
Lemma reads_trial_active t o : reads (Trials.Trials.trial_billing_active t o).
Proof. unfold Trials.Trials.trial_billing_active. reads. Qed.
Lemma reads_has_paid t : reads (FirstPayment.FirstPayment.has_paid t).
Proof. unfold FirstPayment.FirstPayment.has_paid. reads. Qed.
#[export] Hint Resolve reads_trial_active reads_has_paid : reads.
Lemma asks_restricting t : reads (TrialAccess.TrialAccess.restricting_trial t).
Proof. unfold TrialAccess.TrialAccess.restricting_trial. reads. Qed.
#[export] Hint Resolve asks_restricting : reads.
Lemma reads_trial_access cap secs t o : reads (TrialAccess.TrialAccess.read_trial_access cap secs t o).
Proof.
  unfold TrialAccess.TrialAccess.read_trial_access, Trials.Trials.trial_seconds_used, Trials.Trials.trial_calls_since,
    Trials.Trials.session_tenant, read. reads.
Qed.
Lemma reads_spend_capped t : reads (Caps.Caps.spend_capped t).
Proof. unfold Caps.Caps.spend_capped, Caps.Caps.current_billing_month, Caps.Caps.session_tenant, read. reads. Qed.
Lemma reads_dispute_hold t : reads (S := platform) (Disputes.Disputes.dispute_hold_active t).
Proof. unfold Disputes.Disputes.dispute_hold_active. reads. Qed.
Lemma asks_standing t : reads (PlatformFee.standing_of t).
Proof. unfold PlatformFee.standing_of, PlatformFee.session_tenant. reads. Qed.
Lemma reads_balance t : reads (Ledger.Ledger.get_balance t).
Proof. unfold Ledger.Ledger.get_balance, Ledger.Ledger.newest_balance, Ledger.Ledger.low_balance_line. reads. Qed.
Lemma reads_workspace t : reads (Workspaces.Workspaces.read_workspace_state t).
Proof. unfold Workspaces.Workspaces.read_workspace_state, Workspaces.Workspaces.session_tenant, read. reads. Qed.
#[export] Hint Resolve reads_trial_access reads_spend_capped reads_dispute_hold asks_standing reads_balance reads_workspace : reads.
Lemma reads_fee_paused w t : reads (PlatformFee.platform_fee_paused w t).
Proof.
  unfold PlatformFee.platform_fee_paused, PlatformFee.overdue_charge, PlatformFee.exemption_of, PlatformFee.charges_where,
    PlatformFee.session_tenant, PlatformFee.on_db, PlatformFee.on_platform. reads.
Qed.
#[export] Hint Resolve reads_fee_paused : reads.
Ltac asks := repeat first
  [ apply reads_ret | apply reads_gets
  | solve [eauto 2 with reads]
  | apply reads_wallet | apply reads_on_desk | apply reads_on_fees
  | match goal with
    | |- reads (bind _ _) => apply reads_bind; [|intros ?]
    | |- reads (match ?x with _ => _ end) => destruct x
    end ].
Lemma reads_stopped t : reads (account_stopped_blocker t).
Proof. unfold account_stopped_blocker. asks. Qed.
Lemma reads_credits t : reads (credits_exhausted t).
Proof. unfold credits_exhausted, plan_tier_of. asks. Qed.
Lemma reads_person t phone : reads (person_level_refusal t phone).
Proof. unfold person_level_refusal, latest_call_consent, outbound_requires_consent_of, session. cbv zeta. asks. Qed.
#[export] Hint Resolve reads_stopped reads_credits reads_person : reads.

Section Laws.
Context (engine : string) (is_developer_workspace : string -> bool).
Context (trial_daily_call_cap trial_call_max_seconds : Z).
Context (switch : PlatformFee.FeeSwitch) (enforced_from : Z) (is_space : Z -> bool).
Context (first_words_disclose : Phone.text -> opening -> option Phone.text -> option string -> bool).
Abbreviation read_call_lines := (read_call_lines engine is_developer_workspace).
Abbreviation call_lines_blocker := (call_lines_blocker engine is_developer_workspace trial_call_max_seconds).
Abbreviation account_dial_blockers := (account_dial_blockers trial_daily_call_cap trial_call_max_seconds switch).
Abbreviation a2p_dial_blocker := (a2p_dial_blocker enforced_from).
Abbreviation check_dispatch :=
  (check_dispatch engine is_developer_workspace trial_daily_call_cap trial_call_max_seconds switch enforced_from is_space first_words_disclose).
Abbreviation read_access := (TrialAccess.TrialAccess.read_trial_access trial_daily_call_cap trial_call_max_seconds).
Implicit Types s : floor.

Lemma reads_blockers t trial : reads (account_dial_blockers t trial).
Proof. unfold Gate.account_dial_blockers, kyc_blocker, pledge_blocker, agreements_blocker, session. asks. Qed.
Lemma reads_a2p t a trial own : reads (a2p_dial_blocker t a trial own).
Proof. unfold Gate.a2p_dial_blocker, session. asks. Qed.
#[local] Hint Resolve reads_blockers reads_a2p : reads.

(** The clock, at some read while the gate ran. *)
Definition at_clock s (P : instant -> Prop) : Prop := exists j, P (ticks (wallet_of (roll_of s)) j).
Lemma clock_run s : clock s = Ok (ticks (wallet_of (roll_of s)) 0%nat, adv 1 s).
Proof. by destruct s as [[[[]]]]. Qed.
Lemma clock_ok s n s1 : clock s = Ok (n, s1) -> n = ticks (wallet_of (roll_of s)) 0%nat /\ s1 = adv 1 s.
Proof. rewrite clock_run. by intros [= <- <-]. Qed.
Lemma ticks_adv j n s : ticks (wallet_of (roll_of (adv j s))) n = ticks (wallet_of (roll_of s)) (j + n)%nat.
Proof.
  unfold adv. revert n. induction j as [|j IH]; intros n; [done|]. simpl. unfold wallet_of, desk_of in *. simpl. rewrite IH. f_equal. lia.
Qed.
Lemma adv_session j s : tenant_of (adv j s) = tenant_of s.
Proof. by apply still. Qed.

(** ** What each question settles when it refuses nothing *)

Definition org_table s : list organization := organizations (Payments.account (desk_of (roll_of s))).
Lemma head_In {X} (p : X -> bool) l x : head (select p l) = Some x -> In x l /\ p x = true.
Proof.
  intros H. apply select_In. destruct (select p l) as [|y l']; [done|]. injection H as ->. by left.
Qed.
Lemma mine_spec {X} (k : X -> uuid) r t x : mine k r t x = true -> k x = t /\ r = t.
Proof. unfold mine. intros [H1%Z.eqb_eq H2%Z.eqb_eq]%andb_true_iff. split; congruence. Qed.

Lemma stopped_none t j s s' : account_stopped_blocker t (adv j s) = Ok (None, s') ->
  tenant_of s = t /\ exists o, In o (org_table s) /\ org_id o = t /\ deleted_at o = None /\ org_status o ∉ ["suspended"; "churned"].
Proof.
  intros H. unfold account_stopped_blocker in H. apply bind_ok in H as (o & s1 & E & H). apply ret_ok in H as [H _].
  assert (o = head (select (mine org_id (tenant_of s) t) (org_table s))) as ->.
  { injection E as <- _. change (head (select (mine org_id (tenant_of (adv j s)) t) (org_table (adv j s))) = head (select (mine org_id (tenant_of s) t) (org_table s))).
    by rewrite adv_session, (still org_table). }
  destruct (head _) as [o|] eqn:Eh; [|done]. apply head_In in Eh as [Ho [Hid Hr]%mine_spec]. split; [done|]. exists o.
  split; [done|]. split; [done|]. unfold stopped_rule in H. destruct (deleted_at o); [done|]. simpl in H.
  destruct (String.eqb_spec (org_status o) "suspended"); [done|]. destruct (String.eqb_spec (org_status o) "churned"); [done|].
  split; [done|]. intros [?|[?|[]%elem_of_nil]%elem_of_cons]%elem_of_cons; done.
Qed.

Lemma truthful_none t a j s s' : truthful_answer_drift_blocker t a (adv j s) = Ok (None, s') ->
  forall x, In x (drift_routes s) -> drifted t a x = true -> fresh (start_of s) x = false.
Proof.
  intros H x Hx Hd. apply gets_ok in H as [H _]. rewrite (still drift_routes), (still start_of) in H by done.
  assert (Hin : In x (order_by freshest (select (drifted t a) (drift_routes s)))) by (by apply order_by_In, select_In).
  pose proof (order_by_sorted freshest) as Hsort.
  destruct (order_by _ _) as [|y l] eqn:El; [done|]. destruct (fresh (start_of s) y) eqn:Ey; [done|].
  assert (Hyx : freshest y x = true).
  { apply (head_first freshest) with (t := select (drifted t a) (drift_routes s)).
    - intros u v. unfold freshest. destruct (drift_checked_at u), (drift_checked_at v); auto. lia.
    - intros u v w. unfold freshest. destruct (drift_checked_at u), (drift_checked_at v), (drift_checked_at w); try done. lia.
    - by rewrite El.
    - by apply select_In. }
  unfold fresh, freshest in *. destruct (drift_checked_at x), (drift_checked_at y); try done. lia.
Qed.

Lemma omap_none {X} (l : list (option X)) : omap id l = [] -> Forall (fun o => o = None) l.
Proof. induction l as [|[x|] l IH]; intros H; [done|done|]. constructor; [done|by apply IH]. Qed.

(** The account may place this call. *)
Record may_pay (t : uuid) (trial_call : bool) s : Prop := MayPay {
  mp_trial : exists o, answers (on_desk (read_access t None)) o s
    /\ match o with
       | None => trial_call = true -> answers (on_desk (FirstPayment.FirstPayment.has_paid t)) true s
       | Some a => trial_call = true /\ TrialAccess.TrialAccess.blocker a = None
       end;
  mp_identity : trial_call = false -> Kyc.kyc_rule (Kyc.read_kyc (tenant_of s) t (kyc_records s)) = None;
  mp_pledge : Pledge.pledge_blocker (tenant_of s) t (pledges s) = None;
  mp_agreements : Legal.agreements_blocker (tenant_of s) t (acceptances s) = None;
  mp_cap : answers (on_desk (Caps.Caps.spend_capped t)) false s;
  mp_dispute : answers (on_desk (Disputes.Disputes.dispute_hold_active t)) false s;
  mp_fee : answers (on_fees (PlatformFee.platform_fee_paused switch t)) false s;
  mp_credits : answers (credits_exhausted t) false s }.

Tactic Notation "one" hyp(H) simple_intropattern(b) simple_intropattern(E) simple_intropattern(A) :=
  apply reads_bind_ok in H as (b & ? & E & A & H); [|by asks].
Lemma blockers_none t trial_call j s s' : account_dial_blockers t trial_call (adv j s) = Ok ([], s') -> may_pay t trial_call s.
Proof.
  intros H. unfold Gate.account_dial_blockers in H.
  one H o E0 A0. one H paid E1 A1.
  apply reads_bind_ok in H as (identity & i1 & E2 & _ & H); [|unfold kyc_blocker, session; asks].
  apply reads_bind_ok in H as (unpledged & i2 & E3 & _ & H); [|unfold pledge_blocker, session; asks].
  apply reads_bind_ok in H as (unaccepted & i3 & E4 & _ & H); [|unfold agreements_blocker, session; asks].
  one H capped E5 A5. one H disputed E6 A6. one H paused E7 A7. one H broke E8 A8.
  apply ret_ok in H as [H _]. symmetry in H. apply omap_none in H. rewrite !Forall_cons in H.
  destruct H as (F1 & F2 & F3 & F4 & F5 & F6 & F7 & F8 & F9 & F10 & _). subst.
  destruct paid; [|done]. destruct capped; [done|]. destruct disputed; [done|]. destruct paused; [done|]. destruct broke; [done|].
  constructor; try done.
  - exists o. split; [done|]. destruct o as [a|]; simpl in *.
    + split; [by destruct trial_call|done].
    + intros ->. done.
  - intros ->. unfold kyc_blocker, session in E2. apply bind_ok in E2 as (r & s1 & E & E2). apply gets_ok in E as [-> ->].
    apply gets_ok in E2 as [E2 _]. by rewrite adv_session, (still kyc_records) in E2 by done.
  - unfold pledge_blocker, session in E3. apply bind_ok in E3 as (r & s1 & E & E3). apply gets_ok in E as [-> ->].
    apply gets_ok in E3 as [E3 _]. by rewrite adv_session, (still pledges) in E3 by done.
  - unfold agreements_blocker, session in E4. apply bind_ok in E4 as (r & s1 & E & E4). apply gets_ok in E as [-> ->].
    apply gets_ok in E4 as [E4 _]. by rewrite adv_session, (still acceptances) in E4 by done.
Qed.

Lemma lines_read t j s l s1 : read_call_lines t (adv j s) = Ok (l, s1) -> exists i, s1 = adv i s.
Proof.
  intros E. unfold Gate.read_call_lines, session in E. apply bind_ok in E as (r & s2 & E1 & E). apply gets_ok in E1 as [_ ->].
  apply bind_ok in E as (o & s2 & E1 & E). apply gets_ok in E1 as [_ ->]. destruct o as [x|]; [|by apply raise_ok in E].
  one E tr E1 _. unfold engine_holds_it in E. one E hd E2 _. apply ret_ok in E as [_ ->]. by eexists.
Qed.
Lemma lines_clock t j s b s' : call_lines_blocker t (adv j s) = Ok (b, s') -> exists i, s' = adv i s.
Proof.
  intros H. unfold Gate.call_lines_blocker in H. apply bind_ok in H as (l & s1 & E & H). apply lines_read in E as [i ->].
  destruct (negb _); [apply ret_ok in H as [_ ->]; by exists i|].
  apply reads_bind_ok in H as (n & k & _ & _ & H); [|unfold calls_in_progress, session; asks]. apply ret_ok in H as [_ ->]. by exists k.
Qed.
Lemma lines_none t j s s' : call_lines_blocker t (adv j s) = Ok (None, s') ->
  exists l, answers (read_call_lines t) l s /\ (on_trial l = true ->
    Z.of_nat (holding trial_call_max_seconds (tenant_of s) t (start_of s) (call_table s)) < lines l).
Proof.
  intros H. unfold Gate.call_lines_blocker in H. apply bind_ok in H as (l & s1 & E & H). exists l. split; [by exists j, s1|].
  intros Hl. rewrite Hl in H. cbn [negb] in H.
  apply lines_read in E as [i ->].
  apply bind_ok in H as (n & s2 & E1 & H). apply ret_ok in H as [H _]. unfold calls_in_progress, session in E1.
  apply bind_ok in E1 as (r & s3 & E2 & E1). apply gets_ok in E2 as [-> ->]. apply gets_ok in E1 as [-> ->].
  rewrite adv_session, (still start_of), (still call_table) in H by done. destruct (_ <? _) eqn:El; [|done]. lia.
Qed.

(** The person may be called. *)
Record may_call (t : uuid) (phone : string) s : Prop := MayCall {
  mc_india : String.prefix INDIA_E164_PREFIX phone = true;
  mc_number : String.prefix ANONYMIZED_PREFIX phone = false;
  mc_listed : forall e, In e (dnc_list (roll_of s)) -> visible (tenant_of s) e = true -> suppresses t phone e = false;
  mc_consent :
    match newest_call_consent (tenant_of s) t phone (consent_ledger (roll_of s)) with
    | None => match own_footing (tenant_of s) t (footings s) with Some x => outbound_requires_consent x = false | None => True end
    | Some c => (cn_status c ∉ DIAL_REFUSING_CONSENT_STATUSES)
                /\ forall e, expires_at c = Some e -> at_clock s (fun n => n < e)
    end }.
Lemma person_none t phone j s s' : person_level_refusal t phone (adv j s) = Ok (None, s') -> may_call t phone s.
Proof.
  intros H. unfold person_level_refusal in H. destruct (String.prefix INDIA_E164_PREFIX phone) eqn:Ei; cbn [negb] in H; [|by apply ret_ok in H as [? _]].
  destruct (String.prefix ANONYMIZED_PREFIX phone) eqn:Ea; [by apply ret_ok in H as [? _]|].
  unfold session in H. apply bind_ok in H as (r & s1 & E & H). apply gets_ok in E as [-> ->].
  apply bind_ok in H as (b & s1 & E & H). apply gets_ok in E as [-> ->]. rewrite adv_session, (still (fun s => dnc_list (roll_of s))) in H by done.
  destruct (existsb _ _) eqn:Ex; [by apply ret_ok in H as [? _]|].
  apply bind_ok in H as (c & s1 & E & H). unfold latest_call_consent, session in E. apply bind_ok in E as (r & s2 & E1 & E).
  apply gets_ok in E1 as [-> ->]. apply gets_ok in E as [-> ->]. rewrite adv_session, (still (fun s => consent_ledger (roll_of s))) in H by done.
  constructor; [done|done| |].
  - intros e He Hv. destruct (suppresses t phone e) eqn:Es; [|done].
    assert (existsb (fun e => visible (tenant_of s) e && suppresses t phone e) (dnc_list (roll_of s)) = true); [|congruence].
    apply existsb_exists. exists e. by rewrite Hv, Es.
  - destruct (newest_call_consent _ _ _ _) as [c|].
    + destruct (bool_decide _) eqn:Ed; [by apply ret_ok in H as [? _]|]. apply bool_decide_eq_false in Ed. split; [done|].
      intros e He. rewrite He in H. apply bind_ok in H as (n & s1 & E & H). apply clock_ok in E as [-> ->].
      apply ret_ok in H as [H _]. destruct (_ <=? _) eqn:El; [done|]. exists (j + 0)%nat. rewrite ticks_adv in El. lia.
    + apply bind_ok in H as (n & s1 & E & H). apply ret_ok in H as [H _]. unfold outbound_requires_consent_of, session in E.
      apply bind_ok in E as (r & s2 & E1 & E). apply gets_ok in E1 as [-> ->]. apply gets_ok in E as [-> ->].
      rewrite adv_session, (still footings) in H by done. destruct (own_footing _ _ _) as [x|]; [|done]. by destruct (outbound_requires_consent x).
Qed.

(** The numbers the call can come from are declared, where that is asked. *)
Definition declared_for (t a : uuid) (trial_call own_number_attested : bool) s : Prop :=
  at_clock s (fun n => A2p.ist_day n < enforced_from)
  \/ (trial_call = true /\ own_number_attested = true)
  \/ (trial_call = false /\ at_clock s (fun n =>
        A2p.agent_calling_numbers (tenant_of s) a (numbers s) <> []
        /\ forall p, In p (A2p.agent_calling_numbers (tenant_of s) a (numbers s)) ->
             exists x, A2p.unwithdrawn_since x (A2p.history (tenant_of s) t (notices s)) /\ A2p.is_effective (A2p.ist_day n) x = true
               /\ In p (A2p.declared_clis x))).
Lemma a2p_none t a trial_call own j s s' : a2p_dial_blocker t a trial_call own (adv j s) = Ok (None, s') -> declared_for t a trial_call own s.
Proof.
  intros H. unfold Gate.a2p_dial_blocker in H. apply bind_ok in H as (n & s1 & E & H). apply clock_ok in E as [-> ->].
  rewrite ticks_adv in H. destruct (A2p.enforcement_active _ _) eqn:Ee; cbn [negb] in H.
  2:{ left. exists (j + 0)%nat. unfold A2p.enforcement_active in Ee. lia. }
  destruct trial_call; [apply ret_ok in H as [H _]; right; left; by destruct own|]. right. right. split; [done|].
  apply bind_ok in H as (n & s1 & E & H). apply clock_ok in E as [-> ->]. rewrite !adv_add, ticks_adv in H.
  unfold session in H. apply bind_ok in H as (r & s1 & E & H). apply gets_ok in E as [-> ->]. apply gets_ok in H as [H _].
  rewrite !adv_session, (still numbers), (still notices) in H by done. symmetry in H. apply A2p.blocker_sound in H as (Hne & d & _ & _ & Hp).
  exists (1 + j + 0)%nat. split; [done|]. intros p Hin. by destruct (Hp p Hin) as [_ Hx].
Qed.

(** The agent may place this call. *)
Record may_speak (r t i : uuid) (trial_call : bool) s (a : agent) : Prop := MaySpeak {
  ms_row : In a (agents s) /\ ag_tenant a = t /\ ag_id a = i /\ ag_deleted_at a = None;
  ms_line : Phone.strip is_space (ai_disclosure_line a) <> [];
  ms_says : says_its_notices first_words_disclose r s a = true;
  ms_ready : if trial_call then ag_status a ∈ ["live"; AGENT_READY_STATUS] /\ exists x, engine_agent_ref a = Some x /\ x <> ""
             else ag_status a = "live" /\ direction a <> "inbound" }.
Lemma agent_rule_none r s j a trial_call :
  agent_rule is_space first_words_disclose r (adv j s) a trial_call = None ->
  Phone.strip is_space (ai_disclosure_line a) <> [] /\ says_its_notices first_words_disclose r s a = true
  /\ if trial_call then ag_status a ∈ ["live"; AGENT_READY_STATUS] /\ exists x, engine_agent_ref a = Some x /\ x <> ""
     else ag_status a = "live" /\ direction a <> "inbound".
Proof.
  unfold agent_rule. destruct (bool_decide _) eqn:Eb; [done|]. apply bool_decide_eq_false in Eb.
  assert (says_its_notices first_words_disclose r (adv j s) a = says_its_notices first_words_disclose r s a) as ->.
  { unfold says_its_notices. by rewrite (still prompts), (still footings). }
  destruct (says_its_notices _ _ _ _); [|done]. cbn [negb]. unfold dial_refusal_for_agent_status.
  destruct (String.eqb_spec (ag_status a) "live") as [->|]; destruct trial_call; cbn [andb].
  - destruct (engine_agent_ref a) as [x|]; [|done]. destruct (String.eqb_spec x ""); [done|]. intros _.
    split; [done|]. split; [done|]. split; [by left|]. by exists x.
  - destruct (String.eqb_spec (direction a) "inbound"); [done|]. done.
  - destruct (String.eqb_spec (ag_status a) AGENT_READY_STATUS) as [->|]; [|by destruct (String.eqb _ _)].
    destruct (engine_agent_ref a) as [x|]; [|done]. destruct (String.eqb_spec x ""); [done|]. intros _.
    split; [done|]. split; [done|]. split; [right; by left|]. by exists x.
  - done.
Qed.

(** ** The gate *)

(** Everything an outbound call rests on. *)
Record cleared (p : PlatformStatus) (t i : uuid) (phone : string) (trial_call own_number_attested places_call : bool) s : Prop := Cleared {
  cl_platform : outbound_halted p = false /\ maintenance p = "none";
  cl_session : tenant_of s = t;
  cl_account : exists o, In o (org_table s) /\ org_id o = t /\ deleted_at o = None /\ org_status o ∉ ["suspended"; "churned"];
  cl_agent : exists a, may_speak t t i trial_call s a;
  cl_truthful : forall x, In x (drift_routes s) -> drifted t i x = true -> fresh (start_of s) x = false;
  cl_pays : may_pay t trial_call s;
  cl_lines : trial_call = true -> exists l, answers (read_call_lines t) l s /\ (on_trial l = true ->
    Z.of_nat (holding trial_call_max_seconds t t (start_of s) (call_table s)) < lines l);
  cl_hours : (trial_call = true /\ own_number_attested = true)
    \/ at_clock s (fun n => hms 9 0 0 <= dt_time (to_ist n) < hms 21 0 0);
  cl_person : may_call t phone s;
  cl_declared : places_call = true -> declared_for t i trial_call own_number_attested s }.

Lemma unless_allowed found rest s d s' : unless found rest s = Ok (d, s') -> allowed d = true -> found = None /\ rest s = Ok (d, s').
Proof. destruct found; [|done]. simpl. intros [-> _]%ret_ok. done. Qed.
Ltac pass H Ha := apply unless_allowed in H as [-> H]; [|exact Ha].

Lemma allowed_cleared p t i phone trial_call own places s d s' :
  check_dispatch p t i phone trial_call own places s = Ok (d, s') -> allowed d = true ->
  cleared p t i phone trial_call own places s.
Proof.
  intros H Ha. unfold Gate.check_dispatch in H.
  destruct (outbound_halted p) eqn:Eh; [apply ret_ok in H as [-> _]; done|].
  destruct (accepting_new_work p) eqn:Ew; [|apply ret_ok in H as [-> _]; done]. cbn [negb] in H. change s with (adv 0 s) in H.
  apply reads_bind_ok in H as (st & j1 & E1 & _ & H); [|by asks]. pass H Ha. apply stopped_none in E1 as [Hr Ho].
  apply reads_bind_ok in H as (oa & j2 & E2 & _ & H); [|unfold read_agent, session; asks].
  destruct oa as [a|]; [|apply ret_ok in H as [-> _]; done].
  unfold read_agent, session in E2. apply bind_ok in E2 as (r & s2 & E & E2). apply gets_ok in E as [-> ->].
  apply gets_ok in E2 as [E2 _]. rewrite adv_session, (still agents), Hr in E2 by done. symmetry in E2.
  apply head_In in E2 as [Hin Hp]. apply andb_true_iff in Hp as [Hp Hd]. apply andb_true_iff in Hp as [Hm Hi].
  apply mine_spec in Hm as [Hat _]. unfold by_id in Hi. apply Z.eqb_eq in Hi.
  unfold session in H. apply bind_ok in H as (r & s3 & E & H). apply gets_ok in E as [-> ->].
  apply bind_ok in H as (own_ & s3 & E & H). apply gets_ok in E as [-> ->]. rewrite adv_session, Hr in H.
  apply unless_allowed in H as [E3 H]; [|exact Ha]. apply agent_rule_none in E3 as (Hl & Hs & Hready).
  apply reads_bind_ok in H as (tr & j3 & E4 & _ & H); [|unfold truthful_answer_drift_blocker; asks]. pass H Ha.
  pose proof (truthful_none _ _ _ _ _ E4) as Ht.
  apply reads_bind_ok in H as (found & j4 & E5 & _ & H); [|by asks]. apply unless_allowed in H as [Ef H]; [|exact Ha].
  destruct found; [|done]. apply blockers_none in E5.
  apply bind_ok in H as (busy & s4 & E6 & H). apply unless_allowed in H as [-> H]; [|exact Ha].
  assert (exists j5, s4 = adv j5 s /\ (trial_call = true -> exists l, answers (read_call_lines t) l s /\ (on_trial l = true ->
    Z.of_nat (holding trial_call_max_seconds (tenant_of s) t (start_of s) (call_table s)) < lines l))) as (j5 & -> & Hlines).
  { destruct trial_call; [|apply ret_ok in E6 as [_ ->]; by exists j4]. pose proof (lines_none _ _ _ _ E6) as Hl'.
    destruct (lines_clock _ _ _ _ _ E6) as [j5 ->]. by exists j5. }
  apply bind_ok in H as (late & s5 & E7 & H). destruct late; [apply ret_ok in H as [-> _]; done|].
  assert (exists j6, s5 = adv j6 s /\ ((trial_call = true /\ own = true)
    \/ at_clock s (fun n => hms 9 0 0 <= dt_time (to_ist n) < hms 21 0 0))) as (j6 & -> & Hhours).
  { destruct (trial_call && own) eqn:Et; [apply ret_ok in E7 as [_ ->]; exists j5; split; [done|left; by apply andb_true_iff]|].
    apply bind_ok in E7 as (n & s6 & E & E7). apply clock_ok in E as [-> ->]. apply ret_ok in E7 as [E7 ->]. rewrite adv_add.
    exists (1 + j5)%nat. split; [done|right]. exists (j5 + 0)%nat. rewrite ticks_adv in E7. unfold within_calling_hours in E7. lia. }
  apply reads_bind_ok in H as (person & j7 & E8 & _ & H); [|by asks]. pass H Ha. apply person_none in E8.
  apply bind_ok in H as (und & s8 & E9 & H). pass H Ha.
  constructor; try done.
  - split; [done|]. by apply String.eqb_eq.
  - exists a. constructor; try done. destruct (ag_deleted_at a) eqn:Ed; [done|]. done.
  - rewrite Hr in Hlines. exact Hlines.
  - intros ->. by apply a2p_none in E9.
Qed.

(** The gate answers at [s]: with a decision that names its rule exactly when it refuses,
    every table as it was. *)
Definition decides (m : tx floor DispatchDecision) s : Prop :=
  exists d j, m s = Ok (d, adv j s) /\ (allowed d = true <-> rule d = None).
Lemma decides_bind {B} (m : tx floor B) k s :
  (exists b j, m s = Ok (b, adv j s)) -> (forall b j, m s = Ok (b, adv j s) -> decides (k b) (adv j s)) -> decides (bind m k) s.
Proof.
  intros (b & j & E) Hk. destruct (Hk b j E) as (d & i & E' & Hd). exists d, (i + j)%nat. unfold bind. rewrite E, E'. by rewrite adv_add.
Qed.
Lemma decides_ret d s : (allowed d = true <-> rule d = None) -> decides (ret d) s.
Proof. intros H. by exists d, 0%nat. Qed.
Lemma decides_refused x s : decides (ret (refused x)) s.
Proof. by apply decides_ret. Qed.
Lemma decides_unless found rest s : decides rest s -> decides (unless found rest) s.
Proof. destruct found; [intros; apply decides_refused|done]. Qed.

(** Each organisation has its row of [footings]: the two hold the columns of one table. *)
Definition footed s : Prop := forall o, In o (org_table s) -> is_given (own_footing (tenant_of s) (org_id o) (footings s)) = true.
Lemma lines_answer t j s : is_given (own_footing (tenant_of s) t (footings s)) = true ->
  exists b i, call_lines_blocker t (adv j s) = Ok (b, adv i (adv j s)).
Proof.
  intros Hf. assert (Hl : exists l i, read_call_lines t (adv j s) = Ok (l, adv i (adv j s))).
  { unfold Gate.read_call_lines, session. unfold bind at 1, gets at 1. unfold bind at 1, gets at 1.
    rewrite adv_session, (still footings) by done. destruct (own_footing _ _ _) as [x|]; [|done]. cbv zeta.
    assert (R : forall m : tx floor CallLines, reads m -> exists l i, m (adv j s) = Ok (l, adv i (adv j s))) by (intros m Hm; apply Hm).
    apply R. unfold engine_holds_it. asks. }
  destruct Hl as (l & i & E). unfold Gate.call_lines_blocker. unfold bind at 1. rewrite E.
  assert (R : forall m : tx floor (option string), reads m -> exists b k, m (adv i (adv j s)) = Ok (b, adv k (adv j s))).
  { intros m Hm. destruct (Hm (adv i (adv j s))) as (b & k & E'). exists b, (k + i)%nat. by rewrite E', adv_add. }
  apply R. unfold calls_in_progress, session. asks.
Qed.

Lemma gate_decides p t i phone trial_call own places s : footed s -> decides (check_dispatch p t i phone trial_call own places) s.
Proof.
  intros Hf. unfold Gate.check_dispatch. destruct (outbound_halted p); [apply decides_refused|]. destruct (negb _); [apply decides_refused|].
  change s with (adv 0 s). apply decides_bind; [apply reads_stopped|]. intros [st|] j1 E1; [apply decides_refused|]. cbn [unless].
  apply stopped_none in E1 as (_ & o & Ho & Hid & _). pose proof (Hf o Ho) as Hg. rewrite Hid in Hg. rewrite adv_add.
  apply decides_bind; [unfold read_agent, session; apply reads_bind; [|intros ?]; apply reads_gets|]. intros [a|] j2 _; [|apply decides_refused].
  apply decides_bind; [apply reads_gets|]. intros r j3 _. apply decides_bind; [apply reads_gets|]. intros rule j4 _. apply decides_unless.
  apply decides_bind; [apply reads_gets|]. intros tr j5 _. apply decides_unless. apply decides_bind; [apply reads_blockers|]. intros found j6 _.
  apply decides_unless. rewrite !adv_add. apply decides_bind.
  { destruct trial_call; [by apply lines_answer|apply reads_ret]. }
  intros busy j7 _. apply decides_unless. apply decides_bind.
  { destruct (trial_call && own); [apply reads_ret|]. apply reads_bind; [apply reads_clock|]. intros ?. apply reads_ret. }
  intros [|] j8 _; [apply decides_refused|]. apply decides_bind; [apply reads_person|]. intros person j9 _. apply decides_unless.
  apply decides_bind; [destruct places; [apply reads_a2p|apply reads_ret]|]. intros und j10 _. apply decides_unless. by apply decides_ret.
Qed.

Lemma pledged r t l : Pledge.pledge_blocker r t l = None -> exists y, Pledge.read_pledge r t l = Some y /\ Pledge.pledge_version y = Pledge.PLEDGE_VERSION.
Proof.
  unfold Pledge.pledge_blocker. destruct (Pledge.read_pledge r t l) as [y|]; [|done]. simpl. destruct (_ =? _) eqn:E; [|done].
  intros _. exists y. split; [done|]. by apply Z.eqb_eq.
Qed.

(** C6. The outbound gate.  Asked of any call, it answers, names a rule exactly when it
    refuses, and changes no table.  And it lets a call through only if the platform is
    taking calls; the account stands; the agent is live (or ready, for a test call), has
    its disclosure, says its notices and has not been found without the truthful answer;
    the account's trial, cap, disputes, fee and wallet allow it; a business verified on
    evidence, the pledge in force and every blocking agreement settled stand behind it; a
    line is free; it is between 9:00 and 21:00 in India; the person is on no do-not-call
    list and has refused no call; and the calling numbers are declared once that is asked. *)
Theorem dispatch_cleared p t i phone trial_call own places s :
  Forall (fun x => Kyc.check x = true) (kyc_records s) -> footed s ->
  exists d j, check_dispatch p t i phone trial_call own places s = Ok (d, adv j s)
    /\ (allowed d = true <-> rule d = None)
    /\ (allowed d = true ->
          cleared p t i phone trial_call own places s
          /\ (trial_call = false -> exists x, Kyc.read_kyc t t (kyc_records s) = Some x /\ Kyc.evidenced x)
          /\ (exists y, Pledge.read_pledge t t (pledges s) = Some y /\ Pledge.pledge_version y = Pledge.PLEDGE_VERSION)
          /\ (forall d, In d Legal.DOCUMENTS -> Legal.blocking d = true -> Legal.settled t t (acceptances s) d)).
Proof.
  intros Hk Hf. destruct (gate_decides p t i phone trial_call own places s Hf) as (d & j & E & Hd). exists d, j. split; [done|]. split; [done|].
  intros Ha. pose proof (allowed_cleared _ _ _ _ _ _ _ _ _ _ E Ha) as C. split; [done|].
  destruct C as [_ Hr _ _ _ [_ Hid Hp Hag _ _ _ _] _ _ _ _]. rewrite Hr in *. split; [|split].
  - intros Ht. specialize (Hid Ht). destruct (Kyc.read_kyc t t (kyc_records s)) as [x|] eqn:Ex; [|done]. exists x. split; [done|].
    apply Kyc.passes_evidenced; [|done]. apply head_In in Ex as [Hx _]. rewrite Forall_forall in Hk. apply Hk. by apply list_elem_of_In.
  - by apply pledged.
  - intros doc Hdoc Hb. apply Legal.not_required_settled. rewrite Legal.agreements_spec in Hag. by apply Hag.
Qed.

(** ** An opt-out, all the way to the dial *)

Section OptOut.
Context (decimal : Z -> option Z) (hmac_hex : string -> string -> string) (dumps : Audit.payload -> string) (audit_key : string).
Context (sha256_hex : string -> string) (seal : string -> string -> string) (redact : Phone.text -> Phone.text).
Abbreviation optout := (record_call_optout is_space decimal engine is_developer_workspace hmac_hex dumps audit_key).
Abbreviation unrestored := (unrestored is_space decimal engine is_developer_workspace hmac_hex dumps audit_key sha256_hex seal redact).

Lemma suppressed_refused i t phone s p a trial_call own places d s' : binding i t phone (roll_of s) ->
  check_dispatch p t a phone trial_call own places s = Ok (d, s') -> allowed d = false.
Proof.
  intros [(e & He & _ & Ht & Hp & _) _] H. destruct (allowed d) eqn:Ha; [|done]. exfalso.
  destruct (allowed_cleared _ _ _ _ _ _ _ _ _ _ H Ha) as [_ Hr _ _ _ _ _ _ [_ _ Hl _] _].
  assert (suppresses t phone e = false) as Hs. { apply Hl; [done|]. unfold visible. rewrite Ht, Hr. apply Z.eqb_refl. }
  unfold suppresses, visible in Hs. rewrite Hp, Ht, String.eqb_refl, Z.eqb_refl in Hs. done.
Qed.

(** C7. A person who asks on a call to be left alone is not called again.  From the
    transaction that records it on, and whatever any session does to any table after it,
    short of restoring that very row on an attested ground, the gate refuses every call for
    that client to that number: from any agent, as a test call or not, to a phone the owner
    vouches for or not, on WhatsApp as by voice. *)
Theorem optout_ends_calls t raw call detected_by signal (s : roll) x (s1 : roll) : keys_ok (dnc_list s) ->
  optout t raw call detected_by signal s = Ok (x, s1) ->
  exists i phone, Phone.normalize_phone is_space decimal raw = Some phone
    /\ forall f, rtc (unrestored i) s1 (roll_of f) ->
         forall p a trial_call own places d f', check_dispatch p t a phone trial_call own places f = Ok (d, f') -> allowed d = false.
Proof.
  intros K H. destruct (optout_binds is_space decimal engine is_developer_workspace hmac_hex dumps audit_key _ _ _ _ _ _ _ _ K H) as (i & phone & Hp & B & _).
  exists i, phone. split; [done|]. intros f Hs p a trial_call own places d f' Hd.
  eapply suppressed_refused; [|exact Hd]. eapply binding_stands; [exact B|exact Hs].
Qed.
End OptOut.
End Laws.
(** ** An example *)
Module Example.
Import Phone.Example.
Definition no_developer := FirstPayment.FirstPayment.Example.no_developer.
Definition noon : instant := of_ist (DateTime (Date 2026 10 1) (hms 12 0 0)).
Definition desk_at (n : instant) (st : string) : platform :=
  Payments.Pay account (Db 7 n (fun k => n + Z.of_nat k) Z.of_nat [] [] [] []) (RateCard.RatesDb [] []) [] [] [] []
    (Acct [] [] [] [Organization 7 st None (Some 0) None None] [] [] [] [] []).
Definition roll_at (n : instant) (st : string) : roll :=
  Roll (PlatformFee.Fees (AutoRecharge.Recharge account (desk_at n st) [] [] []) [] [] [PlatformFee.Standing 7 "managed" None None None None])
    [] [] [] [] [].
Definition script : opening := Opening true true None "en-IN" None None.
Definition floor_of (r : roll) (k : list Kyc.row) (dir : string) : floor :=
  Floor r k [Pledge.Row 1 7 2 "sha" 1 None 0 0] Legal.Example.four A2p.Example.told [A2p.Number 1 7 (Some 5) "+919848022338" None 0]
    [Agent 5 7 (Phone.points "I am an AI") "live" dir (Some "ref") script None] [] [] [Footing 7 None false None None None].
Definition says (_ : Phone.text) (_ : opening) (_ : option Phone.text) (_ : option string) : bool := true.
Definition up : PlatformStatus := Status false "none".
Abbreviation gate p phone s :=
  (check_dispatch "thinnest" no_developer 5 600 (PlatformFee.Switch false None) 0 is_space says p 7 5 phone false false true s).
Definition verdict (r : result (DispatchDecision * floor)) : option (bool * option string) :=
  match r with Ok (d, _) => Some (allowed d, rule d) | Err _ => None end.
Definition person : string := "+919999900000".
Definition open_floor : floor := floor_of (roll_at noon "active") Kyc.Example.verified "outbound".
Abbreviation asked_ :=
  (record_call_optout is_space decimal "thinnest" no_developer Audit.Example.keyed Audit.Example.dumps "key" 7 (Phone.points "99999 00000") (Some 1)
    "in_call_tool" (Signal "stop" "en" None "stop") (roll_at noon "active")).
Definition asked : roll := match asked_ with Ok (_, r) => r | Err _ => roll_at noon "active" end.
Example one_refusal_each :
  map verdict
    [gate up person open_floor;
     gate (Status true "none") person open_floor;
     gate (Status false "draining") person open_floor;
     gate up person (floor_of (roll_at noon "suspended") Kyc.Example.verified "outbound");
     gate up person (floor_of (roll_at noon "active") Kyc.Example.verified "inbound");
     gate up person (floor_of (roll_at noon "active") Kyc.Example.asked "outbound");
     gate up person (floor_of (roll_at (noon + 9 * 3600 * 1000000) "active") Kyc.Example.verified "outbound");
     gate up "+14155550100" open_floor;
     gate up "+910000000042" open_floor;
     gate up person (floor_of asked Kyc.Example.verified "outbound")]
  = Some (true, None)
    :: map (fun x => Some (false, Some x))
         ["big_red_switch"; "platform_maintenance"; "account_suspended"; "agent_inbound_only"; "kyc_digilocker_required"; "calling_hours";
          "destination_not_india"; "destination_erased"; "dnc"].
Proof. vm_compute. done. Qed.

Example open_passes : verdict (gate up person open_floor) = Some (true, None).
Proof. vm_compute. reflexivity. Qed.
Lemma floor_roll r k d : roll_of (floor_of r k d) = r.
Proof. reflexivity. Qed.
Lemma open_footed : footed open_floor.
Proof. intros o [<-|[]]. reflexivity. Qed.
Lemma asked_run : exists x, asked_ = Ok (x, asked).
Proof.
  assert (H : match asked_ with Ok _ => true | Err _ => false end = true) by (vm_compute; reflexivity).
  unfold asked. destruct asked_ as [[x r]|]; [by exists x|done].
Qed.
End Example.
Import Phone.Example Example.

Lemma dispatch_cleared_witness :
  footed open_floor /\ cleared "thinnest" no_developer 5 600 (PlatformFee.Switch false None) 0 is_space says up 7 5 person false false true open_floor.
Proof.
  split; [exact open_footed|].
  assert (K : Forall (fun x => Kyc.check x = true) (kyc_records open_floor)) by exact (proj1 Kyc.Example.verified_ok).
  destruct (dispatch_cleared "thinnest" no_developer 5 600 (PlatformFee.Switch false None) 0 is_space says up 7 5 person false false true
    open_floor K open_footed) as (d & j & E & _ & H).
  apply H. pose proof open_passes as X. rewrite E in X. cbn [verdict] in X. injection X as X _. exact X.
Defined.
Lemma optout_ends_calls_witness :
  exists x, asked_ = Ok (x, asked) /\ exists d f', gate up person (floor_of asked Kyc.Example.verified "outbound") = Ok (d, f') /\ allowed d = false.
Proof.
  destruct asked_run as [x E]. exists x. split; [exact E|].
  destruct (optout_ends_calls "thinnest" no_developer 5 600 (PlatformFee.Switch false None) 0 is_space says decimal
    Audit.Example.keyed Audit.Example.dumps "key" (fun s => s) (fun p c => p) (fun t => t) 7 (Phone.points "99999 00000") (Some 1)
    "in_call_tool" (Signal "stop" "en" None "stop") (roll_at noon "active") x asked) as (i & phone & Hp & H);
    [split; apply NoDup_nil_2|exact E|].
  assert (N : Phone.normalize_phone is_space decimal (Phone.points "99999 00000") = Some person) by (vm_compute; reflexivity).
  assert (V : verdict (gate up person (floor_of asked Kyc.Example.verified "outbound")) <> None) by (vm_compute; discriminate).
  destruct (gate up person (floor_of asked Kyc.Example.verified "outbound")) as [[d f']|] eqn:Eg; [|destruct (V eq_refl)].
  exists d, f'. split; [reflexivity|]. refine (H (floor_of asked Kyc.Example.verified "outbound") _ up 5 false false true d f' _).
  - rewrite floor_roll. apply rtc_refl.
  - assert (phone = person) as -> by (rewrite Hp in N; injection N as N; exact N). exact Eg.
Defined.
End Gate.
