(* ===== verification/Callbacks.v ===== *)
(** * Scheduled call-backs

    The promise to ring somebody back, over its whole life: callbacks/service.py and the
    dial pass of apps/workers/callbacks.py, with the campaign's calling hours
    (campaigns/scheduling.py, campaigns/service.py).  A pass settles what is over, holds and
    releases what its campaign pauses and resumes, ends what is past its grace, claims what
    is due, and puts each claimed promise through the gate ([Gate]).  What the pass asks of
    the Follow-ups, of the new lead's retries and of the one outbound entry point is an
    interface ([surroundings]), with what it leaves of the promises as its law. *)

From Stdlib Require Import ZArith Lia List QArith Ascii.
From stdpp Require Import base list strings relations.
From S2P Require Import Prelude PyDecimal Sql PyTime AuditLog WalletDb RateCard Ledger Envelope Payments AutoRecharge Account Trials TrialAccess PlatformFee Phone Dnc Clearance Gate.

Local Open Scope string_scope.
Local Open Scope list_scope.
Local Open Scope Z_scope.
Local Open Scope tx_scope.

Import AutoRecharge Payments Account Dnc.

Module Callbacks.

(** ** The calling hours of a campaign *)

Module Hours.

Definition DEFAULT_WINDOW : Z * Z := (hms 9 0 0, hms 21 0 0).
(** [campaigns.calling_hours]: the two texts of the JSON object, where it has them. *)
Record hours := Hours { start : option string; end_ : option string }.

Definition digit (c : ascii) : option Z := if Phone.is_digit c then Some (Phone.code c - 48) else None.
Definition one_or_two (s : string) : option Z :=
  match s with
  | String a EmptyString => digit a
  | String a (String b EmptyString) => match digit a, digit b with Some x, Some y => Some (10 * x + y) | _, _ => None end
  | _ => None
  end.
(** [strptime(s, "%H:%M")]. *)
Definition parse_hhmm (s : string) : option Z :=
  match String.index 0 ":" s with
  | None => None
  | Some n =>
      match one_or_two (String.substring 0 n s), one_or_two (String.substring (S n) (String.length s) s) with
      | Some h, Some m => if (h <=? 23) && (m <=? 59) then Some (hms h m 0) else None
      | _, _ => None
      end
  end.
Definition parse (o : option string) : option Z := match o with Some s => parse_hhmm s | None => None end.
(** [strftime("%H:%M")] of a whole minute. *)
Definition hhmm (t : Z) : string :=
  let m := t / 60000000 in
  Phone.digit_text [m / 60 / 10; m / 60 mod 10] +:+ ":" +:+ Phone.digit_text [m mod 60 / 10; m mod 60 mod 10].

Definition validated_window (h : hours) : result hours :=
  match parse (start h), parse (end_ h) with
  | Some a, Some b =>
      if b <=? a then Err (Problem Validation "campaign_window_invalid")
      else if (a <? fst DEFAULT_WINDOW) || (snd DEFAULT_WINDOW <? b)
      then Err (Problem Validation "campaign_window_outside_platform_hours")
      else Ok (Hours (Some (hhmm a)) (Some (hhmm b)))
  | _, _ => Err (Problem Validation "campaign_window_invalid")
  end.
(** [campaign_window_open], of a time of day in India. *)
Definition campaign_window_open (h : option hours) (now_ist : Z) : bool :=
  match h with
  | None => true
  | Some h => match parse (start h), parse (end_ h) with Some a, Some b => (a <=? now_ist) && (now_ist <? b) | _, _ => false end
  end.
Definition window_for (h : option hours) : Z * Z :=
  match h with
  | None => DEFAULT_WINDOW
  | Some h =>
      match parse (start h), parse (end_ h) with
      | Some a, Some b => (Z.max a (fst DEFAULT_WINDOW), Z.min b (snd DEFAULT_WINDOW))
      | _, _ => DEFAULT_WINDOW
      end
  end.
Definition first_dial_not_before (t : instant) (h : option hours) : instant :=
  let (opens, closes) := window_for h in
  let d := to_ist t in
  if dt_time d <? opens then of_ist (DateTime (dt_date d) opens)
  else if closes <=? dt_time d then of_ist (DateTime (dt_date (to_ist (t + US_PER_DAY))) opens)
  else t.
(** What a stored window reads as. *)
Lemma digit_bound c x : digit c = Some x -> 0 <= x <= 9.
Proof. unfold digit, Phone.is_digit. destruct (_ && _) eqn:E; [|done]. intros [= <-]. lia. Qed.
Lemma one_or_two_bound s x : one_or_two s = Some x -> 0 <= x <= 99.
Proof.
  destruct s as [|a [|b [|]]]; simpl; try done; [intros H%digit_bound; lia|].
  destruct (digit a) eqn:Ea, (digit b) eqn:Eb; try done. intros [= <-]. apply digit_bound in Ea, Eb. lia.
Qed.
Definition minute_texts : bool :=
  forallb (fun h => forallb (fun m => bool_decide (parse_hhmm (hhmm (hms (Z.of_nat h) (Z.of_nat m) 0)) = Some (hms (Z.of_nat h) (Z.of_nat m) 0)))
    (seq 0 60)) (seq 0 24).
Lemma hhmm_parse h m : 0 <= h <= 23 -> 0 <= m <= 59 -> parse_hhmm (hhmm (hms h m 0)) = Some (hms h m 0).
Proof.
  intros Hh Hm. assert (minute_texts = true) as E by (vm_compute; reflexivity). unfold minute_texts in E. rewrite forallb_forall in E.
  specialize (E (Z.to_nat h)). rewrite forallb_forall in E. specialize (E ltac:(apply in_seq; lia) (Z.to_nat m) ltac:(apply in_seq; lia)).
  apply bool_decide_eq_true in E. by rewrite !Z2Nat.id in E by lia.
Qed.
Lemma parse_whole o a : parse o = Some a -> parse (Some (hhmm a)) = Some a /\ 0 <= a < US_PER_DAY.
Proof.
  destruct o as [s|]; [|done]. simpl. unfold parse_hhmm at 1. destruct (String.index 0 ":" s) as [n|]; [|done].
  destruct (one_or_two _) as [h|] eqn:Eh; [|done]. destruct (one_or_two (String.substring (S n) _ _)) as [m|] eqn:Em; [|done].
  apply one_or_two_bound in Eh, Em. destruct (_ && _) eqn:E; [|done]. intros [= <-]. split; [apply hhmm_parse; lia|].
  unfold hms, US_PER_DAY. lia.
Qed.
Lemma validated_window_spec h h' : validated_window h = Ok h' -> exists a b,
  parse (start h') = Some a /\ parse (end_ h') = Some b /\ hms 9 0 0 <= a < b /\ b <= hms 21 0 0.
Proof.
  unfold validated_window. destruct (parse (start h)) as [a|] eqn:Ea; [|done]. destruct (parse (end_ h)) as [b|] eqn:Eb; [|done].
  destruct (b <=? a) eqn:E; [done|]. destruct (_ || _) eqn:E'; [done|]. intros [= <-]. exists a, b. unfold DEFAULT_WINDOW in E'. cbn [fst snd] in E'.
  split; [by apply parse_whole in Ea as [? _]|]. split; [by apply parse_whole in Eb as [? _]|]. lia.
Qed.
(** The time of day, of an instant written from a day's start. *)
Lemma time_of_day t q x : t + IST_OFFSET = q * US_PER_DAY + x -> 0 <= x < US_PER_DAY -> dt_time (to_ist t) = x.
Proof. intros E Hx. unfold to_ist. simpl. rewrite E, Z.add_comm, Z.mod_add by done. by apply Z.mod_small. Qed.
Lemma at_day q x : 1 <= q + EPOCH_ORD -> of_ist (DateTime (ord2ymd (q + EPOCH_ORD)) x) + IST_OFFSET = q * US_PER_DAY + x.
Proof. intros H. unfold of_ist. simpl. destruct (ord2ymd_spec _ H) as [-> _]. lia. Qed.

(** The calling hours of a campaign.  Hours that were accepted read back as they were
    given, inside the platform's, and the first moment they let a call out, from any
    moment, is the next one at which they are open: they are open then, as the platform's
    are, within a day, and never in between. *)
Theorem first_dial_opens h h' t : validated_window h = Ok h' -> in_range t ->
  let u := first_dial_not_before t (Some h') in
  parse (start h') = parse (start h) /\ parse (end_ h') = parse (end_ h)
  /\ t <= u < t + US_PER_DAY
  /\ campaign_window_open (Some h') (dt_time (to_ist u)) = true /\ Gate.within_calling_hours u = true
  /\ forall v, t <= v < u -> campaign_window_open (Some h') (dt_time (to_ist v)) = false.
Proof.
  intros V R u. pose proof V as W. apply validated_window_spec in W as (a & b & Ea & Eb & Hab & Hb).
  assert (parse (start h') = parse (start h) /\ parse (end_ h') = parse (end_ h)) as [P1 P2].
  { unfold validated_window in V. destruct (parse (start h)) as [a'|] eqn:Ea'; [|done]. destruct (parse (end_ h)) as [b'|] eqn:Eb'; [|done].
    destruct (b' <=? a'); [done|]. destruct (_ || _); [done|]. injection V as <-. apply parse_whole in Ea' as [? _]. by apply parse_whole in Eb' as [? _]. }
  split; [done|]. split; [done|]. clear V P1 P2.
  set (q := (t + IST_OFFSET) / US_PER_DAY). set (r := (t + IST_OFFSET) mod US_PER_DAY).
  assert (Ht : t + IST_OFFSET = q * US_PER_DAY + r) by (unfold q, r; pose proof (Z.div_mod (t + IST_OFFSET) US_PER_DAY ltac:(done)); lia).
  assert (Hr : 0 <= r < US_PER_DAY) by (apply Z.mod_pos_bound; done).
  assert (Hq : 1 <= q + EPOCH_ORD) by exact R.
  assert (Hw : forall v p x, v + IST_OFFSET = p * US_PER_DAY + x -> 0 <= x < US_PER_DAY ->
    campaign_window_open (Some h') (dt_time (to_ist v)) = (a <=? x) && (x <? b)).
  { intros v p x E Hx. rewrite (time_of_day v p x E Hx). simpl. by rewrite Ea, Eb. }
  assert (hms 9 0 0 = 32400000000 /\ hms 21 0 0 = 75600000000 /\ US_PER_DAY = 86400000000) as (N9 & N21 & ND) by done.
  assert (Hp : forall v p x, v + IST_OFFSET = p * US_PER_DAY + x -> 0 <= x < US_PER_DAY -> a <= x < b -> Gate.within_calling_hours v = true).
  { intros v p x E Hx Hx'. unfold Gate.within_calling_hours. rewrite (time_of_day v p x E Hx). lia. }
  assert (Eu : (r < a /\ u + IST_OFFSET = q * US_PER_DAY + a) \/ (b <= r /\ u + IST_OFFSET = (q + 1) * US_PER_DAY + a) \/ (a <= r < b /\ u = t)).
  { unfold u, first_dial_not_before, window_for. rewrite Ea, Eb. unfold DEFAULT_WINDOW. cbn [fst snd].
    replace (Z.max a (hms 9 0 0)) with a by lia. replace (Z.min b (hms 21 0 0)) with b by lia.
    rewrite (time_of_day t q r Ht Hr). destruct (r <? a) eqn:E1; [left; split; [lia|]; by apply at_day|right].
    destruct (b <=? r) eqn:E2; [left; split; [lia|]|right; split; [lia|done]]. unfold to_ist at 1. cbn [dt_date].
    replace ((t + US_PER_DAY + IST_OFFSET) / US_PER_DAY) with (q + 1); [apply at_day; lia|].
    replace (t + US_PER_DAY + IST_OFFSET) with (t + IST_OFFSET + 1 * US_PER_DAY) by ring. by rewrite Z.div_add. }
  destruct Eu as [[Hc Eu]|[[Hc Eu]|[Hc ->]]].
  - split; [lia|]. rewrite (Hw u q a Eu) by lia. split; [lia|]. split; [apply (Hp u q a); lia|].
    intros v Hv. rewrite (Hw v q (v + IST_OFFSET - q * US_PER_DAY)) by lia. lia.
  - split; [lia|]. rewrite (Hw u (q + 1) a Eu) by lia. split; [lia|]. split; [apply (Hp u (q + 1) a); lia|].
    intros v Hv. destruct (Z.lt_ge_cases (v + IST_OFFSET) ((q + 1) * US_PER_DAY)).
    + rewrite (Hw v q (v + IST_OFFSET - q * US_PER_DAY)) by lia. lia.
    + rewrite (Hw v (q + 1) (v + IST_OFFSET - (q + 1) * US_PER_DAY)) by lia. lia.
  - split; [lia|]. rewrite (Hw t q r Ht) by lia. split; [lia|]. split; [apply (Hp t q r); lia|]. lia.
Qed.

Lemma first_dial_opens_witness : exists h', validated_window (Hours (Some "9:30") (Some "17:00")) = Ok h' /\ h' = Hours (Some "09:30") (Some "17:00")
  /\ let t := of_ist (DateTime (Date 2026 10 1) (hms 18 0 0)) in
     first_dial_not_before t (Some h') = of_ist (DateTime (Date 2026 10 2) (hms 9 30 0))
     /\ Gate.within_calling_hours (first_dial_not_before t (Some h')) = true.
Proof.
  exists (Hours (Some "09:30") (Some "17:00")). assert (V : validated_window (Hours (Some "9:30") (Some "17:00")) = Ok (Hours (Some "09:30") (Some "17:00")))
    by (vm_compute; reflexivity).
  split; [exact V|]. split; [reflexivity|]. split; [vm_compute; reflexivity|].
  assert (R : in_range (of_ist (DateTime (Date 2026 10 1) (hms 18 0 0)))) by (vm_compute; discriminate).
  destruct (first_dial_opens _ _ _ V R) as (_ & _ & _ & _ & W & _). exact W.
Defined.
End Hours.

(** ** Vocabulary *)

Definition minutes (n : Z) : Z := n * 60 * 1000000.
Definition GRACE : Z := minutes 120.
Definition RETRY_AFTER : Z := minutes 5.
Definition CALL_CAP_MAX_S : Z := 3600.
Definition STUCK_DIALING_AFTER : Z := CALL_CAP_MAX_S * 1000000 + minutes 10.
Definition MAX_NOTE : nat := 200.
Definition MAX_LANGUAGE : nat := 8.
Definition STATUSES : list string := ["scheduled"; "dialing"; "completed"; "cancelled"; "refused"; "missed"; "failed"].
Definition LIVE_STATUSES : list string := ["scheduled"; "dialing"].
Definition TERMINAL_STATUSES : list string := List.filter (fun x => negb (bool_decide (x ∈ LIVE_STATUSES))) STATUSES.
Definition UNATTEMPTED_REASON : string :=
  "We were not able to place this call in time. Nothing blocked it — it simply did not go out while it still made sense to.".
Definition CAMPAIGN_PAUSED_RULE : string := "campaign_paused".
Definition CAMPAIGN_PAUSED_REASON : string := "On hold while its campaign is paused. It will be called once the campaign resumes.".
Definition CAMPAIGN_STOPPED_RULE : string := "campaign_stopped".
Definition CAMPAIGN_STOPPED_REASON : string := "Its campaign was stopped.".
Definition CLIENT_SCHEDULE_PREFIX : string := "client-schedule:".
Definition AFTER_CALL_PREFIX : string := "after-call:".
Definition AFTER_CALL_DEFAULT_PREFIX : string := "after-call-default:".

Inductive CallbackBookedBy := in_call | after_call | person.
Definition booked_by (source : option string) : CallbackBookedBy :=
  let key := match source with Some x => x | None => "" end in
  if String.prefix AFTER_CALL_PREFIX key || String.prefix AFTER_CALL_DEFAULT_PREFIX key then after_call
  else if String.prefix CLIENT_SCHEDULE_PREFIX key then person
  else in_call.
Inductive time_source := by_caller | by_default.
Definition time_from (source : option string) : option time_source :=
  let key := match source with Some x => x | None => "" end in
  if String.prefix AFTER_CALL_DEFAULT_PREFIX key then Some by_default
  else if String.prefix AFTER_CALL_PREFIX key then Some by_caller
  else None.

(** ** The state *)

(** [campaigns]: the columns this part reads. *)
Record campaign := Campaign { cm_id : uuid; cm_tenant : uuid; cm_status : string; calling_hours : option Hours.hours }.
Record diary := Diary { floor_of : Gate.floor; campaigns : list campaign }.
Definition with_floor f (s : diary) : diary := Diary f (campaigns s).
Definition in_floor {B} (m : tx Gate.floor B) : tx diary B :=
  fun s => match m (floor_of s) with Ok (b, f) => Ok (b, with_floor f s) | Err e => Err e end.
Definition on_roll {B} (m : tx roll B) : tx diary B := in_floor (Gate.in_roll m).
Definition session : tx diary uuid := in_floor Gate.session.
Definition tenant_of (s : diary) : uuid := Gate.tenant_of (floor_of s).
Definition start_of (s : diary) : instant := Gate.start_of (floor_of s).
Definition clock : tx diary instant := in_floor Gate.clock.
(** [now or datetime.now(UTC)]. *)
Definition or_now (at_ : option instant) : tx diary instant := match at_ with Some t => ret t | None => clock end.

Definition book_of (s : diary) : list callback := scheduled_callbacks (Gate.roll_of (floor_of s)).
Definition with_book (t : list callback) (s : diary) : diary :=
  with_floor (Gate.with_roll (with_callbacks t (Gate.roll_of (floor_of s))) (floor_of s)) s.
Definition call_table (s : diary) : list call := Gate.call_table (floor_of s).

Definition key_of (c : callback) : uuid := pr_id (promised c).
Definition own (r : uuid) (c : callback) : bool := pr_tenant (promised c) =? r.
Definition has_status (x : string) (c : callback) : bool := String.eqb (pg_status (progress_of c)) x.
Definition waiting (c : callback) : bool := has_status "scheduled" c.
Definition rule_is (x : string) (c : callback) : bool := bool_decide (last_refusal_rule (progress_of c) = Some x).

(** An UPDATE: how many rows it hit. *)
Definition update_where (p : callback -> bool) (f : callback -> callback) : tx diary nat :=
  t ← gets book_of ; modify (with_book (update p f t)) ;; ret (rowcount p t).

(** The call a promise was made on, and its campaign, as the session sees them. *)
Definition call_row (r : uuid) (s : diary) (i : uuid) : option call :=
  head (select (fun k => (ca_tenant k =? r) && by_id ca_id i k) (call_table s)).
Definition campaign_row (r : uuid) (s : diary) (i : uuid) : option campaign :=
  head (select (fun m => (cm_tenant m =? r) && by_id cm_id i m) (campaigns s)).
Definition campaign_of (r : uuid) (s : diary) (source : option uuid) : option campaign :=
  match source with
  | None => None
  | Some i => match call_row r s i with Some k => match ca_campaign k with Some m => campaign_row r s m | None => None end | None => None end
  end.
Definition campaign_is (x : string) (r : uuid) (s : diary) (c : callback) : bool :=
  match campaign_of r s (source_call_id (promised c)) with Some m => String.eqb (cm_status m) x | None => false end.
Definition hours_of (r : uuid) (s : diary) (c : callback) : option Hours.hours :=
  match campaign_of r s (source_call_id (promised c)) with Some m => calling_hours m | None => None end.

(** What each statement writes. *)
Definition ended (status : string) (rule reason : option string) (call : option uuid) (n : instant) (c : callback) : callback :=
  let g := progress_of c in
  Callback (promised c) (Progress status (attempts g) (next_attempt_at g) (grace_from g) rule reason call (Some n) n).
Definition refusal (c : callback) : option string * option string := (last_refusal_rule (progress_of c), last_refusal_reason (progress_of c)).
Definition ended_as (status : string) (reason : string) (n : instant) (c : callback) : callback :=
  ended status (fst (refusal c)) (Some reason) (last_call_id (progress_of c)) n c.
Definition put_back (next : instant) (grace : option instant) (rule : string) (reason : option string) (n : instant) (c : callback) : callback :=
  let g := progress_of c in
  Callback (promised c) (Progress "scheduled" (attempts g - 1) (Some next) grace (Some rule) reason (last_call_id g) (settled_at g) n).

(** ** Booking *)

(** [(x or None) and x[:n]]. *)
Definition clipped (n : nat) (x : option Phone.text) : option Phone.text :=
  match x with Some (c :: t) => Some (take n (c :: t)) | _ => None end.
Definition kept {X} (new old : option X) : option X := Clearance.coalesce new old.
Definition same_conversation (x y : promise) : bool :=
  (pr_tenant y =? pr_tenant x) && String.eqb (source_execution_id y) (source_execution_id x).
(** The row the upsert leaves of an earlier booking. *)
Definition rebooked (x : promise) (n : instant) (c : callback) : callback :=
  let p := promised c in
  let g := progress_of c in
  Callback (Promise (pr_id p) (pr_tenant p) (pr_agent x) (kept (source_call_id x) (source_call_id p)) (source_execution_id p)
              (kept (pr_lead x) (pr_lead p)) (pr_phone p) (pr_requested_at x) (booked_at x) (note x) (pr_language x))
    (Progress (pg_status g) (attempts g) (next_attempt_at g) (grace_from g) (last_refusal_rule g) (last_refusal_reason g)
       (last_call_id g) (settled_at g) n).
Definition fresh (x : promise) (n : instant) : callback :=
  Callback x (Progress "scheduled" 0 None None None None None None n).
Definition as_stored (x : promise) : promise :=
  Promise (pr_id x) (pr_tenant x) (pr_agent x) (source_call_id x) (source_execution_id x) (pr_lead x) (pr_phone x)
    (pr_requested_at x) (booked_at x) (clipped MAX_NOTE (note x)) (clipped MAX_LANGUAGE (pr_language x)).
Definition book (x : promise) : tx diary (option (uuid * instant)) :=
  let x := as_stored x in
  in_floor (Gate.on_wallet (own_tenant (pr_tenant x))) ;;
  t ← gets book_of ;
  n ← gets start_of ;
  match find (fun c => same_conversation x (promised c)) t with
  | Some c =>
      if waiting c && (booked_at (promised c) <? booked_at x) then
        update_where (fun y => same_conversation x (promised y) && waiting y && (booked_at (promised y) <? booked_at x)) (rebooked x n) ;;
        ret (Some (key_of c, pr_requested_at x))
      else ret None
  | None =>
      if existsb (fun c => key_of c =? pr_id x) t then raise (UniqueViolation "pk_scheduled_callbacks")
      else modify (with_book (t ++ [fresh x n])) ;; ret (Some (pr_id x, pr_requested_at x))
  end.

(** ** Ends that nobody dials *)

Definition grace_start (c : callback) : instant :=
  match grace_from (progress_of c) with Some g => Z.max (pr_requested_at (promised c)) g | None => pr_requested_at (promised c) end.
Definition missed (n : instant) (c : callback) : callback :=
  ended "missed" (fst (refusal c)) (kept (snd (refusal c)) (Some UNATTEMPTED_REASON)) (last_call_id (progress_of c)) n c.
Definition expire_stale (now_ : option instant) : tx diary nat :=
  m ← or_now now_ ;
  n ← gets start_of ;
  r ← session ;
  update_where (fun c => own r c && waiting c && (grace_start c <? m - GRACE) && negb (rule_is CAMPAIGN_PAUSED_RULE c)) (missed n).

Definition held (n : instant) (c : callback) : callback :=
  let g := progress_of c in
  Callback (promised c) (Progress (pg_status g) (attempts g) (next_attempt_at g) (grace_from g) (Some CAMPAIGN_PAUSED_RULE)
    (Some CAMPAIGN_PAUSED_REASON) (last_call_id g) (settled_at g) n).
Definition hold_for_paused_campaigns : tx diary nat :=
  n ← gets start_of ;
  r ← session ;
  s ← gets (fun s => s) ;
  update_where (fun c => own r c && waiting c && campaign_is "paused" r s c && negb (rule_is CAMPAIGN_PAUSED_RULE c)) (held n).

(** Back in line from the first moment its hours allow. *)
Definition released (m n : instant) (h : callback -> option Hours.hours) (c : callback) : callback :=
  let g := progress_of c in
  let at_ := Hours.first_dial_not_before (Z.max m (pr_requested_at (promised c))) (h c) in
  Callback (promised c) (Progress (pg_status g) (attempts g) (Some at_) (Some at_) None None (last_call_id g) (settled_at g) n).
Definition release_resumed (now_ : option instant) : tx diary nat :=
  m ← or_now now_ ;
  n ← gets start_of ;
  r ← session ;
  s ← gets (fun s => s) ;
  update_where (fun c => own r c && waiting c && rule_is CAMPAIGN_PAUSED_RULE c && negb (campaign_is "paused" r s c))
    (released m n (hours_of r s)).

Section Audited.
(** The audit log's key, as in [Dnc]. *)
Context (hmac_hex : string -> string -> string) (dumps : Audit.payload -> string) (audit_key : string).
Definition audit_called_off (tenant_id campaign_id : uuid) : tx diary unit :=
  i ← in_floor (Gate.on_wallet WalletDb.uuid7) ;
  t ← clock ;
  in_floor (Gate.on_desk (modify (fun d => with_audit
    (Audit.write_audit hmac_hex dumps audit_key i t "callbacks.called_off" None (Some "system") (Some tenant_id)
       (Some "campaign") (Some (Envelope.Envelope.uuid_text campaign_id)) None (audit_log d)) d))).
Fixpoint audit_each (tenant_id : uuid) (l : list uuid) : tx diary unit :=
  match l with [] => ret tt | i :: l => audit_called_off tenant_id i ;; audit_each tenant_id l end.
Definition called_off (n : instant) (c : callback) : callback :=
  ended "cancelled" (Some CAMPAIGN_STOPPED_RULE) (Some CAMPAIGN_STOPPED_REASON) (last_call_id (progress_of c)) n c.
Definition campaign_key (r : uuid) (s : diary) (c : callback) : option uuid :=
  option_map cm_id (campaign_of r s (source_call_id (promised c))).
Definition call_off_for_stopped_campaigns (tenant_id : uuid) (campaign_id : option uuid) : tx diary nat :=
  n ← gets start_of ;
  r ← session ;
  s ← gets (fun s => s) ;
  let p c := own r c && waiting c && campaign_is "cancelled" r s c
             && match campaign_id with Some i => bool_decide (campaign_key r s c = Some i) | None => true end in
  let hit := omap (campaign_key r s) (select p (book_of s)) in
  k ← update_where p (called_off n) ;
  audit_each tenant_id (order_by Z.leb (remove_dups hit)) ;;
  ret k.
End Audited.

(** ** The call's end *)

Definition call_ended (x : string) : bool := bool_decide (x ∈ ["completed"; "failed"; "no_answer"; "busy"; "voicemail"]).
Definition last_call (r : uuid) (s : diary) (c : callback) : option call :=
  match last_call_id (progress_of c) with Some i => call_row r s i | None => None end.
Definition by_its_call (r : uuid) (s : diary) (n : instant) (c : callback) : callback :=
  let failed := match last_call r s c with Some k => String.eqb (ca_status k) "failed" | None => false end in
  ended (if failed then "failed" else "completed") (fst (refusal c)) (snd (refusal c)) (last_call_id (progress_of c)) n c.
Definition stuck (n : instant) (c : callback) : callback :=
  ended "failed" (fst (refusal c)) (snd (refusal c)) (last_call_id (progress_of c)) n c.
Definition settle_dialled (now_ : option instant) : tx diary nat :=
  m ← or_now now_ ;
  n ← gets start_of ;
  r ← session ;
  s ← gets (fun s => s) ;
  a ← update_where (fun c => own r c && has_status "dialing" c
        && match last_call r s c with Some k => call_ended (ca_status k) | None => false end) (by_its_call r s n) ;
  b ← update_where (fun c => own r c && has_status "dialing" c && (pg_updated_at (progress_of c) <? m - STUCK_DIALING_AFTER)) (stuck n) ;
  ret (a + b)%nat.

(** ** The claim *)

Record DueCallback := Due {
  due_id : uuid; due_agent : uuid; due_lead : option uuid; due_phone : string; due_requested_at : instant;
  due_note : option Phone.text; due_execution : string; due_booked_at : instant; due_source_call : option uuid;
  due_grace_from : option instant; due_hours : option Hours.hours }.
Definition due_of (h : callback -> option Hours.hours) (c : callback) : DueCallback :=
  let p := promised c in
  Due (pr_id p) (pr_agent p) (pr_lead p) (pr_phone p) (pr_requested_at p) (note p) (source_execution_id p) (booked_at p)
    (source_call_id p) (grace_from (progress_of c)) (h c).
Definition claimable (m : instant) (r : uuid) (s : diary) (c : callback) : bool :=
  own r c && waiting c && (pr_requested_at (promised c) <=? m)
  && match next_attempt_at (progress_of c) with Some t => t <=? m | None => true end
  && negb (rule_is CAMPAIGN_PAUSED_RULE c) && negb (campaign_is "paused" r s c || campaign_is "cancelled" r s c).
Definition dialing (n : instant) (c : callback) : callback :=
  let g := progress_of c in
  Callback (promised c) (Progress "dialing" (attempts g + 1) (next_attempt_at g) (grace_from g) None None (last_call_id g) (settled_at g) n).
Definition oldest : callback -> callback -> bool := le_at_id (fun c => pr_requested_at (promised c)) key_of.
Definition claim_due (now_ : option instant) (k : nat) : tx diary (list DueCallback) :=
  m ← or_now now_ ;
  n ← gets start_of ;
  r ← session ;
  s ← gets (fun s => s) ;
  let (rows, t) := claim key_of (claimable m r s) oldest k (dialing n) (book_of s) in
  modify (with_book t) ;;
  ret (map (due_of (hours_of r s)) rows).

(** ** Putting back, settling, calling off *)

Definition defer_where (match_ : callback -> bool) (rule : string) (reason : option string) : tx diary nat :=
  m ← clock ;
  n ← gets start_of ;
  r ← session ;
  update_where (fun c => own r c && match_ c && has_status "dialing" c)
    (fun c => put_back (m + RETRY_AFTER) (grace_from (progress_of c)) rule reason n c).
Definition defer (callback_id : uuid) (rule : string) (reason : option string) : tx diary unit :=
  defer_where (fun c => key_of c =? callback_id) rule reason ;; ret tt.
Definition defer_recalled (call_id : uuid) (rule : string) (reason : option string) : tx diary nat :=
  defer_where (fun c => bool_decide (last_call_id (progress_of c) = Some call_id)) rule reason.
Definition defer_to_window (d : DueCallback) (rule : string) (reason : option string) : tx diary (option instant) :=
  match due_grace_from d with
  | None => ret None
  | Some _ =>
      m ← clock ;
      let opens := Hours.first_dial_not_before m (due_hours d) in
      if opens <=? m then ret None
      else
        n ← gets start_of ;
        r ← session ;
        update_where (fun c => own r c && (key_of c =? due_id d) && has_status "dialing" c) (put_back opens (Some opens) rule reason n) ;;
        ret (Some opens)
  end.
Definition cancel_recalled (call_id : uuid) (reason : string) : tx diary nat :=
  n ← gets start_of ;
  r ← session ;
  update_where (fun c => own r c && bool_decide (last_call_id (progress_of c) = Some call_id) && has_status "dialing" c)
    (ended_as "cancelled" reason n).
Definition cancel_one (callback_id : uuid) (reason : string) : tx diary bool :=
  n ← gets start_of ;
  r ← session ;
  k ← update_where (fun c => own r c && (key_of c =? callback_id) && waiting c) (ended_as "cancelled" reason n) ;
  ret (0 <? k)%nat.
Definition settle (callback_id : uuid) (status : string) (rule reason : option string) (call_id : option uuid) : tx diary unit :=
  if negb (bool_decide (status ∈ TERMINAL_STATUSES)) then raise ValueError
  else
    n ← gets start_of ;
    r ← session ;
    update_where (fun c => own r c && (key_of c =? callback_id) && negb (is_given (settled_at (progress_of c))))
      (fun c => ended status (kept rule (fst (refusal c))) (kept reason (snd (refusal c)))
                  (kept call_id (last_call_id (progress_of c))) n c) ;;
    ret tt.

Definition with_last_call (call_id : uuid) (n : instant) (c : callback) : callback :=
  let g := progress_of c in
  Callback (promised c) (Progress (pg_status g) (attempts g) (next_attempt_at g) (grace_from g) (last_refusal_rule g)
    (last_refusal_reason g) (Some call_id) (settled_at g) n).
Definition with_campaign (m : uuid) (k : call) : call :=
  Call (ca_id k) (ca_tenant k) (Some m) (Account.trial_call k) (duration_s k) (ca_created_at k) (ca_status k).
Definition with_calls (t : list call) (a : account) : account :=
  Acct (plans a) (spend_state a) (tenant_trials a) (organizations a) (go_live_guides a) (workspaces a) (live_apply_runs a) t (erasures a).
Definition link_callback_to_call (callback_id : uuid) (campaign_id : option uuid) (call_id : uuid) : tx diary unit :=
  n ← gets start_of ;
  r ← session ;
  update_where (fun c => own r c && (key_of c =? callback_id)) (with_last_call call_id n) ;;
  match campaign_id with
  | None => ret tt
  | Some m => in_floor (Gate.on_desk (Account.write (fun a =>
      with_calls (update (fun k => (ca_tenant k =? r) && by_id ca_id call_id k) (with_campaign m) (calls a)) a)))
  end.

(** ** What becomes of a promise *)

Definition over (c : callback) : bool := negb (bool_decide (pg_status (progress_of c) ∈ LIVE_STATUSES)).
(** The row's constraints, and its attempts: none below zero, one at least while it is dialled. *)
Record row_ok (c : callback) : Prop := RowOk {
  ro_status : pg_status (progress_of c) ∈ STATUSES;
  ro_settled : settled_at (progress_of c) = None <-> over c = false;
  ro_attempts : 0 <= attempts (progress_of c);
  ro_dialing : has_status "dialing" c = true -> 1 <= attempts (progress_of c) }.
Definition conversation (c : callback) : uuid * string := (pr_tenant (promised c), source_execution_id (promised c)).
Definition table_ok (t : list callback) : Prop := pk_ok key_of t /\ NoDup (map conversation t) /\ Forall row_ok t.

(** The words a promise ended with. *)
Definition ending (c : callback) : string * option string * option string * option instant :=
  (pg_status (progress_of c), last_refusal_rule (progress_of c), last_refusal_reason (progress_of c), settled_at (progress_of c)).
(** The promise as it was, or as the caller's later word moved it; and an end is final. *)
Record follows (c c' : callback) : Prop := Follows {
  fo_key : key_of c' = key_of c;
  fo_conversation : conversation c' = conversation c;
  fo_phone : pr_phone (promised c') = pr_phone (promised c);
  fo_later : booked_at (promised c) <= booked_at (promised c');
  fo_moved : booked_at (promised c') = booked_at (promised c) -> promised c' = promised c;
  fo_over : over c = true -> promised c' = promised c /\ ending c' = ending c }.
#[export] Instance follows_preorder : PreOrder follows.
Proof.
  split; [intros c; by constructor|]. intros c1 c2 c3 [] []. constructor; try congruence; [lia| |].
  - intros E. rewrite fo_moved1 by lia. apply fo_moved0. lia.
  - intros H. destruct (fo_over0 H) as [E1 E2]. assert (over c2 = true) as H2.
    { unfold over in *. unfold ending in E2. injection E2 as -> _ _ _. done. }
    destruct (fo_over1 H2) as [E3 E4]. split; congruence.
Qed.
Lemma over_ending c c' : ending c' = ending c -> over c' = over c.
Proof. unfold ending, over. by intros [= -> _ _ _]. Qed.

(** Of a table: every promise is followed, and none of [B] goes back to waiting. *)
Definition kept_but (B : uuid -> Prop) (t t' : list callback) : Prop := table_ok t ->
  table_ok t' /\ forall c, In c t -> exists c', In c' t' /\ follows c c' /\ (B (key_of c) -> waiting c = false -> waiting c' = false).
#[export] Instance kept_but_preorder B : PreOrder (kept_but B).
Proof.
  split; [intros t H; split; [done|]; intros c Hc; by exists c|].
  intros t1 t2 t3 H1 H2 K. destruct (H1 K) as [K2 F1]. destruct (H2 K2) as [K3 F2]. split; [done|].
  intros c Hc. destruct (F1 c Hc) as (c1 & Hc1 & G1 & W1). destruct (F2 c1 Hc1) as (c2 & Hc2 & G2 & W2).
  exists c2. split; [done|]. split; [by etrans|]. intros Hb Hw. rewrite (fo_key _ _ G1) in W2. auto.
Qed.
(** A relation on the table, of the states that hold it. *)
Definition on_book (R : list callback -> list callback -> Prop) (s s' : diary) : Prop := R (book_of s) (book_of s').
#[export] Instance on_book_preorder R `{!PreOrder R} : PreOrder (on_book R).
Proof. split; unfold on_book; [by intros s|]. intros s1 s2 s3 H1 H2. by etrans. Qed.
Definition on_table (R : list callback -> list callback -> Prop) (s s' : roll) : Prop := R (scheduled_callbacks s) (scheduled_callbacks s').
#[export] Instance on_table_preorder R `{!PreOrder R} : PreOrder (on_table R).
Proof. split; unfold on_table; [by intros s|]. intros s1 s2 s3 H1 H2. by etrans. Qed.

(** The promises untouched. *)
Definition same_book (s s' : diary) : Prop := book_of s' = book_of s.
#[export] Instance same_book_preorder : PreOrder same_book.
Proof. split; [done|]. unfold same_book. intros s1 s2 s3 E1 E2. congruence. Qed.
Lemma same_respects R `{!PreOrder R} {B} (m : tx diary B) : respects same_book m -> respects (on_book R) m.
Proof. intros Hm s b s' H. unfold on_book. by rewrite (Hm _ _ _ H). Qed.

Lemma book_with t s : book_of (with_book t s) = t.
Proof. done. Qed.
Lemma same_session : respects same_book session.
Proof. intros s r s' H. unfold session, in_floor, Gate.session, gets in H. injection H as _ <-. by destruct s. Qed.
Lemma same_on_desk {B} (m : tx platform B) : respects same_book (in_floor (Gate.on_desk m)).
Proof.
  intros s b s' H. unfold in_floor, Gate.on_desk, Gate.in_roll, in_desk, in_fees in H.
  destruct (PlatformFee.on_platform m _) as [[b' f]|]; [|done]. by injection H as _ <-.
Qed.
Lemma same_on_wallet {B} (m : tx db B) : respects same_book (in_floor (Gate.on_wallet m)).
Proof.
  intros s b s' H. unfold in_floor, Gate.on_wallet, Gate.in_roll, in_wallet, in_fees in H.
  destruct (PlatformFee.on_db m _) as [[b' f]|]; [|done]. by injection H as _ <-.
Qed.
Lemma same_clock : respects same_book clock.
Proof. apply same_on_wallet. Qed.
Lemma same_or_now o : respects same_book (or_now o).
Proof. destruct o; [apply respects_ret, _|apply same_clock]. Qed.

(** ** One UPDATE *)

(** An assignment that keeps the identity of its rows, on rows it may be made of. *)
Record assigns (p : callback -> bool) (f : callback -> callback) : Prop := Assigns {
  as_key : forall c, key_of (f c) = key_of c;
  as_conversation : forall c, conversation (f c) = conversation c;
  as_follows : forall c, row_ok c -> p c = true -> follows c (f c);
  as_ok : forall c, row_ok c -> p c = true -> row_ok (f c) }.
Lemma update_table_ok p f t : assigns p f -> table_ok t -> table_ok (update p f t).
Proof.
  intros [Hk Hc _ Ho] (K & D & F). split; [by apply update_pk_ok|]. split.
  - assert (map conversation (update p f t) = map conversation t) as ->; [|done]. unfold update. rewrite map_map. apply map_ext.
    intros c. by destruct (p c).
  - apply update_Forall; [done|]. intros c _. apply Ho.
Qed.
Lemma update_where_spec p f s k s' : update_where p f s = Ok (k, s') -> s' = with_book (update p f (book_of s)) s /\ k = rowcount p (book_of s).
Proof. unfold update_where. intros H. tx_inv. done. Qed.
Lemma kept_update_at B p f s k s' : assigns p f ->
  (forall c, In c (book_of s) -> p c = true -> B (key_of c) -> waiting c = false -> waiting (f c) = false) ->
  update_where p f s = Ok (k, s') -> on_book (kept_but B) s s'.
Proof.
  intros A W [-> _]%update_where_spec. unfold on_book. rewrite book_with. intros K. split; [by apply update_table_ok|].
  intros c Hc. exists (if p c then f c else c). split; [by apply update_In; exists c|].
  destruct (p c) eqn:E; [|done]. destruct K as (_ & _ & F). rewrite Forall_forall in F.
  split; [apply A; [by apply F, list_elem_of_In|done]|by apply W].
Qed.
Lemma kept_but_update B p f : assigns p f -> (forall c, p c = true -> B (key_of c) -> waiting c = false -> waiting (f c) = false) ->
  respects (on_book (kept_but B)) (update_where p f).
Proof. intros A W s k s'. apply kept_update_at; auto. Qed.

(** ** The assignments *)

Lemma over_live c : over c = false <-> waiting c = true \/ has_status "dialing" c = true.
Proof.
  unfold over, waiting, has_status, LIVE_STATUSES. rewrite negb_false_iff, bool_decide_eq_true, !String.eqb_eq. set_solver.
Qed.
Lemma terminal_over c : pg_status (progress_of c) ∈ TERMINAL_STATUSES -> over c = true /\ has_status "dialing" c = false /\ waiting c = false.
Proof.
  intros H. assert (pg_status (progress_of c) ∈ ["completed"; "cancelled"; "refused"; "missed"; "failed"]) as H' by done.
  unfold over, waiting, has_status. clear H.
  repeat match goal with H : _ ∈ _ :: _ |- _ => apply elem_of_cons in H as [->|H] end; [done..|by apply elem_of_nil in H'].
Qed.
Lemma follows_same c c' : promised c' = promised c -> (over c = true -> ending c' = ending c) -> follows c c'.
Proof. intros E H. constructor; unfold key_of, conversation; rewrite ?E; try done. auto. Qed.

Lemma ended_follows st rule reason call n c : row_ok c -> over c = false -> st ∈ TERMINAL_STATUSES ->
  follows c (ended st rule reason call n c) /\ row_ok (ended st rule reason call n c).
Proof.
  intros [Rs Rt Ra Rd] Ho Hs. split; [apply follows_same; [done|by rewrite Ho]|].
  destruct (terminal_over (ended st rule reason call n c) Hs) as (H1 & H2 & H3). constructor; [|by rewrite H1| |by rewrite H2]; [|exact Ra].
  simpl. unfold TERMINAL_STATUSES in Hs. apply list_elem_of_In, filter_In in Hs as [Hs _]. by apply list_elem_of_In.
Qed.
Lemma live_ok st a next grace rule reason call n c : row_ok c -> over c = false ->
  (st = "scheduled" /\ 0 <= a \/ st = "dialing" /\ 1 <= a) ->
  let c' := Callback (promised c) (Progress st a next grace rule reason call (settled_at (progress_of c)) n) in
  follows c c' /\ row_ok c'.
Proof.
  intros [Rs Rt Ra Rd] Ho Hst c'. split; [apply follows_same; [done|by rewrite Ho]|].
  assert (over c' = false) as Ho' by (apply over_live; unfold waiting, has_status; simpl; destruct Hst as [[-> _]|[-> _]]; auto).
  constructor; simpl.
  - destruct Hst as [[-> _]|[-> _]]; unfold STATUSES; set_solver.
  - rewrite Ho'. split; [done|]. intros _. by apply Rt.
  - destruct Hst as [[_ H]|[_ H]]; lia.
  - unfold has_status. simpl. destruct Hst as [[-> _]|[_ H]]; [done|]. done.
Qed.

Ltac terminal := intros; match goal with |- ?x ∈ TERMINAL_STATUSES => change (x ∈ ["completed"; "cancelled"; "refused"; "missed"; "failed"]) end;
  repeat case_match; set_solver.

(** Rows that are ended, or that stay as live as they were. *)
Lemma assigns_ended p st rule reason call n : (forall c, row_ok c -> p c = true -> over c = false) ->
  (forall c, st c ∈ TERMINAL_STATUSES) ->
  assigns p (fun c => ended (st c) (rule c) (reason c) (call c) n c).
Proof. intros Hp Hs. constructor; [done|done|..]; intros c Hc E; by apply ended_follows; [|apply Hp|]. Qed.
Lemma kept_ended B p st rule reason call n : (forall c, row_ok c -> p c = true -> over c = false) -> (forall c, st c ∈ TERMINAL_STATUSES) ->
  respects (on_book (kept_but B)) (update_where p (fun c => ended (st c) (rule c) (reason c) (call c) n c)).
Proof.
  intros Hp Hs. apply kept_but_update; [by apply assigns_ended|]. intros c _ _ _.
  by destruct (terminal_over (ended (st c) (rule c) (reason c) (call c) n c) (Hs c)) as (_ & _ & ?).
Qed.
Definition relive (st : callback -> string) (a : callback -> Z) (next grace : callback -> option instant)
    (rule reason : callback -> option string) (call : callback -> option uuid) (n : instant) (c : callback) : callback :=
  Callback (promised c) (Progress (st c) (a c) (next c) (grace c) (rule c) (reason c) (call c) (settled_at (progress_of c)) n).
Lemma assigns_relive p st a next grace rule reason call n :
  (forall c, row_ok c -> p c = true -> over c = false /\ (st c = "scheduled" /\ 0 <= a c \/ st c = "dialing" /\ 1 <= a c)) ->
  assigns p (relive st a next grace rule reason call n).
Proof. intros Hp. constructor; [done|done|..]; intros c Hc E; destruct (Hp c Hc E) as [Ho Hs]; by apply live_ok. Qed.
Lemma kept_relive B p st a next grace rule reason call n :
  (forall c, row_ok c -> p c = true -> over c = false /\ (st c = "scheduled" /\ 0 <= a c \/ st c = "dialing" /\ 1 <= a c)) ->
  (forall c, p c = true -> B (key_of c) -> waiting c = false -> st c <> "scheduled") ->
  respects (on_book (kept_but B)) (update_where p (relive st a next grace rule reason call n)).
Proof.
  intros Hp Hb. apply kept_but_update; [by apply assigns_relive|].
  intros c E Hi Hw. unfold waiting, has_status. simpl. apply String.eqb_neq. by apply (Hb c).
Qed.

Lemma waiting_status c : waiting c = true -> pg_status (progress_of c) = "scheduled".
Proof. apply String.eqb_eq. Qed.
Lemma waiting_live c : waiting c = true -> over c = false.
Proof. intros H. apply over_live. by left. Qed.
Lemma dialing_live c : has_status "dialing" c = true -> over c = false.
Proof. intros H. apply over_live. by right. Qed.
Lemma unsettled_live c : row_ok c -> is_given (settled_at (progress_of c)) = false -> over c = false.
Proof. intros R H. apply R. by destruct (settled_at (progress_of c)). Qed.

(** ** Every operation follows the promises *)

Section Kept.
Context (B : uuid -> Prop).
Abbreviation keeps := (respects (on_book (kept_but B))).
Lemma keeps_same {C} (m : tx diary C) : respects same_book m -> keeps m.
Proof. apply same_respects, _. Qed.
Lemma keeps_session : keeps session.
Proof. apply keeps_same, same_session. Qed.
Lemma keeps_moment o : keeps (or_now o).
Proof. apply keeps_same, same_or_now. Qed.
Lemma keeps_clock : keeps clock.
Proof. apply keeps_same, same_clock. Qed.
Lemma keeps_desk {C} (m : tx platform C) : keeps (in_floor (Gate.on_desk m)).
Proof. apply keeps_same, same_on_desk. Qed.
Lemma keeps_wallet {C} (m : tx db C) : keeps (in_floor (Gate.on_wallet m)).
Proof. apply keeps_same, same_on_wallet. Qed.
#[local] Hint Resolve keeps_session keeps_moment keeps_clock keeps_desk keeps_wallet : respects.

Lemma keeps_expire o : keeps (expire_stale o).
Proof.
  unfold expire_stale. respects.
  apply (kept_ended B _ (fun _ => "missed") _ (fun c => kept _ _)); [|terminal].
  intros c _ E. rewrite !andb_true_iff in E. apply waiting_live. tauto.
Qed.
Lemma keeps_hold : keeps hold_for_paused_campaigns.
Proof.
  unfold hold_for_paused_campaigns. respects. apply (kept_relive B _ (fun c => pg_status (progress_of c))).
  - intros c R E. rewrite !andb_true_iff in E. destruct E as [[[_ W] _] _]. split; [by apply waiting_live|]. left. split; [by apply waiting_status|apply R].
  - intros c E _ W. rewrite !andb_true_iff in E. destruct E as [[[_ W'] _] _]. congruence.
Qed.
Lemma keeps_release o : keeps (release_resumed o).
Proof.
  unfold release_resumed. respects. apply (kept_relive B _ (fun c => pg_status (progress_of c))).
  - intros c R E. rewrite !andb_true_iff in E. destruct E as [[[_ W] _] _]. split; [by apply waiting_live|]. left. split; [by apply waiting_status|apply R].
  - intros c E _ W. rewrite !andb_true_iff in E. destruct E as [[[_ W'] _] _]. congruence.
Qed.
Lemma keeps_settle_dialled o : keeps (settle_dialled o).
Proof.
  unfold settle_dialled. respects.
  - match goal with |- keeps (update_where ?p (by_its_call ?r ?s ?n)) =>
      apply (kept_ended B p (fun c => if match last_call r s c with Some k => String.eqb (ca_status k) "failed" | None => false end
                                      then "failed" else "completed")); [|terminal]
    end.
    intros c _ E. rewrite !andb_true_iff in E. apply dialing_live. tauto.
  - apply (kept_ended B _ (fun _ => "failed")); [|terminal]. intros c _ E. rewrite !andb_true_iff in E. apply dialing_live. tauto.
Qed.
Lemma keeps_cancel_recalled k reason : keeps (cancel_recalled k reason).
Proof.
  unfold cancel_recalled. respects. apply (kept_ended B _ (fun _ => "cancelled")); [|terminal].
  intros c _ E. rewrite !andb_true_iff in E. apply dialing_live. tauto.
Qed.
Lemma keeps_cancel_one i reason : keeps (cancel_one i reason).
Proof.
  unfold cancel_one. respects. apply (kept_ended B _ (fun _ => "cancelled")); [|terminal].
  intros c _ E. rewrite !andb_true_iff in E. apply waiting_live. tauto.
Qed.
Lemma keeps_settle i st rule reason call : keeps (settle i st rule reason call).
Proof.
  unfold settle. destruct (bool_decide _) eqn:E; [|simpl; apply respects_raise]. apply bool_decide_eq_true in E. respects.
  apply (kept_ended B _ (fun _ => st)); [|done]. intros c R Hp. rewrite !andb_true_iff, negb_true_iff in Hp. apply unsettled_live; tauto.
Qed.
Lemma keeps_link i m k : keeps (link_callback_to_call i m k).
Proof.
  unfold link_callback_to_call. respects. apply kept_but_update; [|by intros].
  constructor; [done|done| |]; intros c R _; [by apply follows_same|]. destruct R. by constructor.
Qed.
#[local] Hint Resolve keeps_expire keeps_hold keeps_release keeps_settle_dialled keeps_settle keeps_link : respects.

End Kept.

(** ** The clock, and the claim *)

#[local] Existing Instance Gate.clocked_floor.
Definition tick_by (j : nat) (s : diary) : diary := with_floor (Gate.adv j (floor_of s)) s.
Lemma tick_book j s : book_of (tick_by j s) = book_of s.
Proof. unfold book_of, tick_by. simpl. by apply (Gate.still (fun f => scheduled_callbacks (Gate.roll_of f))). Qed.
Lemma tick_calls j s : call_table (tick_by j s) = call_table s.
Proof. unfold call_table, tick_by. simpl. by apply (Gate.still Gate.call_table). Qed.
Lemma tick_tenant j s : tenant_of (tick_by j s) = tenant_of s.
Proof. unfold tenant_of, tick_by. simpl. apply Gate.adv_session. Qed.
Lemma tick_start j s : start_of (tick_by j s) = start_of s.
Proof. unfold start_of, tick_by. simpl. by apply (Gate.still Gate.start_of). Qed.
Lemma tick_campaign_of j s r i : campaign_of r (tick_by j s) i = campaign_of r s i.
Proof. unfold campaign_of, call_row. by rewrite tick_calls. Qed.
Lemma session_ok s r s1 : session s = Ok (r, s1) -> r = tenant_of s /\ s1 = s.
Proof. unfold session, in_floor, Gate.session, gets. intros [= <- <-]. by destruct s. Qed.
Lemma clock_ticks s m s1 : clock s = Ok (m, s1) -> s1 = tick_by 1 s.
Proof.
  unfold clock, in_floor. destruct (Gate.clock _) as [[m' f]|] eqn:E; [|done]. intros [= <- <-].
  apply Gate.clock_ok in E as [_ ->]. done.
Qed.
(** The moment a statement works with: the one it is given, or the clock's. *)
Definition wallet_at (s : diary) : db := Dnc.wallet_of (Gate.roll_of (floor_of s)).
Definition moment (o : option instant) (s : diary) : instant := match o with Some t => t | None => ticks (wallet_at s) 0%nat end.
Lemma or_now_at o s m s1 : or_now o s = Ok (m, s1) -> m = moment o s /\ exists j, s1 = tick_by j s.
Proof.
  destruct o as [t|]; simpl; [intros [-> ->]%ret_ok; split; [done|]; exists 0%nat; by destruct s|].
  unfold clock, in_floor. destruct (Gate.clock _) as [[m' f]|] eqn:E; [|done]. intros [= <- <-].
  apply Gate.clock_ok in E as [-> ->]. split; [done|]. by exists 1%nat.
Qed.
Lemma or_now_ticks o s m s1 : or_now o s = Ok (m, s1) -> exists j, s1 = tick_by j s.
Proof. by intros [_ ?]%or_now_at. Qed.

Definition picked (m : instant) (k : nat) (s : diary) : list callback :=
  limit k (order_by oldest (select (claimable m (tenant_of s) s) (book_of s))).
Lemma claimable_tick m r j s c : claimable m r (tick_by j s) c = claimable m r s c.
Proof. unfold claimable, campaign_is. by rewrite tick_campaign_of. Qed.
Lemma select_ext {X} (p q : X -> bool) t : (forall x, p x = q x) -> select p t = select q t.
Proof. intros E. unfold select. induction t as [|x t IH]; [done|]. simpl. by rewrite E, IH. Qed.
Lemma claim_due_spec o k s l s' : claim_due o k s = Ok (l, s') -> exists m j, m = moment o s
  /\ book_of s' = update (id_in key_of (map key_of (picked m k s))) (dialing (start_of s)) (book_of s)
  /\ l = map (fun c => due_of (hours_of (tenant_of s) s) (dialing (start_of s) c)) (select (id_in key_of (map key_of (picked m k s))) (book_of s))
  /\ campaigns s' = campaigns s /\ call_table s' = call_table s /\ tenant_of s' = tenant_of s /\ s' = with_book (book_of s') (tick_by j s).
Proof.
  intros H. unfold claim_due in H. apply bind_ok in H as (m & s1 & E & H). apply or_now_at in E as [Em [j ->]].
  apply bind_ok in H as (n & s1 & E & H). apply gets_ok in E as [-> ->]. apply bind_ok in H as (r & s1 & E & H). apply session_ok in E as [-> ->].
  apply bind_ok in H as (x & s1 & E & H). apply gets_ok in E as [-> ->]. unfold claim in H.
  apply bind_ok in H as (u & s1 & E & H). apply modify_ok in E as ->. apply ret_ok in H as [-> ->]. exists m, j. split; [exact Em|].
  rewrite !tick_start, !tick_book, tick_tenant, (select_ext _ _ _ (claimable_tick m (tenant_of s) j s)).
  split; [by rewrite book_with|].
  split; [rewrite map_map; apply map_ext; intros c; unfold due_of, hours_of; by rewrite tick_campaign_of|]. split; [done|]. split; [apply tick_calls|].
  split; [apply tick_tenant|]. by rewrite book_with.
Qed.
Lemma keeps_claim_due B o k : respects (on_book (kept_but B)) (claim_due o k).
Proof.
  intros s l s' (m & j & _ & E & _)%claim_due_spec. unfold on_book. rewrite E. intros K.
  assert (forall c, In c (book_of s) -> id_in key_of (map key_of (picked m k s)) c = true -> waiting c = true) as W.
  { intros c Hc Hi. apply id_in_picked_p in Hi; [|apply K|done]. unfold claimable in Hi. rewrite !andb_true_iff in Hi. tauto. }
  destruct K as (K & D & F). rewrite Forall_forall in F.
  assert (forall c, In c (book_of s) -> waiting c = true -> follows c (dialing (start_of s) c) /\ row_ok (dialing (start_of s) c)) as L.
  { intros c Hc Hw. assert (row_ok c) as R by (by apply F, list_elem_of_In). apply (live_ok "dialing"); [done|by apply waiting_live|].
    right. split; [done|]. pose proof (ro_attempts _ R). lia. }
  split; [split; [by apply update_pk_ok|split]|].
  - assert (map conversation (update (id_in key_of (map key_of (picked m k s))) (dialing (start_of s)) (book_of s)) = map conversation (book_of s)) as ->; [|done].
    unfold update. rewrite map_map. apply map_ext. intros c. by destruct (id_in _ _ _).
  - apply update_Forall; [by apply Forall_forall|]. intros c Hc _ Hi. apply L; [done|by apply W].
  - intros c Hc. exists (if id_in key_of (map key_of (picked m k s)) c then dialing (start_of s) c else c).
    split; [by apply update_In; exists c|]. destruct (id_in _ _ _) eqn:Ei; [|done]. split; [apply L; [done|by apply W]|done].
Qed.

(** Where a promise is put back, [B] leaves it out. *)
Lemma put_back_at B p next grace rule reason n s k s' :
  (forall c, p c = true -> has_status "dialing" c = true) -> (forall c, In c (book_of s) -> p c = true -> ~ B (key_of c)) ->
  update_where p (fun c => put_back next (grace c) rule reason n c) s = Ok (k, s') -> on_book (kept_but B) s s'.
Proof.
  intros Hd Hb. apply kept_update_at; [|intros c Hc E H; by destruct (Hb c Hc E)].
  apply (assigns_relive p (fun _ => "scheduled") _ (fun _ => Some next) grace (fun _ => Some rule) (fun _ => reason)).
  intros c R E. apply Hd in E. split; [by apply dialing_live|]. left. split; [done|]. pose proof (ro_dialing _ R E). lia.
Qed.
Lemma kept_tick B j s s' : on_book (kept_but B) (tick_by j s) s' -> on_book (kept_but B) s s'.
Proof. unfold on_book. by rewrite tick_book. Qed.
Lemma keeps_defer_where B p rule reason s k s' : (forall c, In c (book_of s) -> p c = true -> ~ B (key_of c)) ->
  defer_where p rule reason s = Ok (k, s') -> on_book (kept_but B) s s'.
Proof.
  intros Hb H. unfold defer_where in H. apply bind_ok in H as (m & s1 & E & H). apply clock_ticks in E as ->.
  apply bind_ok in H as (n & s1 & E & H). apply gets_ok in E as [-> ->]. apply bind_ok in H as (r & s1 & E & H). apply session_ok in E as [-> ->].
  apply (kept_tick B 1). revert H. apply (put_back_at B _ _ (fun c => grace_from (progress_of c))).
  - intros c E. by apply andb_true_iff in E as [_ E].
  - rewrite tick_book. intros c Hc E. apply Hb; [done|]. rewrite !andb_true_iff in E. tauto.
Qed.
Lemma keeps_defer B i rule reason s b s' : (forall c, In c (book_of s) -> key_of c = i -> ~ B (key_of c)) -> defer i rule reason s = Ok (b, s') -> on_book (kept_but B) s s'.
Proof.
  intros Hb H. unfold defer in H. apply bind_ok in H as (k & s1 & E & H). apply ret_ok in H as [_ ->]. revert E. apply keeps_defer_where.
  intros c Hc E. by apply Hb, Z.eqb_eq.
Qed.
Lemma keeps_defer_to_window B d rule reason s b s' : (forall c, In c (book_of s) -> key_of c = due_id d -> ~ B (key_of c)) -> defer_to_window d rule reason s = Ok (b, s') -> on_book (kept_but B) s s'.
Proof.
  intros Hb H. unfold defer_to_window in H. destruct (due_grace_from d); [|by apply ret_ok in H as [_ ->]].
  apply bind_ok in H as (m & s1 & E & H). apply clock_ticks in E as ->. apply (kept_tick B 1).
  destruct (_ <=? m); [by apply ret_ok in H as [_ ->]|]. apply bind_ok in H as (n & s1 & E & H). apply gets_ok in E as [-> ->].
  apply bind_ok in H as (r & s1 & E & H). apply session_ok in E as [-> ->]. apply bind_ok in H as (k & s1 & E & H). apply ret_ok in H as [_ ->].
  revert E. apply (put_back_at B _ _ (fun _ => Some _)).
  - intros c E. by apply andb_true_iff in E as [_ E].
  - rewrite tick_book. intros c Hc E. rewrite !andb_true_iff, Z.eqb_eq in E. apply Hb; [done|tauto].
Qed.

Lemma fresh_ok x n : row_ok (fresh x n).
Proof. constructor; simpl; [unfold STATUSES; set_solver|done|lia|done]. Qed.

Section Others.
Context (B : uuid -> Prop).
Abbreviation keeps := (respects (on_book (kept_but B))).
#[local] Hint Resolve keeps_session keeps_moment keeps_clock keeps_desk keeps_wallet : respects.

Lemma keeps_call_off hmac_hex dumps key t o : keeps (call_off_for_stopped_campaigns hmac_hex dumps key t o).
Proof.
  unfold call_off_for_stopped_campaigns. respects; [|set (l := order_by _ _); induction l; simpl; [|unfold audit_called_off]; respects; done].
  apply (kept_ended B _ (fun _ => "cancelled")); [|terminal]. intros c _ E. rewrite !andb_true_iff in E. apply waiting_live. tauto.
Qed.

Lemma same_conversation_spec x y : same_conversation x y = true <-> (pr_tenant y, source_execution_id y) = (pr_tenant x, source_execution_id x).
Proof. unfold same_conversation. rewrite andb_true_iff, Z.eqb_eq, String.eqb_eq. split; [by intros [-> ->]|by intros [= -> ->]]. Qed.
Lemma rebooked_follows x n c : waiting c = true -> booked_at (promised c) < booked_at x -> follows c (rebooked x n c).
Proof. intros W L. constructor; try done; simpl; [lia|lia|]. by rewrite waiting_live. Qed.
Lemma keeps_book x : keeps (book x).
Proof.
  intros s b s' H. unfold book in H. set (y := as_stored x) in *. apply bind_ok in H as (u & s1 & E & H).
  apply keeps_wallet with (B := B) in E. transitivity s1; [exact E|]. clear E u s.
  apply bind_ok in H as (t & s2 & E & H). apply gets_ok in E as [-> ->]. apply bind_ok in H as (n & s2 & E & H). apply gets_ok in E as [-> ->].
  destruct (find _ _) as [c|] eqn:Ef.
  - destruct (_ && _) eqn:Ec; [|by apply ret_ok in H as [_ ->]]. apply bind_ok in H as (k & s2 & E & H). apply ret_ok in H as [_ ->].
    revert E. apply kept_but_update.
    + constructor; [done|done|..]; intros z R Hz; rewrite !andb_true_iff in Hz; destruct Hz as [[_ Hw] Hb].
      * apply rebooked_follows; [done|lia].
      * destruct R. by constructor.
    + intros z Hz _ Hw. rewrite !andb_true_iff in Hz. destruct Hz as [[_ Hw'] _]. congruence.
  - destruct (existsb _ _) eqn:Ex; [done|]. apply bind_ok in H as (k & s2 & E & H). apply modify_ok in E as ->. apply ret_ok in H as [_ ->].
    intros (K & D & F). unfold on_book. rewrite book_with. split; [split; [|split]|].
    + apply insert_pk_ok; [|done]. intros (c & Ec & Hc)%in_map_iff. assert (existsb (fun c => key_of c =? pr_id y) (book_of s1) = true); [|congruence].
      apply existsb_exists. exists c. split; [done|]. apply Z.eqb_eq. rewrite Ec. done.
    + rewrite map_app. apply NoDup_app. split; [done|]. split; [|apply NoDup_singleton]. intros v Hv Hv'. apply list_elem_of_singleton in Hv' as ->.
      apply list_elem_of_In, in_map_iff in Hv as (c & Ec & Hc). apply (find_none _ _ Ef) in Hc.
      assert (same_conversation y (promised c) = true); [|congruence]. by apply same_conversation_spec.
    + apply Forall_app. split; [done|]. apply Forall_singleton, fresh_ok.
    + intros c Hc. exists c. split; [apply in_or_app; by left|done].
Qed.

(** What a suppression calls off ([Dnc]). *)
Abbreviation row_keeps := (respects (on_table (kept_but B))).
Lemma same_table_keeps {C} (m : tx roll C) : (forall s b s', m s = Ok (b, s') -> scheduled_callbacks s' = scheduled_callbacks s) -> row_keeps m.
Proof. intros Hm s b s' H. unfold on_table. by rewrite (Hm _ _ _ H). Qed.
Lemma row_keeps_fees {C} (m : tx PlatformFee.fees C) : row_keeps (in_fees m).
Proof. apply same_table_keeps. intros s b s' H. unfold in_fees in H. destruct (m _) as [[b' f]|]; [|done]. by injection H as _ <-. Qed.
Lemma cancelled_follows n reason keep c : row_ok c -> waiting c = true ->
  follows c (cancelled n reason keep c) /\ row_ok (cancelled n reason keep c).
Proof.
  intros [Rs Rt Ra Rd] W. split; [apply follows_same; [done|by rewrite waiting_live]|].
  constructor; simpl; [unfold STATUSES; set_solver|done|done|done].
Qed.
Lemma cancel_table t p n reason keep : (forall c, p c = true -> waiting c = true) ->
  kept_but B t (update p (cancelled n reason keep) t).
Proof.
  intros Hp K. assert (assigns p (cancelled n reason keep)) as A.
  { constructor; [done|done|..]; intros c R E; apply cancelled_follows; auto. }
  split; [by apply update_table_ok|]. intros c Hc. exists (if p c then cancelled n reason keep c else c).
  split; [by apply update_In; exists c|]. destruct (p c) eqn:E; [|done]. destruct K as (_ & _ & F). rewrite Forall_forall in F.
  split; [apply A; [by apply F, list_elem_of_In|done]|done].
Qed.
Lemma row_keeps_cancel_callbacks runs reason : row_keeps (cancel_callbacks runs reason).
Proof.
  unfold cancel_callbacks, Dnc.txn_now, session_tenant. respects. apply respects_modify. intros s. apply cancel_table.
  intros c E. apply andb_true_iff in E as [E _]. unfold scheduled in E. by apply andb_true_iff in E as [_ E].
Qed.
Lemma row_keeps_stop l reason : row_keeps (stop_each l reason).
Proof.
  assert (forall f g, row_keeps (modify (fun s => with_follow_ups (f s) (g s) s))) as Hf.
  { intros f g. apply same_table_keeps. by intros s u s' ->%modify_ok. }
  induction l as [|x l IH]; simpl; [respects|]. unfold record, finish, Dnc.txn_now, session_tenant, Dnc.in_wallet.
  pose proof @row_keeps_fees. respects; apply same_table_keeps; by intros s u s' ->%modify_ok.
Qed.
Lemma row_keeps_cancel phones reason : row_keeps (cancel_for_phones phones reason).
Proof.
  assert (row_keeps (stop_for_phones phones "do_not_call")) as Hs.
  { pose proof row_keeps_cancel_callbacks. pose proof row_keeps_stop. unfold stop_for_phones, session_tenant. respects. }
  intros s k s' H. unfold cancel_for_phones, Dnc.txn_now, session_tenant in H. case_bool_decide; [by apply ret_ok in H as [_ ->]|]. tx_inv.
  match goal with E : stop_for_phones _ _ _ = _ |- _ => apply Hs in E; etrans; [|exact E] end.
  apply cancel_table. intros c E. apply andb_true_iff in E as [E _]. unfold scheduled in E. by apply andb_true_iff in E as [_ E].
Qed.
Lemma keeps_roll {C} (m : tx roll C) : row_keeps m -> keeps (on_roll m).
Proof.
  intros Hm s b s' H. unfold on_roll, in_floor, Gate.in_roll in H. destruct (m _) as [[b' r]|] eqn:E; [|done]. injection H as _ <-.
  by apply Hm in E.
Qed.
End Others.

(** ** Any transactions, in any order *)

Section Steps.
Context (hmac_hex : string -> string -> string) (dumps : Audit.payload -> string) (audit_key : string).
(** One statement on the promises, with those it may put back in line; or a write of
    another table, of which the session and the clock are part. *)
Inductive callback_step : (callback -> Prop) -> diary -> diary -> Prop :=
| step_book x s b s' : book x s = Ok (b, s') -> callback_step (fun _ => False) s s'
| step_expire o s b s' : expire_stale o s = Ok (b, s') -> callback_step (fun _ => False) s s'
| step_hold s b s' : hold_for_paused_campaigns s = Ok (b, s') -> callback_step (fun _ => False) s s'
| step_release o s b s' : release_resumed o s = Ok (b, s') -> callback_step (fun _ => False) s s'
| step_call_off t o s b s' : call_off_for_stopped_campaigns hmac_hex dumps audit_key t o s = Ok (b, s') -> callback_step (fun _ => False) s s'
| step_settle_dialled o s b s' : settle_dialled o s = Ok (b, s') -> callback_step (fun _ => False) s s'
| step_claim o k s b s' : claim_due o k s = Ok (b, s') -> callback_step (fun _ => False) s s'
| step_defer i rule reason s b s' : defer i rule reason s = Ok (b, s') -> callback_step (fun c => key_of c = i) s s'
| step_defer_recalled k rule reason s b s' : defer_recalled k rule reason s = Ok (b, s') ->
    callback_step (fun c => last_call_id (progress_of c) = Some k) s s'
| step_defer_to_window d rule reason s b s' : defer_to_window d rule reason s = Ok (b, s') -> callback_step (fun c => key_of c = due_id d) s s'
| step_cancel_recalled k reason s b s' : cancel_recalled k reason s = Ok (b, s') -> callback_step (fun _ => False) s s'
| step_cancel_one i reason s b s' : cancel_one i reason s = Ok (b, s') -> callback_step (fun _ => False) s s'
| step_settle i st rule reason k s b s' : settle i st rule reason k s = Ok (b, s') -> callback_step (fun _ => False) s s'
| step_link i m k s b s' : link_callback_to_call i m k s = Ok (b, s') -> callback_step (fun _ => False) s s'
| step_suppressed phones reason s b s' : on_roll (cancel_for_phones phones reason) s = Ok (b, s') -> callback_step (fun _ => False) s s'
| step_follow_ups runs reason s b s' : on_roll (cancel_callbacks runs reason) s = Ok (b, s') -> callback_step (fun _ => False) s s'
| step_other s s' : same_book s s' -> callback_step (fun _ => False) s s'.
Definition any_step (s s' : diary) : Prop := exists back, callback_step back s s'.
(** A step that does not put the promise [i] back. *)
Definition unput (i : uuid) (s s' : diary) : Prop :=
  exists back, callback_step back s s' /\ forall c, In c (book_of s) -> key_of c = i -> ~ back c.

Lemma keeps_step back B s s' : callback_step back s s' -> (forall c, In c (book_of s) -> back c -> ~ B (key_of c)) -> on_book (kept_but B) s s'.
Proof.
  intros H Hb. destruct H as [x s b s' H|o s b s' H|s b s' H|o s b s' H|t o s b s' H|o s b s' H|o k s b s' H|i rule reason s b s' H|k rule reason s b s' H
    |d rule reason s b s' H|k reason s b s' H|i reason s b s' H|i st rule reason k s b s' H|i m k s b s' H|ph reason s b s' H|runs reason s b s' H|s s' H].
  - by apply (keeps_book B) in H.
  - by apply (keeps_expire B) in H.
  - by apply (keeps_hold B) in H.
  - by apply (keeps_release B) in H.
  - by apply (keeps_call_off B) in H.
  - by apply (keeps_settle_dialled B) in H.
  - by apply (keeps_claim_due B) in H.
  - revert H. apply keeps_defer. intros c Hc Ei. by apply Hb.
  - revert H. apply keeps_defer_where. intros c Hc Ek. apply Hb; [done|]. by apply bool_decide_eq_true in Ek.
  - revert H. apply keeps_defer_to_window. intros c Hc Ei. by apply Hb.
  - by apply (keeps_cancel_recalled B) in H.
  - by apply (keeps_cancel_one B) in H.
  - by apply (keeps_settle B) in H.
  - by apply (keeps_link B) in H.
  - by apply (keeps_roll B) in H; [|apply row_keeps_cancel].
  - by apply (keeps_roll B) in H; [|apply row_keeps_cancel_callbacks].
  - unfold on_book. by rewrite H.
Qed.
Lemma keeps_steps i s s' : rtc (unput i) s s' -> on_book (kept_but (fun x => x = i)) s s'.
Proof.
  induction 1 as [|s1 s2 s3 (back & H & Hb) _ IH]; [done|]. etrans; [|exact IH]. eapply keeps_step; [exact H|].
  intros c Hc Hback E. by apply (Hb c).
Qed.


(** A promise that is due at [m]: it waits, its time has come and so has its next attempt,
    it is not on hold, and the campaign of the call it was made on, if any, is neither
    paused nor stopped. *)
Record is_due (m : instant) (r : uuid) (s : diary) (c : callback) : Prop := IsDue {
  du_own : pr_tenant (promised c) = r;
  du_waits : pg_status (progress_of c) = "scheduled";
  du_time : pr_requested_at (promised c) <= m;
  du_next t : next_attempt_at (progress_of c) = Some t -> t <= m;
  du_unheld : last_refusal_rule (progress_of c) <> Some "campaign_paused";
  du_campaign x : campaign_of r s (source_call_id (promised c)) = Some x -> cm_status x <> "paused" /\ cm_status x <> "cancelled" }.
Lemma claimable_due m r s c : claimable m r s c = true <-> is_due m r s c.
Proof.
  unfold claimable, own, waiting, has_status, rule_is, campaign_is, CAMPAIGN_PAUSED_RULE.
  rewrite !andb_true_iff, Z.eqb_eq, String.eqb_eq, Z.leb_le, !negb_true_iff, orb_false_iff, bool_decide_eq_false. split.
  - intros [[[[[A B] C] D] E] [F G]]. constructor; [done..| |done|]; [intros t E'; rewrite E' in D; lia|].
    intros x E'. rewrite E' in F, G. by rewrite String.eqb_neq in F, G.
  - intros [A B C D E F]. split_and!; try done.
    + destruct (next_attempt_at _) as [t|]; [by apply Z.leb_le, D|done].
    + destruct (campaign_of _ _ _) as [x|] eqn:Ex; [|done]. apply String.eqb_neq. by destruct (F x eq_refl).
    + destruct (campaign_of _ _ _) as [x|] eqn:Ex; [|done]. apply String.eqb_neq. by destruct (F x eq_refl).
Qed.
Lemma due_picked m k s d : table_ok (book_of s) ->
  In d (map (fun c => due_of (hours_of (tenant_of s) s) (dialing (start_of s) c)) (select (id_in key_of (map key_of (picked m k s))) (book_of s))) ->
  exists c, In c (book_of s) /\ d = due_of (hours_of (tenant_of s) s) (dialing (start_of s) c) /\ In c (picked m k s) /\ claimable m (tenant_of s) s c = true.
Proof.
  intros (K & _) (c & <- & Hc)%in_map_iff. apply select_In in Hc as [Hc Hi]. exists c. split; [done|]. split; [done|].
  assert (In c (picked m k s)) as Hp by (by apply claim_picked in Hi). split; [done|]. by apply limit_order_select_In in Hp as [_ ?].
Qed.
(** The claim is full before it passes a due promise over. *)
Lemma picked_full m k s c : table_ok (book_of s) -> In c (book_of s) -> claimable m (tenant_of s) s c = true -> ~ In c (picked m k s) ->
  length (select (id_in key_of (map key_of (picked m k s))) (book_of s)) = k.
Proof.
  intros (K & _) Hc Hm Hn. transitivity (length (picked m k s)).
  2:{ unfold picked, limit in *. rewrite length_take. destruct (Nat.le_gt_cases k (length (order_by oldest (select (claimable m (tenant_of s) s) (book_of s))))); [lia|].
    exfalso. apply Hn. rewrite take_ge by lia. apply order_by_In, select_In. by split. }
  rewrite <- (length_map key_of), <- (length_map key_of (picked m k s)). apply Permutation_length, NoDup_Permutation.
  - unfold pk_ok in K. unfold select. by apply NoDup_map_filter.
  - by apply NoDup_order_select.
  - intros i. rewrite !list_elem_of_In, !in_map_iff. split; intros (x & <- & Hx); exists x; (split; [done|]).
    + apply select_In in Hx as [Hx Hi]. by apply claim_picked in Hi.
    + apply select_In. pose proof Hx as Hp. apply limit_order_select_In in Hp as [Hx' _]. split; [done|]. by apply id_in_spec, in_map.
Qed.

(** C15. The claim.  It takes, of the session's tenant, no more than it is asked for of the
    promises that are due, which wait, are not on hold and are of no paused or stopped
    campaign; each once, passing one over only when it is full and for no later one.  Each
    promise taken is from then on being dialled, one attempt more on its count, the others
    being as they were; and no later claim of any session takes it again until it is put
    back: one dial for one claim. *)
Theorem claimed_once o k s l s' : table_ok (book_of s) -> claim_due o k s = Ok (l, s') ->
  (exists m, m = moment o s
    /\ (length l <= k)%nat /\ NoDup (map due_id l)
    /\ (forall d, In d l -> exists c, In c (book_of s) /\ is_due m (tenant_of s) s c
          /\ due_id d = key_of c /\ due_phone d = pr_phone (promised c) /\ due_agent d = pr_agent (promised c)
          /\ exists c', In c' (book_of s') /\ promised c' = promised c /\ pg_status (progress_of c') = "dialing"
               /\ attempts (progress_of c') = attempts (progress_of c) + 1)
    /\ (forall c, In c (book_of s) -> ~ In (key_of c) (map due_id l) -> In c (book_of s')
          /\ (is_due m (tenant_of s) s c -> length l = k
               /\ forall d, In d l -> due_requested_at d <= pr_requested_at (promised c))))
  /\ (forall d s2 o2 k2 l2 s3, In d l -> rtc (unput (due_id d)) s' s2 -> claim_due o2 k2 s2 = Ok (l2, s3) -> ~ In (due_id d) (map due_id l2)).
Proof.
  intros K H. pose proof (keeps_claim_due (fun _ => False) _ _ _ _ _ H K) as [K' _].
  apply claim_due_spec in H as (m & j & Em & E & -> & _). set (ids := map key_of (picked m k s)) in *.
  set (rows := select (id_in key_of ids) (book_of s)) in *.
  assert (Hids : map due_id (map (fun c => due_of (hours_of (tenant_of s) s) (dialing (start_of s) c)) rows) = map key_of rows) by (by rewrite map_map).
  assert (Hrow : forall c, In c (picked m k s) -> In (dialing (start_of s) c) (book_of s')).
  { intros c Hp. rewrite E. apply update_In. exists c. split; [by apply limit_order_select_In in Hp as [? _]|].
    assert (id_in key_of ids c = true) as -> by (by apply id_in_spec, in_map). done. }
  split.
  - exists m. split; [done|]. split.
    { rewrite length_map. pose proof (claim_length key_of (claimable m (tenant_of s) s) oldest k (dialing (start_of s)) (book_of s) (proj1 K)) as L.
      simpl in L. by rewrite length_map in L. }
    split; [rewrite Hids; destruct K as (K & _); unfold pk_ok in K; unfold rows, select; by apply NoDup_map_filter|]. split.
    + intros d Hd. apply (due_picked m k s d K) in Hd as (c & Hc & -> & Hp & Hm%claimable_due). exists c. split; [done|]. split; [done|].
      split; [done|]. split; [done|]. split; [done|]. exists (dialing (start_of s) c). split; [by apply Hrow|done].
    + intros c Hc Hn. rewrite Hids in Hn. assert (~ In c (picked m k s)) as Hp.
      { intros Hp. apply Hn, in_map, select_In. split; [done|]. by apply id_in_spec, in_map. }
      split.
      { rewrite E. apply update_In. exists c. split; [done|]. destruct (id_in key_of ids c) eqn:Ei; [|done].
        exfalso. apply Hp. destruct K as (K & _). by apply claim_picked in Ei. }
      intros Hm%claimable_due. split; [rewrite length_map; by apply (picked_full m k s c)|].
      intros d Hd. apply (due_picked m k s d K) in Hd as (x & Hx & -> & Hpx & _). simpl.
      assert (oldest x c = true) as Ho; [|unfold oldest, le_at_id in Ho; lia].
      apply (limit_first oldest (le_at_id_total _ _) (le_at_id_trans _ _) k (select (claimable m (tenant_of s) s) (book_of s))); [exact Hpx| |exact Hp].
      apply order_by_In, select_In. by split.
  - intros d s2 o2 k2 l2 s3 Hd Hs H2 Hin. apply (due_picked m k s d K) in Hd as (c & Hc & Ed & Hp & _).
    assert (Ei : key_of c = due_id d) by (by rewrite Ed).
    destruct (keeps_steps _ _ _ Hs K') as [K2 F]. destruct (F _ (Hrow c Hp)) as (c2 & Hc2 & G & W). specialize (W Ei eq_refl).
    apply claim_due_spec in H2 as (m2 & j2 & _ & _ & -> & _). apply in_map_iff in Hin as (d2 & Ed2 & Hd2).
    apply (due_picked m2 k2 s2 d2 K2) in Hd2 as (c3 & Hc3 & Ei3 & _ & Hm%claimable_due). assert (c3 = c2) as ->.
    { apply (pk_unique key_of (book_of s2)); [apply K2|done|done|]. rewrite (fo_key _ _ G). change (key_of c3 = key_of c).
      rewrite Ei, <- Ed2, Ei3. done. }
    unfold waiting, has_status in W. rewrite (du_waits _ _ _ _ Hm) in W. done.
Qed.
End Steps.

(** ** The pass *)

Definition MAX_PER_TICK : nat := 5.
Section Pass.
Context (hmac_hex : string -> string -> string) (dumps : Audit.payload -> string) (audit_key : string).
(** The first transaction of [dispatch_due_callbacks]: how many ended, and what to dial. *)
Definition settle_and_claim (tenant_id : uuid) (slots : nat) : tx diary (nat * list DueCallback) :=
  a ← settle_dialled None ;
  b ← call_off_for_stopped_campaigns hmac_hex dumps audit_key tenant_id None ;
  hold_for_paused_campaigns ;;
  release_resumed None ;;
  c ← expire_stale None ;
  due ← claim_due None (Nat.min slots MAX_PER_TICK) ;
  ret ((a + b + c)%nat, due).

(** What the statements read and leave: the calls, the campaigns, the session, and the
    clock, which has only moved on. *)
Record around (s s' : diary) : Prop := Around {
  an_calls : call_table s' = call_table s;
  an_campaigns : campaigns s' = campaigns s;
  an_tenant : tenant_of s' = tenant_of s;
  an_ticks : exists j, forall n, ticks (wallet_at s') n = ticks (wallet_at s) (j + n)%nat }.
#[export] Instance around_preorder : PreOrder around.
Proof.
  split; [intros s; constructor; try done; by exists 0%nat|]. intros s1 s2 s3 [A B C [i D]] [A' B' C' [j D']]. constructor; try congruence.
  exists (i + j)%nat. intros n. by rewrite D', D, Nat.add_assoc.
Qed.
Lemma around_tick j s : around s (tick_by j s).
Proof.
  constructor; [apply tick_calls|done|apply tick_tenant|]. exists j. intros n. unfold wallet_at, tick_by. simpl. apply Gate.ticks_adv.
Qed.
Lemma around_book t s : around s (with_book t s).
Proof. constructor; try done. by exists 0%nat. Qed.
Lemma around_or_now o : respects around (or_now o).
Proof. intros s m s' [j ->]%or_now_ticks. apply around_tick. Qed.
Lemma around_session : respects around session.
Proof. by intros s r s' [_ ->]%session_ok. Qed.
Lemma around_update p f : respects around (update_where p f).
Proof. intros s k s' [-> _]%update_where_spec. apply around_book. Qed.
Lemma around_desk {B} (m : tx platform B) :
  (forall d b d', m d = Ok (b, d') -> calls (Payments.account d') = calls (Payments.account d) /\ rls (wallet d') = rls (wallet d)
     /\ exists j, forall n, ticks (wallet d') n = ticks (wallet d) (j + n)%nat) ->
  respects around (in_floor (Gate.on_desk m)).
Proof.
  intros Hm s b s' H. destruct s as [[[[[dk ? ?] ? ? ?] ? ? ? ? ?] ? ? ? ? ? ? ? ? ?] ?].
  unfold in_floor, Gate.on_desk, Gate.in_roll, in_desk, in_fees, PlatformFee.on_platform, PlatformFee.on_books, AutoRecharge.on_desk in H.
  cbn in H. destruct (m dk) as [[b' d]|] eqn:E; [|done]. injection H as <- <-. apply Hm in E as (A & B' & C). by constructor.
Qed.
Lemma around_audit t i : respects around (audit_called_off hmac_hex dumps audit_key t i).
Proof.
  unfold audit_called_off. respects.
  - change (respects around (in_floor (Gate.on_desk (on_wallet WalletDb.uuid7)))). apply around_desk. intros d b d' H. unfold on_wallet in H.
    destruct (WalletDb.uuid7 (wallet d)) as [[i' w]|] eqn:E; [|done]. injection H as <- <-. unfold WalletDb.uuid7 in E. tx_inv.
    split; [done|]. split; [done|]. by exists 0%nat.
  - apply (around_or_now None).
  - apply around_desk. intros d u d' ->%modify_ok. split; [done|]. split; [done|]. by exists 0%nat.
Qed.
Lemma around_audits t l : respects around (audit_each hmac_hex dumps audit_key t l).
Proof. pose proof (around_audit t). induction l; simpl; respects. Qed.

Section Around.
Context (s s' : diary) (A : around s s').
Lemma around_campaign r c x : campaign_is x r s' c = campaign_is x r s c.
Proof. destruct A as [B C _ _]. unfold campaign_is, campaign_of, call_row, campaign_row. by rewrite B, C. Qed.
Lemma around_last_call r c : last_call r s' c = last_call r s c.
Proof. destruct A as [B _ _ _]. unfold last_call, call_row. by rewrite B. Qed.
End Around.

(** A moment the clock shows from [s] on. *)
Definition shown (s : diary) (m : instant) : Prop := exists j, m = ticks (wallet_at s) j.
Lemma shown_around s s' m : around s s' -> shown s' m -> shown s m.
Proof. intros [_ _ _ [i E]] [j ->]. exists (i + j)%nat. apply E. Qed.
Lemma clock_spec s m s' : or_now None s = Ok (m, s') -> shown s m /\ s' = tick_by 1 s.
Proof.
  unfold or_now, clock, in_floor. destruct (Gate.clock _) as [[m' f]|] eqn:E; [|done]. intros [= <- <-].
  apply Gate.clock_ok in E as [-> ->]. split; [by exists 0%nat|done].
Qed.

(** The reads an operation starts with. *)
Ltac read H := repeat (let E := fresh in apply bind_ok in H as (? & ? & E & H);
  first [apply clock_spec in E as [? ->] | apply session_ok in E as [-> ->] | apply gets_ok in E as [-> ->]]).
Lemma update_ext {X} (p q : X -> bool) f t : (forall x, p x = q x) -> update p f t = update q f t.
Proof. intros E. unfold update. apply map_ext. intros x. by rewrite E. Qed.
(** What an UPDATE leaves of every row. *)
Lemma update_all (P Q : callback -> Prop) p f t : (forall c, In c t -> P c) ->
  (forall c, P c -> p c = true -> Q (f c)) -> (forall c, P c -> p c = false -> Q c) -> forall c, In c (update p f t) -> Q c.
Proof. intros H Hf Hn c (x & Hx & ->)%update_In. destruct (p x) eqn:E; auto. Qed.

Lemma expire_stale_spec s k s' : expire_stale None s = Ok (k, s') -> around s s' /\ exists m, shown s m
  /\ book_of s' = update (fun c => own (tenant_of s) c && waiting c && (grace_start c <? m - GRACE) && negb (rule_is CAMPAIGN_PAUSED_RULE c))
       (missed (start_of s)) (book_of s).
Proof.
  intros H. unfold expire_stale in H. read H. apply update_where_spec in H as [-> _]. rewrite tick_start, tick_book, tick_tenant.
  split; [etrans; [apply around_tick|apply around_book]|]. by exists x.
Qed.
Lemma hold_paused_spec s k s' : hold_for_paused_campaigns s = Ok (k, s') -> around s s'
  /\ book_of s' = update (fun c => own (tenant_of s) c && waiting c && campaign_is "paused" (tenant_of s) s c && negb (rule_is CAMPAIGN_PAUSED_RULE c))
       (held (start_of s)) (book_of s).
Proof.
  intros H. unfold hold_for_paused_campaigns in H. read H. apply update_where_spec in H as [-> _]. split; [apply around_book|done].
Qed.
Lemma release_resumed_spec s k s' : release_resumed None s = Ok (k, s') -> around s s' /\ exists m, shown s m
  /\ book_of s' = update (fun c => own (tenant_of s) c && waiting c && rule_is CAMPAIGN_PAUSED_RULE c && negb (campaign_is "paused" (tenant_of s) s c))
       (released m (start_of s) (hours_of (tenant_of s) (tick_by 1 s))) (book_of s).
Proof.
  intros H. unfold release_resumed in H. read H. apply update_where_spec in H as [-> _]. rewrite tick_start, tick_book, tick_tenant.
  split; [etrans; [apply around_tick|apply around_book]|]. exists x. split; [done|]. rewrite book_with. apply update_ext.
  intros c. by rewrite (around_campaign _ _ (around_tick 1 s)).
Qed.
Lemma call_off_spec t s k s' : call_off_for_stopped_campaigns hmac_hex dumps audit_key t None s = Ok (k, s') -> around s s'
  /\ book_of s' = update (fun c => own (tenant_of s) c && waiting c && campaign_is "cancelled" (tenant_of s) s c && true) (called_off (start_of s)) (book_of s).
Proof.
  intros H. unfold call_off_for_stopped_campaigns in H. read H. apply bind_ok in H as (j & s1 & E & H). apply bind_ok in H as (u & s2 & E' & H).
  apply ret_ok in H as [_ ->]. apply update_where_spec in E as [-> _]. split.
  - etrans; [apply around_book|exact (around_audits _ _ _ _ _ E')].
  - assert (forall l, respects same_book (audit_each hmac_hex dumps audit_key t l)) as K; [|exact (K _ _ _ _ E')].
    pose proof same_clock. pose proof @same_on_wallet. pose proof @same_on_desk. intros l. induction l; simpl; [|unfold audit_called_off]; respects; done.
Qed.
Lemma settle_dialled_spec s k s' : settle_dialled None s = Ok (k, s') -> around s s' /\ exists m, shown s m
  /\ book_of s' = update (fun c => own (tenant_of s) c && has_status "dialing" c && (pg_updated_at (progress_of c) <? m - STUCK_DIALING_AFTER)) (stuck (start_of s))
      (update (fun c => own (tenant_of s) c && has_status "dialing" c
         && match last_call (tenant_of s) s c with Some k => call_ended (ca_status k) | None => false end)
       (by_its_call (tenant_of s) (tick_by 1 s) (start_of s)) (book_of s)).
Proof.
  intros H. unfold settle_dialled in H. read H. apply bind_ok in H as (i & s1 & E & H). apply bind_ok in H as (j & s2 & E' & H).
  apply ret_ok in H as [_ ->]. apply update_where_spec in E as [-> _]. apply update_where_spec in E' as [-> _]. rewrite tick_start, tick_tenant.
  split; [etrans; [apply around_tick|etrans; [apply around_book|]; apply around_book]|]. exists x. split; [done|]. by rewrite !book_with, tick_book.
Qed.

(** A promise that is dialled and was not claimed by this pass: its call, if it became one,
    is still on, and it was touched less than [STUCK_DIALING_AFTER] before [m]. *)
Definition still_on (r : uuid) (s : diary) (m : instant) (c : callback) : Prop :=
  match last_call r s c with Some k => call_ended (ca_status k) = false | None => True end
  /\ m - STUCK_DIALING_AFTER <= pg_updated_at (progress_of c).
(** A promise that waits: its campaign has not stopped, it is on hold exactly while the
    campaign is paused, and otherwise it is within [GRACE] of its time at [m]. *)
Definition in_line (r : uuid) (s : diary) (m : instant) (c : callback) : Prop :=
  campaign_is "cancelled" r s c = false /\ rule_is CAMPAIGN_PAUSED_RULE c = campaign_is "paused" r s c
  /\ (campaign_is "paused" r s c = false -> m - GRACE <= grace_start c).


(** What each statement leaves of every row: [p] chooses the rows [f] is written on. *)
Section Rows.
Context (r : uuid) (s : diary) (m1 m2 n : instant).
Definition unended (c : callback) : Prop := own r c = true -> has_status "dialing" c = true ->
  match last_call r s c with Some k => call_ended (ca_status k) = false | None => True end.
Definition after_dialled (c : callback) : Prop := own r c = true -> has_status "dialing" c = true -> still_on r s m1 c.
Definition after_call_off c : Prop := after_dialled c /\ (own r c = true -> waiting c = true -> campaign_is "cancelled" r s c = false).
Definition after_hold c : Prop :=
  after_call_off c /\ (own r c = true -> waiting c = true -> campaign_is "paused" r s c = true -> rule_is CAMPAIGN_PAUSED_RULE c = true).
Definition after_release c : Prop :=
  after_hold c /\ (own r c = true -> waiting c = true -> campaign_is "paused" r s c = false -> rule_is CAMPAIGN_PAUSED_RULE c = false).
Definition after_expire c : Prop :=
  after_release c /\ (own r c = true -> waiting c = true -> rule_is CAMPAIGN_PAUSED_RULE c = false -> m2 - GRACE <= grace_start c).

Definition leaves (P Q : callback -> Prop) (p : callback -> bool) (f : callback -> callback) : Prop :=
  forall c, P c -> (p c = true -> Q (f c)) /\ (p c = false -> Q c).
Lemma leaves_rows P Q p p' f t : leaves P Q p f -> (forall c, p' c = p c) -> (forall c, In c t -> P c) -> forall c, In c (update p' f t) -> Q c.
Proof. intros L E H c (x & Hx & ->)%update_In. rewrite E. destruct (L x (H x Hx)). destruct (p x); auto. Qed.
Lemma waiting_not_dialing c c' : waiting c = true -> pg_status (progress_of c') = pg_status (progress_of c) -> after_dialled c'.
Proof. unfold waiting, has_status. intros W%String.eqb_eq E _ Hd%String.eqb_eq. congruence. Qed.
Lemma by_call_row s' : leaves (fun _ => True) unended
  (fun c => own r c && has_status "dialing" c && match last_call r s c with Some k => call_ended (ca_status k) | None => false end) (by_its_call r s' n).
Proof.
  intros c _. split; intros E Ho Hd.
  { unfold has_status, by_its_call in Hd. destruct (last_call r s' c) as [k|]; [destruct (String.eqb (ca_status k) "failed")|]; done. }
  rewrite Ho, Hd in E. simpl in E. by destruct (last_call r s c).
Qed.
Lemma stuck_row : leaves unended after_dialled
  (fun c => own r c && has_status "dialing" c && (pg_updated_at (progress_of c) <? m1 - STUCK_DIALING_AFTER)) (stuck n).
Proof.
  intros c K. split; intros E Ho Hd; [done|]. split; [by apply K|]. rewrite Ho, Hd in E. simpl in E. lia.
Qed.
Lemma call_off_row : leaves after_dialled after_call_off (fun c => own r c && waiting c && campaign_is "cancelled" r s c && true) (called_off n).
Proof.
  intros c K. split; intros E; (split; [|intros Ho Hw]); try done. rewrite Ho, Hw, andb_true_r in E. done.
Qed.
Lemma hold_row : leaves after_call_off after_hold
  (fun c => own r c && waiting c && campaign_is "paused" r s c && negb (rule_is CAMPAIGN_PAUSED_RULE c)) (held n).
Proof.
  intros c K. split; intros E.
  - rewrite !andb_true_iff in E. destruct E as [[[_ W] _] _]. split; [|done]. split; [by apply (waiting_not_dialing c)|apply K].
  - split; [exact K|]. intros Ho Hw Hp. rewrite Ho, Hw, Hp in E. by apply negb_false_iff in E.
Qed.
Lemma release_row h m : leaves after_hold after_release
  (fun c => own r c && waiting c && rule_is CAMPAIGN_PAUSED_RULE c && negb (campaign_is "paused" r s c)) (released m n h).
Proof.
  intros c K. split; intros E.
  - rewrite !andb_true_iff, negb_true_iff in E. destruct E as [[[_ W] _] E]. split; [|done].
    split; [split; [by apply (waiting_not_dialing c)|apply K]|]. intros _ _ Hp. change (campaign_is "paused" r s c = true) in Hp. congruence.
  - split; [exact K|]. intros Ho Hw Hp. rewrite Ho, Hw, Hp, andb_true_r in E. done.
Qed.
Lemma expire_row : leaves after_release after_expire
  (fun c => own r c && waiting c && (grace_start c <? m2 - GRACE) && negb (rule_is CAMPAIGN_PAUSED_RULE c)) (missed n).
Proof.
  intros c K. split; intros E.
  - split; [|done]. split; [split; [split|]|]; done.
  - split; [exact K|]. intros Ho Hw Hr. rewrite Ho, Hw, Hr, andb_true_r in E. simpl in E. lia.
Qed.
End Rows.

(** What the pass settles before it dials.  Whatever the table held, of the session's
    promises after it: one that waits is of no stopped campaign, is on hold exactly while
    its campaign is paused, and unless held is within its grace; and one marked as being
    dialled was claimed by this pass, or has a call that may still be on. *)
Theorem pass_settles t slots s n due s' : settle_and_claim t slots s = Ok ((n, due), s') -> exists m1 m2, shown s m1 /\ shown s m2
  /\ forall c, In c (book_of s') -> own (tenant_of s) c = true ->
       (has_status "dialing" c = true -> In (key_of c) (map due_id due) \/ still_on (tenant_of s) s m1 c)
       /\ (waiting c = true -> in_line (tenant_of s) s m2 c).
Proof.
  intros H. unfold settle_and_claim in H. set (r := tenant_of s).
  apply bind_ok in H as (n1 & s1 & E1 & H). apply bind_ok in H as (n2 & s2 & E2 & H). apply bind_ok in H as (n3 & s3 & E3 & H).
  apply bind_ok in H as (n4 & s4 & E4 & H). apply bind_ok in H as (n5 & s5 & E5 & H). apply bind_ok in H as (l & s6 & E6 & H).
  apply ret_ok in H as [[= _ ->] ->].
  apply settle_dialled_spec in E1 as (A1 & m1 & M1 & B1). apply call_off_spec in E2 as (A2 & B2). apply hold_paused_spec in E3 as (A3 & B3).
  apply release_resumed_spec in E4 as (A4 & m4 & M4 & B4). apply expire_stale_spec in E5 as (A5 & m5 & M5 & B5). apply claim_due_spec in E6 as (m6 & j & _ & B6 & Ed & _).
  assert (A12 : around s s2) by (by etrans). assert (A13 : around s s3) by (by etrans). assert (A14 : around s s4) by (by etrans).
  assert (A15 : around s s5) by (by etrans). pose proof (an_tenant _ _ A1) as T1. pose proof (an_tenant _ _ A12) as T2. pose proof (an_tenant _ _ A13) as T3.
  pose proof (an_tenant _ _ A14) as T4. pose proof (an_tenant _ _ A15) as T5. fold r in B1, T1, T2, T3, T4, T5.
  exists m1, m5. split; [done|]. split; [by apply (shown_around _ _ _ A14)|].
  assert (forall c, In c (book_of s1) -> after_dialled r s m1 c) as K1.
  { rewrite B1. eapply leaves_rows; [apply stuck_row|done|]. by eapply leaves_rows; [apply by_call_row| |]. }
  assert (forall c, In c (book_of s2) -> after_call_off r s m1 c) as K2.
  { rewrite B2, T1. eapply leaves_rows; [apply call_off_row|intros c; by rewrite (around_campaign _ _ A1)|done]. }
  assert (forall c, In c (book_of s3) -> after_hold r s m1 c) as K3.
  { rewrite B3, T2. eapply leaves_rows; [apply hold_row|intros c; by rewrite (around_campaign _ _ A12)|done]. }
  assert (forall c, In c (book_of s4) -> after_release r s m1 c) as K4.
  { rewrite B4, T3. eapply leaves_rows; [apply release_row|intros c; by rewrite (around_campaign _ _ A13)|done]. }
  assert (forall c, In c (book_of s5) -> after_expire r s m1 m5 c) as K5.
  { rewrite B5, T4. eapply leaves_rows; [apply expire_row|done|done]. }
  intros c Hc Ho. rewrite B6 in Hc. apply update_In in Hc as (x & Hx & ->). destruct (id_in _ _ x) eqn:Ei.
  - split; [|done]. intros _. left. rewrite Ed, map_map. change (key_of (dialing (start_of s5) x)) with (key_of x).
    apply (in_map key_of _ x), select_In. by split.
  - destruct (K5 x Hx) as [[[[Kd Kc] Kh] Kr] Ke]. split; [right; by apply Kd|]. intros Hw. split; [by apply Kc|].
    assert (rule_is CAMPAIGN_PAUSED_RULE x = campaign_is "paused" r s x) as Er.
    { destruct (campaign_is "paused" r s x) eqn:Ep; [by apply Kh|by apply Kr]. }
    split; [done|]. intros Ep. apply Ke; [done|done|by rewrite Er].
Qed.
End Pass.

(** ** One promise, dialled or answered for *)

Definition LEAD_ON_A_CALL_RULE : string := "lead_on_a_call".
Definition DIAL_FAILED_RULE : string := "dial_failed".
Definition LINES_BUSY_RULE : string := "carrier_lines_busy".
Definition ENGINE_PERSON_REFUSALS : list string := ["engine_recipient_opted_out"; "engine_platform_dnc_block"].
Definition BIG_RED_SWITCH_REASON : string := "Outbound calling is halted platform-wide by the operations team.".
Definition CALLING_HOURS_REASON : string := "Outbound calls are only placed between 9:00 and 21:00 IST.".
Definition STALE_CALLBACK_REASON : string := "This follow-up moved on, so this call was not needed.".
Definition TRIAL_CALLBACK_REASON : string :=
  "Call backs are not placed during your free trial, so this caller was not rung back. Follow up with them yourself; call backs start once you add credit and verify your business.".
Definition UNCONFIRMED_REASON : string :=
  "We started this call and did not hear back from the phone system, so it may have gone through. We will not try again in case it rings them twice.".
Definition DIAL_FAILED_REASON : string := "The phone system would not place this call.".
Definition LINES_BUSY_REASON : string := "All our phone lines were busy; we will try again shortly.".
Definition OPTED_OUT_REASON : string := "This number is marked as not to be called, so the call-back was not placed.".
Definition RETRY_NOT_NEEDED_REASON : string := "They answered an earlier call, so this retry was not needed.".
Definition ON_A_CALL_REASON : string := "They were still on a call with us; we will try again shortly.".
(** [_WAIT_REFUSALS]. *)
Definition WAIT_REFUSALS (code : string) : option string :=
  if String.eqb code LINES_BUSY_RULE then Some LINES_BUSY_REASON
  else if String.eqb code Gate.CALLING_HOURS_RULE then Some CALLING_HOURS_REASON
  else None.

Inductive RetryVerdict := still_wanted | answered | on_a_call.
(** What [dispatch_call] comes to: a call placed; [DialUnconfirmedError]; any other
    exception, by its code. *)
Inductive dialling := Placed (call : uuid) | Unconfirmed (call : uuid) | Declined (code : string).
(** [CallOrigin]: the campaign, and the name. *)
Record CallOrigin := Origin { or_campaign : option uuid; or_name : option Phone.text }.

(** What the pass asks of the Follow-ups (follow_ups/runner.py), of the new lead's retries
    (ingest/lead_policy.py), of the campaign's contacts and of the one outbound entry
    point, which is given the promise, where it comes from and its [on_reserved] hook. *)
Class Surroundings := {
  step : Type;
  step_attempt : step -> Z;
  parse_callback_key : string -> option step;
  new_lead_attempt : string -> option (Z * string);
  callback_is_stale : step -> tx diary bool;
  retry_still_wanted : option uuid -> string -> instant -> tx diary RetryVerdict;
  call_answered_elsewhere : step -> tx diary unit;
  call_refused : step -> string -> tx diary unit;
  wait_on_call : step -> uuid -> tx diary unit;
  call_origin : option uuid -> option uuid -> string -> tx diary CallOrigin;
  dispatch_call : uuid -> DueCallback -> CallOrigin -> (uuid -> tx diary unit) -> tx diary dialling;
  book_next_try : step -> DueCallback -> tx diary unit;
  book_retry : uuid -> DueCallback -> Z -> string -> tx diary unit }.

(** Neither the promises nor the session. *)
Definition aside (s s' : diary) : Prop := book_of s' = book_of s /\ tenant_of s' = tenant_of s.
Definition only_reads {B} (m : tx diary B) : Prop := forall s b s', m s = Ok (b, s') -> exists j, s' = tick_by j s.
Abbreviation books := (respects (on_book (kept_but (fun _ => True)))).
(** Its laws: the questions change no table; what is written beside the promises keeps to
    them; and all a dial does to the promises is to run its hook, at most once. *)
Class Lawful `{Surroundings} : Prop := {
  stale_reads x : only_reads (callback_is_stale x);
  retry_reads l n b : only_reads (retry_still_wanted l n b);
  origin_reads i l n : only_reads (call_origin i l n);
  answered_books x : books (call_answered_elsewhere x);
  refused_books x rule : books (call_refused x rule);
  waits_aside x k : respects aside (wait_on_call x k);
  next_books x d : books (book_next_try x d);
  retry_books t d a root : books (book_retry t d a root);
  dispatch_links t d o link s r s' : dispatch_call t d o link s = Ok (r, s') ->
    aside s s' \/ exists s1 k u s2, aside s s1 /\ link k s1 = Ok (u, s2) /\ aside s2 s' }.

Inductive outcome := dialled | blocked | neither.

Section Dial.
Context (engine : string) (is_developer_workspace : string -> bool).
Context (trial_daily_call_cap trial_call_max_seconds : Z).
Context (switch : PlatformFee.FeeSwitch) (enforced_from : Z) (is_space : Z -> bool).
Context (first_words_disclose : Phone.text -> Gate.opening -> option Phone.text -> option string -> bool).
(** The sentence [check_dispatch] gives with each rule. *)
Context (sentence : string -> option string).
Context {the_rest : Surroundings}.
Abbreviation check_dispatch := (Gate.check_dispatch engine is_developer_workspace trial_daily_call_cap trial_call_max_seconds switch
  enforced_from is_space first_words_disclose).

Definition told_run {B} (x : option step) (f : step -> tx diary B) (b : B) : tx diary B := match x with Some x => f x | None => ret b end.
Definition decision (p : Gate.PlatformStatus) (tenant_id : uuid) (d : DueCallback) : tx diary (Gate.DispatchDecision * option string) :=
  if Gate.outbound_halted p then ret (Gate.refused Gate.BIG_RED_SWITCH_RULE, Some BIG_RED_SWITCH_REASON)
  else x ← in_floor (check_dispatch p tenant_id (due_agent d) (due_phone d) false false true) ;
       ret (x, match Gate.rule x with Some r => sentence r | None => None end).
(** The promise ends refused, and its run with it. *)
Definition refuse (d : DueCallback) (x : option step) (rule : string) (reason : option string) : tx diary unit :=
  settle (due_id d) "refused" (Some rule) reason None ;; told_run x (fun x => call_refused x rule) tt.
Definition gate_refuses (d : DueCallback) (x : option step) (rule : string) (reason : option string) : tx diary unit :=
  if bool_decide (rule ∈ Gate.PERSON_LEVEL_REFUSALS) then refuse d x rule reason
  else if bool_decide (rule ∈ TrialAccess.TrialAccess.TRIAL_DIAL_REFUSALS) then refuse d x rule (Some TRIAL_CALLBACK_REASON)
  else defer (due_id d) rule reason.
(** The hook: [link_callback_to_call], inside [link_run_to_call] for a Follow-up's call. *)
Definition on_reserved (d : DueCallback) (x : option step) (o : CallOrigin) (call_id : uuid) : tx diary unit :=
  link_callback_to_call (due_id d) (or_campaign o) call_id ;; told_run x (fun x => wait_on_call x call_id) tt.
Definition place (tenant_id : uuid) (d : DueCallback) (x : option step) (attempt : option (Z * string)) : tx diary outcome :=
  o ← call_origin (due_source_call d) (due_lead d) (due_phone d) ;
  r ← dispatch_call tenant_id d o (on_reserved d x o) ;
  match r with
  | Unconfirmed k => settle (due_id d) "failed" None (Some UNCONFIRMED_REASON) (Some k) ;; ret neither
  | Declined code =>
      (if bool_decide (code ∈ ENGINE_PERSON_REFUSALS) then refuse d x code (Some OPTED_OUT_REASON)
       else match WAIT_REFUSALS code with
            | Some reason => defer (due_id d) code (Some reason)
            | None => defer (due_id d) DIAL_FAILED_RULE (Some DIAL_FAILED_REASON)
            end) ;;
      ret blocked
  | Placed _ =>
      match x, attempt with
      | Some x, _ => book_next_try x d
      | None, Some (a, root) => book_retry tenant_id d a root
      | None, None => ret tt
      end ;;
      ret dialled
  end.
Definition call_one (p : Gate.PlatformStatus) (tenant_id : uuid) (d : DueCallback) : tx diary outcome :=
  let attempt := new_lead_attempt (due_execution d) in
  let x := parse_callback_key (due_execution d) in
  stale ← told_run x callback_is_stale false ;
  if stale : bool then settle (due_id d) "cancelled" None (Some STALE_CALLBACK_REASON) None ;; ret neither
  else
    let retry := match attempt with Some (a, _) => 0 <? a | None => false end
                 || match x with Some x => 0 <? step_attempt x | None => false end in
    verdict ← (if retry then retry_still_wanted (due_lead d) (due_phone d) (due_booked_at d) else ret still_wanted) ;
    match verdict with
    | answered =>
        settle (due_id d) "cancelled" None (Some RETRY_NOT_NEEDED_REASON) None ;;
        told_run x call_answered_elsewhere tt ;; ret neither
    | on_a_call => defer (due_id d) LEAD_ON_A_CALL_RULE (Some ON_A_CALL_REASON) ;; ret neither
    | still_wanted =>
        closed ← defer_to_window d Gate.CALLING_HOURS_RULE (Some CALLING_HOURS_REASON) ;
        match closed with
        | Some _ => ret blocked
        | None =>
            v ← decision p tenant_id d ;
            if negb (Gate.allowed (fst v))
            then gate_refuses d x (match Gate.rule (fst v) with Some r => if String.eqb r "" then "unknown" else r | None => "unknown" end) (snd v) ;;
                 ret blocked
            else place tenant_id d x attempt
        end
    end.

(** *** Every claim is answered for *)

(** The promise [c] of [s], later and such that [Q]. *)
Definition becomes (Q : callback -> Prop) (c : callback) (s' : diary) : Prop :=
  table_ok (book_of s') /\ exists c', In c' (book_of s') /\ follows c c' /\ Q c'.
Definition ended_or_waits (c : callback) : Prop := over c = true \/ waiting c = true.
Lemma becomes_keeps (Q : callback -> Prop) c s s' : (forall c c', Q c -> follows c c' -> (waiting c = false -> waiting c' = false) -> Q c') ->
  on_book (kept_but (fun _ => True)) s s' -> becomes Q c s -> becomes Q c s'.
Proof.
  intros HQ K [T (c1 & Hc1 & F1 & Q1)]. destruct (K T) as [T' F]. split; [done|]. destruct (F c1 Hc1) as (c2 & Hc2 & F2 & W).
  exists c2. split; [done|]. split; [by etrans|]. apply (HQ c1); [done|done|auto].
Qed.
Lemma over_keeps c c' : over c = true -> follows c c' -> (waiting c = false -> waiting c' = false) -> over c' = true.
Proof. intros Ho F _. destruct (fo_over _ _ F Ho) as [_ E]. by rewrite (over_ending _ _ E). Qed.
Lemma here c s (Q : callback -> Prop) : table_ok (book_of s) -> In c (book_of s) -> Q c -> becomes Q c s.
Proof. intros T Hc Hq. split; [done|]. by exists c. Qed.
Lemma update_becomes p f s k s' c (Q : callback -> Prop) : assigns p f -> table_ok (book_of s) -> In c (book_of s) ->
  (p c = true -> Q (f c)) -> (p c = false -> Q c) -> update_where p f s = Ok (k, s') -> becomes Q c s'.
Proof.
  intros A T Hc Hf Hn [-> _]%update_where_spec. unfold becomes. rewrite book_with. split; [by apply update_table_ok|].
  exists (if p c then f c else c). split; [by apply update_In; exists c|]. destruct (p c) eqn:E; [|split; [done|auto]]. split; [|auto].
  apply A; [|done]. destruct T as (_ & _ & F). rewrite Forall_forall in F. by apply F, list_elem_of_In.
Qed.

Section Claimed.
(** A promise of the session that is being dialled, or that has ended since. *)
Context (c : callback) (i : uuid) (Hi : key_of c = i) (Hw : waiting c = false).
Lemma claim_row_ok s : table_ok (book_of s) -> In c (book_of s) -> row_ok c.
Proof. intros (_ & _ & F) Hc. rewrite Forall_forall in F. by apply F, list_elem_of_In. Qed.
Lemma dialing_or_over : has_status "dialing" c = false -> over c = true.
Proof. intros Hd. destruct (over c) eqn:E; [done|]. apply over_live in E as [E|E]; congruence. Qed.
Lemma settle_ends st rule reason k s u s' : table_ok (book_of s) -> In c (book_of s) -> own (tenant_of s) c = true ->
  settle i st rule reason k s = Ok (u, s') -> becomes (fun c => over c = true) c s'.
Proof.
  intros T Hc Ho H. unfold settle in H. destruct (bool_decide _) eqn:E; [|done]. apply bool_decide_eq_true in E. cbn [negb] in H.
  apply bind_ok in H as (n & s1 & E1 & H). apply gets_ok in E1 as [-> ->]. apply bind_ok in H as (r & s1 & E1 & H). apply session_ok in E1 as [-> ->].
  apply bind_ok in H as (j & s1 & E1 & H). apply ret_ok in H as [_ ->]. revert E1. apply update_becomes; [|done|done|..].
  - apply (assigns_ended _ (fun _ => st)); [|done]. intros x R Hp. rewrite !andb_true_iff, negb_true_iff in Hp. apply unsettled_live; tauto.
  - intros _. by apply (terminal_over (ended st _ _ _ _ c)).
  - rewrite Ho, Hi, Z.eqb_refl. simpl. intros Hs. destruct (over c) eqn:Eo; [done|]. apply (ro_settled _ (claim_row_ok s T Hc)) in Eo. by rewrite Eo in Hs.
Qed.
Lemma put_back_waits next grace rule reason n s k s' : table_ok (book_of s) -> In c (book_of s) -> own (tenant_of s) c = true ->
  update_where (fun c => own (tenant_of s) c && (key_of c =? i) && has_status "dialing" c) (fun c => put_back next (grace c) rule reason n c) s = Ok (k, s') ->
  becomes ended_or_waits c s'.
Proof.
  intros T Hc Ho. apply update_becomes; [|done|done|..].
  - apply (assigns_relive _ (fun _ => "scheduled") _ (fun _ => Some next) grace (fun _ => Some rule) (fun _ => reason)).
    intros x R E. rewrite !andb_true_iff in E. destruct E as [_ E]. split; [by apply dialing_live|]. left. split; [done|]. pose proof (ro_dialing _ R E). lia.
  - intros _. by right.
  - rewrite Ho, Hi, Z.eqb_refl. intros Hd. left. by apply dialing_or_over.
Qed.
Lemma defer_waits rule reason s u s' : table_ok (book_of s) -> In c (book_of s) -> own (tenant_of s) c = true ->
  defer i rule reason s = Ok (u, s') -> becomes ended_or_waits c s'.
Proof.
  intros T Hc Ho H. unfold defer, defer_where in H. apply bind_ok in H as (k & s1 & H & E). apply ret_ok in E as [_ ->].
  apply bind_ok in H as (m & s2 & E & H). apply clock_ticks in E as ->. apply bind_ok in H as (n & s2 & E & H). apply gets_ok in E as [-> ->].
  apply bind_ok in H as (r & s2 & E & H). apply session_ok in E as [-> ->]. revert H. rewrite <- (tick_tenant 1 s) in Ho.
  apply (put_back_waits _ (fun c => grace_from (progress_of c))); rewrite ?tick_book; done.
Qed.
Lemma window_waits d rule reason s t s' : due_id d = i -> table_ok (book_of s) -> In c (book_of s) -> own (tenant_of s) c = true ->
  defer_to_window d rule reason s = Ok (t, s') -> (t = None /\ exists j, s' = tick_by j s) \/ (t <> None /\ becomes ended_or_waits c s').
Proof.
  intros Hd T Hc Ho H. unfold defer_to_window in H. destruct (due_grace_from d); [|apply ret_ok in H as [-> ->]; left; split; [done|by exists 0%nat; destruct s]].
  apply bind_ok in H as (m & s1 & E & H). apply clock_ticks in E as ->. destruct (_ <=? m); [apply ret_ok in H as [-> ->]; left; split; [done|by exists 1%nat]|].
  apply bind_ok in H as (n & s1 & E & H). apply gets_ok in E as [-> ->]. apply bind_ok in H as (r & s1 & E & H). apply session_ok in E as [-> ->].
  apply bind_ok in H as (k & s1 & E & H). apply ret_ok in H as [-> ->]. right. split; [done|]. rewrite Hd in E. revert E. rewrite <- (tick_tenant 1 s) in Ho.
  apply (put_back_waits _ (fun _ => Some _)); rewrite ?tick_book; done.
Qed.
End Claimed.

Lemma becomes_trans c c1 Q s : follows c c1 -> becomes Q c1 s -> becomes Q c s.
Proof. intros F [T (c2 & Hc2 & F2 & HQ)]. split; [done|]. exists c2. split; [done|]. split; [by etrans|done]. Qed.
Lemma becomes_weaken (P Q : callback -> Prop) c s : (forall c, P c -> Q c) -> becomes P c s -> becomes Q c s.
Proof. intros W [T (c2 & Hc2 & F2 & HP)]. split; [done|]. exists c2. auto. Qed.
Lemma ended_settled c s : becomes (fun c => over c = true) c s -> becomes ended_or_waits c s.
Proof. apply becomes_weaken. by left. Qed.

Section Lawful.
Context {the_laws : Lawful} (d : DueCallback).
Lemma refuse_ends c x rule reason s u s' : key_of c = due_id d -> table_ok (book_of s) -> In c (book_of s) -> own (tenant_of s) c = true ->
  refuse d x rule reason s = Ok (u, s') -> becomes (fun c => over c = true) c s'.
Proof.
  intros Hi T Hc Ho H. unfold refuse in H. apply bind_ok in H as (v & s1 & E & H). eapply settle_ends in E; [|done..].
  destruct x as [x|]; [|by apply ret_ok in H as [_ ->]]. simpl in H. apply refused_books in H. revert H E. apply becomes_keeps, over_keeps.
Qed.
Lemma gate_refusal c x rule reason s u s' : key_of c = due_id d -> waiting c = false -> table_ok (book_of s) -> In c (book_of s) -> own (tenant_of s) c = true ->
  gate_refuses d x rule reason s = Ok (u, s') -> becomes ended_or_waits c s'.
Proof.
  intros Hi Hw T Hc Ho H. unfold gate_refuses in H. destruct (bool_decide _); [|destruct (bool_decide _)].
  - eapply ended_settled, refuse_ends; done.
  - eapply ended_settled, refuse_ends; done.
  - eapply defer_waits in H; done.
Qed.
(** The session, which the hook leaves. *)
Definition same_tenant (s s' : diary) : Prop := tenant_of s' = tenant_of s.
#[local] Instance same_tenant_preorder : PreOrder same_tenant.
Proof. split; [done|]. unfold same_tenant. intros s1 s2 s3. congruence. Qed.
Lemma tenant_desk {B} (m : tx platform B) : (forall a b a', m a = Ok (b, a') -> rls (wallet a') = rls (wallet a)) ->
  respects same_tenant (in_floor (Gate.on_desk m)).
Proof.
  intros Hm s b s' E. destruct s as [[[[[dk ? ?] ? ? ?] ? ? ? ? ?] ? ? ? ? ? ? ? ? ?] ?].
  unfold in_floor, Gate.on_desk, Gate.in_roll, in_desk, in_fees, PlatformFee.on_platform, PlatformFee.on_books, AutoRecharge.on_desk in E.
  cbn in E. destruct (m dk) as [[b' a]|] eqn:Em; [|done]. injection E as <- <-. by apply Hm in Em.
Qed.
Lemma tenant_link i m k : respects same_tenant (link_callback_to_call i m k).
Proof.
  unfold link_callback_to_call. respects.
  - by intros s r s' [_ ->]%session_ok.
  - by intros s r s' [-> _]%update_where_spec.
  - apply tenant_desk. intros a0 v a1 E. unfold Account.write in E. tx_inv. done.
Qed.
Lemma hook_keeps x o k s u s' : on_reserved d x o k s = Ok (u, s') -> on_book (kept_but (fun _ => True)) s s' /\ tenant_of s' = tenant_of s.
Proof.
  intros H. unfold on_reserved in H. apply bind_ok in H as (v & s1 & E & H).
  assert (aside s1 s') as [Eb Et]. { destruct x as [x|]; simpl in H; [by apply waits_aside in H|by apply ret_ok in H as [_ ->]]. }
  split; [|rewrite Et; by apply tenant_link in E]. apply (keeps_link (fun _ => True)) in E. unfold on_book in *. by rewrite Eb.
Qed.
Lemma dispatch_keeps t x o s r s' : dispatch_call t d o (on_reserved d x o) s = Ok (r, s') ->
  on_book (kept_but (fun _ => True)) s s' /\ tenant_of s' = tenant_of s.
Proof.
  intros [[Eb Et]|(s1 & k & u & s2 & [Eb Et] & [K1 T1]%hook_keeps & [Eb2 Et2])]%dispatch_links; unfold on_book in *.
  - by rewrite Eb.
  - rewrite Eb2. rewrite Eb in K1. split; [done|congruence].
Qed.
Definition answered_for (o : outcome) (c : callback) : Prop := match o with dialled => waiting c = false | _ => ended_or_waits c end.
Lemma placed_answers t c x attempt s o s' : key_of c = due_id d -> waiting c = false -> table_ok (book_of s) -> In c (book_of s) -> own (tenant_of s) c = true ->
  place t d x attempt s = Ok (o, s') -> becomes (answered_for o) c s'.
Proof.
  intros Hi Hw T Hc Ho H. unfold place in H. apply bind_ok in H as (g & s1 & E & H). apply origin_reads in E as [j ->].
  apply bind_ok in H as (r & s2 & E & H). apply dispatch_keeps in E as [K Et]. rewrite tick_tenant in Et.
  unfold on_book in K. rewrite tick_book in K. destruct (K T) as [T2 F]. destruct (F c Hc) as (c2 & Hc2 & F2 & W2). specialize (W2 I Hw).
  apply (becomes_trans c c2); [done|]. assert (key_of c2 = due_id d) as Hi2 by (by rewrite (fo_key _ _ F2)).
  assert (own (tenant_of s2) c2 = true) as Ho2. { rewrite Et. pose proof (fo_conversation _ _ F2) as [= Ep _]. unfold own. by rewrite Ep. }
  destruct r as [k|k|code].
  - apply bind_ok in H as (u & s3 & E & H). apply ret_ok in H as [-> ->]. assert (on_book (kept_but (fun _ => True)) s2 s3) as K3.
    { destruct x as [x|]; [by apply next_books in E|]. destruct attempt as [[a root]|]; [by apply retry_books in E|by apply ret_ok in E as [_ ->]]. }
    revert K3. intros K3. apply (becomes_keeps _ _ _ _ (fun c c' Hc0 _ W => W Hc0) K3). by apply here.
  - apply bind_ok in H as (u & s3 & E & H). apply ret_ok in H as [-> ->]. eapply ended_settled, settle_ends; done.
  - apply bind_ok in H as (u & s3 & E & H). apply ret_ok in H as [-> ->]. cbn [answered_for].
    destruct (bool_decide _); [eapply ended_settled, refuse_ends; done|]. destruct (WAIT_REFUSALS code); eapply defer_waits in E; done.
Qed.

Lemma told_reads x : only_reads (told_run x callback_is_stale false).
Proof. destruct x; [apply stale_reads|]. intros s b s' [_ ->]%ret_ok. exists 0%nat. by destruct s. Qed.
Lemma verdict_reads (b : bool) l n t : only_reads (if b then retry_still_wanted l n t else ret still_wanted).
Proof. destruct b; [apply retry_reads|]. intros s v s' [_ ->]%ret_ok. exists 0%nat. by destruct s. Qed.
Lemma tick_add i j s : tick_by i (tick_by j s) = tick_by (i + j) s.
Proof. unfold tick_by, with_floor. simpl. by rewrite Gate.adv_add. Qed.
(** The gate of a promise asks, and changes nothing. *)
Lemma gate_reads p t i phone own places : Gate.reads (check_dispatch p t i phone false own places).
Proof.
  unfold Gate.check_dispatch, Gate.unless, Gate.read_agent, Gate.session, Gate.truthful_answer_drift_blocker.
  pose proof (Gate.reads_blockers trial_daily_call_cap trial_call_max_seconds switch).
  pose proof (Gate.reads_a2p enforced_from).
  pose proof Gate.reads_stopped. pose proof Gate.reads_person. pose proof Gate.reads_clock_timestamp. Gate.asks; auto.
Qed.
(** The promise's turn, from the hours of its campaign on. *)
Lemma decided p t c x attempt s o s' : key_of c = due_id d -> waiting c = false -> table_ok (book_of s) -> In c (book_of s) -> own (tenant_of s) c = true ->
  bind (decision p t d) (fun v => if negb (Gate.allowed (fst v))
    then gate_refuses d x (match Gate.rule (fst v) with Some r => if String.eqb r "" then "unknown" else r | None => "unknown" end) (snd v) ;; ret blocked
    else place t d x attempt) s = Ok (o, s') ->
  becomes (answered_for o) c s'
  /\ (o = dialled -> Gate.cleared engine is_developer_workspace trial_daily_call_cap trial_call_max_seconds switch enforced_from is_space
        first_words_disclose p t (due_agent d) (due_phone d) false false true (floor_of s)).
Proof.
  intros Hi Hw T Hc Ho H. apply bind_ok in H as ([v reason] & s1 & E & H). cbn [fst snd] in H.
  assert (exists j, s1 = tick_by j s /\ (Gate.allowed v = true -> Gate.cleared engine is_developer_workspace trial_daily_call_cap
    trial_call_max_seconds switch enforced_from is_space first_words_disclose p t (due_agent d) (due_phone d) false false true (floor_of s))) as (j & -> & Ha).
  { unfold decision in E. destruct (Gate.outbound_halted p); [apply ret_ok in E as [[= -> _] ->]; exists 0%nat; by destruct s|].
    apply bind_ok in E as (w & s2 & E & E'). apply ret_ok in E' as [[= -> _] ->]. unfold in_floor in E.
    destruct (gate_reads p t (due_agent d) (due_phone d) false true (floor_of s)) as (w' & j & Eg). rewrite Eg in E. injection E as <- <-.
    exists j. split; [done|]. revert Eg. apply Gate.allowed_cleared. }
  assert (table_ok (book_of (tick_by j s))) as T' by (by rewrite tick_book). assert (In c (book_of (tick_by j s))) as Hc' by (by rewrite tick_book).
  assert (own (tenant_of (tick_by j s)) c = true) as Ho' by (by rewrite tick_tenant).
  destruct (Gate.allowed v) eqn:Ea; cbn [negb] in H.
  - split; [revert H; by apply placed_answers|]. intros _. by apply Ha.
  - apply bind_ok in H as (u & s2 & E2 & H). apply ret_ok in H as [-> ->]. split; [|done]. by eapply gate_refusal.
Qed.

(** What becomes of the promise in its turn. *)
Lemma turn_answered p t c s o s' : table_ok (book_of s) -> In c (book_of s) -> key_of c = due_id d ->
  own (tenant_of s) c = true -> waiting c = false -> call_one p t d s = Ok (o, s') ->
  becomes (answered_for o) c s'
  /\ (o = dialled -> exists j, Gate.cleared engine is_developer_workspace trial_daily_call_cap trial_call_max_seconds switch enforced_from is_space
        first_words_disclose p t (due_agent d) (due_phone d) false false true (floor_of (tick_by j s))).
Proof.
  intros T Hc Hi Ho Hw H. unfold call_one in H.
  assert (forall j, table_ok (book_of (tick_by j s)) /\ In c (book_of (tick_by j s)) /\ own (tenant_of (tick_by j s)) c = true) as Hj
    by (intros j; by rewrite tick_book, tick_tenant).
  apply bind_ok in H as (b & s1 & E & H). apply told_reads in E as [i ->]. destruct (Hj i) as (T1 & Hc1 & Ho1). destruct b.
  { apply bind_ok in H as (u & s1 & E & H). apply ret_ok in H as [-> ->]. split; [|done]. eapply ended_settled, settle_ends; done. }
  apply bind_ok in H as (v & s1 & E & H). apply verdict_reads in E as [k ->]. rewrite tick_add in H. destruct (Hj (k + i)%nat) as (T2 & Hc2 & Ho2).
  destruct v.
  - apply bind_ok in H as (w & s1 & E & H). destruct (window_waits c (due_id d) Hi Hw d _ _ _ _ _ eq_refl T2 Hc2 Ho2 E) as [[-> [l ->]]|[Et E2]].
    + rewrite tick_add in H. destruct (Hj (l + (k + i))%nat) as (T3 & Hc3 & Ho3). apply (decided p t c) in H; [|done..]. destruct H as [Ha Hd].
      split; [done|]. intros Eo. eexists. by apply Hd.
    + destruct w; [|done]. apply ret_ok in H as [-> ->]. split; [exact E2|done].
  - apply bind_ok in H as (u & s1 & E & H). apply bind_ok in H as (u' & s2 & E' & H). apply ret_ok in H as [-> ->]. split; [|done].
    apply ended_settled. eapply settle_ends in E; [|done..]. destruct (parse_callback_key _); [|by apply ret_ok in E' as [_ ->]].
    apply answered_books in E'. revert E' E. apply becomes_keeps, over_keeps.
  - apply bind_ok in H as (u & s1 & E & H). apply ret_ok in H as [-> ->]. split; [|done]. eapply defer_waits in E; done.
Qed.

(** The gate of a promise passes it only when it is cleared. *)
Lemma decision_cleared p t s v s1 : decision p t d s = Ok (v, s1) -> Gate.allowed (fst v) = true ->
  Gate.cleared engine is_developer_workspace trial_daily_call_cap trial_call_max_seconds switch enforced_from is_space
    first_words_disclose p t (due_agent d) (due_phone d) false false true (floor_of s).
Proof.
  intros E Ha. unfold decision in E. destruct (Gate.outbound_halted p); [by apply ret_ok in E as [-> _]|].
  apply bind_ok in E as (w & s2 & E & E'). apply ret_ok in E' as [-> _]. unfold in_floor in E.
  destruct (gate_reads p t (due_agent d) (due_phone d) false true (floor_of s)) as (w' & j & Eg). rewrite Eg in E. injection E as <- <-.
  cbn [fst] in Ha. revert Ha. revert Eg. apply Gate.allowed_cleared.
Qed.
Lemma window_open rule reason s s' : defer_to_window d rule reason s = Ok (None, s') -> exists j, s' = tick_by j s.
Proof.
  unfold defer_to_window. destruct (due_grace_from d); [|intros [_ ->]%ret_ok; exists 0%nat; by destruct s].
  intros (m & s1 & ->%clock_ticks & H)%bind_ok. destruct (_ <=? m); [apply ret_ok in H as [_ ->]; by exists 1%nat|].
  repeat (apply bind_ok in H as (? & ? & _ & H)). by apply ret_ok in H as [? _].
Qed.
End Lawful.
End Dial.

(** *** Nobody is rung past the gate *)

(** The same surroundings, with another phone system. *)
Definition redialled (w : Surroundings) (f : uuid -> DueCallback -> CallOrigin -> (uuid -> tx diary unit) -> tx diary dialling) : Surroundings := {|
  step := step; step_attempt := step_attempt; parse_callback_key := parse_callback_key; new_lead_attempt := new_lead_attempt;
  callback_is_stale := callback_is_stale; retry_still_wanted := retry_still_wanted; call_answered_elsewhere := call_answered_elsewhere;
  call_refused := call_refused; wait_on_call := wait_on_call; call_origin := call_origin; dispatch_call := f;
  book_next_try := book_next_try; book_retry := book_retry |}.
Lemma bind_or {F B C} (P : Prop) (m : tx diary B) (k : F -> B -> tx diary C) (k' : B -> tx diary C) s :
  (forall b s', m s = Ok (b, s') -> P \/ forall f, k f b s' = k' b s') -> P \/ forall f, bind m (k f) s = bind m k' s.
Proof. intros H. unfold bind. destruct (m s) as [[b s']|]; [by apply H|by right]. Qed.

Section Rung.
Context (engine : string) (is_developer_workspace : string -> bool) (trial_daily_call_cap trial_call_max_seconds : Z).
Context (switch : PlatformFee.FeeSwitch) (enforced_from : Z) (is_space : Z -> bool).
Context (first_words_disclose : Phone.text -> Gate.opening -> option Phone.text -> option string -> bool).
Context (sentence : string -> option string) {the_rest : Surroundings} {the_laws : Lawful}.
Abbreviation turn w := (call_one engine is_developer_workspace trial_daily_call_cap trial_call_max_seconds switch enforced_from is_space
  first_words_disclose sentence (the_rest := w)).
Abbreviation cleared p t d s := (Gate.cleared engine is_developer_workspace trial_daily_call_cap trial_call_max_seconds switch enforced_from
  is_space first_words_disclose p t (due_agent d) (due_phone d) false false true (floor_of s)).
Lemma uncleared_undialled p t d s :
  (exists j, cleared p t d (tick_by j s)) \/ forall f, turn (redialled the_rest f) p t d s = turn the_rest p t d s.
Proof.
  set (x := parse_callback_key (due_execution d)). unfold call_one. cbv zeta.
  apply (bind_or _ (told_run x callback_is_stale false)). intros b s1 [i ->]%told_reads. destruct b; [by right|].
  set (retry := match new_lead_attempt (due_execution d) with Some (a, _) => 0 <? a | None => false end
                || match x with Some x => 0 <? step_attempt x | None => false end).
  apply (bind_or _ (if retry then retry_still_wanted (due_lead d) (due_phone d) (due_booked_at d) else ret still_wanted)).
  intros v s1 [k ->]%verdict_reads. rewrite tick_add. destruct v; [|by right..].
  apply bind_or. intros [t'|] s1 E; [by right|]. apply window_open in E as [l ->]. rewrite tick_add.
  apply bind_or. intros v s1 E. destruct (Gate.allowed (fst v)) eqn:Ea; [|by right].
  left. eexists. by eapply decision_cleared.
Qed.

(** C16. Every claim is answered for.  One promise's turn at the dial, whatever the
    Follow-ups, the retries and the phone system say, as long as they keep to their own
    tables: unless the gate clears that very call, on no do-not-call list and inside the
    hours among the rest, the phone system is not asked, whatever it would have done; a
    promise that was dialled is not put back; and one that was not has ended, or it waits
    for its next turn.  None is left as being dialled with nobody dialling it. *)
Theorem claim_answered p t d c s o s' : table_ok (book_of s) -> In c (book_of s) -> key_of c = due_id d ->
  own (tenant_of s) c = true -> waiting c = false -> turn the_rest p t d s = Ok (o, s') ->
  (table_ok (book_of s') /\ exists c', In c' (book_of s') /\ follows c c'
     /\ match o with dialled => waiting c' = false | _ => over c' = true \/ waiting c' = true end)
  /\ (o = dialled -> exists j, cleared p t d (tick_by j s))
  /\ ((exists j, cleared p t d (tick_by j s)) \/ forall f, turn (redialled the_rest f) p t d s = Ok (o, s')).
Proof.
  intros T Hc Hi Ho Hw H. destruct (turn_answered _ _ _ _ _ _ _ _ _ d p t c s o s' T Hc Hi Ho Hw H) as [Ha Hd].
  split; [exact Ha|]. split; [exact Hd|]. destruct (uncleared_undialled p t d s) as [|E]; [by left|right]. intros f. by rewrite E.
Qed.
End Rung.

(** ** An example *)
Module Example.
Import Gate.Example(no_developer, says, up, person).
Definition at_ (t : instant) (k : list call) (m : list campaign) (l : list callback) : diary :=
  let desk := Payments.Pay account (Db 7 t (fun k => t + Z.of_nat k) Z.of_nat [] [] [] []) (RateCard.RatesDb [] []) [] [] [] []
    (Acct [] [] [] [Organization 7 "active" None (Some 0) None None] [] [] [] k []) in
  let roll := Roll (PlatformFee.Fees (AutoRecharge.Recharge account desk [] [] []) [] [] [PlatformFee.Standing 7 "managed" None None None None])
    [] [] l [] [] in
  Diary (Gate.Example.floor_of roll Kyc.Example.verified "outbound") m.
Definition hour (h : Z) : Z := h * 3600 * 1000000.
Definition ten : instant := of_ist (DateTime (Date 2026 10 1) (hms 10 0 0)).
Definition ring (i : uuid) (t : instant) (source : string) (k : option uuid) : promise := Promise i 7 5 k source None person t 0 None None.
Definition booked (i : uuid) (t : instant) (source : string) (k : option uuid) : callback := fresh (ring i t source k) 0.
Definition state_of (r : result (nat * list DueCallback * diary)) : list (uuid * string * option string) * list uuid :=
  match r with
  | Ok ((_, due), s) => (map (fun c => (key_of c, pg_status (progress_of c), last_refusal_rule (progress_of c))) (book_of s), map due_id due)
  | Err _ => ([], [])
  end.
Definition hours_10_11 : Hours.hours := Hours.Hours (Some "10:00") (Some "11:00").
Definition line (st : string) : list campaign := [Campaign 30 7 st (Some hours_10_11)].
Definition sold : list call := [Call 40 7 (Some 30) false (Some 60) 0 "completed"].
Abbreviation pass_ st l := (settle_and_claim Audit.Example.keyed Audit.Example.dumps "key" 7 3 (at_ (ten + hour 2) sold (line st) l)).
Definition four : list callback :=
  [booked 1 (ten + hour 1) "a" None; booked 2 (ten - hour 1) "b" None; booked 3 (ten + hour 1) "c" (Some 40); booked 4 (ten + hour 3) "d" None].
Example passes :
  map (fun st => state_of (pass_ st four)) ["running"; "paused"; "cancelled"]
  = [([(1, "dialing", None); (2, "missed", None); (3, "dialing", None); (4, "scheduled", None)], [1; 3]);
     ([(1, "dialing", None); (2, "missed", None); (3, "scheduled", Some "campaign_paused"); (4, "scheduled", None)], [1]);
     ([(1, "dialing", None); (2, "missed", None); (3, "cancelled", Some "campaign_stopped"); (4, "scheduled", None)], [1])].
Proof. vm_compute. reflexivity. Qed.

(** A phone system that takes every call, and one that takes none. *)
Definition quiet_world (answer : uuid -> (uuid -> tx diary unit) -> tx diary dialling) : Surroundings := {|
  step := unit; step_attempt _ := 0; parse_callback_key _ := None; new_lead_attempt _ := None;
  callback_is_stale _ := ret false; retry_still_wanted _ _ _ := ret still_wanted; call_answered_elsewhere _ := ret tt;
  call_refused _ _ := ret tt; wait_on_call _ _ := ret tt; call_origin _ _ _ := ret (Origin None None);
  dispatch_call _ d _ link := answer (due_id d) link; book_next_try _ _ := ret tt; book_retry _ _ _ _ := ret tt |}.
Definition takes : Surroundings := quiet_world (fun i link => link (900 + i) ;; ret (Placed (900 + i))).
Definition declines : Surroundings := quiet_world (fun _ _ => ret (Declined "provider_unavailable")).
Abbreviation turn w p d s :=
  (call_one "thinnest" no_developer 5 600 (PlatformFee.Switch false None) 0 Phone.Example.is_space says (fun r => Some r)
     (the_rest := w) p 7 d s).
Definition due_at (t : instant) : DueCallback := due_of (fun _ => None) (booked 1 t "a" None).
Definition ringing (t : instant) : diary := at_ t [] [] [dialing t (booked 1 t "a" None)].
Definition shows (r : result (outcome * diary)) : option (outcome * list (string * option string * option uuid)) :=
  match r with
  | Ok (o, s) => Some (o, map (fun c => (pg_status (progress_of c), last_refusal_rule (progress_of c), last_call_id (progress_of c))) (book_of s))
  | Err _ => None
  end.
Example turns :
  map shows [turn takes up (due_at ten) (ringing ten); turn declines up (due_at ten) (ringing ten);
             turn takes (Gate.Status true "none") (due_at ten) (ringing ten); turn takes up (due_at (ten + hour 12)) (ringing (ten + hour 12))]
  = map Some
      [(dialled, [("dialing", None, Some 901)]); (blocked, [("scheduled", Some "dial_failed", None)]);
       (blocked, [("scheduled", Some "big_red_switch", None)]); (blocked, [("scheduled", Some "calling_hours", None)])].
Proof. vm_compute. reflexivity. Qed.

(** A tick: the pass at [t], then each claimed promise's turn. *)
Definition tick (w : Surroundings) (st : string) (l : list callback) (t : instant) : list callback :=
  match settle_and_claim Audit.Example.keyed Audit.Example.dumps "key" 7 3 (at_ t sold (line st) l) with
  | Ok ((_, due), s) => fold_left (fun l d => match turn w up d (at_ t sold (line st) l) with Ok (_, s) => book_of s | Err _ => l end) due (book_of s)
  | Err _ => l
  end.
(** Every five minutes from ten to noon. *)
Definition morning (day : Z) : list instant := map (fun k => ten + day * hour 24 + Z.of_nat k * minutes 5) (seq 0 25).
Definition released_at_ten : list callback := tick declines "running" (tick declines "paused" [booked 3 (ten - hour 1) "c" (Some 40)] (ten - hour 1)) (ten - minutes 1).
Definition line_of (l : list callback) : list (string * option string * option instant * option instant) :=
  map (fun c => let g := progress_of c in (pg_status g, last_refusal_rule g, next_attempt_at g, grace_from g)) l.
(** A promise released into calling hours shorter than [GRACE], that the phone system will
    not place, waits again every noon, its grace with it; one never held ends as missed. *)
Example short_hours_never_end :
  line_of (fold_left (tick declines "running") (concat (map morning [0; 1; 2])) released_at_ten)
    = [("scheduled", Some "calling_hours", Some (ten + hour 72), Some (ten + hour 72))]
  /\ line_of (fold_left (tick declines "running") (morning 0) [booked 1 ten "a" None])
    = [("missed", Some "dial_failed", Some (ten + hour 2 + 3), None)].
Proof. vm_compute. done. Qed.

Lemma takes_lawful : @Lawful takes.
Proof.
  assert (Hr : forall B (b : B), only_reads (ret b)) by (intros B b s z s' [_ ->]%ret_ok; exists 0%nat; by destruct s).
  constructor; intros; try apply Hr; try (apply respects_ret, on_book_preorder, kept_but_preorder).
  - apply respects_ret. split; [done|]. intros s1 s2 s3 [A B] [A' B']. split; congruence.
  - right. match goal with E : _ = Ok _ |- _ => apply bind_ok in E as (u & s2 & E1 & E2); apply ret_ok in E2 as [_ ->] end.
    exists s, (900 + due_id d), u, s2. done.
Qed.
Definition two : list callback := [booked 1 ten "a" None; booked 2 ten "b" None].
Lemma fresh_rows (l : list promise) : NoDup (map pr_id l) -> NoDup (map (fun x => (pr_tenant x, source_execution_id x)) l) ->
  table_ok (map (fun x => fresh x 0) l).
Proof.
  intros K D. unfold table_ok, pk_ok. rewrite !map_map. split; [exact K|]. split; [exact D|].
  apply Forall_forall. intros c Hc. apply list_elem_of_In, in_map_iff in Hc as (x & <- & _). apply fresh_ok.
Qed.
Lemma two_ok : table_ok two.
Proof.
  change two with (map (fun x => fresh x 0) [ring 1 ten "a" None; ring 2 ten "b" None]).
  apply fresh_rows; apply (bool_decide_unpack _); vm_compute; exact I.
Qed.
Lemma ringing_ok : table_ok (book_of (ringing ten)).
Proof.
  split; [|split]; [apply NoDup_singleton..|]. apply Forall_singleton. constructor; [unfold STATUSES; set_solver|done|vm_compute; discriminate|done].
Qed.
Definition start : diary := at_ ten [] [] two.
Definition after {B} (r : result (B * diary)) : diary := match r with Ok (_, s) => s | Err _ => start end.
Definition called_off_one : diary := after (cancel_one 2 "No longer needed" start).
Definition rung : diary := after (claim_due None 5 called_off_one).
Definition found {B} (r : result (B * diary)) : bool := match r with Ok _ => true | Err _ => false end.
Lemma after_ok {B} (r : result (B * diary)) : found r = true -> exists b, r = Ok (b, after r).
Proof. destruct r as [[b s]|]; [by exists b|done]. Qed.
End Example.
Import Gate.Example(no_developer, says, up, person).
Import Example.

Lemma claimed_once_witness : exists l, claim_due None 1 start = Ok (l, after (claim_due None 1 start)) /\ map due_id l = [1]
  /\ (length l <= 1)%nat.
Proof.
  destruct (after_ok (claim_due None 1 start)) as [l E]; [vm_compute; reflexivity|]. exists l. split; [exact E|]. split.
  - assert (X : match claim_due None 1 start with Ok (l, _) => map due_id l | Err _ => [] end = [1]) by (vm_compute; reflexivity).
    rewrite E in X. exact X.
  - destruct (claimed_once Audit.Example.keyed Audit.Example.dumps "key" None 1 start l _ two_ok E) as [(m & _ & L & _) _]. exact L.
Defined.
Lemma pass_settles_witness : exists n due s', pass_ "paused" four = Ok ((n, due), s') /\ exists m,
  shown (at_ (ten + hour 2) sold (line "paused") four) m
  /\ forall c, In c (book_of s') -> own 7 c = true -> waiting c = true -> in_line 7 (at_ (ten + hour 2) sold (line "paused") four) m c.
Proof.
  assert (X : found (pass_ "paused" four) = true) by (vm_compute; reflexivity).
  destruct (pass_ "paused" four) as [[[n due] s']|] eqn:E; [|discriminate X]. exists n, due, s'. split; [reflexivity|].
  destruct (pass_settles Audit.Example.keyed Audit.Example.dumps "key" 7 3 _ n due s' E) as (m1 & m2 & _ & M & H).
  exists m2. split; [exact M|]. intros c Hc Ho. exact (proj2 (H c Hc Ho)).
Defined.
Lemma claim_answered_witness : exists s', turn takes up (due_at ten) (ringing ten) = Ok (dialled, s')
  /\ exists j, Gate.cleared "thinnest" no_developer 5 600 (PlatformFee.Switch false None) 0 Phone.Example.is_space says up 7 5 person false false true
       (floor_of (tick_by j (ringing ten))).
Proof.
  assert (X : match turn takes up (due_at ten) (ringing ten) with Ok (dialled, _) => true | _ => false end = true) by (vm_compute; reflexivity).
  destruct (turn takes up (due_at ten) (ringing ten)) as [[[] s']|] eqn:E; try discriminate X. exists s'. split; [reflexivity|].
  refine (proj1 (proj2 (@claim_answered "thinnest" no_developer 5 600 (PlatformFee.Switch false None) 0 Phone.Example.is_space says (fun r => Some r) takes
    takes_lawful up 7 (due_at ten) (dialing ten (booked 1 ten "a" None)) (ringing ten) dialled s' ringing_ok _ _ _ _ E)) _).
  - left. reflexivity.
  - reflexivity.
  - reflexivity.
  - reflexivity.
  - reflexivity.
Defined.
End Callbacks.
